(* ===== verification/_CoqProject ===== *)
-Q . S2P
Prelude.v
Io.v
Bytes.v
Crc32.v
Crc32Table.v
Crc32Fast.v
SysInfo.v
SwuProto.v
Layout.v
SwuSocket.v
SwuAsync.v
SwuBlocking.v
Session.v
Transport.v
Link.v
Owner.v
FunctionFs.v
Dfu.v
DfuDelivery.v
DfuProgress.v
DfuProps.v
Pump.v
Net.v
FastbootProto.v
FastbootTcp.v
TcpDelivery.v
FastbootUsb.v
UsbDelivery.v
UsbTeardown.v
UsbService.v
SocketUpdate.v
UsbConfig.v
Gadget.v
GadgetProps.v
Services.v
Language.v
FfsDesc.v
FfsBuild.v
Aio.v
AioSys.v
Notify.v
AioWait.v
Endpoint.v
AioQueue.v
EpControl.v
Ep0.v
Ep0Serve.v
DfuEndpoint.v
ConfigFs.v
Build.v
Process.v
Functions.v
FfsFunction.v
SimpleKernel.v
GadgetFs.v
GadgetFsProps.v
GadgetStack.v
CliConfig.v
Udc.v
Status.v
FnObjects.v
GadgetRun.v
Udev.v
Cli.v
