(* ===== verification/Prelude.v ===== *)
(** * summit-usbgadget: a verification library

    summit-usbgadget is the daemon of a Linux device that can be updated over
    USB and over the network. It builds composite USB gadgets (DFU, fastboot,
    serial, network, mass storage) through configfs and FunctionFS, listens for
    fastboot and raw update streams on TCP, and hands every firmware image it
    receives to SWUpdate. This library models the daemon's own logic and proves
    what makes it correct: the image a host sends is the image SWUpdate gets, a
    verdict reported to a host is SWUpdate's, nothing is left behind when a
    transfer, a connection or a controller goes away.

    ** The parts of the program and the files that model them

    Shared ground. Prelude.v (this file): notation scope, hint databases,
    tactics, machine integers and list lemmas. Io.v: [std::io] errors and
    results, the state-error monad [M] (an error keeps the state reached, as
    [?] in a [&mut self] method does). Bytes.v: the byte and text primitives of
    the Rust standard library. Net.v: what the services use of a TCP stream.
    Crc32.v: the hasher interface of the DFU suffix check, with the byte-wise
    algorithm of vendor/crc32fast as its instance. Crc32Table.v and Crc32Fast.v
    model the rest of that crate: the table, sixteen bytes at a time, the CRC
    instructions of aarch64, the combination of checksums, and the hasher that
    chooses, which is another instance of the interface.

    SWUpdate. SwuProto.v models crates/swupdate-ipc/src/{swupdate_sys, proto,
    codec, error}.rs: IPC frames as byte buffers, requests, status and progress
    messages; Layout.v lays the C structures of swupdate_sys.rs out and compares
    the offsets. SwuSocket.v, SwuAsync.v and SwuBlocking.v model its clients
    (socket.rs, async_io.rs, blocking.rs) over scripted sockets and a clock; the
    daemon's transfers use the asynchronous one. Session.v models
    crates/summit-usbgadget-swupdate: a session is the producer's handle on a
    transfer. Transfers live in a store ([World]):
    the queue, its sender and receiver, the recycle channel, the status task and
    the drain task, as in stream.rs; what those tasks, SWUpdate and the child
    process do is a step ([bstep], [wstep]) that can happen at any time.
    [open], [try_send], [send], [feed], [eof], [poll_status], [finished],
    [abort] are the methods of the same name. The restart gate (restart.rs) and
    the choice of the target slot are part of it. Transport.v has the programs
    behind those steps: the two transports (ipc.rs on the client, pipe.rs on the
    [fw_update] child) and the tasks of stream.rs. Link.v and Owner.v are the
    libraries of lemmas the clients use: which bytes a queue has accepted and in
    which mode it is ([Link]), which handle owns its sender ([owned]) and its
    status task ([tracked]), each an invariant the session's operations keep
    ([SessionInv]).
    Pump.v verifies [pump_to_swupdate] against the interface [SourceLaws] of a
    producer, the trait [SwupdatePumpSource] of the code.

    USB functions. FunctionFs.v models functionfs.rs of
    crates/summit-usbgadget-usb, the endpoint-zero loop with the handler of a
    function as the interface [EventHandler]; there an event comes with the
    outcome of its data stage. Dfu.v models
    crates/summit-usbgadget-dfu (protocol.rs, handler.rs, gadget.rs, config.rs,
    lib.rs); DfuDelivery.v, DfuProgress.v and DfuProps.v hold its theorems.
    Ep0Serve.v has the same loop on the endpoint zero of the gadget library
    (Ep0.v): its events come from the library's reader, and a handler
    ([CtrlHandler]) reads and answers the data stages itself. It refines the loop
    of FunctionFs.v for every handler that keeps [CtrlHandlerLaws], and
    DfuEndpoint.v has what follows for DFU and fastboot over USB.
    FastbootUsb.v models crates/summit-usbgadget-fastboot-usb (state.rs,
    commands.rs, lib.rs); UsbDelivery.v and UsbTeardown.v hold its theorems, and
    UsbService.v runs its two loops side by side.
    FastbootProto.v models crates/summit-usbgadget-fastboot-proto, shared with
    the TCP transport.

    Network functions. FastbootTcp.v models crates/summit-usbgadget-fastboot-tcp
    (transport.rs, session.rs, lib.rs), with its theorems in TcpDelivery.v.
    SocketUpdate.v models crates/summit-usbgadget-socket-update (lib.rs,
    tls.rs), with its theorems.

    Gadget and process. UsbConfig.v models config.rs, registry.rs and udc.rs of
    crates/summit-usbgadget-usb and the construction of each function; Gadget.v
    models gadget.rs, with GadgetProps.v for the theorems. SysInfo.v models the
    sysinfo modules. Services.v models crates/summit-usbgadget-config/src/lib.rs
    and the entry points of the services; Process.v its shutdown signal, and
    src/main.rs. Build.v models the build scripts (build.rs and
    crates/swupdate-ipc/build.rs).

    The gadget library, patches/usb-gadget. ConfigFs.v models function/util.rs on
    the tree of configfs; Functions.v the kinds of functions (serial, net, msd,
    hid, midi, printer, loopback, sourcesink, audio, video, other); Language.v
    lang.rs. FunctionFS is function/custom: FfsDesc.v (ffs.rs, the byte formats of
    descriptors and strings with the parser the kernel has for them), FfsBuild.v
    (the builders and the descriptors made of them), FfsFunction.v (mounting and
    initialisation), Ep0.v (events and control requests), Aio.v (aio/mod.rs as
    steps of driver, thread and kernel), AioSys.v (aio/sys.rs and the ownership of
    buffers), AioWait.v (a task awaiting a completion), Endpoint.v (the transfer
    calls over the interface [AioDriver] of the AIO queue), AioQueue.v (the driver of
    Aio.v, on a kernel that serves a file's operations in order, as that interface),
    EpControl.v (ioctl.rs and the
    control requests of an endpoint). Notify.v models the notifier those waits use
    (vendor/tokio/src/sync/notify.rs); Status.v the waits for the state of a
    function, the value channel and the remove handlers of function/util.rs;
    FnObjects.v the builders and objects of the functions and the values a gadget
    is described with. GadgetFs.v models gadget.rs: registration,
    binding and removal of whole gadgets; GadgetFsProps.v proves what they do to
    the tree. SimpleKernel.v is a small kernel that satisfies the laws, for the
    runs. GadgetStack.v puts the daemon's gadget.rs on top of the library and
    proves that it implements the description of Gadget.v; GadgetRun.v adds the
    tasks and the shutdown of a running gadget and the loop of the service. Udev.v
    models how the daemon learns of controllers (the enumeration and the monitor
    of its udc.rs and gadget.rs) and starts that loop. Udc.v models the library's
    udc.rs; CliConfig.v and Cli.v model the command line tool (bin/usb-gadget).

    ** How code is represented

    An asynchronous operation ([Async] of Session.v) runs against a schedule, a
    list with what the background does while the operation waits. [None] is
    "still pending when the schedule ended": the state it leaves is that of the
    operation at that await point, which is what dropping the future leaves. A
    connection, the bulk endpoint and endpoint zero are scripts: data in any
    segmentation, errors, lapses of the timers, background events between two
    reads. Theorems quantify over schedules and scripts, so they hold for every
    interleaving of the await points. Integers are [Z] at the width of the code,
    with wrap-around written out where the code can wrap.

    Code outside the repository is an interface with the documented behaviour
    the code relies on: the CRC hasher ([Hasher], [HasherLaws]), OpenSSL
    ([OpenSsl]), the TOML parser and serde ([TomlParser], [Deserializers],
    [PluginConfig]), MAC parsing ([MacParser]), files and programs ([SysEnv]),
    other files ([HostFs]), udev ([UdevLib], [UdevLaws]), and
    the kernel: configfs ([Configfs] with
    [ConfigfsLaws] and [ConfigfsListing]), FunctionFS ([FfsKernel]), its endpoint
    zero ([Ep0Kernel], [Ep0Laws]), and its ioctls ([FfsIoctl]). In
    Gadget.v the outcomes of configfs operations are part of the script of a run;
    GadgetStack.v shows that the operations on configfs give such outcomes.
    Hash maps whose order the code leaves open are visited in an order that is a
    parameter ([iter]), assumed to be a permutation where it matters. Each theorem
    that uses an interface has a concrete run with an instance.

    Four simplifications are worth knowing. A panic is an error of the operation
    that panics, where the model can reach one. A buffer's capacity is the
    requested one (the allocator may give more). Sends on the bulk IN endpoint
    are queued at once or fail by the script. The tasks of a transfer take
    steps at the granularity of one block; a write that fails in the middle of
    a block has its own event.

    ** What is proved

    - Delivery (C1, C3, C5, C6, C9, C11, C34): for DFU, fastboot over USB, fastboot
      over TCP and the socket listener, what the queue of a transfer accepts is
      the image, in order, whatever the blocks, packets, frames (with data in
      them) and segments it arrives in and however SWUpdate interleaves: all of
      it, unless SWUpdate ends the transfer early, and then a prefix; for DFU also
      when the blocks are read from the library's endpoint zero; the data phases
      end at the announced boundary with one reply or wait for SWUpdate; what the
      backend reads is the install request and then the image, and the drain task
      alone brings all of it there if the backend keeps reading.
    - Verdicts and progress (C2, C10, C12, C20): a complete DFU download
      reaches idle again; the end of a download over TCP is answered OKAY exactly
      when SWUpdate reported success, as long as the sink is open; the verdict SWUpdate broadcasts is the one the session
      gets, and there is one in time.
    - The session (C7, C8, C37 to C39): order and completeness of the queue over
      every interleaving; the tasks implement the events of that interleaving; no
      transfer once the task of a successful update has scheduled the restart; the
      target slot; the memory bound.
    - Control requests (C4, C29): the loop on the endpoint is the loop on events
      and their outcomes, and the library's record of the open request agrees with
      the kernel along every sequence of calls, but for two that are named.
    - Release (C13 to C15, C21): whatever ends a connection, a bus session, a
      service or a gadget, no sender stays open and the state is that of a
      fresh one; a TCP session that fails leaves no status task running; the
      removal of a DFU function, at any point of a turn, ends its loop by the next.
    - Codecs (C24, C31, C33, C36): the install request and the published
      descriptors are what their readers take apart again; a DFU suffix, and
      nothing else, is stripped on the way to SWUpdate; every implementation of
      CRC-32 computes what the byte-wise one does.
    - Gadgets (C16 to C19, C22, C23): which controllers are bound, and that none
      is missed between enumeration and monitoring; the manager's
      view of configfs, of one build and of the whole run, is implemented by the
      library on the tree; the order of a shutdown; registering, binding and
      removing a gadget is a round trip.
    - FunctionFS (C25 to C28, C30, C40): the published descriptors match the
      endpoint files; asynchronous transfers lose and
      duplicate nothing, use only memory that is there, and no task that waits for
      one, or for the state of a function, is left sleeping; sending with a
      deadline leaves nothing queued.
    - The process (C32, C35): which gadgets the command line tool adds and leaves on
      an error; every service notices the shutdown.

    Further theorems without a number hold the rest of the components together,
    among them the exchanges of the SWUpdate client with its verdict and time
    limit, the pump of a producer, the fastboot parser and replies, the TCP
    handshake and framing, bulk read lengths, the TLS policy, DFU uploads, the
    fallback without DFU, rebinding and what a run leaves, the services of a
    gadget, the invariant of the DFU loop, the last signal fastboot over USB gives
    its data loop, the notifications of the notifier, the SWUpdate messages, the
    objects of functions, which follow their gadget, the sections a plugin registers, the joining of services, the undoing of the command line tool, the
    combination of checksums, C layouts and the one the build selects, and the
    shape of the serial number.

    Concrete runs (the Demo modules) also record behaviours that differ from
    what the code's comments say, each with its own theorem.

    ** Bounds and fuel

    Loops that consume a finite input take fuel, and their theorems show that
    the stated fuel is enough. [read_header_loop] gets 8 (a header is 8 bytes,
    each read adds at least one), [read_exact_loop] the length it reads. The
    data phase of [stream_download] gets two more than the announced size, since
    each turn takes at least one byte or ends. [pump_to_swupdate] and the socket
    [pump] are shown to end for every fuel greater than the number of bytes (or
    blocks) to come, and fastboot over USB within the number of packets. A
    reconnection window of the SWUpdate client has room for twelve attempts, and
    its progress loop ends for every fuel greater than the bytes and connections
    still to come.
    [fold_while] and [chunks_exact] get the length of their input, and
    [find_gadget_dir] the 65536 numbers the code tries.
    [data_loop] gets the number of connection rounds plus one. [command_loop] is
    the server's endless loop: its theorems are safety properties of every
    prefix of it, so its fuel is the length of the prefix.

    ** What is not modelled

    Of crc32fast the x86 variant (carry-less multiplication in vector
    registers); of tokio everything but the notifier (channels,
    timers, [select!] and tasks are used by their documented behaviour), and of
    the notifier the owned futures and the notification of the last waiter, which
    nothing here calls; libudev, the signal driver and the serde derivations,
    which are interfaces or inputs; formatting for
    logs, the parsing of the command line and of TOML, and the directives the
    build scripts print; the example programs of the gadget library. These are
    input and output, generated code, glue, or code the daemon does not run.
    Wakers are left out of Notify.v: a future is polled when its task runs. *)

From Stdlib Require Import ZArith Lia.
From Stdlib Require Strings.Byte Strings.String.
From stdpp Require Export base list strings option.

#[global] Open Scope Z_scope.

(** ** Notation scope, hint databases and tactics of the development *)

Declare Scope gadget_scope.
Delimit Scope gadget_scope with gadget.
#[global] Open Scope gadget_scope.

Create HintDb gadget.
Create Rewrite HintDb gadget_simpl.

(** Splits every conjunction and existential of the context. *)
Ltac split_hyps :=
  repeat match goal with
  | H : _ /\ _ |- _ => destruct H
  | H : exists _, _ |- _ => destruct H
  end.

(** Case analysis on the scrutinee of the first [match] of the goal, keeping
    the equation; [case_matches] repeats it and drops impossible branches. *)
Ltac case_one :=
  match goal with
  | |- context [match ?x with _ => _ end] =>
      lazymatch x with
      | context [match _ with _ => _ end] => fail
      | _ => let E := fresh "E" in destruct x eqn:E
      end
  end.

Ltac case_one_in H :=
  match type of H with
  | context [match ?x with _ => _ end] =>
      lazymatch x with
      | context [match _ with _ => _ end] => fail
      | _ => let E := fresh "E" in destruct x eqn:E
      end
  end.

Ltac case_matches := repeat (case_one; simplify_eq/=).
Ltac case_matches_in H := repeat (case_one_in H; simplify_eq/=).

(** ** Options *)

(** [Option::is_some]. *)
Definition isSome {A} (o : option A) : bool := match o with Some _ => true | None => false end.

(** ** Machine integers *)

(** Wrap-around at width [w], the semantics of Rust's [as] casts and of the
    release-mode operators. *)
Definition wrap (w z : Z) : Z := z mod 2 ^ w.

Definition u8_max : Z := 2 ^ 8 - 1.
Definition u16_max : Z := 2 ^ 16 - 1.
Definition u32_max : Z := 2 ^ 32 - 1.

(** [usize] of the 64-bit targets. *)
Definition usize_max : Z := 2 ^ 64 - 1.

Definition saturating_add (mx a b : Z) : Z := Z.min mx (a + b).
Definition saturating_sub (a b : Z) : Z := Z.max 0 (a - b).
Definition saturating_mul (mx a b : Z) : Z := Z.min mx (a * b).

(** [usize::div_ceil]. *)
Definition div_ceil (a b : Z) : Z := (a + b - 1) / b.

Lemma wrap_range w z : 0 <= w -> 0 <= wrap w z < 2 ^ w.
Proof. intros Hw. apply Z.mod_pos_bound. lia. Qed.

Lemma wrap_small w z : 0 <= z < 2 ^ w -> wrap w z = z.
Proof. apply Z.mod_small. Qed.

(** A [w]-bit value is one without bits from [w] on. *)
Lemma width_bits w z :
  0 <= w -> (0 <= z < 2 ^ w <-> 0 <= z /\ forall i, w <= i -> Z.testbit z i = false).
Proof.
  intros Hw. split.
  - intros [H0 H1]. split; [done|]. intros i Hi.
    destruct (decide (z = 0)) as [->|]; [apply Z.bits_0|].
    apply Z.bits_above_log2; [done|]. apply Z.log2_lt_pow2; [lia|].
    eapply Z.lt_le_trans; [done|]. apply Z.pow_le_mono_r; lia.
  - intros [H0 H]. split; [done|].
    destruct (decide (z = 0)) as [->|]; [lia|].
    apply Z.log2_lt_pow2; [lia|].
    destruct (Z.lt_ge_cases (Z.log2 z) w) as [?|Hge]; [done|].
    specialize (H _ Hge). rewrite Z.bit_log2 in H by lia. done.
Qed.

Lemma div_ceil_bounds a b :
  0 < b -> a <= div_ceil a b * b < a + b.
Proof.
  intros Hb. unfold div_ceil.
  pose proof (Z.div_mod (a + b - 1) b ltac:(lia)) as E.
  pose proof (Z.mod_pos_bound (a + b - 1) b Hb). nia.
Qed.

#[export] Hint Resolve wrap_range : gadget.

(** ** Bytes *)

Abbreviation byte := Byte.byte.

#[global] Instance byte_eq_decision : EqDecision byte := Strings.Byte.byte_eq_dec.

(** The numeric value of a byte, and the truncating cast [as u8]. *)
Definition b2z (b : byte) : Z := Z.of_N (Byte.to_N b).
Definition z2b (z : Z) : byte :=
  match Byte.of_N (Z.to_N (wrap 8 z)) with Some b => b | None => Byte.x00 end.

Lemma b2z_range b : 0 <= b2z b < 256.
Proof. unfold b2z. pose proof (Strings.Byte.to_N_bounded b). lia. Qed.

Lemma b2z_z2b z : b2z (z2b z) = wrap 8 z.
Proof.
  unfold z2b, b2z. pose proof (wrap_range 8 z ltac:(lia)) as Hr.
  destruct (Byte.of_N (Z.to_N (wrap 8 z))) as [b|] eqn:E.
  - apply Strings.Byte.to_of_N in E. rewrite E. lia.
  - apply Strings.Byte.of_N_None_iff in E. lia.
Qed.

Lemma b2z_inj a b : b2z a = b2z b -> a = b.
Proof.
  unfold b2z. intros H. apply N2Z.inj in H.
  pose proof (Strings.Byte.of_to_N a) as Ha. pose proof (Strings.Byte.of_to_N b) as Hb.
  congruence.
Qed.

Lemma z2b_b2z b : z2b (b2z b) = b.
Proof. apply b2z_inj. rewrite b2z_z2b. apply wrap_small, b2z_range. Qed.

Lemma z2b_wrap z : z2b (wrap 8 z) = z2b z.
Proof.
  apply b2z_inj. rewrite !b2z_z2b. unfold wrap. by rewrite Z.mod_mod.
Qed.

#[export] Hint Resolve b2z_range : gadget.
#[export] Hint Rewrite b2z_z2b z2b_b2z : gadget_simpl.

(** The bytes of a string literal, Rust's byte-string literals. *)
Definition bs (s : string) : list byte := String.list_byte_of_string s.

(** The UTF-8 bytes of a [String] as a [string], and back. *)
Definition str_of_bytes (l : list byte) : string := String.string_of_list_byte l.

Lemma bs_str_of_bytes l : bs (str_of_bytes l) = l.
Proof. apply String.list_byte_of_string_of_list_byte. Qed.

Lemma str_of_bytes_bs s : str_of_bytes (bs s) = s.
Proof. apply String.string_of_list_byte_of_string. Qed.

(** ** Slices *)

(** [&l[a..b]] for [a <= b <= l.len()]. *)
Definition slice {A} (a b : nat) (l : list A) : list A := take (b - a) (drop a l).

(** [iter().position(p)]. *)
Fixpoint position {A} (p : A -> bool) (l : list A) : option nat :=
  match l with
  | [] => None
  | x :: l => if p x then Some 0%nat else S <$> position p l
  end.

Lemma position_Some {A} (p : A -> bool) (l : list A) (i : nat) :
  position p l = Some i ->
  exists x, l !! i = Some x /\ p x = true /\ Forall (fun y => p y = false) (take i l).
Proof.
  revert i. induction l as [|x l IH]; intros i; simpl; [done|].
  destruct (p x) eqn:E.
  - intros [= <-]. exists x. simpl. repeat split; [done|constructor].
  - intros (j & Hj & ->)%fmap_Some. destruct (IH j Hj) as (y & ? & ? & ?).
    exists y. simpl. repeat split; [done|done|by constructor].
Qed.

Lemma position_None {A} (p : A -> bool) (l : list A) :
  position p l = None -> Forall (fun y => p y = false) l.
Proof.
  induction l as [|x l IH]; simpl; [constructor|].
  destruct (p x) eqn:E; [done|]. intros H%fmap_None. constructor; auto.
Qed.

Lemma position_lt {A} (p : A -> bool) (l : list A) i :
  position p l = Some i -> (i < length l)%nat.
Proof. intros (x & ? & _)%position_Some. by eapply lookup_lt_Some. Qed.

Lemma position_app_hit {A} (p : A -> bool) (l1 l2 : list A) x :
  Forall (fun y => p y = false) l1 -> p x = true ->
  position p (l1 ++ x :: l2) = Some (length l1).
Proof.
  intros H Hx. induction H as [|y l1 Hy _ IH]; simpl; [by rewrite Hx|].
  by rewrite Hy, IH.
Qed.

Lemma position_all_false {A} (p : A -> bool) (l : list A) :
  Forall (fun y => p y = false) l -> position p l = None.
Proof. induction 1 as [|y l Hy _ IH]; simpl; [done|]. by rewrite Hy, IH. Qed.

#[export] Hint Resolve position_lt position_all_false : gadget.
