(* ===== verification/Io.v ===== *)
(** * Errors, results and the state-error monad

    The fragment of [std::io] the program relies on (error kinds, the decoding
    of OS errors into kinds, [Result]) and the state-error monad in which every
    fallible, state-changing operation of the program is written: an operation
    on a state [S] returns a result and the new state, and the state reached so
    far survives an error, as a Rust [&mut self] method leaves its receiver
    when [?] returns early. *)

From S2P Require Import Prelude.

(** ** Results *)

Inductive result (A E : Type) : Type :=
| Ok (a : A)
| Err (e : E).
Arguments Ok {A E} a.
Arguments Err {A E} e.

Definition is_ok {A E} (r : result A E) : bool :=
  match r with Ok _ => true | Err _ => false end.
Definition is_err {A E} (r : result A E) : bool := negb (is_ok r).
Definition ok {A E} (r : result A E) : option A :=
  match r with Ok a => Some a | Err _ => None end.
Definition map_err {A E F} (f : E -> F) (r : result A E) : result A F :=
  match r with Ok a => Ok a | Err e => Err (f e) end.
Definition ok_or {A E} (e : E) (o : option A) : result A E :=
  match o with Some a => Ok a | None => Err e end.
Definition rbind {A B E} (r : result A E) (f : A -> result B E) : result B E :=
  match r with Ok a => f a | Err e => Err e end.

Notation "'let?' x ':=' r 'in' k" := (rbind r (fun x => k))
  (at level 10, x pattern, r at level 100, k at level 200) : gadget_scope.

(** ** [std::io::Error] *)

(** The kinds the program inspects; every other kind is [KUncategorized]. *)
Inductive ErrorKind :=
| KNotFound | KNotConnected | KBrokenPipe | KConnectionAborted | KInterrupted
| KTimedOut | KWouldBlock | KInvalidInput | KInvalidData | KUnexpectedEof
| KAlreadyExists | KOutOfMemory | KOther | KUncategorized.

#[global] Instance ErrorKind_eq_dec : EqDecision ErrorKind.
Proof. solve_decision. Defined.

(** An error carries an OS error number or was built by the program from a
    kind and a message ([io::Error::new] / [io::Error::other]). *)
Inductive io_error :=
| Os (errno : Z)
| Custom (kind : ErrorKind) (msg : string).

#[global] Instance io_error_eq_dec : EqDecision io_error.
Proof. solve_decision. Defined.

Abbreviation io_result A := (result A io_error).

(** Linux error numbers the sources name. *)
Definition ENOENT : Z := 2.
Definition EINTR : Z := 4.
Definition EAGAIN : Z := 11.
Definition ENOMEM : Z := 12.
Definition EEXIST : Z := 17.
Definition ENODEV : Z := 19.
Definition EINVAL : Z := 22.
Definition EPIPE : Z := 32.
Definition EIDRM : Z := 43.
Definition ECONNABORTED : Z := 103.
Definition ENOTCONN : Z := 107.
Definition ESHUTDOWN : Z := 108.
Definition ETIMEDOUT : Z := 110.

(** How the standard library decodes an OS error number into a kind. *)
Definition decode_error_kind (errno : Z) : ErrorKind :=
  if errno =? ENOENT then KNotFound
  else if errno =? EINTR then KInterrupted
  else if errno =? EAGAIN then KWouldBlock
  else if errno =? EEXIST then KAlreadyExists
  else if errno =? ENOMEM then KOutOfMemory
  else if errno =? EINVAL then KInvalidInput
  else if errno =? EPIPE then KBrokenPipe
  else if errno =? ECONNABORTED then KConnectionAborted
  else if errno =? ENOTCONN then KNotConnected
  else if errno =? ETIMEDOUT then KTimedOut
  else KUncategorized.

Definition kind (e : io_error) : ErrorKind :=
  match e with Os n => decode_error_kind n | Custom k _ => k end.

Definition raw_os_error (e : io_error) : option Z :=
  match e with Os n => Some n | Custom _ _ => None end.

Definition other (msg : string) : io_error := Custom KOther msg.

(** ** The state-error monad *)

Definition M (S A : Type) : Type := S -> io_result A * S.

Section Monad.
Context {S : Type}.

Definition ret {A} (a : A) : M S A := fun s => (Ok a, s).
Definition throw {A} (e : io_error) : M S A := fun s => (Err e, s).
Definition bind {A B} (m : M S A) (f : A -> M S B) : M S B := fun s =>
  match m s with
  | (Ok a, s') => f a s'
  | (Err e, s') => (Err e, s')
  end.
(** The result as a value, without returning early. *)
Definition attempt {A} (m : M S A) : M S (io_result A) := fun s =>
  let (r, s') := m s in (Ok r, s').
Definition lift {A} (r : io_result A) : M S A := fun s => (r, s).
Definition gets {A} (f : S -> A) : M S A := fun s => (Ok (f s), s).
Definition modify (f : S -> S) : M S unit := fun s => (Ok tt, f s).
End Monad.

Notation "'do!' x ':=' m 'in' k" := (bind m (fun x => k))
  (at level 10, x pattern, m at level 100, k at level 200) : gadget_scope.
Notation "m '>>;' k" := (bind m (fun _ => k))
  (at level 101, right associativity) : gadget_scope.

Lemma bind_ret {S A B} (a : A) (f : A -> M S B) s : bind (ret a) f s = f a s.
Proof. done. Qed.

Lemma bind_throw {S A B} e (f : A -> M S B) s : bind (throw e) f s = (Err e, s).
Proof. done. Qed.

Lemma bind_modify {S B} (g : S -> S) (f : unit -> M S B) s :
  bind (modify g) f s = f tt (g s).
Proof. done. Qed.

Lemma bind_gets {S A B} (g : S -> A) (f : A -> M S B) s :
  bind (gets g) f s = f (g s) s.
Proof. done. Qed.

Lemma bind_attempt {S A B} (m : M S A) (f : io_result A -> M S B) s :
  bind (attempt m) f s = f (m s).1 (m s).2.
Proof. unfold bind, attempt. by destruct (m s). Qed.

Lemma bind_assoc {S A B C} (m : M S A) (f : A -> M S B) (g : B -> M S C) s :
  bind (bind m f) g s = bind m (fun a => bind (f a) g) s.
Proof. unfold bind. by destruct (m s) as [[]]. Qed.

Lemma bind_Ok {S A B} (m : M S A) (f : A -> M S B) s a s' :
  m s = (Ok a, s') -> bind m f s = f a s'.
Proof. unfold bind. by intros ->. Qed.

Lemma bind_Err {S A B} (m : M S A) (f : A -> M S B) s e s' :
  m s = (Err e, s') -> bind m f s = (Err e, s').
Proof. unfold bind. by intros ->. Qed.

(** A sequence that succeeded did so at every step. *)
Lemma bind_inv {S A B} (m : M S A) (f : A -> M S B) s b s' :
  bind m f s = (Ok b, s') -> exists a s1, m s = (Ok a, s1) /\ f a s1 = (Ok b, s').
Proof. unfold bind. destruct (m s) as [[a|e] s1]; [eauto|done]. Qed.

Lemma lift_inv {S A} (r : io_result A) (s : S) a s' : lift r s = (Ok a, s') -> s' = s /\ r = Ok a.
Proof. unfold lift. by intros [= -> ->]. Qed.

#[export] Hint Rewrite @bind_ret @bind_throw @bind_modify @bind_gets : gadget_simpl.

(** The result of a monadic step on every branch: an invariant [I] on states
    holds afterwards whatever the result is. *)
Definition preserves {S A} (I : S -> Prop) (m : M S A) : Prop :=
  forall s, I s -> I (m s).2.

Lemma preserves_ret {S A} (I : S -> Prop) (a : A) : preserves I (ret a).
Proof. by intros s Hs. Qed.

Lemma preserves_throw {S A} (I : S -> Prop) e : preserves I (@throw S A e).
Proof. by intros s Hs. Qed.

Lemma preserves_lift {S A} (I : S -> Prop) (r : io_result A) : preserves I (lift r).
Proof. by intros s Hs. Qed.

Lemma preserves_gets {S A} (I : S -> Prop) (f : S -> A) : preserves I (gets f).
Proof. by intros s Hs. Qed.

Lemma preserves_modify {S} (I : S -> Prop) (f : S -> S) :
  (forall s, I s -> I (f s)) -> preserves I (modify f).
Proof. intros Hf s Hs. by apply Hf. Qed.

Lemma preserves_bind {S A B} (I : S -> Prop) (m : M S A) (f : A -> M S B) :
  preserves I m -> (forall a, preserves I (f a)) -> preserves I (bind m f).
Proof.
  intros Hm Hf s Hs. unfold bind. specialize (Hm s Hs).
  destruct (m s) as [[a|e] s']; simpl in *; [by apply Hf|done].
Qed.

Lemma preserves_attempt {S A} (I : S -> Prop) (m : M S A) :
  preserves I m -> preserves I (attempt m).
Proof. intros Hm s Hs. unfold attempt. specialize (Hm s Hs). by destruct (m s). Qed.

#[export] Hint Resolve preserves_ret preserves_throw preserves_lift preserves_gets
  preserves_modify preserves_bind preserves_attempt : gadget.
