(* ===== verification/Bytes.v ===== *)
(** * Byte strings: endianness, hexadecimal text, UTF-8

    The standard-library byte and text primitives the wire protocols of the
    program are written with: [to_le_bytes]/[from_le_bytes] and their big-endian
    counterparts, [format!("{:08X}")], [from_str_radix], the ASCII classes,
    [str::from_utf8], [String::from_utf8_lossy] and [str::trim]. *)

From S2P Require Import Prelude.

(** ** Fixed-width integers as bytes *)

Fixpoint le_bytes (n : nat) (z : Z) : list byte :=
  match n with
  | O => []
  | S n => z2b z :: le_bytes n (z / 256)
  end.

Fixpoint le_val (l : list byte) : Z :=
  match l with
  | [] => 0
  | b :: l => b2z b + 256 * le_val l
  end.

Definition be_bytes (n : nat) (z : Z) : list byte := rev (le_bytes n z).
Definition be_val (l : list byte) : Z := le_val (rev l).

Lemma length_le_bytes n z : length (le_bytes n z) = n.
Proof. revert z. induction n; simpl; intros; [done|]. by rewrite IHn. Qed.

Lemma length_be_bytes n z : length (be_bytes n z) = n.
Proof. unfold be_bytes. by rewrite length_rev, length_le_bytes. Qed.

Lemma le_val_le_bytes n z : 0 <= z < 256 ^ Z.of_nat n -> le_val (le_bytes n z) = z.
Proof.
  revert z. induction n as [|n IH]; intros z Hz; simpl.
  - change (256 ^ Z.of_nat 0) with 1 in Hz. lia.
  - rewrite Nat2Z.inj_succ, Z.pow_succ_r in Hz by lia.
    rewrite IH.
    + rewrite b2z_z2b. unfold wrap. change (2 ^ 8) with 256.
      pose proof (Z.div_mod z 256 ltac:(lia)). lia.
    + split; [apply Z.div_pos; lia|]. apply Z.div_lt_upper_bound; lia.
Qed.

Lemma be_val_be_bytes n z : 0 <= z < 256 ^ Z.of_nat n -> be_val (be_bytes n z) = z.
Proof. intros. unfold be_val, be_bytes. rewrite rev_involutive. by apply le_val_le_bytes. Qed.

Lemma le_val_range l : 0 <= le_val l < 256 ^ Z.of_nat (length l).
Proof.
  induction l as [|b l IH]; [simpl; lia|]. cbn [le_val length].
  rewrite Nat2Z.inj_succ, Z.pow_succ_r by lia.
  pose proof (b2z_range b). nia.
Qed.

Lemma be_val_range l : 0 <= be_val l < 256 ^ Z.of_nat (length l).
Proof. unfold be_val. rewrite <- (length_rev l). apply le_val_range. Qed.

Lemma le_bytes_le_val l : le_bytes (length l) (le_val l) = l.
Proof.
  induction l as [|b l IH]; simpl; [done|].
  pose proof (b2z_range b).
  replace ((b2z b + 256 * le_val l) / 256) with (le_val l); cycle 1.
  { rewrite (Z.mul_comm 256), Z.div_add by lia. rewrite Z.div_small by lia. lia. }
  rewrite IH. f_equal. rewrite <- (z2b_b2z b) at 2. rewrite <- (z2b_wrap (_ + _)).
  f_equal. unfold wrap. change (2 ^ 8) with 256.
  rewrite (Z.mul_comm 256), Z_mod_plus_full. apply Z.mod_small. lia.
Qed.

Lemma be_bytes_be_val l : be_bytes (length l) (be_val l) = l.
Proof.
  unfold be_bytes, be_val. rewrite <- (length_rev l), le_bytes_le_val.
  apply rev_involutive.
Qed.

#[export] Hint Rewrite length_le_bytes length_be_bytes : gadget_simpl.

(** ** ASCII classes *)

Definition is_ascii_whitespace (b : byte) : bool :=
  match b with
  | Byte.x20 | Byte.x09 | Byte.x0a | Byte.x0c | Byte.x0d => true
  | _ => false
  end.

(** [char::to_digit(radix)] for an ASCII byte. *)
Definition to_digit (radix : Z) (b : byte) : option Z :=
  let z := b2z b in
  let d :=
    if (48 <=? z) && (z <=? 57) then z - 48
    else if (65 <=? z) && (z <=? 90) then z - 55
    else if (97 <=? z) && (z <=? 122) then z - 87
    else radix in
  if d <? radix then Some d else None.

Definition is_ascii_hexdigit (b : byte) : bool :=
  match to_digit 16 b with Some _ => true | None => false end.

Definition to_ascii_lowercase (b : byte) : byte :=
  let z := b2z b in if (65 <=? z) && (z <=? 90) then z2b (z + 32) else b.

Definition eq_ignore_ascii_case (a b : list byte) : bool :=
  bool_decide (to_ascii_lowercase <$> a = to_ascii_lowercase <$> b).

(** ** Radix parsing: [from_str_radix] on an unsigned type *)

Fixpoint parse_digits (radix mx acc : Z) (l : list byte) : option Z :=
  match l with
  | [] => Some acc
  | b :: l =>
      match to_digit radix b with
      | Some d =>
          let acc' := acc * radix + d in
          if acc' <=? mx then parse_digits radix mx acc' l else None
      | None => None
      end
  end.

(** A leading [+] is accepted unless it stands alone; a leading [-] is not a
    digit of an unsigned type. *)
Definition from_str_radix (radix mx : Z) (l : list byte) : option Z :=
  match l with
  | [] => None
  | [Byte.x2b] => None
  | Byte.x2b :: rest => parse_digits radix mx 0 rest
  | _ => parse_digits radix mx 0 l
  end.

(** ** Hexadecimal formatting *)

Definition hex_digit_upper (d : Z) : byte := z2b (if d <? 10 then 48 + d else 55 + d).
Definition hex_digit_lower (d : Z) : byte := z2b (if d <? 10 then 48 + d else 87 + d).

(** The [n] least significant digits of [z], most significant first. *)
Fixpoint radix_digits (radix : Z) (n : nat) (z : Z) : list Z :=
  match n with
  | O => []
  | S n => radix_digits radix n (z / radix) ++ [z mod radix]
  end.

Fixpoint strip_zeros (keep : nat) (l : list Z) : list Z :=
  match l with
  | d :: l' => if (d =? 0) && (keep <? length l)%nat then strip_zeros keep l' else l
  | [] => []
  end.

(** [format!("{:0wX}", z)] for a 64-bit [z]: at least [w] digits, zero padded,
    and never fewer than one. *)
Definition fmt_hex_upper (w : nat) (z : Z) : list byte :=
  hex_digit_upper <$> strip_zeros (Nat.max 1 w) (radix_digits 16 (Nat.max 16 w) z).

(** [format!("{byte:02x}")]. *)
Definition fmt_byte_lower (b : byte) : list byte :=
  hex_digit_lower <$> radix_digits 16 2 (b2z b).

Lemma length_radix_digits r n z : length (radix_digits r n z) = n.
Proof. revert z. induction n; intros; simpl; [done|]. rewrite length_app, IHn. simpl. lia. Qed.

Lemma radix_digits_range r n z :
  0 < r -> Forall (fun d => 0 <= d < r) (radix_digits r n z).
Proof.
  intros Hr. revert z. induction n as [|n IH]; intros z; simpl; [constructor|].
  apply Forall_app. split; [apply IH|]. constructor; [|constructor].
  by apply Z.mod_pos_bound.
Qed.

Lemma length_strip_zeros keep l :
  (Nat.min keep (length l) <= length (strip_zeros keep l) <= length l)%nat.
Proof.
  induction l as [|d l IH]; simpl; [lia|].
  destruct ((d =? 0) && (keep <? S (length l))%nat) eqn:E; simpl; [|lia].
  apply andb_true_iff in E as [_ ?%Nat.ltb_lt]. lia.
Qed.

(** The value of a digit string. *)
Definition digits_val (radix acc : Z) (l : list Z) : Z :=
  fold_left (fun a d => a * radix + d) l acc.

Lemma digits_val_app r acc l1 l2 :
  digits_val r acc (l1 ++ l2) = digits_val r (digits_val r acc l1) l2.
Proof. apply fold_left_app. Qed.

Lemma digits_val_radix_digits r n z :
  0 < r -> 0 <= z < r ^ Z.of_nat n -> digits_val r 0 (radix_digits r n z) = z.
Proof.
  intros Hr. revert z. induction n as [|n IH]; intros z Hz.
  - change (r ^ Z.of_nat 0) with 1 in Hz. simpl. lia.
  - rewrite Nat2Z.inj_succ, Z.pow_succ_r in Hz by lia. cbn [radix_digits].
    rewrite digits_val_app, IH.
    + simpl. pose proof (Z.div_mod z r ltac:(lia)). lia.
    + split; [apply Z.div_pos; lia|]. apply Z.div_lt_upper_bound; lia.
Qed.

Lemma digits_val_strip_zeros r keep l :
  digits_val r 0 (strip_zeros keep l) = digits_val r 0 l.
Proof.
  induction l as [|d l IH]; simpl; [done|].
  destruct ((d =? 0) && (keep <? S (length l))%nat) eqn:E; [|done].
  apply andb_true_iff in E as [Hd%Z.eqb_eq _]. subst d. by rewrite IH.
Qed.

Lemma strip_zeros_Forall P keep l : Forall P l -> Forall P (strip_zeros keep l).
Proof.
  induction 1 as [|d l Hd Hl IH]; simpl; [constructor|].
  destruct (_ && _); [done|by constructor].
Qed.

Lemma to_digit_hex_upper d : 0 <= d < 16 -> to_digit 16 (hex_digit_upper d) = Some d.
Proof.
  intros Hd. assert (d = 0 \/ d = 1 \/ d = 2 \/ d = 3 \/ d = 4 \/ d = 5 \/ d = 6 \/ d = 7 \/
    d = 8 \/ d = 9 \/ d = 10 \/ d = 11 \/ d = 12 \/ d = 13 \/ d = 14 \/ d = 15) as H by lia.
  repeat destruct H as [->|H]; [reflexivity..|]. subst; reflexivity.
Qed.

Lemma digits_val_acc_mono r acc l :
  1 <= r -> 0 <= acc -> Forall (fun d => 0 <= d < r) l -> acc <= digits_val r acc l.
Proof.
  intros Hr Hacc H. revert acc Hacc. induction H as [|d l Hd _ IH]; intros acc Hacc; simpl; [lia|].
  etransitivity; [|apply IH]; nia.
Qed.

Lemma parse_digits_hex_upper mx acc l :
  0 <= acc -> Forall (fun d => 0 <= d < 16) l -> digits_val 16 acc l <= mx ->
  parse_digits 16 mx acc (hex_digit_upper <$> l) = Some (digits_val 16 acc l).
Proof.
  intros Hacc H. revert acc Hacc. induction H as [|d l Hd Hl IH]; intros acc Hacc Hmx; [done|].
  cbn [fmap list_fmap parse_digits]. rewrite to_digit_hex_upper by done.
  assert (acc * 16 + d <= mx) as Hle.
  { pose proof (digits_val_acc_mono 16 (acc * 16 + d) l ltac:(lia) ltac:(lia) Hl).
    simpl in Hmx. lia. }
  rewrite (proj2 (Z.leb_le _ _) Hle). apply IH; [lia|done].
Qed.

Lemma hex_digit_upper_not_plus d : 0 <= d < 16 -> hex_digit_upper d <> Byte.x2b.
Proof. intros Hd H. pose proof (to_digit_hex_upper d Hd) as E. by rewrite H in E. Qed.

(** Formatting then parsing a value gives it back, at any padding. *)
Lemma from_str_radix_fmt_hex_upper w z :
  (w <= 16)%nat -> 0 <= z <= usize_max ->
  from_str_radix 16 usize_max (fmt_hex_upper w z) = Some z.
Proof.
  intros Hw Hz. unfold fmt_hex_upper. replace (Nat.max 16 w) with 16%nat by lia.
  set (ds := strip_zeros _ _).
  assert (Forall (fun d => 0 <= d < 16) ds) as Hr by (by apply strip_zeros_Forall, radix_digits_range).
  assert (digits_val 16 0 ds = z) as Hv.
  { unfold ds. rewrite digits_val_strip_zeros. apply digits_val_radix_digits; [lia|].
    unfold usize_max in Hz. change (16 ^ Z.of_nat 16) with (2 ^ 64). lia. }
  assert (ds <> []) as Hne.
  { pose proof (length_strip_zeros (Nat.max 1 w) (radix_digits 16 16 z)) as Hl.
    fold ds in Hl. rewrite length_radix_digits in Hl. intros E. rewrite E in Hl. simpl in Hl. lia. }
  transitivity (parse_digits 16 usize_max 0 (hex_digit_upper <$> ds)).
  - destruct ds as [|d ds]; [done|]. inversion Hr; subst.
    pose proof (hex_digit_upper_not_plus d ltac:(done)) as Hp. cbn [fmap list_fmap].
    unfold from_str_radix. by destruct (hex_digit_upper d).
  - rewrite parse_digits_hex_upper; [by rewrite Hv|lia|done|lia].
Qed.

(** A value below [radix ^ k] has [m] leading zeros among its [m + k] digits. *)
Lemma radix_digits_leading k m y :
  0 <= y -> y < 16 ^ Z.of_nat k ->
  radix_digits 16 (m + k) y = replicate m 0 ++ radix_digits 16 k y.
Proof.
  revert m y. induction k as [|k IH]; intros m y Hy Hlt.
  - change (16 ^ Z.of_nat 0) with 1 in Hlt. assert (y = 0) as -> by lia.
    rewrite Nat.add_0_r, app_nil_r. induction m as [|m IHm]; [done|].
    cbn [radix_digits]. change (0 / 16) with 0. rewrite IHm. change (0 mod 16) with 0.
    by rewrite <- (replicate_cons_app m 0).
  - replace (m + S k)%nat with (S (m + k)) by lia. cbn [radix_digits].
    rewrite Nat2Z.inj_succ, Z.pow_succ_r in Hlt by lia.
    rewrite IH; [by rewrite <- app_assoc|apply Z.div_pos; lia|apply Z.div_lt_upper_bound; lia].
Qed.

Lemma length_strip_zeros_leading w m l :
  length l = w -> length (strip_zeros w (replicate m 0 ++ l)) = w.
Proof.
  intros Hl. induction m as [|m IH].
  - simpl. pose proof (length_strip_zeros w l). lia.
  - cbn [replicate app strip_zeros].
    rewrite (proj2 (Nat.ltb_lt _ _)); [done|].
    cbn [length]. rewrite length_app, length_replicate. lia.
Qed.

Lemma length_fmt_hex_upper w z :
  (0 < w <= 16)%nat -> 0 <= z < 16 ^ Z.of_nat w -> length (fmt_hex_upper w z) = w.
Proof.
  intros Hw Hz. unfold fmt_hex_upper. rewrite length_fmap.
  replace (Nat.max 16 w) with ((16 - w) + w)%nat by lia.
  replace (Nat.max 1 w) with w by lia.
  rewrite radix_digits_leading by lia.
  apply length_strip_zeros_leading, length_radix_digits.
Qed.

(** ** UTF-8 *)

Definition in_range (lo hi : Z) (b : byte) : bool := (lo <=? b2z b) && (b2z b <=? hi).
Definition is_cont (b : byte) : bool := in_range 128 191 b.

(** The length of the sequence that starts a non-empty byte string, and whether
    it is a well-formed scalar value or a maximal ill-formed subpart. *)
Definition utf8_step (b : byte) (l : list byte) : bool * nat :=
  let at_ (i : nat) (p : byte -> bool) : bool :=
    match l !! i with Some c => p c | None => false end in
  if b2z b <? 128 then (true, 1%nat)
  else if in_range 194 223 b then
    if at_ 0%nat is_cont then (true, 2%nat) else (false, 1%nat)
  else if in_range 224 239 b then
    let second := if b2z b =? 224 then in_range 160 191
                  else if b2z b =? 237 then in_range 128 159 else is_cont in
    if at_ 0%nat second then
      if at_ 1%nat is_cont then (true, 3%nat) else (false, 2%nat)
    else (false, 1%nat)
  else if in_range 240 244 b then
    let second := if b2z b =? 240 then in_range 144 191
                  else if b2z b =? 244 then in_range 128 143 else is_cont in
    if at_ 0%nat second then
      if at_ 1%nat is_cont then
        if at_ 2%nat is_cont then (true, 4%nat) else (false, 3%nat)
      else (false, 2%nat)
    else (false, 1%nat)
  else (false, 1%nat).

(** Splits a byte string into its sequences; a string of [n] bytes has at most
    [n] of them, so its length is enough fuel. *)
Fixpoint utf8_chunks (fuel : nat) (l : list byte) : list (bool * list byte) :=
  match fuel, l with
  | S fuel, b :: l' =>
      let (valid, n) := utf8_step b l' in
      (valid, take n l) :: utf8_chunks fuel (drop n l)
  | _, _ => []
  end.

Definition utf8_valid (l : list byte) : bool :=
  forallb fst (utf8_chunks (length l) l).

(** [str::from_utf8]. *)
Definition from_utf8 (l : list byte) : option string :=
  if utf8_valid l then Some (str_of_bytes l) else None.

Definition replacement : list byte := [Byte.xef; Byte.xbf; Byte.xbd].

(** [String::from_utf8_lossy]. *)
Definition from_utf8_lossy (l : list byte) : string :=
  str_of_bytes (concat ((fun c : bool * list byte => if c.1 then c.2 else replacement)
    <$> utf8_chunks (length l) l)).

Lemma utf8_step_pos b l : (1 <= (utf8_step b l).2)%nat.
Proof. unfold utf8_step. case_matches; lia. Qed.

(** Enough fuel: the sequences cover the whole string. *)
Lemma utf8_chunks_concat fuel l :
  (length l <= fuel)%nat -> concat (snd <$> utf8_chunks fuel l) = l.
Proof.
  revert l. induction fuel as [|fuel IH]; intros l Hl.
  - by destruct l; simpl in *; [|lia].
  - destruct l as [|b l]; [done|]. cbn [utf8_chunks].
    pose proof (utf8_step_pos b l) as Hpos. destruct (utf8_step b l) as [v n].
    cbn [fmap list_fmap concat snd]. rewrite IH; [apply take_drop|].
    rewrite length_drop. simpl in *. lia.
Qed.

Lemma concat_lossy_valid cs :
  forallb fst cs = true ->
  concat ((fun c : bool * list byte => if c.1 then c.2 else replacement) <$> cs)
  = concat (snd <$> cs).
Proof.
  induction cs as [|[v l] cs IH]; simpl; [done|].
  destruct v; simpl; [|done]. intros H. f_equal. by apply IH.
Qed.

(** A valid string is unchanged by the lossy conversion. *)
Lemma from_utf8_lossy_valid l :
  utf8_valid l = true -> from_utf8_lossy l = str_of_bytes l.
Proof.
  intros H. unfold from_utf8_lossy. rewrite concat_lossy_valid by done.
  by rewrite utf8_chunks_concat.
Qed.

Lemma utf8_step_ascii b l : b2z b < 128 -> utf8_step b l = (true, 1%nat).
Proof. intros H. unfold utf8_step. by rewrite (proj2 (Z.ltb_lt _ _) H). Qed.

Lemma utf8_chunks_ascii fuel l :
  Forall (fun b => b2z b < 128) l -> (length l <= fuel)%nat ->
  utf8_chunks fuel l = (fun b => (true, [b])) <$> l.
Proof.
  intros H. revert fuel. induction H as [|b l Hb _ IH]; intros fuel Hf; [by destruct fuel|].
  destruct fuel as [|fuel]; [simpl in Hf; lia|]. cbn [utf8_chunks].
  rewrite utf8_step_ascii by done. cbn. rewrite IH; [done|]. simpl in Hf. lia.
Qed.

(** ASCII text is valid UTF-8. *)
Lemma utf8_valid_ascii l : Forall (fun b => b2z b < 128) l -> utf8_valid l = true.
Proof.
  intros H. unfold utf8_valid. rewrite utf8_chunks_ascii by done.
  clear H. by induction l.
Qed.

(** ** [str::trim] *)

(** The UTF-8 encodings of the code points with the White_Space property. *)
Definition white_space : list (list byte) :=
  [[Byte.x09]; [Byte.x0a]; [Byte.x0b]; [Byte.x0c]; [Byte.x0d]; [Byte.x20];
   [Byte.xc2; Byte.x85]; [Byte.xc2; Byte.xa0]; [Byte.xe1; Byte.x9a; Byte.x80]]
  ++ ((fun i => [Byte.xe2; Byte.x80; z2b (128 + Z.of_nat i)]) <$> seq 0 11)
  ++ [[Byte.xe2; Byte.x80; Byte.xa8]; [Byte.xe2; Byte.x80; Byte.xa9];
      [Byte.xe2; Byte.x80; Byte.xaf]; [Byte.xe2; Byte.x81; Byte.x9f];
      [Byte.xe3; Byte.x80; Byte.x80]].

Definition starts_with (p l : list byte) : bool := bool_decide (take (length p) l = p).

Fixpoint trim_start_fuel (fuel : nat) (ws : list (list byte)) (l : list byte) : list byte :=
  match fuel with
  | O => l
  | S fuel =>
      match filter (fun w => starts_with w l = true) ws with
      | w :: _ => trim_start_fuel fuel ws (drop (length w) l)
      | [] => l
      end
  end.

Definition trim_start (l : list byte) : list byte :=
  trim_start_fuel (length l) white_space l.
Definition trim_end (l : list byte) : list byte :=
  rev (trim_start_fuel (length l) (rev (A:=byte) <$> white_space) (rev l)).
Definition trim (l : list byte) : list byte := trim_end (trim_start l).
