(* ===== verification/Crc32Fast.v ===== *)
(** * The fast CRC-32 implementations

    Models vendor/crc32fast beyond the byte-wise algorithm of [Crc32]: sixteen
    bytes at a time (src/baseline.rs), combining the checksums of two pieces
    (src/combine.rs), the CRC instructions of aarch64 with three interleaved
    streams (src/specialized/aarch64.rs), and the hasher that chooses between them
    (src/lib.rs). The x86 variant is not modelled. All are shown to compute what
    the byte-wise algorithm computes. *)

From Stdlib Require Import Btauto.
From stdpp Require Import base list.
From S2P Require Import Prelude Bytes Crc32 Crc32Table.
Import Baseline.

(** ** Sixteen bytes at a time (baseline.rs) *)

Definition entry (k : nat) (i : Z) : Z := nth (Z.to_nat i) (nth k CRC32_TABLE16 []) 0.

(** [from_le_bytes]. *)
Fixpoint le_value (l : list byte) : Z :=
  match l with
  | [] => 0
  | b :: l => Z.lor (b2z b) (Z.shiftl (le_value l) 8)
  end.

Definition byte_at (block : list byte) (i : nat) : Z := b2z (nth i block Byte.x00).

Definition fold_16 (crc : Z) (block : list byte) : Z :=
  let w0 := Z.lxor (le_value (take 4 block)) crc in
  Z.lxor (entry 0 (byte_at block 15))
  (Z.lxor (entry 1 (byte_at block 14))
  (Z.lxor (entry 2 (byte_at block 13))
  (Z.lxor (entry 3 (byte_at block 12))
  (Z.lxor (entry 4 (byte_at block 11))
  (Z.lxor (entry 5 (byte_at block 10))
  (Z.lxor (entry 6 (byte_at block 9))
  (Z.lxor (entry 7 (byte_at block 8))
  (Z.lxor (entry 8 (byte_at block 7))
  (Z.lxor (entry 9 (byte_at block 6))
  (Z.lxor (entry 10 (byte_at block 5))
  (Z.lxor (entry 11 (byte_at block 4))
  (Z.lxor (entry 12 (Z.shiftr w0 24))
  (Z.lxor (entry 13 (Z.land (Z.shiftr w0 16) 255))
  (Z.lxor (entry 14 (Z.land (Z.shiftr w0 8) 255))
          (entry 15 (Z.land w0 255)))))))))))))))).

Definition UNROLL : nat := 4.
Definition BYTES_AT_ONCE : nat := 16 * UNROLL.

(** The body of the unrolled loop. *)
Fixpoint fold_times (n : nat) (crc : Z) (buf : list byte) : Z * list byte :=
  match n with
  | O => (crc, buf)
  | S n => fold_times n (fold_16 crc buf) (drop 16 buf)
  end.

(** [while buf.len() >= size]; each turn takes some bytes, so the length is
    enough fuel. *)
Fixpoint fold_while (fuel size times : nat) (crc : Z) (buf : list byte) : Z * list byte :=
  match fuel with
  | O => (crc, buf)
  | S fuel =>
      if (size <=? length buf)%nat then
        let '(crc, buf) := fold_times times crc buf in fold_while fuel size times crc buf
      else (crc, buf)
  end.

Definition update_fast_16 (prev : Z) (buf : list byte) : Z :=
  let '(crc, buf) := fold_while (length buf) BYTES_AT_ONCE UNROLL (not32 prev) buf in
  let '(crc, buf) := fold_while (length buf) 16 1 crc buf in
  update_slow (not32 crc) buf.

(** ** Combining (combine.rs) *)

Definition POLY : Z := 0xedb88320.

Definition X2N_TABLE : list Z :=
  [0x00800000; 0x00008000; 0xedb88320; 0xb1e6b092; 0xa06a2517; 0xed627dae; 0x88d14467; 0xd7bbfe6a;
   0xec447f11; 0x8e7ea170; 0x6427800e; 0x4d47bae0; 0x09fe548f; 0x83852d0f; 0x30362f1a; 0x7b5a9cc3;
   0x31fec169; 0x9fec022a; 0x6c8dedc4; 0x15d6874d; 0x5fde7a4e; 0xbad90e37; 0x2e4e5eef; 0x4eaba214;
   0xa8a472c0; 0x429a969e; 0x148d302a; 0xc40ba6d0; 0xc4e22c3c; 0x40000000; 0x20000000; 0x08000000].

(** [wrapping_neg] of a [u32]. *)
Definition neg32 (z : Z) : Z := wrap 32 (- z).

(** [n] turns are left: the next looks at bit [n - 1] of [a]. *)
Fixpoint multiply_loop (n : nat) (a b p : Z) : Z :=
  match n with
  | O => p
  | S n =>
      multiply_loop n a
        (Z.lxor (Z.shiftr b 1) (Z.land (neg32 (Z.land b 1)) POLY))
        (Z.lxor p (Z.land b (neg32 (Z.land (Z.shiftr a (Z.of_nat n)) 1))))
  end.

Definition multiply (a b : Z) : Z := multiply_loop 32 a b 0.

Definition x2n (i : nat) : Z := nth (Nat.land i 31) X2N_TABLE 0.

(** Bits [i] to [i + n - 1] of the length. *)
Fixpoint combine_loop (n i : nat) (len2 p : Z) : Z :=
  match n with
  | O => p
  | S n => combine_loop n (S i) len2 (if Z.testbit len2 (Z.of_nat i) then multiply (x2n i) p else p)
  end.

(** [64 - leading_zeros]. *)
Definition bit_length (z : Z) : nat := Z.to_nat (Z.log2 z + 1).

Definition combine (crc1 crc2 len2 : Z) : Z :=
  if len2 =? 0 then crc1
  else Z.lxor (combine_loop (bit_length len2) 0 len2 crc1) crc2.

(** ** The CRC instructions (specialized/aarch64.rs) *)

(** [__crc32b] and [__crc32d]: the data is added to the register and divided by
    the polynomial, eight or sixty-four bits. *)
Definition crc32b (crc : Z) (b : byte) : Z := bitwise 8 (Z.lxor crc (b2z b)).
Definition crc32d (crc q : Z) : Z := bitwise 64 (Z.lxor crc q).

(** [chunks_exact]: the whole chunks and the remainder; the length is enough fuel. *)
Fixpoint chunks_exact {A} (fuel n : nat) (l : list A) : list (list A) * list A :=
  match fuel with
  | O => ([], l)
  | S fuel =>
      if (n <=? length l)%nat then
        let '(cs, r) := chunks_exact fuel n (drop n l) in (take n l :: cs, r)
      else ([], l)
  end.

Definition chunks {A} (n : nat) (l : list A) : list (list A) * list A := chunks_exact (length l) n l.

Definition crc_bytes (crc : Z) (l : list byte) : Z := not32 (foldl crc32b (not32 crc) l).

Definition crc_quads (crc : Z) (quads : list Z) : Z :=
  let '(cs, r) := chunks 8 quads in
  not32 (foldl crc32d (foldl (fun c chunk => foldl crc32d c chunk) (not32 crc) cs) r).

(** One step of the three streams. *)
Definition triple (c : Z * Z * Z) (q : Z * Z * Z) : Z * Z * Z :=
  (crc32d c.1.1 q.1.1, crc32d c.1.2 q.1.2, crc32d c.2 q.2).

Definition triple_chunks (c : Z * Z * Z) (q : list Z * list Z * list Z) : Z * Z * Z :=
  foldl (fun c k => triple c (nth k q.1.1 0, nth k q.1.2 0, nth k q.2 0)) c (seq 0 4).

Definition MIN_TRIPLE_QUADS : nat := 192.

Definition triple_crc (r : Z) (quads : list Z) : Z :=
  let n3 := (length quads / 3)%nat in
  let block_len := Z.of_nat (n3 * 8) in
  let '(ca, ra) := chunks 4 (slice 0 n3 quads) in
  let '(cb, rb) := chunks 4 (slice n3 (2 * n3) quads) in
  let '(cc, rc) := chunks 4 (slice (2 * n3) (3 * n3) quads) in
  let c := (not32 r, not32 0, not32 0) in
  let c := foldl triple_chunks c (zip (zip ca cb) cc) in
  let c := foldl triple c (zip (zip ra rb) rc) in
  let r := combine (not32 c.1.1) (not32 c.1.2) block_len in
  let r := combine r (not32 c.2) block_len in
  crc_quads r (drop (3 * n3) quads).

(** [align_to]: how many bytes are before the aligned words and how many words
    there are depends on the address. *)
Definition calculate (split : list byte -> nat * nat) (crc : Z) (data : list byte) : Z :=
  let '(pre, n) := split data in
  let quads := le_value <$> (chunks 8 (slice pre (pre + 8 * n) data)).1 in
  let r := crc_bytes crc (take pre data) in
  let r := if (MIN_TRIPLE_QUADS <=? length quads)%nat then triple_crc r quads else crc_quads r quads in
  crc_bytes r (drop (pre + 8 * n) data).

(** ** The hasher (lib.rs) *)

Inductive HState := SBaseline (state : Z) | SSpecialized (state : Z).

Record HasherSt := { amount : Z; h_state : HState }.

Section Hasher.
(** Whether the processor has the instructions, and how a slice is aligned. *)
Context (detected : bool) (split : list byte -> nat * nat).

Definition new_with_initial_len (init amount : Z) : HasherSt :=
  {| amount := amount; h_state := if detected then SSpecialized init else SBaseline init |}.

Definition hasher_default : HasherSt := new_with_initial_len 0 0.

Definition h_update (h : HasherSt) (buf : list byte) : HasherSt :=
  {| amount := wrap 64 (amount h + Z.of_nat (length buf));
     h_state := match h_state h with
                | SBaseline s => SBaseline (update_fast_16 s buf)
                | SSpecialized s => SSpecialized (calculate split s buf)
                end |}.

Definition h_finalize (h : HasherSt) : Z :=
  match h_state h with SBaseline s => s | SSpecialized s => s end.

Definition h_reset (h : HasherSt) : HasherSt :=
  {| amount := 0;
     h_state := match h_state h with SBaseline _ => SBaseline 0 | SSpecialized _ => SSpecialized 0 end |}.

Definition h_combine (h other : HasherSt) : HasherSt :=
  let crc := h_finalize other in
  {| amount := wrap 64 (amount h + amount other);
     h_state := match h_state h with
                | SBaseline s => SBaseline (combine s crc (amount other))
                | SSpecialized s => SSpecialized (combine s crc (amount other))
                end |}.

Definition hash (buf : list byte) : Z := h_finalize (h_update hasher_default buf).
End Hasher.

(** The golden values of combine.rs. *)
Example combine_golden :
  (combine 0x0 0x1 0x0, combine 0xc401f8c9 0 0, combine 0x7cba3d5e 0xe7466d39 0xb,
   combine 0x4f626f9a 0x9e5ccbf5 0xa59d, combine 0x7f6a4306 0xbc929646 0x828cde72b3e25301) =
  (0, 0xc401f8c9, 0x76365c4f, 0x98d43168, 0xef922dda).
Proof. by vm_compute. Qed.

(** ** Division by the polynomial is linear *)

(** One bit. *)
Definition red (c : Z) : Z := if Z.odd c then Z.lxor (Z.shiftr c 1) 0xEDB88320 else Z.shiftr c 1.

Lemma bitwise_S n c : bitwise (S n) c = bitwise n (red c).
Proof. done. Qed.

(** Equations between exclusive ors hold bit by bit. *)
Ltac xor_bits :=
  apply Z.bits_inj'; intros ? ?; rewrite ?Z.lxor_spec, ?Z.bits_0; btauto.

Lemma odd_lxor a b : Z.odd (Z.lxor a b) = xorb (Z.odd a) (Z.odd b).
Proof. rewrite <- !Z.bit0_odd. apply Z.lxor_spec. Qed.

Lemma red_xor a b : red (Z.lxor a b) = Z.lxor (red a) (red b).
Proof. unfold red. rewrite odd_lxor, Z.shiftr_lxor. destruct (Z.odd a), (Z.odd b); cbn [xorb]; xor_bits. Qed.

Lemma bitwise_xor n a b : bitwise n (Z.lxor a b) = Z.lxor (bitwise n a) (bitwise n b).
Proof. revert a b. induction n as [|n IH]; intros a b; [done|]. by rewrite !bitwise_S, red_xor. Qed.

Lemma bitwise_add m n c : bitwise (m + n) c = bitwise n (bitwise m c).
Proof. revert c. induction m as [|m IH]; intros c; [done|]. cbn [Nat.add]. by rewrite !bitwise_S. Qed.

Lemma red_shiftl c : red (Z.shiftl c 1) = c.
Proof.
  unfold red. rewrite <- Z.bit0_odd, Z.shiftl_spec_low by lia. rewrite Z.shiftr_shiftl_l by lia.
  change (1 - 1) with 0. apply Z.shiftl_0_r.
Qed.

Lemma bitwise_shiftl n c : bitwise n (Z.shiftl c (Z.of_nat n)) = c.
Proof.
  induction n as [|n IH]; [apply Z.shiftl_0_r|]. rewrite bitwise_S.
  replace (Z.of_nat (S n)) with (Z.of_nat n + 1) by lia. rewrite <- Z.shiftl_shiftl by lia. by rewrite red_shiftl.
Qed.

Lemma red_range c : u32_range c -> u32_range (red c).
Proof.
  intros Hc. assert (u32_range (Z.shiftr c 1)) as Hs.
  { unfold u32_range in *. rewrite Z.shiftr_div_pow2 by lia.
    split; [apply Z.div_pos; lia|apply Z.div_lt_upper_bound; lia]. }
  unfold red. destruct (Z.odd c); [apply u32_range_lxor|]; done.
Qed.

Lemma bitwise_range n c : u32_range c -> u32_range (bitwise n c).
Proof. revert c. induction n as [|n IH]; intros c Hc; [done|]. rewrite bitwise_S. by apply IH, red_range. Qed.

(** ** Bytes *)

Lemma nth_tabulate {A} (f : nat -> A) n k d : (k < n)%nat -> nth k (f <$> seq 0 n) d = f k.
Proof. intros Hk. by rewrite nth_lookup, list_lookup_fmap, lookup_seq_lt. Qed.

(** Entry [i] of row [k] is [i] divided by the polynomial, [k + 1] bytes. *)
Lemma table_rows :
  CRC32_TABLE16 = (fun k => (fun i => bitwise (8 * S k) (Z.of_nat i)) <$> seq 0 256) <$> seq 0 16.
Proof. vm_cast_no_check (eq_refl CRC32_TABLE16). Qed.

Lemma entry_bitwise k i : (k < 16)%nat -> 0 <= i < 256 -> entry k i = bitwise (8 * S k) i.
Proof.
  intros Hk Hi.
  unfold entry. rewrite table_rows, nth_tabulate, nth_tabulate by lia. by rewrite Z2Nat.id by lia.
Qed.

#[local] Opaque bitwise.

Lemma split_low c : c = Z.lxor (Z.land c 255) (Z.shiftl (Z.shiftr c 8) 8).
Proof.
  apply Z.bits_inj'. intros i Hi. rewrite Z.lxor_spec, Z.land_spec, Z.shiftl_spec by done.
  change 255 with (Z.ones 8). destruct (Z.lt_ge_cases i 8).
  - rewrite Z.ones_spec_low, (Z.testbit_neg_r _ (i - 8)) by lia. btauto.
  - rewrite Z.ones_spec_high, Z.shiftr_spec by lia. replace (i - 8 + 8) with i by lia. btauto.
Qed.

Lemma byte_lxor_range a b : 0 <= a < 256 -> 0 <= b < 256 -> 0 <= Z.lxor a b < 256.
Proof.
  change 256 with (2 ^ 8). rewrite !width_bits by lia. intros [Ha Ha'] [Hb Hb']. split; [by apply Z.lxor_nonneg|].
  intros i Hi. by rewrite Z.lxor_spec, Ha', Hb'.
Qed.

Lemma land_255_range c : 0 <= Z.land c 255 < 256.
Proof. change 255 with (Z.ones 8). rewrite Z.land_ones by lia. change 256 with (2 ^ 8). by apply Z.mod_pos_bound. Qed.

Lemma update_byte_bitwise c b : update_byte c b = bitwise 8 (Z.lxor c (b2z b)).
Proof.
  unfold update_byte. pose proof (land_255_range c) as Hc. pose proof (b2z_range b) as Hb.
  change (table_at (Z.lxor (Z.land c 255) (b2z b))) with (entry 0 (Z.lxor (Z.land c 255) (b2z b))).
  rewrite entry_bitwise by (first [lia|by apply byte_lxor_range]). rewrite (split_low c) at 3.
  rewrite !bitwise_xor. change (8 * 1)%nat with 8%nat. rewrite (bitwise_shiftl 8). xor_bits.
Qed.

(** The number with the given digits of eight bits, least significant first. *)
Fixpoint le_digits (l : list Z) : Z :=
  match l with
  | [] => 0
  | v :: l => Z.lxor v (Z.shiftl (le_digits l) 8)
  end.

Lemma lor_shiftl_8 b x : 0 <= b < 256 -> Z.lor b (Z.shiftl x 8) = Z.lxor b (Z.shiftl x 8).
Proof.
  change 256 with (2 ^ 8). rewrite width_bits by lia. intros [_ Hb]. apply Z.bits_inj'. intros i Hi.
  rewrite Z.lor_spec, Z.lxor_spec, Z.shiftl_spec by done. destruct (Z.lt_ge_cases i 8).
  - rewrite (Z.testbit_neg_r x) by lia. btauto.
  - rewrite Hb by done. btauto.
Qed.

Lemma le_value_digits l : le_value l = le_digits (b2z <$> l).
Proof. induction l as [|b l IH]; [done|]. cbn. rewrite IH. apply lor_shiftl_8, b2z_range. Qed.

Lemma le_digits_app l l' :
  le_digits (l ++ l') = Z.lxor (le_digits l) (Z.shiftl (le_digits l') (8 * Z.of_nat (length l))).
Proof.
  induction l as [|v l IH]; [cbn; by rewrite Z.shiftl_0_r|]. cbn [app le_digits length]. rewrite IH.
  rewrite Z.shiftl_lxor, Z.shiftl_shiftl by lia.
  replace (8 * Z.of_nat (length l) + 8) with (8 * Z.of_nat (S (length l))) by lia. by rewrite Z.lxor_assoc.
Qed.

(** The register after a string of bytes. *)
Lemma fold_bytes c l : foldl update_byte c l = bitwise (8 * length l) (Z.lxor c (le_value l)).
Proof.
  revert c. induction l as [|b l IH]; intros c.
  - cbn. by rewrite Z.lxor_0_r.
  - cbn [foldl length]. rewrite IH, update_byte_bitwise. replace (8 * S (length l))%nat with (8 + 8 * length l)%nat by lia.
    rewrite bitwise_add. f_equal. cbn [le_value]. rewrite lor_shiftl_8 by apply b2z_range.
    by rewrite <- Z.lxor_assoc, (bitwise_xor 8 _ (Z.shiftl _ _)), (bitwise_shiftl 8).
Qed.

Fixpoint xsum (l : list Z) : Z := match l with [] => 0 | x :: l => Z.lxor x (xsum l) end.

Lemma xsum_app l l' : xsum (l ++ l') = Z.lxor (xsum l) (xsum l').
Proof. induction l as [|x l IH]; [done|]. cbn. by rewrite IH, Z.lxor_assoc. Qed.

Lemma xsum_rev l : xsum (rev l) = xsum l.
Proof. induction l as [|x l IH]; [done|]. cbn. rewrite xsum_app, IH. cbn. by rewrite Z.lxor_0_r, Z.lxor_comm. Qed.

(** What the table contributes for each digit. *)
Fixpoint table_terms (l : list Z) : list Z :=
  match l with [] => [] | v :: l => bitwise (8 * S (length l)) v :: table_terms l end.

Lemma table_terms_sum l : xsum (table_terms l) = bitwise (8 * length l) (le_digits l).
Proof.
  induction l as [|v l IH]; [done|]. cbn [table_terms xsum le_digits length]. rewrite IH, bitwise_xor. f_equal.
  replace (8 * S (length l))%nat with (8 + 8 * length l)%nat by lia. by rewrite bitwise_add, (bitwise_shiftl 8).
Qed.

Lemma word_digits w :
  0 <= w < 2 ^ 32 ->
  le_digits [Z.land w 255; Z.land (Z.shiftr w 8) 255; Z.land (Z.shiftr w 16) 255; Z.shiftr w 24] = w.
Proof.
  intros Hw. cbn [le_digits]. rewrite Z.shiftl_0_l, Z.lxor_0_r.
  assert (forall x, Z.lxor (Z.land x 255) (Z.shiftl (Z.shiftr x 8) 8) = x) as E by (intros; by rewrite <- split_low).
  replace (Z.shiftr w 24) with (Z.shiftr (Z.shiftr w 16) 8) by (by rewrite Z.shiftr_shiftr by lia). rewrite E.
  replace (Z.shiftr w 16) with (Z.shiftr (Z.shiftr w 8) 8) by (by rewrite Z.shiftr_shiftr by lia). by rewrite !E.
Qed.

Lemma le_value_range l : 0 <= le_value l < 2 ^ (8 * Z.of_nat (length l)).
Proof.
  rewrite le_value_digits. induction l as [|b l IH]; [done|]. cbn [fmap list_fmap le_digits length].
  apply width_bits; [lia|]. apply width_bits in IH as [IH1 IH2]; [|lia].
  assert (0 <= b2z b < 2 ^ 8) as Hb by apply b2z_range. apply width_bits in Hb as [Hb1 Hb2]; [|lia].
  split; [apply Z.lxor_nonneg; split; [by intros; apply Z.shiftl_nonneg|done]|].
  intros i Hi. rewrite Z.lxor_spec, Z.shiftl_spec by lia. rewrite Hb2, IH2 by lia. done.
Qed.

Lemma fold_16_bytes crc block :
  u32_range crc -> (16 <= length block)%nat -> fold_16 crc block = foldl update_byte crc (take 16 block).
Proof.
  intros Hc Hl. do 16 (destruct block as [|? block]; [cbn in Hl; lia|]). clear Hl. cbn [take]. rewrite take_0.
  match goal with |- fold_16 _ (?b0 :: ?b1 :: ?b2 :: ?b3 :: ?r) = foldl _ _ (_ :: _ :: _ :: _ :: ?hi) =>
    set (low := [b0; b1; b2; b3]); set (high := hi) end.
  rewrite fold_bytes. unfold fold_16. cbn [take]. fold low. set (w := Z.lxor (le_value low) crc).
  assert (u32_range w) as Hw by (apply u32_range_lxor; [apply (le_value_range low)|done]).
  assert (0 <= Z.shiftr w 24 < 256) as H24.
  { rewrite Z.shiftr_div_pow2 by lia. unfold u32_range in Hw. split; [apply Z.div_pos; lia|apply Z.div_lt_upper_bound; lia]. }
  rewrite !entry_bitwise by (first [lia|apply land_255_range|apply b2z_range]).
  pose proof (table_terms_sum ([Z.land w 255; Z.land (Z.shiftr w 8) 255; Z.land (Z.shiftr w 16) 255; Z.shiftr w 24]
    ++ (b2z <$> high))) as Hs.
  rewrite le_digits_app, word_digits, <- le_value_digits in Hs by done.
  assert (Z.lxor crc (le_value (low ++ high)) = Z.lxor w (Z.shiftl (le_value high) 32)) as Ha.
  { rewrite le_value_digits, fmap_app, le_digits_app, <- !le_value_digits. unfold w. rewrite (Z.lxor_comm _ crc).
    by rewrite Z.lxor_assoc. }
  transitivity (bitwise 128 (Z.lxor crc (le_value (low ++ high)))); [|done]. rewrite Ha. etransitivity; [|exact Hs].
  unfold high, byte_at. cbn [nth fmap list_fmap app table_terms length].
  rewrite <- xsum_rev. cbn [rev app xsum]. by rewrite Z.lxor_0_r.
Qed.

(** *** The loops *)

Lemma fold_bytes_range crc l : u32_range crc -> u32_range (foldl update_byte crc l).
Proof. revert crc. induction l as [|b l IH]; intros crc Hc; [done|]. by apply IH, update_byte_range. Qed.

Lemma fold_times_bytes n crc buf :
  u32_range crc -> (16 * n <= length buf)%nat ->
  fold_times n crc buf = (foldl update_byte crc (take (16 * n) buf), drop (16 * n) buf).
Proof.
  revert crc buf. induction n as [|n IH]; intros crc buf Hc Hl; [done|]. cbn [fold_times].
  rewrite fold_16_bytes by (done || lia). rewrite IH by (rewrite ?length_drop; (by apply fold_bytes_range) || lia).
  rewrite drop_drop, <- foldl_app. replace (16 * S n)%nat with (16 + 16 * n)%nat by lia.
  by rewrite <- take_take_drop.
Qed.

Lemma fold_while_bytes fuel size times crc buf c' buf' :
  (16 * times <= size)%nat -> u32_range crc -> fold_while fuel size times crc buf = (c', buf') ->
  u32_range c' /\ foldl update_byte c' buf' = foldl update_byte crc buf.
Proof.
  intros Hs. revert crc buf. induction fuel as [|fuel IH]; intros crc buf Hc; cbn [fold_while]; [by intros [= <- <-]|].
  destruct (Nat.leb_spec size (length buf)) as [Hl|]; [|by intros [= <- <-]].
  rewrite fold_times_bytes by (done || lia). intros E. apply IH in E as [Hr Hf]; [|by apply fold_bytes_range].
  split; [done|]. by rewrite Hf, <- foldl_app, take_drop.
Qed.

(** The optimised update is the byte-wise one. *)
Lemma fast_16_slow prev buf : u32_range prev -> update_fast_16 prev buf = update_slow prev buf.
Proof.
  intros Hp. unfold update_fast_16.
  destruct (fold_while (length buf) BYTES_AT_ONCE UNROLL (not32 prev) buf) as [c1 b1] eqn:E1.
  apply fold_while_bytes in E1 as [Hc1 Hf1]; [|by vm_compute; lia|by apply not32_range].
  destruct (fold_while (length b1) 16 1 c1 b1) as [c2 b2] eqn:E2.
  apply fold_while_bytes in E2 as [Hc2 Hf2]; [|lia|done].
  unfold update_slow. by rewrite not32_involutive, Hf2, Hf1.
Qed.

(** The loops leave less than a block for the byte-wise one. *)
Lemma fold_while_rest fuel size times crc buf :
  (0 < times)%nat -> (16 * times <= size)%nat -> (length buf <= fuel)%nat ->
  (length (fold_while fuel size times crc buf).2 < size)%nat.
Proof.
  intros Ht Hs. revert crc buf. induction fuel as [|fuel IH]; intros crc buf Hl; cbn [fold_while snd]; [lia|].
  destruct (Nat.leb_spec size (length buf)) as [Hb|]; [|done].
  assert (forall n crc buf, (fold_times n crc buf).2 = drop (16 * n) buf) as Hd.
  { clear. induction n as [|n IH]; intros crc buf; [done|]. cbn [fold_times]. rewrite IH, drop_drop. f_equal. lia. }
  pose proof (Hd times crc buf) as E. destruct (fold_times times crc buf) as [c b]. cbn in E. subst b.
  apply IH. rewrite length_drop. lia.
Qed.

(** ** Multiplication *)

(** The product without the machine arithmetic. *)
Fixpoint mul (n : nat) (a b : Z) : Z :=
  match n with
  | O => 0
  | S n => Z.lxor (if Z.testbit a (Z.of_nat n) then b else 0) (mul n a (red b))
  end.

Lemma land_1 z : Z.land z 1 = if Z.odd z then 1 else 0.
Proof.
  rewrite <- Z.bit0_odd. change 1 with (Z.ones 1) at 1. rewrite Z.land_ones by lia. change (2 ^ 1) with 2.
  rewrite <- Z.bit0_mod. by destruct (Z.testbit z 0).
Qed.

Lemma land_mask z (b : bool) : u32_range z -> Z.land z (neg32 (if b then 1 else 0)) = if b then z else 0.
Proof.
  intros Hz. destruct b; [|by rewrite Z.land_0_r]. change (neg32 1) with (Z.ones 32). rewrite Z.land_ones by lia.
  by apply Z.mod_small.
Qed.

Lemma multiply_loop_mul n a b p : u32_range b -> multiply_loop n a b p = Z.lxor p (mul n a b).
Proof.
  revert b p. induction n as [|n IH]; intros b p Hb; cbn [multiply_loop mul]; [by rewrite Z.lxor_0_r|].
  assert (Z.lxor (Z.shiftr b 1) (Z.land (neg32 (Z.land b 1)) POLY) = red b) as ->.
  { rewrite land_1, Z.land_comm, land_mask by done. unfold red, POLY. destruct (Z.odd b); [done|]. apply Z.lxor_0_r. }
  rewrite land_1, <- Z.bit0_odd, Z.shiftr_spec, Z.add_0_l, land_mask by (done || lia).
  rewrite IH by (by apply red_range). by rewrite Z.lxor_assoc.
Qed.

Lemma multiply_mul a b : u32_range b -> multiply a b = mul 32 a b.
Proof. intros Hb. unfold multiply. by rewrite multiply_loop_mul, Z.lxor_0_l. Qed.

Definition linear (f : Z -> Z) : Prop := forall a b, f (Z.lxor a b) = Z.lxor (f a) (f b).

Lemma linear_mul n a : linear (mul n a).
Proof.
  intros x y. revert x y. induction n as [|n IH]; intros x y; [done|]. cbn [mul]. rewrite red_xor, IH.
  destruct (Z.testbit a (Z.of_nat n)); [xor_bits|by rewrite !Z.lxor_0_l].
Qed.

Lemma linear_bitwise n : linear (bitwise n).
Proof. intros x y. apply bitwise_xor. Qed.

Lemma linear_comp f g : linear f -> linear g -> linear (fun z => f (g z)).
Proof. intros Hf Hg x y. by rewrite Hg, Hf. Qed.

Lemma linear_0 f : linear f -> f 0 = 0.
Proof. intros Hf. pose proof (Hf 0 0) as E. rewrite Z.lxor_nilpotent in E. by rewrite E, Z.lxor_nilpotent. Qed.

(** Linear functions that agree on the powers of two agree. *)
Definition same_on_basis (f g : Z -> Z) : bool :=
  forallb (fun j => f (2 ^ Z.of_nat j) =? g (2 ^ Z.of_nat j)) (seq 0 32).

Lemma basis f g z : linear f -> linear g -> same_on_basis f g = true -> u32_range z -> f z = g z.
Proof.
  intros Hf Hg Hb. unfold same_on_basis in Hb. rewrite forallb_forall in Hb.
  assert (forall n z, (n <= 32)%nat -> 0 <= z < 2 ^ Z.of_nat n -> f z = g z) as H; [|by apply (H 32%nat)].
  induction n as [|n IH]; intros x Hn Hx.
  - assert (x = 0) as -> by (change (2 ^ Z.of_nat 0) with 1 in Hx; lia). by rewrite !linear_0.
  - destruct (Z.lt_ge_cases x (2 ^ Z.of_nat n)) as [Hlt|Hge]; [apply IH; lia|].
    rewrite Nat2Z.inj_succ, Z.pow_succ_r in Hx by lia.
    assert (x = Z.lxor (x - 2 ^ Z.of_nat n) (2 ^ Z.of_nat n)) as E.
    { rewrite <- Z.add_nocarry_lxor; [lia|]. apply Z.bits_inj'. intros i Hi. rewrite Z.land_spec, Z.bits_0.
      destruct (Z.eq_dec i (Z.of_nat n)) as [->|Hne]; [|rewrite Z.pow2_bits_false by lia; btauto].
      rewrite (proj2 (proj1 (width_bits (Z.of_nat n) (x - 2 ^ Z.of_nat n) ltac:(lia)) ltac:(lia))) by lia. done. }
    rewrite E, Hf, Hg. f_equal; [apply IH; lia|]. apply Z.eqb_eq, Hb, in_seq. lia.
Qed.

(** *** Powers of x *)

Definition op (i : nat) (z : Z) : Z := mul 32 (x2n i) z.

Lemma x2n_mod i : x2n i = nth (i mod 32) X2N_TABLE 0.
Proof. unfold x2n. change 31%nat with (Nat.ones 5). by rewrite Nat.land_ones. Qed.

(** The first entry is eight steps, each other one the square of the one before,
    and the table closes: it can be used cyclically. *)
Lemma table_first : same_on_basis (op 0) (bitwise 8) = true.
Proof. by vm_compute. Qed.

Lemma table_squares :
  forallb (fun r => same_on_basis (op (S r)) (fun z => op r (op r z))) (seq 0 32) = true.
Proof. vm_cast_no_check (eq_refl true). Qed.

#[local] Opaque mul.

Lemma op_S i z : u32_range z -> op (S i) z = op i (op i z).
Proof.
  intros Hz. pose proof (Nat.mod_upper_bound i 32 ltac:(lia)) as Hr. set (r := (i mod 32)%nat) in *.
  assert (x2n i = x2n r) as E1 by (rewrite !x2n_mod; unfold r; by rewrite Nat.Div0.mod_mod).
  assert (x2n (S i) = x2n (S r)) as E2.
  { rewrite !x2n_mod. f_equal. replace (S i) with (i + 1)%nat by lia. replace (S r) with (r + 1)%nat by lia. unfold r.
    by rewrite Nat.Div0.add_mod_idemp_l. }
  assert (forall y, op i y = op r y) as Ei by (intros y; unfold op; by rewrite E1).
  assert (op (S i) z = op (S r) z) as -> by (unfold op; by rewrite E2). rewrite !Ei.
  pose proof table_squares as Ht. rewrite forallb_forall in Ht. specialize (Ht r ltac:(apply in_seq; lia)).
  exact (basis _ _ z (linear_mul _ _) (linear_comp _ _ (linear_mul _ _) (linear_mul _ _)) Ht Hz).
Qed.

Lemma op_bitwise i z : u32_range z -> op i z = bitwise (8 * 2 ^ i) z.
Proof.
  revert z. induction i as [|i IH]; intros z Hz.
  - apply (basis (op 0) (bitwise 8)); [apply linear_mul|apply linear_bitwise|exact table_first|done].
  - rewrite op_S by done. rewrite (IH z) by done. rewrite IH by (by apply bitwise_range). rewrite <- bitwise_add. f_equal.
    cbn [Nat.pow]. lia.
Qed.

Lemma combine_loop_bitwise n i len p :
  0 <= len -> u32_range p ->
  combine_loop n i len p = bitwise (8 * 2 ^ i * Z.to_nat (Z.shiftr len (Z.of_nat i) mod 2 ^ Z.of_nat n)) p.
Proof.
  intros Hlen. revert i p. induction n as [|n IH]; intros i p Hp; cbn [combine_loop].
  - change (2 ^ Z.of_nat 0) with 1. rewrite Z.mod_1_r. change (Z.to_nat 0) with 0%nat. by rewrite Nat.mul_0_r.
  - set (bit := Z.testbit len (Z.of_nat i)).
    assert ((if bit then multiply (x2n i) p else p) = bitwise (8 * 2 ^ i * Nat.b2n bit) p) as ->.
    { destruct bit; cbn [Nat.b2n]; [|by rewrite Nat.mul_0_r]. rewrite multiply_mul by done. fold (op i p).
      rewrite op_bitwise by done. by rewrite Nat.mul_1_r. }
    rewrite IH by (by apply bitwise_range). rewrite <- bitwise_add. f_equal.
    assert (Z.shiftr len (Z.of_nat i) mod 2 ^ Z.of_nat (S n) =
      Z.b2z bit + 2 * (Z.shiftr len (Z.of_nat (S i)) mod 2 ^ Z.of_nat n)) as ->.
    { replace (Z.of_nat (S i)) with (Z.of_nat i + 1) by lia. rewrite <- Z.shiftr_shiftr by lia.
      rewrite (Z.shiftr_div_pow2 _ 1) by lia. change (2 ^ 1) with 2. set (x := Z.shiftr len (Z.of_nat i)).
      assert (bit = Z.odd x) as -> by (unfold bit, x; rewrite <- Z.bit0_odd, Z.shiftr_spec by lia; by rewrite Z.add_0_l).
      rewrite Nat2Z.inj_succ, Z.pow_succ_r, Z.rem_mul_r, Zmod_odd by lia. by destruct (Z.odd x). }
    pose proof (Z.mod_pos_bound (Z.shiftr len (Z.of_nat (S i))) (2 ^ Z.of_nat n) ltac:(lia)) as Hm.
    set (y := _ mod _) in *. rewrite Z2Nat.inj_add, Z2Nat.inj_mul by (destruct bit; cbn; lia).
    replace (Z.to_nat (Z.b2z bit)) with (Nat.b2n bit) by (by destruct bit). change (Z.to_nat 2) with 2%nat.
    cbn [Nat.pow]. generalize (2 ^ i)%nat (Z.to_nat y). intros P Y. destruct bit; cbn [Nat.b2n]; nia.
Qed.

Lemma combine_bitwise crc1 crc2 len2 :
  0 < len2 -> u32_range crc1 -> combine crc1 crc2 len2 = Z.lxor (bitwise (8 * Z.to_nat len2) crc1) crc2.
Proof.
  intros Hl Hc. unfold combine. destruct (Z.eqb_spec len2 0); [lia|]. rewrite combine_loop_bitwise by (done || lia).
  rewrite Z.shiftr_0_r, Z.mod_small; [by rewrite Nat.mul_1_r|]. unfold bit_length.
  pose proof (Z.log2_nonneg len2). rewrite Z2Nat.id by lia. pose proof (Z.log2_spec len2 Hl). lia.
Qed.

(** The checksum of a string from any start. *)
Lemma update_slow_split x l : update_slow x l = Z.lxor (bitwise (8 * length l) x) (update_slow 0 l).
Proof.
  unfold update_slow. rewrite !fold_bytes. unfold not32. rewrite Z.lxor_0_l, !bitwise_xor.
  by rewrite !Z.lxor_assoc.
Qed.

Lemma combine_appends x l : u32_range x -> combine x (update_slow 0 l) (Z.of_nat (length l)) = update_slow x l.
Proof.
  intros Hx. destruct l as [|b l].
  - change (x = not32 (not32 x)). by rewrite not32_involutive.
  - rewrite combine_bitwise, Nat2Z.id by (done || (cbn; lia)). by rewrite <- update_slow_split.
Qed.

(** ** The instructions *)

Lemma crc32b_byte c b : crc32b c b = update_byte c b.
Proof. symmetry. apply update_byte_bitwise. Qed.

Lemma crc_bytes_slow crc l : crc_bytes crc l = update_slow crc l.
Proof.
  unfold crc_bytes, update_slow. f_equal. generalize (not32 crc). induction l as [|b l IH]; intros c; [done|].
  cbn. by rewrite crc32b_byte.
Qed.

Lemma crc32d_word c l : length l = 8%nat -> crc32d c (le_value l) = foldl update_byte c l.
Proof. intros Hl. unfold crc32d. by rewrite fold_bytes, Hl. Qed.

(** The words of [ws], each eight bytes. *)
Definition words (ws : list (list byte)) : Prop := Forall (fun w => length w = 8%nat) ws.

Lemma fold_words c ws : words ws -> foldl crc32d c (le_value <$> ws) = foldl update_byte c (concat ws).
Proof.
  intros H. revert c. induction H as [|w ws Hw _ IH]; intros c; [done|]. cbn. rewrite IH, crc32d_word by done.
  by rewrite foldl_app.
Qed.

Lemma chunks_exact_spec {A} fuel n (l : list A) :
  (length l <= fuel)%nat -> (0 < n)%nat ->
  let '(cs, r) := chunks_exact fuel n l in
  l = concat cs ++ r /\ Forall (fun c => length c = n) cs /\ (length r < n)%nat.
Proof.
  revert l. induction fuel as [|fuel IH]; intros l Hl Hn; cbn [chunks_exact].
  - split; [done|]. split; [constructor|lia].
  - destruct (Nat.leb_spec n (length l)) as [Hle|]; [|split; [done|]; split; [constructor|done]].
    specialize (IH (drop n l)). rewrite length_drop in IH. specialize (IH ltac:(lia) Hn).
    destruct (chunks_exact fuel n (drop n l)) as [cs r]. destruct IH as (E & Hcs & Hr). split_and!; [|constructor|done].
    + cbn. by rewrite <- app_assoc, <- E, take_drop.
    + rewrite length_take. lia.
    + done.
Qed.

Lemma chunks_spec {A} n (l : list A) :
  (0 < n)%nat -> let '(cs, r) := chunks n l in
  l = concat cs ++ r /\ Forall (fun c => length c = n) cs /\ (length r < n)%nat.
Proof. intros Hn. by apply chunks_exact_spec. Qed.

Lemma foldl_chunks {A B} (f : B -> A -> B) c cs :
  foldl (fun c chunk => foldl f c chunk) c cs = foldl f c (concat cs).
Proof. revert c. induction cs as [|x cs IH]; intros c; [done|]. cbn. by rewrite IH, foldl_app. Qed.

Lemma crc_quads_fold crc quads : crc_quads crc quads = not32 (foldl crc32d (not32 crc) quads).
Proof.
  unfold crc_quads. pose proof (chunks_spec 8 quads ltac:(lia)) as Hc. destruct (chunks 8 quads) as [cs r].
  destruct Hc as [-> _]. by rewrite foldl_chunks, <- foldl_app.
Qed.

(** *** Three streams *)

Definition streams (c : Z * Z * Z) (a b d : list Z) : Z * Z * Z :=
  (foldl crc32d c.1.1 a, foldl crc32d c.1.2 b, foldl crc32d c.2 d).

Lemma streams_app c a b d a' b' d' : streams (streams c a b d) a' b' d' = streams c (a ++ a') (b ++ b') (d ++ d').
Proof. unfold streams. cbn. by rewrite !foldl_app. Qed.

Lemma triple_streams c a b d :
  length b = length a -> length d = length a -> foldl triple c (zip (zip a b) d) = streams c a b d.
Proof.
  revert c b d. induction a as [|x a IH]; intros c [|y b] [|z d] Hb Hd; try done; [by destruct c as [[]]|].
  cbn [zip zip_with foldl]. rewrite IH by (cbn in *; lia). done.
Qed.

Lemma triple_chunks_streams c a b d :
  length a = 4%nat -> length b = 4%nat -> length d = 4%nat -> triple_chunks c (a, b, d) = streams c a b d.
Proof.
  intros Ha Hb Hd. rewrite <- triple_streams by congruence. unfold triple_chunks.
  do 4 (destruct a as [|? a]; [done|]; destruct b as [|? b]; [done|]; destruct d as [|? d]; [done|]).
  by destruct a, b, d.
Qed.

Lemma all_chunks_streams c ca cb cd :
  length cb = length ca -> length cd = length ca ->
  Forall (fun x => length x = 4%nat) ca -> Forall (fun x => length x = 4%nat) cb ->
  Forall (fun x => length x = 4%nat) cd ->
  foldl triple_chunks c (zip (zip ca cb) cd) = streams c (concat ca) (concat cb) (concat cd).
Proof.
  revert c cb cd. induction ca as [|a ca IH]; intros c [|b cb] [|d cd] Hb Hd Fa Fb Fd; try done; [by destruct c as [[]]|].
  inversion Fa; subst. inversion Fb; subst. inversion Fd; subst.
  cbn [zip zip_with foldl concat]. rewrite triple_chunks_streams, IH, streams_app by (done || (cbn in *; lia)). done.
Qed.

(** Lists of the same length are cut alike. *)
Lemma chunks_exact_length {A} fuel n (l l' : list A) :
  length l' = length l ->
  length (chunks_exact fuel n l').1 = length (chunks_exact fuel n l).1 /\
  length (chunks_exact fuel n l').2 = length (chunks_exact fuel n l).2.
Proof.
  revert l l'. induction fuel as [|fuel IH]; intros l l' E; cbn [chunks_exact]; [done|]. rewrite E.
  destruct (n <=? length l)%nat; [|done]. specialize (IH (drop n l) (drop n l')). rewrite !length_drop, E in IH.
  destruct (IH eq_refl) as [H1 H2]. destruct (chunks_exact fuel n (drop n l)), (chunks_exact fuel n (drop n l')).
  cbn in *. by rewrite H1, H2.
Qed.

Lemma chunked_streams c a b d :
  length b = length a -> length d = length a ->
  foldl triple (foldl triple_chunks c (zip (zip (chunks 4 a).1 (chunks 4 b).1) (chunks 4 d).1))
    (zip (zip (chunks 4 a).2 (chunks 4 b).2) (chunks 4 d).2) = streams c a b d.
Proof.
  intros Hb Hd. unfold chunks. rewrite Hb, Hd.
  destruct (chunks_exact_length (length a) 4 a b Hb) as [H1 H2], (chunks_exact_length (length a) 4 a d Hd) as [H3 H4].
  pose proof (chunks_exact_spec (length a) 4 a ltac:(lia) ltac:(lia)) as Sa.
  pose proof (chunks_exact_spec (length a) 4 b ltac:(lia) ltac:(lia)) as Sb.
  pose proof (chunks_exact_spec (length a) 4 d ltac:(lia) ltac:(lia)) as Sd.
  destruct (chunks_exact _ 4 a) as [ca ra], (chunks_exact _ 4 b) as [cb rb], (chunks_exact _ 4 d) as [cd rd].
  cbn [fst snd] in *. destruct Sa as (Ea & Fa & _), Sb as (Eb & Fb & _), Sd as (Ed & Fd & _).
  rewrite all_chunks_streams, triple_streams, streams_app by done. by rewrite Ea, Eb, Ed.
Qed.

Lemma slice_words a b ws : slice a b (le_value <$> ws) = le_value <$> slice a b ws.
Proof. unfold slice. by rewrite fmap_take, fmap_drop. Qed.

Lemma words_slice a b ws : words ws -> words (slice a b ws).
Proof. intros H. unfold words, slice. by apply Forall_take, Forall_drop. Qed.

Lemma words_length ws : words ws -> length (concat ws) = (8 * length ws)%nat.
Proof. induction 1 as [|w ws Hw _ IH]; [done|]. cbn. rewrite length_app, IH, Hw. lia. Qed.

Lemma slow_words c ws : words ws -> not32 (foldl crc32d (not32 c) (le_value <$> ws)) = update_slow c (concat ws).
Proof. intros H. unfold update_slow. by rewrite fold_words. Qed.

Lemma three_slices {A} n (l : list A) :
  (3 * n <= length l)%nat -> slice 0 n l ++ slice n (2 * n) l ++ slice (2 * n) (3 * n) l ++ drop (3 * n) l = l.
Proof.
  intros Hl. unfold slice. rewrite drop_0. replace (n - 0)%nat with n by lia. replace (2 * n - n)%nat with n by lia.
  replace (3 * n - 2 * n)%nat with n by lia.
  replace (drop (3 * n) l) with (drop n (drop (2 * n) l)) by (rewrite drop_drop; f_equal; lia). rewrite take_drop.
  replace (drop (2 * n) l) with (drop n (drop n l)) by (rewrite drop_drop; f_equal; lia). by rewrite !take_drop.
Qed.

Lemma triple_crc_slow r ws : u32_range r -> words ws -> triple_crc r (le_value <$> ws) = update_slow r (concat ws).
Proof.
  intros Hr Hws. unfold triple_crc. rewrite length_fmap, !slice_words, <- fmap_drop. set (n := (length ws / 3)%nat).
  pose proof (Nat.Div0.mul_div_le (length ws) 3) as Hn. fold n in Hn.
  set (a := slice 0 n ws). set (b := slice n (2 * n) ws). set (d := slice (2 * n) (3 * n) ws).
  assert (length a = n) as La by (unfold a, slice; rewrite length_take, length_drop; lia).
  assert (length b = n) as Lb by (unfold b, slice; rewrite length_take, length_drop; lia).
  assert (length d = n) as Ld by (unfold d, slice; rewrite length_take, length_drop; lia).
  pose proof (chunked_streams (not32 r, not32 0, not32 0) (le_value <$> a) (le_value <$> b) (le_value <$> d)) as Hc.
  rewrite !length_fmap in Hc. specialize (Hc ltac:(lia) ltac:(lia)).
  destruct (chunks 4 (le_value <$> a)) as [ca ra], (chunks 4 (le_value <$> b)) as [cb rb],
    (chunks 4 (le_value <$> d)) as [cd rd]. cbn [fst snd] in Hc. rewrite Hc. unfold streams. cbn [fst snd].
  assert (words a /\ words b /\ words d) as (Wa & Wb & Wd) by (split_and!; by apply words_slice).
  assert (Z.of_nat (n * 8) = Z.of_nat (length (concat b))) as Eb by (rewrite words_length by done; lia).
  assert (Z.of_nat (n * 8) = Z.of_nat (length (concat d))) as Ed by (rewrite words_length by done; lia).
  rewrite !slow_words by done. rewrite Eb at 1. rewrite combine_appends by (by apply update_slow_range).
  rewrite Ed, combine_appends by (by apply update_slow_range, update_slow_range).
  rewrite crc_quads_fold, slow_words by (by apply Forall_drop). rewrite !update_slow_app.
  rewrite <- !concat_app. unfold a, b, d. by rewrite three_slices.
Qed.

(** *** Whole slices *)

(** How [align_to] may cut: within the slice. *)
Definition splits (split : list byte -> nat * nat) : Prop :=
  forall data, ((split data).1 + 8 * (split data).2 <= length data)%nat.

Lemma calculate_slow split crc data : splits split -> u32_range crc -> calculate split crc data = update_slow crc data.
Proof.
  intros Hs Hc. unfold calculate. specialize (Hs data). destruct (split data) as [pre n]. cbn [fst snd] in Hs.
  set (mid := slice pre (pre + 8 * n) data).
  assert (length mid = 8 * n)%nat as Lm by (unfold mid, slice; rewrite length_take, length_drop; lia).
  pose proof (chunks_spec 8 mid ltac:(lia)) as Hk. destruct (chunks 8 mid) as [ws r]. cbn [fst].
  destruct Hk as (Em & Hw & Hr).
  assert (r = []) as ->.
  { apply nil_length_inv. rewrite Em, length_app, (words_length ws) in Lm by done. lia. }
  rewrite app_nil_r in Em. rewrite !crc_bytes_slow, length_fmap. set (x := update_slow crc (take pre data)).
  assert (u32_range x) as Hx by (by apply update_slow_range).
  replace (if (MIN_TRIPLE_QUADS <=? length ws)%nat then triple_crc x (le_value <$> ws) else crc_quads x (le_value <$> ws))
    with (update_slow x mid).
  - unfold x. rewrite !update_slow_app. f_equal. unfold mid, slice. replace (pre + 8 * n - pre)%nat with (8 * n)%nat by lia.
    rewrite <- drop_drop, take_drop. apply take_drop.
  - rewrite Em. case_match; [by rewrite triple_crc_slow|]. by rewrite crc_quads_fold, slow_words.
Qed.

(** ** Theorems *)

(** C33. The fast routines are the reference: folding sixteen bytes at a time through
    the table of sixteen rows, and the CRC instructions with three interleaved streams
    that are combined at the end, give the register of the byte-wise algorithm, for every
    buffer, every start and every alignment of the slice. *)
Theorem crc32_implementations_agree split prev buf :
  splits split -> 0 <= prev < 2 ^ 32 ->
  update_fast_16 prev buf = update_slow prev buf /\ calculate split prev buf = update_slow prev buf.
Proof. intros Hs Hp. split; [by apply fast_16_slow|by apply calculate_slow]. Qed.

Section HasherProps.
Context (split : list byte -> nat * nat) (Hsplit : splits split).

Definition h_valid (h : HasherSt) : Prop := 0 <= amount h < 2 ^ 64 /\ 0 <= h_finalize h < 2 ^ 32.

Lemma h_update_finalize h buf :
  h_valid h -> h_finalize (h_update split h buf) = update_slow (h_finalize h) buf.
Proof.
  intros [_ Hr]. unfold h_finalize, h_update in *. cbn. destruct (h_state h); [by apply fast_16_slow|by apply calculate_slow].
Qed.

Lemma h_update_valid h buf : h_valid h -> h_valid (h_update split h buf).
Proof.
  intros Hv. split; [by apply wrap_range|]. rewrite h_update_finalize by done. apply update_slow_range, Hv.
Qed.

Lemma default_valid detected : h_valid (hasher_default detected).
Proof. by destruct detected. Qed.

Lemma h_update_nil h : h_valid h -> h_update split h [] = h.
Proof.
  intros Hv. pose proof (h_update_finalize h [] Hv) as Hf. destruct Hv as [Ha _].
  unfold update_slow in Hf. cbn [foldl] in Hf. rewrite not32_involutive in Hf.
  destruct h as [am [s|s]]; unfold h_update, h_finalize in *; cbn in *; rewrite Hf, Z.add_0_r; f_equal; by apply wrap_small.
Qed.

Lemma h_update_app h a b : h_valid h -> h_update split (h_update split h a) b = h_update split h (a ++ b).
Proof.
  intros Hv. pose proof (h_update_finalize (h_update split h a) b (h_update_valid h a Hv)) as H1.
  pose proof (h_update_finalize h (a ++ b) Hv) as H2. rewrite (h_update_finalize h a Hv) in H1.
  rewrite update_slow_app, <- H2 in H1. unfold h_update, h_finalize in *. cbn in *.
  assert (wrap 64 (wrap 64 (amount h + Z.of_nat (length a)) + Z.of_nat (length b)) =
          wrap 64 (amount h + Z.of_nat (length (a ++ b)))) as ->.
  { unfold wrap. rewrite Zplus_mod_idemp_l, length_app. f_equal. lia. }
  f_equal. destruct (h_state h); cbn in *; by rewrite H1.
Qed.

(** Pieces: the register, and the length modulo 2^64. *)
Lemma h_updates detected bufs :
  h_valid (foldl (h_update split) (hasher_default detected) bufs) /\
  h_finalize (foldl (h_update split) (hasher_default detected) bufs) = update_slow 0 (concat bufs) /\
  amount (foldl (h_update split) (hasher_default detected) bufs) = wrap 64 (Z.of_nat (length (concat bufs))).
Proof.
  induction bufs as [|b bufs IH] using rev_ind.
  - split; [apply default_valid|]. by destruct detected.
  - rewrite foldl_app, concat_app. cbn [foldl concat]. rewrite app_nil_r. destruct IH as (Hv & Hf & Ha).
    split; [by apply h_update_valid|]. rewrite h_update_finalize, Hf, update_slow_app by done. split; [done|].
    cbn. rewrite Ha, length_app. unfold wrap. rewrite Zplus_mod_idemp_l. f_equal. lia.
Qed.

(** Hashing two parts separately and combining the hashers gives the checksum of the
    whole, whichever implementation each of the two was given and in whatever pieces the
    parts were fed, if the second part is shorter than 2^64 bytes. *)
Theorem hasher_combine_correct detected1 detected2 bufs1 bufs2 :
  Z.of_nat (length (concat bufs2)) < 2 ^ 64 ->
  h_finalize (h_combine (foldl (h_update split) (hasher_default detected1) bufs1)
                        (foldl (h_update split) (hasher_default detected2) bufs2)) =
    update_slow 0 (concat bufs1 ++ concat bufs2).
Proof.
  intros Hl. destruct (h_updates detected1 bufs1) as ((_ & Hr) & Hf & _), (h_updates detected2 bufs2) as (_ & Hf2 & Ha2).
  rewrite wrap_small in Ha2 by lia. rewrite <- update_slow_app, <- Hf. rewrite <- combine_appends by exact Hr. rewrite <- Hf2, <- Ha2.
  unfold h_combine, h_finalize in *. cbn. by destruct (h_state (foldl _ (hasher_default detected1) bufs1)).
Qed.

(** *** The interface of the DFU handler *)

#[export] Instance h_valid_dec h : Decision (h_valid h).
Proof. unfold h_valid. apply _. Defined.

Context (detected : bool).

#[export] Instance crc32fast_hasher : Hasher (dsig h_valid) := {|
  hasher_new := dexist (hasher_default detected) (default_valid detected);
  hasher_update h buf := dexist (h_update split (`h) buf) (h_update_valid (`h) buf (proj2_dsig h));
  hasher_finalize h := h_finalize (`h);
|}.

#[export] Instance crc32fast_laws : HasherLaws (dsig h_valid).
Proof.
  split.
  - intros h. apply dsig_eq. cbn. apply h_update_nil, (proj2_dsig h).
  - intros h a b. apply dsig_eq. cbn. apply h_update_app, (proj2_dsig h).
  - intros h. apply (proj2_dsig h).
Qed.
End HasherProps.

(** ** Runs *)

(** A slice that starts three bytes before an aligned word. *)
Definition split_3 (data : list byte) : nat * nat :=
  let pre := Nat.min 3 (length data) in (pre, (length data - pre) / 8)%nat.

Lemma split_3_splits : splits split_3.
Proof.
  intros data. unfold split_3. cbn [fst snd].
  pose proof (Nat.Div0.mul_div_le (length data - Nat.min 3 (length data)) 8). lia.
Qed.

Lemma crc32_implementations_agree_witness :
  update_fast_16 0 (bs "123456789") = 0xCBF43926 /\ calculate split_3 0 (bs "123456789") = 0xCBF43926.
Proof. apply (crc32_implementations_agree split_3 0 (bs "123456789") split_3_splits). lia. Defined.

Lemma hasher_combine_correct_witness :
  h_finalize (h_combine (foldl (h_update split_3) (hasher_default true) [bs "123"; bs "4"])
                        (foldl (h_update split_3) (hasher_default false) [bs "56789"])) = 0xCBF43926.
Proof. apply (hasher_combine_correct split_3 split_3_splits true false [bs "123"; bs "4"] [bs "56789"]). reflexivity. Defined.

(** The three streams are used for long slices. *)
Example long_slice :
  let data := concat (replicate 200 (bs "12345678")) in
  bool_decide (calculate split_3 7 data = update_slow 7 data) && (MIN_TRIPLE_QUADS <=? (split_3 data).2)%nat = true.
Proof. vm_compute. reflexivity. Qed.
