(* ===== verification/SysInfo.v ===== *)
(** * System identity and runtime information

    Models crates/summit-usbgadget-config/src/sysinfo (boot-slot information,
    MAC and serial derivation, the system-information report) and the product
    string of crates/summit-usbgadget-usb/src/sysinfo/product.rs. Files, child
    processes, the random generator and the JSON serializer are not code of the
    repository: they are the fields of [SysEnv]. *)

From S2P Require Import Prelude Io Bytes.

(** What the operating system gives: file contents ([None]: unreadable), the
    standard output of [boot-rootfs.sh] and of a successful [fw_printenv],
    six random bytes, and [serde_json]'s rendering of a report. *)
Record SystemInfo := {
  si_model : string;
  si_serial : string;
  si_eth0 : string;
  si_eth1 : string;
  si_soc : string;
  si_memory_mb : Z;
  si_hw_part_number : string;
}.

Record SysEnv := {
  fs_read : string -> option (list byte);
  boot_rootfs : io_result (list byte);
  fw_printenv : string -> option (bool * list byte);
  getrandom6 : list byte;
  to_json : SystemInfo -> list byte;
  strerror : Z -> string;
}.

(** ** Text helpers *)

Definition str_trim (s : string) : string := str_of_bytes (trim (bs s)).
Definition is_empty (s : string) : bool := bool_decide (s = "").
Definition non_empty (s : string) : option string := if is_empty s then None else Some s.

(** [str::lines]: the terminator is a line feed, with an optional carriage
    return before it; a final empty line is not reported. *)
Fixpoint split_lines (acc : list byte) (l : list byte) : list (list byte) :=
  match l with
  | [] => if bool_decide (acc = []) then [] else [rev acc]
  | Byte.x0a :: l =>
      rev (match acc with Byte.x0d :: acc' => acc' | _ => acc end) :: split_lines [] l
  | b :: l => split_lines (b :: acc) l
  end.
Definition lines (s : string) : list string := str_of_bytes <$> split_lines [] (bs s).

(** [str::split_once] on a one-byte pattern. *)
Definition split_once (c : byte) (s : string) : option (string * string) :=
  let l := bs s in
  match position (fun b => bool_decide (b = c)) l with
  | Some i => Some (str_of_bytes (take i l), str_of_bytes (drop (S i) l))
  | None => None
  end.

Definition strip_prefix (p s : string) : option string :=
  let l := bs s in
  if starts_with (bs p) l then Some (str_of_bytes (drop (length (bs p)) l)) else None.

Definition strip_suffix (p s : string) : option string :=
  let l := bs s in let n := (length l - length (bs p))%nat in
  if bool_decide (drop n l = bs p) then Some (str_of_bytes (take n l)) else None.

(** [fs::read_to_string]: readable and valid UTF-8. *)
Definition read_to_string (env : SysEnv) (path : string) : option string :=
  b ← fs_read env path; from_utf8 b.

(** ** Boot and root-file-system information *)

Record BootRootfsInfo := {
  root_dev_type : string;
  current_side : string;
  hw_part_number : option string;
}.

Definition default_info : BootRootfsInfo :=
  {| root_dev_type := ""; current_side := ""; hw_part_number := None |}.

Definition is_running_on_sd (i : BootRootfsInfo) : bool :=
  bool_decide (root_dev_type i = "SD").
Definition is_running_on_initramfs (i : BootRootfsInfo) : bool :=
  bool_decide (root_dev_type i = "initramfs").
Definition is_single_slot (i : BootRootfsInfo) : bool :=
  is_running_on_sd i || is_running_on_initramfs i.
Definition use_pipe_mode (i : BootRootfsInfo) : bool := is_single_slot i.
Definition current_side_option (i : BootRootfsInfo) : option string :=
  if bool_decide (current_side i = "a") || bool_decide (current_side i = "b")
  then Some (current_side i) else None.

(** One [key=value] line of the script's output. *)
Definition boot_line (info : BootRootfsInfo) (line : string) : BootRootfsInfo :=
  match split_once Byte.x3d line with
  | None => info
  | Some (key, value) =>
      let value := str_trim value in
      if bool_decide (key = "rootDevType") then
        {| root_dev_type := value; current_side := current_side info;
           hw_part_number := hw_part_number info |}
      else if bool_decide (key = "currentSide") then
        {| root_dev_type := root_dev_type info; current_side := value;
           hw_part_number := hw_part_number info |}
      else if bool_decide (key = "baseHwPartNumber") && negb (is_empty value) then
        {| root_dev_type := root_dev_type info; current_side := current_side info;
           hw_part_number := Some value |}
      else info
  end.

Definition run_boot_rootfs (env : SysEnv) : io_result BootRootfsInfo :=
  let? stdout := boot_rootfs env in
  Ok (foldl boot_line default_info (lines (from_utf8_lossy stdout))).

Definition boot_info (env : SysEnv) : BootRootfsInfo :=
  match run_boot_rootfs env with Ok i => i | Err _ => default_info end.

Definition inactive_side (current_side : option string) : string :=
  if bool_decide (default "a" current_side = "a") then "b" else "a".

(** ** MAC addresses and serials *)

Record MacAddresses := { eth0 : string; eth1 : string }.

Definition format_serial_mac (bytes : list byte) : option string :=
  if bool_decide (length bytes = 6%nat)
  then Some (str_of_bytes (mjoin (fmt_byte_lower <$> bytes))) else None.

Definition read_mac_cell (env : SysEnv) (path : string) : option string :=
  b ← fs_read env path; format_serial_mac b.

Definition read_trimmed (env : SysEnv) (path : string) : option string :=
  v ← read_to_string env path; non_empty (str_trim v).

Definition soc_id (env : SysEnv) : option string :=
  match read_trimmed env "/sys/devices/soc0/soc_id" with
  | Some s => Some s
  | None => read_trimmed env "/sys/devices/soc0/family"
  end.

Definition read_cell_macs (env : SysEnv) (c0 c1 : string) : option MacAddresses :=
  Some {| eth0 := default "" (read_mac_cell env c0); eth1 := default "" (read_mac_cell env c1) |}.

Definition read_single_cell_mac (env : SysEnv) (path : string) : option MacAddresses :=
  Some {| eth0 := default "" (read_mac_cell env path); eth1 := "" |}.

Definition replace_colon (l : list byte) : list byte := filter (fun b => b <> Byte.x3a) l.

Definition read_uboot_value (env : SysEnv) (variable : string) : option string :=
  '(success, stdout) ← fw_printenv env variable;
  if negb success then None else
  let value := replace_colon (trim (bs (from_utf8_lossy stdout))) in
  if bool_decide (length value = 12%nat) && forallb is_ascii_hexdigit value
  then Some (str_of_bytes (to_ascii_lowercase <$> value)) else None.

Definition read_uboot_mac (env : SysEnv) (variable : string) : option MacAddresses :=
  e ← read_uboot_value env variable; Some {| eth0 := e; eth1 := "" |}.

Definition IMX95_MAC_CELLS : string * string :=
  ("/sys/bus/nvmem/devices/ELE-OCOTP0/cells/mac-address@514,0",
   "/sys/bus/nvmem/devices/ELE-OCOTP0/cells/mac-address@1514,0").
Definition IMX93_MAC_CELLS : string * string :=
  ("/sys/bus/nvmem/devices/ELE-OCOTP0/cells/mac-address@4ec,0",
   "/sys/bus/nvmem/devices/ELE-OCOTP0/cells/mac-address@4f2,0").
Definition IMX8MP_MAC_CELLS : string * string :=
  ("/sys/bus/nvmem/devices/imx-ocotp0/cells/mac-address@90,0",
   "/sys/bus/nvmem/devices/imx-ocotp0/cells/mac-address@96,0").
Definition IMX8MM_ETH0_MAC_CELL : string :=
  "/sys/bus/nvmem/devices/imx-ocotp0/cells/mac-address@90,0".
Definition AM62X_MAC_CELLS : string * string :=
  ("/sys/bus/nvmem/devices/rv3028_eeprom0/cells/mac-address@0,0",
   "/sys/bus/nvmem/devices/rv3028_eeprom0/cells/mac-address@0,6").
Definition SOM60_MAC_CELLS : string * string :=
  ("/sys/bus/nvmem/devices/0-00500/of_node/mac-address@2",
   "/sys/bus/nvmem/devices/0-00500/of_node/mac-address@8").

Definition str_in (s : string) (l : list string) : bool := bool_decide (s ∈ l).

Definition macs (env : SysEnv) : option MacAddresses :=
  soc ← soc_id env;
  let cells c := read_cell_macs env c.1 c.2 in
  if str_in soc ["i.MX95"] then cells IMX95_MAC_CELLS
  else if str_in soc ["i.MX8MP"] then cells IMX8MP_MAC_CELLS
  else if str_in soc ["i.MX8MM"] then read_single_cell_mac env IMX8MM_ETH0_MAC_CELL
  else if str_in soc ["i.MX91"; "i.MX93"] then cells IMX93_MAC_CELLS
  else if str_in soc ["AM62X"; "J722S"; "AM62LX"] then cells AM62X_MAC_CELLS
  else if str_in soc ["sama5d36"] then cells SOM60_MAC_CELLS
  else if str_in soc ["sama5d31"] then read_uboot_mac env "ethaddr"
  else None.

Definition serial (m : MacAddresses) : string := eth0 m.

Definition random_serial (env : SysEnv) : string :=
  str_of_bytes (mjoin (fmt_byte_lower <$> getrandom6 env)).

Definition normalize (value : list byte) : string :=
  str_of_bytes (replace_colon (to_ascii_lowercase <$> value)).

(** The configured source, falling back to the fuse MAC and then to a random
    serial; it never fails. *)
Definition resolve_serial (env : SysEnv) (serial_source : option string) : string :=
  let auto := match macs env with
              | Some m => if is_empty (eth0 m) then random_serial env else eth0 m
              | None => random_serial env
              end in
  if bool_decide (default "auto" serial_source = "wifi_mac") then
    match read_to_string env "/etc/wifi_mac" with
    | Some value => if is_empty (str_trim value) then auto else normalize (trim (bs value))
    | None => auto
    end
  else auto.

(** ** The system-information report *)

Definition until_nul (l : list byte) : list byte :=
  take (default (length l) (position (fun b => bool_decide (b = Byte.x00)) l)) l.

Definition read_dt_string (env : SysEnv) (path : string) : option string :=
  b ← fs_read env path; non_empty (str_trim (from_utf8_lossy (until_nul b))).

Definition mem_total_mb (env : SysEnv) : option Z :=
  text ← read_to_string env "/proc/meminfo";
  line ← head (filter (fun l => starts_with (bs "MemTotal:") (bs l) = true) (lines text));
  rest ← strip_prefix "MemTotal:" line;
  kb ← strip_suffix "kB" (str_trim rest);
  v ← from_str_radix 10 (2 ^ 64 - 1) (trim (bs kb));
  Some (v / 1024).

(** What does not change while the system runs is read once. *)
Record BaseSystemInfo := {
  bi_model : option string;
  bi_soc : option string;
  bi_memory_mb : option Z;
}.

Definition base_info (env : SysEnv) : BaseSystemInfo :=
  {| bi_model := read_dt_string env "/sys/firmware/devicetree/base/model";
     bi_soc := soc_id env; bi_memory_mb := mem_total_mb env |}.

Definition collect (env : SysEnv) (ser : option string) : SystemInfo :=
  let base := base_info env in
  let m := default {| eth0 := ""; eth1 := "" |} (macs env) in
  {| si_model := default "" (bi_model base);
     si_serial := default (serial m) ser;
     si_eth0 := eth0 m; si_eth1 := eth1 m;
     si_soc := default "" (bi_soc base);
     si_memory_mb := default 0 (bi_memory_mb base);
     si_hw_part_number := default "" (hw_part_number (boot_info env)) |}.

Definition system_info_json (env : SysEnv) : list byte := to_json env (collect env None).

(** ** Product string (crates/summit-usbgadget-usb/src/sysinfo/product.rs) *)

Definition read_model (env : SysEnv) : option string :=
  bytes ← fs_read env "/sys/firmware/devicetree/base/model";
  let value := str_trim (from_utf8_lossy (until_nul bytes)) in
  if is_empty value then None else Some value.

(** The message quotes the source. *)
Definition custom_needs_name : string :=
  "product_name_source = " +:+ str_of_bytes ([Byte.x22] ++ bs "custom" ++ [Byte.x22]) +:+ " requires a non-empty `product_name`".

Definition product_resolve (env : SysEnv) (product_name product_name_source : option string)
    : result string string :=
  let default_source := match product_name with Some _ => "custom" | None => "model" end in
  let source := default default_source product_name_source in
  if bool_decide (source = "custom") then
    match product_name with
    | Some s => if is_empty s
                then Err custom_needs_name
                else Ok s
    | None => Err custom_needs_name
    end
  else if bool_decide (source = "model") then
    Ok (default "" (read_model env))
  else Err ("invalid product_name_source: " +:+ source).

(** ** The shape of an automatic serial *)

Definition hex_digits : list byte := bs "0123456789abcdef".
Definition lower_hex (b : byte) : bool := bool_decide (b ∈ hex_digits).

(** Twelve lower-case hexadecimal digits. *)
Definition serial_shape (s : string) : Prop := length (bs s) = 12%nat /\ forallb lower_hex (bs s) = true.

Lemma fmt_byte_lower_shape b : length (fmt_byte_lower b) = 2%nat /\ forallb lower_hex (fmt_byte_lower b) = true.
Proof. destruct b; split; vm_compute; reflexivity. Qed.

Lemma lowercase_hexdigit b : is_ascii_hexdigit b = true -> lower_hex (to_ascii_lowercase b) = true.
Proof. destruct b; vm_compute; done. Qed.

Lemma fmt_bytes_shape l :
  length (mjoin (fmt_byte_lower <$> l)) = (2 * length l)%nat /\
  forallb lower_hex (mjoin (fmt_byte_lower <$> l)) = true.
Proof.
  induction l as [|b l [IH1 IH2]]; [done|]. destruct (fmt_byte_lower_shape b) as [H1 H2]. 
  change (mjoin (fmt_byte_lower <$> b :: l)) with (fmt_byte_lower b ++ mjoin (fmt_byte_lower <$> l)).
  split; [rewrite length_app, H1, IH1; cbn [length]; lia|]. rewrite forallb_app, H2. exact IH2.
Qed.

Lemma format_serial_mac_shape b s : format_serial_mac b = Some s -> serial_shape s.
Proof.
  unfold format_serial_mac. case_bool_decide as Hl; [|done]. intros [= <-].
  destruct (fmt_bytes_shape b) as [H1 H2]. split; rewrite bs_str_of_bytes; [lia|done].
Qed.

Lemma uboot_value_shape env v s : read_uboot_value env v = Some s -> serial_shape s.
Proof.
  unfold read_uboot_value. destruct (fw_printenv env v) as [[[] out]|]; [|done|done]. simpl.
  set (value := replace_colon _). case_bool_decide as Hl; [|done].
  destruct (forallb is_ascii_hexdigit value) eqn:Hh; [|done]. intros [= <-].
  split; rewrite bs_str_of_bytes; [by rewrite length_fmap|].
  apply forallb_forall. intros c Hc%list_elem_of_In. apply list_elem_of_fmap in Hc as (d & -> & Hd).
  apply lowercase_hexdigit. rewrite forallb_forall in Hh. by apply Hh, list_elem_of_In.
Qed.

Lemma read_mac_cell_shape env path : default "" (read_mac_cell env path) = "" \/
  serial_shape (default "" (read_mac_cell env path)).
Proof.
  unfold read_mac_cell. destruct (fs_read env path) as [b|]; [|by left]. simpl.
  destruct (format_serial_mac b) eqn:E; [right; by eapply format_serial_mac_shape|by left].
Qed.

(** The primary MAC is missing or well formed on every supported SoC. *)
Lemma macs_shape env m : macs env = Some m -> eth0 m = "" \/ serial_shape (eth0 m).
Proof.
  unfold macs. destruct (soc_id env) as [soc|]; [|done]. simpl.
  repeat (case_match; [intros [= <-]; apply read_mac_cell_shape|]).
  case_match; [|done]. unfold read_uboot_mac. destruct (read_uboot_value env "ethaddr") eqn:E; [|done].
  intros [= <-]. right. by eapply uboot_value_shape.
Qed.

(** Whatever the SoC, the fuses and the boot environment hold, the serial
    number the gadget advertises unless it is configured to use the Wi-Fi
    address is twelve lower-case hexadecimal digits: the primary Ethernet
    address where there is one, otherwise random. *)
Theorem auto_serial_shape env source :
  source <> Some "wifi_mac" -> length (getrandom6 env) = 6%nat ->
  serial_shape (resolve_serial env source).
Proof.
  intros Hs Hr. unfold resolve_serial. rewrite bool_decide_false by (destruct source; simpl; congruence).
  assert (serial_shape (random_serial env)) as Hrand.
  { destruct (fmt_bytes_shape (getrandom6 env)) as [H1 H2]. unfold random_serial.
    split; rewrite bs_str_of_bytes; [lia|done]. }
  destruct (macs env) as [m|] eqn:E; [|done]. unfold is_empty. case_bool_decide as He; [done|].
  destruct (macs_shape env m E); [done|done].
Qed.

Definition imx8mp_env : SysEnv := {|
  fs_read p :=
    if bool_decide (p = "/sys/devices/soc0/soc_id") then Some (bs "i.MX8MP")
    else if bool_decide (p = IMX8MP_MAC_CELLS.1) then Some [Byte.x00; Byte.x25; Byte.xca; Byte.x1a; Byte.x2b; Byte.x3c]
    else None;
  boot_rootfs := Err (Os ENOENT); fw_printenv _ := None; getrandom6 := replicate 6 Byte.xff;
  to_json _ := []; strerror _ := "" |}.

Lemma auto_serial_shape_witness :
  serial_shape (resolve_serial imx8mp_env (Some "auto")) /\
  resolve_serial imx8mp_env (Some "auto") = "0025ca1a2b3c".
Proof.
  split; [|vm_compute; reflexivity].
  apply (auto_serial_shape imx8mp_env (Some "auto")); [discriminate|reflexivity].
Defined.
