(* ===== verification/SwuProto.v ===== *)
(** * The SWUpdate IPC wire protocol

    Models crates/swupdate-ipc: the frame layouts of src/swupdate_sys.rs, the
    accessors of src/proto.rs and the native request/status types of
    src/codec.rs. A frame is the byte buffer that goes over the socket: the C
    union of message payloads is a set of overlapping views of that buffer at
    the offsets of the 64-bit C ABI, so that writing one view and reading
    another is what it is in the program. *)

From S2P Require Import Prelude Io Bytes.

(** ** Buffers and fields *)

Definition get (off n : nat) (f : list byte) : list byte := take n (drop off f).
Definition put (off : nat) (v : list byte) (f : list byte) : list byte :=
  take off f ++ v ++ drop (off + length v) f.

Lemma length_get off n f : (off + n <= length f)%nat -> length (get off n f) = n.
Proof. intros. unfold get. rewrite length_take, length_drop. lia. Qed.

Lemma length_put off v f :
  (off + length v <= length f)%nat -> length (put off v f) = length f.
Proof. intros. unfold put. rewrite !length_app, length_take, length_drop. lia. Qed.

(** Reading back the field just written. *)
Lemma get_put_same off n v f :
  length v = n -> (off + n <= length f)%nat -> get off n (put off v f) = v.
Proof.
  intros <- H. unfold get, put. rewrite drop_app_length'.
  - by rewrite take_app_length.
  - rewrite length_take. lia.
Qed.

(** A write leaves every disjoint field alone. *)
Lemma get_put_disjoint off n off' v f :
  (off + n <= off' \/ off' + length v <= off)%nat ->
  (off' + length v <= length f)%nat ->
  get off n (put off' v f) = get off n f.
Proof.
  intros Hd Hl. unfold get, put. destruct Hd as [Hd|Hd].
  - rewrite drop_app_le by (rewrite length_take; lia).
    rewrite take_app_le by (rewrite length_drop, length_take; lia).
    rewrite <- (take_drop off' f) at 2.
    rewrite (drop_app_le (take off' f)) by (rewrite length_take; lia).
    by rewrite (take_app_le (drop off (take off' f))) by (rewrite length_drop, length_take; lia).
  - rewrite app_assoc, drop_app_ge by (rewrite length_app, length_take; lia).
    rewrite drop_drop. f_equal. f_equal. rewrite length_app, length_take. lia.
Qed.

Definition get_u32 (off : nat) (f : list byte) : Z := le_val (get off 4 f).
Definition put_u32 (off : nat) (z : Z) (f : list byte) : list byte := put off (le_bytes 4 z) f.

Lemma get_u32_range off f : 0 <= get_u32 off f < 2 ^ 32.
Proof.
  unfold get_u32. pose proof (le_val_range (get off 4 f)) as H.
  assert (length (get off 4 f) <= 4)%nat as Hl by (unfold get; rewrite length_take; lia).
  assert (256 ^ Z.of_nat (length (get off 4 f)) <= 256 ^ 4) by (apply Z.pow_le_mono_r; lia).
  change (2 ^ 32) with (256 ^ 4). lia.
Qed.

Lemma get_put_u32_same off z f :
  0 <= z < 2 ^ 32 -> (off + 4 <= length f)%nat -> get_u32 off (put_u32 off z f) = z.
Proof.
  intros Hz Hl. unfold get_u32, put_u32. rewrite get_put_same by (rewrite ?length_le_bytes; lia).
  apply le_val_le_bytes. by change (256 ^ Z.of_nat 4) with (2 ^ 32).
Qed.

(** The [as i32] view of a 32-bit field. *)
Definition as_i32 (z : Z) : Z := if z <? 2 ^ 31 then z else z - 2 ^ 32.

(** ** C strings *)

Inductive Error :=
| EIo (e : io_error)
| ENack
| EUnexpectedType (t : Z)
| EInvalidMagic (m : Z)
| EIncompatibleProgressVersion (v : Z)
| EInvalidProgressAck
| EClosed
| EInvalidArgument (msg : string)
| ETimeout
| EProgressConnectTimeout
| EInstallFailed.

#[global] Instance Error_eq_dec : EqDecision Error.
Proof. solve_decision. Defined.

Abbreviation swu_result A := (result A Error).

(** Writes [value] and its terminator at the front of [dst]; the bytes after
    the terminator keep their old contents. *)
Definition write_c_string (dst : list byte) (value : string) : swu_result (list byte) :=
  let v := bs value in
  if (length dst <=? length v)%nat
  then Err (EInvalidArgument "string does not fit in the fixed C buffer")
  else Ok (v ++ Byte.x00 :: drop (S (length v)) dst).

Definition read_c_string (src : list byte) : string :=
  from_utf8_lossy (take (default (length src) (position (fun b => bool_decide (b = Byte.x00)) src)) src).

(** A buffer of [n] bytes at [off] of a frame, overwritten by a C string. *)
Definition put_c_string (off n : nat) (value : string) (f : list byte) : swu_result (list byte) :=
  let? buf := write_c_string (get off n f) value in Ok (put off buf f).

(** ** Protocol enumerations and constants (src/swupdate_sys.rs) *)

Definition PROGRESS_API_MAJOR : Z := 2.
Definition IPC_MAGIC : Z := 335880193.
Definition SWUPDATE_API_VERSION : Z := 1.
Definition PROGRESS_CONNECT_ACK_MAGIC : list byte := bs "ACK".

Inductive RecoveryStatus :=
| IDLE | START | RUN | SUCCESS | FAILURE | DOWNLOAD | DONE | SUBPROCESS | PROGRESS.

#[global] Instance RecoveryStatus_eq_dec : EqDecision RecoveryStatus.
Proof. solve_decision. Defined.

Definition status_u32 (s : RecoveryStatus) : Z :=
  match s with
  | IDLE => 0 | START => 1 | RUN => 2 | SUCCESS => 3 | FAILURE => 4
  | DOWNLOAD => 5 | DONE => 6 | SUBPROCESS => 7 | PROGRESS => 8
  end.

Definition is_terminal (s : RecoveryStatus) : bool :=
  match s with SUCCESS | FAILURE => true | _ => false end.

Definition decode_recovery_status (raw : Z) : result RecoveryStatus Z :=
  if raw =? 0 then Ok IDLE
  else if raw =? 1 then Ok START
  else if raw =? 2 then Ok RUN
  else if raw =? 3 then Ok SUCCESS
  else if raw =? 4 then Ok FAILURE
  else if raw =? 5 then Ok DOWNLOAD
  else if raw =? 6 then Ok DONE
  else if raw =? 7 then Ok SUBPROCESS
  else if raw =? 8 then Ok PROGRESS
  else Err raw.

Inductive SourceType :=
| SOURCE_UNKNOWN | SOURCE_WEBSERVER | SOURCE_SURICATTA | SOURCE_DOWNLOADER
| SOURCE_LOCAL | SOURCE_CHUNKS_DOWNLOADER.

Definition source_u32 (s : SourceType) : Z :=
  match s with
  | SOURCE_UNKNOWN => 0 | SOURCE_WEBSERVER => 1 | SOURCE_SURICATTA => 2
  | SOURCE_DOWNLOADER => 3 | SOURCE_LOCAL => 4 | SOURCE_CHUNKS_DOWNLOADER => 5
  end.

Inductive RunType := RUN_DEFAULT | RUN_DRYRUN | RUN_INSTALL.

Definition run_u32 (r : RunType) : Z :=
  match r with RUN_DEFAULT => 0 | RUN_DRYRUN => 1 | RUN_INSTALL => 2 end.

Inductive MsgType :=
| REQ_INSTALL | ACK | NACK | GET_STATUS | POST_UPDATE | SWUPDATE_SUBPROCESS | SET_AES_KEY
| SET_UPDATE_STATE | GET_UPDATE_STATE | REQ_INSTALL_EXT | SET_VERSIONS_RANGE | NOTIFY_STREAM
| GET_HW_REVISION | SET_SWUPDATE_VARS | GET_SWUPDATE_VARS | SET_DELTA_URL.

Definition msg_u32 (t : MsgType) : Z :=
  match t with
  | REQ_INSTALL => 0 | ACK => 1 | NACK => 2 | GET_STATUS => 3 | POST_UPDATE => 4
  | SWUPDATE_SUBPROCESS => 5 | SET_AES_KEY => 6 | SET_UPDATE_STATE => 7
  | GET_UPDATE_STATE => 8 | REQ_INSTALL_EXT => 9 | SET_VERSIONS_RANGE => 10
  | NOTIFY_STREAM => 11 | GET_HW_REVISION => 12 | SET_SWUPDATE_VARS => 13
  | GET_SWUPDATE_VARS => 14 | SET_DELTA_URL => 15
  end.

(** ** [SwupdateRequest]: 1056 bytes, field offsets of the C struct *)

Definition REQUEST_SIZE : nat := 1056.
Definition REQ_APIVERSION : nat := 0.
Definition REQ_SOURCE : nat := 4.
Definition REQ_DRY_RUN : nat := 8.
Definition REQ_LEN : nat := 16.
Definition REQ_INFO : nat := 24.
Definition REQ_SOFTWARE_SET : nat := 536.
Definition REQ_RUNNING_MODE : nat := 792.
Definition REQ_DISABLE_STORE_SWU : nat := 1048.

Definition zeroed (n : nat) : list byte := replicate n Byte.x00.

Definition prepare : list byte :=
  put_u32 REQ_DRY_RUN (run_u32 RUN_DEFAULT)
    (put_u32 REQ_APIVERSION SWUPDATE_API_VERSION (zeroed REQUEST_SIZE)).

Definition set_software_set (value : string) (req : list byte) : swu_result (list byte) :=
  put_c_string REQ_SOFTWARE_SET 256 value req.
Definition set_running_mode (value : string) (req : list byte) : swu_result (list byte) :=
  put_c_string REQ_RUNNING_MODE 256 value req.

(** ** [IpcMessage]: magic, type and a 3112-byte union, 3120 bytes *)

Definition IPC_SIZE : nat := 3120.
Definition IPC_DATA : nat := 8.

Definition ipc_zeroed : list byte := zeroed IPC_SIZE.

Definition ipc_new (t : MsgType) : list byte :=
  put_u32 4 (msg_u32 t) (put_u32 0 IPC_MAGIC ipc_zeroed).

Definition ipc_magic (f : list byte) : Z := get_u32 0 f.
Definition ipc_type (f : list byte) : Z := get_u32 4 f.

Definition has_type (t : MsgType) (f : list byte) : bool := ipc_type f =? msg_u32 t.

Definition set_install_request (request f : list byte) : list byte := put IPC_DATA request f.

(** The status view: [current], [last_result], [error], then the description. *)
Definition STATUS_CURRENT : nat := IPC_DATA.
Definition STATUS_LAST_RESULT : nat := IPC_DATA + 4.
Definition STATUS_DESC : nat := IPC_DATA + 12.

Definition install_statuses (f : list byte) : option RecoveryStatus * option RecoveryStatus :=
  (ok (decode_recovery_status (get_u32 STATUS_CURRENT f)),
   ok (decode_recovery_status (get_u32 STATUS_LAST_RESULT f))).

Definition install_status_description (f : list byte) : Z * string :=
  (as_i32 (get_u32 STATUS_CURRENT f), read_c_string (get STATUS_DESC 2048 f)).

(** The subprocess view: source, command, timeout, length, buffer. *)
Definition PROC_LEN : nat := IPC_DATA + 12.
Definition PROC_BUF : nat := IPC_DATA + 16.

Definition set_postupdate_info (info f : list byte) : list byte :=
  let len := Nat.min (length info) 2048 in
  put_u32 PROC_LEN (Z.of_nat len) (put PROC_BUF (take len info) f).

Definition AES_KEY : nat := IPC_DATA.
Definition AES_IVT : nat := IPC_DATA + 65.

Definition set_aes_key (key ivt : string) (f : list byte) : swu_result (list byte) :=
  let? f := put_c_string AES_KEY 65 key f in put_c_string AES_IVT 33 ivt f.

Definition VERSION_MIN : nat := IPC_DATA.
Definition VERSION_MAX : nat := IPC_DATA + 256.
Definition VERSION_CUR : nat := IPC_DATA + 512.

Definition put_opt (off : nat) (v : option string) (f : list byte) : swu_result (list byte) :=
  match v with Some v => put_c_string off 256 v f | None => Ok f end.

Definition set_version_range (mn mx cur : option string) (f : list byte)
    : swu_result (list byte) :=
  let? f := put_opt VERSION_MIN mn f in
  let? f := put_opt VERSION_MAX mx f in
  put_opt VERSION_CUR cur f.

(** ** Native requests and status (src/codec.rs) *)

Inductive InstallSource :=
| Unknown | Webserver | Suricatta | Downloader | Local | ChunksDownloader.

Definition source_type (s : InstallSource) : SourceType :=
  match s with
  | Unknown => SOURCE_UNKNOWN | Webserver => SOURCE_WEBSERVER
  | Suricatta => SOURCE_SURICATTA | Downloader => SOURCE_DOWNLOADER
  | Local => SOURCE_LOCAL | ChunksDownloader => SOURCE_CHUNKS_DOWNLOADER
  end.

Inductive InstallMode := Default | DryRun | Install.

Definition run_type (m : InstallMode) : RunType :=
  match m with Default => RUN_DEFAULT | DryRun => RUN_DRYRUN | Install => RUN_INSTALL end.

Record InstallRequest := {
  ir_software_set : string;
  ir_running_mode : string;
  ir_source : InstallSource;
  ir_mode : InstallMode;
  ir_disable_store_swu : bool;
}.

Definition request_of (r : InstallRequest) : swu_result (list byte) :=
  let raw := put_u32 REQ_SOURCE (source_u32 (source_type (ir_source r))) prepare in
  let raw := put_u32 REQ_DRY_RUN (run_u32 (run_type (ir_mode r))) raw in
  let raw := put REQ_DISABLE_STORE_SWU
    [if ir_disable_store_swu r then Byte.x01 else Byte.x00] raw in
  let? raw := set_software_set (ir_software_set r) raw in
  set_running_mode (ir_running_mode r) raw.

Definition encode (r : InstallRequest) : swu_result (list byte) :=
  let? request := request_of r in
  Ok (set_install_request request (ipc_new REQ_INSTALL)).

Record InstallStatus := {
  is_current : option RecoveryStatus;
  is_last_result : option RecoveryStatus;
  is_description : string;
}.

Definition decode (f : list byte) : InstallStatus :=
  let (current, last_result) := install_statuses f in
  {| is_current := current; is_last_result := last_result;
     is_description := (install_status_description f).2 |}.

(** ** Progress frames

    [packed] is the layout the build script selects: the packed struct of
    SWUpdate 2025.12 and newer, or the naturally aligned one, in which the
    64-bit [dwl_bytes] moves every later field by four bytes. *)

Section Progress.
Variable packed : bool.

Definition shift : nat := if packed then 0 else 4.

Definition PROGRESS_SIZE : nat := if packed then 2408 else 2416.
Definition PM_STATUS : nat := 4.
Definition PM_DWL_PERCENT : nat := 8.
Definition PM_NSTEPS : nat := 20 + shift.
Definition PM_CUR_STEP : nat := 24 + shift.
Definition PM_CUR_PERCENT : nat := 28 + shift.
Definition PM_CUR_IMAGE : nat := 32 + shift.
Definition PM_HND_NAME : nat := 288 + shift.
Definition PM_INFOLEN : nat := 356 + shift.
Definition PM_INFO : nat := 360 + shift.

Definition progress_status (m : list byte) : result RecoveryStatus Z :=
  decode_recovery_status (get_u32 PM_STATUS m).
Definition current_step (m : list byte) : Z := get_u32 PM_CUR_STEP m.
Definition total_steps (m : list byte) : Z := get_u32 PM_NSTEPS m.
Definition current_percent (m : list byte) : Z := get_u32 PM_CUR_PERCENT m.
Definition cur_image (m : list byte) : string := read_c_string (get PM_CUR_IMAGE 256 m).
Definition hnd_name (m : list byte) : string := read_c_string (get PM_HND_NAME 64 m).
Definition info (m : list byte) : string :=
  let len := Z.to_nat (Z.min (get_u32 PM_INFOLEN m) 2048) in
  from_utf8_lossy (get PM_INFO len m).

Definition overall_percent (m : list byte) : Z :=
  let status := get_u32 PM_STATUS m in
  let nsteps := total_steps m in
  let cur_step := current_step m in
  let cur_percent := current_percent m in
  let dwl_percent := get_u32 PM_DWL_PERCENT m in
  if status =? status_u32 SUCCESS then 100
  else if (0 <? nsteps) && (0 <? cur_step) then
    let completed := Z.min (saturating_sub cur_step 1) nsteps in
    let total := saturating_add u32_max (saturating_mul u32_max completed 100)
                   (Z.min cur_percent 100) in
    Z.min (total / nsteps) 99
  else Z.min (Z.max cur_percent dwl_percent) 99.
End Progress.

(** The connect acknowledgement: a version word and a four-byte magic. *)
Definition ACK_SIZE : nat := 8.
Definition ack_apiversion (a : list byte) : Z := get_u32 0 a.

Definition is_major_compatible (a : list byte) : bool :=
  Z.land (Z.shiftr (ack_apiversion a) 16) 65535 =? PROGRESS_API_MAJOR.

Definition has_valid_magic (a : list byte) : bool :=
  let bytes := get 4 4 a in
  let e := default (length bytes) (position (fun b => bool_decide (b = Byte.x00)) bytes) in
  bool_decide (take e bytes = PROGRESS_CONNECT_ACK_MAGIC).

(** ** Field lemmas *)

(** A string the fixed buffer of [n] bytes can carry. *)
Record c_string_ok (n : nat) (value : string) : Prop := {
  cs_len : (length (bs value) < n)%nat;
  cs_nul : Forall (fun b => bool_decide (b = Byte.x00) = false) (bs value);
  cs_utf8 : utf8_valid (bs value) = true;
}.

Lemma write_c_string_ok dst value :
  (length (bs value) < length dst)%nat ->
  write_c_string dst value = Ok (bs value ++ Byte.x00 :: drop (S (length (bs value))) dst).
Proof. intros H. unfold write_c_string. by rewrite (proj2 (Nat.leb_gt _ _)). Qed.

Lemma length_write_c_string dst value buf :
  write_c_string dst value = Ok buf -> length buf = length dst.
Proof.
  unfold write_c_string. destruct (length dst <=? length (bs value))%nat eqn:E; [done|].
  apply Nat.leb_gt in E. intros [= <-]. rewrite length_app. simpl. rewrite length_drop. lia.
Qed.

(** What the C side reads back from the buffer is the string. *)
Lemma read_write_c_string dst value buf :
  c_string_ok (length dst) value -> write_c_string dst value = Ok buf ->
  read_c_string buf = value.
Proof.
  intros [Hl Hn Hu] H. rewrite write_c_string_ok in H by done. injection H as <-.
  unfold read_c_string. rewrite position_app_hit by done. simpl.
  rewrite take_app_length, from_utf8_lossy_valid by done. apply str_of_bytes_bs.
Qed.

Lemma put_c_string_spec off n value f :
  c_string_ok n value -> (off + n <= length f)%nat ->
  exists f', put_c_string off n value f = Ok f' /\ length f' = length f /\
    read_c_string (get off n f') = value /\
    (forall off' k, (off' + k <= off \/ off + n <= off')%nat -> get off' k f' = get off' k f).
Proof.
  intros Hok Hf. unfold put_c_string.
  pose proof (length_get off n f Hf) as Hg.
  destruct (write_c_string (get off n f) value) as [buf|e] eqn:E; cycle 1.
  { rewrite write_c_string_ok in E by (rewrite Hg; apply Hok). done. }
  pose proof (length_write_c_string _ _ _ E) as Hb. rewrite Hg in Hb.
  exists (put off buf f). split; [done|]. split; [apply length_put; lia|].
  rewrite get_put_same by lia. split.
  - eapply read_write_c_string; [|done]. by rewrite Hg.
  - intros off' k Hd. apply get_put_disjoint; lia.
Qed.

Lemma put_c_string_fits off n value f :
  (off + n <= length f)%nat -> (length (bs value) < n)%nat ->
  exists f', put_c_string off n value f = Ok f' /\ length f' = length f.
Proof.
  intros Hf Hv. unfold put_c_string. pose proof (length_get off n f Hf) as Hg.
  destruct (write_c_string (get off n f) value) as [buf|e] eqn:E; cycle 1.
  { rewrite write_c_string_ok in E by lia. done. }
  apply length_write_c_string in E. exists (put off buf f). split; [done|].
  apply length_put. lia.
Qed.

Lemma put_c_string_too_long off n value f :
  (off + n <= length f)%nat -> (n <= length (bs value))%nat ->
  put_c_string off n value f = Err (EInvalidArgument "string does not fit in the fixed C buffer").
Proof.
  intros Hf Hl. unfold put_c_string, write_c_string.
  rewrite length_get by done. by rewrite (proj2 (Nat.leb_le _ _)).
Qed.

Lemma decode_status_u32 s : decode_recovery_status (status_u32 s) = Ok s.
Proof. by destruct s. Qed.

Lemma decode_recovery_status_inv raw s :
  decode_recovery_status raw = Ok s -> raw = status_u32 s.
Proof.
  unfold decode_recovery_status. intros H.
  repeat match type of H with
  | (if ?a =? ?b then _ else _) = _ =>
      destruct (Z.eqb_spec a b); [injection H as <-; simpl; lia|]
  end. done.
Qed.

Lemma length_prepare : length prepare = REQUEST_SIZE.
Proof. by vm_compute. Qed.

(** The fixed part of a request before its strings are written. *)
Definition request_head (r : InstallRequest) : list byte :=
  put REQ_DISABLE_STORE_SWU [if ir_disable_store_swu r then Byte.x01 else Byte.x00]
    (put_u32 REQ_DRY_RUN (run_u32 (run_type (ir_mode r)))
      (put_u32 REQ_SOURCE (source_u32 (source_type (ir_source r))) prepare)).

Lemma request_head_fields r :
  length (request_head r) = REQUEST_SIZE /\
  get_u32 REQ_APIVERSION (request_head r) = SWUPDATE_API_VERSION /\
  get_u32 REQ_SOURCE (request_head r) = source_u32 (source_type (ir_source r)) /\
  get_u32 REQ_DRY_RUN (request_head r) = run_u32 (run_type (ir_mode r)) /\
  get REQ_DISABLE_STORE_SWU 1 (request_head r)
    = [if ir_disable_store_swu r then Byte.x01 else Byte.x00].
Proof.
  destruct r as [ss rm src mode dis]. destruct src, mode, dis; repeat split; by vm_compute.
Qed.

Lemma request_of_spec r :
  c_string_ok 256 (ir_software_set r) -> c_string_ok 256 (ir_running_mode r) ->
  exists q, request_of r = Ok q /\ length q = REQUEST_SIZE /\
    (forall off k, (off + k <= REQ_SOFTWARE_SET \/ REQ_DISABLE_STORE_SWU <= off)%nat ->
       get off k q = get off k (request_head r)) /\
    read_c_string (get REQ_SOFTWARE_SET 256 q) = ir_software_set r /\
    read_c_string (get REQ_RUNNING_MODE 256 q) = ir_running_mode r.
Proof.
  intros Hs Hm. destruct (request_head_fields r) as (Hlen & _).
  destruct (put_c_string_spec REQ_SOFTWARE_SET 256 _ (request_head r) Hs)
    as (f1 & E1 & L1 & R1 & D1); [rewrite Hlen; unfold REQ_SOFTWARE_SET, REQUEST_SIZE; lia|].
  destruct (put_c_string_spec REQ_RUNNING_MODE 256 _ f1 Hm)
    as (f2 & E2 & L2 & R2 & D2); [rewrite L1, Hlen; unfold REQ_RUNNING_MODE, REQUEST_SIZE; lia|].
  exists f2. unfold REQ_SOFTWARE_SET, REQ_RUNNING_MODE, REQ_DISABLE_STORE_SWU in *.
  split; [|split; [congruence|split; [|split]]].
  - unfold request_of. fold (request_head r). unfold set_software_set, set_running_mode. 
    unfold REQ_SOFTWARE_SET, REQ_RUNNING_MODE. rewrite E1. simpl. exact E2.
  - intros off k Hd. rewrite D2 by lia. apply D1. lia.
  - rewrite D2 by lia. done.
  - done.
Qed.

(** ** What SWUpdate reads *)

(** The view SWUpdate's C code has of an install frame: the fields at the
    offsets of [struct swupdate_request] inside the message union. *)
Record install_view (f : list byte) (r : InstallRequest) : Prop := {
  iv_size : length f = IPC_SIZE;
  iv_magic : ipc_magic f = IPC_MAGIC;
  iv_type : has_type REQ_INSTALL f = true;
  iv_version : get_u32 (IPC_DATA + REQ_APIVERSION) f = SWUPDATE_API_VERSION;
  iv_source : get_u32 (IPC_DATA + REQ_SOURCE) f = source_u32 (source_type (ir_source r));
  iv_dry_run : get_u32 (IPC_DATA + REQ_DRY_RUN) f = run_u32 (run_type (ir_mode r));
  iv_store : get (IPC_DATA + REQ_DISABLE_STORE_SWU) 1 f
             = [if ir_disable_store_swu r then Byte.x01 else Byte.x00];
  iv_software_set :
    read_c_string (get (IPC_DATA + REQ_SOFTWARE_SET) 256 f) = ir_software_set r;
  iv_running_mode :
    read_c_string (get (IPC_DATA + REQ_RUNNING_MODE) 256 f) = ir_running_mode r;
}.

Lemma get_put_inside off n base v f :
  (off + n <= length v)%nat -> (base + length v <= length f)%nat ->
  get (base + off) n (put base v f) = get off n v.
Proof.
  intros Hv Hf. unfold get, put.
  assert (length (take base f) = base) as Ht by (rewrite length_take; lia).
  rewrite <- Ht at 1. rewrite drop_app_add. rewrite drop_app_le by lia.
  rewrite take_app_le by (rewrite length_drop; lia). done.
Qed.

Lemma encode_fields r :
  c_string_ok 256 (ir_software_set r) -> c_string_ok 256 (ir_running_mode r) ->
  exists f, encode r = Ok f /\ install_view f r.
Proof.
  intros Hs Hm. destruct (request_of_spec r Hs Hm) as (q & Eq & Lq & Dq & Rs & Rm).
  destruct (request_head_fields r) as (_ & Hv & Hsrc & Hdry & Hstore).
  assert (length (ipc_new REQ_INSTALL) = IPC_SIZE) as Ln by by vm_compute.
  unfold IPC_SIZE, REQUEST_SIZE in *.
  exists (set_install_request q (ipc_new REQ_INSTALL)). unfold encode. rewrite Eq.
  split; [done|]. unfold set_install_request, get_u32 in *.
  split; unfold ipc_magic, has_type, ipc_type, get_u32;
    try rewrite length_put by (unfold IPC_DATA; lia);
    try rewrite get_put_disjoint by (unfold IPC_DATA; lia);
    try rewrite get_put_inside by
      (unfold IPC_DATA, REQ_APIVERSION, REQ_SOURCE, REQ_DRY_RUN, REQ_DISABLE_STORE_SWU,
         REQ_SOFTWARE_SET, REQ_RUNNING_MODE; lia);
    try (by vm_compute); try done.
  all: rewrite Dq by
    (unfold REQ_APIVERSION, REQ_SOURCE, REQ_DRY_RUN, REQ_DISABLE_STORE_SWU, REQ_SOFTWARE_SET; lia).
  all: done.
Qed.

(** The running mode of an A/B update, encoded. *)
Definition sample_request : InstallRequest :=
  {| ir_software_set := "stable"; ir_running_mode := "full-b"; ir_source := Local;
     ir_mode := Install; ir_disable_store_swu := true |}.

Lemma sample_strings_ok :
  c_string_ok 256 (ir_software_set sample_request) /\
  c_string_ok 256 (ir_running_mode sample_request).
Proof.
  split; split; try by vm_compute.
  all: try (vm_compute; repeat constructor).
Qed.

Lemma encode_too_long r :
  (256 <= length (bs (ir_software_set r)))%nat \/
  ((length (bs (ir_software_set r)) < 256)%nat /\ (256 <= length (bs (ir_running_mode r)))%nat) ->
  encode r = Err (EInvalidArgument "string does not fit in the fixed C buffer").
Proof.
  destruct (request_head_fields r) as (Hlen & _). unfold REQUEST_SIZE in Hlen.
  intros [H|[H1 H2]]; unfold encode, request_of; fold (request_head r);
    unfold set_software_set, set_running_mode.
  - rewrite put_c_string_too_long; [done|rewrite Hlen; unfold REQ_SOFTWARE_SET; lia|done].
  - destruct (put_c_string_fits REQ_SOFTWARE_SET 256 (ir_software_set r) (request_head r))
      as (f & -> & Lf); [rewrite Hlen; unfold REQ_SOFTWARE_SET; lia|done|].
    cbn [rbind]. rewrite put_c_string_too_long; [done| |done].
    rewrite Lf, Hlen. unfold REQ_RUNNING_MODE. lia.
Qed.

Definition long_request : InstallRequest :=
  {| ir_software_set := "stable"; ir_running_mode := str_of_bytes (replicate 300 Byte.x61);
     ir_source := Local; ir_mode := Install; ir_disable_store_swu := true |}.



(** The progress percentage of any frame, whatever the 32-bit counters in
    it are, lies between 0 and 100, and is 100 exactly for a SUCCESS frame. *)
Theorem overall_percent_bounds packed m :
  0 <= overall_percent packed m <= 100 /\
  (overall_percent packed m = 100 <-> progress_status m = Ok SUCCESS).
Proof.
  assert (overall_percent packed m = 100 /\ progress_status m = Ok SUCCESS \/
          0 <= overall_percent packed m <= 99 /\ progress_status m <> Ok SUCCESS) as H.
  { unfold overall_percent, progress_status.
    destruct (Z.eqb_spec (get_u32 PM_STATUS m) (status_u32 SUCCESS)) as [E|E].
    - left. by rewrite E.
    - right. split; [|intros H; apply E, decode_recovery_status_inv, H].
      pose proof (get_u32_range (PM_CUR_PERCENT packed) m).
      pose proof (get_u32_range PM_DWL_PERCENT m).
      unfold current_percent, total_steps, current_step.
      destruct (_ && _) eqn:G; [|lia]. apply andb_true_iff in G as [?%Z.ltb_lt ?%Z.ltb_lt].
      split; [|lia]. apply Z.min_glb; [|lia]. apply Z.div_pos; [|lia].
      unfold saturating_add, saturating_mul, saturating_sub, u32_max.
      lia. }
  destruct H as [[-> H]|[H H']]; split; try lia; split; (done || lia || intros; lia).
Qed.
