(* ===== verification/Layout.v ===== *)
(** * Memory layouts of the C interfaces

    The structures that cross into C or the kernel as bytes: the messages of
    SWUpdate (crates/swupdate-ipc/src/swupdate_sys.rs), the blocks of the AIO
    system calls (patches/usb-gadget/src/function/custom/aio/sys.rs) and a
    FunctionFS request (custom/ffs.rs). Their types are written as in the source
    and laid out by the rules of [repr(C)] and [repr(C, packed)]; the theorem
    compares the result with the offsets that the codec of [SwuProto] uses. *)

From stdpp Require Import gmap strings.
From S2P Require Import Prelude Io Bytes SwuProto.

(** ** Types and their layout *)

(** A primitive of [n] bytes, aligned to its size on a 64-bit machine. *)
Inductive CTy :=
| CPrim (n : nat)
| CArr (len : nat) (t : CTy)
| CStruct (is_packed : bool) (fields : list (string * CTy))
| CUnion (fields : list (string * CTy)).

Definition c_char : CTy := CPrim 1.
Definition u16 : CTy := CPrim 2.
Definition u32 : CTy := CPrim 4.
Definition u64 : CTy := CPrim 8.
(** A field-less enum of representation [u32]; a [bool]. *)
Definition c_enum : CTy := CPrim 4.
Definition c_bool : CTy := CPrim 1.

(** The next multiple of an alignment. *)
Definition round_up (a n : nat) : nat := ((n + a - 1) / a * a)%nat.

Fixpoint align_of (t : CTy) : nat :=
  match t with
  | CPrim n => n
  | CArr _ t => align_of t
  | CStruct true _ => 1%nat
  | CStruct false fs | CUnion fs =>
      (fix go fs := match fs with [] => 1%nat | (_, t) :: fs => Nat.max (align_of t) (go fs) end) fs
  end.

(** The end of the last field, where each field starts at the next multiple of
    its alignment, or right after the one before it. *)
Fixpoint size_of (t : CTy) : nat :=
  match t with
  | CPrim n => n
  | CArr len t => (len * size_of t)%nat
  | CStruct is_packed fs =>
      round_up (align_of t)
        ((fix go off fs := match fs with
                           | [] => off
                           | (_, t) :: fs => go (round_up (if is_packed then 1 else align_of t) off + size_of t)%nat fs
                           end) 0%nat fs)
  | CUnion fs =>
      round_up (align_of t)
        ((fix go fs := match fs with [] => 0%nat | (_, t) :: fs => Nat.max (size_of t) (go fs) end) fs)
  end.

(** The offset of a field, and its type. *)
Fixpoint field_at (is_packed : bool) (off : nat) (fs : list (string * CTy)) (name : string) : option (nat * CTy) :=
  match fs with
  | [] => None
  | (n, t) :: fs =>
      let off := round_up (if is_packed then 1 else align_of t) off in
      if bool_decide (n = name) then Some (off, t) else field_at is_packed (off + size_of t) fs name
  end.

Definition field (t : CTy) (name : string) : option (nat * CTy) :=
  match t with
  | CStruct is_packed fs => field_at is_packed 0 fs name
  | CUnion fs => (fun f : string * CTy => (0%nat, f.2)) <$> head (filter (fun f => f.1 = name) fs)
  | _ => None
  end.

(** The offset of a field of a field of ... *)
Fixpoint offset_of (t : CTy) (names : list string) : option nat :=
  match names with
  | [] => Some 0%nat
  | n :: names => '(off, t') ← field t n; rest ← offset_of t' names; Some (off + rest)%nat
  end.

(** ** The messages of SWUpdate *)

Definition ProgressMsg (packed : bool) : CTy :=
  CStruct packed
    [("apiversion", u32); ("status", u32); ("dwl_percent", u32); ("dwl_bytes", u64); ("nsteps", u32);
     ("cur_step", u32); ("cur_percent", u32); ("cur_image", CArr 256 c_char); ("hnd_name", CArr 64 c_char);
     ("source", u32); ("infolen", u32); ("info", CArr 2048 c_char)].

Definition ProgressConnectAck : CTy := CStruct false [("apiversion", u32); ("magic", CArr 4 c_char)].

Definition SwupdateRequest : CTy :=
  CStruct false
    [("apiversion", u32); ("source", c_enum); ("dry_run", c_enum); ("len", u64); ("info", CArr 512 c_char);
     ("software_set", CArr 256 c_char); ("running_mode", CArr 256 c_char); ("disable_store_swu", c_bool)].

Definition StatusMsg : CTy :=
  CStruct false [("current", u32); ("last_result", u32); ("error", u32); ("desc", CArr 2048 c_char)].
Definition NotifyMsg : CTy :=
  CStruct false [("status", u32); ("error", u32); ("level", u32); ("msg", CArr 2048 c_char)].
Definition InstallMsg : CTy :=
  CStruct false [("req", SwupdateRequest); ("len", u32); ("buf", CArr 2048 c_char)].
Definition ProcessMsg : CTy :=
  CStruct false [("source", c_enum); ("cmd", u32); ("timeout", u32); ("len", u32); ("buf", CArr 2048 c_char)].
Definition AesKeyMsg : CTy := CStruct false [("key_ascii", CArr 65 c_char); ("ivt_ascii", CArr 33 c_char)].
Definition VersionsMsg : CTy :=
  CStruct false [("minimum_version", CArr 256 c_char); ("maximum_version", CArr 256 c_char);
                 ("current_version", CArr 256 c_char); ("update_type", CArr 256 c_char)].
Definition RevisionsMsg : CTy := CStruct false [("boardname", CArr 256 c_char); ("revision", CArr 256 c_char)].
Definition VariablesMsg : CTy :=
  CStruct false [("varnamespace", CArr 256 c_char); ("varname", CArr 256 c_char); ("varvalue", CArr 256 c_char)].
Definition DownloadUrlMsg : CTy := CStruct false [("filename", CArr 256 c_char); ("url", CArr 1024 c_char)].

Definition MsgData : CTy :=
  CUnion [("msg", CArr 128 c_char); ("status", StatusMsg); ("notify", NotifyMsg); ("instmsg", InstallMsg);
          ("procmsg", ProcessMsg); ("aeskeymsg", AesKeyMsg); ("versions", VersionsMsg); ("revisions", RevisionsMsg);
          ("vars", VariablesMsg); ("dwl_url", DownloadUrlMsg)].

Definition IpcMessage : CTy := CStruct false [("magic", u32); ("type_", u32); ("data", MsgData)].

(** ** Kernel interfaces *)

Definition IoEvent : CTy := CStruct false [("data", u64); ("obj", u64); ("res", u64); ("res2", u64)].

(** On a little-endian machine. *)
Definition IoCb : CTy :=
  CStruct false
    [("data", u64); ("key", u32); ("rw_flags", u32); ("opcode", u16); ("reqprio", u16); ("fildes", u32);
     ("buf", u64); ("nbytes", u64); ("offset", u64); ("_reserved2", u64); ("flags", u32); ("resfd", u32)].

Definition DmaBufTransferReq : CTy := CStruct true [("fd", u32); ("flags", u32); ("length", u64)].

(** ** The codec reads and writes the fields where they are *)

(** Where the codec looks, by message and field, and for a packed or a naturally
    aligned progress message. *)
Definition codec_offsets (packed : bool) : list (CTy * list string * nat) :=
  [(IpcMessage, ["magic"], 0%nat); (IpcMessage, ["type_"], 4%nat); (IpcMessage, ["data"], IPC_DATA);
   (IpcMessage, ["data"; "instmsg"; "req"], IPC_DATA);
   (IpcMessage, ["data"; "status"; "current"], STATUS_CURRENT);
   (IpcMessage, ["data"; "status"; "last_result"], STATUS_LAST_RESULT);
   (IpcMessage, ["data"; "status"; "desc"], STATUS_DESC);
   (IpcMessage, ["data"; "procmsg"; "len"], PROC_LEN); (IpcMessage, ["data"; "procmsg"; "buf"], PROC_BUF);
   (IpcMessage, ["data"; "aeskeymsg"; "key_ascii"], AES_KEY); (IpcMessage, ["data"; "aeskeymsg"; "ivt_ascii"], AES_IVT);
   (IpcMessage, ["data"; "versions"; "minimum_version"], VERSION_MIN);
   (IpcMessage, ["data"; "versions"; "maximum_version"], VERSION_MAX);
   (IpcMessage, ["data"; "versions"; "current_version"], VERSION_CUR);
   (SwupdateRequest, ["apiversion"], REQ_APIVERSION); (SwupdateRequest, ["source"], REQ_SOURCE);
   (SwupdateRequest, ["dry_run"], REQ_DRY_RUN); (SwupdateRequest, ["len"], REQ_LEN);
   (SwupdateRequest, ["info"], REQ_INFO); (SwupdateRequest, ["software_set"], REQ_SOFTWARE_SET);
   (SwupdateRequest, ["running_mode"], REQ_RUNNING_MODE);
   (SwupdateRequest, ["disable_store_swu"], REQ_DISABLE_STORE_SWU);
   (ProgressMsg packed, ["status"], PM_STATUS); (ProgressMsg packed, ["dwl_percent"], PM_DWL_PERCENT);
   (ProgressMsg packed, ["nsteps"], PM_NSTEPS packed); (ProgressMsg packed, ["cur_step"], PM_CUR_STEP packed);
   (ProgressMsg packed, ["cur_percent"], PM_CUR_PERCENT packed);
   (ProgressMsg packed, ["cur_image"], PM_CUR_IMAGE packed);
   (ProgressMsg packed, ["hnd_name"], PM_HND_NAME packed); (ProgressMsg packed, ["infolen"], PM_INFOLEN packed);
   (ProgressMsg packed, ["info"], PM_INFO packed)].

(** The codec agrees with the C structures: every field it reads or writes is
    at the offset that the layout rules of C give it, in the union of the control
    messages, in the install request and in both layouts of the progress message,
    and the frames it sends and expects have the sizes of the structures; the
    control block and the event of the AIO system calls have the kernel's sizes,
    with the fields that the driver fills at the kernel's offsets. *)
Theorem codec_matches_layout packed :
  Forall (fun e => offset_of e.1.1 e.1.2 = Some e.2) (codec_offsets packed) /\
  size_of IpcMessage = IPC_SIZE /\ size_of SwupdateRequest = REQUEST_SIZE /\
  size_of (ProgressMsg packed) = PROGRESS_SIZE packed /\ size_of ProgressConnectAck = 8%nat /\
  size_of IoCb = 64%nat /\ size_of IoEvent = 32%nat /\
  offset_of IoCb ["opcode"] = Some 16%nat /\ offset_of IoCb ["fildes"] = Some 20%nat /\
  offset_of IoCb ["buf"] = Some 24%nat /\ offset_of IoCb ["nbytes"] = Some 32%nat /\
  offset_of IoCb ["flags"] = Some 56%nat /\ offset_of IoCb ["resfd"] = Some 60%nat /\
  size_of DmaBufTransferReq = 16%nat.
Proof. split; [destruct packed; repeat constructor|]. by destruct packed. Qed.
