(* ===== verification/SwuSocket.v ===== *)
(** * The sockets of the SWUpdate clients

    What crates/swupdate-ipc uses of Unix sockets and of time: the socket paths
    (src/socket.rs), connecting, exact reads, writes, sleeping and timeouts. The
    daemon's side is a script: whether each connection attempt is accepted, and
    for an accepted one which bytes arrive when, counted from the connection.
    Time is a clock in milliseconds that only waiting advances. *)

From S2P Require Import Prelude Io Bytes SwuProto.

(** ** Socket paths (src/socket.rs) *)

(** The build-time options and the environment variables they fall back to. *)
Record SocketEnv := {
  config_socket_ctrl_path : option string;
  config_socket_progress_path : option string;
  runtime_directory : option string;
  tmpdir : option string;
}.

Definition SOCKET_CTRL_DEFAULT : string := "sockinstctrl".
Definition SOCKET_PROGRESS_DEFAULT : string := "swupdateprog".

Definition nonempty (s : option string) : option string :=
  match s with Some EmptyString => None | _ => s end.

(** [Path::join] with a relative file name. *)
Definition path_join (dir name : string) : string :=
  match list.last (bs dir) with
  | None => name
  | Some b => if bool_decide (b = Byte.x2f) then dir +:+ name else dir +:+ "/" +:+ name
  end.

Definition temp_dir (e : SocketEnv) : string := default "/tmp" (tmpdir e).

Definition socket_dir (e : SocketEnv) : string :=
  match nonempty (runtime_directory e) with Some dir => dir | None => temp_dir e end.

Definition ctrl_socket_path (e : SocketEnv) : string :=
  match nonempty (config_socket_ctrl_path e) with
  | Some path => path
  | None => path_join (socket_dir e) SOCKET_CTRL_DEFAULT
  end.

Definition progress_socket_path (e : SocketEnv) : string :=
  match nonempty (config_socket_progress_path e) with
  | Some path => path
  | None => path_join (socket_dir e) SOCKET_PROGRESS_DEFAULT
  end.

(** ** Streams *)

Inductive Arrival :=
| AData (b : list byte)
| AEof
| AErr (e : io_error).

(** [sk_in]: what arrives, and when (after the end of the list: silence).
    [sk_out]: what was sent. [sk_room]: [None] when every write succeeds;
    [Some (n, e)] when the peer takes [n] more bytes, after which writing fails
    with the error or, without one, blocks. The two last fields are the mode of
    a blocking socket. *)
Record Stream := {
  sk_in : list (Z * Arrival);
  sk_out : list byte;
  sk_room : option (nat * option io_error);
  sk_nonblocking : bool;
  sk_read_timeout : option Z;
}.

Definition sk_set_in (l : list (Z * Arrival)) (s : Stream) : Stream :=
  {| sk_in := l; sk_out := sk_out s; sk_room := sk_room s;
     sk_nonblocking := sk_nonblocking s; sk_read_timeout := sk_read_timeout s |}.

Definition sk_set_out (out : list byte) (room : option (nat * option io_error)) (s : Stream) : Stream :=
  {| sk_in := sk_in s; sk_out := out; sk_room := room;
     sk_nonblocking := sk_nonblocking s; sk_read_timeout := sk_read_timeout s |}.

Definition set_nonblocking (nb : bool) (s : Stream) : Stream :=
  {| sk_in := sk_in s; sk_out := sk_out s; sk_room := sk_room s;
     sk_nonblocking := nb; sk_read_timeout := sk_read_timeout s |}.

Definition set_read_timeout (d : option Z) (s : Stream) : Stream :=
  {| sk_in := sk_in s; sk_out := sk_out s; sk_room := sk_room s;
     sk_nonblocking := sk_nonblocking s; sk_read_timeout := d |}.

(** The outcome of a connection attempt; the times of an accepted connection
    count from the moment it is accepted. *)
Inductive Dial :=
| Refused (e : io_error)
| Accepted (l : list (Z * Arrival)) (room : option (nat * option io_error)).

Definition starting_at (t : Z) (l : list (Z * Arrival)) : list (Z * Arrival) :=
  (fun p => (t + p.1, p.2)) <$> l.

Definition fresh_stream (t : Z) (l : list (Z * Arrival)) (room : option (nat * option io_error)) : Stream :=
  {| sk_in := starting_at t l; sk_out := []; sk_room := room;
     sk_nonblocking := false; sk_read_timeout := None |}.

(** ** Waiting

    A client's state: the clock, the outcomes of the connection attempts to
    come (once they are used up the daemon is gone and refuses), the paths that
    were dialled, and the frames handed to a callback. *)

Record Client := {
  now : Z;
  dials : list Dial;
  dialed : list string;
  heard : list (list byte);
}.

Definition set_now (t : Z) (c : Client) : Client :=
  {| now := t; dials := dials c; dialed := dialed c; heard := heard c |}.

(** An operation runs under the deadline of the timeouts around it. It may
    finish, be cut short by that deadline, or wait for ever. *)
Inductive outcome (A : Type) : Type :=
| Done (a : A)
| Elapsed
| Forever.
Arguments Done {A} a.
Arguments Elapsed {A}.
Arguments Forever {A}.

Definition T (A : Type) : Type := option Z -> Client -> outcome A * Client.

Definition tret {A} (a : A) : T A := fun _ c => (Done a, c).
Definition tbind {A B} (m : T A) (f : A -> T B) : T B := fun dl c =>
  match m dl c with
  | (Done a, c) => f a dl c
  | (Elapsed, c) => (Elapsed, c)
  | (Forever, c) => (Forever, c)
  end.

Notation "'wait!' x ':=' m 'in' k" := (tbind m (fun x => k))
  (at level 10, x pattern, m at level 100, k at level 200) : gadget_scope.

(** Early return of an error, the [?] of the clients. *)
Definition tebind {A B E} (m : T (result A E)) (f : A -> T (result B E)) : T (result B E) :=
  wait! r := m in match r with Ok a => f a | Err e => tret (Err e) end.

Notation "'try!' x ':=' m 'in' k" := (tebind m (fun x => k))
  (at level 10, x pattern, m at level 100, k at level 200) : gadget_scope.

Definition clock : T Z := fun _ c => (Done (now c), c).

Definition wait_until (t : Z) : T unit := fun dl c =>
  match dl with
  | Some d => if d <? t then (Elapsed, set_now (Z.max (now c) d) c)
              else (Done tt, set_now (Z.max (now c) t) c)
  | None => (Done tt, set_now (Z.max (now c) t) c)
  end.

Definition sleep (d : Z) : T unit := wait! t := clock in wait_until (t + d).

(** Nothing will ever come: only a deadline ends the wait. *)
Definition hang {A} : T A := fun dl c =>
  match dl with
  | Some d => (Elapsed, set_now (Z.max (now c) d) c)
  | None => (Forever, c)
  end.

(** [tokio::time::timeout]: [None] when the operation was cut short. *)
Definition timeout {A} (d : Z) (m : T A) : T (option A) := fun dl c =>
  let mine := now c + d in
  let inner := match dl with Some outer => Z.min mine outer | None => mine end in
  match m (Some inner) c with
  | (Done a, c) => (Done (Some a), c)
  | (Elapsed, c) => if mine <=? inner then (Done None, c) else (Elapsed, c)
  | (Forever, c) => (Forever, c)
  end.

(** ** Socket operations *)

Definition ECONNREFUSED : Z := 111.

Definition connect (path : string) : T (io_result Stream) := fun _ c =>
  let next ds := {| now := now c; dials := ds; dialed := dialed c ++ [path]; heard := heard c |} in
  match dials c with
  | [] => (Done (Err (Os ECONNREFUSED)), next [])
  | Refused e :: ds => (Done (Err e), next ds)
  | Accepted l room :: ds => (Done (Ok (fresh_stream (now c) l room)), next ds)
  end.

(** How long a read waits for what arrives at [t] ([None]: never): the error
    is what the socket's mode makes of a wait that is too long. *)
Definition wait_arrival (s : Stream) (t : option Z) : T (io_result unit) :=
  wait! n := clock in
  let due limit := match t with Some t => t <=? limit | None => false end in
  if due n then tret (Ok tt)
  else if sk_nonblocking s then tret (Err (Os EAGAIN))
  else match sk_read_timeout s, t with
       | Some d, _ => if due (n + d) then wait! _ := wait_until (default n t) in tret (Ok tt)
                      else wait! _ := wait_until (n + d) in tret (Err (Os EAGAIN))
       | None, Some t => wait! _ := wait_until t in tret (Ok tt)
       | None, None => hang
       end.

Definition eof_error : io_error := Custom KUnexpectedEof "failed to fill whole buffer".

(** [read_exact] of [n] bytes: what was read before an error is gone. [retry]
    is the standard library's treatment of interrupted reads, which tokio does
    not have. *)
Fixpoint read_exact_from (retry : bool) (s : Stream) (n : nat) (acc : list byte)
    (l : list (Z * Arrival)) : T (io_result (list byte) * Stream) :=
  match n with
  | O => tret (Ok acc, sk_set_in l s)
  | S _ =>
      match l with
      | [] => wait! r := wait_arrival s None in
              tret (match r with Ok _ => Err eof_error | Err e => Err e end, sk_set_in [] s)
      | (t, a) :: rest =>
          wait! r := wait_arrival s (Some t) in
          match r with
          | Err e => tret (Err e, sk_set_in l s)
          | Ok _ =>
              match a with
              | AData b =>
                  if (length b <=? n)%nat
                  then read_exact_from retry s (n - length b) (acc ++ b) rest
                  else tret (Ok (acc ++ take n b), sk_set_in ((t, AData (drop n b)) :: rest) s)
              | AEof => tret (Err eof_error, sk_set_in l s)
              | AErr e =>
                  if retry && bool_decide (kind e = KInterrupted)
                  then read_exact_from retry s n acc rest
                  else tret (Err e, sk_set_in rest s)
              end
          end
      end
  end.

Definition stream_read_exact (retry : bool) (n : nat) (s : Stream)
    : T (io_result (list byte) * Stream) := read_exact_from retry s n [] (sk_in s).

(** The peer takes no more: the error, or a wait without end; a socket in
    non-blocking mode does not wait. *)
Definition room_fate (s : Stream) (fate : option io_error) : option io_error :=
  match fate with
  | Some e => Some e
  | None => if sk_nonblocking s then Some (Os EAGAIN) else None
  end.

Definition write_all (data : list byte) (s : Stream) : T (io_result unit * Stream) :=
  match sk_room s with
  | None => tret (Ok tt, sk_set_out (sk_out s ++ data) None s)
  | Some (n, fate) =>
      if (length data <=? n)%nat
      then tret (Ok tt, sk_set_out (sk_out s ++ data) (Some ((n - length data)%nat, fate)) s)
      else match room_fate s fate with
           | Some e => tret (Err e, sk_set_out (sk_out s ++ take n data) (Some (O, fate)) s)
           | None => hang
           end
  end.

(** One [write]: as much as the peer takes. *)
Definition stream_write (data : list byte) (s : Stream) : T (io_result nat * Stream) :=
  match sk_room s with
  | None => tret (Ok (length data), sk_set_out (sk_out s ++ data) None s)
  | Some (n, fate) =>
      if bool_decide (data = []) then tret (Ok 0%nat, s)
      else if (n =? 0)%nat then
        match room_fate s fate with
        | Some e => tret (Err e, s)
        | None => hang
        end
      else
        let taken := Nat.min n (length data) in
        tret (Ok taken, sk_set_out (sk_out s ++ take taken data) (Some ((n - taken)%nat, fate)) s)
  end.

(** The standard library's loop of writes, with as many turns as there are bytes
    and one more. *)
Fixpoint write_loop (fuel : nat) (data : list byte) (s : Stream) : T (io_result unit * Stream) :=
  match fuel with
  | O => fun _ c => (Forever, c)
  | S fuel =>
      match data with
      | [] => tret (Ok tt, s)
      | _ :: _ =>
          wait! (r, s) := stream_write data s in
          match r with
          | Ok O => tret (Err (Custom KUncategorized "failed to write whole buffer"), s)
          | Ok n => write_loop fuel (drop n data) s
          | Err e => if bool_decide (kind e = KInterrupted) then write_loop fuel data s else tret (Err e, s)
          end
      end
  end.

(** A callback of the caller, recorded with what it is given. *)
Definition call (msg : list byte) : T unit := fun _ c =>
  (Done tt, {| now := now c; dials := dials c; dialed := dialed c; heard := heard c ++ [msg] |}).

Lemma sk_set_out_same s o r : sk_out s = o -> sk_room s = r -> sk_set_out o r s = s.
Proof. destruct s. cbn. by intros -> ->. Qed.

Lemma write_loop_step fuel x data s dl c :
  write_loop (S fuel) (x :: data) s dl c =
  (wait! (r, s) := stream_write (x :: data) s in
   match r with
   | Ok O => tret (Err (Custom KUncategorized "failed to write whole buffer"), s)
   | Ok n => write_loop fuel (drop n (x :: data)) s
   | Err e => if bool_decide (kind e = KInterrupted) then write_loop fuel (x :: data) s else tret (Err e, s)
   end) dl c.
Proof. done. Qed.

(** Nothing is taken by a peer that takes no more. *)
Lemma write_loop_full fuel data s fate dl c :
  data <> [] -> sk_room s = Some (0%nat, fate) -> (forall e, fate = Some e -> kind e <> KInterrupted) ->
  write_loop (S fuel) data s dl c =
  match room_fate s fate with Some e => (Done (Err e, s), c) | None => hang dl c end.
Proof.
  intros Hd Hr He. destruct data as [|x data]; [done|]. cbn [write_loop]. unfold tbind, stream_write. rewrite Hr.
  rewrite (bool_decide_eq_false_2 (x :: data = [])) by done. cbn [Nat.eqb]. unfold room_fate.
  destruct fate as [e|]; [|destruct (sk_nonblocking s); [done|]].
  - cbn [tret]. by rewrite (bool_decide_eq_false_2 (kind e = KInterrupted)) by (by apply He).
  - unfold hang. by destruct dl.
Qed.

(** The loop writes the whole buffer or what the peer takes, as [write_all] says,
    unless the peer's error is an interruption, which it retries. *)
Lemma write_loop_all data s dl c :
  data <> [] -> (forall n e, sk_room s = Some (n, Some e) -> kind e <> KInterrupted) ->
  write_loop (S (length data)) data s dl c = write_all data s dl c.
Proof.
  intros Hd He. destruct (sk_room s) as [[[|n] fate]|] eqn:Er.
  - rewrite (write_loop_full _ _ _ fate) by (done || (intros e ->; by eapply He)). unfold write_all. rewrite Er.
    rewrite (proj2 (Nat.leb_gt _ _)) by (destruct data; [done|cbn; lia]).
    destruct (room_fate s fate); [|done]. cbn [take]. by rewrite app_nil_r, sk_set_out_same.
  - destruct data as [|x data]; [done|]. rewrite write_loop_step. unfold tbind, stream_write, write_all. rewrite Er.
    rewrite (bool_decide_eq_false_2 (x :: data = [])) by done. cbn [Nat.eqb].
    destruct (Nat.leb_spec (length (x :: data)) (S n)) as [Hl|Hl].
    + rewrite (Nat.min_r (S n)) by done. cbn [tret]. cbn [length]. rewrite drop_ge by done. rewrite take_ge by done. done.
    + rewrite (Nat.min_l (S n)) by lia. cbn [tret length]. rewrite Nat.sub_diag.
      destruct data as [|y data]; [cbn in Hl; lia|]. cbn [length].
      rewrite (write_loop_full _ _ _ fate); [| |done|intros e ->; by eapply He].
      { unfold room_fate. cbn [sk_nonblocking sk_set_out]. destruct fate; [done|]. by destruct (sk_nonblocking s). }
      intros Hz%(f_equal length). rewrite length_drop in Hz. cbn in Hz, Hl. lia.
  - destruct data as [|x data]; [done|]. rewrite write_loop_step. unfold tbind, stream_write, write_all. rewrite Er.
    cbn [tret length]. by rewrite drop_ge by done.
Qed.

(** ** What arrives in time *)

(** [arrives_by t fin l data]: the bytes of [data] arrive, in whatever pieces,
    by time [t], and then what [fin] says. *)
Inductive arrives_by (t : Z) (fin : list (Z * Arrival)) : list (Z * Arrival) -> list byte -> Prop :=
| arrives_fin : arrives_by t fin fin []
| arrives_piece t' b l data :
    t' <= t -> arrives_by t fin l data -> arrives_by t fin ((t', AData b) :: l) (b ++ data).

Lemma arrives_app t t' lb fin l data more :
  arrives_by t lb l data -> arrives_by t' fin lb more -> t <= t' ->
  arrives_by t' fin l (data ++ more).
Proof.
  induction 1 as [|t1 b l data Ht _ IH]; intros Hm Hle; [done|].
  rewrite <- (assoc_L (++)). constructor; [lia|]. auto.
Qed.

Lemma arrives_shift t0 t fin l data :
  arrives_by t fin l data -> arrives_by (t0 + t) (starting_at t0 fin) (starting_at t0 l) data.
Proof. induction 1; [constructor|]. simpl. constructor; [lia|done]. Qed.

(** A socket whose reads wait. *)
Definition patient (s : Stream) : Prop := sk_nonblocking s = false /\ sk_read_timeout s = None.

(** A time the deadline allows. *)
Definition within (dl : option Z) (t : Z) : Prop :=
  match dl with Some d => t <= d | None => True end.

Lemma within_le dl t t' : within dl t -> t' <= t -> within dl t'.
Proof. destruct dl; simpl; [lia|done]. Qed.

Lemma wait_arrival_patient s t dl c :
  patient s -> within dl t ->
  wait_arrival s (Some t) dl c = (Done (Ok tt), set_now (Z.max (now c) t) c).
Proof.
  intros [Hn Hr] Ht. unfold wait_arrival, tbind, clock. rewrite Hn, Hr.
  destruct (t <=? now c) eqn:E; [apply Z.leb_le in E; unfold tret|].
  - rewrite Z.max_l by done. by destruct c.
  - unfold wait_until. destruct dl as [d|]; [|done]. by rewrite (proj2 (Z.ltb_ge _ _)).
Qed.

Lemma read_arrived retry s t fin l data n acc dl c :
  arrives_by t fin l data -> patient s -> (n <= length data)%nat -> within dl t ->
  exists l' t', read_exact_from retry s n acc l dl c
      = (Done (Ok (acc ++ take n data), sk_set_in l' s), set_now t' c) /\
    arrives_by t fin l' (drop n data) /\ now c <= t' <= Z.max (now c) t.
Proof.
  intros Hl Hp. revert n acc c. induction Hl as [|t1 b l data Ht Hl IH]; intros n acc c Hn Hd.
  { simpl in Hn. destruct n; [|lia]. exists fin, (now c). rewrite take_0, app_nil_r, drop_0.
    split; [|split; [constructor|lia]]. destruct c. by destruct fin. }
  destruct n as [|n].
  { exists ((t1, AData b) :: l), (now c). rewrite take_0, app_nil_r, drop_0.
    split; [by destruct c|]. split; [by constructor|lia]. }
  cbn [read_exact_from]. unfold tbind at 1. rewrite wait_arrival_patient by (done || by eapply within_le).
  destruct (length b <=? S n)%nat eqn:E; [apply Nat.leb_le in E|apply Nat.leb_gt in E].
  - rewrite length_app in Hn.
    destruct (IH (S n - length b)%nat (acc ++ b) (set_now (Z.max (now c) t1) c)) as (l' & t' & -> & Ha & Ht');
      [lia|done|].
    exists l', t'. simpl in Ht'. rewrite take_app_ge, drop_app_ge, (assoc_L (++)) by done.
    split; [done|]. split; [done|lia].
  - exists ((t1, AData (drop (S n) b)) :: l), (Z.max (now c) t1).
    rewrite take_app_le, drop_app_le by lia. split; [done|]. split; [by constructor|lia].
Qed.

(** The end of a stream: closed by the peer or failed. *)
Definition ends (a : Arrival) : Prop :=
  match a with AData _ => False | AEof => True | AErr e => kind e <> KInterrupted end.

Lemma read_cut_short retry s t te a fin l data n acc dl c :
  arrives_by t ((te, a) :: fin) l data -> ends a -> patient s -> (length data < n)%nat ->
  te <= t -> within dl t ->
  exists e s' t', read_exact_from retry s n acc l dl c = (Done (Err e, s'), set_now t' c) /\
    now c <= t' <= Z.max (now c) t.
Proof.
  intros Hl He Hp. revert n acc c. induction Hl as [|t1 b l data Ht Hl IH]; intros n acc c Hn Hte Hd.
  - destruct n as [|n]; [simpl in Hn; lia|]. cbn [read_exact_from]. unfold tbind at 1.
    rewrite wait_arrival_patient by (done || by eapply within_le). destruct a as [b| |e]; [done| |].
    + eexists _, _, _. split; [done|lia].
    + simpl in He. rewrite bool_decide_eq_false_2, andb_false_r by done.
      eexists _, _, _. split; [done|lia].
  - rewrite length_app in Hn. destruct n as [|n]; [lia|]. cbn [read_exact_from]. unfold tbind at 1.
    rewrite wait_arrival_patient by (done || by eapply within_le).
    rewrite (proj2 (Nat.leb_le _ _)) by lia.
    destruct (IH (S n - length b)%nat (acc ++ b) (set_now (Z.max (now c) t1) c)) as (e & s' & t' & -> & Ht');
      [lia|done|done|]. exists e, s', t'. simpl in Ht'. split; [done|lia].
Qed.

(** ** Running under a deadline *)

(** [runs m d c Q]: under the deadline [d], the operation finishes by then in a
    state [Q] allows, or is cut short exactly then; it does not wait for ever. *)
Definition runs {A} (m : T A) (d : Z) (c : Client) (Q : A -> Client -> Prop) : Prop :=
  match m (Some d) c with
  | (Done a, c') => now c <= now c' <= d /\ Q a c'
  | (Elapsed, c') => now c' = d
  | (Forever, _) => False
  end.

Lemma runs_weaken {A} (m : T A) d c (Q Q' : A -> Client -> Prop) :
  runs m d c Q -> (forall a c', now c <= now c' <= d -> Q a c' -> Q' a c') -> runs m d c Q'.
Proof. unfold runs. destruct (m (Some d) c) as [[a| |] c']; try done. intros [Hn HQ] Hw. auto. Qed.

Lemma runs_ret {A} (a : A) d c Q : now c <= d -> Q a c -> runs (tret a) d c Q.
Proof. intros ? ?. split; [lia|done]. Qed.

Lemma runs_bind {A B} (m : T A) (f : A -> T B) d c Q :
  runs m d c (fun a c' => runs (f a) d c' Q) -> runs (tbind m f) d c Q.
Proof.
  unfold runs, tbind. destruct (m (Some d) c) as [[a| |] c1]; try done. intros [H1 H2].
  destruct (f a (Some d) c1) as [[b| |] c2]; try done. destruct H2. split; [lia|done].
Qed.

Lemma runs_tebind {A B E} (m : T (result A E)) (f : A -> T (result B E)) d c Q :
  runs m d c (fun r c' => match r with Ok a => runs (f a) d c' Q | Err e => Q (Err e) c' end) ->
  runs (tebind m f) d c Q.
Proof.
  intros H. apply runs_bind. eapply runs_weaken; [exact H|].
  intros [a|e] c' Hn HQ; [exact HQ|]. apply runs_ret; [lia|done].
Qed.

Lemma runs_clock d c (Q : Z -> Client -> Prop) : now c <= d -> Q (now c) c -> runs clock d c Q.
Proof. intros ? ?. split; [simpl; lia|done]. Qed.

Lemma runs_wait_until t d c (Q : unit -> Client -> Prop) :
  now c <= d -> (t <= d -> Q tt (set_now (Z.max (now c) t) c)) -> runs (wait_until t) d c Q.
Proof.
  intros Hd HQ. unfold runs, wait_until. destruct (d <? t) eqn:E.
  - apply Z.ltb_lt in E. simpl. lia.
  - apply Z.ltb_ge in E. simpl. split; [lia|auto].
Qed.

Lemma runs_sleep t d c (Q : unit -> Client -> Prop) :
  now c <= d -> (now c + t <= d -> Q tt (set_now (Z.max (now c) (now c + t)) c)) -> runs (sleep t) d c Q.
Proof. intros ? ?. apply runs_bind, runs_clock; [done|]. by apply runs_wait_until. Qed.

Lemma runs_hang {A} d c (Q : A -> Client -> Prop) : now c <= d -> runs hang d c Q.
Proof. intros H. unfold runs. simpl. lia. Qed.

(** A timeout of its own inside a deadline. *)
Lemma runs_timeout {A} t (m : T A) d c (Q : option A -> Client -> Prop) :
  0 <= t -> now c <= d ->
  runs m (Z.min (now c + t) d) c (fun a c' => Q (Some a) c') ->
  (forall c', now c <= now c' <= d -> Q None c') ->
  runs (timeout t m) d c Q.
Proof.
  intros Ht Hd. unfold runs, timeout. destruct (m _ c) as [[a| |] c'] eqn:E; try done.
  - intros [H1 H2] _. split; [lia|done].
  - intros Hn HQ. destruct (now c + t <=? _) eqn:El.
    + assert (now c <= now c' <= d) by lia. split; [done|]. by apply HQ.
    + apply Z.leb_gt in El. lia.
Qed.

(** ** How much a script can still deliver *)

Definition arrival_bytes (a : Arrival) : nat := match a with AData b => length b | _ => 0%nat end.
Definition pending_bytes (l : list (Z * Arrival)) : nat := sum_list ((fun p => arrival_bytes p.2) <$> l).
Definition dial_weight (d : Dial) : nat :=
  match d with Refused _ => 1 | Accepted l _ => S (pending_bytes l) end.
Definition budget (ds : list Dial) : nat := sum_list (dial_weight <$> ds).

Lemma pending_cons t a l : pending_bytes ((t, a) :: l) = (arrival_bytes a + pending_bytes l)%nat.
Proof. done. Qed.

Lemma pending_starting_at t l : pending_bytes (starting_at t l) = pending_bytes l.
Proof. unfold pending_bytes, starting_at. by rewrite <- list_fmap_compose. Qed.

Lemma budget_cons dl ds : budget (dl :: ds) = (dial_weight dl + budget ds)%nat.
Proof. done. Qed.

Lemma runs_connect path d c (Q : io_result Stream -> Client -> Prop) :
  now c <= d ->
  (forall c', now c' = now c -> heard c' = heard c -> (budget (dials c') <= budget (dials c))%nat ->
     forall e, Q (Err e) c') ->
  (forall s c', now c' = now c -> heard c' = heard c ->
     (pending_bytes (sk_in s) + budget (dials c') < budget (dials c))%nat -> Q (Ok s) c') ->
  runs (connect path) d c Q.
Proof.
  unfold runs, connect. intros Hd.
  destruct (dials c) as [|[e|l room] ds]; rewrite ?budget_cons; intros He Hs; (split; [simpl; lia|]).
  - apply He; [done..|]. simpl. lia.
  - apply He; [done..|]. simpl. lia.
  - apply Hs; [done..|]. simpl. rewrite pending_starting_at. lia.
Qed.

Lemma runs_wait_arrival s t d c (Q : io_result unit -> Client -> Prop) :
  now c <= d ->
  (forall t' r, now c <= t' <= d -> (t = None -> r <> Ok tt) -> Q r (set_now t' c)) ->
  runs (wait_arrival s t) d c Q.
Proof.
  intros Hd HQ. assert (set_now (now c) c = c) as Hid by by destruct c.
  assert (forall r, (t = None -> r <> Ok tt) -> runs (tret r) d c Q) as Hnow.
  { intros r Hr. apply runs_ret; [done|]. rewrite <- Hid. apply HQ; [lia|done]. }
  assert (forall t' r, (t = None -> r <> Ok tt) ->
    runs (wait! _ := wait_until t' in tret r) d c Q) as Hlater.
  { intros t' r Hr. apply runs_bind, runs_wait_until; [done|]. intros ?.
    apply runs_ret; [simpl; lia|]. apply HQ; [lia|done]. }
  unfold wait_arrival. apply runs_bind, runs_clock; [done|]. destruct t as [t|].
  - destruct (t <=? now c); [by apply Hnow|]. destruct (sk_nonblocking s); [by apply Hnow|].
    destruct (sk_read_timeout s) as [lim|]; [destruct (t <=? _)|]; by apply Hlater.
  - destruct (sk_nonblocking s); [by apply Hnow|].
    destruct (sk_read_timeout s); [by apply Hlater|by apply runs_hang].
Qed.

(** An exact read takes its bytes from what was pending. *)
Lemma runs_read_exact retry s n acc l d c (Q : io_result (list byte) * Stream -> Client -> Prop) :
  now c <= d ->
  (forall t' e s', now c <= t' <= d -> Q (Err e, s') (set_now t' c)) ->
  (forall t' buf s', now c <= t' <= d -> (pending_bytes (sk_in s') + n = pending_bytes l)%nat ->
     Q (Ok buf, s') (set_now t' c)) ->
  runs (read_exact_from retry s n acc l) d c Q.
Proof.
  revert n acc c. induction l as [|[t a] l IH]; intros n acc c Hd He Hok; (destruct n as [|n];
    [apply runs_ret; [done|]; assert (set_now (now c) c = c) as <- by (by destruct c);
     apply Hok; [lia|cbn [sk_in sk_set_in]; lia]|]);
    cbn [read_exact_from]; apply runs_bind, runs_wait_arrival; [done| |done|];
    intros t' [[]|e] Hn Hr; try (apply runs_ret; [simpl; lia|by apply He]).
  destruct a as [b| |e]; [|apply runs_ret; [simpl; lia|by apply He]|].
    + destruct (length b <=? S n)%nat eqn:E; [apply Nat.leb_le in E|apply Nat.leb_gt in E].
      * apply IH; [simpl; lia|intros t2 e s' Ht2; apply (He t2); simpl in Ht2; lia|].
        intros t2 buf s' Ht2 Hb. rewrite pending_cons in Hok. simpl in Ht2.
        apply (Hok t2); [lia|]. cbn [arrival_bytes]. lia.
      * apply runs_ret; [simpl; lia|]. apply Hok; [done|]. cbn [sk_in sk_set_in].
        rewrite !pending_cons. cbn [arrival_bytes]. rewrite length_drop. lia.
    + destruct (retry && _); [|apply runs_ret; [simpl; lia|by apply He]].
      apply IH; [simpl; lia|intros t2 e' s' Ht2; apply (He t2); simpl in Ht2; lia|].
      intros t2 buf s' Ht2 Hb. simpl in Ht2. apply (Hok t2); [lia|done].
Qed.
