(* ===== verification/SwuAsync.v ===== *)
(** * The asynchronous SWUpdate client

    Models crates/swupdate-ipc/src/async_io.rs, the client the daemon uses:
    control requests, the install connection, the notification stream, and the
    two ways of waiting for the verdict of an installation. The theorems are
    about the one the daemon relies on, [await_progress_result_with]: it returns
    the verdict SWUpdate broadcasts, across lost connections, and never later
    than its timeout. *)

From S2P Require Import Prelude Io Bytes SwuProto SwuSocket.

Section Client.
Variable env : SocketEnv.
(** The layout of progress frames the build script selected. *)
Variable packed : bool.

Definition PROGRESS_ACK_TIMEOUT : Z := 5000.
Definition PROGRESS_RECONNECT_DELAY : Z := 500.
Definition PROGRESS_CONNECT_TIMEOUT : Z := 5000.
Definition STATUS_POLL_INTERVAL : Z := 250.

(** ** Messages *)

Definition connect_ctrl : T (swu_result Stream) :=
  wait! r := connect (ctrl_socket_path env) in tret (map_err EIo r).

Definition write_message (msg : list byte) (stream : Stream) : T (swu_result Stream) :=
  wait! (r, stream) := write_all msg stream in
  tret (let? _ := map_err EIo r in Ok stream).

Definition read_exact (n : nat) (stream : Stream) : T (swu_result (list byte * Stream)) :=
  wait! (r, stream) := stream_read_exact false n stream in
  tret match r with
       | Ok buf => Ok (buf, stream)
       | Err e => if bool_decide (kind e = KUnexpectedEof) then Err EClosed else Err (EIo e)
       end.

Definition read_message (stream : Stream) : T (swu_result (list byte * Stream)) :=
  read_exact IPC_SIZE stream.

(** ** Installing *)

(** A connection is the stream it wraps. *)
Definition InstallConn : Type := Stream.
Definition NotifyConn : Type := Stream.
Definition ProgressConn : Type := Stream.

Definition into_stream (conn : InstallConn) : Stream := conn.

(** [AsyncWrite]: a write that would block is polled again. The socket keeps no
    buffer of its own; [shutdown] is what its shutdown returns. *)
Definition poll_write (buf : list byte) (conn : InstallConn) : T (io_result nat * InstallConn) := stream_write buf conn.
Definition poll_flush (conn : InstallConn) : T (io_result unit * InstallConn) := tret (Ok tt, conn).
Definition poll_shutdown (shutdown : io_result unit) (conn : InstallConn) : T (io_result unit * InstallConn) :=
  tret (shutdown, conn).

Definition send_data (buf : list byte) (stream : Stream) : T (swu_result Stream) :=
  write_message buf stream.

(** [shutdown]: what the socket's shutdown returns. *)
Definition end_ (shutdown : io_result unit) (stream : Stream) : T (swu_result Stream) :=
  tret (let? _ := map_err EIo shutdown in Ok stream).

(** [tokio::io::copy] of a source given by what its reads return. *)
Fixpoint copy (src : list (io_result (list byte))) (stream : Stream) : T (swu_result Stream) :=
  match src with
  | [] | Ok [] :: _ => tret (Ok stream)
  | Ok buf :: src => try! stream := write_message buf stream in copy src stream
  | Err e :: _ => tret (Err (EIo e))
  end.

Definition send_from (src : list (io_result (list byte))) (shutdown : io_result unit)
    (stream : Stream) : T (swu_result Stream) :=
  try! stream := copy src stream in end_ shutdown stream.

Definition expect_ack (refused : list byte -> Error) (reply : list byte) (stream : Stream)
    : swu_result Stream :=
  if negb (has_type ACK reply) then Err (refused reply) else Ok stream.

Definition inst_start_ext (req : list byte) : T (swu_result Stream) :=
  try! stream := connect_ctrl in
  let msg := set_install_request req (ipc_new REQ_INSTALL) in
  try! stream := write_message msg stream in
  try! (reply, stream) := read_message stream in
  tret (expect_ack (fun _ => ENack) reply stream).

Definition inst_start_request (request : InstallRequest) : T (swu_result Stream) :=
  try! message := tret (encode request) in
  try! stream := connect_ctrl in
  try! stream := write_message message stream in
  try! (reply, stream) := read_message stream in
  tret (expect_ack (fun _ => ENack) reply stream).

Definition inst_start : T (swu_result Stream) := inst_start_ext prepare.

(** ** Control requests *)

Definition ask_status : T (swu_result Stream) :=
  try! stream := connect_ctrl in write_message (ipc_new GET_STATUS) stream.

Definition get_status : T (swu_result (list byte)) :=
  try! stream := ask_status in
  try! (msg, _) := read_message stream in tret (Ok msg).

Definition get_status_timeout (duration : Z) : T (swu_result (option (list byte))) :=
  try! stream := ask_status in
  wait! r := timeout duration (read_message stream) in
  tret match r with
       | Some (Ok (msg, _)) => Ok (Some msg)
       | Some (Err e) => Err e
       | None => Ok None
       end.

Definition get_status_values_timeout (duration : Z)
    : T (swu_result (option (option RecoveryStatus * option RecoveryStatus))) :=
  try! msg := get_status_timeout duration in tret (Ok (install_statuses <$> msg)).

(** The decision on one status reply: a verdict, or keep polling. *)
Definition status_verdict (msg : list byte) : option (swu_result unit) :=
  let status := decode msg in
  if bool_decide (is_last_result status = Some FAILURE) then Some (Err EInstallFailed)
  else if bool_decide (is_current status = Some RUN) && bool_decide (is_last_result status = Some SUCCESS)
  then Some (Ok tt) else None.

(** Every turn uses up a connection attempt or returns. *)
Fixpoint status_loop (fuel : nat) (deadline : Z) : T (swu_result unit) :=
  match fuel with
  | O => fun _ c => (Forever, c)
  | S fuel =>
      wait! t := clock in
      if deadline <=? t then tret (Err ETimeout) else
      wait! r := get_status_timeout STATUS_POLL_INTERVAL in
      match r with
      | Ok (Some msg) =>
          match status_verdict msg with
          | Some r => tret r
          | None => status_loop fuel deadline
          end
      | Ok None | Err EClosed =>
          wait! _ := sleep STATUS_POLL_INTERVAL in status_loop fuel deadline
      | Err e => tret (Err e)
      end
  end.

Definition await_install_result (limit : Z) : T (swu_result unit) := fun dl c =>
  status_loop (S (S (length (dials c)))) (now c + limit) dl c.

Definition postupdate (info : list byte) : T (swu_result (list byte)) :=
  try! stream := connect_ctrl in
  let msg := set_postupdate_info info (ipc_new POST_UPDATE) in
  try! stream := write_message msg stream in
  try! (reply, _) := read_message stream in tret (Ok reply).

(** The caller's frame with the magic stamped on it; the reply replaces it. *)
Definition send_cmd (msg : list byte) : T (swu_result (list byte)) :=
  try! stream := connect_ctrl in
  let msg := put_u32 0 IPC_MAGIC msg in
  try! stream := write_message msg stream in
  try! (reply, _) := read_message stream in tret (Ok reply).

Definition set_aes (key ivt : string) : T (swu_result unit) :=
  if negb (length (bs key) =? 64)%nat || negb (length (bs ivt) =? 32)%nat
  then tret (Err (EInvalidArgument "AES key must be 64 chars and IV 32 chars")) else
  try! msg := tret (set_aes_key key ivt (ipc_new SET_AES_KEY)) in
  try! _ := send_cmd msg in tret (Ok tt).

Definition set_version_range_cmd (mn mx cur : option string) : T (swu_result unit) :=
  try! msg := tret (set_version_range mn mx cur (ipc_new SET_VERSIONS_RANGE)) in
  try! _ := send_cmd msg in tret (Ok tt).

(** ** Notifications *)

Definition notify_receive (stream : Stream) : T (swu_result (list byte * Stream)) :=
  try! (msg, stream) := read_message stream in
  if negb (ipc_magic msg =? IPC_MAGIC) then tret (Err (EInvalidMagic (as_i32 (ipc_magic msg))))
  else tret (Ok (msg, stream)).

Definition notify_connect : T (swu_result Stream) :=
  try! stream := connect_ctrl in
  try! stream := write_message (ipc_new NOTIFY_STREAM) stream in
  try! (reply, stream) := read_message stream in
  tret (expect_ack (fun reply => EUnexpectedType (as_i32 (ipc_type reply))) reply stream).

(** ** Progress *)

Definition receive (stream : Stream) : T (swu_result (list byte * Stream)) :=
  read_exact (PROGRESS_SIZE packed) stream.

Definition check_ack (ack : list byte) : swu_result unit :=
  if negb (is_major_compatible ack) then Err (EIncompatibleProgressVersion (ack_apiversion ack))
  else if negb (has_valid_magic ack) then Err EInvalidProgressAck
  else Ok tt.

Definition wait_for_progress_ack (stream : Stream) : T (swu_result Stream) :=
  wait! r := timeout PROGRESS_ACK_TIMEOUT (read_exact ACK_SIZE stream) in
  tret match r with
       | None => Err EInvalidProgressAck
       | Some (Err e) => Err e
       | Some (Ok (ack, stream)) => let? _ := check_ack ack in Ok stream
       end.

(** A refused attempt is followed by a pause until the window is over, so the
    window has room for [connect_attempts] of them. *)
Definition connect_attempts : nat :=
  S (S (Z.to_nat (PROGRESS_CONNECT_TIMEOUT / PROGRESS_RECONNECT_DELAY))).

Fixpoint connect_loop (fuel : nat) (path : string) (reconnect : bool) (deadline : Z)
    : T (swu_result Stream) :=
  match fuel with
  | O => fun _ c => (Forever, c)
  | S fuel =>
      wait! r := connect path in
      match r with
      | Ok stream => tret (Ok stream)
      | Err e =>
          if reconnect then
            wait! t := clock in
            if deadline <=? t then tret (Err EProgressConnectTimeout) else
            wait! _ := sleep PROGRESS_RECONNECT_DELAY in
            connect_loop fuel path reconnect deadline
          else tret (Err (EIo e))
      end
  end.

Definition progress_connect_path (path : string) (reconnect : bool) : T (swu_result Stream) :=
  wait! t := clock in
  try! stream := connect_loop connect_attempts path reconnect (t + PROGRESS_CONNECT_TIMEOUT) in
  wait_for_progress_ack stream.

Definition progress_connect (reconnect : bool) : T (swu_result Stream) :=
  progress_connect_path (progress_socket_path env) reconnect.

Definition progress_connect_with_path (path : string) (reconnect : bool) : T (swu_result ProgressConn) :=
  progress_connect_path path reconnect.

(** What a progress frame says about the installation: its verdict, if any. *)
Definition frame_verdict (msg : list byte) : option (swu_result unit) :=
  match ok (progress_status msg) with
  | Some SUCCESS => Some (Ok tt)
  | Some FAILURE => Some (Err EInstallFailed)
  | _ => None
  end.

(** Every turn reads a frame or uses up a connection. *)
Fixpoint progress_loop (fuel : nat) (conn : Stream) : T (swu_result unit) :=
  match fuel with
  | O => fun _ c => (Forever, c)
  | S fuel =>
      wait! r := receive conn in
      match r with
      | Ok (msg, conn) =>
          match frame_verdict msg with
          | Some verdict => tret verdict
          | None => wait! _ := call msg in progress_loop fuel conn
          end
      | Err _ => try! conn := progress_connect true in progress_loop fuel conn
      end
  end.

Definition await_progress_result_with (fuel : nat) (limit : Z) : T (swu_result unit) :=
  wait! r := timeout limit (try! conn := progress_connect true in progress_loop fuel conn) in
  tret match r with Some result => result | None => Err ETimeout end.

(** With a callback that does nothing; what it was given is recorded all the
    same. *)
Definition await_progress_result (fuel : nat) (limit : Z) : T (swu_result unit) :=
  await_progress_result_with fuel limit.

End Client.

(** ** The verdict of an installation *)

Section Verdict.
Context (env : SocketEnv) (packed : bool).

Definition ack_ok (ack : list byte) : Prop := length ack = ACK_SIZE /\ check_ack ack = Ok tt.

(** A frame that reports progress and no verdict. *)
Definition quiet (m : list byte) : Prop :=
  length m = PROGRESS_SIZE packed /\ frame_verdict m = None.

(** A connection on which the acknowledgement arrives within its timeout and
    [data] within [dur], followed by what [fin] says. *)
Definition carries (l : list (Z * Arrival)) (dur : Z) (ack data : list byte) (fin : list (Z * Arrival)) : Prop :=
  ack_ok ack /\ 0 <= dur /\ exists lb extra more,
    arrives_by (Z.min PROGRESS_ACK_TIMEOUT dur) lb l (ack ++ extra) /\
    arrives_by dur fin lb more /\ data = extra ++ more.

(** [broadcast ds dur frames v]: SWUpdate's broadcast as the client can hear it.
    It may restart or lose the connection any number of times, refusing up to
    ten attempts each time (the five seconds of the reconnection window); in
    total it sends the progress frames [frames] and then one with the verdict
    [v], in [dur] milliseconds at most. *)
Inductive broadcast : list Dial -> Z -> list (list byte) -> swu_result unit -> Prop :=
| broadcast_verdict errs l room ds dur ack frames m rest fin v :
    (length errs <= 10)%nat -> carries l dur ack (concat frames ++ m ++ rest) fin ->
    Forall quiet frames -> length m = PROGRESS_SIZE packed -> frame_verdict m = Some v ->
    broadcast ((Refused <$> errs) ++ Accepted l room :: ds)
      (PROGRESS_RECONNECT_DELAY * Z.of_nat (length errs) + dur) frames v
| broadcast_lost errs l room ds dur ack frames part te a fin dur' frames' v :
    (length errs <= 10)%nat -> carries l dur ack (concat frames ++ part) ((te, a) :: fin) ->
    Forall quiet frames -> (length part < PROGRESS_SIZE packed)%nat -> te <= dur -> ends a ->
    broadcast ds dur' frames' v ->
    broadcast ((Refused <$> errs) ++ Accepted l room :: ds)
      (PROGRESS_RECONNECT_DELAY * Z.of_nat (length errs) + dur + dur') (frames ++ frames') v.

Lemma broadcast_dur ds dur frames v : broadcast ds dur frames v -> 0 <= dur.
Proof.
  assert (0 < PROGRESS_RECONNECT_DELAY) by done.
  induction 1 as [errs l room ds dur ack frames m rest fin v _ (_ & Hd & _)
                 |errs l room ds dur ack frames part te a fin dur' frames' v _ (_ & Hd & _)]; nia.
Qed.

(** What waiting and dialling leave: the clock between two bounds, the callback
    not called. *)
Definition later (lo hi : Z) (ds : list Dial) (fs : list (list byte)) (c' : Client) : Prop :=
  lo <= now c' <= hi /\ dials c' = ds /\ heard c' = fs.

Lemma connect_refusals errs l room ds fuel path deadline d c :
  dials c = (Refused <$> errs) ++ Accepted l room :: ds -> (length errs < fuel)%nat ->
  now c + PROGRESS_RECONNECT_DELAY * Z.of_nat (length errs) <= Z.min deadline d ->
  exists c', connect_loop fuel path true deadline (Some d) c = (Done (Ok (fresh_stream (now c') l room)), c') /\
    let t := now c + PROGRESS_RECONNECT_DELAY * Z.of_nat (length errs) in
    later t t ds (heard c) c'.
Proof.
  unfold PROGRESS_RECONNECT_DELAY. revert fuel c. induction errs as [|e errs IH]; intros [|fuel] c Hc Hf Hd.
  1, 3: simpl in Hf; lia.
  - cbn [connect_loop]. unfold tbind, connect. rewrite Hc. simpl.
    exists {| now := now c; dials := ds; dialed := dialed c ++ [path]; heard := heard c |}. split; [done|].
    unfold later. simpl. split; [lia|done].
  - cbn [connect_loop]. unfold tbind at 1, connect. rewrite Hc. cbn [fmap list_fmap app].
    unfold tbind, clock. cbn [now]. simpl length in Hd, Hf.
    rewrite (proj2 (Z.leb_gt _ _)) by lia.
    unfold sleep, tbind, clock, wait_until. cbn [now]. unfold PROGRESS_RECONNECT_DELAY.
    rewrite (proj2 (Z.ltb_ge _ _)) by lia.
    match goal with |- context [connect_loop _ _ _ _ _ ?c1] =>
      destruct (IH fuel c1) as (c' & -> & Hl) end; [done|lia| |].
    { simpl. lia. }
    exists c'. split; [done|]. revert Hl. unfold later. simpl. intros (? & ? & ?). split; [lia|done].
Qed.

(** A connection is established when the acknowledgement is read in time. *)
Lemma progress_connect_carries errs l room ds dur ack data fin d c :
  dials c = (Refused <$> errs) ++ Accepted l room :: ds -> (length errs <= 10)%nat ->
  carries l dur ack data fin ->
  let t0 := now c + PROGRESS_RECONNECT_DELAY * Z.of_nat (length errs) in
  t0 + dur <= d ->
  exists s c', progress_connect env true (Some d) c = (Done (Ok s), c') /\ patient s /\
    arrives_by (t0 + dur) (starting_at t0 fin) (sk_in s) data /\
    later (now c) (t0 + dur) ds (heard c) c'.
Proof.
  intros Hc Hn ((Hlen & Hack) & Hd0 & lb & extra & more & Hl & Hlb & ->) t0 Hd.
  assert (PROGRESS_RECONNECT_DELAY = 500 /\ PROGRESS_CONNECT_TIMEOUT = 5000) as [HD HT] by done.
  unfold progress_connect, progress_connect_path. unfold tbind at 1, clock.
  destruct (connect_refusals errs l room ds connect_attempts (progress_socket_path env)
    (now c + PROGRESS_CONNECT_TIMEOUT) d c Hc) as (c1 & Hconn & (Hnow & Hds & Hh)).
  { change connect_attempts with 12%nat. lia. }
  { lia. }
  unfold tebind at 1, tbind at 1. rewrite Hconn.
  unfold wait_for_progress_ack, timeout, read_exact, stream_read_exact. unfold tbind at 2. unfold tbind at 1.
  assert (now c1 = t0) as Hn1 by (unfold t0; lia). rewrite Hn1.
  destruct (read_arrived false (fresh_stream t0 l room) (t0 + Z.min PROGRESS_ACK_TIMEOUT dur)
    (starting_at t0 lb) (starting_at t0 l) (ack ++ extra) ACK_SIZE []
    (Some (Z.min (t0 + PROGRESS_ACK_TIMEOUT) d)) c1) as (l' & t' & Hr & Hl' & Ht');
    [by apply arrives_shift|done|rewrite length_app; lia|simpl; lia|].
  rewrite Hn1 in Ht'. cbn [fresh_stream sk_in] in *. rewrite Hr.
  rewrite take_app_length' by done. cbn [app tret]. rewrite Hack. cbn [rbind].
  eexists _, _. split; [done|]. split; [done|]. rewrite drop_app_length' in Hl' by done. split.
  - eapply arrives_app; [exact Hl'|by apply arrives_shift|lia].
  - unfold later. simpl. split; [unfold t0 in *; lia|done].
Qed.

(** Progress frames are handed to the callback, in order. *)
Lemma progress_loop_frames frames k s t fin more d c :
  Forall quiet frames -> patient s -> arrives_by t fin (sk_in s) (concat frames ++ more) -> t <= d ->
  exists s' c', progress_loop env packed (length frames + k) s (Some d) c
      = progress_loop env packed k s' (Some d) c' /\ patient s' /\
    arrives_by t fin (sk_in s') more /\
    later (now c) (Z.max (now c) t) (dials c) (heard c ++ frames) c'.
Proof.
  intros Hf. revert s c. induction Hf as [|m frames [Hm Hv] _ IH]; intros s c Hp Ha Hd.
  { exists s, c. rewrite app_nil_r. split; [done|]. split; [done|]. split; [done|]. split; [lia|done]. }
  cbn [length Nat.add progress_loop concat] in *. rewrite <- (assoc_L (++)) in Ha.
  unfold receive, read_exact, stream_read_exact.
  destruct (read_arrived false s t fin (sk_in s) (m ++ concat frames ++ more) (PROGRESS_SIZE packed) [] (Some d) c)
    as (l' & t' & Hr & Hl' & Ht'); [done|done|rewrite length_app; lia|done|].
  unfold tbind at 2. unfold tbind at 1. rewrite Hr. rewrite take_app_length' by done. cbn [app tret].
  rewrite Hv. unfold tbind, call. rewrite drop_app_length' in Hl' by done.
  match goal with |- context [progress_loop _ _ _ ?s1 _ ?c1] =>
    destruct (IH s1 c1) as (s' & c' & Hrun & Hp' & Ha' & (Hn' & Hds & Hh)) end; [done|done|done|].
  rewrite Hrun. exists s', c'. split; [done|]. split; [done|]. split; [done|].
  unfold later. simpl in *. rewrite Hds, Hh, <- (assoc_L (++)). split; [lia|done].
Qed.

(** The same connection, from the first attempt on. *)
Definition listen (fuel : nat) : T (swu_result unit) :=
  try! conn := progress_connect env true in progress_loop env packed fuel conn.

Lemma listen_connected fuel d c s c' :
  progress_connect env true (Some d) c = (Done (Ok s), c') ->
  listen fuel (Some d) c = progress_loop env packed fuel s (Some d) c'.
Proof. intros H. unfold listen, tebind, tbind. by rewrite H. Qed.

Lemma listen_hears ds dur frames v fuel d c :
  broadcast ds dur frames v -> dials c = ds -> (length frames + length ds <= fuel)%nat ->
  now c + dur <= d ->
  exists c', listen fuel (Some d) c = (Done v, c') /\
    now c <= now c' <= now c + dur /\ heard c' = heard c ++ frames.
Proof.
  intros Hb. revert fuel c.
  induction Hb as [errs l room ds dur ack frames m rest fin v Hn Hcar Hq Hm Hv
                  |errs l room ds dur ack frames part te a fin dur' frames' v Hn Hcar Hq Hpart Hte Hend Hb IH];
    intros fuel c Hc Hfuel Hd; rewrite !length_app, length_fmap in Hfuel; cbn [length] in Hfuel.
  - destruct (progress_connect_carries errs l room ds dur ack _ fin d c Hc Hn Hcar)
      as (s & c1 & Hconn & Hp & Ha & (Hn1 & _ & Hh1)); [lia|].
    rewrite (listen_connected _ _ _ _ _ Hconn).
    assert (fuel = (length frames + S (fuel - length frames - 1))%nat) as -> by lia.
    destruct (progress_loop_frames frames (S (fuel - length frames - 1)) s _ _ _ d c1 Hq Hp Ha)
      as (s2 & c2 & -> & Hp2 & Ha2 & (Hn2 & _ & Hh2)); [lia|].
    cbn [progress_loop]. unfold receive, read_exact, stream_read_exact, tbind.
    edestruct (read_arrived false s2) as (l3 & t3 & -> & _ & Ht3);
      [exact Ha2|done|rewrite length_app, Hm; lia|simpl; lia|].
    rewrite take_app_length' by done. cbn [app tret]. rewrite Hv.
    eexists. split; [done|]. simpl. rewrite Hh2, Hh1. split; [lia|done].
  - pose proof (broadcast_dur _ _ _ _ Hb) as Hdur'.
    destruct (progress_connect_carries errs l room ds dur ack _ _ d c Hc Hn Hcar)
      as (s & c1 & Hconn & Hp & Ha & (Hn1 & Hds1 & Hh1)); [lia|].
    rewrite (listen_connected _ _ _ _ _ Hconn).
    assert (fuel = (length frames + S (fuel - length frames - 1))%nat) as -> by lia.
    destruct (progress_loop_frames frames (S (fuel - length frames - 1)) s _ _ _ d c1 Hq Hp Ha)
      as (s2 & c2 & -> & Hp2 & Ha2 & (Hn2 & Hds2 & Hh2)); [lia|].
    cbn [progress_loop]. unfold receive, read_exact, stream_read_exact. unfold tbind at 2. unfold tbind at 1.
    edestruct (read_cut_short false s2) as (e & s3 & t3 & -> & Ht3);
      [exact Ha2|exact Hend|done|exact Hpart|cbn; lia|simpl; lia|].
    cbn [tret].
    match goal with |- context [if ?b then Err EClosed else ?x] =>
      destruct (if b then Err EClosed else x) as [?|?] eqn:E; [destruct b; discriminate E|] end.
    match goal with |- context [tebind _ _ _ ?c3] =>
      destruct (IH (fuel - length frames - 1)%nat c3) as (c' & Hrun & Hn' & Hh') end;
      [by rewrite <- Hds1|lia|simpl; lia|].
    exists c'. split; [exact Hrun|]. simpl in Hn', Hh'.
    rewrite Hh', Hh2, Hh1, <- (assoc_L (++)). split; [lia|done].
Qed.

(** The client reports the verdict SWUpdate broadcasts: however the frames
    are cut into pieces, however often the connection is lost in the middle of
    a frame or refused while SWUpdate restarts, if the broadcast ends with a
    verdict within the time limit, that verdict is returned, every earlier frame
    was handed to the callback exactly once and in order, and no time is spent
    beyond that of the broadcast. *)
Theorem await_progress_verdict dur frames v fuel limit c :
  broadcast (dials c) dur frames v -> dur <= limit -> (length frames + length (dials c) <= fuel)%nat ->
  exists c', await_progress_result_with env packed fuel limit None c = (Done v, c') /\
    now c <= now c' <= now c + dur /\ heard c' = heard c ++ frames.
Proof.
  intros Hb Hlim Hf. destruct (listen_hears _ _ _ _ fuel (now c + limit) c Hb eq_refl Hf) as (c' & Hl & H);
    [lia|]. exists c'. split; [|done].
  unfold await_progress_result_with, timeout, tbind at 1. unfold listen in Hl. by rewrite Hl.
Qed.

(** The script of a broadcast holds at least a byte per frame and a dial per
    connection. *)
Lemma arrives_pending t fin l data : arrives_by t fin l data -> (length data + pending_bytes fin <= pending_bytes l)%nat.
Proof. induction 1; [cbn; lia|]. rewrite pending_cons, length_app. cbn. lia. Qed.

Lemma carries_pending l dur ack data fin : carries l dur ack data fin -> (length data <= pending_bytes l)%nat.
Proof.
  intros (_ & _ & lb & extra & more & H1%arrives_pending & H2%arrives_pending & ->).
  rewrite !length_app in *. lia.
Qed.

Lemma quiet_frames_length frames : Forall quiet frames -> (length frames <= length (concat frames))%nat.
Proof.
  induction 1 as [|f frames [Hf _] _ IH]; [done|]. rewrite concat_cons, length_app, Hf. cbn [length].
  assert (1 <= PROGRESS_SIZE packed)%nat by (destruct packed; apply Nat.leb_le; reflexivity). lia.
Qed.

Lemma broadcast_budget ds dur frames v :
  broadcast ds dur frames v -> (length frames + length ds <= budget ds)%nat.
Proof.
  assert (forall l : list Dial, length l <= budget l)%nat as Hlen.
  { induction l as [|[|] l IH]; [done|..]; rewrite budget_cons; cbn; lia. }
  assert (forall a b, budget (a ++ b) = budget a + budget b)%nat as Happ.
  { intros a b. unfold budget. by rewrite fmap_app, sum_list_with_app || (rewrite fmap_app; induction a; cbn; lia). }
  induction 1 as [errs l room ds dur ack frames m rest fin v _ Hc%carries_pending Hq%quiet_frames_length _ _
    |errs l room ds dur ack frames part te a fin dur' frames' v _ Hc%carries_pending Hq%quiet_frames_length _ _ _ _ IH];
    rewrite Happ, budget_cons, !length_app in *; cbn [length dial_weight];
    pose proof (Hlen (Refused <$> errs)); [pose proof (Hlen ds)|]; lia.
Qed.

(** ** The time limit *)

Lemma runs_receive n s d c (Q : swu_result (list byte * Stream) -> Client -> Prop) :
  now c <= d ->
  (forall t' e, now c <= t' <= d -> e <> ETimeout -> Q (Err e) (set_now t' c)) ->
  (forall t' buf s', now c <= t' <= d -> (pending_bytes (sk_in s') + n = pending_bytes (sk_in s))%nat ->
     Q (Ok (buf, s')) (set_now t' c)) ->
  runs (read_exact n s) d c Q.
Proof.
  intros Hd He Hok. apply runs_bind, runs_read_exact; [done| |].
  - intros t' e s' Ht. apply runs_ret; [simpl; lia|]. case_bool_decide; by apply He.
  - intros t' buf s' Ht Hb. apply runs_ret; [simpl; lia|]. by apply Hok.
Qed.

Lemma runs_connect_loop fuel path deadline d c (Q : swu_result Stream -> Client -> Prop) :
  now c <= d -> (0 < fuel)%nat ->
  deadline - now c <= PROGRESS_RECONNECT_DELAY * (Z.of_nat fuel - 1) ->
  (forall e c', now c <= now c' <= d -> e <> ETimeout -> Q (Err e) c') ->
  (forall s c', now c <= now c' <= d ->
     (pending_bytes (sk_in s) + budget (dials c') < budget (dials c))%nat -> Q (Ok s) c') ->
  runs (connect_loop fuel path true deadline) d c Q.
Proof.
  unfold PROGRESS_RECONNECT_DELAY. revert c. induction fuel as [|fuel IH]; intros c Hd Hf Hdl He Hok; [lia|].
  cbn [connect_loop]. apply runs_bind, runs_connect; [done| |].
  - intros c1 Hn1 _ Hb1 e. apply runs_bind, runs_clock; [lia|].
    destruct (deadline <=? now c1) eqn:E; [apply runs_ret; [lia|]; apply He; [lia|done]|].
    apply Z.leb_gt in E. unfold PROGRESS_RECONNECT_DELAY.
    apply runs_bind, runs_sleep; [lia|]. intros Hs. apply IH; simpl; [lia|lia|lia| |].
    + intros e' c' Hc'. apply He. lia.
    + intros s c' Hc' Hb. apply Hok; lia.
  - intros s c1 Hn1 _ Hb1. apply runs_ret; [lia|]. apply Hok; lia.
Qed.

Lemma runs_progress_connect d c (Q : swu_result Stream -> Client -> Prop) :
  now c <= d ->
  (forall e c', now c <= now c' <= d -> e <> ETimeout -> Q (Err e) c') ->
  (forall s c', now c <= now c' <= d ->
     (pending_bytes (sk_in s) + budget (dials c') < budget (dials c))%nat -> Q (Ok s) c') ->
  runs (progress_connect env true) d c Q.
Proof.
  intros Hd He Hok. unfold progress_connect, progress_connect_path.
  apply runs_bind, runs_clock; [done|]. apply runs_tebind, runs_connect_loop; [done|apply Nat.lt_0_succ| |exact He|].
  { change connect_attempts with 12%nat. unfold PROGRESS_CONNECT_TIMEOUT, PROGRESS_RECONNECT_DELAY. lia. }
  intros s c1 Hc1 Hb1. apply runs_bind, runs_timeout; [done|lia| |].
  - apply runs_receive; [unfold PROGRESS_ACK_TIMEOUT; lia| |].
    + intros t' e Ht He'. apply runs_ret; [simpl; lia|]. apply He; [simpl; lia|done].
    + intros t' ack s' Ht Hp. apply runs_ret; [simpl; lia|]. unfold check_ack.
      destruct (is_major_compatible ack); [destruct (has_valid_magic ack)|]; simpl.
      * apply Hok; simpl; lia.
      * apply He; [simpl; lia|done].
      * apply He; [simpl; lia|done].
  - intros c' Hc'. apply runs_ret; [lia|]. apply He; [lia|done].
Qed.

Lemma runs_progress_loop fuel s d c :
  now c <= d -> (pending_bytes (sk_in s) + budget (dials c) < fuel)%nat ->
  runs (progress_loop env packed fuel s) d c (fun r _ => r <> Err ETimeout).
Proof.
  revert s c. induction fuel as [|fuel IH]; intros s c Hd Hf; [lia|].
  cbn [progress_loop]. apply runs_bind, runs_receive; [done| |].
  - intros t' e Ht He. apply runs_tebind, runs_progress_connect; [simpl; lia| |].
    + intros e' c' Hc' He'. by intros [= ->].
    + intros s' c' Hc' Hb. simpl in Hc', Hb. apply IH; [lia|lia].
  - intros t' msg s' Ht Hb. assert (0 < PROGRESS_SIZE packed)%nat by (unfold PROGRESS_SIZE; destruct packed; lia).
    unfold frame_verdict.
    destruct (ok (progress_status msg)) as [[]|];
      try (apply runs_ret; [simpl; lia|done]);
      apply runs_bind; (split; [simpl; lia|]); apply IH; simpl; lia.
Qed.

Lemma progress_in_time fuel limit c :
  0 <= limit -> (budget (dials c) < fuel)%nat ->
  exists r c', await_progress_result_with env packed fuel limit None c = (Done r, c') /\
    now c <= now c' <= now c + limit /\ (r = Err ETimeout -> now c' = now c + limit).
Proof.
  intros Hl Hf.
  assert (runs (listen fuel) (now c + limit) c (fun r _ => r <> Err ETimeout)) as H.
  { apply runs_tebind, runs_progress_connect; [lia| |].
    - intros e c' _ He. by intros [= ->].
    - intros s c' Hc' Hb. apply runs_progress_loop; lia. }
  unfold await_progress_result_with, timeout, tbind at 1. fold (listen fuel).
  unfold runs in H. destruct (listen fuel (Some (now c + limit)) c) as [[r| |] c']; [| |done].
  - exists r, c'. split; [done|]. destruct H as [? Hr]. split; [done|]. by intros ->.
  - rewrite Z.leb_refl. exists (Err ETimeout), c'. split; [done|]. split; [lia|done].
Qed.

(** The wait never outlasts its time limit and never blocks: whatever
    SWUpdate does, refusing, stalling in the middle of a frame, restarting or
    sending garbage, it returns by then, and it returns [Timeout] exactly at
    the limit and for no other reason. *)
Theorem await_progress_in_time fuel limit c :
  0 <= limit -> (budget (dials c) < fuel)%nat ->
  exists r c', await_progress_result_with env packed fuel limit None c = (Done r, c') /\
    now c <= now c' <= now c + limit /\ (r = Err ETimeout -> now c' = now c + limit).
Proof. apply progress_in_time. Qed.

End Verdict.

(** ** Starting an installation *)

(** A request SWUpdate answers is sent whole, on the control socket, before
    the answer is read: on ACK the connection is handed over with exactly the
    encoded request sent and nothing after the reply consumed; on any other
    reply the request counts as refused. A request that cannot be encoded is
    not sent at all. *)
Theorem install_start_exchange env request dl c l ds t fin reply rest :
  dials c = Accepted l None :: ds -> arrives_by t fin l (reply ++ rest) ->
  length reply = IPC_SIZE -> within dl (now c + t) ->
  match encode request with
  | Err e => inst_start_request env request dl c = (Done (Err e), c)
  | Ok frame =>
      exists r c', inst_start_request env request dl c = (Done r, c') /\
        dials c' = ds /\ dialed c' = dialed c ++ [ctrl_socket_path env] /\
        match r with
        | Ok s => has_type ACK reply = true /\ sk_out s = frame /\
            arrives_by (now c + t) (starting_at (now c) fin) (sk_in s) rest
        | Err e => has_type ACK reply = false /\ e = ENack
        end
  end.
Proof.
  intros Hc Hl Hlen Hd. unfold inst_start_request, tebind, tbind, tret.
  destruct (encode request) as [f|e]; [|done].
  unfold connect_ctrl, tbind, connect. rewrite Hc. cbn [map_err tret].
  unfold write_message, tbind, write_all. cbn [sk_room fresh_stream tret map_err rbind].
  unfold read_message, read_exact, stream_read_exact, tbind. cbn [sk_in sk_set_out fresh_stream].
  match goal with |- context [read_exact_from _ ?s _ _ _ _ ?c1] =>
    destruct (read_arrived false s (now c + t) (starting_at (now c) fin) (starting_at (now c) l)
      (reply ++ rest) IPC_SIZE [] dl c1) as (l' & t' & -> & Hl' & _) end;
    [by apply arrives_shift|done|rewrite length_app; lia|done|].
  rewrite take_app_length' by done. rewrite drop_app_length' in Hl' by done. cbn [app tret].
  unfold expect_ack. eexists _, _. split; [done|]. split; [done|]. split; [done|].
  destruct (has_type ACK reply); simpl; auto.
Qed.

(** ** Runs *)

Module AsyncDemo.

Definition env : SocketEnv :=
  {| config_socket_ctrl_path := None; config_socket_progress_path := None;
     runtime_directory := Some "/run/swupdate"; tmpdir := None |}.

Definition ack : list byte := le_bytes 4 131072 ++ bs "ACK" ++ [Byte.x00].
Definition progress (st : RecoveryStatus) : list byte :=
  put_u32 PM_STATUS (status_u32 st) (zeroed (PROGRESS_SIZE true)).

(** SWUpdate is not up yet, then its connection breaks in the middle of a
    frame, then it reports success, in pieces that respect no boundary. *)
Definition first_session : list (Z * Arrival) :=
  [(5, AData ack); (100, AData (progress RUN)); (200, AData (take 100 (progress PROGRESS))); (300, AEof)].
Definition second_session : list (Z * Arrival) :=
  [(0, AData (ack ++ take 7 (progress PROGRESS)));
   (50, AData (drop 7 (progress PROGRESS) ++ progress SUCCESS))].
Definition restarting : Client :=
  {| now := 1000; dials := [Refused (Os ENOENT); Accepted first_session None; Accepted second_session None];
     dialed := []; heard := [] |}.

Lemma progress_length st : length (progress st) = PROGRESS_SIZE true.
Proof. apply length_put. by vm_compute; apply Nat.leb_le. Qed.

Lemma ack_fits : ack_ok ack.
Proof. split; vm_compute; reflexivity. Qed.

Lemma second_carries :
  carries second_session 50 ack (concat [progress PROGRESS] ++ progress SUCCESS ++ []) [].
Proof.
  split; [apply ack_fits|]. split; [lia|].
  exists [(50, AData (drop 7 (progress PROGRESS) ++ progress SUCCESS))], (take 7 (progress PROGRESS)),
    (drop 7 (progress PROGRESS) ++ progress SUCCESS). split; [|split].
  - rewrite <- (app_nil_r (ack ++ _)). apply arrives_piece; [vm_compute; discriminate|]. apply arrives_fin.
  - rewrite <- (app_nil_r (drop _ _ ++ _)) at 2. apply arrives_piece; [lia|]. apply arrives_fin.
  - rewrite concat_cons, concat_nil, !app_nil_r, (assoc_L (++)), take_drop. done.
Qed.

Lemma first_carries :
  carries first_session 300 ack (concat [progress RUN] ++ take 100 (progress PROGRESS)) [(300, AEof)].
Proof.
  split; [apply ack_fits|]. split; [lia|].
  exists (drop 1 first_session), [], (progress RUN ++ take 100 (progress PROGRESS) ++ []). split; [|split].
  - apply arrives_piece; [vm_compute; discriminate|]. apply arrives_fin.
  - apply arrives_piece; [lia|]. apply arrives_piece; [lia|]. apply arrives_fin.
  - by rewrite concat_cons, concat_nil, !app_nil_r.
Qed.

Lemma await_progress_verdict_witness :
  exists c', await_progress_result_with env true 9 60000 None restarting = (Done (Ok tt), c') /\
    1000 <= now c' <= 1850 /\ heard c' = [progress RUN; progress PROGRESS].
Proof.
  apply (await_progress_verdict env true (500 * Z.of_nat 1 + 300 + (500 * Z.of_nat 0 + 50))
    ([progress RUN] ++ [progress PROGRESS]) (Ok tt) 9 60000 restarting); [|lia|simpl; lia].
  apply (broadcast_lost true [Os ENOENT] first_session None [Accepted second_session None] 300 ack
    [progress RUN] (take 100 (progress PROGRESS)) 300 AEof []); [simpl; lia|apply first_carries| | | |done|].
  - constructor; [|constructor]. split; [apply progress_length|]. vm_compute. reflexivity.
  - rewrite length_take, progress_length. vm_compute. lia.
  - lia.
  - apply (broadcast_verdict true [] second_session None [] 50 ack [progress PROGRESS] (progress SUCCESS) [] []);
      [simpl; lia|apply second_carries| |apply progress_length|vm_compute; reflexivity].
    constructor; [|constructor]. split; [apply progress_length|]. vm_compute. reflexivity.
Defined.

(** SWUpdate falls silent in the middle of a frame. *)
Definition silent : Client :=
  {| now := 0; dials := [Accepted [(0, AData ack); (10, AData (bs "frame"))] None]; dialed := []; heard := [] |}.

Lemma await_progress_in_time_witness :
  exists r c', await_progress_result_with env true 20 1000 None silent = (Done r, c') /\
    (0 <= now c' <= 1000 /\ (r = Err ETimeout -> now c' = 1000)) /\ r = Err ETimeout.
Proof.
  destruct (await_progress_in_time env true 20 1000 silent) as (r & c' & E & H);
    [lia|vm_compute; lia|].
  exists r, c'. split; [exact E|]. split; [exact H|]. vm_compute in E. injection E as <- _. reflexivity.
Defined.

Definition request : InstallRequest :=
  {| ir_software_set := "stable"; ir_running_mode := "full-b"; ir_source := Local;
     ir_mode := Default; ir_disable_store_swu := false |}.

Definition answering : Client :=
  {| now := 0; dials := [Accepted [(3, AData (ipc_new ACK))] None]; dialed := []; heard := [] |}.

Lemma install_start_exchange_witness :
  exists s c', inst_start_request env request None answering = (Done (Ok s), c') /\
    dialed c' = ["/run/swupdate/sockinstctrl"] /\ encode request = Ok (sk_out s).
Proof.
  pose proof (install_start_exchange env request None answering [(3, AData (ipc_new ACK))] [] 3 []
    (ipc_new ACK) [] eq_refl) as H.
  destruct (encode request) as [f|e] eqn:E; [|vm_compute in E; discriminate E].
  destruct H as (r & c' & Hr & _ & Hp & Hm); [|vm_compute; reflexivity|exact I|].
  { apply arrives_piece; [lia|]. apply arrives_fin. }
  destruct r as [s|e'].
  - exists s, c'. destruct Hm as (_ & <- & _). split; [exact Hr|]. split; [exact Hp|reflexivity].
  - destruct Hm as [Hm _]. vm_compute in Hm. discriminate Hm.
Defined.

Definition status_reply (current last : RecoveryStatus) : list byte :=
  put_u32 STATUS_LAST_RESULT (status_u32 last)
    (put_u32 STATUS_CURRENT (status_u32 current) (ipc_new GET_STATUS)).

(** A poll that finds the connection closed is repeated after a pause. *)
Example closed_poll_is_retried :
  let replies := [Accepted [(1, AEof)] None; Accepted [(1, AData (status_reply RUN SUCCESS))] None] in
  let r := await_install_result env 10000 None
    {| now := 0; dials := replies; dialed := []; heard := [] |} in
  r.1 = Done (Ok tt) /\ now r.2 = 252.
Proof. vm_compute. split; reflexivity. Qed.

(** A poll that is answered is repeated at once: while SWUpdate answers, the
    control socket is reopened without a pause. *)
Example answered_polls_are_back_to_back :
  let busy := Accepted [(0, AData (status_reply RUN IDLE))] None in
  let r := await_install_result env 10000 None
    {| now := 0; dials := [busy; busy; busy; Accepted [(0, AData (status_reply RUN SUCCESS))] None];
       dialed := []; heard := [] |} in
  r.1 = Done (Ok tt) /\ now r.2 = 0 /\ length (dialed r.2) = 4%nat.
Proof. vm_compute. auto. Qed.

End AsyncDemo.
