(* ===== verification/SwuBlocking.v ===== *)
(** * The blocking SWUpdate client

    Models crates/swupdate-ipc/src/blocking.rs, the synchronous counterpart of
    SwuAsync.v for other programs of the device: the same messages over
    sockets that have read timeouts and a non-blocking mode, and the helper that
    drives a whole installation from a thread. Concrete runs compare the two clients. *)

From S2P Require Import Prelude Io Bytes SwuProto SwuSocket.

Section Client.
Variable env : SocketEnv.
Variable packed : bool.

Definition PROGRESS_ACK_TIMEOUT : Z := 5000.
Definition PROGRESS_RECONNECT_DELAY : Z := 500.
Definition PROGRESS_CONNECT_TIMEOUT : Z := 5000.
Definition STATUS_POLL_INTERVAL : Z := 250.

(** ** Messages *)

Definition connect_ctrl : T (swu_result Stream) :=
  wait! r := connect (ctrl_socket_path env) in tret (map_err EIo r).

Definition write_message (msg : list byte) (stream : Stream) : T (swu_result Stream) :=
  wait! (r, stream) := write_all msg stream in
  tret (let? _ := map_err EIo r in Ok stream).

Definition read_message (stream : Stream) : T (swu_result (list byte * Stream)) :=
  wait! (r, stream) := stream_read_exact true IPC_SIZE stream in
  tret (let? msg := map_err EIo r in Ok (msg, stream)).

(** ** Installing *)

(** A connection is the stream it wraps. *)
Definition InstallConn : Type := Stream.
Definition NotifyConn : Type := Stream.
Definition ProgressConn : Type := Stream.

(** [Write]; the socket keeps no buffer of its own. *)
Definition install_write (buf : list byte) (conn : InstallConn) : T (io_result nat * InstallConn) := stream_write buf conn.
Definition install_flush (conn : InstallConn) : T (io_result unit * InstallConn) := tret (Ok tt, conn).

(** [outcome]: what the socket's mode change returns. *)
Definition install_set_nonblocking (outcome : io_result unit) (nonblocking : bool) (conn : InstallConn)
    : T (swu_result unit * InstallConn) :=
  tret match outcome with
       | Ok _ => (Ok tt, set_nonblocking nonblocking conn)
       | Err e => (Err (EIo e), conn)
       end.

Definition notify_set_nonblocking (outcome : io_result unit) (nonblocking : bool) (conn : NotifyConn)
    : T (swu_result unit * NotifyConn) :=
  tret match outcome with
       | Ok _ => (Ok tt, set_nonblocking nonblocking conn)
       | Err e => (Err (EIo e), conn)
       end.

(** [end] drops the connection. *)
Definition end_ (conn : InstallConn) : T unit := tret tt.

Definition send_data (buf : list byte) (stream : Stream) : T (swu_result Stream) :=
  write_message buf stream.

Definition expect_ack (refused : list byte -> Error) (reply : list byte) (stream : Stream)
    : swu_result Stream :=
  if negb (has_type ACK reply) then Err (refused reply) else Ok stream.

Definition inst_start_ext (req : list byte) : T (swu_result Stream) :=
  try! stream := connect_ctrl in
  let msg := set_install_request req (ipc_new REQ_INSTALL) in
  try! stream := write_message msg stream in
  try! (reply, stream) := read_message stream in
  tret (expect_ack (fun _ => ENack) reply stream).

Definition inst_start_request (request : InstallRequest) : T (swu_result Stream) :=
  try! message := tret (encode request) in
  try! stream := connect_ctrl in
  try! stream := write_message message stream in
  try! (reply, stream) := read_message stream in
  tret (expect_ack (fun _ => ENack) reply stream).

Definition inst_start : T (swu_result Stream) := inst_start_ext prepare.

(** ** Control requests *)

Definition get_status : T (swu_result (list byte)) :=
  try! stream := connect_ctrl in
  try! stream := write_message (ipc_new GET_STATUS) stream in
  try! (msg, _) := read_message stream in tret (Ok msg).

Definition timed_out (e : Error) : bool :=
  match e with
  | EIo e => bool_decide (kind e = KWouldBlock) || bool_decide (kind e = KTimedOut)
  | _ => false
  end.

Definition get_status_timeout (limit : Z) : T (swu_result (option (list byte))) :=
  try! stream := connect_ctrl in
  try! stream := write_message (ipc_new GET_STATUS) stream in
  if limit =? 0 then tret (Err (EIo (Custom KInvalidInput "cannot set a 0 duration timeout"))) else
  wait! r := read_message (set_read_timeout (Some limit) stream) in
  tret match r with
       | Ok (msg, _) => Ok (Some msg)
       | Err e => if timed_out e then Ok None else Err e
       end.

(** The decision on one status reply: a verdict, or keep polling. *)
Definition status_verdict (msg : list byte) : option (swu_result unit) :=
  let status := decode msg in
  if bool_decide (is_last_result status = Some FAILURE) then Some (Err EInstallFailed)
  else if bool_decide (is_current status = Some RUN) && bool_decide (is_last_result status = Some SUCCESS)
  then Some (Ok tt) else None.

Fixpoint status_loop (fuel : nat) (deadline : Z) : T (swu_result unit) :=
  match fuel with
  | O => fun _ c => (Forever, c)
  | S fuel =>
      wait! t := clock in
      if deadline <=? t then tret (Err ETimeout) else
      wait! r := get_status_timeout STATUS_POLL_INTERVAL in
      match r with
      | Ok (Some msg) =>
          match status_verdict msg with
          | Some r => tret r
          | None => status_loop fuel deadline
          end
      | Ok None | Err EClosed =>
          wait! _ := sleep STATUS_POLL_INTERVAL in status_loop fuel deadline
      | Err e => tret (Err e)
      end
  end.

(** Every turn uses up a connection attempt or returns. *)
Definition await_install_result (limit : Z) : T (swu_result unit) := fun dl c =>
  status_loop (S (S (length (dials c)))) (now c + limit) dl c.

Definition postupdate (info : list byte) : T (swu_result (list byte)) :=
  try! stream := connect_ctrl in
  let msg := set_postupdate_info info (ipc_new POST_UPDATE) in
  try! stream := write_message msg stream in
  try! (reply, _) := read_message stream in tret (Ok reply).

Definition send_cmd (msg : list byte) : T (swu_result (list byte)) :=
  try! stream := connect_ctrl in
  let msg := put_u32 0 IPC_MAGIC msg in
  try! stream := write_message msg stream in
  try! (reply, _) := read_message stream in tret (Ok reply).

Definition set_aes (key ivt : string) : T (swu_result unit) :=
  if negb (length (bs key) =? 64)%nat || negb (length (bs ivt) =? 32)%nat
  then tret (Err (EInvalidArgument "AES key must be 64 chars and IV 32 chars")) else
  try! msg := tret (set_aes_key key ivt (ipc_new SET_AES_KEY)) in
  try! _ := send_cmd msg in tret (Ok tt).

Definition set_version_range_cmd (mn mx cur : option string) : T (swu_result unit) :=
  try! msg := tret (set_version_range mn mx cur (ipc_new SET_VERSIONS_RANGE)) in
  try! _ := send_cmd msg in tret (Ok tt).

(** ** Notifications *)

Definition interrupted (e : io_error) : bool :=
  bool_decide (kind e = KWouldBlock) || bool_decide (kind e = KInterrupted).

(** The error of a read that is not an interruption. *)
Definition read_error (e : io_error) : Error :=
  if bool_decide (kind e = KUnexpectedEof) then EClosed else EIo e.

Definition notify_receive (stream : Stream) : T (swu_result (option (list byte)) * Stream) :=
  wait! (r, stream) := stream_read_exact true IPC_SIZE stream in
  tret (match r with
        | Ok msg => if negb (ipc_magic msg =? IPC_MAGIC)
                    then Err (EInvalidMagic (as_i32 (ipc_magic msg))) else Ok (Some msg)
        | Err e => if interrupted e then Ok None else Err (read_error e)
        end, stream).

Definition notify_connect : T (swu_result Stream) :=
  try! stream := connect_ctrl in
  try! stream := write_message (ipc_new NOTIFY_STREAM) stream in
  try! (reply, stream) := read_message stream in
  tret (expect_ack (fun reply => EUnexpectedType (as_i32 (ipc_type reply))) reply stream).

(** ** Progress *)

Definition receive (stream : Stream) : T (swu_result (list byte) * Stream) :=
  wait! (r, stream) := stream_read_exact true (PROGRESS_SIZE packed) (set_nonblocking false stream) in
  tret (map_err read_error r, stream).

(** [Ok None]: no frame is pending. *)
Definition receive_nb (stream : Stream) : T (swu_result (option (list byte)) * Stream) :=
  wait! (r, stream) := stream_read_exact true (PROGRESS_SIZE packed) (set_nonblocking true stream) in
  tret (match r with
        | Ok msg => Ok (Some msg)
        | Err e => if interrupted e then Ok None else Err (read_error e)
        end, stream).

Definition wait_for_progress_ack (stream : Stream) : T (swu_result Stream) :=
  wait! (r, stream) := stream_read_exact true ACK_SIZE
    (set_read_timeout (Some PROGRESS_ACK_TIMEOUT) stream) in
  tret (let? ack := map_err EIo r in
        if negb (is_major_compatible ack) then Err (EIncompatibleProgressVersion (ack_apiversion ack))
        else if negb (has_valid_magic ack) then Err EInvalidProgressAck
        else Ok (set_read_timeout None stream)).

(** A refused attempt is followed by a pause until the window is over, so the
    window has room for [connect_attempts] of them. *)
Definition connect_attempts : nat :=
  S (S (Z.to_nat (PROGRESS_CONNECT_TIMEOUT / PROGRESS_RECONNECT_DELAY))).

Fixpoint connect_loop (fuel : nat) (path : string) (reconnect : bool) (deadline : Z)
    : T (swu_result Stream) :=
  match fuel with
  | O => fun _ c => (Forever, c)
  | S fuel =>
      wait! r := connect path in
      match r with
      | Ok stream => tret (Ok stream)
      | Err e =>
          if reconnect then
            wait! t := clock in
            if deadline <=? t then tret (Err EProgressConnectTimeout) else
            wait! _ := sleep PROGRESS_RECONNECT_DELAY in
            connect_loop fuel path reconnect deadline
          else tret (Err (EIo e))
      end
  end.

Definition progress_connect_path (path : string) (reconnect : bool) : T (swu_result Stream) :=
  wait! t := clock in
  try! stream := connect_loop connect_attempts path reconnect (t + PROGRESS_CONNECT_TIMEOUT) in
  wait_for_progress_ack stream.

Definition progress_connect (reconnect : bool) : T (swu_result Stream) :=
  progress_connect_path (progress_socket_path env) reconnect.

Definition progress_connect_with_path (path : string) (reconnect : bool) : T (swu_result ProgressConn) :=
  progress_connect_path path reconnect.

Inductive AsyncOutcome := Success | Failure.

(** What a progress frame says about the installation: its verdict, if any. *)
Definition frame_outcome (msg : list byte) : option AsyncOutcome :=
  match progress_status msg with
  | Ok SUCCESS => Some Success
  | Ok FAILURE => Some Failure
  | _ => None
  end.

(** Every turn reads a frame, uses up a connection or sleeps. *)
Fixpoint progress_loop (fuel : nat) (deadline : Z) (conn : Stream) : T (swu_result unit) :=
  match fuel with
  | O => fun _ c => (Forever, c)
  | S fuel =>
      wait! t := clock in
      if deadline <=? t then tret (Err ETimeout) else
      wait! (r, conn) := receive_nb conn in
      match r with
      | Ok (Some msg) =>
          match frame_outcome msg with
          | Some Success => tret (Ok tt)
          | Some Failure => tret (Err EInstallFailed)
          | None => wait! _ := call msg in progress_loop fuel deadline conn
          end
      | Ok None => wait! _ := sleep STATUS_POLL_INTERVAL in progress_loop fuel deadline conn
      | Err _ => try! conn := progress_connect true in progress_loop fuel deadline conn
      end
  end.

Definition await_progress_result_with (fuel : nat) (limit : Z) : T (swu_result unit) :=
  wait! t := clock in
  try! conn := progress_connect true in
  progress_loop fuel (t + limit) conn.

(** With a callback that does nothing; what it was given is recorded all the
    same. *)
Definition await_progress_result (fuel : nat) (limit : Z) : T (swu_result unit) :=
  await_progress_result_with fuel limit.

(** ** A whole installation on a thread *)

(** The frames pending on the progress socket. *)
Fixpoint consume_progress (fuel : nat) (progress : Stream)
    : T (swu_result (option AsyncOutcome) * Stream) :=
  match fuel with
  | O => fun _ c => (Forever, c)
  | S fuel =>
      wait! (r, progress) := receive_nb progress in
      match r with
      | Err e => tret (Err e, progress)
      | Ok None => tret (Ok None, progress)
      | Ok (Some msg) =>
          match frame_outcome msg with
          | Some o => tret (Ok (Some o), progress)
          | None => consume_progress fuel progress
          end
      end
  end.

Fixpoint wait_for_complete (fuel : nat) (progress : Stream) : T AsyncOutcome :=
  match fuel with
  | O => fun _ c => (Forever, c)
  | S fuel =>
      wait! (r, progress) := receive progress in
      match r with
      | Ok msg =>
          match frame_outcome msg with
          | Some o => tret o
          | None => wait_for_complete fuel progress
          end
      | Err _ => tret Failure
      end
  end.

(** [write_data] is what the caller's closure returns, call by call. *)
Fixpoint send_chunks (fuel : nat) (write_data : list (option (list byte))) (conn progress : Stream)
    : T (option AsyncOutcome * (Stream * Stream)) :=
  match write_data with
  | Some (b :: chunk) :: write_data =>
      wait! sent := send_data (b :: chunk) conn in
      match sent with
      | Err _ => tret (Some Failure, (conn, progress))
      | Ok conn =>
          wait! (r, progress) := consume_progress fuel progress in
          match r with
          | Ok (Some o) => tret (Some o, (conn, progress))
          | Ok None => send_chunks fuel write_data conn progress
          | Err _ => tret (Some Failure, (conn, progress))
          end
      end
  | _ => tret (None, (conn, progress))
  end.

Definition run_async_install (fuel : nat) (conn : Stream) (write_data : list (option (list byte)))
    : T AsyncOutcome :=
  wait! progress := progress_connect false in
  match progress with
  | Err _ => tret Failure
  | Ok progress =>
      wait! (early, (_, progress)) := send_chunks fuel write_data conn progress in
      match early with
      | Some o => tret o
      | None => wait_for_complete fuel progress
      end
  end.

(** The status callback is called for each distinct status, until the installer
    is idle; every turn uses up a connection attempt. *)
Fixpoint unstack_loop (fuel : nat) (deadline : Z) (previous : option Z) : T unit :=
  match fuel with
  | O => fun _ c => (Forever, c)
  | S fuel =>
      wait! r := get_status in
      match r with
      | Err _ => tret tt
      | Ok msg =>
          let (current, description) := install_status_description msg in
          wait! _ := (if bool_decide (previous <> Some current) || bool_decide (description <> EmptyString)
                      then call msg else tret tt) in
          wait! t := clock in
          if (current =? status_u32 IDLE) || (deadline <=? t) then tret tt
          else unstack_loop fuel deadline (Some current)
      end
  end.

Definition unstack_status : T unit := fun dl c =>
  unstack_loop (S (length (dials c))) (now c + 30000) None dl c.

(** [async_start] and the thread it starts: the outcome passed to [terminated]. *)
Definition async_start (fuel : nat) (req : list byte) (write_data : list (option (list byte)))
    (status : bool) : T (swu_result AsyncOutcome) :=
  try! conn := inst_start_ext req in
  wait! o := run_async_install fuel conn write_data in
  wait! _ := (if status then unstack_status else tret tt) in
  tret (Ok o).

End Client.

(** ** Runs *)

Module BlockingDemo.

Definition env : SocketEnv :=
  {| config_socket_ctrl_path := None; config_socket_progress_path := None;
     runtime_directory := None; tmpdir := None |}.

Definition ack : list byte := le_bytes 4 131072 ++ bs "ACK" ++ [Byte.x00].
Definition progress (st : RecoveryStatus) : list byte :=
  put_u32 PM_STATUS (status_u32 st) (zeroed (PROGRESS_SIZE true)).
Definition status_reply (current last : RecoveryStatus) : list byte :=
  put_u32 STATUS_LAST_RESULT (status_u32 last)
    (put_u32 STATUS_CURRENT (status_u32 current) (ipc_new GET_STATUS)).
Definition client (ds : list Dial) : Client := {| now := 0; dials := ds; dialed := []; heard := [] |}.

(** Three frames sent whole are heard and the verdict is returned. *)
Example blocking_verdict :
  let l := [(5, AData (ack ++ progress START)); (300, AData (progress RUN ++ progress SUCCESS))] in
  let r := await_progress_result_with env true 9 10000 None (client [Accepted l None]) in
  r.1 = Done (Ok tt) /\ heard r.2 = [progress START; progress RUN].
Proof. vm_compute. split; reflexivity. Qed.

(** A frame that arrives in two pieces, with a poll between them, is lost: the
    first piece is dropped with the read that found the second one missing, and
    the verdict is never seen. The asynchronous client waits for the rest of
    the frame (SwuAsync.v). *)
Example split_frame_is_lost :
  let l := [(5, AData ack); (10, AData (take 100 (progress SUCCESS)));
            (400, AData (drop 100 (progress SUCCESS)))] in
  let r := await_progress_result_with env true 50 10000 None (client [Accepted l None]) in
  r.1 = Done (Err ETimeout) /\ heard r.2 = [].
Proof. vm_compute. split; reflexivity. Qed.

(** A status poll whose connection SWUpdate closes ends the wait with an I/O
    error, although the loop has an arm that retries closed connections: the
    blocking reads never return [Closed]. *)
Example closed_poll_ends_wait :
  let replies := [Accepted [(1, AEof)] None; Accepted [(1, AData (status_reply RUN SUCCESS))] None] in
  (await_install_result env 10000 None (client replies)).1 = Done (Err (EIo eof_error)).
Proof. vm_compute. reflexivity. Qed.

(** An installation driven from a thread: the chunks are sent, the verdict on
    the progress socket is the outcome. *)
Example async_start_outcome :
  let ctrl := Accepted [(0, AData (ipc_new ACK))] None in
  let prog := Accepted [(0, AData ack); (20, AData (progress RUN ++ progress SUCCESS))] None in
  (async_start env true 9 prepare [Some (bs "im"); Some (bs "age"); None] false None (client [ctrl; prog])).1
  = Done (Ok Success).
Proof. vm_compute. reflexivity. Qed.

End BlockingDemo.
