(* ===== verification/Session.v ===== *)
(** * The SWUpdate firmware sink

    Models crates/summit-usbgadget-swupdate: the configuration and its
    parameters, the choice of the update target, the session with its three
    sides (feed, status, destroy), the background tasks of stream.rs and the
    restart gate of restart.rs.

    A session holds handles (the queue's sender, the recycle receiver, the
    status task) into a transfer that outlives it: the data task keeps draining
    after the session is aborted or replaced. The transfers are therefore kept
    in a store, [World], and a session refers to its transfer by index. What
    the background tasks do is a set of events ([wstep]), which interleave with
    the operations of the session in any order. *)

From stdpp Require pretty.
From S2P Require Import Prelude Io Bytes SysInfo SwuProto.

(** ** Configuration *)

Record SwupdateConfig := {
  cfg_download : option string;
  cfg_software_set : option string;
  cfg_image_mode : option string;
  cfg_dry_run : option bool;
  cfg_disable_store_swu : option bool;
  cfg_timeout_secs : option Z;
}.

Record SwupdateParams := {
  sp_software_set : option string;
  sp_image_mode : option string;
  sp_dry_run : bool;
  sp_disable_store_swu : bool;
  sp_timeout_secs : Z;
}.

Inductive SwupdateConfigError := UnsupportedDownloadTarget (target : string).

Definition ensure_download_target (c : SwupdateConfig) : result unit SwupdateConfigError :=
  match cfg_download c with
  | None => Ok tt
  | Some t => if bool_decide (t = "swupdate") then Ok tt else Err (UnsupportedDownloadTarget t)
  end.

Definition to_params (c : SwupdateConfig) : result SwupdateParams SwupdateConfigError :=
  let? _ := ensure_download_target c in
  Ok {| sp_software_set := cfg_software_set c;
        sp_image_mode := cfg_image_mode c;
        sp_dry_run := default false (cfg_dry_run c);
        sp_disable_store_swu := default true (cfg_disable_store_swu c);
        sp_timeout_secs := default 600 (cfg_timeout_secs c) |}.

Definition default_params : SwupdateParams :=
  {| sp_software_set := None; sp_image_mode := None; sp_dry_run := false;
     sp_disable_store_swu := true; sp_timeout_secs := 600 |}.

(** ** The update target *)

Inductive EffectiveUpdateType :=
| Complete
| Slot (running_mode : string).

Definition resolve (p : SwupdateParams) (i : BootRootfsInfo) : EffectiveUpdateType :=
  if is_running_on_sd i || is_running_on_initramfs i then Complete
  else
    let image_mode := default "full" (sp_image_mode p) in
    let side := inactive_side (current_side_option i) in
    Slot (image_mode +:+ "-" +:+ side).

Definition is_complete (t : EffectiveUpdateType) : bool :=
  match t with Complete => true | Slot _ => false end.

Definition running_mode_of (t : EffectiveUpdateType) : string :=
  match t with Complete => "complete" | Slot m => m end.

(** ** Queue capacity *)

Definition TARGET_QUEUE_BYTES : Z := 2 * 1024 * 1024.

Definition queue_capacity (block_size : Z) : Z :=
  Z.max (div_ceil TARGET_QUEUE_BYTES (Z.max block_size 1)) 2.

Lemma queue_capacity_pos block_size : 0 < queue_capacity block_size.
Proof. unfold queue_capacity. lia. Qed.

(** ** Connecting to the backend *)

(** What the connect future starts: the [fw_update] child with its arguments,
    or an install request on SWUpdate's control socket. *)
Inductive Connection :=
| Pipe (args : list string)
| Ipc (request : InstallRequest).

Definition pipe_begin (running_mode : string) : Connection :=
  Pipe ["-x"; "r"; "-m"; running_mode; "-"].

Definition ipc_begin (p : SwupdateParams) (running_mode : string) : Connection :=
  Ipc {| ir_software_set := default "stable" (sp_software_set p);
         ir_running_mode := running_mode;
         ir_source := Local;
         ir_mode := if sp_dry_run p then DryRun else Install;
         ir_disable_store_swu := sp_disable_store_swu p |}.

Definition connect_backend (use_pipe : bool) (p : SwupdateParams) (running_mode : string)
    : Connection :=
  if use_pipe then pipe_begin running_mode else ipc_begin p running_mode.

(** The verdict of the pipe transport, from the outcome of waiting for the
    child within the timeout ([None]: it elapsed). *)
Inductive ChildWait := Exited (success : bool) (status : string) | WaitFailed (msg : string).

Definition pipe_status (wait : option ChildWait) : io_result unit :=
  match wait with
  | Some (Exited true _) => Ok tt
  | Some (Exited false status) => Err (other ("fw_update exited with status " +:+ status))
  | Some (WaitFailed msg) => Err (other ("fw_update wait failed: " +:+ msg))
  | None => Err (Custom KTimedOut "fw_update timed out")
  end.

(** [to_string] of an I/O error: the operating system's text for an OS error. *)
Definition display (env : SysEnv) (e : io_error) : string :=
  match e with
  | Os n => strerror env n +:+ " (os error " +:+ pretty.pretty n +:+ ")"
  | Custom _ msg => msg
  end.

(** [{:#010x}] of a 32-bit integer. *)
Definition fmt_u32_hex (z : Z) : string :=
  "0x" +:+ str_of_bytes (hex_digit_lower <$> radix_digits 16 8 (wrap 32 z)).

Definition error_display (env : SysEnv) (err : Error) : string :=
  match err with
  | EIo e => "SWUpdate IPC I/O error: " +:+ display env e
  | ENack => "SWUpdate rejected the request (NACK)"
  | EUnexpectedType t => "unexpected SWUpdate message type: " +:+ pretty.pretty t
  | EInvalidMagic m => "invalid SWUpdate IPC magic number: " +:+ fmt_u32_hex m
  | EIncompatibleProgressVersion v =>
      "incompatible SWUpdate progress API version: " +:+ fmt_u32_hex v
  | EInvalidProgressAck => "invalid SWUpdate progress connect acknowledgement"
  | EClosed => "SWUpdate closed the connection"
  | EInvalidArgument msg => "invalid argument: " +:+ msg
  | ETimeout => "timed out waiting for SWUpdate install result"
  | EProgressConnectTimeout => "timed out connecting to SWUpdate progress socket"
  | EInstallFailed => "SWUpdate reported installation failure"
  end.

(** A dropped IPC connection is reported as [NotConnected], whatever layer saw
    it; every other failure keeps its context in an [Other] error. *)
Definition normalize_ipc_error (env : SysEnv) (err : Error) (context : string) : io_error :=
  match err with
  | EIo e =>
      if bool_decide (raw_os_error e = Some ESHUTDOWN)
         || bool_decide (raw_os_error e = Some ECONNABORTED)
      then Custom KNotConnected (display env e)
      else other ("SWUpdate " +:+ context +:+ " failed: " +:+ error_display env err)
  | EClosed => Custom KNotConnected (error_display env err)
  | _ => other ("SWUpdate " +:+ context +:+ " failed: " +:+ error_display env err)
  end.

(** ** Background tasks (stream.rs) *)

Abbreviation block := (list byte).

(** How a joined status task ended: its own result, or a panic/cancellation, whose
    text is given without the number the runtime gave the task. *)
Inductive Joined :=
| Returned (r : io_result unit)
| JoinFailed (msg : string).

Inductive StatusTask := StRunning | StDone (j : Joined) | StAborted.

(** The drain task: not spawned yet, running, ended by end-of-stream (the
    writer was shut down), or ended by a write error. *)
Inductive DrainTask := DrNotStarted | DrRunning | DrClosed | DrStopped.

#[global] Instance DrainTask_eq_dec : EqDecision DrainTask.
Proof. solve_decision. Defined.

(** One transfer: the bounded queue with its two ends, the recycle queue, the
    two tasks, the bytes the backend has received, and whether an abort killed
    the [fw_update] child. [bk_log] is a ghost: the blocks the queue ever accepted. *)
Record Backend := {
  bk_conn : Connection;
  bk_connected : bool;
  bk_queue : list block;
  bk_cap : Z;
  bk_tx_open : bool;
  bk_rx_open : bool;
  bk_recycle : list block;
  bk_recycle_open : bool;
  bk_status : StatusTask;
  bk_drain : DrainTask;
  bk_written : list byte;
  bk_killed : bool;
  bk_log : list block;
}.

Definition new_backend (conn : Connection) (cap : Z) : Backend :=
  {| bk_conn := conn; bk_connected := false; bk_queue := []; bk_cap := cap;
     bk_tx_open := true; bk_rx_open := true; bk_recycle := []; bk_recycle_open := true;
     bk_status := StRunning; bk_drain := DrNotStarted; bk_written := [];
     bk_killed := false; bk_log := [] |}.

Definition bk_set_tx (v : bool) (b : Backend) : Backend :=
  {| bk_conn := bk_conn b; bk_connected := bk_connected b; bk_queue := bk_queue b;
     bk_cap := bk_cap b; bk_tx_open := v; bk_rx_open := bk_rx_open b;
     bk_recycle := bk_recycle b; bk_recycle_open := bk_recycle_open b;
     bk_status := bk_status b; bk_drain := bk_drain b; bk_written := bk_written b;
     bk_killed := bk_killed b; bk_log := bk_log b |}.

Definition bk_set_recycle (v : list block) (o : bool) (b : Backend) : Backend :=
  {| bk_conn := bk_conn b; bk_connected := bk_connected b; bk_queue := bk_queue b;
     bk_cap := bk_cap b; bk_tx_open := bk_tx_open b; bk_rx_open := bk_rx_open b;
     bk_recycle := v; bk_recycle_open := o;
     bk_status := bk_status b; bk_drain := bk_drain b; bk_written := bk_written b;
     bk_killed := bk_killed b; bk_log := bk_log b |}.

Definition bk_push (item : block) (b : Backend) : Backend :=
  {| bk_conn := bk_conn b; bk_connected := bk_connected b; bk_queue := bk_queue b ++ [item];
     bk_cap := bk_cap b; bk_tx_open := bk_tx_open b; bk_rx_open := bk_rx_open b;
     bk_recycle := bk_recycle b; bk_recycle_open := bk_recycle_open b;
     bk_status := bk_status b; bk_drain := bk_drain b; bk_written := bk_written b;
     bk_killed := bk_killed b; bk_log := bk_log b ++ [item] |}.

(** The status task ends ([s]); when the connection was never made, the queue's
    receiver is dropped with the task. *)
Definition bk_end_status (s : StatusTask) (b : Backend) : Backend :=
  {| bk_conn := bk_conn b; bk_connected := bk_connected b;
     bk_queue := if bk_connected b then bk_queue b else [];
     bk_cap := bk_cap b; bk_tx_open := bk_tx_open b;
     bk_rx_open := bk_connected b && bk_rx_open b;
     bk_recycle := bk_recycle b; bk_recycle_open := bk_recycle_open b;
     bk_status := s; bk_drain := bk_drain b; bk_written := bk_written b;
     bk_killed := bk_killed b ||
       match bk_conn b with Pipe _ => bk_connected b | Ipc _ => false end;
     bk_log := bk_log b |}.

(** Events of one transfer's tasks. *)
Inductive bevent :=
| EvConnectOk
| EvConnectErr (e : io_error)
| EvWrite
| EvWriteErr (k : nat)
| EvEof
| EvStatus (j : Joined).

Definition recycle (buf : block) (b : Backend) : list block :=
  if bk_recycle_open b && (Z.of_nat (length (bk_recycle b)) <? bk_cap b)
  then bk_recycle b ++ [buf] else bk_recycle b.

Definition bstep (ev : bevent) (b : Backend) : option Backend :=
  match ev, bk_status b with
  | EvConnectOk, StRunning =>
      if bk_connected b then None else
      Some {| bk_conn := bk_conn b; bk_connected := true; bk_queue := bk_queue b;
              bk_cap := bk_cap b; bk_tx_open := bk_tx_open b; bk_rx_open := bk_rx_open b;
              bk_recycle := bk_recycle b; bk_recycle_open := bk_recycle_open b;
              bk_status := bk_status b; bk_drain := DrRunning;
              bk_written := bk_written b; bk_killed := bk_killed b; bk_log := bk_log b |}
  | EvConnectErr e, StRunning =>
      if bk_connected b then None else Some (bk_end_status (StDone (Returned (Err e))) b)
  | EvStatus j, StRunning =>
      if bk_connected b then
        Some {| bk_conn := bk_conn b; bk_connected := true; bk_queue := bk_queue b;
                bk_cap := bk_cap b; bk_tx_open := bk_tx_open b; bk_rx_open := bk_rx_open b;
                bk_recycle := bk_recycle b; bk_recycle_open := bk_recycle_open b;
                bk_status := StDone j; bk_drain := bk_drain b;
                bk_written := bk_written b; bk_killed := bk_killed b; bk_log := bk_log b |}
      else None
  | EvWrite, _ =>
      match bk_drain b, bk_queue b with
      | DrRunning, buf :: rest =>
          Some {| bk_conn := bk_conn b; bk_connected := bk_connected b; bk_queue := rest;
                  bk_cap := bk_cap b; bk_tx_open := bk_tx_open b; bk_rx_open := bk_rx_open b;
                  bk_recycle := recycle buf b; bk_recycle_open := bk_recycle_open b;
                  bk_status := bk_status b; bk_drain := DrRunning;
                  bk_written := bk_written b ++ buf; bk_killed := bk_killed b;
                  bk_log := bk_log b |}
      | _, _ => None
      end
  | EvWriteErr k, _ =>
      match bk_drain b, bk_queue b with
      | DrRunning, buf :: _ =>
          Some {| bk_conn := bk_conn b; bk_connected := bk_connected b; bk_queue := [];
                  bk_cap := bk_cap b; bk_tx_open := bk_tx_open b; bk_rx_open := false;
                  bk_recycle := bk_recycle b; bk_recycle_open := bk_recycle_open b;
                  bk_status := bk_status b; bk_drain := DrStopped;
                  bk_written := bk_written b ++ take k buf; bk_killed := bk_killed b;
                  bk_log := bk_log b |}
      | _, _ => None
      end
  | EvEof, _ =>
      match bk_drain b, bk_queue b, bk_tx_open b with
      | DrRunning, [], false =>
          Some {| bk_conn := bk_conn b; bk_connected := bk_connected b; bk_queue := [];
                  bk_cap := bk_cap b; bk_tx_open := false; bk_rx_open := false;
                  bk_recycle := bk_recycle b; bk_recycle_open := bk_recycle_open b;
                  bk_status := bk_status b; bk_drain := DrClosed;
                  bk_written := bk_written b; bk_killed := bk_killed b; bk_log := bk_log b |}
      | _, _, _ => None
      end
  | _, _ => None
  end.

(** ** The world: the transfers, the restart gate and the system *)

Record World := {
  w_env : SysEnv;
  w_transfers : list Backend;
  w_success_tasks : list EffectiveUpdateType;
  w_restart_pending : bool;
  w_reboots : nat;
}.

Definition w_alter (i : nat) (f : Backend -> Backend) (w : World) : World :=
  {| w_env := w_env w; w_transfers := alter f i (w_transfers w);
     w_success_tasks := w_success_tasks w; w_restart_pending := w_restart_pending w;
     w_reboots := w_reboots w |}.

Definition w_spawn (b : Backend) (w : World) : World :=
  {| w_env := w_env w; w_transfers := w_transfers w ++ [b];
     w_success_tasks := w_success_tasks w; w_restart_pending := w_restart_pending w;
     w_reboots := w_reboots w |}.

Definition w_add_success (t : EffectiveUpdateType) (w : World) : World :=
  {| w_env := w_env w; w_transfers := w_transfers w;
     w_success_tasks := w_success_tasks w ++ [t]; w_restart_pending := w_restart_pending w;
     w_reboots := w_reboots w |}.

(** [restart::on_update_success]: a complete update leaves the device running;
    any other one sets the gate and schedules a reboot. *)
Definition on_update_success (t : EffectiveUpdateType) (w : World) : World :=
  if is_complete t then w else
  {| w_env := w_env w; w_transfers := w_transfers w;
     w_success_tasks := w_success_tasks w; w_restart_pending := true;
     w_reboots := S (w_reboots w) |}.

Definition w_pop_success (w : World) : World :=
  {| w_env := w_env w; w_transfers := w_transfers w;
     w_success_tasks := tail (w_success_tasks w); w_restart_pending := w_restart_pending w;
     w_reboots := w_reboots w |}.

Definition reject_if_restart_pending (w : World) : io_result unit :=
  if w_restart_pending w
  then Err (other "restart pending after successful SWUpdate; rejecting new update")
  else Ok tt.

(** One step of the background tasks; an event that is not enabled does nothing. *)
Inductive wevent :=
| WBackend (i : nat) (ev : bevent)
| WSuccess.

Definition wstep (ev : wevent) (w : World) : World :=
  match ev with
  | WBackend i ev => w_alter i (fun b => default b (bstep ev b)) w
  | WSuccess =>
      match w_success_tasks w with
      | t :: _ => on_update_success t (w_pop_success w)
      | [] => w
      end
  end.

Definition wsteps (evs : list wevent) (w : World) : World := foldl (fun w ev => wstep ev w) w evs.

(** ** The session *)

Record Session := {
  s_params : SwupdateParams;
  s_max_block_size : Z;
  s_update_type : option EffectiveUpdateType;
  s_tx : option nat;
  s_recycle_rx : option nat;
  s_status : option nat;
  s_terminal : option (result unit string);
}.

Definition session_new (p : SwupdateParams) (max_block_size : Z) : Session :=
  {| s_params := p; s_max_block_size := max_block_size; s_update_type := None;
     s_tx := None; s_recycle_rx := None; s_status := None; s_terminal := None |}.

Definition set_tx (v : option nat) (s : Session) : Session :=
  {| s_params := s_params s; s_max_block_size := s_max_block_size s;
     s_update_type := s_update_type s; s_tx := v; s_recycle_rx := s_recycle_rx s;
     s_status := s_status s; s_terminal := s_terminal s |}.

Definition set_status (v : option nat) (s : Session) : Session :=
  {| s_params := s_params s; s_max_block_size := s_max_block_size s;
     s_update_type := s_update_type s; s_tx := s_tx s; s_recycle_rx := s_recycle_rx s;
     s_status := v; s_terminal := s_terminal s |}.

Definition set_terminal (v : option (result unit string)) (s : Session) : Session :=
  {| s_params := s_params s; s_max_block_size := s_max_block_size s;
     s_update_type := s_update_type s; s_tx := s_tx s; s_recycle_rx := s_recycle_rx s;
     s_status := s_status s; s_terminal := v |}.

Definition set_recycle_rx (v : option nat) (s : Session) : Session :=
  {| s_params := s_params s; s_max_block_size := s_max_block_size s;
     s_update_type := s_update_type s; s_tx := s_tx s; s_recycle_rx := v;
     s_status := s_status s; s_terminal := s_terminal s |}.

Definition is_open (s : Session) : bool := isSome (s_tx s) || isSome (s_status s).

Inductive Feed :=
| FeedOk (len : Z)
| FeedFull (item : block)
| FeedClosed.

(** The state every session operation runs on. *)
Abbreviation SW := (Session * World)%type.

Definition on_transfer (h : option nat) (f : Backend -> Backend) (w : World) : World :=
  match h with Some i => w_alter i f w | None => w end.

(** Assigning [None] to the sender drops it: the queue sees end of stream. *)
Definition drop_tx : M SW unit := modify (fun '(s, w) =>
  (set_tx None s, on_transfer (s_tx s) (bk_set_tx false) w)).

Definition drop_recycle_rx : M SW unit := modify (fun '(s, w) =>
  (set_recycle_rx None s, on_transfer (s_recycle_rx s) (fun b => bk_set_recycle [] false b) w)).

(** Takes a recycled buffer if there is one; the buffer handed out is cleared,
    so only whether one was taken is visible. *)
Definition buffer : M SW block := fun '(s, w) =>
  (Ok [], (s, on_transfer (s_recycle_rx s)
                (fun b => bk_set_recycle (tail (bk_recycle b)) (bk_recycle_open b) b) w)).

(** The receiver of recycled buffers goes: its channel closes. *)
Definition close_recycle (s : Session) (w : World) : World :=
  on_transfer (s_recycle_rx s) (fun b => bk_set_recycle [] false b) w.

Lemma close_recycle_length s w : length (w_transfers (close_recycle s w)) = length (w_transfers w).
Proof. unfold close_recycle. destruct (s_recycle_rx s); [apply length_alter|done]. Qed.

(** The new transfer's ends replace those of the old one, whose recycle channel
    is closed by that. *)
Definition open : M SW unit := fun '(s, w) =>
  if is_open s then (Ok tt, (s, w)) else
  let s := set_terminal None s in
  match reject_if_restart_pending w with
  | Err e => (Err e, (s, w))
  | Ok _ =>
      let i := boot_info (w_env w) in
      let update_type := resolve (s_params s) i in
      let conn := connect_backend (use_pipe_mode i) (s_params s) (running_mode_of update_type) in
      let id := length (w_transfers w) in
      (Ok tt,
       ({| s_params := s_params s; s_max_block_size := s_max_block_size s;
           s_update_type := Some update_type;
           s_tx := Some id; s_recycle_rx := Some id; s_status := Some id;
           s_terminal := s_terminal s |},
        w_spawn (new_backend conn (queue_capacity (s_max_block_size s)))
          (close_recycle s w)))
  end.

Definition ensure_open : M SW unit := fun '(s, w) =>
  if isSome (s_tx s) || isSome (s_status s) || isSome (s_terminal s)
  then (Ok tt, (s, w)) else open (s, w).

Definition transfer (h : option nat) (w : World) : option Backend :=
  i ← h; w_transfers w !! i.

(** The queue's own [try_send]. *)
Inductive Pushed := PushedOk | PushedFull | PushedClosed.

Definition chan_try_send (b : Backend) : Pushed :=
  if negb (bk_rx_open b) then PushedClosed
  else if (bk_cap b <=? Z.of_nat (length (bk_queue b))) then PushedFull
  else PushedOk.

Definition feed (item : block) : M SW Feed := fun '(s, w) =>
  match transfer (s_tx s) w with
  | None => (Ok FeedClosed, (s, w))
  | Some b =>
      match chan_try_send b with
      | PushedOk => (Ok (FeedOk (Z.of_nat (length item))),
                     (s, on_transfer (s_tx s) (bk_push item) w))
      | PushedFull => (Ok (FeedFull item), (s, w))
      | PushedClosed => (drop_tx >>; ret FeedClosed) (s, w)
      end
  end.

Definition try_send (item : block) : M SW Feed := ensure_open >>; feed item.

Definition eof : M SW unit := drop_tx.

(** Folds the joined outcome of the status task into the cached verdict. *)
Definition mark_complete : M SW unit := modify (fun '(s, w) =>
  (set_terminal (Some (Ok tt)) s,
   match s_update_type s with Some t => w_add_success t w | None => w end)).

Definition settle (j : Joined) : M SW unit :=
  match j with
  | Returned (Ok _) => mark_complete
  | Returned (Err err) =>
      modify (fun '(s, w) => (set_terminal (Some (Err (display (w_env w) err))) s, w)) >>; throw err
  | JoinFailed msg =>
      let err := other ("SWUpdate status task failed: " +:+ msg) in
      modify (fun '(s, w) => (set_terminal (Some (Err (display (w_env w) err))) s, w)) >>; throw err
  end.

(** [None]: the verdict is not known yet. *)
Definition poll_status : SW -> option (io_result unit) * SW := fun '(s, w) =>
  match s_terminal s with
  | Some (Ok _) => (Some (Ok tt), (s, w))
  | Some (Err msg) => (Some (Err (other msg)), (s, w))
  | None =>
      match transfer (s_status s) w with
      | None => (Some (Err (Custom KNotConnected "no update in progress")), (s, w))
      | Some b =>
          match bk_status b with
          | StRunning => (None, (s, w))
          | StDone j => let (r, sw) := settle j (set_status None s, w) in (Some r, sw)
          | StAborted =>
              let (r, sw) := settle (JoinFailed "task was cancelled") (set_status None s, w) in
              (Some r, sw)
          end
      end
  end.

Definition try_finished : SW -> option (io_result unit) * SW := poll_status.

(** Destruction: end of stream for the data task, which keeps draining on its
    own; only the status task is aborted. *)
Definition abort : M SW unit :=
  drop_tx >>; drop_recycle_rx >>;
  modify (fun '(s, w) =>
    (set_status None s,
     on_transfer (s_status s) (fun b =>
       match bk_status b with StRunning => bk_end_status StAborted b | _ => b end) w)) >>;
  modify (fun '(s, w) => (set_terminal None s, w)).

(** A session that is replaced or goes out of scope: its ends of the queues are
    dropped, its status task is detached. *)
Definition drop_session (s : Session) (w : World) : World :=
  on_transfer (s_recycle_rx s) (fun b => bk_set_recycle [] false b)
    (on_transfer (s_tx s) (bk_set_tx false) w).

(** ** Waiting

    An asynchronous operation that can wait runs against a schedule: the events
    of the background tasks in the order in which they happen while it waits.
    Its outcome is [None] when the schedule ends before the operation does (the
    future is still pending). *)

Definition Async (S A : Type) : Type :=
  list wevent -> S -> option (io_result A) * (list wevent * S).

Definition sync {S A} (m : M S A) : Async S A := fun l s =>
  let (r, s) := m s in (Some r, (l, s)).

Definition abind {S A B} (m : Async S A) (f : A -> Async S B) : Async S B := fun l s =>
  match m l s with
  | (Some (Ok a), (l, s)) => f a l s
  | (Some (Err e), (l, s)) => (Some (Err e), (l, s))
  | (None, ls) => (None, ls)
  end.

Notation "'await!' x ':=' m 'in' k" := (abind m (fun x => k))
  (at level 10, x pattern, m at level 100, k at level 200) : gadget_scope.

(** Polls until ready; one background event between two polls. *)
Fixpoint wait {S A} (tick : wevent -> S -> S) (poll : S -> option (io_result A) * S)
    (l : list wevent) (s : S) : option (io_result A) * (list wevent * S) :=
  match poll s with
  | (Some r, s) => (Some r, (l, s))
  | (None, s) => match l with [] => (None, ([], s)) | ev :: l => wait tick poll l (tick ev s) end
  end.

Definition tick_sw (ev : wevent) (sw : SW) : SW := (sw.1, wstep ev sw.2).

(** Waiting for a free slot of the queue. *)
Definition poll_send (item : block) (sw : SW) : option (io_result Feed) * SW :=
  match feed item sw with
  | (Ok (FeedFull _), sw) => (None, sw)
  | (r, sw) => (Some r, sw)
  end.

Definition send (item : block) : Async SW Feed :=
  await! _ := sync ensure_open in wait tick_sw (poll_send item).

Definition finished : Async SW unit := wait tick_sw poll_status.

(** ** The pump *)

Inductive PumpToSwupdateEnd :=
| InputClosed
| SwupdateFinished (r : io_result unit).

(** A producer: its next block, or [None] at the end of its input. It may use
    the session (to borrow a buffer) and may wait. *)
Class SwupdatePumpSource (Src : Type) := {
  next_block : Src -> Async SW (option block * Src);
}.

(** The verdict as a value. *)
Definition finished_result : Async SW (io_result unit) := fun l s =>
  match finished l s with
  | (Some r, ls) => (Some (Ok r), ls)
  | (None, ls) => (None, ls)
  end.

(** [fuel] bounds the number of blocks; [None] is also the outcome when it
    runs out. *)
Fixpoint pump_to_swupdate `{SwupdatePumpSource Src} (fuel : nat) (source : Src)
    : Async SW (PumpToSwupdateEnd * Src) :=
  match fuel with
  | O => fun l s => (None, (l, s))
  | S fuel =>
      await! p := next_block source in
      let (b, source) := p in
      match b with
      | None => sync (ret (InputClosed, source))
      | Some item =>
          fun l '(s, w) =>
          let verdict :=
            if is_open s then try_finished (s, w) else (None, (s, w)) in
          match verdict with
          | (Some r, sw) => (Some (Ok (SwupdateFinished r, source)), (l, sw))
          | (None, sw) =>
              (await! f := send item in
               match f with
               | FeedClosed =>
                   await! r := finished_result in sync (ret (SwupdateFinished r, source))
               | _ => pump_to_swupdate fuel source
               end) l sw
          end
      end
  end.

(** ** The transfer invariant

    Whatever the order of feeds and task steps, the backend has received a
    prefix of the accepted blocks in order; while the queue is alive nothing is
    lost between the accepted blocks, the written bytes and the queue; and a
    drain that ended by end of stream has written everything. *)

Record backend_ok (b : Backend) : Prop := {
  bo_flow : bk_rx_open b = true -> concat (bk_log b) = bk_written b ++ concat (bk_queue b);
  bo_prefix : bk_written b `prefix_of` concat (bk_log b);
  bo_closed : bk_drain b = DrClosed ->
    bk_written b = concat (bk_log b) /\ bk_tx_open b = false /\ bk_rx_open b = false;
  bo_running : bk_drain b = DrRunning -> bk_rx_open b = true;
  bo_unconnected : bk_connected b = false -> bk_drain b = DrNotStarted /\ bk_written b = [];
  bo_connected : bk_connected b = true -> bk_drain b <> DrNotStarted;
  bo_live : bk_connected b = false -> bk_status b = StRunning -> bk_rx_open b = true;
  bo_cap : Z.of_nat (length (bk_queue b)) <= bk_cap b;
  bo_pos : 0 < bk_cap b;
}.

Lemma new_backend_ok conn cap : 0 < cap -> backend_ok (new_backend conn cap).
Proof. intros. split; simpl; try done. lia. Qed.

Lemma bk_set_tx_ok b : backend_ok b -> backend_ok (bk_set_tx false b).
Proof.
  intros []. split; simpl; try done.
  intros Hd. destruct (bo_closed0 Hd) as (? & ? & ?). auto.
Qed.

Lemma bk_set_recycle_ok v o b : backend_ok b -> backend_ok (bk_set_recycle v o b).
Proof. by intros []; split. Qed.

Lemma bk_end_status_ok s b :
  s <> StRunning -> backend_ok b -> backend_ok (bk_end_status s b).
Proof.
  intros Hs []. split; simpl; try done.
  - by destruct (bk_connected b).
  - intros H. destruct (bo_closed0 H) as (? & ? & ->). by rewrite andb_false_r.
  - intros H. rewrite (bo_running0 H). destruct (bk_connected b) eqn:E; [done|].
    destruct (bo_unconnected0 eq_refl) as [? _]. congruence.
  - destruct (bk_connected b); simpl; lia.
Qed.

Lemma chan_try_send_Ok b :
  chan_try_send b = PushedOk <-> bk_rx_open b = true /\ Z.of_nat (length (bk_queue b)) < bk_cap b.
Proof.
  unfold chan_try_send. destruct (bk_rx_open b); simpl; [|naive_solver].
  destruct (Z.leb_spec (bk_cap b) (Z.of_nat (length (bk_queue b)))); naive_solver lia.
Qed.

Lemma bk_push_ok item b :
  chan_try_send b = PushedOk -> backend_ok b -> backend_ok (bk_push item b).
Proof.
  intros [Erx Ecap]%chan_try_send_Ok []. split; simpl; try done.
  - intros _. rewrite !concat_app, (bo_flow0 Erx). simpl. by rewrite app_nil_r, app_assoc.
  - rewrite concat_app. by apply prefix_app_r.
  - intros H. destruct (bo_closed0 H) as (_ & _ & ?). congruence.
  - rewrite length_app. simpl. lia.
Qed.

(** The facts a running drain gives. *)
Lemma running_flow b :
  backend_ok b -> bk_drain b = DrRunning ->
  bk_rx_open b = true /\ bk_connected b = true /\
  concat (bk_log b) = bk_written b ++ concat (bk_queue b).
Proof.
  intros [] Hd. pose proof (bo_running0 Hd). repeat split; auto.
  destruct (bk_connected b); [done|]. destruct (bo_unconnected0 eq_refl). congruence.
Qed.

Lemma bstep_ok ev b b' : bstep ev b = Some b' -> backend_ok b -> backend_ok b'.
Proof.
  intros Hs Hb. destruct ev as [|e| |k| |j]; simpl in Hs.
  - case_matches_in Hs. destruct Hb. destruct (bo_unconnected0 E0) as [Hd Hw].
    split; simpl; try done. intros _. by apply bo_live0.
  - case_matches_in Hs. by apply bk_end_status_ok.
  - case_matches_in Hs. destruct (running_flow b Hb E) as (Hrx & Hc & Hflow).
    rewrite E0 in Hflow. simpl in Hflow. destruct Hb. rewrite E0 in bo_cap0.
    split; simpl in *; rewrite ?Hc, ?Hflow in *; try done; [|apply prefix_app; by apply prefix_app_r|lia].
    intros _. by rewrite app_assoc.
  - case_matches_in Hs. destruct (running_flow b Hb E) as (Hrx & Hc & Hflow).
    rewrite E0 in Hflow. simpl in Hflow. destruct Hb.
    split; simpl in *; rewrite ?Hc, ?Hflow in *; try done; [|lia].
    apply prefix_app, prefix_app_r. exists (drop k l). by rewrite take_drop.
  - case_matches_in Hs. destruct (running_flow b Hb E) as (Hrx & Hc & Hflow).
    rewrite E0 in Hflow. simpl in Hflow. rewrite app_nil_r in Hflow. destruct Hb.
    split; simpl in *; rewrite ?Hc, ?Hflow in *; try done; lia.
  - case_matches_in Hs. destruct Hb. split; simpl in *; rewrite ?E0 in *; try done.
Qed.

(** ** Invariants of transfers

    A property of one transfer that holds of a new one and is kept by every
    primitive that touches a transfer holds of every transfer, whatever the
    session does and however the background tasks interleave. [Q] restricts the
    blocks that are fed, [C] the capacities of the queues. *)

Class TransferInv (P : Backend -> Prop) (Q : block -> Prop) (C : Z -> Prop) := {
  ti_new conn cap : C cap -> P (new_backend conn cap);
  ti_set_tx b : P b -> P (bk_set_tx false b);
  ti_set_recycle v o b : P b -> P (bk_set_recycle v o b);
  ti_end_status s b : s <> StRunning -> P b -> P (bk_end_status s b);
  ti_push item b : Q item -> chan_try_send b = PushedOk -> P b -> P (bk_push item b);
  ti_step ev b b' : bstep ev b = Some b' -> P b -> P b';
}.

#[global] Instance backend_ok_inv : TransferInv backend_ok (fun _ => True) (fun cap => 0 < cap).
Proof.
  split; intros; [by apply new_backend_ok|by apply bk_set_tx_ok|by apply bk_set_recycle_ok|
    by apply bk_end_status_ok|by apply bk_push_ok|by eapply bstep_ok].
Qed.

Lemma w_alter_lookup i f w j :
  w_transfers (w_alter i f w) !! j =
  if decide (i = j) then f <$> w_transfers w !! j else w_transfers w !! j.
Proof.
  simpl. destruct (decide (i = j)) as [->|Hne].
  - by rewrite list_lookup_alter_eq.
  - by rewrite list_lookup_alter_ne.
Qed.

(** Any sequence of session operations interleaved with background events. *)
Inductive sop :=
| OpBuffer | OpOpen | OpTrySend (item : block) | OpEof | OpTryFinished | OpAbort
| OpReplace (p : SwupdateParams)
| OpEnv (ev : wevent).

Definition srun1 (op : sop) (sw : SW) : SW :=
  match op with
  | OpBuffer => (buffer sw).2
  | OpOpen => (open sw).2
  | OpTrySend item => (try_send item sw).2
  | OpEof => (eof sw).2
  | OpTryFinished => (try_finished sw).2
  | OpAbort => (abort sw).2
  | OpReplace p => (session_new p (s_max_block_size sw.1), drop_session sw.1 sw.2)
  | OpEnv ev => tick_sw ev sw
  end.

Definition srun (ops : list sop) (sw : SW) : SW := foldl (fun sw op => srun1 op sw) sw ops.

Section Preservation.
Context {P : Backend -> Prop} {Q : block -> Prop} {C : Z -> Prop} `{!TransferInv P Q C}.

Definition all_transfers (w : World) : Prop := Forall P (w_transfers w).

Definition sw_inv (sw : SW) : Prop :=
  all_transfers sw.2 /\ C (queue_capacity (s_max_block_size sw.1)).

Lemma all_alter i f w :
  (forall b, w_transfers w !! i = Some b -> P b -> P (f b)) ->
  all_transfers w -> all_transfers (w_alter i f w).
Proof.
  intros Hf Hw. apply Forall_lookup. intros j b. rewrite w_alter_lookup.
  destruct (decide (i = j)) as [->|]; [|apply (Forall_lookup_1 _ _ _ _ Hw)].
  intros (b0 & Hb0 & ->)%fmap_Some. apply Hf; [done|]. by eapply Forall_lookup_1.
Qed.

Lemma all_on_transfer h f w :
  (forall b, P b -> P (f b)) -> all_transfers w -> all_transfers (on_transfer h f w).
Proof. intros Hf Hw. destruct h; [|done]. apply all_alter; auto. Qed.

Lemma all_wstep ev w : all_transfers w -> all_transfers (wstep ev w).
Proof.
  intros Hw. destruct ev as [i ev|]; simpl.
  - apply all_alter; [|done]. intros b _ Hb.
    destruct (bstep ev b) eqn:E; simpl; [by eapply ti_step|done].
  - destruct (w_success_tasks w) as [|t ts]; [done|]. unfold on_update_success.
    by destruct (is_complete t).
Qed.

Lemma all_wsteps evs w : all_transfers w -> all_transfers (wsteps evs w).
Proof.
  unfold wsteps. revert w. induction evs as [|ev evs IH]; intros w Hw; simpl; [done|].
  by apply IH, all_wstep.
Qed.

Lemma drop_session_inv s w : all_transfers w -> all_transfers (drop_session s w).
Proof.
  intros H. unfold drop_session.
  apply all_on_transfer; [intros b Hb; by apply ti_set_recycle|].
  apply all_on_transfer; [intros b Hb; by apply ti_set_tx|done].
Qed.

Lemma drop_tx_inv : preserves sw_inv drop_tx.
Proof.
  apply preserves_modify. intros [s w] [H ?]. split; [|done].
  apply all_on_transfer; [apply ti_set_tx|done].
Qed.

Lemma buffer_inv : preserves sw_inv buffer.
Proof.
  intros [s w] [H ?]. split; [|done]. apply all_on_transfer; [|done].
  intros b. apply ti_set_recycle.
Qed.

Lemma open_inv : preserves sw_inv open.
Proof.
  intros [s w] [H HC]. unfold open. destruct (is_open s); [done|].
  destruct (reject_if_restart_pending w); [|done]. split; [|done]. apply Forall_app.
  split; [apply all_on_transfer; [intros b; apply ti_set_recycle|done]|]. constructor; [by apply ti_new|done].
Qed.

Lemma feed_inv item : Q item -> preserves sw_inv (feed item).
Proof.
  intros HQ [s w] H. unfold feed. destruct (transfer (s_tx s) w) as [b|] eqn:Eb; [|done].
  destruct (chan_try_send b) eqn:E; simpl; [|done|].
  - destruct H as [H ?]. split; [|done]. destruct (s_tx s) as [i|]; [|done].
    apply all_alter; [|done]. intros b' Hb'. simpl in Eb. simplify_eq. by apply ti_push.
  - by apply (drop_tx_inv (s, w)).
Qed.

Lemma try_send_inv item : Q item -> preserves sw_inv (try_send item).
Proof.
  intros HQ. apply preserves_bind; [|intros _; by apply feed_inv].
  intros [s w] H. unfold ensure_open. case_one; [done|]. by apply open_inv.
Qed.

Lemma settle_inv j : preserves sw_inv (settle j).
Proof.
  destruct j as [[|e]|msg]; simpl.
  1: apply preserves_modify; intros [s w] H; simpl; by destruct (s_update_type s).
  all: apply preserves_bind; [|intros; apply preserves_throw]; apply preserves_modify;
    by intros [s w].
Qed.

Lemma poll_status_inv sw : sw_inv sw -> sw_inv (poll_status sw).2.
Proof.
  destruct sw as [s w]. intros H. unfold poll_status.
  destruct (s_terminal s) as [[|]|]; [done|done|].
  destruct (transfer (s_status s) w) as [b|]; [|done].
  assert (forall j, sw_inv (settle j (set_status None s, w)).2) as Hs.
  { intros j. by apply settle_inv. }
  destruct (bk_status b) as [|j|]; [done| |].
  - specialize (Hs j). by destruct (settle j _).
  - specialize (Hs (JoinFailed "task was cancelled")). by destruct (settle _ _).
Qed.

Lemma abort_inv : preserves sw_inv abort.
Proof.
  unfold abort. repeat (apply preserves_bind; [|intros _]).
  - apply drop_tx_inv.
  - apply preserves_modify. intros [s w] [H ?]. split; [|done].
    apply all_on_transfer; [intros b; apply ti_set_recycle|done].
  - apply preserves_modify. intros [s w] [H ?]. split; [|done].
    apply all_on_transfer; [|done]. intros b Hb.
    destruct (bk_status b); [|done|done]. by apply ti_end_status.
  - apply preserves_modify. by intros [s w].
Qed.

Definition op_ok (op : sop) : Prop :=
  match op with OpTrySend item => Q item | _ => True end.

Lemma srun1_inv op sw : op_ok op -> sw_inv sw -> sw_inv (srun1 op sw).
Proof.
  intros Hop H. destruct op; simpl.
  - by apply buffer_inv.
  - by apply open_inv.
  - by apply try_send_inv.
  - by apply (drop_tx_inv sw).
  - by apply poll_status_inv.
  - by apply abort_inv.
  - destruct H. split; [by apply drop_session_inv|done].
  - destruct H. split; [by apply all_wstep|done].
Qed.

Lemma srun_inv ops sw : Forall op_ok ops -> sw_inv sw -> sw_inv (srun ops sw).
Proof.
  unfold srun. intros Hops. revert sw. induction Hops as [|op ops Hop _ IH]; intros sw H; simpl;
    [done|]. by apply IH, srun1_inv.
Qed.
End Preservation.

Arguments all_transfers : clear implicits.
Arguments sw_inv : clear implicits.

Abbreviation world_ok := (all_transfers backend_ok).

Lemma world_ok_lookup w i b : world_ok w -> w_transfers w !! i = Some b -> backend_ok b.
Proof. intros Hw Hb. by apply (Forall_lookup_1 _ _ _ _ Hw Hb). Qed.

#[export] Hint Resolve all_wstep all_wsteps drop_session_inv : gadget.

(** C7. Over every interleaving of session operations (queueing, aborting,
    replacing the session, polling the verdict) with the steps of the
    background tasks, each backend has received a prefix of the blocks its
    queue accepted, in order, its queue never holds more than its capacity, and
    once its writer was closed by end of stream it has received all of them. *)
Theorem transfer_in_order ops s w :
  world_ok w ->
  forall i b, w_transfers (srun ops (s, w)).2 !! i = Some b ->
    bk_written b `prefix_of` concat (bk_log b) /\
    Z.of_nat (length (bk_queue b)) <= bk_cap b /\
    (bk_drain b = DrClosed -> bk_written b = concat (bk_log b)).
Proof.
  intros Hw i b Hb.
  assert (sw_inv backend_ok (fun cap => 0 < cap) (srun ops (s, w))) as [H _].
  { apply (srun_inv (Q := fun _ => True)); [|split; [done|apply queue_capacity_pos]].
    apply Forall_forall. by intros []. }
  destruct (world_ok_lookup _ _ _ H Hb). repeat split; [done|done|].
  intros Hd. by destruct (bo_closed0 Hd).
Qed.

(** ** Memory held by a queue *)

Lemma queue_capacity_bytes bs :
  0 < bs ->
  TARGET_QUEUE_BYTES <= queue_capacity bs * bs <= Z.max (TARGET_QUEUE_BYTES + bs - 1) (2 * bs).
Proof.
  intros H. unfold queue_capacity. replace (Z.max bs 1) with bs by lia.
  pose proof (div_ceil_bounds TARGET_QUEUE_BYTES bs H). nia.
Qed.

Definition queued_bytes (b : Backend) : nat := length (concat (bk_queue b)).

Record bounded (bs : Z) (b : Backend) : Prop := {
  bd_cap : bk_cap b = queue_capacity bs;
  bd_len : Z.of_nat (length (bk_queue b)) <= bk_cap b;
  bd_items : Forall (fun item : block => Z.of_nat (length item) <= bs) (bk_queue b);
}.

#[global] Instance bounded_inv bs :
  TransferInv (bounded bs) (fun item => Z.of_nat (length item) <= bs)
    (fun cap => cap = queue_capacity bs).
Proof.
  split.
  - intros conn cap ->. split; simpl; [done|pose proof (queue_capacity_pos bs); lia|constructor].
  - intros b []; by split.
  - intros v o b []; by split.
  - intros s b _ []; split; simpl; [done|destruct (bk_connected b); simpl; lia|].
    by destruct (bk_connected b).
  - intros item b Hi [_ Hlt]%chan_try_send_Ok []. split; simpl; [done| |].
    + rewrite length_app. simpl. lia.
    + apply Forall_app. by split; [|constructor].
  - intros ev b b' Hs []. destruct ev; simpl in Hs; case_matches_in Hs; split; simpl; try done;
      rewrite ?E0 in *; simpl in *; try lia; try (by inversion bd_items0).
    all: try by destruct (bk_connected b).
Qed.

Lemma queued_bytes_le bs (q : list block) :
  Forall (fun item : block => Z.of_nat (length item) <= bs) q ->
  Z.of_nat (length (concat q)) <= Z.of_nat (length q) * bs.
Proof.
  induction 1 as [|x q Hx _ IH]; simpl; [lia|]. rewrite length_app. lia.
Qed.

(** C39. With blocks of at most [max_block_size] bytes, the firmware buffered in
    a transfer's queue stays within the larger of the 2 MiB target plus one
    block and two blocks, whatever the session and its tasks do. *)
Theorem queue_memory_bound ops p bs w :
  0 < bs -> w_transfers w = [] ->
  Forall (fun op => match op with OpTrySend item => Z.of_nat (length item) <= bs | _ => True end) ops ->
  forall i b, w_transfers (srun ops (session_new p bs, w)).2 !! i = Some b ->
    Z.of_nat (queued_bytes b) <= Z.max (TARGET_QUEUE_BYTES + bs - 1) (2 * bs).
Proof.
  intros Hbs Hw Hops i b Hb.
  assert (sw_inv (bounded bs) (fun cap => cap = queue_capacity bs)
    (srun ops (session_new p bs, w))) as [H _].
  { apply (srun_inv (Q := fun item => Z.of_nat (length item) <= bs)).
    - revert Hops. apply Forall_impl. by intros [].
    - split; [|done]. unfold all_transfers. simpl. rewrite Hw. constructor. }
  destruct (Forall_lookup_1 _ _ _ _ H Hb) as [Hc Hl Hi].
  pose proof (queued_bytes_le bs _ Hi). pose proof (queue_capacity_bytes bs Hbs).
  unfold queued_bytes. nia.
Qed.

(** A system whose boot script reports side [a] and no removable boot medium. *)
Definition sample_env : SysEnv :=
  {| fs_read := fun _ => None; boot_rootfs := Ok []; fw_printenv := fun _ => None;
     getrandom6 := []; to_json := fun _ => []; strerror := fun _ => "" |}.

Definition idle_world (env : SysEnv) : World :=
  {| w_env := env; w_transfers := []; w_success_tasks := []; w_restart_pending := false;
     w_reboots := 0 |}.

Definition demo_ops : list sop :=
  [OpTrySend (bs "ab"); OpEnv (WBackend 0 EvConnectOk); OpTrySend (bs "cd");
   OpEnv (WBackend 0 EvWrite); OpEof; OpEnv (WBackend 0 EvWrite); OpEnv (WBackend 0 EvEof)].

Definition demo_sw : SW := srun demo_ops (session_new default_params 4, idle_world sample_env).

Lemma transfer_in_order_witness :
  exists b, w_transfers demo_sw.2 !! 0%nat = Some b /\ bk_drain b = DrClosed /\
    bk_written b = bs "abcd" /\ bk_written b = concat (bk_log b).
Proof.
  eexists. split; [vm_compute; reflexivity|]. split; [reflexivity|]. split; [reflexivity|].
  eapply (transfer_in_order demo_ops (session_new default_params 4) (idle_world sample_env)
    (Forall_nil_2 _) 0%nat); [vm_compute; reflexivity|reflexivity].
Defined.

Lemma queue_memory_bound_witness :
  exists b, w_transfers (srun [OpTrySend (bs "ab")] (session_new default_params 4,
      idle_world sample_env)).2 !! 0%nat = Some b /\
    Z.of_nat (queued_bytes b) = 2 /\
    Z.of_nat (queued_bytes b) <= Z.max (TARGET_QUEUE_BYTES + 4 - 1) (2 * 4).
Proof.
  eexists. split; [vm_compute; reflexivity|]. split; [reflexivity|].
  eapply (queue_memory_bound [OpTrySend (bs "ab")] default_params 4 (idle_world sample_env));
    [lia|reflexivity|apply Forall_singleton; vm_compute; discriminate|instantiate (1 := 0%nat); vm_compute; reflexivity].
Defined.

(** ** The update target *)

Definition other_side (side : string) : string :=
  if bool_decide (side = "a") then "b" else "a".

(** C38. Opening a session on a dual-slot system asks SWUpdate to install into
    the slot the system is not running from, in the configured image mode; on
    an SD card or initramfs it streams a complete update into [fw_update]. *)
Theorem open_targets_inactive_slot s w :
  is_open s = false -> w_restart_pending w = false ->
  let i := boot_info (w_env w) in
  (forall mode, default "full" (sp_image_mode (s_params s)) = mode ->
   is_single_slot i = false -> current_side i = "a" \/ current_side i = "b" ->
   exists req cap, (open (s, w)).2.2 = w_spawn (new_backend (Ipc req) cap) (close_recycle s w) /\
     ir_running_mode req = mode +:+ "-" +:+ other_side (current_side i) /\
     ir_running_mode req <> mode +:+ "-" +:+ current_side i) /\
  (is_single_slot i = true ->
   exists cap, (open (s, w)).2.2 =
     w_spawn (new_backend (Pipe ["-x"; "r"; "-m"; "complete"; "-"]) cap) (close_recycle s w)).
Proof.
  intros Ho Hr i. unfold open, reject_if_restart_pending. rewrite Ho, Hr. simpl. split.
  - intros mode Hm Hs Hside. unfold connect_backend, use_pipe_mode, resolve.
    fold i. rewrite Hs. change (is_running_on_sd i || is_running_on_initramfs i)
      with (is_single_slot i). rewrite Hs. eexists _, _. split; [reflexivity|]. simpl.
    rewrite Hm. unfold inactive_side, current_side_option, other_side.
    destruct Hside as [-> | ->]; simpl; (split; [done|]);
      by intros [=]%(inj (String.append mode)).
  - intros Hs. unfold connect_backend, use_pipe_mode, resolve. fold i. rewrite Hs.
    change (is_running_on_sd i || is_running_on_initramfs i) with (is_single_slot i).
    rewrite Hs. eexists. reflexivity.
Qed.

Definition side_a_env : SysEnv :=
  {| fs_read := fun _ => None;
     boot_rootfs := Ok (bs "rootDevType=mmc" ++ [Byte.x0a] ++ bs "currentSide=a" ++ [Byte.x0a]);
     fw_printenv := fun _ => None; getrandom6 := []; to_json := fun _ => [];
     strerror := fun _ => "" |}.

Lemma open_targets_inactive_slot_witness :
  exists req cap, (open (session_new default_params 4096, idle_world side_a_env)).2.2
      = w_spawn (new_backend (Ipc req) cap) (idle_world side_a_env) /\
    ir_running_mode req = "full-b".
Proof.
  destruct (open_targets_inactive_slot (session_new default_params 4096) (idle_world side_a_env)
    eq_refl eq_refl) as [H _].
  destruct (H "full" eq_refl ltac:(vm_compute; reflexivity) ltac:(left; vm_compute; reflexivity))
    as (req & cap & Heq & Hm & _).
  exists req, cap. split; [exact Heq|]. rewrite Hm. vm_compute. reflexivity.
Defined.

(** ** The restart gate *)

Definition gate (w : World) : bool * nat := (w_restart_pending w, length (w_transfers w)).

Lemma gate_on_transfer h f w : gate (on_transfer h f w) = gate w.
Proof. destruct h; [|done]. unfold gate. simpl. by rewrite length_alter. Qed.

Lemma gate_settle j s w : gate (settle j (s, w)).2.2 = gate w.
Proof.
  destruct j as [[|e]|msg]; [|done|done]. simpl. by destruct (s_update_type s).
Qed.

Lemma gate_open s w : w_restart_pending w = true -> gate (open (s, w)).2.2 = gate w.
Proof.
  intros H. unfold open, reject_if_restart_pending. rewrite H. by destruct (is_open s).
Qed.

Lemma gate_feed item s w : gate (feed item (s, w)).2.2 = gate w.
Proof.
  unfold feed. destruct (transfer (s_tx s) w) as [b|]; [|done].
  destruct (chan_try_send b); [apply gate_on_transfer|done|apply gate_on_transfer].
Qed.

Lemma gate_try_send item s w :
  w_restart_pending w = true -> gate (try_send item (s, w)).2.2 = gate w.
Proof.
  intros H. unfold try_send, bind, ensure_open.
  destruct (isSome _ || _ || _); [apply gate_feed|].
  pose proof (gate_open s w H) as Hg. destruct (open (s, w)) as [[[]|e] [s' w']];
    cbn [fst snd] in *; [|done]. by rewrite gate_feed.
Qed.

Lemma gate_wstep ev w : w_restart_pending w = true -> gate (wstep ev w) = gate w.
Proof.
  intros H. destruct ev as [i ev|]; simpl; [apply (gate_on_transfer (Some i))|].
  destruct (w_success_tasks w) as [|t ts]; [done|]. unfold on_update_success, gate.
  destruct (is_complete t); simpl; by rewrite ?H.
Qed.

Lemma gate_poll_status s w : gate (poll_status (s, w)).2.2 = gate w.
Proof.
  unfold poll_status. destruct (s_terminal s) as [[|]|]; [done|done|].
  destruct (transfer (s_status s) w) as [b|]; [|done]. destruct (bk_status b) as [|j|]; [done| |].
  - pose proof (gate_settle j (set_status None s) w). by destruct (settle j _).
  - pose proof (gate_settle (JoinFailed "task was cancelled") (set_status None s) w).
    by destruct (settle _ _).
Qed.

Lemma gate_srun1 op sw :
  w_restart_pending sw.2 = true -> gate (srun1 op sw).2 = gate sw.2.
Proof.
  destruct sw as [s w]. simpl. intros H. destruct op; simpl.
  - apply gate_on_transfer.
  - by apply gate_open.
  - by apply gate_try_send.
  - apply gate_on_transfer.
  - apply gate_poll_status.
  - by rewrite !gate_on_transfer.
  - unfold drop_session. by rewrite !gate_on_transfer.
  - by apply gate_wstep.
Qed.

Lemma gate_srun ops sw :
  w_restart_pending sw.2 = true -> gate (srun ops sw).2 = gate sw.2.
Proof.
  unfold srun. revert sw. induction ops as [|op ops IH]; intros sw H; simpl; [done|].
  pose proof (gate_srun1 op sw H) as Hg. rewrite IH; [done|].
  unfold gate in Hg. simplify_eq. congruence.
Qed.

(** *** The success task

    The tasks spawned for observed successes run in the order in which they were
    spawned, each at some later time. *)

(** What the operations of a session do to the tasks and to the reboots. *)
Definition tasks (w : World) : list EffectiveUpdateType * nat := (w_success_tasks w, w_reboots w).

Lemma tasks_on_transfer h f w : tasks (on_transfer h f w) = tasks w.
Proof. by destruct h. Qed.

Lemma tasks_settle j s w :
  exists new, tasks (settle j (s, w)).2.2 = (w_success_tasks w ++ new, w_reboots w).
Proof.
  destruct j as [[|e]|msg]; [|by exists []; rewrite app_nil_r..]. simpl.
  destruct (s_update_type s) as [t|]; [by exists [t]|exists []; by rewrite app_nil_r].
Qed.

Lemma tasks_open s w : tasks (open (s, w)).2.2 = tasks w.
Proof.
  unfold open. destruct (is_open s); [done|]. destruct (reject_if_restart_pending w); [|done].
  unfold tasks, close_recycle. cbn. by destruct (s_recycle_rx s).
Qed.

Lemma tasks_feed item s w : tasks (feed item (s, w)).2.2 = tasks w.
Proof.
  unfold feed. destruct (transfer (s_tx s) w) as [b|]; [|done].
  destruct (chan_try_send b); [apply tasks_on_transfer|done|apply tasks_on_transfer].
Qed.

Lemma tasks_try_send item s w : tasks (try_send item (s, w)).2.2 = tasks w.
Proof.
  unfold try_send, bind, ensure_open. destruct (isSome _ || _ || _); [apply tasks_feed|].
  pose proof (tasks_open s w) as Ho. destruct (open (s, w)) as [[[]|e] [s' w']]; cbn [fst snd] in *; [|done].
  by rewrite tasks_feed.
Qed.

Lemma tasks_poll_status s w :
  exists new, tasks (poll_status (s, w)).2.2 = (w_success_tasks w ++ new, w_reboots w).
Proof.
  unfold poll_status. assert (exists new, tasks w = (w_success_tasks w ++ new, w_reboots w)) as H0
    by (exists []; by rewrite app_nil_r).
  destruct (s_terminal s) as [[|]|]; [done|done|].
  destruct (transfer (s_status s) w) as [b|]; [|done]. destruct (bk_status b) as [|j|]; [done| |].
  - pose proof (tasks_settle j (set_status None s) w). by destruct (settle j _).
  - pose proof (tasks_settle (JoinFailed "task was cancelled") (set_status None s) w). by destruct (settle _ _).
Qed.

(** The runs of success tasks among the operations. *)
Definition is_success_run (op : sop) : bool := match op with OpEnv WSuccess => true | _ => false end.

Fixpoint success_runs (ops : list sop) : nat :=
  match ops with
  | [] => 0
  | op :: ops => (if is_success_run op then 1 else 0) + success_runs ops
  end.

Lemma srun1_tasks op sw :
  is_success_run op = false ->
  exists new, tasks (srun1 op sw).2 = (w_success_tasks sw.2 ++ new, w_reboots sw.2).
Proof.
  destruct sw as [s w]. intros Hop.
  assert (forall w', tasks w' = tasks w -> exists new, tasks w' = (w_success_tasks w ++ new, w_reboots w)) as H0.
  { intros w' ->. exists []. by rewrite app_nil_r. }
  destruct op as [| | | | | | |[i ev|]]; simpl; try done.
  - apply H0, tasks_on_transfer.
  - apply H0, tasks_open.
  - apply H0, tasks_try_send.
  - apply H0, tasks_on_transfer.
  - apply tasks_poll_status.
  - apply H0. by rewrite !tasks_on_transfer.
  - apply H0. unfold drop_session. by rewrite !tasks_on_transfer.
  - by apply H0.
Qed.

Lemma srun1_reboots op sw : (w_reboots sw.2 <= w_reboots (srun1 op sw).2)%nat.
Proof.
  destruct (is_success_run op) eqn:E.
  - destruct sw as [s w], op as [| | | | | | |[]]; try done. simpl.
    destruct (w_success_tasks w) as [|t ts]; [done|]. unfold on_update_success. destruct (is_complete t); simpl; lia.
  - destruct (srun1_tasks op sw E) as [new [= _ ->]]. done.
Qed.

Lemma srun_reboots ops sw : (w_reboots sw.2 <= w_reboots (srun ops sw).2)%nat.
Proof.
  revert sw. induction ops as [|op ops IH]; intros sw; [done|].
  change (srun (op :: ops) sw) with (srun ops (srun1 op sw)). pose proof (srun1_reboots op sw). specialize (IH (srun1 op sw)). lia.
Qed.

(** When the task of a slot update has run, the gate is closed. *)
Lemma task_closes_gate mode ops sw ts post :
  w_success_tasks sw.2 = ts ++ Slot mode :: post -> (length ts < success_runs ops)%nat ->
  w_restart_pending (srun ops sw).2 = true /\ (w_reboots sw.2 < w_reboots (srun ops sw).2)%nat.
Proof.
  revert sw ts post. induction ops as [|op ops IH]; intros sw ts post Ht Hn; [simpl in Hn; lia|].
  change (srun (op :: ops) sw) with (srun ops (srun1 op sw)). cbn [success_runs] in Hn.
  pose proof (srun1_reboots op sw) as Hle. destruct (is_success_run op) eqn:E.
  - destruct sw as [s w], op as [| | | | | | |[]]; try done. cbn [srun1 tick_sw wstep fst snd] in *.
    unfold tick_sw in *. cbn [fst snd wstep] in *. rewrite Ht in *. destruct ts as [|t ts]; cbn [app] in *.
    + set (w1 := on_update_success (Slot mode) (w_pop_success w)).
      pose proof (gate_srun ops (s, w1) eq_refl) as Hg. pose proof (srun_reboots ops (s, w1)) as Hr.
      assert (w_reboots w1 = S (w_reboots w)) as Hw1 by done.
      unfold gate in Hg. cbn [snd] in Hr. split; [by simplify_eq|]. cbn [snd fst] in *. lia.
    + destruct (IH (s, on_update_success t (w_pop_success w)) ts post) as [Hp Hr]; [|simpl in Hn; lia|].
      { cbn [snd]. unfold on_update_success. destruct (is_complete t); cbn; by rewrite Ht. }
      split; [done|]. cbn [fst snd] in *. lia.
  - destruct (srun1_tasks op sw E) as [new [= Ht' _]]. rewrite Ht, <- app_assoc in Ht'.
    destruct (IH _ _ _ Ht' Hn) as [Hp Hr]. split; [done|]. lia.
Qed.

(** C37. Once a slot update has succeeded and its success was observed, its
    success task is on its way; from the moment it has run, whatever else the
    session and the background did in the meantime, a reboot is scheduled and no
    sequence of session operations and background events ever starts another
    transfer, in this session or in one that replaces it. (Between the
    observation and that moment the gate is still open.) *)
Theorem success_closes_gate s w i b mode before after :
  s_terminal s = None -> s_status s = Some i -> w_transfers w !! i = Some b ->
  bk_status b = StDone (Returned (Ok tt)) -> s_update_type s = Some (Slot mode) ->
  (length (w_success_tasks w) < success_runs before)%nat ->
  let sw := srun (OpTryFinished :: before) (s, w) in
  (w_reboots w < w_reboots sw.2)%nat /\
  w_restart_pending (srun after sw).2 = true /\
  length (w_transfers (srun after sw).2) = length (w_transfers sw.2).
Proof.
  intros Ht Hs Hb Hd Hu Hn sw.
  change sw with (srun before (srun1 OpTryFinished (s, w))).
  assert (srun1 OpTryFinished (s, w) = (set_terminal (Some (Ok tt)) (set_status None s), w_add_success (Slot mode) w)) as ->.
  { simpl. unfold try_finished, poll_status. rewrite Ht, Hs. simpl. rewrite Hb. simpl. rewrite Hd. simpl. by rewrite Hu. }
  destruct (task_closes_gate mode before (set_terminal (Some (Ok tt)) (set_status None s), w_add_success (Slot mode) w)
    (w_success_tasks w) [] eq_refl Hn) as [Hp Hr]. split; [exact Hr|].
  pose proof (gate_srun after _ Hp) as Hg. unfold gate in Hg. rewrite Hp in Hg. by simplify_eq.
Qed.

(** The state after a slot update's data was accepted and the backend finished. *)
Definition verdict_sw : SW :=
  srun [OpTrySend (bs "ab"); OpEnv (WBackend 0 EvConnectOk);
        OpEnv (WBackend 0 (EvStatus (Returned (Ok tt))))]
    (session_new default_params 4, idle_world side_a_env).

Lemma success_closes_gate_witness :
  let sw := srun [OpTryFinished; OpAbort; OpEnv WSuccess] (verdict_sw.1, verdict_sw.2) in
  let later := srun [OpReplace default_params; OpTrySend (bs "x")] sw in
  (w_reboots verdict_sw.2 < w_reboots sw.2)%nat /\
  w_restart_pending later.2 = true /\
  length (w_transfers later.2) = length (w_transfers sw.2).
Proof.
  eapply (success_closes_gate verdict_sw.1 verdict_sw.2 0%nat _ "full-b" [OpAbort; OpEnv WSuccess]);
    try (vm_compute; reflexivity).
Defined.

(** The gate closes when the task runs and not when the success is observed: a
    session that is replaced in between can still open a transfer. *)
Example window_before_the_gate :
  let sw := srun [OpTryFinished; OpReplace default_params; OpTrySend (bs "x"); OpEnv WSuccess] verdict_sw in
  length (w_transfers sw.2) = 2%nat /\ w_restart_pending sw.2 = true.
Proof. vm_compute. done. Qed.
