(* ===== verification/Transport.v ===== *)
(** * The tasks of a transfer

    Models the programs behind the background events of [Session]: the two
    transports (crates/summit-usbgadget-swupdate/src/ipc.rs and pipe.rs), the
    status task and the drain task of stream.rs, with the SWUpdate client of
    [SwuAsync] on its sockets and the [fw_update] child. A transfer is the shared
    [Backend] (the channels) and an [Engine] (the futures of its tasks); a task
    step runs the code up to its next interaction with the channels and yields
    the event of [Session] it amounts to. The theorems show that these events are
    always enabled, so that every theorem about [Session] holds of the real
    tasks, that the control socket carries the request and then the image, and
    that every connected transfer gets its verdict in time. *)

From stdpp Require Import relations.
From S2P Require Import Prelude Io Bytes SysInfo SwuProto SwuSocket SwuAsync Session.

(** ** The transports *)

(** Where the firmware goes, and how the result is observed. The pipe of a child
    is a byte sink like a socket nothing arrives on. *)
Record TransportSpec := {
  ts_writer : Stream;
  ts_status : SwupdateParams -> T (io_result unit);
}.

(** What spawning [fw_update] gives: an error, or a child with its standard
    input, which takes so many bytes, and its end, counted from the spawn. *)
Inductive Spawn :=
| SpawnFailed (e : io_error)
| Spawned (stdin : option (option (nat * option io_error))) (exit : option (Z * ChildWait)).

Definition timeout_ms (p : SwupdateParams) : Z := 1000 * sp_timeout_secs p.

Section Transport.
Context (sys : SysEnv) (env : SocketEnv) (packed : bool) (spawn_child : list string -> Spawn).

(** [child.wait()] of a child that ends at [exit]. *)
Definition child_wait (exit : option (Z * ChildWait)) : T ChildWait :=
  match exit with
  | Some (t, w) => wait! _ := wait_until t in tret w
  | None => hang
  end.

Definition pipe_transport (args : list string) : T (io_result TransportSpec) :=
  wait! t := clock in
  tret match spawn_child args with
       | SpawnFailed e => Err (other ("fw_update spawn failed: " +:+ display sys e))
       | Spawned None _ => Err (other "failed to open fw_update stdin")
       | Spawned (Some room) exit =>
           Ok {| ts_writer := fresh_stream t [] room;
                 ts_status := fun params =>
                   wait! w := timeout (timeout_ms params)
                     (child_wait ((fun p => (t + p.1, p.2)) <$> exit)) in
                   tret (pipe_status w) |}
       end.

(** The wait for the verdict: its loop is given the fuel it needs. *)
Definition watch_progress (params : SwupdateParams) : T (io_result unit) := fun dl c =>
  (wait! r := await_progress_result_with env packed (S (budget (dials c))) (timeout_ms params) in
   tret (map_err (fun err => normalize_ipc_error sys err "wait") r)) dl c.

Definition ipc_transport (request : InstallRequest) : T (io_result TransportSpec) :=
  wait! r := inst_start_request env request in
  tret match r with
       | Err e => Err (other ("SWUpdate inst_start failed: " +:+ error_display sys e))
       | Ok conn => Ok {| ts_writer := conn; ts_status := watch_progress |}
       end.

(** The connect future of a transfer. *)
Definition connect_future (conn : Connection) : T (io_result TransportSpec) :=
  match conn with
  | Pipe args => pipe_transport args
  | Ipc request => ipc_transport request
  end.

(** ** The tasks (stream.rs) *)

(** What the status task is doing. *)
Inductive Program := PConnect | PStatus (status : T (io_result unit)) | PDone.

(** The writer: not made yet, in the drain task's hands, shut down by it at the
    end of stream, or dropped after an error. *)
Inductive Writer := WNone | WOpen (s : Stream) | WShut (s : Stream) | WDropped (s : Stream).

Record Engine := {
  en_client : Client;
  en_program : Program;
  en_writer : Writer;
}.

(** [spawn]: both futures exist at once, nothing has run. *)
Definition engine_new (c : Client) : Engine :=
  {| en_client := c; en_program := PConnect; en_writer := WNone |}.

Inductive task := TaskStatus | TaskDrain.

(** The status task runs to its next event: the connection, then the verdict.
    [None]: it is waiting, was aborted or has ended. *)
Definition run_status (params : SwupdateParams) (b : Backend) (e : Engine) : option (bevent * Engine) :=
  match bk_status b, en_program e with
  | StRunning, PConnect =>
      match connect_future (bk_conn b) None (en_client e) with
      | (Done (Ok spec), c) =>
          Some (EvConnectOk, {| en_client := c; en_program := PStatus (ts_status spec params);
                                en_writer := WOpen (ts_writer spec) |})
      | (Done (Err err), c) =>
          Some (EvConnectErr err, {| en_client := c; en_program := PDone; en_writer := en_writer e |})
      | _ => None
      end
  | StRunning, PStatus status =>
      match status None (en_client e) with
      | (Done r, c) =>
          Some (EvStatus (Returned r), {| en_client := c; en_program := PDone; en_writer := en_writer e |})
      | _ => None
      end
  | _, _ => None
  end.

Definition set_writer (w : Writer) (e : Engine) : Engine :=
  {| en_client := en_client e; en_program := en_program e; en_writer := w |}.

(** [drain_data], one turn of its loop. The result of the shutdown is ignored. *)
Definition run_drain (b : Backend) (e : Engine) : option (bevent * Engine) :=
  match en_writer e, bk_queue b with
  | WOpen s, buf :: _ =>
      match (write_all buf s None (en_client e)).1 with
      | Done (Ok _, s') => Some (EvWrite, set_writer (WOpen s') e)
      | Done (Err _, s') =>
          Some (EvWriteErr (length (sk_out s') - length (sk_out s)), set_writer (WDropped s') e)
      | _ => None
      end
  | WOpen s, [] => if bk_tx_open b then None else Some (EvEof, set_writer (WShut s) e)
  | _, _ => None
  end.

Definition run_task (params : SwupdateParams) (k : task) : Backend -> Engine -> option (bevent * Engine) :=
  match k with TaskStatus => run_status params | TaskDrain => run_drain end.

(** ** A transfer: its tasks and the session that feeds it *)

(** What a session does to a transfer it holds. *)
Inductive session_op : Backend -> Backend -> Prop :=
| op_push item b : bk_tx_open b = true -> chan_try_send b = PushedOk -> session_op b (bk_push item b)
| op_eof b : session_op b (bk_set_tx false b)
| op_recycle v o b : session_op b (bk_set_recycle v o b)
| op_abort b : bk_status b = StRunning -> session_op b (bk_end_status StAborted b).

Inductive tstep (params : SwupdateParams) : Backend * Engine -> Backend * Engine -> Prop :=
| tstep_task k b e ev e' b' :
    run_task params k b e = Some (ev, e') -> bstep ev b = Some b' -> tstep params (b, e) (b', e')
| tstep_session b e b' : session_op b b' -> tstep params (b, e) (b', e).

(** Everything a transfer opened on [conn] can come to. *)
Definition transfers (params : SwupdateParams) (conn : Connection) (cap : Z) (c : Client)
    : Backend * Engine -> Prop := rtc (tstep params) (new_backend conn cap, engine_new c).

(** ** Coherence of the engine with the shared state *)

(** What goes to the backend before the image. *)
Definition preamble (conn : Connection) : option (list byte) :=
  match conn with Pipe _ => Some [] | Ipc request => ok (encode request) end.

(** The bytes on the writer: the preamble and what the drain task wrote. *)
Definition carries_image (b : Backend) (s : Stream) : Prop :=
  exists pre, preamble (bk_conn b) = Some pre /\ sk_out s = pre ++ bk_written b.

(** A verdict that comes by [params]'s timeout, however the backend behaves. *)
Definition timely (params : SwupdateParams) (st : T (io_result unit)) (c : Client) : Prop :=
  exists r c', st None c = (Done r, c') /\ now c <= now c' <= now c + timeout_ms params.

Record coherent (params : SwupdateParams) (b : Backend) (e : Engine) : Prop := {
  co_ok : backend_ok b;
  co_writer :
    match en_writer e with
    | WNone => bk_drain b = DrNotStarted /\ bk_connected b = false
    | WOpen s => bk_drain b = DrRunning /\ carries_image b s
    | WShut s => bk_drain b = DrClosed /\ carries_image b s
    | WDropped s => bk_drain b = DrStopped /\ carries_image b s
    end;
  co_program : bk_status b = StRunning ->
    match en_program e with
    | PConnect => bk_connected b = false
    | PStatus st => bk_connected b = true /\ timely params st (en_client e) /\
        match bk_conn b with Ipc _ => st = watch_progress params | Pipe _ => True end
    | PDone => False
    end;
}.

Lemma preamble_encoded request pre : preamble (Ipc request) = Some pre -> encode request = Ok pre.
Proof. cbn [preamble]. destruct (encode request); [by intros [= ->]|done]. Qed.

(** *** The pieces *)

Lemma write_all_out data s c o :
  (write_all data s None c).1 = Done o ->
  match o with
  | (Ok _, s') => sk_out s' = sk_out s ++ data
  | (Err _, s') => sk_out s' = sk_out s ++ take (length (sk_out s') - length (sk_out s)) data
  end.
Proof.
  unfold write_all. destruct (sk_room s) as [[n fate]|]; [|by intros [= <-]].
  case_match; [by intros [= <-]|]. destruct (room_fate s fate); [|done]. intros [= <-]. cbn [sk_out sk_set_out].
  rewrite length_app, Nat.add_comm, Nat.add_sub, length_take. f_equal.
  destruct (Nat.min_spec n (length data)) as [[? ->]|[? ->]]; [done|]. by rewrite !take_ge by lia.
Qed.

Lemma read_exact_from_out retry n s acc l dl c r s' c' :
  read_exact_from retry s n acc l dl c = (Done (r, s'), c') -> sk_out s' = sk_out s.
Proof.
  revert n acc c. induction l as [|[t a] l IH]; intros [|n] acc c; cbn [read_exact_from]; unfold tbind, tret.
  1, 3: by intros [= _ <- _].
  - destruct (wait_arrival s None dl c) as [[x| |] c1]; [|done..]. destruct x; by intros [= _ <- _].
  - destruct (wait_arrival s (Some t) dl c) as [[x| |] c1]; [|done..].
    destruct x as [_|e]; [|by intros [= _ <- _]].
    destruct a as [b| |e]; [case_match; [apply IH|]| |case_match; [apply IH|]]; by intros [= _ <- _].
Qed.

(** Whatever SWUpdate answers, a connection is handed over with exactly the
    request sent. *)
Lemma inst_start_out request dl c s c' :
  inst_start_request env request dl c = (Done (Ok s), c') -> ok (encode request) = Some (sk_out s).
Proof.
  unfold inst_start_request, tebind, tbind, tret. destruct (encode request) as [frame|]; [|done].
  unfold connect_ctrl, tbind, tret.
  destruct (connect (ctrl_socket_path env) dl c) as [[r| |] c1] eqn:Ec; [|done..].
  destruct r as [s0|]; [|done]. cbn [map_err].
  assert (sk_out s0 = []) as Hs0.
  { revert Ec. unfold connect. repeat case_match; intros [=]; by subst. }
  unfold write_message, tbind, tret. destruct (write_all frame s0 dl c1) as [[[r s1]| |] c2] eqn:Ew; [|done..].
  destruct r as [?|]; [|done]. cbn [map_err rbind].
  assert (sk_out s1 = frame) as Hs1.
  { revert Ew. unfold write_all, tret, hang.
    repeat case_match; intros Ew; simplify_eq; cbn; by rewrite Hs0. }
  unfold read_message, read_exact, tbind, tret, stream_read_exact.
  destruct (read_exact_from false s1 IPC_SIZE [] (sk_in s1) dl c2) as [[[r s2]| |] c3] eqn:Er; [|done..].
  apply read_exact_from_out in Er. destruct r as [reply|]; [|by case_bool_decide].
  unfold expect_ack. case_match; [done|]. intros [= <- _]. cbn. by rewrite Er, Hs1.
Qed.

Lemma watch_progress_timely params c :
  0 <= sp_timeout_secs params -> timely params (watch_progress params) c.
Proof.
  intros Ht. destruct (progress_in_time env packed (S (budget (dials c))) (timeout_ms params) c)
    as (r & c' & E & Hn & _); [unfold timeout_ms; lia|lia|].
  unfold timely, watch_progress, tbind, tret. rewrite E. by eexists _, _.
Qed.

Lemma child_timely params exit c :
  0 <= sp_timeout_secs params ->
  timely params (wait! w := timeout (timeout_ms params) (child_wait exit) in tret (pipe_status w)) c.
Proof.
  intros Ht. assert (0 <= timeout_ms params) by (unfold timeout_ms; lia).
  unfold timely, tbind, tret, timeout, child_wait.
  destruct exit as [[t w]|]; unfold tbind, wait_until, hang, tret.
  - destruct (Z.ltb_spec (now c + timeout_ms params) t); [rewrite Z.leb_refl|];
      (eexists _, _; split; [done|]; cbn; lia).
  - rewrite Z.leb_refl. eexists _, _. split; [done|]. cbn. lia.
Qed.

(** What the connect future hands over. *)
Lemma connect_future_spec params conn c spec c' :
  0 <= sp_timeout_secs params -> connect_future conn None c = (Done (Ok spec), c') ->
  preamble conn = Some (sk_out (ts_writer spec)) /\ timely params (ts_status spec params) c' /\
  match conn with Ipc _ => ts_status spec params = watch_progress params | Pipe _ => True end.
Proof.
  intros Ht. destruct conn as [args|request]; cbn [connect_future preamble].
  - unfold pipe_transport, tbind, tret, clock. destruct (spawn_child args) as [|[room|] exit]; [done| |done].
    intros [= <- <-]. split; [done|]. split; [by apply child_timely|done].
  - unfold ipc_transport, tbind, tret.
    destruct (inst_start_request env request None c) as [[r| |] c1] eqn:E; [|done..].
    destruct r as [s|]; [|done]. intros [= <- <-]. split; [by eapply inst_start_out|].
    split; [by apply watch_progress_timely|done].
Qed.

(** *** Every step of a task is an event that can happen, and keeps coherence *)

Lemma run_status_step params b e ev e' :
  0 <= sp_timeout_secs params -> coherent params b e -> run_status params b e = Some (ev, e') ->
  exists b', bstep ev b = Some b' /\ coherent params b' e'.
Proof.
  intros Ht [Hok Hw Hp] Hr. unfold run_status in Hr.
  destruct (bk_status b) eqn:Es; [|done..]. specialize (Hp eq_refl).
  destruct (en_program e) as [|st|]; [| |done].
  - destruct (connect_future (bk_conn b) None (en_client e)) as [[[spec|err]| |] c] eqn:Ec; [| |done..].
    + injection Hr as <- <-. destruct (connect_future_spec params _ _ _ _ Ht Ec) as [Hpre Htime].
      cbn [bstep]. rewrite Es, Hp. eexists. split; [done|].
      destruct (bo_unconnected b Hok Hp) as [_ Hwr].
      constructor; cbn [en_writer en_program en_client bk_status bk_connected bk_drain].
      * eapply (bstep_ok EvConnectOk); [|done]. cbn. by rewrite Es, Hp.
      * split; [done|]. exists (sk_out (ts_writer spec)). cbn. by rewrite Hwr, app_nil_r.
      * done.
    + injection Hr as <- <-. cbn [bstep]. rewrite Es, Hp. eexists. split; [done|].
      constructor; cbn [en_writer en_program]; [by apply bk_end_status_ok| |done].
      destruct (en_writer e); [done|destruct Hw; split; done..].
  - destruct (st None (en_client e)) as [[r| |] c]; [|done..]. injection Hr as <- <-.
    destruct Hp as [Hc _]. cbn [bstep]. rewrite Es, Hc. eexists. split; [done|].
    constructor; cbn [en_writer en_program]; [|by rewrite <- Hc|done].
    eapply (bstep_ok (EvStatus (Returned r))); [|done]. cbn. by rewrite Es, Hc.
Qed.

Lemma run_drain_step params b e ev e' :
  coherent params b e -> run_drain b e = Some (ev, e') ->
  exists b', bstep ev b = Some b' /\ coherent params b' e'.
Proof.
  intros [Hok Hw Hp] Hr. unfold run_drain in Hr.
  destruct (en_writer e) as [|s|s|s] eqn:Ew; [done| |done..]. destruct Hw as [Hd (pre & Hpre & Hout)].
  assert (forall b', bstep ev b = Some b' -> backend_ok b') as Hstep by (intros ? ?; by eapply bstep_ok).
  destruct (bk_queue b) as [|buf rest] eqn:Eq.
  - destruct (bk_tx_open b) eqn:Et; [done|]. injection Hr as <- <-. revert Hstep.
    cbn [bstep]. rewrite Hd, Eq, Et. intros Hstep. eexists. split; [done|].
    constructor; cbn [en_writer en_program set_writer]; [by apply Hstep|by split; [|exists pre]|by apply Hp].
  - destruct (write_all buf s None (en_client e)).1 as [[r s']| |] eqn:Ea; [|done..].
    apply write_all_out in Ea. destruct r as [u|err]; injection Hr as <- <-; revert Hstep;
      cbn [bstep]; rewrite Hd, Eq; intros Hstep; eexists; (split; [done|]);
      (constructor; cbn [en_writer en_program set_writer]; [by apply Hstep| |by apply Hp]);
      (split; [done|]); exists pre; (split; [done|]); cbn [bk_written]; by rewrite app_assoc, <- Hout.
Qed.

Lemma session_op_coherent params b e b' :
  session_op b b' -> coherent params b e -> coherent params b' e.
Proof.
  intros Hop [Hok Hw Hp]. destruct Hop as [item b Htx Hs|b|v o b|b Hs].
  - constructor; [by apply bk_push_ok|exact Hw|exact Hp].
  - constructor; [by apply bk_set_tx_ok|exact Hw|exact Hp].
  - constructor; [by apply bk_set_recycle_ok|exact Hw|exact Hp].
  - constructor; [by apply bk_end_status_ok| |done]. destruct (en_writer e); exact Hw.
Qed.

Lemma run_task_step params k b e ev e' :
  0 <= sp_timeout_secs params -> coherent params b e -> run_task params k b e = Some (ev, e') ->
  exists b', bstep ev b = Some b' /\ coherent params b' e'.
Proof. intros Ht Hc. destruct k; [by apply run_status_step|by apply run_drain_step]. Qed.

Lemma tstep_coherent params p q :
  0 <= sp_timeout_secs params -> tstep params p q -> coherent params p.1 p.2 -> coherent params q.1 q.2.
Proof.
  intros Ht [k b e ev e' b' Hr Hb|b e b' Hop] Hc; cbn in *.
  - destruct (run_task_step params k b e ev e' Ht Hc Hr) as (b'' & Hb' & Hc'). by simplify_eq.
  - by eapply session_op_coherent.
Qed.

Lemma bstep_conn ev b b' : bstep ev b = Some b' -> bk_conn b' = bk_conn b /\ bk_log b' = bk_log b.
Proof. destruct ev; cbn [bstep]; repeat case_match; intros; by simplify_eq. Qed.

Lemma transfers_coherent params conn cap c b e :
  0 <= sp_timeout_secs params -> 0 < cap -> transfers params conn cap c (b, e) ->
  coherent params b e /\ bk_conn b = conn.
Proof.
  intros Ht Hcap Hr. change (coherent params (b, e).1 (b, e).2 /\ bk_conn (b, e).1 = conn).
  unfold transfers in Hr. generalize dependent (b, e). intros z Hr.
  remember (new_backend conn cap, engine_new c) as p eqn:Ep.
  assert (coherent params p.1 p.2 /\ bk_conn p.1 = conn) as Hp.
  { subst p. split; [|done]. constructor; [by apply new_backend_ok|done|done]. }
  clear Ep. induction Hr as [x|x y z Hst Hr IH]; [done|]. destruct Hp as [Hp Hconn].
  apply IH. split; [by eapply tstep_coherent|].
  destruct Hst as [k b0 e0 ev e' b' Hrun Hb|b0 e0 b' Hop]; cbn in *.
  - rewrite <- Hconn. by apply (bstep_conn ev).
  - by destruct Hop.
Qed.

(** ** Theorems *)

(** C8. The programs of a transfer's tasks implement the background events the
    session is verified against: from any state a transfer can reach, whatever a
    task does next (connecting over the control socket or spawning [fw_update],
    writing a block whole or in part, shutting the writer down, reporting the
    verdict) is an event of [Session] that is enabled there, and the transfer
    goes on from the state that event leads to. *)
Theorem tasks_implement_events params conn cap c b e k ev e' :
  0 <= sp_timeout_secs params -> 0 < cap ->
  transfers params conn cap c (b, e) -> run_task params k b e = Some (ev, e') ->
  exists b', bstep ev b = Some b' /\ transfers params conn cap c (b', e').
Proof.
  intros Ht Hcap Hr Hk. destruct (transfers_coherent _ _ _ _ _ _ Ht Hcap Hr) as [Hc _].
  destruct (run_task_step params k b e ev e' Ht Hc Hk) as (b' & Hb & _). exists b'. split; [done|].
  eapply rtc_r; [done|]. by econstructor.
Qed.

(** C9. What the backend's input carries: the encoded install request (nothing,
    for the pipe) followed by the image, as far as it was written. Nothing
    precedes, separates or reorders the blocks the session accepted, and when the
    drain task has shut the writer down they are all there. *)
Theorem writer_carries_image params conn cap c b e :
  0 <= sp_timeout_secs params -> 0 < cap -> transfers params conn cap c (b, e) ->
  match en_writer e with
  | WNone => bk_written b = []
  | WOpen s | WDropped s =>
      exists pre part, preamble conn = Some pre /\ sk_out s = pre ++ part /\
        part `prefix_of` concat (bk_log b)
  | WShut s => exists pre, preamble conn = Some pre /\ sk_out s = pre ++ concat (bk_log b)
  end.
Proof.
  intros Ht Hcap Hr. destruct (transfers_coherent _ _ _ _ _ _ Ht Hcap Hr) as [[Hok Hw _] <-].
  destruct (en_writer e) as [|s|s|s].
  - destruct Hw as [_ Hn]. by destruct (bo_unconnected b Hok Hn).
  - destruct Hw as [_ (pre & ? & ?)]. exists pre, (bk_written b). split; [done|]. split; [done|by apply bo_prefix].
  - destruct Hw as [Hd (pre & ? & Hout)]. destruct (bo_closed b Hok Hd) as [<- _]. by exists pre.
  - destruct Hw as [_ (pre & ? & ?)]. exists pre, (bk_written b). split; [done|]. split; [done|by apply bo_prefix].
Qed.

(** C12. A transfer that is connected and was not aborted gets its verdict within
    the configured time, whatever SWUpdate or [fw_update] does: the status task
    never waits longer. *)
Theorem verdict_in_time params conn cap c b e :
  0 <= sp_timeout_secs params -> 0 < cap -> transfers params conn cap c (b, e) ->
  bk_connected b = true -> bk_status b = StRunning ->
  exists r e', run_task params TaskStatus b e = Some (EvStatus (Returned r), e') /\
    now (en_client e) <= now (en_client e') <= now (en_client e) + timeout_ms params.
Proof.
  intros Ht Hcap Hr Hc Hs. destruct (transfers_coherent _ _ _ _ _ _ Ht Hcap Hr) as [[_ _ Hp] _].
  specialize (Hp Hs). cbn [run_task]. unfold run_status. rewrite Hs.
  destruct (en_program e) as [|st|]; [congruence| |done].
  destruct Hp as (_ & (r & c' & -> & Hn) & _). by eexists r, _.
Qed.

(** C10. The verdict a session gets over IPC is the one SWUpdate broadcasts: a
    success is a success, a failure is an error, whatever restarts and lost
    connections of the progress socket lie in between. *)
Theorem verdict_is_swupdates params request cap c b e dur frames v :
  0 <= sp_timeout_secs params -> 0 < cap -> transfers params (Ipc request) cap c (b, e) ->
  bk_connected b = true -> bk_status b = StRunning ->
  broadcast packed (dials (en_client e)) dur frames v -> dur <= timeout_ms params ->
  exists e', run_task params TaskStatus b e =
    Some (EvStatus (Returned (map_err (fun err => normalize_ipc_error sys err "wait") v)), e').
Proof.
  intros Ht Hcap Hr Hc Hs Hb Hd. destruct (transfers_coherent _ _ _ _ _ _ Ht Hcap Hr) as [[_ _ Hp] Hconn].
  specialize (Hp Hs). rewrite Hconn in Hp. cbn [run_task]. unfold run_status. rewrite Hs.
  destruct (en_program e) as [|st|]; [congruence| |done]. destruct Hp as (_ & _ & ->).
  destruct (listen_hears env packed _ _ _ _ (S (budget (dials (en_client e))))
    (now (en_client e) + timeout_ms params) (en_client e) Hb eq_refl) as (c' & Hl & _); [|lia|].
  { apply broadcast_budget in Hb. lia. }
  unfold watch_progress, tbind, tret, await_progress_result_with, timeout, tbind, tret.
  unfold listen in Hl. rewrite Hl. by eexists.
Qed.

(** *** Draining to the end *)

(** One turn of the drain task; there is at most one. *)
Definition drains (params : SwupdateParams) (p q : Backend * Engine) : Prop :=
  exists ev, run_task params TaskDrain p.1 p.2 = Some (ev, q.2) /\ bstep ev p.1 = Some q.1.

Lemma drains_tstep params p q : drains params p q -> tstep params p q.
Proof. destruct p, q. intros (ev & Hk & Hb). by eapply tstep_task. Qed.

Lemma drains_det params p q q' : drains params p q -> drains params p q' -> q = q'.
Proof. destruct q, q'. intros (ev & Hk & Hb) (ev' & Hk' & Hb'). cbn in *. congruence. Qed.

Lemma drain_turn params b e s buf rest :
  coherent params b e -> en_writer e = WOpen s -> sk_room s = None -> bk_queue b = buf :: rest ->
  exists b' s', drains params (b, e) (b', set_writer (WOpen s') e) /\ sk_room s' = None /\
    bk_queue b' = rest /\ bk_log b' = bk_log b /\ bk_tx_open b' = bk_tx_open b.
Proof.
  intros Hc Hw Hroom Hq. pose proof (co_writer _ _ _ Hc) as Hd.
  rewrite Hw in Hd. destruct Hd as [Hd _].
  eexists _, (sk_set_out (sk_out s ++ buf) None s). split; [|].
  - exists EvWrite. split.
    + cbn [run_task fst snd]. unfold run_drain. rewrite Hw, Hq. unfold write_all. by rewrite Hroom.
    + cbn [bstep fst snd]. by rewrite Hd, Hq.
  - done.
Qed.

(** C11. After the end of stream a backend that keeps reading gets the whole image
    and then the shutdown, without any further help of the session or the status
    task: from any such state of a transfer the drain task, whose turns are
    determined, takes one turn for each queued block and one for the end; the
    writer is then shut down, with all of the accepted image behind the preamble. *)
Theorem image_arrives params conn cap c b e s :
  0 <= sp_timeout_secs params -> 0 < cap -> transfers params conn cap c (b, e) ->
  bk_tx_open b = false -> en_writer e = WOpen s -> sk_room s = None ->
  (forall p q q', drains params p q -> drains params p q' -> q = q') /\
  exists b' e' s' pre, nsteps (drains params) (S (length (bk_queue b))) (b, e) (b', e') /\
    en_writer e' = WShut s' /\ bk_queue b' = [] /\ bk_log b' = bk_log b /\
    preamble conn = Some pre /\ sk_out s' = pre ++ concat (bk_log b).
Proof.
  intros Ht Hcap Hr Htx Hw Hroom. split; [apply drains_det|]. remember (bk_queue b) as q eqn:Eq. symmetry in Eq.
  revert b e s Hr Htx Hw Hroom Eq. induction q as [|buf rest IH]; intros b e s Hr Htx Hw Hroom Eq;
    destruct (transfers_coherent _ _ _ _ _ _ Ht Hcap Hr) as [Hc Hconn].
  - assert (run_task params TaskDrain b e = Some (EvEof, set_writer (WShut s) e)) as Hk.
    { cbn [run_task]. unfold run_drain. by rewrite Hw, Eq, Htx. }
    destruct (run_task_step params TaskDrain b e _ _ Ht Hc Hk) as (b' & Hb & Hc').
    exists b', (set_writer (WShut s) e), s.
    pose proof (co_writer _ _ _ Hc') as Hw'. cbn [set_writer en_writer] in Hw'.
    destruct Hw' as [Hd (pre & Hpre & Hout)]. destruct (bo_closed b' (co_ok _ _ _ Hc') Hd) as [Hwr _].
    assert (bk_log b' = bk_log b /\ bk_conn b' = bk_conn b) as [Hl Hcn].
    { by destruct (bstep_conn _ _ _ Hb). }
    assert (bk_queue b' = []) as Hq by (cbn [bstep] in Hb; case_matches_in Hb; by simplify_eq/=).
    exists pre. split; [apply nsteps_once; by exists EvEof|]. do 3 (split; [done|]).
    split; [by rewrite <- Hconn, <- Hcn|]. by rewrite Hout, Hwr, Hl.
  - destruct (drain_turn params b e s buf rest Hc Hw Hroom Eq) as (b' & s' & Hst & Hroom' & Hq' & Hl & Htx').
    destruct (IH b' (set_writer (WOpen s') e) s') as (b2 & e2 & s2 & pre & Hn & ? & ? & Hl2 & ? & ?);
      [by eapply rtc_r, drains_tstep| |done..|].
    { by rewrite Htx'. }
    exists b2, e2, s2, pre. split; [by eapply nsteps_l|]. rewrite <- Hl. by split_and!.
Qed.

(** ** Runs *)

(** A schedule of what the session and the tasks do. *)
Inductive action := Feeds (item : block) | Ends | Runs (k : task).

Definition act (params : SwupdateParams) (a : action) (p : Backend * Engine) : option (Backend * Engine) :=
  let (b, e) := p in
  match a with
  | Feeds item =>
      match bk_tx_open b, chan_try_send b with
      | true, PushedOk => Some (bk_push item b, e)
      | _, _ => None
      end
  | Ends => Some (bk_set_tx false b, e)
  | Runs k =>
      match run_task params k b e with
      | Some (ev, e') => (fun b' => (b', e')) <$> bstep ev b
      | None => None
      end
  end.

Fixpoint acts (params : SwupdateParams) (l : list action) (p : Backend * Engine)
    : option (Backend * Engine) :=
  match l with
  | [] => Some p
  | a :: l => match act params a p with Some q => acts params l q | None => None end
  end.

Lemma act_tstep params a p q : act params a p = Some q -> tstep params p q.
Proof.
  destruct p as [b e], a as [item| |k]; cbn [act].
  - destruct (bk_tx_open b) eqn:Et; [|done]. destruct (chan_try_send b) eqn:Es; [|done..].
    intros [= <-]. by apply tstep_session, op_push.
  - intros [= <-]. apply tstep_session, op_eof.
  - destruct (run_task params k b e) as [[ev e']|] eqn:Er; [|done].
    intros (b' & Hb & ->)%fmap_Some. by eapply tstep_task.
Qed.

Lemma acts_transfers params conn cap c l q :
  acts params l (new_backend conn cap, engine_new c) = Some q -> transfers params conn cap c q.
Proof.
  unfold transfers. generalize (new_backend conn cap, engine_new c). induction l as [|a l IH]; intros p; cbn.
  - by intros [= ->].
  - destruct (act params a p) eqn:E; [|done]. intros ?%IH. eapply rtc_l; [|done]. by eapply act_tstep.
Qed.

End Transport.

Module TransportDemo.
Import AsyncDemo.

Definition child (_ : list string) : Spawn := Spawned (Some (Some (5%nat, Some (Os 32)))) (Some (40, Exited false "1")).

(** SWUpdate accepts the request and later reports success on its progress
    socket. *)
Definition granting : Client :=
  {| now := 0; dials := [Accepted [(3, AData (ipc_new ACK))] None; Accepted second_session None];
     dialed := []; heard := [] |}.

Definition run_ipc (l : list action) : option (Backend * Engine) :=
  acts sample_env env true child default_params l (new_backend (Ipc request) 2, engine_new granting).

Definition fed : list action := [Feeds (bs "ab"); Runs TaskStatus; Feeds (bs "cd"); Ends].

(** A state of the run, where it exists. *)
Definition state_after (l : list action) : Backend * Engine :=
  default (new_backend (Ipc request) 2, engine_new granting) (run_ipc l).

Lemma state_after_run l : isSome (run_ipc l) = true -> run_ipc l = Some (state_after l).
Proof. unfold state_after. by destruct (run_ipc l). Qed.

Lemma reached l :
  isSome (run_ipc l) = true ->
  transfers sample_env env true child default_params (Ipc request) 2 granting
    ((state_after l).1, (state_after l).2).
Proof.
  intros H. rewrite <- surjective_pairing. eapply (acts_transfers _ _ _ _ _ _ _ _ l), state_after_run, H.
Qed.

Lemma fed_state :
  transfers sample_env env true child default_params (Ipc request) 2 granting
    ((state_after fed).1, (state_after fed).2).
Proof. apply reached. vm_compute. reflexivity. Qed.

Lemma fed_drains :
  fst <$> run_task sample_env env true child default_params TaskDrain (state_after fed).1 (state_after fed).2
  = Some EvWrite.
Proof. vm_compute. reflexivity. Qed.

Lemma tasks_implement_events_witness :
  exists b', bstep EvWrite (state_after fed).1 = Some b' /\ bk_written b' = bs "ab".
Proof.
  destruct (run_task sample_env env true child default_params TaskDrain (state_after fed).1 (state_after fed).2)
    as [[ev e']|] eqn:E; pose proof fed_drains as F; rewrite E in F; [injection F as ->|discriminate F].
  destruct (tasks_implement_events sample_env env true child default_params (Ipc request) 2 granting
    (state_after fed).1 (state_after fed).2 TaskDrain EvWrite e') as (b' & Hb & _).
  - vm_compute; discriminate.
  - lia.
  - exact fed_state.
  - exact E.
  - exists b'. split; [exact Hb|]. vm_compute in Hb. injection Hb as <-. vm_compute. reflexivity.
Defined.

Definition drained : list action := fed ++ [Runs TaskDrain; Runs TaskDrain; Runs TaskDrain].

Definition is_shut (w : Writer) : bool := match w with WShut _ => true | _ => false end.

Lemma drained_shut : is_shut (en_writer (state_after drained).2) = true.
Proof. vm_compute. reflexivity. Qed.

Lemma drained_state :
  transfers sample_env env true child default_params (Ipc request) 2 granting
    ((state_after drained).1, (state_after drained).2).
Proof. apply reached. vm_compute. reflexivity. Qed.

Lemma drained_log : concat (bk_log (state_after drained).1) = bs "abcd".
Proof. vm_compute. reflexivity. Qed.

Lemma writer_carries_image_witness :
  exists s pre, en_writer (state_after drained).2 = WShut s /\
    encode request = Ok pre /\ sk_out s = pre ++ bs "abcd".
Proof.
  pose proof (writer_carries_image sample_env env true child default_params (Ipc request) 2 granting
    (state_after drained).1 (state_after drained).2) as H.
  pose proof drained_shut as Hs.
  destruct (en_writer (state_after drained).2) as [|s|s|s]; [discriminate Hs|discriminate Hs| |discriminate Hs].
  destruct H as (pre & Hpre & Hout).
  - vm_compute; discriminate.
  - lia.
  - exact drained_state.
  - exists s, pre. rewrite drained_log in Hout. split; [reflexivity|]. split; [|exact Hout].
    exact (preamble_encoded request pre Hpre).
Defined.

Lemma verdict_in_time_witness :
  exists r e', run_status sample_env env true child default_params (state_after fed).1 (state_after fed).2
      = Some (EvStatus (Returned r), e') /\ now (en_client e') <= 600003.
Proof.
  destruct (verdict_in_time sample_env env true child default_params (Ipc request) 2 granting
    (state_after fed).1 (state_after fed).2) as (r & e' & Hr & Hn).
  - vm_compute; discriminate.
  - lia.
  - exact fed_state.
  - vm_compute. reflexivity.
  - vm_compute. reflexivity.
  - exists r, e'. split; [exact Hr|].
    assert (now (en_client (state_after fed).2) = 3) as E by (vm_compute; reflexivity).
    rewrite E in Hn. change (timeout_ms default_params) with 600000 in Hn. lia.
Defined.

Lemma verdict_is_swupdates_witness :
  exists e', run_status sample_env env true child default_params (state_after fed).1 (state_after fed).2
      = Some (EvStatus (Returned (Ok tt)), e').
Proof.
  apply (verdict_is_swupdates sample_env env true child default_params request 2 granting
    (state_after fed).1 (state_after fed).2 (500 * Z.of_nat 0 + 50) [progress PROGRESS] (Ok tt)).
  - vm_compute; discriminate.
  - lia.
  - exact fed_state.
  - vm_compute. reflexivity.
  - vm_compute. reflexivity.
  - apply (broadcast_verdict true [] second_session None [] 50 ack [progress PROGRESS] (progress SUCCESS) [] []);
      [simpl; lia|apply second_carries| |apply progress_length|vm_compute; reflexivity].
    constructor; [|constructor]. split; [apply progress_length|]. vm_compute. reflexivity.
  - vm_compute; discriminate.
Defined.

Lemma image_arrives_witness :
  exists s' pre, encode request = Ok pre /\ sk_out s' = pre ++ bs "abcd".
Proof.
  destruct (en_writer (state_after fed).2) as [|s|s|s] eqn:E; [vm_compute in E; discriminate E| |
    vm_compute in E; discriminate E|vm_compute in E; discriminate E].
  destruct (image_arrives sample_env env true child default_params (Ipc request) 2 granting
    (state_after fed).1 (state_after fed).2 s) as (_ & b' & e' & s' & pre & _ & _ & _ & _ & Hpre & Hout).
  - vm_compute; discriminate.
  - lia.
  - exact fed_state.
  - vm_compute. reflexivity.
  - exact E.
  - vm_compute in E. injection E as <-. reflexivity.
  - exists s', pre. split; [|rewrite Hout; vm_compute; reflexivity].
    exact (preamble_encoded request pre Hpre).
Defined.

(** The pipe: the child stops reading in the middle of the second block, and its
    exit status is the verdict. *)
Example pipe_stops_reading :
  let run := acts sample_env env true child default_params
    [Feeds (bs "abcd"); Feeds (bs "efgh"); Runs TaskStatus; Runs TaskDrain; Runs TaskDrain; Runs TaskStatus]
    (new_backend (Pipe ["-x"; "r"; "-m"; "complete"; "-"]) 2, engine_new granting) in
  (fun p => (bk_written p.1, bk_drain p.1, bk_status p.1, now (en_client p.2))) <$> run
  = Some (bs "abcde", DrStopped, StDone (Returned (Err (other "fw_update exited with status 1"))), 40).
Proof. vm_compute. reflexivity. Qed.

(** The timeout of a transfer covers the wait for the verdict and not the start
    of the installation: SWUpdate can accept the connection, never answer the
    request, and the status task waits for ever. *)
Example start_has_no_deadline :
  run_status sample_env env true child default_params (new_backend (Ipc request) 2)
    (engine_new {| now := 0; dials := [Accepted [] None]; dialed := []; heard := [] |}) = None.
Proof. vm_compute. reflexivity. Qed.

End TransportDemo.
