(* ===== verification/Link.v ===== *)
(** * A session and its transfer

    The view a producer has of the transfer it feeds: which bytes the queue has
    accepted so far and whether the queue is still open to it. Each session
    operation and each background event is given its effect on that view, and
    the functions that own a session (DFU, fastboot, the socket listener) are
    verified against these lemmas. *)

From S2P Require Import Prelude Io Session.

(** [Unopened]: no transfer yet. [Live]: the session feeds it. [Ended]: the
    session signalled end of stream. [Dead]: the backend stopped consuming
    before it. *)
Inductive Mode := Unopened | Live | Ended | Dead.

#[global] Instance Mode_eq_dec : EqDecision Mode.
Proof. solve_decision. Defined.

(** A transfer that will never be closed by end of stream. *)
Record dead (b : Backend) : Prop := {
  dead_tx : bk_tx_open b = false;
  dead_closed : bk_drain b <> DrClosed;
  dead_running : bk_drain b <> DrRunning;
  dead_never : bk_connected b = true \/ bk_status b <> StRunning;
}.

(** The handles an opened session may hold; it gives up the status task only
    for a verdict. *)
Record holds (n : nat) (s : Session) (b : Backend) : Prop := {
  h_tx : s_tx s = Some n \/ s_tx s = None;
  h_status : (s_status s = Some n /\ s_terminal s = None) \/
    (s_status s = None /\ s_terminal s <> None /\ bk_status b <> StRunning);
  h_recycle : s_recycle_rx s = Some n \/ s_recycle_rx s = None;
}.

(** [Link n s w L m]: session [s] is linked to transfer [n] of [w], whose queue
    has accepted the bytes [L], in mode [m]. *)
Inductive Link (n : nat) (s : Session) (w : World) : list byte -> Mode -> Prop :=
| link_unopened :
    is_open s = false -> s_terminal s = None -> s_recycle_rx s = None ->
    length (w_transfers w) = n -> Link n s w [] Unopened
| link_live b :
    w_transfers w !! n = Some b -> length (w_transfers w) = S n -> holds n s b ->
    s_tx s = Some n -> bk_tx_open b = true -> Link n s w (concat (bk_log b)) Live
| link_ended b :
    w_transfers w !! n = Some b -> length (w_transfers w) = S n -> holds n s b ->
    s_tx s = None -> bk_tx_open b = false -> Link n s w (concat (bk_log b)) Ended
| link_dead b :
    w_transfers w !! n = Some b -> length (w_transfers w) = S n -> holds n s b ->
    s_tx s = None -> dead b -> Link n s w (concat (bk_log b)) Dead.

(** What background steps and recycling leave alone. *)
Record same_feed (b b' : Backend) : Prop := {
  sf_log : bk_log b' = bk_log b;
  sf_tx : bk_tx_open b' = bk_tx_open b;
  sf_dead : dead b -> dead b';
  sf_status : bk_status b <> StRunning -> bk_status b' <> StRunning;
}.

Lemma bstep_same_feed ev b : same_feed b (default b (bstep ev b)).
Proof.
  destruct (bstep ev b) as [b'|] eqn:E; [|done]. simpl.
  destruct ev; simpl in E; case_matches_in E; split; simpl; try done;
    try congruence; intros []; split; simpl; try done; try congruence; destruct dead_never0;
    try congruence; auto.
Qed.

Lemma set_recycle_same_feed v o b : same_feed b (bk_set_recycle v o b).
Proof. split; [done|done| |done]. by intros []. Qed.

Lemma holds_same_feed n s b b' : same_feed b b' -> holds n s b -> holds n s b'.
Proof. intros [_ _ _ Hs] [H1 H2 H3]. split; [done| |done]. destruct H2 as [?|(? & ? & ?)]; auto. Qed.

Lemma link_alter n s w L m i f :
  (forall b, same_feed b (f b)) -> Link n s w L m -> Link n s (w_alter i f w) L m.
Proof.
  intros Hf HL.
  assert (forall b, w_transfers w !! n = Some b -> exists b',
    w_transfers (w_alter i f w) !! n = Some b' /\ same_feed b b') as Hl.
  { intros b Hb. rewrite w_alter_lookup, Hb. destruct (decide (i = n)); [eauto|].
    exists b. split; [done|]. by split. }
  destruct HL as [|b Hb ????|b Hb ????|b Hb ????];
    [|destruct (Hl b Hb) as (b' & Hb' & Hs); pose proof (holds_same_feed n s _ _ Hs); destruct Hs as [<- Htx Hd _]..].
  - constructor; try done. simpl. by rewrite length_alter.
  - eapply link_live; eauto; simpl; rewrite ?length_alter; congruence.
  - eapply link_ended; eauto; simpl; rewrite ?length_alter; congruence.
  - eapply link_dead; eauto; simpl; by rewrite length_alter.
Qed.

(** Fields of the world that do not concern the transfers. *)
Lemma link_same_transfers n s w w' L m :
  w_transfers w' = w_transfers w -> Link n s w L m -> Link n s w' L m.
Proof.
  intros Hw [|b Hb|b Hb|b Hb]; [eapply link_unopened|eapply link_live|eapply link_ended|eapply link_dead];
    rewrite ?Hw; eauto.
Qed.

Lemma link_wstep n s w L m ev : Link n s w L m -> Link n s (wstep ev w) L m.
Proof.
  intros HL. destruct ev as [i ev|]; simpl.
  - apply link_alter; [|done]. intros b. apply bstep_same_feed.
  - destruct (w_success_tasks w) as [|t ts]; [done|]. unfold on_update_success.
    destruct (is_complete t); by apply (link_same_transfers _ _ w).
Qed.

Lemma link_wsteps n s w L m evs : Link n s w L m -> Link n s (wsteps evs w) L m.
Proof.
  unfold wsteps. revert w. induction evs as [|ev evs IH]; intros w HL; simpl; [done|].
  by apply IH, link_wstep.
Qed.

Lemma link_buffer n s w L m :
  Link n s w L m ->
  exists w', buffer (s, w) = (Ok [], (s, w')) /\ Link n s w' L m.
Proof.
  intros HL. unfold buffer. eexists. split; [done|].
  destruct (s_recycle_rx s); [|done]. simpl. apply link_alter; [|done].
  intros b. apply set_recycle_same_feed.
Qed.

(** ** Opening and feeding *)

Lemma link_open n s w :
  is_open s = false -> s_recycle_rx s = None -> length (w_transfers w) = n ->
  match open (s, w) with
  | (Ok _, (s', w')) => Link n s' w' [] Live /\ exists b, w_transfers w' !! n = Some b /\
      chan_try_send b = PushedOk
  | (Err e, _) => w_restart_pending w = true /\ exists msg, e = other msg
  end.
Proof.
  intros Ho Hr Hn. unfold open, reject_if_restart_pending, close_recycle. rewrite Ho. cbn [s_recycle_rx set_terminal]. rewrite Hr.
  destruct (w_restart_pending w); [split; [done|by eexists]|].
  set (b := new_backend _ _).
  assert ((w_transfers w ++ [b]) !! n = Some b) as Hb.
  { rewrite lookup_app_r by lia. by replace (n - _)%nat with 0%nat by lia. }
  split.
  - apply (link_live n _ _ b); simpl; try done; [rewrite length_app; simpl; lia| |congruence].
    split; simpl; auto with f_equal.
  - exists b. split; [done|]. apply chan_try_send_Ok. simpl. split; [done|].
    unfold queue_capacity. lia.
Qed.

Lemma feed_live n s w L item :
  Link n s w L Live -> world_ok w ->
  match feed item (s, w) with
  | (Ok (FeedOk k), (s', w')) => k = Z.of_nat (length item) /\ Link n s' w' (L ++ item) Live
  | (Ok (FeedFull item'), (s', w')) => item' = item /\ Link n s' w' L Live
  | (Ok FeedClosed, (s', w')) => Link n s' w' L Dead
  | (Err _, _) => False
  end.
Proof.
  intros HL Hok. inversion HL as [|b Hb Hlen Hh Htx Hopen| |]; subst.
  pose proof (world_ok_lookup _ _ _ Hok Hb) as Hbok.
  unfold feed. rewrite Htx. simpl. rewrite Hb. simpl. destruct (chan_try_send b) eqn:E.
  - split; [done|].
    replace (concat (bk_log b) ++ item) with (concat (bk_log (bk_push item b)))
      by (simpl; rewrite concat_app; simpl; by rewrite app_nil_r).
    apply (link_live n _ _ (bk_push item b)); try done.
    + rewrite w_alter_lookup, decide_True, Hb by done. done.
    + simpl. by rewrite length_alter.
    + destruct Hh. by split.
  - done.
  - simpl. rewrite Htx. apply (link_dead n _ _ (bk_set_tx false b)); try done.
    + simpl. by rewrite list_lookup_alter_eq, Hb.
    + simpl. by rewrite length_alter.
    + destruct Hh. split; simpl; auto.
    + unfold chan_try_send in E. destruct (bk_rx_open b) eqn:Erx; simpl in E; [by case_match|].
      destruct Hbok as [_ _ Hc Hr _ _ Hl _ _]. split; simpl; [done| | |].
      * intros Hd. destruct (Hc Hd) as (_ & ? & _). congruence.
      * intros Hd. specialize (Hr Hd). congruence.
      * destruct (bk_connected b); [auto|right]. intros Hst.
        specialize (Hl eq_refl Hst). congruence.
Qed.

(** The effect of [try_send] on the view. *)
Lemma link_try_send n s w L m item :
  Link n s w L m -> world_ok w ->
  match try_send item (s, w) with
  | (Ok (FeedOk k), (s', w')) =>
      k = Z.of_nat (length item) /\ (m = Unopened \/ m = Live) /\ Link n s' w' (L ++ item) Live
  | (Ok (FeedFull item'), (s', w')) => item' = item /\ m = Live /\ Link n s' w' L Live
  | (Ok FeedClosed, (s', w')) =>
      (m = Live /\ Link n s' w' L Dead) \/ ((m = Ended \/ m = Dead) /\ Link n s' w' L m)
  | (Err e, _) => m = Unopened /\ w_restart_pending w = true /\ exists msg, e = other msg
  end.
Proof.
  intros HL Hok. unfold try_send, bind, ensure_open.
  destruct HL as [Ho Ht Hr Hn|b Hb Hlen Hh Htx Hopen|b Hb Hlen Hh Htx Hopen|b Hb Hlen Hh Htx Hd].
  - change (isSome (s_tx s) || isSome (s_status s)) with (is_open s). rewrite Ho, Ht. cbn [orb isSome].
    pose proof (link_open n s w Ho Hr Hn) as Hopen.
    pose proof (open_inv (P := backend_ok) (C := fun cap => 0 < cap) (s, w)
      (conj Hok (queue_capacity_pos _))) as [Hok' _].
    destruct (open (s, w)) as [[[]|e] [s' w']]; simpl in *; [|by split].
    destruct Hopen as (HL & b & Hb & Hpush). pose proof (feed_live n s' w' [] item HL Hok') as Hf.
    assert (s_tx s' = Some n) as Htx by (by inversion HL).
    unfold feed in *. rewrite Htx in *. simpl in *. rewrite Hb in *. simpl in *.
    rewrite Hpush in *. destruct Hf. auto.
  - replace (isSome (s_tx s)) with true by (by rewrite Htx). cbn [orb].
    pose proof (feed_live n s w _ item (link_live n s w b Hb Hlen Hh Htx Hopen) Hok) as Hf.
    destruct (feed item (s, w)) as [[[k|item'|]|e] [s' w']]; naive_solver.
  - pose proof (h_status _ _ _ Hh) as Hst. replace (isSome (s_tx s) || isSome (s_status s) || isSome (s_terminal s))
      with true.
    + unfold feed. rewrite Htx. simpl. right. split; [auto|].
      by apply (link_ended n s w b).
    + rewrite Htx. destruct Hst as [[-> _]|(-> & Hne & _)]; simpl; [done|]. by destruct (s_terminal s).
  - pose proof (h_status _ _ _ Hh) as Hst. replace (isSome (s_tx s) || isSome (s_status s) || isSome (s_terminal s))
      with true.
    + unfold feed. rewrite Htx. simpl. right. split; [auto|].
      by apply (link_dead n s w b).
    + rewrite Htx. destruct Hst as [[-> _]|(-> & Hne & _)]; simpl; [done|]. by destruct (s_terminal s).
Qed.

(** ** End of stream, verdict, teardown *)

Definition after_eof (m : Mode) : Mode :=
  match m with Live => Ended | m => m end.

Lemma link_eof n s w L m :
  Link n s w L m ->
  exists s' w', eof (s, w) = (Ok tt, (s', w')) /\ Link n s' w' L (after_eof m).
Proof.
  intros HL. unfold eof, drop_tx, modify. eexists _, _. split; [done|].
  destruct HL as [Ho Ht Hr Hn|b Hb Hlen Hh Htx Hopen|b Hb Hlen Hh Htx Hopen|b Hb Hlen Hh Htx Hd];
    simpl.
  - unfold is_open in Ho. destruct (s_tx s) eqn:E; [done|]. by apply link_unopened.
  - rewrite Htx. change (bk_log b) with (bk_log (bk_set_tx false b)).
    eapply (link_ended n _ _ (bk_set_tx false b)); simpl; try done.
    + by rewrite list_lookup_alter_eq, Hb.
    + by rewrite length_alter.
    + destruct Hh. split; simpl; auto.
  - rewrite Htx. apply (link_ended n _ _ b); simpl; try done. destruct Hh. by split; auto.
  - rewrite Htx. apply (link_dead n _ _ b); simpl; try done. destruct Hh. by split; auto.
Qed.

(** Rebuilding the view after the session's verdict was settled. *)
Lemma link_settled n s w s' w' L m :
  m <> Unopened -> w_transfers w' = w_transfers w -> s_tx s' = s_tx s ->
  s_recycle_rx s' = s_recycle_rx s -> s_status s' = None -> s_terminal s' <> None ->
  (forall b, w_transfers w !! n = Some b -> bk_status b <> StRunning) ->
  Link n s w L m -> Link n s' w' L m.
Proof.
  intros Hm Hw Htx Hrc Hst Ht Hb HL.
  assert (forall b, w_transfers w !! n = Some b -> holds n s b -> holds n s' b) as Hh.
  { intros b Hn []. rewrite <- Htx in *. rewrite <- Hrc in *. split; auto. }
  destruct HL; [done|eapply link_live|eapply link_ended|eapply link_dead];
    rewrite ?Hw, ?Htx; eauto.
Qed.

(** The transfer behind a linked session that has been opened. *)
Lemma link_backend n s w L m :
  Link n s w L m -> m <> Unopened -> exists b, w_transfers w !! n = Some b /\ holds n s b.
Proof. intros HL Hm. destruct HL; eauto. done. Qed.

(** What settling changes. *)
Lemma settle_effect j s w :
  exists r t w', settle j (s, w) = (r, (set_terminal (Some t) s, w')) /\
    w_transfers w' = w_transfers w.
Proof.
  destruct j as [[[]|e]|msg]; simpl; [|by eexists _, _, _..].
  eexists _, _, _. split; [done|]. by destruct (s_update_type s).
Qed.

Lemma link_poll_status n s w L m r s' w' :
  poll_status (s, w) = (r, (s', w')) -> Link n s w L m ->
  Link n s' w' L m /\ w_transfers w' = w_transfers w /\
  (m = Unopened -> r = Some (Err (Custom KNotConnected "no update in progress"))).
Proof.
  intros Hp HL. unfold poll_status in Hp.
  destruct (decide (m = Unopened)) as [->|Hm].
  { inversion HL as [Ho Ht| | |]; subst. unfold is_open in Ho. rewrite Ht in Hp.
    destruct (s_status s); [by rewrite orb_true_r in Ho|]. simpl in Hp. by simplify_eq. }
  destruct (s_terminal s) as [[u|msg]|] eqn:Et; [by simplify_eq..|].
  destruct (link_backend _ _ _ _ _ HL Hm) as (b & Hb & Hh).
  destruct (h_status _ _ _ Hh) as [[Hst _]|(_ & ? & _)]; [|done].
  assert (transfer (s_status s) w = Some b) as Htr by (by rewrite Hst). rewrite Htr in Hp.
  assert (forall j, bk_status b <> StRunning ->
    (let (r, sw) := settle j (set_status None s, w) in (Some r, sw)) = (r, (s', w')) ->
    Link n s' w' L m /\ w_transfers w' = w_transfers w) as Hs.
  { intros j Hne Hj. destruct (settle_effect j (set_status None s) w) as (r1 & t & w1 & E & Hw).
    rewrite E in Hj. injection Hj as _ <- <-. split; [|done].
    apply (link_settled n s w); try done. intros b' Hb'. by simplify_eq. }
  destruct (bk_status b) as [|j|]; [by simplify_eq|..];
    (split; [|split; [|done]]); by apply Hs in Hp as [??].
Qed.

(** A session that was just created is not linked to any transfer. *)
Lemma link_new p bsz w : Link (length (w_transfers w)) (session_new p bsz) w [] Unopened.
Proof. by apply link_unopened. Qed.

(** ** The interface the producers are verified against *)

Lemma link_written n s w L m b :
  Link n s w L m -> world_ok w -> w_transfers w !! n = Some b ->
  bk_written b `prefix_of` L /\ (bk_drain b = DrClosed -> m = Ended /\ bk_written b = L).
Proof.
  intros HL Hok Hb. destruct (world_ok_lookup _ _ _ Hok Hb) as [_ Hp Hc _ _ _ _ _ _].
  inversion HL as [?? ? Hn|b' Hb' ???? |b' Hb' ????|b' Hb' ??? Hd]; subst.
  - apply lookup_lt_Some in Hb. lia.
  - simplify_eq. split; [done|]. intros Hcl. destruct (Hc Hcl) as (_ & ? & _). congruence.
  - simplify_eq. split; [done|]. intros Hcl. by destruct (Hc Hcl).
  - simplify_eq. split; [done|]. intros Hcl. by destruct (dead_closed _ Hd).
Qed.

(** ** Transfers that have not failed *)

(** The events by which a backend reports a failure. *)
Definition benign (ev : wevent) : bool :=
  match ev with
  | WBackend _ (EvConnectErr _) | WBackend _ (EvStatus (Returned (Err _)))
  | WBackend _ (EvStatus (JoinFailed _)) => false
  | _ => true
  end.

Definition status_ok (b : Backend) : Prop :=
  bk_status b = StRunning \/ bk_status b = StDone (Returned (Ok tt)).

Record healthy (n : nat) (s : Session) (w : World) : Prop := {
  hl_status b : w_transfers w !! n = Some b -> status_ok b;
  hl_terminal e : s_terminal s <> Some (Err e);
}.

Lemma healthy_alter n s w i f :
  (forall b, status_ok b -> status_ok (f b)) -> healthy n s w -> healthy n s (w_alter i f w).
Proof.
  intros Hf [Hs Ht]. split; [|done]. intros b. rewrite w_alter_lookup.
  destruct (decide (i = n)); [|apply Hs]. intros (b0 & Hb0 & ->)%fmap_Some. auto.
Qed.

Lemma healthy_on_transfer n s w h f :
  (forall b, bk_status (f b) = bk_status b) -> healthy n s w -> healthy n s (on_transfer h f w).
Proof.
  intros Hf Hh. destruct h; [|done]. apply healthy_alter; [|done].
  intros b. unfold status_ok. by rewrite Hf.
Qed.

Lemma healthy_wstep n s w ev : benign ev = true -> healthy n s w -> healthy n s (wstep ev w).
Proof.
  intros Hb Hh. destruct ev as [i ev|]; simpl.
  - apply healthy_alter; [|done]. intros b Hs.
    destruct (bstep ev b) as [b'|] eqn:E; [|done]. simpl.
    destruct ev as [|e| |k| |[[[]|e]|msg]]; simpl in Hb, E; try done; case_matches_in E;
      unfold status_ok in *; simpl; auto.
  - destruct (w_success_tasks w) as [|t ts]; [done|]. unfold on_update_success.
    destruct Hh as [Hs Ht]. destruct (is_complete t); by split.
Qed.

Lemma healthy_wsteps n s w evs :
  Forall (fun ev => benign ev = true) evs -> healthy n s w -> healthy n s (wsteps evs w).
Proof.
  unfold wsteps. intros Hevs. revert w. induction Hevs as [|ev evs Hb _ IH]; intros w Hh; simpl;
    [done|]. by apply IH, healthy_wstep.
Qed.

Lemma healthy_session n s s' w :
  (forall e, s_terminal s' <> Some (Err e)) -> healthy n s w -> healthy n s' w.
Proof. intros Ht [Hs _]. by split. Qed.

Lemma healthy_eof n s w : healthy n s w -> healthy n (eof (s, w)).2.1 (eof (s, w)).2.2.
Proof.
  intros Hh. simpl. apply healthy_on_transfer; [done|].
  apply (healthy_session _ s); [apply Hh|done].
Qed.

Lemma healthy_open n s w : healthy n s w -> healthy n (open (s, w)).2.1 (open (s, w)).2.2.
Proof.
  intros Hh. pose proof (healthy_on_transfer n s w (s_recycle_rx s) (fun b => bk_set_recycle [] false b) ltac:(done) Hh) as [Hs' _].
  destruct Hh as [Hs Ht]. unfold open. destruct (is_open s); [done|].
  destruct (reject_if_restart_pending w); simpl; [|by split]. split; [|done].
  intros b Hb. simpl in Hb. apply lookup_app_Some in Hb as [Hb|[_ Hb]]; [auto|].
  apply list_lookup_singleton_Some in Hb as [_ <-]. by left.
Qed.

Lemma healthy_feed n s w item :
  healthy n s w -> healthy n (feed item (s, w)).2.1 (feed item (s, w)).2.2.
Proof.
  intros Hh. unfold feed. destruct (transfer (s_tx s) w) as [b|]; [|done].
  destruct (chan_try_send b); simpl; [by apply healthy_on_transfer|done|].
  apply healthy_on_transfer; [done|]. apply (healthy_session _ s); [apply Hh|done].
Qed.

Lemma healthy_try_send n s w item :
  healthy n s w -> healthy n (try_send item (s, w)).2.1 (try_send item (s, w)).2.2.
Proof.
  intros Hh. unfold try_send, bind, ensure_open.
  destruct (isSome _ || _ || _); [by apply healthy_feed|].
  pose proof (healthy_open n s w Hh) as Ho. destruct (open (s, w)) as [[[]|e] [s1 w1]];
    cbn [fst snd] in *; [by apply healthy_feed|done].
Qed.

(** A healthy transfer's verdict is never a failure. *)
Lemma healthy_poll_status n s w L m r s' w' :
  poll_status (s, w) = (r, (s', w')) -> Link n s w L m -> m <> Unopened -> healthy n s w ->
  healthy n s' w' /\ (forall e, r <> Some (Err e)).
Proof.
  intros Hp HL Hm [Hs Ht]. unfold poll_status in Hp.
  destruct (s_terminal s) as [[u|msg]|] eqn:Et.
  - injection Hp as <- <- <-. split; [|done]. split; [done|]. by rewrite Et.
  - by destruct (Ht msg).
  - assert (exists b, w_transfers w !! n = Some b /\ s_status s = Some n) as (b & Hb & Hst).
    { inversion HL as [|b Hb ? Hh|b Hb ? Hh|b Hb ? Hh]; subst; [done| | |];
        exists b; (split; [done|]); destruct (h_status _ _ _ Hh) as [[? ?]|(_ & ? & _)]; congruence. }
    rewrite Hst in Hp. simpl in Hp. rewrite Hb in Hp. simpl in Hp.
    destruct (Hs b Hb) as [E|E]; rewrite E in Hp; simplify_eq/=.
    + split; [|done]. split; [done|]. by rewrite Et.
    + split; [|done]. split; [|done]. intros b'. destruct (s_update_type s); apply Hs.
Qed.

(** ** Dropping a session *)

(** What dropping a session leaves of a transfer. *)
Definition dropped_from (b b' : Backend) : Prop :=
  bk_status b' = bk_status b /\ bk_log b' = bk_log b /\ bk_drain b' = bk_drain b /\
  bk_written b' = bk_written b /\ (dead b -> dead b').

Lemma on_transfer_dropped h f w n b :
  w_transfers w !! n = Some b -> (forall b, dropped_from b (f b)) ->
  exists b', w_transfers (on_transfer h f w) !! n = Some b' /\ dropped_from b b'.
Proof.
  intros Hb Hf. destruct h as [i|]; simpl; [|by exists b]. rewrite list_lookup_alter.
  destruct (decide (i = n)) as [->|]; [|by exists b]. rewrite Hb. by exists (f b).
Qed.

Lemma drop_session_lookup s w n b :
  w_transfers w !! n = Some b ->
  exists b', w_transfers (drop_session s w) !! n = Some b' /\ dropped_from b b'.
Proof.
  intros Hb. unfold drop_session.
  destruct (on_transfer_dropped (s_tx s) (bk_set_tx false) w n b Hb) as (b1 & Hb1 & H1).
  { intros b0. repeat (split; [done|]). intros []. by split. }
  destruct (on_transfer_dropped (s_recycle_rx s) (fun b => bk_set_recycle [] false b) _ n b1 Hb1)
    as (b2 & Hb2 & H2).
  { intros b0. repeat (split; [done|]). intros []. by split. }
  exists b2. split; [done|]. unfold dropped_from in *. intuition congruence.
Qed.
