(* ===== verification/Owner.v ===== *)
(** * Who holds the sender of a transfer

    A producer keeps the only sender of the transfer it feeds: a transfer whose
    sender is open is the one its session feeds. When the session is dropped or
    aborted no sender is left, so SWUpdate sees the end of the stream instead
    of waiting for ever. The session's operations keep this invariant, and so do
    the functions built from them, which is shown with the rules for awaited
    operations below. The same rules carry a second invariant ([tracked]): a status
    task that still runs is the one the session holds. Both are instances of
    [SessionInv]. *)

From S2P Require Import Prelude Io Session.

(** [owned h w]: every transfer whose sender is open is the one [h] names. *)
Definition owned (h : option nat) (w : World) : Prop :=
  forall i b, w_transfers w !! i = Some b -> bk_tx_open b = true -> h = Some i.

Definition sw_owned (sw : SW) : Prop := owned (s_tx sw.1) sw.2.

(** No sender is left. *)
Definition released (w : World) : Prop := owned None w.

Lemma released_spec w : released w <-> Forall (fun b => bk_tx_open b = false) (w_transfers w).
Proof.
  rewrite Forall_lookup. split.
  - intros H i b Hb. destruct (bk_tx_open b) eqn:E; [|done]. specialize (H i b Hb E). done.
  - intros H i b Hb E. specialize (H i b Hb). congruence.
Qed.

Lemma owned_alter h i f w :
  (forall b, bk_tx_open (f b) = true -> bk_tx_open b = true) -> owned h w -> owned h (w_alter i f w).
Proof.
  intros Hf H j b. rewrite w_alter_lookup. destruct (decide (i = j)) as [->|]; [|apply H].
  intros (b0 & Hb0 & ->)%fmap_Some Ho. by apply (H j b0), Hf.
Qed.

Lemma owned_on_transfer h k f w :
  (forall b, bk_tx_open (f b) = true -> bk_tx_open b = true) -> owned h w -> owned h (on_transfer k f w).
Proof. intros Hf H. destruct k; [by apply owned_alter|done]. Qed.

Lemma bstep_tx_open ev b : bk_tx_open (default b (bstep ev b)) = true -> bk_tx_open b = true.
Proof.
  destruct (bstep ev b) as [b'|] eqn:E; [|done]. simpl. destruct ev; simpl in E; case_matches_in E; simpl; congruence.
Qed.

Lemma owned_wstep h ev w : owned h w -> owned h (wstep ev w).
Proof.
  intros H. destruct ev as [i ev|]; simpl; [apply owned_alter; [apply bstep_tx_open|done]|].
  destruct (w_success_tasks w) as [|t ts]; [done|]. unfold on_update_success. by destruct (is_complete t).
Qed.

Lemma owned_wsteps h evs w : owned h w -> owned h (wsteps evs w).
Proof.
  unfold wsteps. revert w. induction evs as [|ev evs IH]; intros w H; simpl; [done|].
  by apply IH, owned_wstep.
Qed.

(** Dropping the sender releases the transfer. *)
Lemma release_tx h w : owned h w -> released (on_transfer h (bk_set_tx false) w).
Proof.
  intros H j b. destruct h as [i|]; simpl; [|by apply H].
  rewrite list_lookup_alter. destruct (decide (i = j)) as [->|Hne].
  - intros (b0 & _ & ->)%fmap_Some. done.
  - intros Hb Ho. specialize (H j b Hb Ho). congruence.
Qed.

Lemma released_owned h w : released w -> owned h w.
Proof. intros H i b Hb Ho. specialize (H i b Hb Ho). done. Qed.

Lemma drop_session_released s w : owned (s_tx s) w -> released (drop_session s w).
Proof. intros H. unfold drop_session. apply owned_on_transfer; [done|]. by apply release_tx. Qed.

(** ** The session's operations *)

Lemma drop_tx_owned : preserves sw_owned drop_tx.
Proof. intros [s w] H. unfold sw_owned. cbn. by apply release_tx. Qed.

Lemma eof_owned : preserves sw_owned eof.
Proof. apply drop_tx_owned. Qed.

Lemma buffer_owned : preserves sw_owned buffer.
Proof. intros [s w] H. by apply owned_on_transfer. Qed.

Lemma open_owned : preserves sw_owned open.
Proof.
  intros [s w] H. unfold open. destruct (is_open s) eqn:Eo; [done|].
  destruct (reject_if_restart_pending w); [|done]. intros i b. cbn [w_transfers w_spawn snd fst s_tx].
  assert (sw_owned (s, close_recycle (set_terminal None s) w)) as H' by by apply owned_on_transfer.
  rewrite lookup_app_Some. intros [Hb|[Hi Hb]] Ho.
  - specialize (H' i b Hb Ho). cbn in H'. unfold is_open in Eo. rewrite H' in Eo. done.
  - f_equal. apply lookup_lt_Some in Hb. rewrite close_recycle_length in *. simpl in Hb. lia.
Qed.

Lemma ensure_open_owned : preserves sw_owned ensure_open.
Proof. intros [s w] H. unfold ensure_open. destruct (_ || _); [done|]. by apply open_owned. Qed.

Lemma feed_owned item : preserves sw_owned (feed item).
Proof.
  intros [s w] H. unfold feed. destruct (transfer (s_tx s) w); [|done].
  destruct (chan_try_send b); [|done|by apply (drop_tx_owned (s, w))].
  by apply owned_on_transfer.
Qed.

Lemma try_send_owned item : preserves sw_owned (try_send item).
Proof. apply preserves_bind; [apply ensure_open_owned|intros _; apply feed_owned]. Qed.

Lemma settle_owned j : preserves sw_owned (settle j).
Proof.
  destruct j as [[[]|e]|msg]; [|by intros [s w] H..]. intros [s w] H. cbn.
  unfold sw_owned. cbn. by destruct (s_update_type s).
Qed.

Lemma poll_status_owned sw : sw_owned sw -> sw_owned (poll_status sw).2.
Proof.
  destruct sw as [s w]. intros H. unfold poll_status. destruct (s_terminal s) as [[[]|]|]; [done|done|].
  destruct (transfer (s_status s) w) as [b|]; [|done].
  assert (forall j, sw_owned (settle j (set_status None s, w)).2) as Hs by (intros j; by apply settle_owned).
  destruct (bk_status b) as [|j|]; [done|pose proof (Hs j) as Hj|pose proof (Hs (JoinFailed "task was cancelled")) as Hj];
    by destruct (settle _ _).
Qed.

(** An aborted session leaves no sender. *)
Lemma abort_released s w :
  owned (s_tx s) w -> s_tx (abort (s, w)).2.1 = None /\ released (abort (s, w)).2.2.
Proof.
  intros H. split; [done|]. unfold abort. cbn. unfold released.
  apply owned_on_transfer; [intros b; by destruct (bk_status b)|].
  apply owned_on_transfer; [done|]. by apply release_tx.
Qed.

Lemma abort_owned : preserves sw_owned abort.
Proof. intros [s w] H. destruct (abort_released s w H) as [Ht Hr]. unfold sw_owned. by rewrite Ht. Qed.

#[export] Hint Resolve drop_tx_owned eof_owned buffer_owned open_owned ensure_open_owned feed_owned
  try_send_owned settle_owned abort_owned : gadget.

(** ** Awaited operations *)

(** An invariant that holds whatever the outcome, also of an operation that was
    left pending. *)
Definition apreserves {S A} (I : S -> Prop) (m : Async S A) : Prop :=
  forall l s, I s -> I (m l s).2.2.

Lemma apreserves_sync {S A} (I : S -> Prop) (m : M S A) : preserves I m -> apreserves I (sync m).
Proof. intros H l s Hs. unfold sync. specialize (H s Hs). by destruct (m s). Qed.

Lemma apreserves_abind {S A B} (I : S -> Prop) (m : Async S A) (f : A -> Async S B) :
  apreserves I m -> (forall a, apreserves I (f a)) -> apreserves I (abind m f).
Proof.
  intros Hm Hf l s Hs. unfold abind. specialize (Hm l s Hs).
  destruct (m l s) as [[[a|e]|] [l' s']]; cbn [snd] in *; [by apply Hf|done|done].
Qed.

Lemma apreserves_wait {A} (I : SW -> Prop) (poll : SW -> option (io_result A) * SW) :
  (forall s, I s -> I (poll s).2) -> (forall ev s, I s -> I (tick_sw ev s)) ->
  apreserves I (wait tick_sw poll).
Proof.
  intros Hp Ht l. induction l as [|ev l IH]; intros s Hs; cbn [wait]; specialize (Hp s Hs);
    destruct (poll s) as [[r|] s']; try done. by apply IH, Ht.
Qed.

(** ** Invariants of a session's owner

    What the functions built from a session need of an invariant: every operation
    of the session and every background event keeps it, and so does replacing a
    session whose verdict is known by a new one. *)
Class SessionInv (I : SW -> Prop) : Prop := {
  si_tick ev sw : I sw -> I (tick_sw ev sw);
  si_drop_tx : preserves I drop_tx;
  si_buffer : preserves I buffer;
  si_open : preserves I open;
  si_feed item : preserves I (feed item);
  si_poll sw : I sw -> I (poll_status sw).2;
  si_abort : preserves I abort;
  si_replace sw r sw' p size :
    I sw -> poll_status sw = (Some r, sw') -> I (session_new p size, drop_session sw'.1 sw'.2);
}.

Section Kept.
Context {I : SW -> Prop} `{!SessionInv I}.

Lemma ticks_kept evs s w : I (s, w) -> I (s, wsteps evs w).
Proof.
  unfold wsteps. revert w. induction evs as [|ev evs IH]; intros w H; cbn [foldl]; [done|]. by apply IH, (si_tick ev (s, w)).
Qed.

Lemma ensure_open_kept : preserves I ensure_open.
Proof. intros [s w] H. unfold ensure_open. destruct (_ || _); [done|]. by apply si_open. Qed.

Lemma send_kept item : apreserves I (send item).
Proof.
  apply apreserves_abind; [apply apreserves_sync, ensure_open_kept|]. intros _.
  apply apreserves_wait; [|apply si_tick]. intros sw H. unfold poll_send.
  pose proof (si_feed item sw H) as Hf. by destruct (feed item sw) as [[[]|] sw'].
Qed.

Lemma finished_kept : apreserves I finished.
Proof. apply apreserves_wait; [apply si_poll|apply si_tick]. Qed.

Lemma finished_result_kept : apreserves I finished_result.
Proof.
  intros l sw H. unfold finished_result. pose proof (finished_kept l sw H) as Hf.
  by destruct (finished l sw) as [[r|] [l' s']].
Qed.

(** The verdict is known once the wait for it has returned. *)
Lemma finished_replace l sw r l' sw' p size :
  I sw -> finished l sw = (Some r, (l', sw')) -> I (session_new p size, drop_session sw'.1 sw'.2).
Proof.
  unfold finished. revert sw. induction l as [|ev l IH]; intros sw H; cbn [wait];
    destruct (poll_status sw) as [[r'|] sw1] eqn:E; try done.
  - intros [= _ _ <-]. by eapply si_replace.
  - intros [= _ _ <-]. by eapply si_replace.
  - intros Hf. eapply IH; [|exact Hf]. apply si_tick. pose proof (si_poll sw H) as Hp. by rewrite E in Hp.
Qed.

(** A producer that keeps it. *)
Lemma pump_kept `{SwupdatePumpSource Src} fuel (src : Src) :
  (forall src, apreserves I (next_block src)) -> apreserves I (pump_to_swupdate fuel src).
Proof.
  intros Hn. revert src. induction fuel as [|fuel IH]; intros src; cbn [pump_to_swupdate]; [by intros l s Hs|].
  apply apreserves_abind; [done|]. intros [[item|] src']; [|apply apreserves_sync, preserves_ret].
  intros l [s w] Hs. set (v := if is_open s then _ else _).
  assert (I v.2) as Hv by (subst v; destruct (is_open s); [by apply si_poll|done]).
  destruct v as [[r|] sw]; [done|]. cbn [snd] in Hv.
  eapply apreserves_abind; [apply send_kept| |exact Hv].
  intros [k|it|]; [apply IH|apply IH|].
  apply apreserves_abind; [apply finished_result_kept|]. intros r. apply apreserves_sync, preserves_ret.
Qed.
End Kept.

#[global] Instance owned_inv : SessionInv sw_owned.
Proof.
  split; auto with gadget.
  - intros ev [s w]. apply owned_wstep.
  - apply poll_status_owned.
  - intros sw r [s' w'] p size H E. pose proof (poll_status_owned sw H) as Hp. rewrite E in Hp.
    by apply drop_session_released.
Qed.

Lemma tick_owned ev sw : sw_owned sw -> sw_owned (tick_sw ev sw).
Proof. apply si_tick. Qed.

Lemma send_owned item : apreserves sw_owned (send item).
Proof. apply send_kept. Qed.

Lemma finished_owned : apreserves sw_owned finished.
Proof. apply finished_kept. Qed.

Lemma finished_result_owned : apreserves sw_owned finished_result.
Proof. apply finished_result_kept. Qed.

#[global] Instance both_inv (I J : SW -> Prop) :
  SessionInv I -> SessionInv J -> SessionInv (fun sw => I sw /\ J sw).
Proof.
  intros HI HJ. split.
  - intros ev sw [H1 H2]. split; by apply si_tick.
  - intros sw [H1 H2]. split; by apply si_drop_tx.
  - intros sw [H1 H2]. split; by apply si_buffer.
  - intros sw [H1 H2]. split; by apply si_open.
  - intros item sw [H1 H2]. split; by apply si_feed.
  - intros sw [H1 H2]. split; by apply si_poll.
  - intros sw [H1 H2]. split; by apply si_abort.
  - intros sw r sw' p size [H1 H2] E. split; by eapply si_replace.
Qed.

(** ** Who waits for the verdict

    A status task that is still running is the one the session will ask: none is
    left behind when a session opens another transfer or is replaced. Transfers
    before [n] are not the owner's. *)
Definition tracked (n : nat) (sw : SW) : Prop :=
  (s_terminal sw.1 <> None -> s_status sw.1 = None) /\
  forall i b, (n <= i)%nat -> w_transfers sw.2 !! i = Some b -> bk_status b = StRunning -> s_status sw.1 = Some i.

(** No status task of the owner is running. *)
Definition at_rest (n : nat) (w : World) : Prop :=
  forall i b, (n <= i)%nat -> w_transfers w !! i = Some b -> bk_status b <> StRunning.

Lemma tracked_rest n s w : tracked n (s, w) -> s_status s = None -> at_rest n w.
Proof. intros [_ Ht] Hs i b Hi Hb Hr. specialize (Ht i b Hi Hb Hr). cbn in Ht. congruence. Qed.

Lemma rest_tracked n s w : at_rest n w -> (s_terminal s <> None -> s_status s = None) -> tracked n (s, w).
Proof. intros Hr Hk. split; [done|]. intros i b Hi Hb Hs. by destruct (Hr i b Hi Hb). Qed.

Lemma tracked_alter n s w i f :
  (forall b, bk_status (f b) = StRunning -> bk_status b = StRunning) ->
  tracked n (s, w) -> tracked n (s, w_alter i f w).
Proof.
  intros Hf [Hk Ht]. split; [done|]. intros j b Hj. cbn [fst snd]. rewrite w_alter_lookup.
  destruct (decide (i = j)) as [->|]; [|by apply Ht]. intros (b0 & Hb0 & ->)%fmap_Some Hr. by apply (Ht j b0 Hj Hb0), Hf.
Qed.

Lemma tracked_on_transfer n s w h f :
  (forall b, bk_status (f b) = StRunning -> bk_status b = StRunning) ->
  tracked n (s, w) -> tracked n (s, on_transfer h f w).
Proof. intros Hf H. destruct h; [by apply tracked_alter|done]. Qed.

(** The part of a session it speaks of. *)
Lemma tracked_session n s s' w :
  s_status s' = s_status s -> s_terminal s' = s_terminal s -> tracked n (s, w) -> tracked n (s', w).
Proof. intros Hs Ht. unfold tracked. cbn [fst snd]. by rewrite Hs, Ht. Qed.

Lemma bstep_running ev b : bk_status (default b (bstep ev b)) = StRunning -> bk_status b = StRunning.
Proof.
  destruct (bstep ev b) as [b'|] eqn:E; [|done]. simpl. destruct ev; simpl in E; case_matches_in E; simpl; congruence.
Qed.

Lemma drop_tx_tracked n : preserves (tracked n) drop_tx.
Proof. intros [s w] H. cbn. apply tracked_on_transfer; [done|]. by apply (tracked_session n s). Qed.

Lemma settle_tracked n j s w : at_rest n w -> s_status s = None -> tracked n (settle j (s, w)).2.
Proof. intros Hr Hs. destruct j as [[[]|e]|msg]; cbn; apply rest_tracked; try done. by destruct (s_update_type s). Qed.

Lemma poll_tracked n sw :
  tracked n sw ->
  tracked n (poll_status sw).2 /\ (forall r, (poll_status sw).1 = Some r -> at_rest n (poll_status sw).2.2).
Proof.
  destruct sw as [s w]. intros H. unfold poll_status. pose proof H as [Hk Ht]. cbn [fst snd] in *.
  assert (s_terminal s <> None -> at_rest n w) as Hrest by (intros Hne; by eapply tracked_rest, Hk).
  destruct (s_terminal s) as [[[]|m]|] eqn:Et; [split; [done|]; intros ? _; by apply Hrest..|].
  destruct (transfer (s_status s) w) as [b|] eqn:Eb.
  - assert (bk_status b <> StRunning -> at_rest n w) as Hd.
    { intros Hb i b' Hi Hb' Hr. pose proof (Ht i b' Hi Hb' Hr) as Hs. rewrite Hs in Eb. cbn in Eb. congruence. }
    assert (forall j, at_rest n w -> tracked n (settle j (set_status None s, w)).2 /\
      at_rest n (settle j (set_status None s, w)).2.2) as Hset.
    { intros j Hr. pose proof (settle_tracked n j (set_status None s) w Hr eq_refl) as Hx. split; [done|].
      assert (s_status (settle j (set_status None s, w)).2.1 = None) as Hn by (by destruct j as [[[]|e]|msg]).
      destruct (settle j _) as [r [s1 w1]]. by apply (tracked_rest n s1). }
    destruct (bk_status b) as [|j|]; [by split| |].
    + specialize (Hset j (Hd ltac:(done))). destruct (settle j _). destruct Hset. by split.
    + specialize (Hset (JoinFailed "task was cancelled") (Hd ltac:(done))). destruct (settle _ _). destruct Hset. by split.
  - split; [done|]. intros _ _ i b Hi Hb Hr. pose proof (Ht i b Hi Hb Hr) as Hs.
    rewrite Hs in Eb. unfold transfer in Eb. cbn [snd mbind option_bind] in Eb, Hb. congruence.
Qed.

#[global] Instance tracked_inv n : SessionInv (tracked n).
Proof.
  split.
  - intros [i ev|] [s w] H; unfold tick_sw; cbn [wstep fst snd].
    + apply tracked_alter; [apply bstep_running|done].
    + destruct (w_success_tasks w) as [|t ts]; [done|]. unfold on_update_success. by destruct (is_complete t).
  - apply drop_tx_tracked.
  - intros [s w] H. by apply tracked_on_transfer.
  - intros [s w] H. unfold open. destruct (is_open s) eqn:Eo; [done|].
    assert (s_status s = None) as Hs by (unfold is_open in Eo; by destruct (s_tx s), (s_status s)).
    pose proof (tracked_rest _ _ _ H Hs) as Hr. destruct (reject_if_restart_pending w).
    + split; [done|]. intros i b Hi. cbn [w_transfers w_spawn snd fst s_status].
      rewrite lookup_app_Some, close_recycle_length. intros [Hb|[Hl Hb]] Hst.
      * pose proof (tracked_on_transfer n s w (s_recycle_rx s) (fun b => bk_set_recycle [] false b) ltac:(done) H) as Hc.
        by destruct (tracked_rest _ _ _ Hc Hs i b Hi Hb).
      * apply lookup_lt_Some in Hb. simpl in Hb. f_equal. lia.
    + by apply rest_tracked.
  - intros item [s w] H. unfold feed. destruct (transfer (s_tx s) w); [|done].
    destruct (chan_try_send b); [|done|by apply (drop_tx_tracked n (s, w))]. by apply tracked_on_transfer.
  - intros sw H. by apply poll_tracked.
  - intros [s w] H. unfold abort, drop_recycle_rx, drop_tx, modify, bind. cbn [fst snd s_recycle_rx set_tx s_status set_recycle_rx].
    apply rest_tracked; [|done]. set (w1 := on_transfer (s_recycle_rx s) _ _).
    assert (tracked n (s, w1)) as H1 by (by do 2 (apply tracked_on_transfer; [done|])).
    intros i b Hi. destruct (s_status s) as [k|] eqn:Ek; cbn [on_transfer].
    + rewrite w_alter_lookup. destruct (decide (k = i)) as [->|Hne].
      * intros (b0 & _ & ->)%fmap_Some. destruct (bk_status b0) eqn:E0; cbn; congruence.
      * intros Hb Hr. apply (proj2 H1 i b Hi Hb) in Hr. cbn in Hr. congruence.
    + by apply (tracked_rest n s w1).
  - intros sw r [s' w'] p size H E. destruct (poll_tracked n sw H) as [_ Hr]. rewrite E in Hr.
    specialize (Hr r eq_refl). apply rest_tracked; [|done]. cbn [fst snd] in *.
    assert (tracked n (session_new p size, drop_session s' w')) as Ht.
    { unfold drop_session. do 2 (apply tracked_on_transfer; [done|]). by apply rest_tracked. }
    by apply (tracked_rest _ _ _ Ht).
Qed.

#[export] Hint Resolve apreserves_sync apreserves_abind send_owned finished_owned finished_result_owned : gadget.
