(* ===== verification/FunctionFs.v ===== *)
(** * FunctionFS endpoint zero

    Models crates/summit-usbgadget-usb/src/functionfs.rs: the classification of
    transport errors and the endpoint-zero loop that hands each event to the
    handler of a function, which is an interface ([EventHandler]). Events are
    those of patches/usb-gadget (function/custom): a control request arrives
    with the outcome of its data stage, and with the background events that
    happen while the data stage is read. *)

From S2P Require Import Prelude Io Session.

(** ** Control requests and events *)

Record CtrlReq := {
  request_type : Z;
  request : Z;
  value : Z;
  index : Z;
  length_ : Z;
}.

(** What reading the OUT data stage yields: the background events during the
    read, then the bytes the host sent or an error. *)
Record DataStage := {
  ds_env : list wevent;
  ds_read : io_result (list byte);
}.

Inductive Event :=
| Bind
| Unbind
| Enable
| Disable
| Suspend
| Resume
| SetupHostToDevice (req : CtrlReq) (data : DataStage)
| SetupDeviceToHost (req : CtrlReq) (sent : io_result unit)
| Unknown (code : Z).

(** [CtrlReceiver::recv_async] into a buffer of [len] bytes: the read cannot
    return more than the buffer holds. *)
Definition recv_async (len : nat) (data : DataStage) : io_result (list byte) :=
  let? bytes := ds_read data in Ok (take len bytes).

(** ** Error classification *)

Definition is_torn_down_transport_error (err : io_error) : bool :=
  bool_decide (kind err = KNotConnected) || bool_decide (kind err = KBrokenPipe)
  || bool_decide (raw_os_error err = Some ENODEV).

Definition is_setup_superseded_error (err : io_error) : bool :=
  bool_decide (raw_os_error err = Some EIDRM).

Definition is_signal_interrupted_error (err : io_error) : bool :=
  bool_decide (kind err = KInterrupted).

Definition is_closed_transport_error (err : io_error) : bool :=
  is_torn_down_transport_error err || is_setup_superseded_error err
  || is_signal_interrupted_error err || bool_decide (raw_os_error err = Some ESHUTDOWN).

(** ** The endpoint-zero loop *)

(** What a function does with its events. The result of [handle_event] is what
    was sent to the host, if anything; an error before the reply was sent drops
    the request, which stalls the endpoint. *)
Class EventHandler (H : Type) := {
  handle_event : Event -> M (H * World) (option (list byte));
  on_transport_closed : M (H * World) unit;
  idle_timeout : H -> option Z;
  on_idle_timeout : M (H * World) unit;
}.

(** One wait for the next event: the background events during the wait, then an
    event, an error, or silence for as long as the idle timeout. *)
Inductive Ep0Wait := Ep0Next (r : io_result Event) | Ep0Silence.

Record Ep0Step := { es_env : list wevent; es_wait : Ep0Wait }.

Section Serve.
Context {H : Type} `{EventHandler H}.

(** The outcome of the wait: silence is a timeout while the handler has one,
    and nothing happens otherwise. *)
Definition next_step (h : H) (s : Ep0Step) : option (io_result Event) :=
  match es_wait s with
  | Ep0Next r => Some r
  | Ep0Silence =>
      match idle_timeout h with
      | Some _ => Some (Err (Custom KTimedOut "endpoint zero idle"))
      | None => None
      end
  end.

(** One turn of the loop; [true] when the loop stops. *)
Definition serve_step (r : io_result Event) (hw : H * World) : bool * (H * World) :=
  match r with
  | Ok event => (false, (handle_event event hw).2)
  | Err err =>
      if is_torn_down_transport_error err then (true, (on_transport_closed hw).2)
      else if is_setup_superseded_error err then (false, hw)
      else if bool_decide (kind err = KTimedOut) then (false, (on_idle_timeout hw).2)
      else (false, hw)
  end.

(** The loop over the waits of a run; the flag says whether it has stopped.
    [fd] is the outcome of [Ep0Events::new]. *)
Fixpoint serve_loop (steps : list Ep0Step) (hw : H * World) : bool * (H * World) :=
  match steps with
  | [] => (false, hw)
  | s :: steps =>
      let hw := (hw.1, wsteps (es_env s) hw.2) in
      match next_step hw.1 s with
      | None => serve_loop steps hw
      | Some r =>
          let (stop, hw) := serve_step r hw in
          if stop then (true, hw) else serve_loop steps hw
      end
  end.

Definition serve (fd : io_result unit) (steps : list Ep0Step) (hw : H * World)
    : bool * (H * World) :=
  match fd with
  | Err _ => (true, hw)
  | Ok _ => serve_loop steps hw
  end.

(** ** Properties of the loop *)

(** An invariant every callback keeps holds at every point of the loop. *)
Lemma serve_preserves (I : H * World -> Prop) :
  (forall ev, preserves I (handle_event ev)) ->
  preserves I on_transport_closed -> preserves I on_idle_timeout ->
  (forall h w evs, I (h, w) -> I (h, wsteps evs w)) ->
  forall fd steps hw, I hw -> I (serve fd steps hw).2.
Proof.
  intros Hev Hc Hi He fd steps hw Hhw. destruct fd; [simpl|done].
  revert hw Hhw. induction steps as [|s steps IH]; intros [h w] Hhw; simpl; [done|].
  assert (I (h, wsteps (es_env s) w)) as Hw by auto.
  destruct (next_step h s) as [r|]; [|by apply IH].
  assert (I (serve_step r (h, wsteps (es_env s) w)).2) as Hstep.
  { unfold serve_step. destruct r as [ev|err]; [by apply Hev|].
    repeat case_match; simpl; auto. }
  destruct (serve_step r _) as [[] hw']; [done|by apply IH].
Qed.

(** The loop ends exactly when endpoint zero is torn down, and then the last
    thing it did was to notify the handler. *)
Lemma serve_loop_stops steps hw hw' :
  serve_loop steps hw = (true, hw') ->
  exists s err h w, s ∈ steps /\ es_wait s = Ep0Next (Err err) /\
    is_torn_down_transport_error err = true /\
    hw' = (on_transport_closed (h, w)).2.
Proof.
  revert hw. induction steps as [|s steps IH]; intros [h w]; simpl; [done|].
  assert (forall hw1, serve_loop steps hw1 = (true, hw') ->
    exists s0 err h w, s0 ∈ s :: steps /\ es_wait s0 = Ep0Next (Err err) /\
    is_torn_down_transport_error err = true /\ hw' = (on_transport_closed (h, w)).2) as Hrec.
  { intros hw1 H1. destruct (IH hw1 H1) as (s0 & err & h0 & w0 & ? & ?).
    exists s0, err, h0, w0. split; [by apply list_elem_of_further|done]. }
  destruct (next_step h s) as [r|] eqn:Er; [|apply Hrec].
  unfold serve_step. destruct r as [ev|err]; [apply Hrec|].
  destruct (is_torn_down_transport_error err) eqn:Et.
  - intros [= <-]. exists s, err, h, (wsteps (es_env s) w).
    split; [left|]. unfold next_step in Er.
    destruct (es_wait s) as [r'|] eqn:Ew; [by simplify_eq|].
    destruct (idle_timeout h); by simplify_eq.
  - destruct (is_setup_superseded_error err); [apply Hrec|].
    destruct (bool_decide _); apply Hrec.
Qed.
End Serve.

(** A superseded request, a signal and a disabled bulk endpoint never stop the
    loop; a torn-down transport is always also a closed one. *)
Lemma torn_down_is_closed err :
  is_torn_down_transport_error err = true -> is_closed_transport_error err = true.
Proof. unfold is_closed_transport_error. by intros ->. Qed.

(** The endpoint-zero loop is stopped by the errors that mean the gadget is
    gone (not connected, broken pipe, no such device) and by no others: a
    superseded setup packet, an interrupting signal and the shutdown of a bulk
    endpoint are closed-transport errors for one request only, and every other
    error number is neither. *)
Theorem transport_error_classes n :
  is_torn_down_transport_error (Os n) = bool_decide (n ∈ [ENOTCONN; EPIPE; ENODEV]) /\
  is_closed_transport_error (Os n)
    = bool_decide (n ∈ [ENOTCONN; EPIPE; ENODEV; EIDRM; EINTR; ESHUTDOWN]).
Proof.
  unfold is_closed_transport_error, is_torn_down_transport_error, is_setup_superseded_error,
    is_signal_interrupted_error, kind, decode_error_kind, raw_os_error,
    ENOENT, EINTR, EAGAIN, EINVAL, EPIPE, ECONNABORTED, ENOTCONN, ETIMEDOUT, ENODEV, EIDRM,
    ESHUTDOWN in *.
  repeat match goal with
  | |- context [n =? ?m] => destruct (Z.eqb_spec n m) as [->|]; [by vm_compute|]
  end.
  destruct (decide (n = 19)) as [->|]; [by vm_compute|].
  destruct (decide (n = 43)) as [->|]; [by vm_compute|].
  destruct (decide (n = 108)) as [->|]; [by vm_compute|].
  rewrite !(bool_decide_eq_false_2 (_ ∈ _)) by (rewrite !elem_of_cons, elem_of_nil; intuition congruence).
  rewrite !(bool_decide_eq_false_2 (Some n = _)) by congruence.
  by split.
Qed.
