(* ===== verification/Dfu.v ===== *)
(** * The DFU 1.1 function

    Models crates/summit-usbgadget-dfu: the wire protocol (protocol.rs), the
    state machine driven from endpoint zero (handler.rs), the dispatch of
    FunctionFS events to it (gadget.rs) and its configuration (config.rs,
    lib.rs). Every method of [Dfu] is an operation of the state-error monad over
    the handler and the world of its update sessions. The CRC hasher is the
    interface of Crc32.v. *)

From S2P Require Import Prelude Io Bytes Crc32 SysInfo Session FunctionFs.

(** ** Wire protocol (protocol.rs) *)

Definition DETACH : Z := 0.
Definition DNLOAD : Z := 1.
Definition UPLOAD : Z := 2.
Definition GETSTATUS : Z := 3.
Definition CLRSTATUS : Z := 4.
Definition GETSTATE : Z := 5.
Definition ABORT : Z := 6.

Inductive State :=
| AppIdle | AppDetach | DfuIdle | DnloadSync | DnBusy | DnloadIdle
| ManifestSync | Manifest | ManifestWaitReset | UploadIdle | Error.

#[global] Instance State_eq_dec : EqDecision State.
Proof. solve_decision. Defined.

Definition state_u8 (s : State) : Z :=
  match s with
  | AppIdle => 0 | AppDetach => 1 | DfuIdle => 2 | DnloadSync => 3 | DnBusy => 4
  | DnloadIdle => 5 | ManifestSync => 6 | Manifest => 7 | ManifestWaitReset => 8
  | UploadIdle => 9 | Error => 10
  end.

Inductive Status :=
| StatusOk | ErrTarget | ErrFile | ErrWrite | ErrErase | ErrCheckErased | ErrProg
| ErrVerify | ErrAddress | ErrNotDone | ErrFirmware | ErrVendor | ErrUsbr | ErrPor
| ErrUnknown | ErrStalledPkt.

#[global] Instance Status_eq_dec : EqDecision Status.
Proof. solve_decision. Defined.

Definition status_u8 (s : Status) : Z :=
  match s with
  | StatusOk => 0 | ErrTarget => 1 | ErrFile => 2 | ErrWrite => 3 | ErrErase => 4
  | ErrCheckErased => 5 | ErrProg => 6 | ErrVerify => 7 | ErrAddress => 8 | ErrNotDone => 9
  | ErrFirmware => 10 | ErrVendor => 11 | ErrUsbr => 12 | ErrPor => 13 | ErrUnknown => 14
  | ErrStalledPkt => 15
  end.

Record GetStatus := {
  gs_status : Status;
  gs_poll_timeout_ms : Z;
  gs_state : State;
  gs_string_index : Z;
}.

Definition GetStatus_LEN : nat := 6.

(** The [u32] poll timeout is sent as its three low bytes. *)
Definition to_bytes (g : GetStatus) : list byte :=
  let poll := le_bytes 4 (gs_poll_timeout_ms g) in
  [z2b (status_u8 (gs_status g))] ++ take 3 poll
  ++ [z2b (state_u8 (gs_state g)); z2b (gs_string_index g)].

(** ** Configuration (config.rs, lib.rs) *)

Inductive DfuConfigError :=
| Swupdate (err : SwupdateConfigError)
| UnsupportedUploadTarget (target : string).

Inductive UploadSource := UploadData (data : list byte).

Record DfuConfig := {
  dc_download : SwupdateParams;
  dc_upload : option UploadSource;
  dc_transfer_size : Z;
  dc_poll_timeout_ms : Z;
}.

(** The DFU functional descriptor (the [DfuDesc] of the gadget library). *)
Record DfuDesc := {
  can_download : bool;
  can_upload : bool;
  manifest_tolerant : bool;
  will_detach : bool;
  detach_timeout_ms : Z;
  transfer_size_ : Z;
  dfu_version : Z * Z;
}.

Definition descriptor (c : DfuConfig) : DfuDesc :=
  {| can_download := true; can_upload := isSome (dc_upload c); manifest_tolerant := true;
     will_detach := false; detach_timeout_ms := 1000; transfer_size_ := dc_transfer_size c;
     dfu_version := (1, 1) |}.

Record DfuFnConfig := {
  df_swupdate : SwupdateConfig;
  df_upload : option string;
  df_transfer_size : Z;
  df_poll_timeout_ms : Z;
}.

Definition DEFAULT_POLL_TIMEOUT_MS : Z := 10.

Definition default_swupdate_config : SwupdateConfig :=
  {| cfg_download := None; cfg_software_set := None; cfg_image_mode := None;
     cfg_dry_run := None; cfg_disable_store_swu := None; cfg_timeout_secs := None |}.

Definition default_dfu_fn_config : DfuFnConfig :=
  {| df_swupdate := default_swupdate_config; df_upload := None; df_transfer_size := 4096;
     df_poll_timeout_ms := DEFAULT_POLL_TIMEOUT_MS |}.

Definition to_config (env : SysEnv) (c : DfuFnConfig) : result DfuConfig DfuConfigError :=
  let? upload :=
    match df_upload c with
    | None => Ok None
    | Some target =>
        if bool_decide (target = "sysinfo") then Ok (Some (UploadData (system_info_json env)))
        else Err (UnsupportedUploadTarget target)
    end in
  let? download := map_err Swupdate (to_params (df_swupdate c)) in
  Ok {| dc_download := download; dc_upload := upload; dc_transfer_size := df_transfer_size c;
        dc_poll_timeout_ms := df_poll_timeout_ms c |}.

(** ** The handler (handler.rs) *)

Definition DFU_SUFFIX_LEN : nat := 16.
Definition DNLOAD_BUSY_POLL_TIMEOUT_MS : Z := 100.
Definition MANIFEST_POLL_TIMEOUT_MS : Z := 100.
Definition TRANSFER_IDLE_TIMEOUT_MS : Z := 5000.

Inductive InReply :=
| Inline (buf : list byte) (len : nat)
| Data (data : list byte).

Definition as_slice (r : InReply) : list byte :=
  match r with Inline buf len => take len buf | Data data => data end.

Definition from_state (s : State) : InReply :=
  Inline (z2b (state_u8 s) :: replicate 5 Byte.x00) 1.

Definition is_dfu_request (req : CtrlReq) : bool :=
  (Z.land (request_type req) 96 =? 32) && (Z.land (request_type req) 31 =? 1).

Definition flushable_len (total : nat) : option nat :=
  if (DFU_SUFFIX_LEN <? total)%nat then Some (total - DFU_SUFFIX_LEN)%nat else None.

Section Dfu.
Context {H : Type} `{Hasher H}.

Record Dfu := {
  transfer_size : Z;
  poll_timeout_ms : Z;
  download : SwupdateParams;
  download_tail : list byte;
  download_crc : H;
  upload : option UploadSource;
  sink : option Session;
  pending : option block;
  state : State;
  status : Status;
}.

Definition dfu_new (c : DfuConfig) : Dfu :=
  {| transfer_size := dc_transfer_size c; poll_timeout_ms := dc_poll_timeout_ms c;
     download := dc_download c; download_tail := []; download_crc := hasher_new;
     upload := dc_upload c; sink := Some (session_new (dc_download c) (dc_transfer_size c));
     pending := None; state := DfuIdle; status := StatusOk |}.

Definition set_tail (v : list byte) (d : Dfu) : Dfu :=
  {| transfer_size := transfer_size d; poll_timeout_ms := poll_timeout_ms d;
     download := download d; download_tail := v; download_crc := download_crc d;
     upload := upload d; sink := sink d; pending := pending d; state := state d;
     status := status d |}.

Definition set_crc (v : H) (d : Dfu) : Dfu :=
  {| transfer_size := transfer_size d; poll_timeout_ms := poll_timeout_ms d;
     download := download d; download_tail := download_tail d; download_crc := v;
     upload := upload d; sink := sink d; pending := pending d; state := state d;
     status := status d |}.

Definition set_sink (v : option Session) (d : Dfu) : Dfu :=
  {| transfer_size := transfer_size d; poll_timeout_ms := poll_timeout_ms d;
     download := download d; download_tail := download_tail d; download_crc := download_crc d;
     upload := upload d; sink := v; pending := pending d; state := state d;
     status := status d |}.

Definition set_pending (v : option block) (d : Dfu) : Dfu :=
  {| transfer_size := transfer_size d; poll_timeout_ms := poll_timeout_ms d;
     download := download d; download_tail := download_tail d; download_crc := download_crc d;
     upload := upload d; sink := sink d; pending := v; state := state d;
     status := status d |}.

Definition set_state (v : State) (d : Dfu) : Dfu :=
  {| transfer_size := transfer_size d; poll_timeout_ms := poll_timeout_ms d;
     download := download d; download_tail := download_tail d; download_crc := download_crc d;
     upload := upload d; sink := sink d; pending := pending d; state := v;
     status := status d |}.

Definition set_dstatus (v : Status) (d : Dfu) : Dfu :=
  {| transfer_size := transfer_size d; poll_timeout_ms := poll_timeout_ms d;
     download := download d; download_tail := download_tail d; download_crc := download_crc d;
     upload := upload d; sink := sink d; pending := pending d; state := state d;
     status := v |}.

(** The handler with the world of its sessions. *)
Abbreviation DW := (Dfu * World)%type.

Definition update (f : Dfu -> Dfu) : M DW unit := modify (fun '(d, w) => (f d, w)).

(** Runs a session operation on the handler's sink; nothing without one. *)
Definition on_sink {A} (m : M SW A) : M DW (option A) := fun '(d, w) =>
  match sink d with
  | None => (Ok None, (d, w))
  | Some s =>
      match m (s, w) with
      | (Ok a, (s, w)) => (Ok (Some a), (set_sink (Some s) d, w))
      | (Err e, (s, w)) => (Err e, (set_sink (Some s) d, w))
      end
  end.

Definition try_finished_sink : M DW (option (io_result unit)) := fun '(d, w) =>
  match sink d with
  | None => (Ok None, (d, w))
  | Some s => let '(r, (s, w)) := try_finished (s, w) in (Ok r, (set_sink (Some s) d, w))
  end.

(** [self.sink = Some(SwupdateSession::new(..))]: the old session is dropped. *)
Definition replace_sink : M DW unit := modify (fun '(d, w) =>
  (set_sink (Some (session_new (download d) (transfer_size d))) d,
   match sink d with Some s => drop_session s w | None => w end)).

Definition fault (st : Status) : M DW unit :=
  update (set_dstatus st) >>; update (set_state Error).

Definition is_finishing (d : Dfu) : bool :=
  bool_decide (state d = Manifest) || bool_decide (state d = ManifestSync).

(** The end of [push_pending]: the sink is closed during manifestation. *)
Definition signal_eof : M DW unit :=
  do! st := gets (fun dw : DW => state dw.1) in
  if bool_decide (st = Manifest) then on_sink eof >>; ret tt else ret tt.

Definition push_pending : M DW bool :=
  do! chunk := gets (fun dw : DW => pending dw.1) in
  update (set_pending None) >>;
  do! busy :=
    match chunk with
    | None => ret false
    | Some chunk =>
        do! fed := on_sink (try_send chunk) in
        match fed with
        | Some (FeedOk _) | Some FeedClosed => ret false
        | Some (FeedFull chunk) => update (set_pending (Some chunk)) >>; ret true
        | None => update (set_pending (Some chunk)) >>; ret true
        end
    end in
  if busy then ret true else signal_eof >>; ret false.

Definition poll : M DW unit :=
  do! _ := push_pending in
  do! st := gets (fun dw : DW => state dw.1) in
  let manifesting := bool_decide (st = Manifest) in
  do! open := gets (fun dw : DW =>
    match sink dw.1 with Some s => manifesting || is_open s | None => false end) in
  do! result := if open : bool then try_finished_sink else ret None in
  match result with
  | Some (Err _) =>
      update (set_crc hasher_new) >>;
      replace_sink >>;
      update (set_pending None) >>;
      fault ErrVerify
  | Some (Ok _) =>
      if manifesting then
        update (set_crc hasher_new) >>;
        replace_sink >>;
        update (set_pending None) >>;
        update (set_dstatus StatusOk) >>;
        update (set_state ManifestSync)
      else ret tt
  | None => ret tt
  end.

Definition reset_on_idle_timeout : M DW unit :=
  on_sink abort >>;
  replace_sink >>;
  update (set_pending None) >>;
  update (set_dstatus StatusOk) >>;
  update (set_state DfuIdle) >>;
  update (set_tail []) >>;
  update (set_crc hasher_new).

(** The two methods of the handler have the same body. *)
Definition abort_transfer : M DW unit :=
  on_sink abort >>;
  replace_sink >>;
  update (set_pending None) >>;
  update (set_dstatus StatusOk) >>;
  update (set_state DfuIdle) >>;
  update (set_tail []) >>;
  update (set_crc hasher_new).

Definition abort_with_fault (st : Status) : M DW unit :=
  abort_transfer >>; fault st.

Definition dfu_idle_timeout (d : Dfu) : option Z :=
  if bool_decide (state d = DfuIdle) then None else Some TRANSFER_IDLE_TIMEOUT_MS.

Definition submit_chunk (chunk : block) : M DW unit :=
  do! busy := gets (fun dw : DW => isSome (pending dw.1)) in
  if busy : bool then abort_with_fault ErrStalledPkt
  else
    update (set_pending (Some chunk)) >>;
    do! _ := push_pending in ret tt.

Definition has_valid_dfu_suffix (prefix_crc : H) (buf : list byte) : bool :=
  if negb (length buf =? DFU_SUFFIX_LEN)%nat
     || negb (bool_decide (slice 8 11 buf = bs "UFD"))
     || negb (bool_decide (buf !! 11%nat = Some (z2b (Z.of_nat DFU_SUFFIX_LEN))))
  then false
  else
    let hasher := hasher_update prefix_crc (take (DFU_SUFFIX_LEN - 4) buf) in
    let crc := Z.lxor (hasher_finalize hasher) u32_max in
    let expected := le_val (drop (DFU_SUFFIX_LEN - 4) buf) in
    crc =? expected.

(** A recycled buffer filled with [data]. *)
Definition recycled_chunk_buffer (data : list byte) : M DW block :=
  do! buf := on_sink buffer in ret (default [] buf ++ data).

Definition manifest : M DW unit :=
  update (set_dstatus StatusOk) >>;
  update (set_state Manifest) >>;
  do! tail := gets (fun dw : DW => download_tail dw.1) in
  update (set_tail []) >>;
  do! crc := gets (fun dw : DW => download_crc dw.1) in
  if bool_decide (tail = []) || has_valid_dfu_suffix crc tail then
    do! _ := push_pending in ret tt
  else
    do! chunk := recycled_chunk_buffer tail in
    submit_chunk chunk.

Definition unsupported {A} : M DW A :=
  fault ErrStalledPkt >>; throw (Custom KInvalidInput "unsupported DFU request").

Definition handle_out (req : CtrlReq) : M DW unit :=
  poll >>;
  (if request req =? DETACH then update (set_state AppDetach)
   else if request req =? DNLOAD then manifest
   else if request req =? CLRSTATUS then
     do! clears := gets (fun dw : DW => bool_decide (state dw.1 = Error) || is_finishing dw.1) in
     if clears : bool then abort_transfer
     else
       update (set_dstatus StatusOk) >>;
       update (set_state DfuIdle) >>;
       update (set_tail []) >>;
       update (set_crc hasher_new)
   else if request req =? ABORT then abort_transfer
   else unsupported).

Definition next_status_state (d : Dfu) : State :=
  match state d with
  | DnloadSync | DnBusy => if isSome (pending d) then DnBusy else DnloadIdle
  | ManifestSync => DfuIdle
  | other => other
  end.

Definition status_poll_timeout (d : Dfu) (st : State) : Z :=
  match st with
  | DnloadIdle => 0
  | DnBusy => DNLOAD_BUSY_POLL_TIMEOUT_MS
  | Manifest | ManifestSync => MANIFEST_POLL_TIMEOUT_MS
  | _ => poll_timeout_ms d
  end.

Definition get_status : M DW InReply :=
  update (fun d => set_state (next_status_state d) d) >>;
  gets (fun dw : DW => let d := dw.1 in
    Inline (to_bytes {| gs_status := status d;
                        gs_poll_timeout_ms := status_poll_timeout d (state d);
                        gs_state := state d; gs_string_index := 0 |}) GetStatus_LEN).

Definition upload_block (req : CtrlReq) : M DW InReply :=
  do! d := gets (fun dw : DW => dw.1) in
  let offset := value req * transfer_size d in
  match upload d with
  | None => throw (Custom KNotFound "no DFU upload source configured")
  | Some (UploadData data) =>
      let start := Nat.min (Z.to_nat offset) (length data) in
      let end_ := Nat.min (start + Z.to_nat (transfer_size d)) (length data) in
      let buf := slice start end_ data in
      (if Z.of_nat (length buf) <? transfer_size d
       then update (set_state DfuIdle) else update (set_state UploadIdle)) >>;
      ret (Data buf)
  end.

Definition handle_in (req : CtrlReq) : M DW InReply :=
  poll >>;
  (if request req =? GETSTATUS then get_status
   else if request req =? GETSTATE then gets (fun dw : DW => from_state (state dw.1))
   else if request req =? UPLOAD then upload_block req
   else unsupported).

(** Receiving a block: the buffer starts with the carried tail, the data stage
    is read behind it while the background tasks go on. *)
Definition receive_dnload_block (req : CtrlReq) (data : DataStage) : M DW unit :=
  poll >>;
  do! finishing := gets (fun dw : DW => is_finishing dw.1) in
  if finishing : bool then throw (other "manifestation in progress") else
  do! carry := gets (fun dw : DW => download_tail dw.1) in
  do! buf := on_sink buffer in
  modify (fun '(d, w) => (d, wsteps (ds_env data) w)) >>;
  do! received := lift (recv_async (Z.to_nat (length_ req)) data) in
  let buf := default [] buf ++ carry ++ received in
  update (set_state DnloadSync) >>;
  update (set_dstatus StatusOk) >>;
  match flushable_len (length buf) with
  | None => update (set_tail buf)
  | Some flush =>
      update (set_tail (drop flush buf)) >>;
      let chunk := take flush buf in
      update (fun d => set_crc (hasher_update (download_crc d) chunk) d) >>;
      submit_chunk chunk
  end.

Lemma on_sink_Ok {A} (m : M SW A) d w s a s' w' :
  sink d = Some s -> m (s, w) = (Ok a, (s', w')) ->
  on_sink m (d, w) = (Ok (Some a), (set_sink (Some s') d, w')).
Proof. intros Hs Hm. unfold on_sink. by rewrite Hs, Hm. Qed.

Lemma on_sink_Err {A} (m : M SW A) d w s e s' w' :
  sink d = Some s -> m (s, w) = (Err e, (s', w')) ->
  on_sink m (d, w) = (Err e, (set_sink (Some s') d, w')).
Proof. intros Hs Hm. unfold on_sink. by rewrite Hs, Hm. Qed.

Lemma bind_update {B} f (k : unit -> M DW B) d w : bind (update f) k (d, w) = k tt (f d, w).
Proof. done. Qed.

(** ** Teardown *)

(** The handler as it is created, with the same configuration. *)
Definition dfu_reset (d : Dfu) : Dfu :=
  {| transfer_size := transfer_size d; poll_timeout_ms := poll_timeout_ms d;
     download := download d; download_tail := []; download_crc := hasher_new;
     upload := upload d; sink := Some (session_new (download d) (transfer_size d));
     pending := None; state := DfuIdle; status := StatusOk |}.

(** The world after the handler's session was aborted. *)
Definition aborted_world (d : Dfu) (w : World) : World :=
  match sink d with Some s => (abort (s, w)).2.2 | None => w end.

Lemma reset_spec d w :
  reset_on_idle_timeout (d, w) = (Ok tt, (dfu_reset d, aborted_world d w)).
Proof.
  unfold reset_on_idle_timeout, aborted_world, on_sink, bind, replace_sink, modify.
  by destruct (sink d) as [s|] eqn:E; simpl; rewrite ?E.
Qed.

Lemma abort_transfer_spec d w : abort_transfer (d, w) = (Ok tt, (dfu_reset d, aborted_world d w)).
Proof. apply reset_spec. Qed.

Lemma abort_with_fault_spec st d w :
  abort_with_fault st (d, w)
  = (Ok tt, (set_state Error (set_dstatus st (dfu_reset d)), aborted_world d w)).
Proof. unfold abort_with_fault. by rewrite (bind_Ok _ _ _ _ _ (abort_transfer_spec d w)). Qed.

(** ** Event dispatch (gadget.rs) *)

(** The read of a data stage that is only drained. *)
Definition drain_request (req : CtrlReq) (data : DataStage) : M DW unit :=
  modify (fun '(d, w) => (d, wsteps (ds_env data) w)) >>;
  do! _ := lift (recv_async (Z.to_nat (length_ req)) data) in ret tt.

Definition setup_out (req : CtrlReq) (data : DataStage) : M DW unit :=
  if negb (is_dfu_request req) then do! _ := attempt (drain_request req data) in ret tt
  else if (request req =? DNLOAD) && negb (length_ req =? 0) then
    do! r := attempt (receive_dnload_block req data) in
    match r with
    | Ok _ => ret tt
    | Err err => if is_closed_transport_error err then reset_on_idle_timeout else throw err
    end
  else
    do! r := attempt (drain_request req data) in
    match r with
    | Ok _ => handle_out req
    | Err err => if is_closed_transport_error err then reset_on_idle_timeout else throw err
    end.

Definition setup_in (req : CtrlReq) (sent : io_result unit) : M DW (option (list byte)) :=
  if negb (is_dfu_request req) then ret (if is_ok sent then Some [] else None)
  else
    do! response := handle_in req in
    match sent with
    | Ok _ => ret (Some (as_slice response))
    | Err err => if is_closed_transport_error err then ret None else throw err
    end.

Definition dfu_handle_event (ev : Event) : M DW (option (list byte)) :=
  match ev with
  | SetupHostToDevice req data => setup_out req data >>; ret None
  | SetupDeviceToHost req sent => setup_in req sent
  | Disable | Unbind => reset_on_idle_timeout >>; ret None
  | _ => ret None
  end.

#[global] Instance dfu_event_handler : EventHandler Dfu := {|
  handle_event := dfu_handle_event;
  on_transport_closed := reset_on_idle_timeout;
  idle_timeout := dfu_idle_timeout;
  on_idle_timeout := reset_on_idle_timeout;
|}.

(** [gadget::serve]. *)
Definition dfu_serve (c : DfuConfig) (fd : io_result unit) (steps : list Ep0Step) (w : World)
    : bool * DW :=
  serve fd steps (dfu_new c, w).

End Dfu.

Arguments Dfu H : clear implicits.
