(* ===== verification/DfuDelivery.v ===== *)
(** * Delivery of a firmware image over DFU

    A host downloads an image in blocks, polling the status in between while
    the background tasks run, and then starts the manifestation. The theorems
    of this file say what the backend receives: the image without its DFU
    suffix when that suffix is valid, the whole image otherwise, in order and
    without loss or duplication, however the requests and the tasks interleave. *)

From S2P Require Import Prelude Io Bytes Crc32 SysInfo Session Link FunctionFs Dfu.

Section Delivery.
Context {H : Type} `{HasherLaws H}.

Abbreviation Dfu := (Dfu.Dfu H).
Abbreviation DW := (Dfu * World)%type.

(** ** The specification *)

(** What must reach the backend for a downloaded file. *)
Definition payload (img : list byte) : list byte :=
  let body := (length img - DFU_SUFFIX_LEN)%nat in
  if (DFU_SUFFIX_LEN <=? length img)%nat
     && has_valid_dfu_suffix (hasher_update hasher_new (take body img)) (drop body img)
  then take body img else img.

(** A host's actions; the background tasks run between and during them. *)
Inductive hact :=
| HBlock (num : Z) (evs : list wevent) (data : list byte)
| HManifest (num : Z) (evs : list wevent)
| HGetStatus
| HGetState
| HEnv (ev : wevent).

Definition dfu_out (req num len : Z) : CtrlReq :=
  {| request_type := 33; request := req; value := num; index := 0; length_ := len |}.
Definition dfu_in (req len : Z) : CtrlReq :=
  {| request_type := 161; request := req; value := 0; index := 0; length_ := len |}.

Definition event_of (a : hact) : option Event :=
  match a with
  | HBlock num evs data =>
      Some (SetupHostToDevice (dfu_out DNLOAD num (Z.of_nat (length data)))
              {| ds_env := evs; ds_read := Ok data |})
  | HManifest num evs =>
      Some (SetupHostToDevice (dfu_out DNLOAD num 0) {| ds_env := evs; ds_read := Ok [] |})
  | HGetStatus => Some (SetupDeviceToHost (dfu_in GETSTATUS 6) (Ok tt))
  | HGetState => Some (SetupDeviceToHost (dfu_in GETSTATE 1) (Ok tt))
  | HEnv _ => None
  end.

(** A host stops at the first stalled request and at the first error state. *)
Definition hstep (a : hact) (dw : DW) : option DW :=
  match a with
  | HEnv ev => Some (dw.1, wstep ev dw.2)
  | _ =>
      match event_of a with
      | None => None
      | Some ev =>
          match handle_event ev dw with
          | (Ok _, dw) => if bool_decide (state dw.1 = Error) then None else Some dw
          | (Err _, _) => None
          end
      end
  end.

Fixpoint hrun (acts : list hact) (dw : DW) : option DW :=
  match acts with
  | [] => Some dw
  | a :: acts => match hstep a dw with Some dw => hrun acts dw | None => None end
  end.

Definition block_data (a : hact) : list byte :=
  match a with HBlock _ _ data => data | _ => [] end.

Definition image (acts : list hact) : list byte := concat (block_data <$> acts).

(** The download phase: non-empty blocks and status requests. *)
Definition downloading (a : hact) : bool :=
  match a with
  | HBlock _ _ data => negb (bool_decide (data = []))
  | HManifest _ _ => false
  | _ => true
  end.

(** The phase after it: status requests only. *)
Definition observing (a : hact) : bool :=
  match a with HBlock _ _ _ | HManifest _ _ => false | _ => true end.

(** ** The bytes in flight *)

(** [F] is what the handler has passed on; in mode [m] the queue has accepted
    [L] of it and [pend] waits in the holding slot. *)
Definition carried (m : Mode) (L : list byte) (pend : option block) (F : list byte) : Prop :=
  match m with
  | Unopened | Live => L ++ default [] pend = F
  | Ended => pend = None /\ L = F
  | Dead => L `prefix_of` F
  end.

Lemma carried_prefix m L pend F : carried m L pend F -> L `prefix_of` F.
Proof.
  destruct m; simpl; [| |by intros [_ ->]|done]; intros <-; by apply prefix_app_r.
Qed.

(** The effect of [push_pending] on the bytes in flight. *)
Inductive pushed (manifesting : bool) (L : list byte) (m : Mode)
    : option block -> list byte -> Mode -> option block -> Prop :=
| pushed_none :
    pushed manifesting L m None L (if manifesting then after_eof m else m) None
| pushed_ok c :
    m = Unopened \/ m = Live ->
    pushed manifesting L m (Some c) (L ++ c) (if manifesting then Ended else Live) None
| pushed_closed c m' :
    (m = Live /\ m' = Dead) \/ ((m = Ended \/ m = Dead) /\ m' = m) ->
    pushed manifesting L m (Some c) L m' None
| pushed_full c : m = Live -> pushed manifesting L m (Some c) L Live (Some c).

Lemma pushed_carried mf L m pend L' m' pend' F :
  pushed mf L m pend L' m' pend' -> carried m L pend F ->
  carried m' L' pend' F /\ (mf = false -> m <> Ended -> m' <> Ended).
Proof.
  destruct 1 as [|c Hm|c m' Hm|c Hm].
  - intros Hc. destruct mf; [|done]. split; [|done]. destruct m; simpl in *; try done.
    by rewrite app_nil_r in Hc.
  - intros Hc. assert (L ++ c = F) as Hf by (by destruct Hm as [-> | ->]).
    destruct mf; simpl; [done|]. by rewrite app_nil_r.
  - intros Hc. destruct Hm as [[-> ->]|[[-> | ->] ->]]; simpl in *; [|by destruct Hc|done].
    split; [|done]. exists c. done.
  - by subst.
Qed.

(** Session operations keep the invariant of the transfers. *)
Lemma session_op_ok {A} (m : M SW A) s w r s' w' :
  (forall C : Z -> Prop, preserves (sw_inv backend_ok (fun cap => 0 < cap)) m) ->
  m (s, w) = (r, (s', w')) -> world_ok w -> world_ok w'.
Proof.
  intros Hm Hr Hok.
  destruct (Hm (fun _ => True) (s, w) (conj Hok (queue_capacity_pos _))) as [Hw _].
  by rewrite Hr in Hw.
Qed.

Lemma signal_eof_link n (d : Dfu) w s L m :
  sink d = Some s -> Link n s w L m -> world_ok w ->
  exists s' w', signal_eof (d, w) = (Ok tt, (set_sink (Some s') d, w')) /\
    Link n s' w' L (if bool_decide (state d = Manifest) then after_eof m else m) /\ world_ok w' /\
    (healthy n s w -> healthy n s' w').
Proof.
  intros Hs HL Hok. unfold signal_eof. rewrite bind_gets. cbn [fst].
  destruct (bool_decide (state d = Manifest)).
  - destruct (link_eof n s w L m HL) as (s' & w' & Heof & HL').
    exists s', w'. split; [|split; [done|split]].
    + by rewrite (bind_Ok _ _ _ _ _ (on_sink_Ok _ _ _ _ _ _ _ Hs Heof)).
    + eapply (session_op_ok eof); [|done|done]. intros _. apply drop_tx_inv.
    + intros Hh%healthy_eof. by rewrite Heof in Hh.
  - exists s, w. split; [|done]. destruct d. simpl in *. by subst.
Qed.

Lemma push_pending_link n (d : Dfu) w s L m :
  sink d = Some s -> Link n s w L m -> world_ok w ->
  match push_pending (d, w) with
  | (Ok _, (d', w')) => exists s' L' m' pend',
      pushed (bool_decide (state d = Manifest)) L m (pending d) L' m' pend' /\
      d' = set_pending pend' (set_sink (Some s') d) /\ Link n s' w' L' m' /\ world_ok w' /\
      (healthy n s w -> healthy n s' w')
  | (Err e, _) => exists msg, e = other msg
  end.
Proof.
  intros Hs HL Hok. unfold push_pending. rewrite bind_gets, bind_update. cbn [fst].
  set (d0 := set_pending None d). assert (sink d0 = Some s) as Hs0 by done.
  destruct (pending d) as [c|].
  - pose proof (link_try_send n s w L m c HL Hok) as Hsend.
    destruct (try_send c (s, w)) as [[f|e] [s1 w1]] eqn:Es.
    2: { rewrite bind_assoc, (bind_Err _ _ _ _ _ (on_sink_Err _ _ _ _ _ _ _ Hs0 Es)).
      by destruct Hsend as (_ & _ & ?). }
    rewrite bind_assoc, (bind_Ok _ _ _ _ _ (on_sink_Ok _ _ _ _ _ _ _ Hs0 Es)).
    assert (world_ok w1) as Hok1.
    { eapply (session_op_ok (try_send c)); [|done|done].
      intros _. by apply (try_send_inv (Q := fun _ => True)). }
    assert (healthy n s w -> healthy n s1 w1) as Hh1.
    { intros Hh. apply (healthy_try_send _ _ _ c) in Hh. by rewrite Es in Hh. }
    destruct f as [k|c'|].
    + destruct Hsend as (_ & Hm & HL1). rewrite bind_ret.
      destruct (signal_eof_link n (set_sink (Some s1) d0) w1 s1 _ _ eq_refl HL1 Hok1)
        as (s2 & w2 & Hf & HL2 & Hok2 & Hh2). rewrite (bind_Ok _ _ _ _ _ Hf).
      eexists s2, _, _, None. split; [by apply (pushed_ok _ _ _ c)|].
      split; [done|]. split; [exact HL2|auto].
    + destruct Hsend as (-> & -> & HL1). eexists s1, _, _, _. split; [by apply pushed_full|].
      auto.
    + rewrite bind_ret.
      assert (exists m', ((m = Live /\ m' = Dead) \/ ((m = Ended \/ m = Dead) /\ m' = m)) /\
        Link n s1 w1 L m') as (m' & Hm & HL1) by naive_solver.
      destruct (signal_eof_link n (set_sink (Some s1) d0) w1 s1 _ _ eq_refl HL1 Hok1)
        as (s2 & w2 & Hf & HL2 & Hok2 & Hh2). rewrite (bind_Ok _ _ _ _ _ Hf).
      replace (if bool_decide _ then after_eof m' else m') with m' in HL2
        by (destruct (bool_decide _); [|done]; by destruct Hm as [[-> ->]|[[-> | ->] ->]]).
      eexists s2, _, _, None. split; [by apply (pushed_closed _ _ _ c)|]. auto 10.
  - rewrite bind_ret.
    destruct (signal_eof_link n d0 w s _ _ Hs0 HL Hok) as (s2 & w2 & Hf & HL2 & Hok2 & Hh2).
    rewrite (bind_Ok _ _ _ _ _ Hf). eexists s2, _, _, None. split; [by apply pushed_none|]. auto 10.
Qed.

(** ** Polling *)

(** The transfer is no longer the handler's; what its queue accepted. *)
Definition released (n : nat) (F : list byte) (w : World) : Prop :=
  forall b, w_transfers w !! n = Some b -> concat (bk_log b) `prefix_of` F.

Lemma released_alter n F i f w :
  (forall b, bk_log (f b) = bk_log b) -> released n F w -> released n F (w_alter i f w).
Proof.
  intros Hf Hr b. rewrite w_alter_lookup. destruct (decide (i = n)); [|apply Hr].
  intros (b0 & Hb0 & ->)%fmap_Some. rewrite Hf. by apply Hr.
Qed.

Lemma released_on_transfer n F h f w :
  (forall b, bk_log (f b) = bk_log b) -> released n F w -> released n F (on_transfer h f w).
Proof. destruct h; [apply released_alter|done]. Qed.

Lemma released_wstep n F ev w : released n F w -> released n F (wstep ev w).
Proof.
  intros Hr. destruct ev as [i ev|]; simpl.
  - apply released_alter; [|done]. intros b. apply bstep_same_feed.
  - destruct (w_success_tasks w); [done|]. unfold on_update_success. by destruct (is_complete _).
Qed.

Lemma link_released n s w L m pend F :
  Link n s w L m -> carried m L pend F -> released n F w.
Proof.
  intros HL Hc%carried_prefix b Hb.
  destruct HL; simplify_eq; [|done..]. apply lookup_lt_Some in Hb. lia.
Qed.

(** A handler whose sink has no transfer. *)
Record idle_sink (d : Dfu) : Prop := {
  is_sink : exists s, sink d = Some s /\ is_open s = false;
  is_pending : pending d = None;
}.

(** The handler is in the middle of transfer [n]; [F] was passed on so far. The
    transfer may be [ended], and when [good] it has not failed. *)
Record flight (n : nat) (F : list byte) (good ended : Prop) (dw : DW) : Prop := {
  fl_link : exists s L m, sink dw.1 = Some s /\ Link n s dw.2 L m /\
    carried m L (pending dw.1) F /\ (m = Ended -> ended) /\ (good -> healthy n s dw.2);
  fl_world : world_ok dw.2;
}.

(** How a poll leaves the handler. *)
Inductive polled (n : nat) (F : list byte) (good ended : Prop) (d : Dfu) : DW -> Prop :=
| polled_failed d' w' :
    state d' = Error -> (good -> state d = Manifest) -> polled n F good ended d (d', w')
| polled_done d' w' :
    state d = Manifest -> state d' = ManifestSync -> idle_sink d' ->
    released n F w' -> world_ok w' -> polled n F good ended d (d', w')
| polled_on s' pend' w' :
    flight n F good ended (set_pending pend' (set_sink (Some s') d), w') ->
    polled n F good ended d (set_pending pend' (set_sink (Some s') d), w').

Lemma replace_sink_released n F (d : Dfu) w s :
  sink d = Some s -> released n F w -> world_ok w ->
  exists w', replace_sink (d, w) =
    (Ok tt, (set_sink (Some (session_new (download d) (transfer_size d))) d, w')) /\
    released n F w' /\ world_ok w'.
Proof.
  intros Hs Hr Hok. unfold replace_sink, modify. rewrite Hs. eexists. split; [done|].
  split; [|by apply drop_session_inv]. unfold drop_session.
  by do 2 (apply released_on_transfer; [done|]).
Qed.

Lemma poll_polled n F good ended (d : Dfu) w :
  flight n F good ended (d, w) -> (state d = Manifest -> ended) ->
  match poll (d, w) with
  | (Err e, _) => exists msg, e = other msg
  | (Ok _, dw') => polled n F good ended d dw'
  end.
Proof.
  intros [(s & L & m & Hs & HL & Hc & He & Hh) Hok] Hmf. simpl in *. unfold poll.
  pose proof (push_pending_link n d w s L m Hs HL Hok) as Hp.
  destruct (push_pending (d, w)) as [[busy|e] [d1 w1]] eqn:Ep;
    [|by rewrite (bind_Err _ _ _ _ _ Ep)].
  rewrite (bind_Ok _ _ _ _ _ Ep). destruct Hp as (s1 & L1 & m1 & p1 & Hpush & -> & HL1 & Hok1 & Hh1).
  destruct (pushed_carried _ _ _ _ _ _ _ F Hpush Hc) as [Hc1 He1].
  assert (m1 = Ended -> ended) as Hended.
  { destruct (bool_decide_reflect (state d = Manifest)); [auto|].
    intros ->. destruct (decide (m = Ended)); [auto|]. by destruct (He1 eq_refl). }
  rewrite bind_gets. cbn [fst state set_pending set_sink]. rewrite bind_gets.
  cbn [fst sink set_pending set_sink]. clear Hpush Ep.
  set (d1 := set_pending p1 (set_sink (Some s1) d)).
  assert (forall s2 w2, Link n s2 w2 L1 m1 -> world_ok w2 -> (good -> healthy n s2 w2) ->
    polled n F good ended d (set_pending p1 (set_sink (Some s2) d), w2)) as Hon.
  { intros s2 w2 HL2 Hok2 Hh2. apply polled_on. split; [|done]. exists s2, L1, m1. auto 10. }
  destruct (bool_decide (state d = Manifest) || is_open s1) eqn:Eo;
    [|rewrite bind_ret; apply Hon; auto].
  unfold bind at 1. unfold try_finished_sink at 1. cbn [sink set_pending set_sink d1].
  pose proof (poll_status_inv (P := backend_ok) (C := fun cap => 0 < cap)
    (s1, w1) (conj Hok1 (queue_capacity_pos _))) as [Hok2 _].
  unfold try_finished. destruct (poll_status (s1, w1)) as [r [s2 w2]] eqn:Ef. cbn [fst snd] in Hok2.
  destruct (link_poll_status _ _ _ _ _ _ _ _ Ef HL1) as (HL2 & Hw2 & Hun).
  pose proof (link_released _ _ _ _ _ _ _ HL2 Hc1) as Hrel.
  assert (m1 <> Unopened -> good -> healthy n s2 w2 /\ (forall e, r <> Some (Err e))) as Hver.
  { intros Hm Hg. eapply healthy_poll_status; eauto. }
  destruct r as [[[]|e]|]; [destruct (bool_decide_reflect (state d = Manifest)) as [Hm|Hm]| |].
  - rewrite bind_update.
    edestruct (replace_sink_released n F (set_crc hasher_new (set_sink (Some s2) d1)) w2)
      as (w3 & Hr3 & Hrel3 & Hok3); [reflexivity|done|done|].
    rewrite (bind_Ok _ _ _ _ _ Hr3). rewrite !bind_update. apply polled_done; try done.
    split; [|done]. eexists. by split.
  - refine (Hon s2 w2 HL2 Hok2 _). intros Hg. apply Hver; [|done].
    intros ->. by specialize (Hun eq_refl).
  - rewrite bind_update.
    edestruct (replace_sink_released n F (set_crc hasher_new (set_sink (Some s2) d1)) w2)
      as (w3 & Hr3 & _ & _); [reflexivity|done|done|].
    rewrite (bind_Ok _ _ _ _ _ Hr3). apply polled_failed; [done|]. intros Hg.
    destruct (decide (m1 = Unopened)) as [->|Hm]; [|by destruct (proj2 (Hver Hm Hg) e)].
    inversion HL1 as [Hop| | |]; subst. rewrite Hop, orb_false_r in Eo.
    by apply bool_decide_eq_true in Eo.
  - refine (Hon s2 w2 HL2 Hok2 _). intros Hg. apply Hver; [|done].
    intros ->. by specialize (Hun eq_refl).
Qed.

(** ** Blocks *)

Lemma flight_wsteps n F (good ended : Prop) (d : Dfu) w evs :
  (good -> Forall (fun ev => benign ev = true) evs) ->
  flight n F good ended (d, w) -> flight n F good ended (d, wsteps evs w).
Proof.
  intros Hevs [(s & L & m & Hs & HL & Hc & He & Hh) Hok]. split; [|by apply all_wsteps].
  exists s, L, m. split; [done|]. split; [by apply link_wsteps|]. split; [done|]. split; [done|].
  intros Hg. apply healthy_wsteps; auto.
Qed.

(** Fields of the handler other than the sink and the holding slot. *)
Lemma flight_fields n F good ended (d d' : Dfu) w :
  sink d' = sink d -> pending d' = pending d -> flight n F good ended (d, w) -> flight n F good ended (d', w).
Proof. intros Hs Hp [Hl Hok]. split; [|done]. simpl in *. by rewrite Hs, Hp. Qed.

Lemma submit_chunk_flight n F (good ended : Prop) (d : Dfu) w chunk :
  flight n F good False (d, w) -> (state d = Manifest -> ended) ->
  match submit_chunk chunk (d, w) with
  | (Err e, _) => exists msg, e = other msg
  | (Ok _, (d', w')) => state d' = Error \/
      (exists s' p', d' = set_pending p' (set_sink (Some s') d)) /\
      flight n (F ++ chunk) good ended (d', w')
  end.
Proof.
  intros [(s & L & m & Hs & HL & Hc & He & Hh) Hok] Hmf. simpl in *.
  unfold submit_chunk. rewrite bind_gets. cbn [fst].
  destruct (pending d) as [c|] eqn:Ep; cbn [isSome].
  { rewrite abort_with_fault_spec. by left. }
  rewrite bind_update. set (d1 := set_pending (Some chunk) d).
  pose proof (push_pending_link n d1 w s L m Hs HL Hok) as Hp.
  destruct (push_pending (d1, w)) as [[busy|e] [d2 w2]] eqn:E;
    [rewrite (bind_Ok _ _ _ _ _ E)|by rewrite (bind_Err _ _ _ _ _ E)].
  destruct Hp as (s2 & L2 & m2 & p2 & Hpush & -> & HL2 & Hok2 & Hh2). right. split; [by eexists _, _|].
  assert (carried m L (pending d1) (F ++ chunk)) as Hc1.
  { simpl. destruct m; simpl in *; [| |by destruct He|by apply prefix_app_r];
      rewrite app_nil_r in Hc; by subst. }
  destruct (pushed_carried _ _ _ _ _ _ _ _ Hpush Hc1) as [Hc2 He2].
  split; [|done]. exists s2, L2, m2. split; [done|]. split; [done|]. split; [done|].
  split; [|auto]. intros ->. destruct (bool_decide_reflect (state d1 = Manifest)); [auto|].
  destruct (He2 eq_refl); [|done]. intros ->. by destruct He.
Qed.

(** The download phase: [img] was received; [F] of it was passed on, the rest
    is the tail held back for the suffix check. *)
Record down (n : nat) (img : list byte) (dw : DW) : Prop := {
  dn_flight : exists F, img = F ++ download_tail dw.1 /\ flight n F True False dw /\
    download_crc dw.1 = hasher_update hasher_new F /\
    (F = [] \/ length (download_tail dw.1) = DFU_SUFFIX_LEN);
  dn_tail : (length (download_tail dw.1) <= DFU_SUFFIX_LEN)%nat;
  dn_state : state dw.1 ∈ [DfuIdle; DnloadSync; DnBusy; DnloadIdle];
}.

Lemma down_not_manifest n img dw : down n img dw -> state dw.1 <> Manifest.
Proof. intros [_ _ Hs] E. rewrite E, !elem_of_cons, elem_of_nil in Hs. by decompose [or] Hs. Qed.

Lemma short_suffix (crc : H) T : length T <> DFU_SUFFIX_LEN -> has_valid_dfu_suffix crc T = false.
Proof. intros E%Nat.eqb_neq. unfold has_valid_dfu_suffix. by rewrite E. Qed.

Lemma payload_split (F T : list byte) :
  (length T <= DFU_SUFFIX_LEN)%nat -> F = [] \/ length T = DFU_SUFFIX_LEN ->
  payload (F ++ T) =
  if bool_decide (T = []) || has_valid_dfu_suffix (hasher_update hasher_new F) T
  then F else F ++ T.
Proof.
  intros Hle HT. unfold payload. rewrite length_app.
  destruct (decide (length T = DFU_SUFFIX_LEN)) as [E|E].
  - replace (length F + length T - DFU_SUFFIX_LEN)%nat with (length F) by lia.
    rewrite take_app_length, drop_app_length.
    replace (DFU_SUFFIX_LEN <=? length F + length T)%nat with true by (symmetry; apply Nat.leb_le; lia).
    rewrite bool_decide_eq_false_2 by (by intros ->). done.
  - destruct HT as [-> |]; [|done]. cbn [app length Nat.add].
    replace (DFU_SUFFIX_LEN <=? length T)%nat with false by (symmetry; apply Nat.leb_gt; lia).
    cbn [andb]. rewrite short_suffix by done. rewrite orb_false_r. by destruct T.
Qed.


(** A poll between blocks changes neither the tail nor the checksum. *)
Lemma down_polled n img (d : Dfu) w :
  down n img (d, w) ->
  match poll (d, w) with
  | (Err e, _) => exists msg, e = other msg
  | (Ok _, (d', w')) => down n img (d', w') /\ download_tail d' = download_tail d
  end.
Proof.
  intros Hd. pose proof (down_not_manifest _ _ _ Hd) as Hnm. simpl in Hnm.
  destruct Hd as [(F & -> & Hf & Hcrc & HF) Ht Hst].
  pose proof (poll_polled n F True False d w Hf ltac:(done)) as Hp.
  destruct (poll (d, w)) as [[u|e] [d' w']]; [|done].
  inversion Hp as [? ? He Hg|? ? Hm|s' p' w2 Hf']; subst; [by destruct Hnm; auto|done|].
  split; [|done]. split; [|done|done]. by exists F.
Qed.

Lemma down_not_finishing n img (d : Dfu) w : down n img (d, w) -> is_finishing d = false.
Proof.
  intros [_ _ Hs]. simpl in Hs. unfold is_finishing.
  rewrite !elem_of_cons, elem_of_nil in Hs. by destruct Hs as [->|[->|[->|[->|[]]]]].
Qed.

Lemma flight_buffer n F good ended (d : Dfu) w :
  flight n F good ended (d, w) ->
  exists s w', on_sink buffer (d, w) = (Ok (Some []), (set_sink (Some s) d, w')) /\
    flight n F good ended (set_sink (Some s) d, w').
Proof.
  intros [(s & L & m & Hs & HL & Hc & He & Hh) Hok].
  destruct (link_buffer n s w L m HL) as (w' & Hb & HL').
  exists s, w'. split; [by apply (on_sink_Ok _ _ _ s)|]. split.
  - exists s, L, m. split; [done|]. split; [done|]. split; [done|]. split; [done|]. simpl.
    intros Hg. unfold buffer in Hb. simplify_eq. apply healthy_on_transfer; auto.
  - eapply (session_op_ok buffer); [|done|done]. intros _. apply buffer_inv.
Qed.

(** A received block: from the poll to the queue. *)
Lemma receive_down n img (d : Dfu) w num evs data :
  down n img (d, w) -> data <> [] -> Forall (fun ev => benign ev = true) evs ->
  match receive_dnload_block (dfu_out DNLOAD num (Z.of_nat (length data)))
          {| ds_env := evs; ds_read := Ok data |} (d, w) with
  | (Err e, _) => exists msg, e = other msg
  | (Ok _, (d', w')) => state d' = Error \/ down n (img ++ data) (d', w')
  end.
Proof.
  intros Hd Hne Hevs. unfold receive_dnload_block.
  pose proof (down_polled n img d w Hd) as Hp.
  destruct (poll (d, w)) as [[u|e] [d1 w1]] eqn:E; [rewrite (bind_Ok _ _ _ _ _ E)|by rewrite (bind_Err _ _ _ _ _ E)].
  destruct Hp as [Hd1 _]. rewrite bind_gets. cbn [fst].
  rewrite (down_not_finishing _ _ _ _ Hd1), bind_gets. cbn [fst].
  destruct Hd1 as [(F & -> & Hf & Hcrc & HF) Ht Hst]. cbn [fst] in *.
  destruct (flight_buffer _ _ _ _ _ _ Hf) as (s & w2 & Hb & Hf2).
  rewrite (bind_Ok _ _ _ _ _ Hb), bind_modify.
  apply (flight_wsteps _ _ _ _ _ _ evs (fun _ => Hevs)) in Hf2. cbn [ds_env].
  set (w3 := wsteps evs w2) in *. unfold bind at 1, lift, recv_async. cbn [ds_read rbind length_ dfu_out].
  rewrite Nat2Z.id, firstn_all. cbn [default from_option id app].
  rewrite !bind_update. set (d2 := set_dstatus _ _).
  assert (flight n F True False (d2, w3)) as Hf3 by (by apply (flight_fields _ _ _ _ (set_sink (Some s) d1))).
  set (buf := download_tail d1 ++ data). unfold flushable_len.
  assert (0 < length data)%nat by (destruct data; simpl; [done|lia]).
  assert (length buf = length (download_tail d1) + length data)%nat as Hbuf by apply length_app.
  destruct (Nat.ltb_spec DFU_SUFFIX_LEN (length buf)) as [Hlt|Hge].
  - rewrite !bind_update. set (chunk := take _ buf). set (d3 := set_crc _ _).
    assert (flight n F True False (d3, w3)) as Hf3' by (by apply (flight_fields _ _ _ _ d2)).
    pose proof (submit_chunk_flight n F True False d3 w3 chunk Hf3' ltac:(done)) as Hsub.
    destruct (submit_chunk chunk (d3, w3)) as [[u'|e'] [d4 w4]]; [|done].
    destruct Hsub as [Herr|[(s' & p' & ->) Hf4]]; [by left|right].
    assert (length (drop (length buf - DFU_SUFFIX_LEN) buf) = DFU_SUFFIX_LEN) as Hl.
    { rewrite length_drop. lia. }
    split; cbn [fst download_tail set_pending set_sink set_crc set_tail d3];
      [|by rewrite Hl|by right; left].
    exists (F ++ chunk). split; [|split; [done|split; [|by right]]].
    + rewrite <- !app_assoc. f_equal. subst chunk. by rewrite take_drop.
    + simpl. rewrite Hcrc. apply hasher_update_app.
  - right. destruct HF as [-> |HF]; [|lia]. split; [|simpl; lia|by right; left].
    exists []. split; [done|]. split; [by apply (flight_fields _ _ _ _ d2)|]. split; [done|by left].
Qed.

(** ** Manifestation *)

(** After the zero-length download: still in flight, or done. *)
Definition after (n : nat) (P : list byte) (dw : DW) : Prop :=
  (flight n P False True dw /\ state dw.1 = Manifest) \/
  (idle_sink dw.1 /\ released n P dw.2 /\ world_ok dw.2 /\
   (state dw.1 = ManifestSync \/ state dw.1 = DfuIdle)).

Lemma flight_weaken n F (g g' e e' : Prop) dw :
  (g' -> g) -> (e -> e') -> flight n F g e dw -> flight n F g' e' dw.
Proof.
  intros Hg He [(s & L & m & Hs & HL & Hc & Hm & Hh) Hok]. split; [|done].
  exists s, L, m. auto 10.
Qed.

Lemma push_pending_flight n F (good ended : Prop) (d : Dfu) w :
  flight n F good ended (d, w) -> (state d = Manifest -> ended) ->
  match push_pending (d, w) with
  | (Err e, _) => exists msg, e = other msg
  | (Ok _, (d', w')) => (exists s' p', d' = set_pending p' (set_sink (Some s') d)) /\
      flight n F good ended (d', w')
  end.
Proof.
  intros [(s & L & m & Hs & HL & Hc & He & Hh) Hok] Hmf. simpl in *.
  pose proof (push_pending_link n d w s L m Hs HL Hok) as Hp.
  destruct (push_pending (d, w)) as [[busy|e] [d2 w2]]; [|done].
  destruct Hp as (s2 & L2 & m2 & p2 & Hpush & -> & HL2 & Hok2 & Hh2). split; [by eexists _, _|].
  destruct (pushed_carried _ _ _ _ _ _ _ _ Hpush Hc) as [Hc2 He2].
  split; [|done]. exists s2, L2, m2. split; [done|]. split; [done|]. split; [done|].
  split; [|auto]. intros ->. destruct (bool_decide_reflect (state d = Manifest)); [auto|].
  destruct (decide (m = Ended)); [auto|]. by destruct (He2 eq_refl).
Qed.

Lemma manifest_after n img (d : Dfu) w :
  down n img (d, w) ->
  match manifest (d, w) with
  | (Err e, _) => exists msg, e = other msg
  | (Ok _, (d', w')) => state d' = Error \/ after n (payload img) (d', w')
  end.
Proof.
  intros [(F & -> & Hf & Hcrc & HF) Ht Hst]. cbn [fst] in *.
  rewrite payload_split by done. rewrite <- Hcrc.
  unfold manifest. rewrite !bind_update, bind_gets, bind_update, bind_gets. cbn [fst].
  set (d1 := set_tail [] _). set (T := download_tail _).
  change (download_crc d1) with (download_crc d). change (download_tail d) with T.
  assert (flight n F False False (d1, w)) as Hf1.
  { apply (flight_fields _ _ _ _ d); [done|done|]. by apply (flight_weaken _ _ True _ False). }
  destruct (bool_decide (T = []) || has_valid_dfu_suffix (download_crc d) T).
  - pose proof (push_pending_flight n F False True d1 w
      (flight_weaken _ _ False False False True _ ltac:(done) ltac:(done) Hf1) ltac:(done)) as Hp.
    destruct (push_pending (d1, w)) as [[b|e] [d2 w2]] eqn:E;
      [rewrite (bind_Ok _ _ _ _ _ E)|by rewrite (bind_Err _ _ _ _ _ E)].
    destruct Hp as [(s' & p' & ->) Hf2].
    right. by left.
  - destruct (flight_buffer _ _ _ _ _ _ Hf1) as (s & w2 & Hb & Hf2).
    unfold recycled_chunk_buffer. rewrite bind_assoc, (bind_Ok _ _ _ _ _ Hb), bind_ret.
    cbn [default from_option id app].
    pose proof (submit_chunk_flight n F False True _ _ T Hf2 ltac:(done)) as Hsub.
    destruct (submit_chunk T _) as [[u|e] [d4 w4]]; [|done].
    destruct Hsub as [Herr|[(s' & p' & ->) Hf4]]; [by left|right; by left].
Qed.

Lemma drain_request_ok (d : Dfu) w num evs :
  drain_request (dfu_out DNLOAD num 0) {| ds_env := evs; ds_read := Ok [] |} (d, w)
  = (Ok tt, (d, wsteps evs w)).
Proof. done. Qed.

Lemma down_wsteps n img (d : Dfu) w evs :
  Forall (fun ev => benign ev = true) evs -> down n img (d, w) -> down n img (d, wsteps evs w).
Proof.
  intros Hevs [(F & -> & Hf & Hcrc & HF) Ht Hst]. split; [|done|done].
  exists F. split; [done|]. split; [|done]. by apply flight_wsteps.
Qed.

(** ** One host action *)

(** The background events of an action report no failure. *)
Definition benign_act (a : hact) : Prop :=
  match a with
  | HBlock _ evs _ | HManifest _ evs => Forall (fun ev => benign ev = true) evs
  | HEnv ev => benign ev = true
  | _ => True
  end.

Lemma hstep_inv a (dw dw' : DW) ev :
  event_of a = Some ev -> hstep a dw = Some dw' ->
  exists r, handle_event ev dw = (Ok r, dw') /\ state dw'.1 <> Error.
Proof.
  intros He Hs. unfold hstep in Hs. destruct a; try done; rewrite He in Hs;
    destruct (handle_event ev dw) as [[r|e] dw1]; try done;
    destruct (bool_decide_reflect (state dw1.1 = Error)); simplify_eq; eauto.
Qed.

Lemma hstep_block n img dw dw' num evs data :
  down n img dw -> data <> [] -> Forall (fun ev => benign ev = true) evs ->
  hstep (HBlock num evs data) dw = Some dw' -> down n (img ++ data) dw'.
Proof.
  intros Hd Hne Hevs Hs. destruct dw as [d w].
  destruct (hstep_inv (HBlock num evs data) _ _ _ eq_refl Hs) as (r & Hh & Hst). cbn [handle_event dfu_event_handler dfu_handle_event] in Hh.
  unfold setup_out in Hh. change (is_dfu_request _) with true in Hh. cbn [negb] in Hh.
  assert ((request (dfu_out DNLOAD num (Z.of_nat (length data))) =? DNLOAD) = true) as E1 by done.
  assert (negb (length_ (dfu_out DNLOAD num (Z.of_nat (length data))) =? 0) = true) as E2.
  { simpl. destruct data; [done|]. done. }
  rewrite E1, E2 in Hh. cbn [andb] in Hh.
  pose proof (receive_down n img d w num evs data Hd Hne Hevs) as Hr.
  rewrite bind_assoc, bind_attempt in Hh.
  destruct (receive_dnload_block _ _ (d, w)) as [[u|e] [d1 w1]]; cbn [fst snd] in *.
  - unfold bind, ret in Hh. simplify_eq. by destruct Hr.
  - by destruct Hr as [msg ->].
Qed.

Lemma hstep_manifest n img dw dw' num evs :
  down n img dw -> Forall (fun ev => benign ev = true) evs ->
  hstep (HManifest num evs) dw = Some dw' -> after n (payload img) dw'.
Proof.
  intros Hd Hevs Hs. destruct dw as [d w].
  destruct (hstep_inv (HManifest num evs) _ _ _ eq_refl Hs) as (r & Hh & Hst).
  cbn [handle_event dfu_event_handler dfu_handle_event] in Hh.
  unfold setup_out in Hh. change (is_dfu_request _) with true in Hh. cbn [negb] in Hh.
  change ((request (dfu_out DNLOAD num 0) =? DNLOAD) && negb (length_ (dfu_out DNLOAD num 0) =? 0))
    with false in Hh. cbn iota in Hh.
  rewrite bind_assoc, bind_attempt, drain_request_ok in Hh. cbn [fst snd] in Hh.
  pose proof (down_polled n img d (wsteps evs w) (down_wsteps _ _ _ _ _ Hevs Hd)) as Hp.
  unfold handle_out in Hh. rewrite bind_assoc in Hh.
  destruct (poll (d, wsteps evs w)) as [[u|e] [d1 w1]] eqn:E;
    [rewrite (bind_Ok _ _ _ _ _ E) in Hh|by rewrite (bind_Err _ _ _ _ _ E) in Hh].
  destruct Hp as [Hd1 _].
  change (request (dfu_out DNLOAD num 0) =? DETACH) with false in Hh.
  change (request (dfu_out DNLOAD num 0) =? DNLOAD) with true in Hh. cbn iota in Hh.
  pose proof (manifest_after n img d1 w1 Hd1) as Hm. unfold bind in Hh.
  destruct (manifest (d1, w1)) as [[u'|e] [d2 w2]]; [|done].
  unfold ret in Hh. simplify_eq. by destruct Hm.
Qed.

(** The status requests poll first, then report. *)
Lemma hstep_query (d : Dfu) w dw' (st : bool) :
  hstep (if st then HGetStatus else HGetState) (d, w) = Some dw' ->
  exists d1 w1, poll (d, w) = (Ok tt, (d1, w1)) /\ state dw'.1 <> Error /\
    dw' = ((if st then set_state (next_status_state d1) d1 else d1), w1).
Proof.
  intros Hs. assert (exists r, handle_event (SetupDeviceToHost
    (if st then dfu_in GETSTATUS 6 else dfu_in GETSTATE 1) (Ok tt)) (d, w) = (Ok r, dw') /\
    state dw'.1 <> Error) as (r & Hh & Hst) by
    (destruct st; (eapply hstep_inv; [|exact Hs]; reflexivity)).
  cbn [handle_event dfu_event_handler dfu_handle_event] in Hh. unfold setup_in in Hh.
  replace (is_dfu_request _) with true in Hh by (by destruct st). cbn [negb] in Hh.
  unfold handle_in in Hh. rewrite bind_assoc in Hh.
  destruct (poll (d, w)) as [[[]|e] [d1 w1]] eqn:E;
    [rewrite (bind_Ok _ _ _ _ _ E) in Hh|by rewrite (bind_Err _ _ _ _ _ E) in Hh].
  exists d1, w1. split; [done|]. split; [done|]. destruct st.
  - change (request (dfu_in GETSTATUS 6) =? GETSTATUS) with true in Hh. cbn iota in Hh.
    unfold get_status in Hh. rewrite bind_assoc, bind_update, bind_gets in Hh.
    unfold ret in Hh. by simplify_eq.
  - change (request (dfu_in GETSTATE 1) =? GETSTATUS) with false in Hh.
    change (request (dfu_in GETSTATE 1) =? GETSTATE) with true in Hh. cbn iota in Hh.
    rewrite bind_gets in Hh. unfold ret in Hh. by simplify_eq.
Qed.

Lemma down_query n img dw dw' (st : bool) :
  down n img dw -> hstep (if st then HGetStatus else HGetState) dw = Some dw' -> down n img dw'.
Proof.
  destruct dw as [d w]. intros Hd (d1 & w1 & Hp & Hst & ->)%hstep_query.
  pose proof (down_polled n img d w Hd) as Hd1. rewrite Hp in Hd1. destruct Hd1 as [Hd1 _].
  destruct st; [|done]. destruct Hd1 as [(F & -> & Hf & Hcrc & HF) Ht Hs1].
  split; [|done|].
  - exists F. split; [done|]. split; [by apply (flight_fields _ _ _ _ d1)|done].
  - simpl in *. unfold next_status_state. rewrite !elem_of_cons, elem_of_nil in Hs1 |- *.
    destruct Hs1 as [->|[->|[->|[->|[]]]]]; destruct (isSome (pending d1)); auto 10.
Qed.

(** A poll without an open session does nothing. *)
Lemma poll_idle (d : Dfu) w : idle_sink d -> state d <> Manifest -> poll (d, w) = (Ok tt, (d, w)).
Proof.
  intros [(s & Hs & Ho) Hp] Hst.
  assert (push_pending (d, w) = (Ok false, (d, w))) as Hpush.
  { unfold push_pending. rewrite bind_gets, bind_update. cbn [fst]. rewrite Hp, bind_ret.
    replace (set_pending None d) with d by (destruct d; simpl in *; by subst).
    unfold signal_eof, bind, gets. cbn [fst]. by rewrite bool_decide_eq_false_2. }
  unfold poll. rewrite (bind_Ok _ _ _ _ _ Hpush), !bind_gets. cbn [fst].
  rewrite Hs, Ho, bool_decide_eq_false_2 by done. done.
Qed.

Lemma after_query n P dw dw' (st : bool) :
  after n P dw -> hstep (if st then HGetStatus else HGetState) dw = Some dw' -> after n P dw'.
Proof.
  destruct dw as [d w]. intros Ha (d1 & w1 & Hp & Hst & ->)%hstep_query.
  destruct Ha as [[Hf Hm]|(Hi & Hr & Hok & Hs)]; cbn [fst snd] in *.
  - pose proof (poll_polled n P False True d w Hf ltac:(done)) as Hpd. rewrite Hp in Hpd.
    inversion Hpd as [? ? He Hg|? ? _ Hms Hi Hr Hok|s' p' w2 Hf']; subst.
    + destruct Hst. destruct st; [|done]. simpl. unfold next_status_state. by rewrite He.
    + right. destruct st; [|by auto]. simpl. unfold next_status_state. rewrite Hms.
      destruct Hi. split; [by split|auto].
    + left. destruct st; [|done]. split; [by apply (flight_fields _ _ _ _ (set_pending p' (set_sink (Some s') d)))|].
      simpl. unfold next_status_state. simpl. by rewrite Hm.
  - rewrite poll_idle in Hp; [|done|by destruct Hs as [-> | ->]]. simplify_eq.
    right. destruct st; [|by auto]. cbn [fst snd]. destruct Hi. split; [by split|].
    split; [done|]. split; [done|]. right. simpl. unfold next_status_state.
    by destruct Hs as [-> | ->].
Qed.

Lemma down_run n acts img dw dw' :
  Forall (fun a => downloading a = true /\ benign_act a) acts ->
  down n img dw -> hrun acts dw = Some dw' -> down n (img ++ image acts) dw'.
Proof.
  intros Ha. revert img dw. induction Ha as [|a acts [Hdl Hb] _ IH]; intros img dw Hd Hr; simpl in *.
  - simplify_eq. unfold image. simpl. by rewrite app_nil_r.
  - destruct (hstep a dw) as [dw1|] eqn:E; [|done].
    assert (down n (img ++ block_data a) dw1) as Hd1.
    { destruct a as [num evs data|num evs| | |ev]; simpl in *; rewrite ?app_nil_r.
      - apply (hstep_block n img dw dw1 num evs); try done. by destruct data.
      - done.
      - by apply (down_query n img dw dw1 true).
      - by apply (down_query n img dw dw1 false).
      - destruct dw as [d w]. simpl in *. simplify_eq.
        apply (down_wsteps n img d w [ev]); [by constructor|done]. }
    specialize (IH _ _ Hd1 Hr). unfold image in *. simpl. by rewrite app_assoc.
Qed.

Lemma after_run n P acts dw dw' :
  Forall (fun a => observing a = true) acts ->
  after n P dw -> hrun acts dw = Some dw' -> after n P dw'.
Proof.
  intros Ha. revert dw. induction Ha as [|a acts Ho _ IH]; intros dw Haf Hr; simpl in *;
    [by simplify_eq|].
  destruct (hstep a dw) as [dw1|] eqn:E; [|done]. apply (IH dw1); [|done].
  destruct a as [num evs data|num evs| | |ev]; simpl in *; try done.
  - by apply (after_query n P dw dw1 true).
  - by apply (after_query n P dw dw1 false).
  - destruct dw as [d w]. simpl in *. simplify_eq. destruct Haf as [[Hf Hm]|(Hi & Hr' & Hok & Hs)].
    + left. split; [|done]. by apply (flight_wsteps n P False True d w [ev]).
    + right. split; [done|]. split; [by apply released_wstep|]. split; [by apply all_wstep|done].
Qed.

Lemma down_new c w : world_ok w -> down (length (w_transfers w)) [] (dfu_new c, w).
Proof.
  intros Hok. split; simpl; [|apply Nat.le_0_l|left].
  exists []. split; [done|]. split; [|split; [symmetry; apply hasher_update_nil|by left]].
  split; [|done]. eexists _, _, _. split; [done|]. split; [apply link_new|].
  split; [done|]. split; [done|]. intros _. split; [|done].
  intros b Hb%lookup_lt_Some. simpl in Hb. lia.
Qed.

Lemma hrun_app acts1 acts2 dw :
  hrun (acts1 ++ acts2) dw = match hrun acts1 dw with Some dw => hrun acts2 dw | None => None end.
Proof.
  revert dw. induction acts1 as [|a acts1 IH]; intros dw; simpl; [done|].
  destruct (hstep a dw); [apply IH|done].
Qed.

(** Where a host that downloads, manifests and observes leaves the handler. *)
Lemma delivery_after c w acts num evs post d' w' :
  world_ok w ->
  Forall (fun a => downloading a = true /\ benign_act a) acts ->
  Forall (fun ev => benign ev = true) evs ->
  Forall (fun a => observing a = true) post ->
  hrun (acts ++ HManifest num evs :: post) (dfu_new c, w) = Some (d', w') ->
  after (length (w_transfers w)) (payload (image acts)) (d', w').
Proof.
  intros Hok Hacts Hevs Hpost Hr. rewrite hrun_app in Hr.
  destruct (hrun acts (dfu_new c, w)) as [dw1|] eqn:E1; [|done]. cbn [hrun] in Hr.
  pose proof (down_run _ _ _ _ _ Hacts (down_new c w Hok) E1) as Hd1. simpl in Hd1.
  destruct (hstep (HManifest num evs) dw1) as [dw2|] eqn:E2; [|done].
  pose proof (hstep_manifest _ _ _ _ _ _ Hd1 Hevs E2) as Ha.
  by apply (after_run _ _ _ _ _ Hpost Ha Hr).
Qed.

(** What such a host leaves the backend with. *)
Lemma delivered_image c w acts num evs post d' w' :
  world_ok w ->
  Forall (fun a => downloading a = true /\ benign_act a) acts ->
  Forall (fun ev => benign ev = true) evs ->
  Forall (fun a => observing a = true) post ->
  hrun (acts ++ HManifest num evs :: post) (dfu_new c, w) = Some (d', w') ->
  forall b, w_transfers w' !! length (w_transfers w) = Some b ->
    bk_written b `prefix_of` payload (image acts) /\
    (state d' = Manifest -> bk_drain b = DrClosed -> bk_written b = payload (image acts)).
Proof.
  intros Hok Hacts Hevs Hpost Hr b Hb.
  destruct (delivery_after _ _ _ _ _ _ _ _ Hok Hacts Hevs Hpost Hr) as [[[(s & L & m & Hs & HL & Hc & _) Hok'] Hm]|
    (Hi & Hrel & Hok' & Hs)]; simpl in *.
  - destruct (link_written _ _ _ _ _ _ HL Hok' Hb) as [Hp Hcl]. split.
    + etrans; [done|]. by eapply carried_prefix.
    + intros _ Hd. destruct (Hcl Hd) as [-> ->]. by destruct Hc.
  - destruct (world_ok_lookup _ _ _ Hok' Hb) as [_ Hp _ _ _ _ _ _ _]. split.
    + etrans; [done|]. by apply Hrel.
    + intros Hm. rewrite Hm in Hs. by destruct Hs.
Qed.

(** C1. A host downloads an image in blocks of any sizes, with status requests
    in between, starts the manifestation and observes it; the backend's tasks
    interleave in any way, also while a block is being received, and report no
    failure during the download. As long as no request was stalled and no error
    state was reached, the backend has received a prefix, in order, of the
    image without its DFU suffix (of the whole image when its last 16 bytes are
    no valid suffix); and if its writer is closed while the device is still
    manifesting, it has received exactly that. *)
Theorem dfu_delivers_image c w acts num evs post d' w' :
  world_ok w ->
  Forall (fun a => downloading a = true /\ benign_act a) acts ->
  Forall (fun ev => benign ev = true) evs ->
  Forall (fun a => observing a = true) post ->
  hrun (acts ++ HManifest num evs :: post) (dfu_new c, w) = Some (d', w') ->
  forall b, w_transfers w' !! length (w_transfers w) = Some b ->
    bk_written b `prefix_of` payload (image acts) /\
    (state d' = Manifest -> bk_drain b = DrClosed -> bk_written b = payload (image acts)).
Proof. apply delivered_image. Qed.
End Delivery.
