(* ===== verification/DfuProgress.v ===== *)
(** * Completion of a DFU manifestation

    From every manifesting state whose backend is still reading, a bounded
    number of steps of the drain task and two status requests bring the whole
    payload to the backend, close its writer and, with the backend's success,
    bring the device back to [dfuIDLE]. *)

From S2P Require Import Prelude Io Bytes Crc32 SysInfo Session Link FunctionFs Dfu DfuDelivery.

(** ** Draining a queue *)

(** What the writes of the drain task leave alone. *)
Record writing (b b' : Backend) : Prop := {
  wr_drain : bk_drain b' = DrRunning;
  wr_status : bk_status b' = bk_status b;
  wr_tx : bk_tx_open b' = bk_tx_open b;
}.

Lemma write_step n w b :
  w_transfers w !! n = Some b -> bk_drain b = DrRunning ->
  exists b', w_transfers (wstep (WBackend n EvWrite) w) !! n = Some b' /\
    bk_queue b' = tail (bk_queue b) /\ writing b b'.
Proof.
  intros Hb Hd. exists (default b (bstep EvWrite b)). split.
  - simpl. by rewrite list_lookup_alter_eq, Hb.
  - simpl. rewrite Hd. destruct (bk_queue b) as [|x q] eqn:Eq; [simpl; by rewrite Eq|done].
Qed.

Lemma write_all n w b k :
  w_transfers w !! n = Some b -> bk_drain b = DrRunning -> k = length (bk_queue b) ->
  exists b', w_transfers (wsteps (replicate k (WBackend n EvWrite)) w) !! n = Some b' /\
    bk_queue b' = [] /\ writing b b'.
Proof.
  unfold wsteps. revert w b. induction k as [|k IH]; intros w b Hb Hd Hk; simpl.
  - exists b. destruct (bk_queue b) eqn:E; [|done]. split; [done|]. by split.
  - destruct (write_step n w b Hb Hd) as (b1 & Hb1 & Hq & [H1 H2 H3]).
    destruct (IH (wstep (WBackend n EvWrite) w) b1) as (b' & Hb' & Hq' & [H1' H2' H3']);
      [done|done|rewrite Hq; destruct (bk_queue b); simpl in *; lia|].
    exists b'. split; [done|]. split; [done|]. split; congruence.
Qed.

Section Progress.
Context {H : Type} `{HasherLaws H}.

Abbreviation Dfu := (Dfu.Dfu H).
Abbreviation DW := (Dfu * World)%type.

Lemma hrun_env evs (d : Dfu) w : hrun (HEnv <$> evs) (d, w) = Some (d, wsteps evs w).
Proof. unfold wsteps. revert w. induction evs as [|ev evs IH]; intros w; simpl; [done|]. apply IH. Qed.

(** ** Polling a manifesting handler *)

Lemma poll_manifest (d : Dfu) w busy d1 w1 s1 r s2 w2 :
  state d = Manifest -> push_pending (d, w) = (Ok busy, (d1, w1)) ->
  state d1 = Manifest -> sink d1 = Some s1 -> poll_status (s1, w1) = (r, (s2, w2)) ->
  match r with
  | None => poll (d, w) = (Ok tt, (set_sink (Some s2) d1, w2))
  | Some (Ok _) => exists d', poll (d, w) = (Ok tt, (d', drop_session s2 w2)) /\
      state d' = ManifestSync /\ status d' = StatusOk /\ idle_sink d'
  | Some (Err _) => True
  end.
Proof.
  intros Hst Hp Hst1 Hs1 Hpoll.
  assert (try_finished_sink (d1, w1) = (Ok r, (set_sink (Some s2) d1, w2))) as Hf.
  { unfold try_finished_sink, try_finished. by rewrite Hs1, Hpoll. }
  unfold poll. rewrite (bind_Ok _ _ _ _ _ Hp), !bind_gets. cbn [fst]. rewrite Hst1, Hs1.
  rewrite bool_decide_eq_true_2 by done. cbn [orb].
  destruct r as [[[]|e]|]; [| done |by rewrite (bind_Ok _ _ _ _ _ Hf)].
  rewrite (bind_Ok _ _ _ _ _ Hf). eexists. split; [reflexivity|].
  split; [done|]. split; [done|]. split; [|done]. eexists. by split.
Qed.

Lemma signal_eof_manifest (d : Dfu) w s :
  state d = Manifest -> sink d = Some s ->
  signal_eof (d, w)
  = (Ok tt, (set_sink (Some (set_tx None s)) d, on_transfer (s_tx s) (bk_set_tx false) w)).
Proof.
  intros Hst Hs. unfold signal_eof. rewrite bind_gets. cbn [fst].
  rewrite bool_decide_eq_true_2 by done.
  by rewrite (bind_Ok _ _ _ _ _ (on_sink_Ok eof d w s tt _ _ Hs eq_refl)).
Qed.

Lemma push_pending_none (d : Dfu) w s :
  state d = Manifest -> sink d = Some s -> pending d = None ->
  push_pending (d, w) = (Ok false, (set_pending None (set_sink (Some (set_tx None s)) d),
    on_transfer (s_tx s) (bk_set_tx false) w)).
Proof.
  intros Hst Hs Hp. unfold push_pending. rewrite bind_gets, bind_update. cbn [fst].
  rewrite Hp, bind_ret. by rewrite (bind_Ok _ _ _ _ _ (signal_eof_manifest (set_pending None d) w s Hst Hs)).
Qed.

Lemma push_pending_room (d : Dfu) w s c n b :
  state d = Manifest -> sink d = Some s -> pending d = Some c -> s_tx s = Some n ->
  w_transfers w !! n = Some b -> chan_try_send b = PushedOk ->
  push_pending (d, w) = (Ok false, (set_pending None (set_sink (Some (set_tx None s)) d),
    w_alter n (bk_set_tx false) (w_alter n (bk_push c) w))).
Proof.
  intros Hst Hs Hp Htx Hb Hroom.
  assert (try_send c (s, w) = (Ok (FeedOk (Z.of_nat (length c))), (s, w_alter n (bk_push c) w)))
    as Hsend.
  { assert (transfer (s_tx s) w = Some b) as Htr by (by rewrite Htx).
    unfold try_send, bind, ensure_open, feed. rewrite Htx. cbn [isSome orb]. rewrite Htx in *.
    by rewrite Htr, Hroom. }
  unfold push_pending. rewrite bind_gets, bind_update. cbn [fst]. rewrite Hp, bind_assoc.
  rewrite (bind_Ok _ _ _ _ _ (on_sink_Ok (try_send c) (set_pending None d) w s _ _ _ Hs Hsend)).
  rewrite bind_ret.
  rewrite (bind_Ok _ _ _ _ _ (signal_eof_manifest (set_sink (Some s) (set_pending None d)) _ s Hst eq_refl)).
  by rewrite Htx.
Qed.

(** With room in the queue, one push empties the holding slot and ends the
    stream. *)
Lemma push_pending_flushes n P (d : Dfu) w b :
  flight n P False True (d, w) -> state d = Manifest -> w_transfers w !! n = Some b ->
  bk_drain b = DrRunning -> bk_queue b = [] ->
  exists s w' b', sink d = Some s /\
    push_pending (d, w) = (Ok false, (set_pending None (set_sink (Some (set_tx None s)) d), w')) /\
    w_transfers w' !! n = Some b' /\ (length (bk_queue b') <= 1)%nat /\
    bk_drain b' = DrRunning /\ bk_status b' = bk_status b /\ bk_tx_open b' = false.
Proof.
  intros [(s & L & m & Hs & HL & Hc & _ & _) Hok] Hst Hb Hd Hq. cbn [fst snd] in *.
  pose proof (world_ok_lookup _ _ _ Hok Hb) as Hbok. exists s.
  assert (chan_try_send b = PushedOk) as Hroom.
  { apply chan_try_send_Ok. rewrite Hq. simpl. split; [by apply Hbok|apply Hbok]. }
  destruct HL as [? ? ? Hn|b0 Hb0 _ _ Htx Hopen|b0 Hb0 _ _ Htx Hopen|b0 Hb0 _ _ _ Hdead].
  - apply lookup_lt_Some in Hb. lia.
  - assert (b0 = b) as -> by congruence. destruct (pending d) as [c|] eqn:Ep.
    + eexists _, (bk_set_tx false (bk_push c b)).
      split; [done|]. split; [by eapply push_pending_room|].
      rewrite !w_alter_lookup, !decide_True, Hb by done. simpl. rewrite Hq. auto 10.
    + eexists _, (bk_set_tx false b). split; [done|]. split; [by apply push_pending_none|].
      rewrite Htx. simpl. rewrite list_lookup_alter_eq, Hb. simpl. rewrite Hq. auto 10.
  - assert (b0 = b) as -> by congruence. destruct Hc as [Hp _]. eexists _, b.
    split; [done|]. split; [by apply push_pending_none|].
    rewrite Htx. simpl. rewrite Hq. auto 10.
  - simplify_eq. by destruct (dead_running _ Hdead).
Qed.

Lemma push_pending_finishes n P (d : Dfu) w b :
  flight n P False True (d, w) -> state d = Manifest -> w_transfers w !! n = Some b ->
  bk_drain b = DrRunning -> bk_queue b = [] ->
  exists s' w' b', push_pending (d, w) = (Ok false, (set_pending None (set_sink (Some s') d), w')) /\
    Link n s' w' P Ended /\ world_ok w' /\ w_transfers w' !! n = Some b' /\
    (length (bk_queue b') <= 1)%nat /\ bk_drain b' = DrRunning /\ bk_status b' = bk_status b /\
    bk_tx_open b' = false.
Proof.
  intros Hf Hst Hb Hd Hq.
  destruct (push_pending_flushes n P d w b Hf Hst Hb Hd Hq)
    as (s & w' & b' & Hs & Heq & Hb' & Hq' & Hd' & Hst' & Htx').
  destruct Hf as [(s0 & L & m & Hs0 & HL & Hc & _ & _) Hok]. cbn [fst snd] in *.
  assert (s0 = s) as -> by congruence.
  pose proof (push_pending_link n d w s L m Hs HL Hok) as Hp.
  rewrite Heq in Hp. destruct Hp as (s' & L' & m' & p' & Hpush & Hdd & HL' & Hok' & _).
  assert (set_tx None s = s' /\ p' = None) as [<- ->] by (by injection Hdd).
  destruct (pushed_carried _ _ _ _ _ _ _ _ Hpush Hc) as [Hc' _].
  exists (set_tx None s), w', b'. split; [done|].
  assert (m' = Ended) as ->.
  { inversion HL' as [? ? ? Hn|b2 Hb2|b2 Hb2|b2 Hb2 ? ? ? Hdead]; subst; [|done|done|].
    - apply lookup_lt_Some in Hb'. lia.
    - simplify_eq. by destruct (dead_running _ Hdead). }
  destruct Hc' as [_ ->]. auto 10.
Qed.

(** The verdict of a linked session, from the state of its transfer. *)
Lemma poll_status_running n s w L m b :
  Link n s w L m -> w_transfers w !! n = Some b -> bk_status b = StRunning ->
  poll_status (s, w) = (None, (s, w)).
Proof.
  intros HL Hb Hst. destruct (link_backend n s w L m HL) as (b' & Hb' & Hh).
  { intros ->. inversion HL; subst. apply lookup_lt_Some in Hb. lia. }
  assert (b' = b) as -> by congruence. destruct (h_status _ _ _ Hh) as [[Hs Ht]|(_ & _ & ?)]; [|done].
  assert (transfer (s_status s) w = Some b) as Htr by (by rewrite Hs).
  unfold poll_status. by rewrite Ht, Htr, Hst.
Qed.

Lemma poll_status_success n s w L m b :
  Link n s w L m -> w_transfers w !! n = Some b -> bk_status b = StDone (Returned (Ok tt)) ->
  s_status s = Some n ->
  exists s' w', poll_status (s, w) = (Some (Ok tt), (s', w')) /\ w_transfers w' = w_transfers w.
Proof.
  intros HL Hb Hst Hs. destruct (link_backend n s w L m HL) as (b' & Hb' & Hh).
  { intros ->. inversion HL; subst. apply lookup_lt_Some in Hb. lia. }
  assert (b' = b) as -> by congruence. destruct (h_status _ _ _ Hh) as [[_ Ht]|(? & _)]; [|congruence].
  assert (transfer (s_status s) w = Some b) as Htr by (by rewrite Hs).
  unfold poll_status. rewrite Ht, Htr, Hst.
  eexists _, _. split; [reflexivity|]. simpl. by destruct (s_update_type s).
Qed.

Lemma hstep_status (d : Dfu) w d1 w1 :
  poll (d, w) = (Ok tt, (d1, w1)) -> state d1 <> Error ->
  hstep HGetStatus (d, w) = Some (set_state (next_status_state d1) d1, w1).
Proof.
  intros Hp Hne. unfold hstep, event_of.
  assert (handle_event (SetupDeviceToHost (dfu_in GETSTATUS 6) (Ok tt)) (d, w)
    = (Ok (Some (as_slice (Inline (to_bytes
        {| gs_status := status d1;
           gs_poll_timeout_ms := status_poll_timeout d1 (next_status_state d1);
           gs_state := next_status_state d1; gs_string_index := 0 |}) GetStatus_LEN))),
       (set_state (next_status_state d1) d1, w1))) as ->.
  { cbn [handle_event dfu_event_handler dfu_handle_event]. unfold setup_in, handle_in.
    change (is_dfu_request (dfu_in GETSTATUS 6)) with true. cbn [negb].
    by rewrite bind_assoc, (bind_Ok _ _ _ _ _ Hp). }
  cbn [fst state set_state]. rewrite bool_decide_eq_false_2; [done|].
  unfold next_status_state. destruct (state d1); try done; by destruct (isSome (pending d1)).
Qed.

(** The end of a transfer whose session ended the stream: write the last block,
    close, report success. *)
Lemma closing_steps n s w P b :
  Link n s w P Ended -> world_ok w -> w_transfers w !! n = Some b ->
  (length (bk_queue b) <= 1)%nat -> bk_drain b = DrRunning -> bk_status b = StRunning ->
  exists w' b',
    w' = wsteps [WBackend n EvWrite; WBackend n EvEof; WBackend n (EvStatus (Returned (Ok tt)))] w /\
    Link n s w' P Ended /\ w_transfers w' !! n = Some b' /\ bk_drain b' = DrClosed /\
    bk_written b' = P /\ bk_status b' = StDone (Returned (Ok tt)).
Proof.
  intros HL Hok Hb Hq Hd Hst. eexists. set (w' := wsteps _ w).
  assert (Link n s w' P Ended) as HL' by (by apply link_wsteps).
  assert (world_ok w') as Hok' by (by apply all_wsteps).
  assert (bk_tx_open b = false) as Htx by (inversion HL; by simplify_eq).
  destruct (write_step n w b Hb Hd) as (b1 & Hb1 & Hq1 & [Hd1 Hst1 Htx1]).
  assert (bk_queue b1 = []) as Hq1' by (rewrite Hq1; destruct (bk_queue b) as [|? [|]]; simpl in *; [done|done|lia]).
  destruct (running_flow b1) as (_ & Hconn & _); [|done|].
  { apply (world_ok_lookup (wstep (WBackend n EvWrite) w) n); [by apply all_wstep|done]. }
  rewrite Htx in Htx1. rewrite Hst in Hst1.
  assert (exists b', w_transfers w' !! n = Some b' /\ bk_drain b' = DrClosed /\
    bk_status b' = StDone (Returned (Ok tt))) as (b' & Hb' & Hd' & Hst').
  { subst w'. unfold wsteps. simpl foldl. cbn [wstep].
    cbn [wstep] in Hb1. set (w1 := w_alter n _ w) in *.
    rewrite !w_alter_lookup, !decide_True, Hb1 by done. simpl. eexists. split; [done|].
    rewrite Hd1, Hq1', Htx1. simpl. by rewrite Hst1, Hconn. }
  exists b'. destruct (link_written _ _ _ _ _ _ HL' Hok' Hb') as [_ Hw].
  destruct (Hw Hd') as [_ ?]. auto 10.
Qed.

Lemma manifest_completes n P (d : Dfu) w b :
  flight n P False True (d, w) -> state d = Manifest -> w_transfers w !! n = Some b ->
  bk_drain b = DrRunning -> bk_status b = StRunning ->
  exists d' w' b',
    hrun ((HEnv <$> replicate (length (bk_queue b)) (WBackend n EvWrite)) ++ HGetStatus ::
          (HEnv <$> [WBackend n EvWrite; WBackend n EvEof;
                     WBackend n (EvStatus (Returned (Ok tt)))]) ++ [HGetStatus]) (d, w)
      = Some (d', w') /\
    state d' = DfuIdle /\ status d' = StatusOk /\ w_transfers w' !! n = Some b' /\
    bk_drain b' = DrClosed /\ bk_written b' = P.
Proof.
  intros Hf Hst Hb Hd Hrun. rewrite hrun_app, hrun_env. cbn [hrun].
  destruct (write_all n w b _ Hb Hd eq_refl) as (b1 & Hb1 & Hq1 & [Hd1 Hs1 _]).
  set (w1 := wsteps _ w) in *.
  assert (flight n P False True (d, w1)) as Hf1 by (by apply flight_wsteps).
  destruct (push_pending_finishes n P d w1 b1 Hf1 Hst Hb1 Hd1 Hq1)
    as (s2 & w2 & b2 & Hp & HL2 & Hok2 & Hb2 & Hq2 & Hd2 & Hs2 & _).
  assert (bk_status b2 = StRunning) as Hs2' by congruence.
  pose proof (poll_status_running n s2 w2 P Ended b2 HL2 Hb2 Hs2') as Hpoll.
  pose proof (poll_manifest d w1 _ _ _ s2 _ _ _ Hst Hp Hst eq_refl Hpoll) as Hpm. cbn beta iota in Hpm.
  rewrite (hstep_status _ _ _ _ Hpm) by (simpl; congruence).
  set (d3 := set_state _ _).
  assert (state d3 = Manifest) as Hst3 by (simpl; unfold next_status_state; simpl; by rewrite Hst).
  rewrite hrun_app, hrun_env. cbn [hrun].
  destruct (closing_steps n s2 w2 P b2 HL2 Hok2 Hb2 Hq2 Hd2 Hs2')
    as (w5 & b5 & -> & HL5 & Hb5 & Hd5 & Hw5 & Hs5). set (w5 := wsteps _ w2) in *.
  assert (s_tx s2 = None /\ s_status s2 = Some n) as [Htx Hst2].
  { split; [by inversion HL2|]. destruct (link_backend n s2 w2 P Ended HL2) as (b' & Hb' & Hh); [done|].
    destruct (h_status _ _ _ Hh) as [[? _]|(_ & _ & ?)]; congruence. }
  pose proof (push_pending_none d3 w5 s2 Hst3 eq_refl eq_refl) as Hp5. rewrite Htx in Hp5.
  replace (set_tx None s2) with s2 in Hp5 by (destruct s2; simpl in *; by subst).
  destruct (poll_status_success n s2 w5 P Ended b5 HL5 Hb5 Hs5 Hst2) as (s6 & w6 & Hpoll5 & Hw6).
  destruct (poll_manifest d3 w5 _ _ _ s2 _ _ _ Hst3 Hp5 Hst3 eq_refl Hpoll5)
    as (d6 & Hpm6 & Hst6 & Hsu6 & _).
  rewrite (hstep_status _ _ _ _ Hpm6) by congruence.
  destruct (drop_session_lookup s6 w6 n b5) as (b7 & Hb7 & _ & _ & Hd7 & Hw7 & _); [by rewrite Hw6|].
  eexists _, _, b7. split; [done|]. split; [simpl; unfold next_status_state; by rewrite Hst6|].
  split; [done|]. split; [done|]. split; congruence.
Qed.

(** C2. After any download that reached manifestation and whose backend is still
    reading and has not reported, at most as many writes as there are queued
    blocks, a status request, one more write, the close and the backend's
    success verdict bring exactly the image without its suffix to the backend,
    close its writer, and the next status request finds the device idle and
    without error. *)
Theorem dfu_manifest_completes c w acts num evs post (d : Dfu) w1 b :
  world_ok w ->
  Forall (fun a => downloading a = true /\ benign_act a) acts ->
  Forall (fun ev => benign ev = true) evs ->
  Forall (fun a => observing a = true) post ->
  hrun (acts ++ HManifest num evs :: post) (dfu_new c, w) = Some (d, w1) ->
  state d = Manifest -> w_transfers w1 !! length (w_transfers w) = Some b ->
  bk_drain b = DrRunning -> bk_status b = StRunning ->
  let n := length (w_transfers w) in
  exists d' w' b',
    hrun ((HEnv <$> replicate (length (bk_queue b)) (WBackend n EvWrite)) ++ HGetStatus ::
          (HEnv <$> [WBackend n EvWrite; WBackend n EvEof;
                     WBackend n (EvStatus (Returned (Ok tt)))]) ++ [HGetStatus]) (d, w1)
      = Some (d', w') /\
    state d' = DfuIdle /\ status d' = StatusOk /\ w_transfers w' !! n = Some b' /\
    bk_drain b' = DrClosed /\ bk_written b' = payload (image acts).
Proof.
  intros Hok Hacts Hevs Hpost Hr Hm Hb Hd Hst n.
  pose proof (delivery_after c w acts num evs post d w1 Hok Hacts Hevs Hpost Hr) as Ha.
  destruct Ha as [[Hf _]|(_ & _ & _ & [E|E])]; simpl in *; [|congruence..].
  by apply manifest_completes.
Qed.
End Progress.
