(* ===== verification/DfuProps.v ===== *)
(** * Properties of the DFU function

    The suffix check, the protocol's replies and error paths, teardown, the
    invariant of the endpoint-zero loop, and concrete runs of the delivery
    theorems with the checksum of the baseline hasher. *)

From S2P Require Import Prelude Io Bytes Crc32 SysInfo Session Link FunctionFs Dfu DfuDelivery.
From S2P Require Import DfuProgress.

Section Props.
Context {H : Type} `{HasherLaws H}.

Abbreviation Dfu := (Dfu.Dfu H).
Abbreviation DW := (Dfu * World)%type.

(** ** The DFU suffix *)

(** The suffix a host tool appends to a file: device and specification ids, the
    signature "UFD", the suffix length and the complemented CRC-32 of everything
    before it. *)
Definition dfu_suffix (body ids : list byte) : list byte :=
  let head := ids ++ bs "UFD" ++ [Byte.x10] in
  head ++ le_bytes 4 (Z.lxor (hasher_finalize (hasher_update hasher_new (body ++ head))) u32_max).

Lemma lxor_u32_range z : 0 <= z < 2 ^ 32 -> 0 <= Z.lxor z u32_max < 2 ^ 32.
Proof. intros Hz. by apply (Baseline.u32_range_lxor z u32_max). Qed.

Lemma has_valid_dfu_suffix_made body ids :
  length ids = 8%nat ->
  has_valid_dfu_suffix (hasher_update hasher_new body) (dfu_suffix body ids) = true.
Proof.
  intros Hids. unfold has_valid_dfu_suffix, dfu_suffix.
  set (head := ids ++ bs "UFD" ++ [Byte.x10]).
  assert (length head = 12%nat) as Hh by (unfold head; rewrite length_app, Hids; done).
  set (crc := Z.lxor _ _).
  assert (take (DFU_SUFFIX_LEN - 4) (head ++ le_bytes 4 crc) = head) as Htk.
  { change (DFU_SUFFIX_LEN - 4)%nat with 12%nat. rewrite <- Hh. apply take_app_length. }
  assert (drop (DFU_SUFFIX_LEN - 4) (head ++ le_bytes 4 crc) = le_bytes 4 crc) as Hdr.
  { change (DFU_SUFFIX_LEN - 4)%nat with 12%nat. rewrite <- Hh. apply drop_app_length. }
  rewrite Htk, Hdr, hasher_update_app. fold crc.
  rewrite le_val_le_bytes by (apply lxor_u32_range, hasher_finalize_range).
  rewrite length_app, length_le_bytes, Hh.
  do 8 (destruct ids as [|? ids]; [done|]). destruct ids; [|done]. simpl. by rewrite Z.eqb_refl.
Qed.

(** The sixteen bytes of a suffix that is valid after [body]. *)
Definition suffix_of (body sfx : list byte) : Prop :=
  length sfx = 16%nat /\ slice 8 11 sfx = bs "UFD" /\ sfx !! 11%nat = Some Byte.x10 /\
  le_val (drop 12 sfx) =
    Z.lxor (hasher_finalize (hasher_update hasher_new (body ++ take 12 sfx))) u32_max.

(** The specification of a delivery, in terms of the suffix's bytes. *)
Lemma payload_suffix body ids :
  length ids = 8%nat ->
  payload (body ++ dfu_suffix body ids) = body /\
  (forall img, payload img <> img ->
   exists body' sfx, img = body' ++ sfx /\ payload img = body' /\ suffix_of body' sfx).
Proof.
  intros Hids. split.
  - assert (length (dfu_suffix body ids) = DFU_SUFFIX_LEN) as Hl.
    { unfold dfu_suffix. rewrite !length_app, length_le_bytes, Hids. done. }
    rewrite payload_split by (rewrite ?Hl; auto). rewrite has_valid_dfu_suffix_made by done.
    by rewrite orb_true_r.
  - intros img. unfold payload. set (k := (length img - DFU_SUFFIX_LEN)%nat).
    destruct (Nat.leb_spec DFU_SUFFIX_LEN (length img)) as [Hle|]; [|done]. cbn [andb].
    destruct (has_valid_dfu_suffix _ _) eqn:E; [|done]. intros _.
    exists (take k img), (drop k img). split; [by rewrite take_drop|]. split; [done|].
    unfold has_valid_dfu_suffix in E.
    destruct (Nat.eqb_spec (length (drop k img)) DFU_SUFFIX_LEN) as [Hl|]; [|done]. cbn [negb orb] in E.
    destruct (bool_decide_reflect (slice 8 11 (drop k img) = bs "UFD")); [|done].
    destruct (bool_decide_reflect (drop k img !! 11%nat = Some (z2b (Z.of_nat DFU_SUFFIX_LEN))));
      [|done]. cbn [negb orb] in E. apply Z.eqb_eq in E. rewrite hasher_update_app in E. by split_and!.
Qed.

(** C36. The handler strips a DFU suffix, and nothing else. A host downloads a file in
    blocks of any sizes (so that the suffix may be split between blocks), starts the
    manifestation and observes it, without a failure; when SWUpdate's writer is closed while
    the device manifests, a file with the suffix host tools append has arrived without it,
    whatever the file contains; and if what arrived differs from the file, then the file is
    that and sixteen more bytes with the signature, the length 16 and the CRC of all that
    precedes them. *)
Theorem suffix_stripped_on_delivery c w acts num evs post d' w' b :
  world_ok w ->
  Forall (fun a => downloading a = true /\ benign_act a) acts ->
  Forall (fun ev => benign ev = true) evs ->
  Forall (fun a => observing a = true) post ->
  hrun (acts ++ HManifest num evs :: post) (dfu_new (H := H) c, w) = Some (d', w') ->
  w_transfers w' !! length (w_transfers w) = Some b ->
  state d' = Manifest -> bk_drain b = DrClosed ->
  (forall body ids, length ids = 8%nat -> image acts = body ++ dfu_suffix body ids -> bk_written b = body) /\
  (bk_written b <> image acts ->
   exists sfx, image acts = bk_written b ++ sfx /\ suffix_of (bk_written b) sfx).
Proof.
  intros Hw Ha He Hp Hr Hb Hs Hd. destruct (delivered_image _ _ _ _ _ _ _ _ Hw Ha He Hp Hr b Hb) as [_ Hx].
  rewrite (Hx Hs Hd). split.
  - intros body ids Hi ->. by apply payload_suffix.
  - intros Hne. destruct (payload_suffix [] (replicate 8 Byte.x00) eq_refl) as [_ Hq].
    destruct (Hq _ Hne) as (body & sfx & Hi & -> & Hsfx). eauto.
Qed.

(** ** Replies *)

Lemma to_bytes_fields (g : GetStatus) :
  0 <= gs_poll_timeout_ms g < 256 ^ 3 ->
  let reply := take 6 (to_bytes g) in
  length reply = 6%nat /\
  nth 0 reply Byte.x00 = z2b (status_u8 (gs_status g)) /\
  le_val (slice 1 4 reply) = gs_poll_timeout_ms g /\
  nth 4 reply Byte.x00 = z2b (state_u8 (gs_state g)) /\
  nth 5 reply Byte.x00 = z2b (gs_string_index g).
Proof.
  intros Ht. split; [done|]. split; [done|]. split; [|done]. apply (le_val_le_bytes 3), Ht.
Qed.

(** Every answered DFU_GETSTATUS is the six bytes of the protocol: the
    status code, the poll timeout as 24-bit little-endian, the state the device
    is in afterwards, and a zero string index; the state machine reports
    dfuDNBUSY exactly while a received block still waits for the queue. *)
Theorem get_status_reply (d : Dfu) w :
  exists d', let next := next_status_state d in
    get_status (d, w) = (Ok (Inline (to_bytes
      {| gs_status := status d; gs_poll_timeout_ms := status_poll_timeout d next;
         gs_state := next; gs_string_index := 0 |}) 6), (d', w)) /\
    state d' = next /\ pending d' = pending d /\
    (0 <= poll_timeout_ms d < 2 ^ 24 ->
     exists reply, get_status (d, w) = (Ok reply, (d', w)) /\
       length (as_slice reply) = 6%nat /\
       nth 0 (as_slice reply) Byte.x00 = z2b (status_u8 (status d)) /\
       le_val (slice 1 4 (as_slice reply)) = status_poll_timeout d next /\
       nth 4 (as_slice reply) Byte.x00 = z2b (state_u8 next) /\
       nth 5 (as_slice reply) Byte.x00 = Byte.x00) /\
    (state d = DnloadSync \/ state d = DnBusy -> (next = DnBusy <-> pending d <> None)).
Proof.
  eexists. cbn zeta. split; [reflexivity|]. split; [done|]. split; [done|]. split.
  - intros Hr. eexists. split; [reflexivity|].
    assert (0 <= status_poll_timeout d (next_status_state d) < 256 ^ 3) as Ht.
    { unfold status_poll_timeout, DNLOAD_BUSY_POLL_TIMEOUT_MS, MANIFEST_POLL_TIMEOUT_MS.
      destruct (next_status_state d); lia. }
    apply (to_bytes_fields {| gs_status := status d;
      gs_poll_timeout_ms := status_poll_timeout d (next_status_state d);
      gs_state := next_status_state d; gs_string_index := 0 |} Ht).
  - unfold next_status_state. destruct (pending d); simpl; by intros [-> | ->].
Qed.

(** ** Teardown *)

(** What an abort does to the transfer of a linked session. *)
Lemma abort_transfer_effect n s w L m b :
  Link n s w L m -> w_transfers w !! n = Some b ->
  exists w' s', abort (s, w) = (Ok tt, (s', w')) /\
    (exists b', w_transfers w' !! n = Some b' /\ bk_tx_open b' = false /\
       bk_status b' <> StRunning /\ bk_log b' = bk_log b /\ bk_written b' = bk_written b) /\
    (forall i, i <> n -> w_transfers w' !! i = w_transfers w !! i) /\
    w_success_tasks w' = w_success_tasks w /\ w_restart_pending w' = w_restart_pending w /\
    w_reboots w' = w_reboots w.
Proof.
  intros HL Hb. destruct (link_backend n s w L m HL) as (b0 & Hb0 & Hh).
  { intros ->. inversion HL; subst. apply lookup_lt_Some in Hb. lia. }
  assert (b0 = b) as -> by congruence. destruct Hh as [Htx Hst Hrc].
  assert (s_tx s = None -> bk_tx_open b = false) as Hclosed.
  { intros Hn. destruct HL as [? ? ? ?|b1 Hb1 ? ? Ht1 ?|b1 Hb1 ? ? ? Ht1|b1 Hb1 ? ? ? [Ht1]].
    - apply lookup_lt_Some in Hb. lia.
    - congruence.
    - congruence.
    - congruence. }
  eexists _, _. split; [reflexivity|].
  assert (forall i (f : Backend -> Backend) h w0, (h = Some n \/ h = None) -> i <> n ->
    w_transfers (on_transfer h f w0) !! i = w_transfers w0 !! i) as Hother.
  { intros i f h w0 [-> | ->] Hi; [|done]. simpl. by rewrite list_lookup_alter_ne. }
  simpl. split; [|split; [|by destruct (s_tx s), (s_recycle_rx s), (s_status s)]].
  - destruct Htx as [E1|E1], Hrc as [E2|E2], Hst as [[E3 _]|(E3 & _ & Hne)];
      rewrite E1, E2, E3; simpl; rewrite ?list_lookup_alter_eq, ?Hb; simpl;
      (eexists; split; [reflexivity|]); try destruct (bk_status b) eqn:Es; simpl;
      rewrite ?Es; repeat split; auto; done.
  - intros i Hi. rewrite !Hother; try done. destruct Hst as [[? _]|(? & _)]; auto.
Qed.

(** A teardown (abort request, host gone quiet or disconnected, function
    disabled or unbound) always succeeds and leaves the handler as created; the
    transfer it was feeding sees end of stream and loses its status observer,
    so that it cannot trigger a restart, while what it already accepted and
    wrote stays; no other transfer, and neither the restart gate nor a pending
    success, is touched. *)
Theorem dfu_teardown (d : Dfu) w s n L m b :
  sink d = Some s -> Link n s w L m -> w_transfers w !! n = Some b ->
  exists w', reset_on_idle_timeout (d, w) = (Ok tt, (dfu_reset d, w')) /\
    (exists b', w_transfers w' !! n = Some b' /\ bk_tx_open b' = false /\
       bk_status b' <> StRunning /\ bk_log b' = bk_log b /\ bk_written b' = bk_written b) /\
    (forall i, i <> n -> w_transfers w' !! i = w_transfers w !! i) /\
    w_success_tasks w' = w_success_tasks w /\ w_restart_pending w' = w_restart_pending w /\
    w_reboots w' = w_reboots w.
Proof.
  intros Hs HL Hb. destruct (abort_transfer_effect n s w L m b HL Hb) as (w' & s' & Ha & Hrest).
  exists w'. split; [|done]. rewrite reset_spec. unfold aborted_world. by rewrite Hs, Ha.
Qed.

(** A block that arrives while the previous one still waits for the queue is
    refused: the transfer is aborted, the error state with status errSTALLEDPKT
    is entered, and nothing of either block is queued. *)
Theorem block_while_busy_aborts (d : Dfu) w c chunk :
  pending d = Some c ->
  submit_chunk chunk (d, w)
    = (Ok tt, (set_state Error (set_dstatus ErrStalledPkt (dfu_reset d)), aborted_world d w)) /\
  (forall s n L m b, sink d = Some s -> Link n s w L m -> w_transfers w !! n = Some b ->
   exists b', w_transfers (aborted_world d w) !! n = Some b' /\ bk_log b' = bk_log b /\
     bk_tx_open b' = false).
Proof.
  intros Hp. split.
  - unfold submit_chunk. rewrite bind_gets. cbn [fst]. rewrite Hp. apply abort_with_fault_spec.
  - intros s n L m b Hs HL Hb.
    destruct (abort_transfer_effect n s w L m b HL Hb) as (w' & s' & Ha & (b' & Hb' & ? & _ & ? & _) & _).
    exists b'. unfold aborted_world. by rewrite Hs, Ha.
Qed.

(** ** Uploads *)

Definition upload_req (k : Z) (len : Z) : CtrlReq :=
  {| request_type := 161; request := UPLOAD; value := k; index := 0; length_ := len |}.

(** The bytes an upload request returns. *)
Definition uploaded (d : Dfu) (w : World) (k : nat) : list byte :=
  match upload_block (upload_req (Z.of_nat k) (transfer_size d)) (d, w) with
  | (Ok r, _) => as_slice r
  | (Err _, _) => []
  end.

Lemma upload_block_slice (d : Dfu) w data k :
  upload d = Some (UploadData data) -> 0 < transfer_size d ->
  let ts := Z.to_nat (transfer_size d) in
  let buf := take ts (drop (k * ts) data) in
  upload_block (upload_req (Z.of_nat k) (transfer_size d)) (d, w)
  = (Ok (Data buf), (set_state (if (length buf <? ts)%nat then DfuIdle else UploadIdle) d, w)).
Proof.
  intros Hu Hts ts buf. unfold upload_block. rewrite bind_gets. cbn [fst]. rewrite Hu.
  cbn [value upload_req].
  replace (Z.to_nat (Z.of_nat k * transfer_size d)) with (k * ts)%nat by (unfold ts; lia).
  set (start := Nat.min (k * ts) (length data)).
  assert (slice start (Nat.min (start + Z.to_nat (transfer_size d)) (length data)) data = buf) as ->.
  { unfold slice, buf. fold ts. unfold start.
    destruct (Nat.le_ge_cases (k * ts) (length data)) as [Hle|Hge].
    - rewrite !(Nat.min_l (k * ts)) by lia.
      destruct (Nat.le_ge_cases (k * ts + ts) (length data)) as [Hle2|Hge2].
      + rewrite Nat.min_l by lia. f_equal. lia.
      + rewrite Nat.min_r by lia. rewrite !take_ge; [done| |]; rewrite length_drop; lia.
    - rewrite !(Nat.min_r (k * ts)) by lia. rewrite (drop_ge data (length data)) by lia.
      rewrite (drop_ge data (k * ts)) by lia. by rewrite !take_nil. }
  replace (Z.of_nat (length buf) <? transfer_size d) with (length buf <? ts)%nat
    by (unfold ts; destruct (Nat.ltb_spec (length buf) (Z.to_nat (transfer_size d)));
        destruct (Z.ltb_spec (Z.of_nat (length buf)) (transfer_size d)); lia || done).
  by destruct (length buf <? ts)%nat.
Qed.

Lemma concat_chunks {A} (ts : nat) (data : list A) n k :
  (0 < ts)%nat -> (length data < (k + n) * ts)%nat ->
  concat ((fun i => take ts (drop (i * ts) data)) <$> seq k n) = drop (k * ts) data.
Proof.
  intros Hts. revert k. induction n as [|n IH]; intros k Hn; simpl.
  - rewrite drop_ge; [done|]. lia.
  - rewrite IH by lia. rewrite <- (take_drop ts (drop (k * ts) data)) at 2.
    f_equal. rewrite drop_drop. f_equal. lia.
Qed.

(** Uploading block after block returns the configured data exactly: the
    blocks are the consecutive slices of the transfer size, they concatenate to
    the data, and only the last, short one ends the upload. *)
Theorem upload_reassembles (d : Dfu) w data :
  upload d = Some (UploadData data) -> 0 < transfer_size d ->
  let ts := Z.to_nat (transfer_size d) in
  let n := S (length data / ts) in
  concat (uploaded d w <$> seq 0 n) = data /\
  forall k, (k < n)%nat ->
    exists d', upload_block (upload_req (Z.of_nat k) (transfer_size d)) (d, w)
      = (Ok (Data (uploaded d w k)), (d', w)) /\
    (state d' = DfuIdle <-> k = (length data / ts)%nat).
Proof.
  intros Hu Hts ts n. assert (0 < ts)%nat as Hts' by lia.
  assert (forall k, uploaded d w k = take ts (drop (k * ts) data)) as Hk.
  { intros k. unfold uploaded. by rewrite (upload_block_slice d w data k Hu Hts). }
  pose proof (Nat.div_mod_eq (length data) ts) as Hdm.
  pose proof (Nat.mod_upper_bound (length data) ts ltac:(lia)) as Hmod. split.
  - rewrite (list_fmap_ext _ (fun i => take ts (drop (i * ts) data)) _ (fun _ k _ => Hk k)).
    rewrite concat_chunks by (unfold n; nia). done.
  - intros k Hlt. rewrite (upload_block_slice d w data k Hu Hts), Hk.
    eexists. split; [reflexivity|]. simpl. fold ts.
    rewrite length_take, length_drop.
    destruct (Nat.ltb_spec (Nat.min ts (length data - k * ts)) ts) as [Hs|Hs].
    + split; [intros _|done]. unfold n in Hlt. nia.
    + split; [done|]. intros ->. nia.
Qed.

(** ** The invariant of the endpoint-zero loop *)

(** The configuration never changes, there is always a session, the held-back
    tail is never longer than a suffix, and the transfers keep theirs. *)
Record dfu_inv (c : DfuConfig) (dw : DW) : Prop := {
  di_transfer_size : transfer_size dw.1 = dc_transfer_size c;
  di_poll_timeout : poll_timeout_ms dw.1 = dc_poll_timeout_ms c;
  di_download : download dw.1 = dc_download c;
  di_upload : upload dw.1 = dc_upload c;
  di_sink : sink dw.1 <> None;
  di_tail : (length (download_tail dw.1) <= DFU_SUFFIX_LEN)%nat;
  di_world : world_ok dw.2;
}.

Lemma dfu_inv_new c w : world_ok w -> dfu_inv c (dfu_new c, w).
Proof. intros Hw. split; simpl; try done. apply Nat.le_0_l. Qed.

Lemma inv_update c f :
  (forall d w, dfu_inv c (d, w) -> dfu_inv c (f d, w)) -> preserves (dfu_inv c) (update f).
Proof. intros Hf. apply preserves_modify. intros [d w]. apply Hf. Qed.

Lemma inv_on_sink {A} c (m : M SW A) :
  preserves (sw_inv backend_ok (fun cap => 0 < cap)) m -> preserves (dfu_inv c) (on_sink m).
Proof.
  intros Hm [d w] Hi. unfold on_sink. destruct (sink d) as [s|] eqn:Es; [|done].
  pose proof Hi as [? ? ? ? ? ? Hw]. specialize (Hm (s, w) (conj Hw (queue_capacity_pos _))).
  destruct (m (s, w)) as [[a|e] [s' w']]; destruct Hm as [Hw' _]; by split.
Qed.

Lemma inv_replace_sink c : preserves (dfu_inv c) replace_sink.
Proof.
  apply preserves_modify. intros [d w] []. split; simpl; try done.
  destruct (sink d); [|done]. by apply drop_session_inv.
Qed.

(** The simple assignments. *)
Ltac inv_set := apply inv_update; intros ? ? []; by split.

Lemma inv_set_state c v : preserves (dfu_inv c) (update (set_state v)).
Proof. inv_set. Qed.
Lemma inv_set_dstatus c v : preserves (dfu_inv c) (update (set_dstatus v)).
Proof. inv_set. Qed.
Lemma inv_set_pending c v : preserves (dfu_inv c) (update (set_pending v)).
Proof. inv_set. Qed.
Lemma inv_set_crc c v : preserves (dfu_inv c) (update (set_crc v)).
Proof. inv_set. Qed.
Lemma inv_set_tail c v :
  (length v <= DFU_SUFFIX_LEN)%nat -> preserves (dfu_inv c) (update (set_tail v)).
Proof. intros Hv. apply inv_update. intros ? ? []. by split. Qed.
Lemma inv_set_tail_nil c : preserves (dfu_inv c) (update (set_tail [])).
Proof. apply inv_set_tail, Nat.le_0_l. Qed.
Lemma inv_env c evs : preserves (dfu_inv c) (modify (fun '(d, w) => (d, wsteps evs w))).
Proof. apply preserves_modify. intros [d w] []. split; try done. by apply all_wsteps. Qed.
Lemma inv_fault c st : preserves (dfu_inv c) (fault st).
Proof. apply preserves_bind; [apply inv_set_dstatus|intros _; apply inv_set_state]. Qed.

Lemma inv_sink_eof c : preserves (dfu_inv c) (on_sink eof).
Proof. apply inv_on_sink, drop_tx_inv. Qed.
Lemma inv_sink_abort c : preserves (dfu_inv c) (on_sink abort).
Proof. apply inv_on_sink, abort_inv. Qed.
Lemma inv_sink_buffer c : preserves (dfu_inv c) (on_sink buffer).
Proof. apply inv_on_sink, buffer_inv. Qed.
Lemma inv_sink_try_send c item : preserves (dfu_inv c) (on_sink (try_send item)).
Proof. apply inv_on_sink. by apply (try_send_inv (Q := fun _ => True)). Qed.

Lemma inv_try_finished c : preserves (dfu_inv c) try_finished_sink.
Proof.
  intros [d w] Hi. unfold try_finished_sink. destruct (sink d) as [s|] eqn:Es; [|done].
  destruct Hi as [? ? ? ? ? ? Hw].
  pose proof (poll_status_inv (P := backend_ok) (C := fun cap => 0 < cap) (s, w)
    (conj Hw (queue_capacity_pos _))) as [Hw' _].
  unfold try_finished. destruct (poll_status (s, w)) as [r [s' w']]. by split.
Qed.

#[local] Hint Resolve inv_set_state inv_set_dstatus inv_set_pending inv_set_crc inv_set_tail_nil
  inv_env inv_fault inv_replace_sink inv_sink_eof inv_sink_abort inv_sink_buffer
  inv_sink_try_send inv_try_finished : gadget.

(** Walks through a monadic body. *)
Ltac inv_steps :=
  repeat first
    [ solve [auto 2 with gadget nocore]
    | apply preserves_bind; [|intros]
    | apply preserves_attempt
    | case_one ].

Lemma inv_push_pending c : preserves (dfu_inv c) push_pending.
Proof. unfold push_pending, signal_eof. inv_steps. Qed.
#[local] Hint Resolve inv_push_pending : gadget.

Lemma inv_poll c : preserves (dfu_inv c) poll.
Proof. unfold poll. inv_steps. Qed.

Lemma inv_reset c : preserves (dfu_inv c) reset_on_idle_timeout.
Proof. unfold reset_on_idle_timeout. inv_steps. Qed.

Lemma inv_abort_transfer c : preserves (dfu_inv c) abort_transfer.
Proof. apply inv_reset. Qed.
#[local] Hint Resolve inv_poll inv_reset inv_abort_transfer : gadget.

Lemma inv_submit c chunk : preserves (dfu_inv c) (submit_chunk chunk).
Proof. unfold submit_chunk, abort_with_fault. inv_steps. Qed.
#[local] Hint Resolve inv_submit : gadget.

Lemma inv_manifest c : preserves (dfu_inv c) manifest.
Proof. unfold manifest, recycled_chunk_buffer. inv_steps. Qed.

Lemma inv_receive c req data : preserves (dfu_inv c) (receive_dnload_block req data).
Proof.
  unfold receive_dnload_block, flushable_len. inv_steps.
  - apply inv_set_tail. rewrite length_drop. apply Nat.ltb_lt in E0. lia.
  - apply inv_update. intros ? ? []. by split.
  - apply inv_set_tail. apply Nat.ltb_ge in E0. lia.
Qed.
#[local] Hint Resolve inv_manifest inv_receive : gadget.

Lemma inv_handle_event c ev : preserves (dfu_inv c) (handle_event ev).
Proof.
  cbn [handle_event dfu_event_handler]. unfold dfu_handle_event, setup_out, setup_in, handle_out,
    handle_in, upload_block, get_status, unsupported, drain_request.
  inv_steps. apply inv_update. intros ? ? []. by split.
Qed.

Lemma dfu_inv_env c d w evs : dfu_inv c (d, w) -> dfu_inv c (d, wsteps evs w).
Proof. apply (inv_env c evs (d, w)). Qed.

(** The loop keeps the invariant, and leaves a fresh handler when it stops. *)
Lemma dfu_serve_keeps c fd steps w :
  world_ok w ->
  dfu_inv c (dfu_serve c fd steps w).2 /\ ((dfu_serve c fd steps w).1 = true -> (dfu_serve c fd steps w).2.1 = dfu_new c).
Proof.
  intros Hw. assert (dfu_inv c (dfu_serve c fd steps w).2) as Hi.
  { unfold dfu_serve. apply (serve_preserves (dfu_inv c)).
    - intros ev. apply inv_handle_event.
    - apply inv_reset.
    - apply inv_reset.
    - intros d w1 evs. apply dfu_inv_env.
    - by apply dfu_inv_new. }
  split; [done|]. intros Hstop. unfold dfu_serve, serve in *. destruct fd as [x|e]; [|done].
  destruct (serve_loop steps (dfu_new c, w)) as [stop hw] eqn:E. simpl in Hstop. subst stop.
  destruct (serve_loop_stops steps _ _ E) as (s & err & d & w1 & _ & _ & _ & Heq).
  cbn [on_transport_closed dfu_event_handler] in Heq. rewrite reset_spec in Heq. simpl in *. subst hw.
  destruct Hi as [? ? ? ? _ _ _]. simpl in *. unfold dfu_reset, dfu_new. congruence.
Qed.

(** Whatever events, errors and silences endpoint zero delivers, and however
    the background tasks interleave, the DFU loop keeps its configuration, has a
    session, holds back at most a suffix, and keeps the order of every transfer;
    when the loop stops, the handler is exactly as it was created. *)
Theorem dfu_serve_invariant c steps w :
  world_ok w ->
  let r := dfu_serve c (Ok tt) steps w in
  dfu_inv c r.2 /\ (r.1 = true -> r.2.1 = dfu_new c).
Proof. intros Hw r. by apply dfu_serve_keeps. Qed.

(** The idle timeout runs exactly while the device is not in [dfuIDLE], and a
    silent host resets the handler. *)
Lemma idle_timeout_iff (d : Dfu) : idle_timeout d = None <-> state d = DfuIdle.
Proof.
  cbn [idle_timeout dfu_event_handler]. unfold dfu_idle_timeout.
  by destruct (bool_decide_reflect (state d = DfuIdle)).
Qed.
End Props.

(** ** Concrete runs *)

Module Demo.
Import Baseline.

Definition config : DfuConfig :=
  {| dc_download := default_params; dc_upload := Some (UploadData (bs "{}"));
     dc_transfer_size := 32; dc_poll_timeout_ms := 10 |}.

Definition firmware : list byte := bs "a firmware image of forty-three bytes......".
Definition file : list byte := firmware ++ dfu_suffix (H := State) firmware (bs "00112233").

Definition world : World := idle_world side_a_env.

Definition acts : list hact :=
  [HBlock 0 [] (take 32 file); HGetStatus; HEnv (WBackend 0 EvConnectOk);
   HBlock 1 [WBackend 0 EvWrite] (drop 32 file); HGetStatus; HGetState].

Definition post : list hact :=
  [HEnv (WBackend 0 EvWrite); HEnv (WBackend 0 EvWrite); HEnv (WBackend 0 EvEof); HGetStatus].

Abbreviation run l := (hrun l (dfu_new (H := State) config, world)).

(** The observable outcome of a run: the reported state and status, and the
    first transfer's drain task and received bytes. *)
Definition outcome (r : option (Dfu.Dfu State * World))
    : option (Dfu.State * Status * option (DrainTask * StatusTask * nat * list byte)) :=
  '(d, w) ← r;
  Some (state d, status d,
        (fun b => (bk_drain b, bk_status b, length (bk_queue b), bk_written b)) <$> w_transfers w !! 0%nat).

Lemma acts_ok : Forall (fun a => downloading a = true /\ benign_act a) acts.
Proof. repeat constructor. Qed.

Lemma outcome_inv r st su dr ss q wr :
  outcome r = Some (st, su, Some (dr, ss, q, wr)) ->
  exists d w b, r = Some (d, w) /\ state d = st /\ status d = su /\ w_transfers w !! 0%nat = Some b /\
    bk_drain b = dr /\ bk_status b = ss /\ length (bk_queue b) = q /\ bk_written b = wr.
Proof.
  destruct r as [[d w]|]; [|done]. simpl. destruct (w_transfers w !! 0%nat) as [b|] eqn:E; simpl; [|done].
  intros ?. simplify_eq. exists d, w, b. done.
Qed.

Example run_outcome :
  outcome (run (acts ++ HManifest 2 [] :: post))
  = Some (Manifest, StatusOk, Some (DrClosed, StRunning, 0%nat, firmware)).
Proof. vm_compute. reflexivity. Qed.

(** The image arrives without its suffix. *)
Lemma dfu_delivers_image_witness :
  exists d w b, run (acts ++ HManifest 2 [] :: post) = Some (d, w) /\
    w_transfers w !! 0%nat = Some b /\ bk_written b = firmware /\
    bk_written b = payload (H := State) (image acts).
Proof.
  destruct (outcome_inv _ _ _ _ _ _ _ run_outcome) as (d & w & b & Hr & Hst & _ & Hb & Hd & _ & _ & Hw).
  exists d, w, b. split; [exact Hr|]. split; [exact Hb|]. split; [exact Hw|].
  destruct (dfu_delivers_image (H := State) config world acts 2 [] post d w (Forall_nil_2 _) acts_ok
    (Forall_nil_2 _) ltac:(repeat constructor) Hr b Hb) as [_ Hfin].
  exact (Hfin Hst Hd).
Defined.

Definition post_running : list hact := [HGetStatus; HEnv (WBackend 0 EvWrite)].

Example running_outcome :
  outcome (run (acts ++ HManifest 2 [] :: []))
  = Some (Manifest, StatusOk, Some (DrRunning, StRunning, 1%nat, take 16 firmware)).
Proof. vm_compute. reflexivity. Qed.

Lemma dfu_manifest_completes_witness :
  exists d w d' w' b', run (acts ++ [HManifest 2 []]) = Some (d, w) /\ state d = Manifest /\
    hrun ([HEnv (WBackend 0 EvWrite); HGetStatus; HEnv (WBackend 0 EvWrite);
      HEnv (WBackend 0 EvEof); HEnv (WBackend 0 (EvStatus (Returned (Ok tt)))); HGetStatus]) (d, w)
      = Some (d', w') /\ state d' = DfuIdle /\
    w_transfers w' !! 0%nat = Some b' /\ bk_written b' = payload (H := State) (image acts).
Proof.
  destruct (outcome_inv _ _ _ _ _ _ _ running_outcome)
    as (d & w & b & Hr & Hst & _ & Hb & Hd & Hs & Hq & _).
  destruct (dfu_manifest_completes (H := State) config world acts 2 [] [] d w b (Forall_nil_2 _)
    acts_ok (Forall_nil_2 _) (Forall_nil_2 _) Hr Hst Hb Hd Hs)
    as (d' & w' & b' & Hrun & Hst' & _ & Hb' & _ & Hw').
  exists d, w, d', w', b'. rewrite Hq in Hrun.
  split; [exact Hr|]. split; [exact Hst|]. split; [exact Hrun|]. split; [exact Hst'|].
  split; [exact Hb'|exact Hw'].
Defined.

(** The run above: the file arrives without its suffix. *)
Lemma suffix_stripped_on_delivery_witness :
  exists d w b, run (acts ++ HManifest 2 [] :: post) = Some (d, w) /\
    w_transfers w !! 0%nat = Some b /\ bk_written b = firmware.
Proof.
  destruct (outcome_inv _ _ _ _ _ _ _ run_outcome) as (d & w & b & Hr & Hst & _ & Hb & Hd & _).
  exists d, w, b. split; [exact Hr|]. split; [exact Hb|].
  apply (proj1 (suffix_stripped_on_delivery (H := State) config world acts 2 [] post d w b (Forall_nil_2 _) acts_ok
    (Forall_nil_2 _) ltac:(repeat constructor) Hr Hb Hst Hd) firmware (bs "00112233") eq_refl).
  vm_compute. reflexivity.
Defined.

(** A handler feeding an open transfer. *)
Definition feeding_sw : SW :=
  srun [OpTrySend (bs "ab"); OpEnv (WBackend 0 EvConnectOk)] (session_new default_params 32, world).
Definition feeding : Dfu.Dfu State :=
  set_pending (Some (bs "cd")) (set_sink (Some feeding_sw.1) (dfu_new config)).

Lemma feeding_link :
  exists b, Link 0 feeding_sw.1 feeding_sw.2 (bs "ab") Live /\ w_transfers feeding_sw.2 !! 0%nat = Some b.
Proof.
  destruct (w_transfers feeding_sw.2 !! 0%nat) as [b|] eqn:E; [|by vm_compute in E].
  exists b. split; [|done].
  assert (bs "ab" = concat (bk_log b)) as ->.
  { vm_compute in E. injection E as <-. reflexivity. }
  apply (link_live 0 _ _ b); try done.
  - split; auto.
  - vm_compute in E. by injection E as <-.
Qed.

Lemma dfu_teardown_witness :
  exists w' b', reset_on_idle_timeout (feeding, feeding_sw.2) = (Ok tt, (dfu_reset feeding, w')) /\
    w_transfers w' !! 0%nat = Some b' /\ bk_tx_open b' = false.
Proof.
  destruct feeding_link as (b & HL & Hb).
  destruct (dfu_teardown feeding feeding_sw.2 feeding_sw.1 0 _ _ b eq_refl HL Hb)
    as (w' & Hr & (b' & Hb' & Htx & _) & _).
  exists w', b'. split; [exact Hr|]. split; [exact Hb'|exact Htx].
Defined.

Lemma block_while_busy_aborts_witness :
  exists dw, submit_chunk (bs "ef") (feeding, feeding_sw.2) = (Ok tt, dw) /\
    state dw.1 = Error /\ status dw.1 = ErrStalledPkt.
Proof.
  destruct (block_while_busy_aborts feeding feeding_sw.2 (bs "cd") (bs "ef") eq_refl) as [H _].
  eexists. split; [exact H|]. split; reflexivity.
Defined.

Definition unplugged : list Ep0Step :=
  [{| es_env := []; es_wait := Ep0Next (Ok Enable) |};
   {| es_env := []; es_wait := Ep0Next (Err (Os ENODEV)) |}].

Lemma dfu_serve_invariant_witness :
  dfu_inv config (dfu_serve (H := State) config (Ok tt) unplugged world).2 /\
  (dfu_serve (H := State) config (Ok tt) unplugged world).2.1 = dfu_new config.
Proof.
  destruct (dfu_serve_invariant (H := State) config unplugged world (Forall_nil_2 _)) as [Hi Hs].
  split; [exact Hi|]. apply Hs. vm_compute. reflexivity.
Defined.

Lemma upload_reassembles_witness :
  concat (uploaded (dfu_new (H := State) config) world <$> seq 0 1) = bs "{}".
Proof.
  apply (upload_reassembles (dfu_new (H := State) config) world (bs "{}") eq_refl eq_refl).
Defined.

(** ** A masked failure

    The backend fails while a block is on its way. The poll at the start of the
    block's request sees the failure and enters the error state, but the rest
    of the request overwrites state and status: the host reads dfuDNLOAD-IDLE
    and OK, and the remaining bytes go to a second transfer. *)
Example failure_masked_by_block :
  let fail := WBackend 0 (EvStatus (Returned (Err (other "bad image")))) in
  let l := [HBlock 0 [] (take 32 file); HEnv (WBackend 0 EvConnectOk); HEnv fail;
            HBlock 1 [] (drop 32 file); HGetStatus] in
  match run l with
  | Some (d, w) => (state d, status d, length (w_transfers w)) = (DnloadIdle, StatusOk, 2%nat)
  | None => False
  end.
Proof. vm_compute. reflexivity. Qed.

(** Without the block, the same failure is reported. *)
Example failure_reported_to_status :
  let fail := WBackend 0 (EvStatus (Returned (Err (other "bad image")))) in
  run [HBlock 0 [] (take 32 file); HEnv (WBackend 0 EvConnectOk); HEnv fail; HGetStatus] = None.
Proof. vm_compute. reflexivity. Qed.
End Demo.
