(* ===== verification/Pump.v ===== *)
(** * The pump from a producer to SWUpdate

    [pump_to_swupdate] is shared by the socket listener and fastboot over TCP.
    It is verified here once, against an interface of the producer: the law of
    [SourceLaws] relates a source to the bytes it still has to produce, and the
    transports discharge it. *)

From S2P Require Import Prelude Io Session Link.

(** ** Waiting for a free slot *)

Lemma link_ensure_open n s w L m :
  Link n s w L m -> world_ok w ->
  match ensure_open (s, w) with
  | (Ok _, (s', w')) =>
      Link n s' w' L (if decide (m = Unopened) then Live else m) /\ world_ok w'
  | (Err _, _) => m = Unopened /\ w_restart_pending w = true
  end.
Proof.
  intros HL Hok. unfold ensure_open. destruct (decide (m = Unopened)) as [->|Hm].
  - inversion HL as [Ho Ht Hr Hn| | |]; subst.
    change (isSome (s_tx s) || isSome (s_status s)) with (is_open s). rewrite Ho, Ht.
    cbn [orb isSome]. pose proof (link_open _ s w Ho Hr eq_refl) as Hopen.
    pose proof (open_inv (P := backend_ok) (C := fun cap => 0 < cap) (s, w)
      (conj Hok (queue_capacity_pos _))) as [Hok' _].
    destruct (open (s, w)) as [[[]|e] [s' w']]; cbn [snd] in *;
      [by destruct Hopen|by destruct Hopen].
  - destruct (link_backend _ _ _ _ _ HL Hm) as (b & _ & [_ Hst _]).
    replace (isSome (s_tx s) || isSome (s_status s) || isSome (s_terminal s)) with true; [done|].
    destruct Hst as [[-> _]|(_ & Hne & _)]; [by destruct (s_tx s)|].
    destruct (s_terminal s); [|done]. by rewrite orb_true_r.
Qed.

Lemma feed_closed_mode n s w L m item :
  Link n s w L m -> m = Ended \/ m = Dead -> feed item (s, w) = (Ok FeedClosed, (s, w)).
Proof.
  intros HL Hm. assert (s_tx s = None) as Htx by (destruct Hm as [-> | ->]; by inversion HL).
  unfold feed. by rewrite Htx.
Qed.

(** The mode once the queue was found closed. *)
Definition after_close (m : Mode) : Mode := match m with Ended => Ended | _ => Dead end.

Lemma after_close_modes m : after_close m = Ended \/ after_close m = Dead.
Proof. destruct m; auto. Qed.

(** The outcome of an operation that may have been left pending. *)
Definition sent (n : nat) (L : list byte) (m : Mode) (item : block)
    (o : option (io_result Feed) * (list wevent * SW)) : Prop :=
  let '(r, (l, (s', w'))) := o in
  world_ok w' /\
  match r with
  | Some (Ok (FeedOk _)) => Link n s' w' (L ++ item) Live
  | Some (Ok FeedClosed) => Link n s' w' L (after_close m)
  | Some (Ok (FeedFull _)) => False
  | Some (Err _) => False
  | None => l = [] /\ Link n s' w' L Live
  end.

Lemma wait_send n item l s w L m :
  Link n s w L m -> m <> Unopened -> world_ok w ->
  sent n L m item (wait tick_sw (poll_send item) l (s, w)).
Proof.
  intros HL Hm Hok. assert (m = Live \/ m = Ended \/ m = Dead) as [->|Hcl] by (destruct m; try done; auto).
  - clear Hm. revert s w HL Hok. induction l as [|ev l IH]; intros s w HL Hok; cbn [wait];
      unfold poll_send;
      pose proof (feed_live n s w L item HL Hok) as Hf;
      (assert (world_ok (feed item (s, w)).2.2) as Hok' by
        (destruct (feed_inv (Q := fun _ => True) item I (s, w) (conj Hok (queue_capacity_pos _)))
           as [? _]; done));
      destruct (feed item (s, w)) as [[[k|it|]|e] [s' w']]; cbn [fst snd] in *; simpl.
    + split; [done|]. apply Hf.
    + destruct Hf as [_ Hf]. auto.
    + split; [done|]. exact Hf.
    + done.
    + split; [done|]. apply Hf.
    + destruct Hf as [_ Hf]. apply (IH s' (wstep ev w')); [by apply link_wstep|by apply all_wstep].
    + split; [done|]. exact Hf.
    + done.
  - assert (wait tick_sw (poll_send item) l (s, w) = (Some (Ok FeedClosed), (l, (s, w)))) as ->.
    { destruct l; cbn [wait]; unfold poll_send; by rewrite (feed_closed_mode n s w L m). }
    split; [done|]. by destruct Hcl as [-> | ->].
Qed.

Lemma link_send n item l s w L m :
  Link n s w L m -> world_ok w ->
  match send item l (s, w) with
  | (Some (Err _), _) => m = Unopened
  | o => sent n L m item o
  end.
Proof.
  intros HL Hok. unfold send, abind, sync.
  pose proof (link_ensure_open n s w L m HL Hok) as He.
  destruct (ensure_open (s, w)) as [[u|e] [s1 w1]]; [|by destruct He].
  destruct He as [HL1 Hok1].
  assert ((if decide (m = Unopened) then Live else m) <> Unopened) as Hne by (by destruct (decide _)).
  pose proof (wait_send n item l s1 w1 L _ HL1 Hne Hok1) as Hs.
  destruct (wait _ _ _ _) as [[[[k|it|]|e]|] [l' [s' w']]]; [done|done| |by destruct Hs|done].
  destruct Hs as [? Hs]. split; [done|]. by destruct m.
Qed.

(** ** Waiting for the verdict *)

Lemma wait_finished n l s w L m :
  Link n s w L m -> world_ok w ->
  match finished l (s, w) with
  | (_, (_, (s', w'))) => Link n s' w' L m /\ world_ok w'
  end.
Proof.
  unfold finished. revert s w. induction l as [|ev l IH]; intros s w HL Hok; cbn [wait];
    (pose proof (poll_status_inv (P := backend_ok) (C := fun cap => 0 < cap) (s, w)
      (conj Hok (queue_capacity_pos _))) as [Hok' _]);
    destruct (poll_status (s, w)) as [[r|] [s' w']] eqn:E; cbn [snd] in Hok';
    destruct (link_poll_status _ _ _ _ _ _ _ _ E HL) as (HL' & _ & _); [done|done|done|].
  apply IH; [by apply link_wstep|by apply all_wstep].
Qed.

(** A reported success is cached. *)
Lemma poll_status_success_terminal s w s' w' :
  poll_status (s, w) = (Some (Ok tt), (s', w')) -> s_terminal s' = Some (Ok tt).
Proof.
  unfold poll_status. destruct (s_terminal s) as [[[]|msg]|] eqn:Et; [by intros [= <- _]|done|].
  destruct (transfer (s_status s) w) as [b|]; [|done].
  destruct (bk_status b) as [|[[[]|e]|msg]|]; try done. by intros [= <- _].
Qed.

Lemma wait_success_terminal l s w l' s' w' :
  finished l (s, w) = (Some (Ok tt), (l', (s', w'))) -> s_terminal s' = Some (Ok tt).
Proof.
  unfold finished. revert s w. induction l as [|ev l IH]; intros s w; cbn [wait];
    destruct (poll_status (s, w)) as [[r|] [s1 w1]] eqn:E; try done.
  - intros [= -> _ <- <-]. by eapply poll_status_success_terminal.
  - intros [= -> _ <- <-]. by eapply poll_status_success_terminal.
  - apply IH.
Qed.

(** A wait is only left pending when the schedule is over. *)
Lemma wait_pending {S A} tick (poll : S -> option (io_result A) * S) l s l' s' :
  wait tick poll l s = (None, (l', s')) -> l' = [].
Proof.
  revert s. induction l as [|ev l IH]; intros s; cbn [wait];
    destruct (poll s) as [[r|] s1]; try done; [by intros [= <- _]|apply IH].
Qed.

Lemma send_pending item l sw l' sw' : send item l sw = (None, (l', sw')) -> l' = [].
Proof.
  unfold send, abind, sync. destruct (ensure_open sw) as [[u|e] sw1]; [|done]. apply wait_pending.
Qed.

(** A wait that goes on was pending at its last look. *)
Lemma wait_last {S A} (tick : wevent -> S -> S) (poll : S -> option (io_result A) * S) l s l' s' :
  wait tick poll l s = (None, (l', s')) -> exists s0, poll s0 = (None, s').
Proof.
  revert s. induction l as [|ev l IH]; intros s; cbn [wait]; destruct (poll s) as [[r|] s1] eqn:E; try done.
  - intros [= _ <-]. by exists s.
  - apply IH.
Qed.

(** The queue of a transfer that takes data but has no room. *)
Definition full (n : nat) (L : list byte) (w : World) : Prop :=
  exists b, w_transfers w !! n = Some b /\ concat (bk_log b) = L /\ bk_tx_open b = true /\ chan_try_send b = PushedFull.

(** A send waits only for room in the queue. *)
Lemma send_waits n item l s w L m l' s' w' :
  send item l (s, w) = (None, (l', (s', w'))) -> Link n s w L m -> world_ok w -> Link n s' w' L Live /\ full n L w'.
Proof.
  intros E HL Hok. pose proof (link_send n item l s w L m HL Hok) as Hs. rewrite E in Hs. destruct Hs as (_ & _ & HL').
  split; [done|]. revert E. unfold send, abind, sync. destruct (ensure_open (s, w)) as [[u|e] sw1]; [|done].
  intros ([s0 w0] & Hp)%wait_last. unfold poll_send, feed in Hp. destruct (transfer (s_tx s0) w0) as [b|] eqn:Eb; [|done].
  destruct (chan_try_send b) eqn:Ec; try done. injection Hp as -> ->.
  inversion HL' as [|b' Hb' ? ? Htx Hop| |]; subst L. rewrite Htx in Eb. unfold transfer in Eb. cbn in Eb.
  exists b. simplify_eq. done.
Qed.

(** ** The verdict *)

(** The status task of a backend that reported success. *)
Definition succeeded (b : Backend) : bool :=
  match bk_status b with StDone (Returned (Ok _)) => true | _ => false end.

(** The outcome of waiting is the outcome of the status task. *)
Lemma finished_verdict n l s w L m :
  Link n s w L m -> m <> Unopened -> s_terminal s = None ->
  match finished l (s, w) with
  | (None, (l', _)) => l' = []
  | (Some r, (_, (s', w'))) =>
      Link n s' w' L m /\ exists b, w_transfers w' !! n = Some b /\ is_ok r = succeeded b
  end.
Proof.
  unfold finished. revert s w. induction l as [|ev l IH]; intros s w HL Hm Ht; cbn [wait];
    destruct (poll_status (s, w)) as [[r|] [s' w']] eqn:E;
    destruct (link_poll_status _ _ _ _ _ _ _ _ E HL) as (HL' & Hw & _); try done.
  3: { apply IH; [by apply link_wstep|done|]. revert E. unfold poll_status. rewrite Ht.
       destruct (transfer (s_status s) w) as [b|]; [|done].
       destruct (bk_status b) as [|[[[]|e]|msg]|]; try done. by intros [= <- _]. }
  all: split; [done|]; destruct (link_backend _ _ _ _ _ HL Hm) as (b & Hb & Hh);
    exists b; rewrite Hw; split; [done|].
  all: revert E; unfold poll_status; rewrite Ht;
    destruct (h_status _ _ _ Hh) as [[Hst _]|(_ & ? & _)]; [|done];
    rewrite Hst; unfold transfer; simpl; rewrite Hb; simpl; unfold succeeded;
    destruct (bk_status b) as [|[[[]|e]|msg]|]; try done; by intros [= <- _ _].
Qed.

(** A wait for the verdict that goes on: the status task is still running and the
    session's view of the transfer has not changed. *)
Lemma finished_waits n l s w L m l' s' w' :
  finished l (s, w) = (None, (l', (s', w'))) -> Link n s w L m -> m <> Unopened ->
  l' = [] /\ Link n s' w' L m /\ exists b, w_transfers w' !! n = Some b /\ bk_status b = StRunning.
Proof.
  unfold finished. revert s w. induction l as [|ev l IH]; intros s w; cbn [wait];
    destruct (poll_status (s, w)) as [[r|] [s1 w1]] eqn:E; try done; intros Hf HL Hm;
    destruct (link_poll_status _ _ _ _ _ _ _ _ E HL) as (HL' & Hw & _).
  - injection Hf as <- <- <-. split; [done|]. split; [done|].
    destruct (link_backend _ _ _ _ _ HL Hm) as (b & Hb & Hh). exists b. rewrite Hw. split; [done|].
    revert E. unfold poll_status. destruct (s_terminal s) as [[[]|]|] eqn:Et; try done.
    destruct (h_status _ _ _ Hh) as [[Hst _]|(_ & ? & _)]; [|done].
    rewrite Hst. unfold transfer. simpl. rewrite Hb. simpl. by destruct (bk_status b) as [|[[[]|e]|msg]|].
  - eapply IH; [exact Hf|by apply link_wstep|done].
Qed.

(** A verdict that is known already is reported again. *)
Lemma finished_known l s w v :
  s_terminal s = Some v -> exists r, finished l (s, w) = (Some r, (l, (s, w))) /\ is_ok r = is_ok v.
Proof.
  intros Ht. unfold finished. destruct l; cbn [wait]; unfold poll_status; rewrite Ht; destruct v as [[]|e]; eauto.
Qed.

(** Dropping a session that has signalled end of stream. *)
Lemma drop_ended n s w L m :
  Link n s w L m -> m = Ended \/ m = Dead ->
  forall b, w_transfers w !! n = Some b ->
  exists b', w_transfers (drop_session s w) !! n = Some b' /\ bk_status b' = bk_status b /\
    concat (bk_log b') = L /\ bk_tx_open b' = false.
Proof.
  intros HL Hm b Hb. unfold drop_session.
  assert (s_tx s = None /\ concat (bk_log b) = L /\ bk_tx_open b = false /\
    (s_recycle_rx s = Some n \/ s_recycle_rx s = None)) as (-> & HL' & Htx & Hr).
  { destruct Hm as [-> | ->]; inversion HL as [| |b1 Hb1 ? Hh|b1 Hb1 ? Hh ? Hd]; subst;
      simplify_eq; (split; [done|]); (split; [done|]); (split; [by try destruct Hd|apply Hh]). }
  cbn [on_transfer]. destruct Hr as [-> | ->]; cbn [on_transfer]; [|by eauto].
  eexists. rewrite w_alter_lookup, Hb, decide_True by done. split; [reflexivity|]. done.
Qed.

(** ** The interface of a producer *)

(** [src_holds src data]: the source will produce exactly [data]. *)
Class SourceLaws (Src : Type) `{SwupdatePumpSource Src} := {
  src_holds : Src -> list byte -> Prop;
  next_block_law n src data l s w L m :
    src_holds src data -> Link n s w L m -> world_ok w ->
    match next_block src l (s, w) with
    | (Some (Ok (b, src')), (_, (s', w'))) =>
        Link n s' w' L m /\ world_ok w' /\
        exists data', src_holds src' data' /\
        match b with
        | Some item => data = item ++ data'
        | None => data = [] /\ data' = []
        end
    | _ => True
    end;
}.

Section Pump.
Context {Src : Type} `{SourceLaws Src}.

(** What the pump accounts for, by induction on the number of blocks. *)
Lemma pump_accounts n fuel src data l s w L m e src' l' s' w' :
  src_holds src data -> Link n s w L m -> m = Unopened \/ m = Live -> world_ok w ->
  pump_to_swupdate fuel src l (s, w) = (Some (Ok (e, src')), (l', (s', w'))) ->
  world_ok w' /\ exists L' m' data', Link n s' w' L' m' /\ src_holds src' data' /\
  match e with
  | InputClosed => L' = L ++ data /\ data' = [] /\ (m' = m \/ m' = Live)
  | SwupdateFinished r =>
      (exists fed dropped, data = fed ++ dropped ++ data' /\ L' = L ++ fed) /\
      (r = Ok tt -> s_terminal s' = Some (Ok tt))
  end.
Proof.
  revert src data l s w L m.
  induction fuel as [|fuel IH]; intros src data l s w L m Hv HL Hm Hok; cbn [pump_to_swupdate]; [done|].
  unfold abind at 1. pose proof (next_block_law n src data l s w L m Hv HL Hok) as Hn.
  destruct (next_block src l (s, w)) as [[[[[item|] src1]|err]|] [l1 [s1 w1]]]; [| |done|done].
  2: { intros [= <- <- _ <- <-]. destruct Hn as (HL1 & Hok1 & data' & Hv1 & -> & ->).
       split; [done|]. exists L, m, []. rewrite app_nil_r. auto 6. }
  destruct Hn as (HL1 & Hok1 & data1 & Hv1 & ->).
  assert (exists s2 w2 v, (if is_open s1 then try_finished (s1, w1) else (None, (s1, w1)))
    = (v, (s2, w2)) /\ Link n s2 w2 L m /\ world_ok w2 /\
    (v = Some (Ok tt) -> s_terminal s2 = Some (Ok tt))) as (s2 & w2 & v & -> & HL2 & Hok2 & Hv2).
  { destruct (is_open s1); [|by eexists _, _, _]. unfold try_finished.
    pose proof (poll_status_inv (P := backend_ok) (C := fun cap => 0 < cap) (s1, w1)
      (conj Hok1 (queue_capacity_pos _))) as [Hok' _].
    destruct (poll_status (s1, w1)) as [v [s2 w2]] eqn:E. eexists _, _, _. split; [done|].
    destruct (link_poll_status _ _ _ _ _ _ _ _ E HL1). split; [done|]. split; [done|].
    intros ->. by eapply poll_status_success_terminal. }
  destruct v as [r|].
  { intros [= <- <- _ <- <-]. split; [done|]. exists L, m, data1. split; [done|]. split; [done|].
    split; [exists [], item; by rewrite app_nil_r|]. intros ->. auto. }
  unfold abind at 1. pose proof (link_send n item l1 s2 w2 L m HL2 Hok2) as Hsend.
  destruct (send item l1 (s2, w2)) as [[[[k|it|]|err]|] [l3 [s3 w3]]]; [| | |done|done].
  - destruct Hsend as [Hok3 HL3]. intros Hp.
    destruct (IH src1 data1 l3 s3 w3 (L ++ item) Live Hv1 HL3 (or_intror eq_refl) Hok3 Hp)
      as (Hok' & L' & m' & data' & HL' & Hv' & Hcase).
    split; [done|]. exists L', m', data'. split; [done|]. split; [done|]. destruct e.
    + destruct Hcase as (-> & -> & Hm'). rewrite <- app_assoc. split; [done|]. split; [done|]. destruct Hm' as [->| ->]; auto.
    + destruct Hcase as [(fed & dropped & -> & ->) Ht]. split; [|done].
      exists (item ++ fed), dropped. by rewrite <- !app_assoc.
  - by destruct Hsend as [_ []].
  - destruct Hsend as [Hok3 HL3]. set (m3 := after_close m) in *.
    unfold abind, finished_result. pose proof (wait_finished n l3 s3 w3 L m3 HL3 Hok3) as Hw.
    destruct (finished l3 (s3, w3)) as [[r|] [l4 [s4 w4]]] eqn:Ef; [|done]. destruct Hw as [HL4 Hok4].
    intros [= <- <- _ <- <-]. split; [done|]. exists L, m3, data1. split; [done|]. split; [done|].
    split; [exists [], item; by rewrite app_nil_r|]. intros ->.
    by eapply wait_success_terminal.
Qed.

(** The pump loses, duplicates and reorders nothing: when it ends because
    the input is exhausted, the queue has accepted exactly the bytes the source
    had; when it ends with a verdict, the queue has accepted a prefix of them
    and only the block in hand at that moment was discarded. *)
Theorem pump_forwards n fuel src data l s w L m e src' l' s' w' :
  src_holds src data -> Link n s w L m -> m = Unopened \/ m = Live -> world_ok w ->
  pump_to_swupdate fuel src l (s, w) = (Some (Ok (e, src')), (l', (s', w'))) ->
  world_ok w' /\ exists L' m' data', Link n s' w' L' m' /\ src_holds src' data' /\
  match e with
  | InputClosed => L' = L ++ data /\ data' = [] /\ (m' = m \/ m' = Live)
  | SwupdateFinished r =>
      (exists fed dropped, data = fed ++ dropped ++ data' /\ L' = L ++ fed) /\
      (r = Ok tt -> s_terminal s' = Some (Ok tt))
  end.
Proof. apply pump_accounts. Qed.
End Pump.

(** ** The pump ends *)

Section PumpFuel.
Context {Src : Type} `{SwupdatePumpSource Src} (measure : Src -> nat).

(** A source that never waits by itself and gets smaller with every block. *)
Hypothesis next_block_shrinks : forall src l sw,
  match next_block src l sw with
  | (Some (Ok (Some _, src')), _) => (measure src' < measure src)%nat
  | (Some _, _) => True
  | (None, _) => False
  end.

Lemma pump_pending fuel src l sw l' sw' :
  (measure src < fuel)%nat -> pump_to_swupdate fuel src l sw = (None, (l', sw')) -> l' = [].
Proof.
  revert src l sw. induction fuel as [|fuel IH]; intros src l sw Hf; [lia|].
  cbn [pump_to_swupdate]. unfold abind at 1. pose proof (next_block_shrinks src l sw) as Hn.
  destruct (next_block src l sw) as [[[[[item|] src1]|err]|] [l1 [s1 w1]]]; [|done|done|done].
  destruct (if is_open s1 then try_finished (s1, w1) else (None, (s1, w1))) as [[r|] sw2]; [done|].
  unfold abind at 1. destruct (send item l1 sw2) as [[[[k|it|]|err]|] [l3 sw3]] eqn:Es; [| | |done|].
  - apply IH. lia.
  - apply IH. lia.
  - unfold abind, finished_result, finished.
    destruct (wait tick_sw poll_status l3 sw3) as [[r|] [l4 sw4]] eqn:Ew; [done|].
    intros [= <- _]. by eapply wait_pending.
  - intros [= <- _]. by eapply send_pending.
Qed.
End PumpFuel.

(** ** The pump does not fail by itself *)

Section PumpTotal.
Context {Src : Type} `{SourceLaws Src}.

(** A source that produces all it holds without an error. *)
Hypothesis next_block_ok : forall n src data l s w L m,
  src_holds src data -> Link n s w L m -> world_ok w ->
  exists p l' sw', next_block src l (s, w) = (Some (Ok p), (l', sw')).

Lemma pump_no_error n fuel src data l s w L m e lsw' :
  src_holds src data -> Link n s w L m -> m <> Unopened -> world_ok w ->
  pump_to_swupdate fuel src l (s, w) <> (Some (Err e), lsw').
Proof.
  revert src data l s w L m.
  induction fuel as [|fuel IH]; intros src data l s w L m Hv HL Hm Hok; cbn [pump_to_swupdate]; [done|].
  unfold abind at 1. pose proof (next_block_law n src data l s w L m Hv HL Hok) as Hn.
  destruct (next_block_ok n src data l s w L m Hv HL Hok) as ([b src1] & l1 & [s1 w1] & Hnb).
  rewrite Hnb in Hn |- *. destruct Hn as (HL1 & Hok1 & data' & Hv1 & Hb).
  destruct b as [item|]; [|done].
  assert (exists v s2 w2, (if is_open s1 then try_finished (s1, w1) else (None, (s1, w1)))
    = (v, (s2, w2)) /\ Link n s2 w2 L m /\ world_ok w2) as (v & s2 & w2 & -> & HL2 & Hok2).
  { destruct (is_open s1); [|by eexists _, _, _]. unfold try_finished.
    pose proof (poll_status_inv (P := backend_ok) (C := fun cap => 0 < cap) (s1, w1)
      (conj Hok1 (queue_capacity_pos _))) as [Hok' _].
    destruct (poll_status (s1, w1)) as [v [s2 w2]] eqn:E. eexists _, _, _. split; [done|].
    by destruct (link_poll_status _ _ _ _ _ _ _ _ E HL1). }
  destruct v as [r|]; [done|].
  unfold abind at 1. pose proof (link_send n item l1 s2 w2 L m HL2 Hok2) as Hsend.
  destruct (send item l1 (s2, w2)) as [[[[k|it|]|err]|] [l3 [s3 w3]]]; [| | |done|done].
  - destruct Hsend as [Hok3 HL3]. by eapply IH.
  - by destruct Hsend as [_ []].
  - unfold abind, finished_result.
    by destruct (finished l3 (s3, w3)) as [[r|] [l4 [s4 w4]]].
Qed.
End PumpTotal.

(** ** A list of blocks as a producer *)

#[global] Instance list_source : SwupdatePumpSource (list block) := {|
  next_block blocks := sync (ret (head blocks, tail blocks));
|}.

Lemma list_source_law n (src : list block) data l s w L m :
  concat src = data -> Link n s w L m -> world_ok w ->
  match next_block src l (s, w) with
  | (Some (Ok (b, src')), (_, (s', w'))) =>
      Link n s' w' L m /\ world_ok w' /\
      exists data', concat src' = data' /\
      match b with
      | Some item => data = item ++ data'
      | None => data = [] /\ data' = []
      end
  | _ => True
  end.
Proof. intros <- HL Hok. destruct src; simpl; (split; [done|]); (split; [done|]); by eexists. Qed.

#[global] Instance list_source_laws : SourceLaws (list block) := {|
  src_holds blocks data := concat blocks = data;
  next_block_law := list_source_law;
|}.

Definition pumped : option (io_result (PumpToSwupdateEnd * list block)) * (list wevent * SW) :=
  pump_to_swupdate 4 [bs "ab"; bs "cd"; bs "ef"] []
    (session_new default_params 4, idle_world sample_env).

Lemma pump_forwards_witness :
  exists s w L' m', pumped = (Some (Ok (InputClosed, [])), ([], (s, w))) /\
    Link 0 s w L' m' /\ L' = bs "abcdef".
Proof.
  destruct pumped as [[[[e src]|err]|] [l [s w]]] eqn:E; try (vm_compute in E; discriminate E).
  assert (e = InputClosed /\ src = [] /\ l = []) as (-> & -> & ->).
  { vm_compute in E. injection E as <- <- <- _ _. repeat split. }
  assert (src_holds [bs "ab"; bs "cd"; bs "ef"] (bs "abcdef")) as Hv by reflexivity.
  destruct (pump_forwards 0 4 [bs "ab"; bs "cd"; bs "ef"] _ [] _ _ [] Unopened _ _ _ _ _ Hv
    (link_new default_params 4 (idle_world sample_env)) (or_introl eq_refl) (Forall_nil_2 _) E)
    as (_ & L' & m' & data' & HL & _ & HL' & _).
  exists s, w, L', m'. split; [reflexivity|]. split; [exact HL|exact HL'].
Defined.
