(* ===== verification/Net.v ===== *)
(** * A connection's byte stream

    What the TCP services use of a tokio stream: reads that return some of the
    bytes that have arrived, end of file, errors, and writes. The peer's side is
    a script: pieces of data in the sizes in which the kernel delivers them,
    errors, periods without activity, and the background events that happen
    while a read waits. *)

From S2P Require Import Prelude Io Session Link.

Inductive NetIn :=
| NData (l : list byte)
| NErr (e : io_error)
| NIdle
| NEnv (ev : wevent).

Record Conn := {
  c_in : list NetIn;
  c_inactivity : option Z;
  c_out : list byte;
  c_write_errors : list (option io_error);
}.

Definition set_in (v : list NetIn) (c : Conn) : Conn :=
  {| c_in := v; c_inactivity := c_inactivity c; c_out := c_out c;
     c_write_errors := c_write_errors c |}.

(** One [read] into a buffer of [n] bytes; an idle period is an error ([lapse])
    when an inactivity timeout is set. *)
Fixpoint read_script (lapse : option io_error) (n : nat) (l : list NetIn) (w : World)
    : io_result (list byte) * (list NetIn * World) :=
  match n with
  | O => (Ok [], (l, w))
  | S _ =>
      match l with
      | [] => (Ok [], ([], w))
      | NData [] :: l => read_script lapse n l w
      | NData d :: l =>
          (Ok (take n d), ((if (length d <=? n)%nat then l else NData (drop n d) :: l), w))
      | NErr e :: l => (Err e, (l, w))
      | NIdle :: l =>
          match lapse with
          | Some e => (Err e, (l, w))
          | None => read_script lapse n l w
          end
      | NEnv ev :: l => read_script lapse n l (wstep ev w)
      end
  end.

Definition CW : Type := Conn * World.

Definition read (lapse : io_error) (n : nat) : M CW (list byte) := fun '(c, w) =>
  let '(r, (l, w)) := read_script ((fun _ => lapse) <$> c_inactivity c) n (c_in c) w in
  (r, (set_in l c, w)).

(** [read_exact]: reads until the buffer is full; every read returns at least
    one byte or ends it, so [n] reads are enough. *)
Fixpoint read_exact_loop (lapse : io_error) (fuel n : nat) (acc : list byte) : M CW (list byte) :=
  if (length acc =? n)%nat then ret acc else
  match fuel with
  | O => throw (Custom KUnexpectedEof "early eof")
  | S fuel =>
      do! got := read lapse (n - length acc) in
      match got with
      | [] => throw (Custom KUnexpectedEof "early eof")
      | _ => read_exact_loop lapse fuel n (acc ++ got)
      end
  end.

Definition read_exact (lapse : io_error) (n : nat) : M CW (list byte) :=
  read_exact_loop lapse n n [].

(** [write_all] and [flush]; the script says which writes fail. *)
Definition write_all (data : list byte) : M CW unit := fun '(c, w) =>
  match c_write_errors c with
  | Some e :: errs =>
      (Err e, ({| c_in := c_in c; c_inactivity := c_inactivity c; c_out := c_out c;
                  c_write_errors := errs |}, w))
  | errs =>
      (Ok tt, ({| c_in := c_in c; c_inactivity := c_inactivity c; c_out := c_out c ++ data;
                  c_write_errors := tail errs |}, w))
  end.

(** ** The stream of bytes behind a script *)

Definition item_bytes (i : NetIn) : list byte := match i with NData l => l | _ => [] end.
Definition stream (l : list NetIn) : list byte := concat (item_bytes <$> l).

(** A script whose pieces all arrive: data and background events only. *)
Definition arriving (i : NetIn) : bool :=
  match i with NData _ | NEnv _ => true | _ => false end.
Definition arrives (l : list NetIn) : Prop := Forall (fun i => arriving i = true) l.

(** The background events a reader goes through. *)
Definition same_world (w w' : World) : Prop := exists evs, w' = wsteps evs w.

Lemma same_world_refl w : same_world w w.
Proof. by exists []. Qed.

Lemma same_world_trans w1 w2 w3 : same_world w1 w2 -> same_world w2 w3 -> same_world w1 w3.
Proof. intros [e1 ->] [e2 ->]. exists (e1 ++ e2). unfold wsteps. by rewrite foldl_app. Qed.

Lemma same_world_link n s w w' L m : same_world w w' -> Link n s w L m -> Link n s w' L m.
Proof. intros [evs ->]. apply link_wsteps. Qed.

Lemma same_world_ok w w' : same_world w w' -> world_ok w -> world_ok w'.
Proof. intros [evs ->]. apply all_wsteps. Qed.

(** A read of an arriving stream returns a non-empty piece of it, or nothing at
    its end, and only lets background events happen. *)
Lemma read_script_arrives lapse n l w :
  (0 < n)%nat -> arrives l ->
  exists got l' w', read_script lapse n l w = (Ok got, (l', w')) /\
    stream l = got ++ stream l' /\ arrives l' /\ (length got <= n)%nat /\
    (got = [] -> stream l = []) /\ same_world w w'.
Proof.
  intros Hn Hl. destruct n as [|n]; [lia|]. revert w. induction Hl as [|i l Hi Hl IH]; intros w.
  - exists [], [], w. simpl. repeat split; [by constructor|lia|apply same_world_refl].
  - destruct i as [[|b d]|e| |ev]; try done; cbn [read_script].
    + destruct (IH w) as (got & l' & w' & Hr & Hs & Ha & Hlen & Hnil & Hw).
      exists got, l', w'. done.
    + exists (take (S n) (b :: d)), (if (length (b :: d) <=? S n)%nat then l else NData (drop (S n) (b :: d)) :: l), w.
      split; [done|].
      assert (stream (NData (b :: d) :: l) = (b :: d) ++ stream l) as Hs by done.
      destruct (Nat.leb_spec (length (b :: d)) (S n)) as [Hle|Hgt].
      * rewrite take_ge by done. repeat split; try done. apply same_world_refl.
      * split; [|split; [by constructor|]].
        { change (stream (NData (drop (S n) (b :: d)) :: l)) with (drop (S n) (b :: d) ++ stream l).
          by rewrite app_assoc, take_drop. }
        split; [rewrite length_take; lia|]. split; [done|]. apply same_world_refl.
    + destruct (IH (wstep ev w)) as (got & l' & w' & Hr & Hs & Ha & Hlen & Hnil & Hw).
      exists got, l', w'. repeat split; try done. destruct Hw as [evs ->]. by exists (ev :: evs).
Qed.

Lemma read_arrives lapse n c w :
  (0 < n)%nat -> arrives (c_in c) ->
  exists got l' w', read lapse n (c, w) = (Ok got, (set_in l' c, w')) /\
    stream (c_in c) = got ++ stream l' /\ arrives l' /\ (length got <= n)%nat /\
    (got = [] -> stream (c_in c) = []) /\ same_world w w'.
Proof.
  intros Hn Hl.
  destruct (read_script_arrives ((fun _ => lapse) <$> c_inactivity c) n (c_in c) w Hn Hl)
    as (got & l' & w' & Hr & Hrest).
  exists got, l', w'. split; [|done]. unfold read. by rewrite Hr.
Qed.

Lemma set_in_id c : set_in (c_in c) c = c.
Proof. by destruct c. Qed.

(** What is left of the wanted bytes after a piece of them was read. *)
Lemma split_stream {A} (got tl data rest : list A) :
  data ++ rest = got ++ tl -> (length got <= length data)%nat ->
  exists data', data = got ++ data' /\ tl = data' ++ rest.
Proof.
  intros Hs Hle. exists (drop (length got) data).
  assert (got = take (length got) data) as Hg.
  { rewrite <- (take_app_le data rest) by done. by rewrite Hs, take_app_length. }
  split; [by rewrite Hg at 1; rewrite take_drop|].
  rewrite <- (drop_app_le data rest) by done. by rewrite Hs, drop_app_length.
Qed.

(** [read_exact] of an arriving stream gets its next [n] bytes when there are
    that many. *)
Lemma read_exact_loop_arrives lapse fuel n acc c w data rest :
  arrives (c_in c) -> stream (c_in c) = data ++ rest -> (length acc + length data = n)%nat ->
  (length data <= fuel)%nat ->
  exists l' w', read_exact_loop lapse fuel n acc (c, w) = (Ok (acc ++ data), (set_in l' c, w')) /\
    stream l' = rest /\ arrives l' /\ same_world w w'.
Proof.
  revert acc data c w. induction fuel as [|fuel IH]; intros acc data c w Ha Hs Hn Hf.
  - destruct data; [|simpl in Hf; lia]. simpl in *. rewrite Nat.add_0_r in Hn.
    replace (length acc =? n)%nat with true by (symmetry; by apply Nat.eqb_eq).
    exists (c_in c), w. rewrite app_nil_r, set_in_id. repeat split; try done. apply same_world_refl.
  - cbn [read_exact_loop]. destruct (Nat.eqb_spec (length acc) n) as [Heq|Hne].
    + destruct data; [|simpl in Hn; lia]. exists (c_in c), w.
      rewrite app_nil_r, set_in_id. repeat split; try done. apply same_world_refl.
    + destruct (read_arrives lapse (n - length acc) c w ltac:(lia) Ha)
        as (got & l1 & w1 & Hr & Hs1 & Ha1 & Hlen & Hnil & Hw1).
      rewrite (bind_Ok _ _ _ _ _ Hr).
      destruct got as [|g got].
      { specialize (Hnil eq_refl). rewrite Hs in Hnil. apply app_eq_nil in Hnil as [-> _].
        simpl in Hn. lia. }
      destruct (split_stream (g :: got) (stream l1) data rest) as (data' & -> & Hd');
        [by rewrite <- Hs1|lia|].
      rewrite length_app in Hn, Hf.
      destruct (IH (acc ++ g :: got) data' (set_in l1 c) w1) as (l2 & w2 & Hr2 & Hs2 & Ha2 & Hw2);
        [done|done|rewrite length_app; lia|simpl in *; lia|].
      exists l2, w2. rewrite Hr2, <- app_assoc. repeat split; try done.
      by eapply same_world_trans.
Qed.

Lemma read_exact_arrives lapse c w data rest :
  arrives (c_in c) -> stream (c_in c) = data ++ rest ->
  exists l' w', read_exact lapse (length data) (c, w) = (Ok data, (set_in l' c, w')) /\
    stream l' = rest /\ arrives l' /\ same_world w w'.
Proof.
  intros Ha Hs. destruct (read_exact_loop_arrives lapse (length data) (length data) [] c w data rest)
    as (l' & w' & Hr & Hrest); try done. exists l', w'. split; [exact Hr|exact Hrest].
Qed.

(** ** Connections and the background

    Operations on a connection let only background events happen. *)

Definition env_only {A} (m : M CW A) : Prop := forall cw, same_world cw.2 (m cw).2.2.

Lemma env_only_ret {A} (a : A) : env_only (ret a).
Proof. intros cw. apply same_world_refl. Qed.

Lemma env_only_throw {A} e : env_only (@throw CW A e).
Proof. intros cw. apply same_world_refl. Qed.

Lemma env_only_bind {A B} (m : M CW A) (f : A -> M CW B) :
  env_only m -> (forall a, env_only (f a)) -> env_only (bind m f).
Proof.
  intros Hm Hf cw. unfold bind. specialize (Hm cw).
  destruct (m cw) as [[a|e] cw']; [|done]. cbn [snd] in Hm.
  eapply same_world_trans; [exact Hm|apply Hf].
Qed.

Lemma env_only_write data : env_only (write_all data).
Proof. intros [c w]. unfold write_all. destruct (c_write_errors c) as [|[e|] errs]; apply same_world_refl. Qed.

Lemma env_only_read lapse n : env_only (read lapse n).
Proof.
  intros [c w]. unfold read. set (lp := _ <$> c_inactivity c).
  enough (same_world w (read_script lp n (c_in c) w).2.2) as H
    by (revert H; by destruct (read_script lp n (c_in c) w) as [r [l w']]).
  destruct n as [|n]; [destruct (c_in c); apply same_world_refl|].
  revert w. induction (c_in c) as [|[[|b d]|e| |ev] l IH]; intros w; cbn [read_script];
    try apply same_world_refl; [apply IH|destruct lp; [apply same_world_refl|apply IH]|].
  destruct (IH (wstep ev w)) as [evs Hev]. by exists (ev :: evs).
Qed.

#[export] Hint Resolve env_only_ret env_only_throw env_only_bind env_only_write env_only_read : gadget.

Lemma env_only_exact lapse fuel n acc : env_only (read_exact_loop lapse fuel n acc).
Proof.
  revert acc. induction fuel as [|fuel IH]; intros acc; cbn [read_exact_loop];
    destruct (length acc =? n)%nat; auto with gadget.
  apply env_only_bind; [auto with gadget|]. intros [|b got]; [auto with gadget|apply IH].
Qed.
