(* ===== verification/FastbootProto.v ===== *)
(** * The FBK / fastboot command vocabulary

    Models crates/summit-usbgadget-fastboot-proto: reply tokens, the command
    parser shared by the USB and TCP transports, the variables and the header of
    a data phase. *)

From S2P Require Import Prelude Io Bytes SysInfo.

(** ** Reply tokens *)

Definition OKAY : list byte := bs "OKAY".
Definition FAIL_BADSIZE : list byte := bs "FAILbad size".
Definition FAIL_CLOSE : list byte := bs "FAILclose".
Definition FAIL_CMD : list byte := bs "FAILunknown command".
Definition FAIL_EPIPE : list byte := bs "FAILwrite failed".
Definition FAIL_FLASH : list byte := bs "FAILflash before download".
Definition FAIL_NOTOPEN : list byte := bs "FAILnot open".
Definition FAIL_OPEN : list byte := bs "FAILopen failed".
Definition FAIL_UNKNOWN_PART : list byte := bs "FAILpartition does not exist".
Definition INFO_WAIT_SWUPDATE : list byte := bs "INFOwaiting for SWUpdate".

(** ** Commands *)

Inductive DownloadKind := Plain | Fastboot.
Inductive FetchTarget := Sysinfo | SysinfoJson.

Inductive ParsedCommand :=
| WOpen
| GetVar (arg : string)
| Fetch (target : FetchTarget)
| FetchUnknownPart
| Download (len : Z) (kind : DownloadKind)
| Flash
| Close
| Unsupported.

Definition DOWNLOAD_SIZE_WIDTH : nat := 8.

Definition is_padding_byte (b : byte) : bool :=
  bool_decide (b = Byte.x00) || is_ascii_whitespace b.

Definition is_colon (b : byte) : bool := bool_decide (b = Byte.x3a).

(** Length of the first token of [args]. *)
Definition token_len (args : list byte) : nat :=
  default (length args) (position is_padding_byte args).

(** [args.get(a..b)]. *)
Definition get_range (a b : nat) (l : list byte) : option (list byte) :=
  if (b <=? length l)%nat then Some (slice a b l) else None.

(** The first piece of [arg.split(':')]. *)
Definition first_piece (arg : list byte) : list byte :=
  take (default (length arg) (position is_colon arg)) arg.

(** The fixed-width size behind the optional [%] marker. *)
Definition parse_size (percent : bool) (args : list byte) : option (ParsedCommand * nat) :=
  let size_start := if percent then 1%nat else 0%nat in
  size ← get_range size_start (size_start + DOWNLOAD_SIZE_WIDTH) args;
  _ ← from_utf8 size;
  len ← from_str_radix 16 usize_max size;
  Some (Download len (if percent then Fastboot else Plain), (size_start + DOWNLOAD_SIZE_WIDTH)%nat).

Definition parse_download (name args : list byte) : option (ParsedCommand * nat) :=
  parse_size (bool_decide (name = bs "download") && starts_with (bs "%") args) args.

Definition parse_getvar (args : list byte) : ParsedCommand * nat :=
  let len := token_len args in
  match from_utf8 (take len args) with
  | Some arg => if is_empty arg then (Unsupported, len) else (GetVar arg, len)
  | None => (Unsupported, len)
  end.

Definition parse_fetch (args : list byte) : option (ParsedCommand * nat) :=
  let len := token_len args in
  let arg := take len args in
  _ ← from_utf8 arg;
  let piece := first_piece arg in
  Some (if bool_decide (piece = bs "sysinfo") then Fetch Sysinfo
        else if bool_decide (piece = bs "sysinfo.json") then Fetch SysinfoJson
        else FetchUnknownPart, len).

Definition parse_named (name args : list byte) : option (ParsedCommand * nat) :=
  if bool_decide (name = bs "download") || bool_decide (name = bs "donwload") then
    parse_download name args
  else if bool_decide (name = bs "WOpen") then Some (WOpen, token_len args)
  else if bool_decide (name = bs "getvar") then Some (parse_getvar args)
  else if bool_decide (name = bs "fetch") then parse_fetch args
  else if bool_decide (name = bs "flash") then Some (Flash, token_len args)
  else Some (Unsupported, token_len args).

Definition parse_command (data : list byte) : option (ParsedCommand * nat) :=
  start ← position (fun b => negb (is_padding_byte b)) data;
  let rest := drop start data in
  '(command, consumed) ←
    match position is_colon rest with
    | Some colon =>
        '(command, arg_len) ← parse_named (take colon rest) (drop (colon + 1) rest);
        Some (command, (colon + 1 + arg_len)%nat)
    | None =>
        let len := token_len rest in
        Some (if bool_decide (take len rest = bs "Close") then Close else Unsupported, len)
    end;
  Some (command, (start + consumed)%nat).

(** ** Replies *)

Definition okay (s : string) : list byte := bs ("OKAY" +:+ s).

Definition fastboot_getvar_reply (env : SysEnv) (arg ser : string) : option (list byte) :=
  if str_in arg ["version"] then Some (okay "0.4")
  else if str_in arg ["max-download-size"] then Some (okay "400000000")
  else if str_in arg ["max-fetch-size"] then Some (okay "00010000")
  else if str_in arg ["product"] then Some (okay (si_model (collect env None)))
  else if str_in arg ["serialno"] then Some (okay ser)
  else if str_in arg ["is-userspace"] then Some (okay "yes")
  else if str_in arg ["current-slot"] then okay <$> current_side_option (boot_info env)
  else if str_in arg ["slot-num"] then
    Some (okay (if is_single_slot (boot_info env) then "1" else "2"))
  else if str_in arg ["all"] then Some (okay "version:0.4")
  else if str_in arg ["has-slot:update"; "has-slot:swu"] then Some (okay "no")
  else if str_in arg ["is-logical:update"; "is-logical:swu"] then Some (okay "no")
  else if str_in arg ["partition-type:update"; "partition-type:swu"] then Some (okay "raw")
  else if str_in arg ["partition-size:update"; "partition-size:swu"] then Some (okay "400000000")
  else if str_in arg ["partition-size:sysinfo"; "partition-size:sysinfo.json"] then
    Some (OKAY ++ fmt_hex_upper 8 (Z.of_nat (length (system_info_json env))))
  else None.

Definition data_header (len : Z) : list byte := bs "DATA" ++ fmt_hex_upper 8 len.

(** ** The parser consumes what it parsed *)

Lemma token_len_le args : (token_len args <= length args)%nat.
Proof.
  unfold token_len. destruct (position is_padding_byte args) as [i|] eqn:E; simpl; [|done].
  apply position_lt in E. lia.
Qed.

Lemma parse_named_le name args c n :
  parse_named name args = Some (c, n) -> (n <= length args)%nat.
Proof.
  pose proof (token_len_le args) as Ht. unfold parse_named.
  repeat case_match; try (intros; by simplify_eq).
  - unfold parse_download, parse_size, get_range. set (st := if _ && _ then 1%nat else 0%nat).
    destruct (Nat.leb_spec (st + DOWNLOAD_SIZE_WIDTH) (length args)); simpl; [|done].
    destruct (from_utf8 _); simpl; [|done]. destruct (from_str_radix _ _ _); simpl; [|done].
    intros. by simplify_eq.
  - unfold parse_getvar. repeat case_match; intros; by simplify_eq.
  - unfold parse_fetch. destruct (from_utf8 _); simpl; [|done]. intros. by simplify_eq.
Qed.

(** A parsed command consumes at least one byte and never more than there
    are; the bytes before its first significant byte are padding, and what it
    leaves behind is a suffix of the input. *)
Theorem parse_command_consumes data c n :
  parse_command data = Some (c, n) ->
  (0 < n <= length data)%nat /\
  exists pad rest, data = pad ++ rest /\ Forall (fun b => is_padding_byte b = true) pad /\
    (length pad < n)%nat.
Proof.
  unfold parse_command. destruct (position _ data) as [start|] eqn:Es; simpl; [|done].
  destruct (position_Some _ _ _ Es) as (x & Hx & Hpx & Hpad).
  pose proof (position_lt _ _ _ Es) as Hlt.
  set (rest := drop start data). assert (length rest = length data - start)%nat as Hr by apply length_drop.
  assert (forall k, (0 < k <= length rest)%nat -> Some (c, (start + k)%nat) = Some (c, n) ->
    (0 < n <= length data)%nat /\ exists pad rest0, data = pad ++ rest0 /\
      Forall (fun b => is_padding_byte b = true) pad /\ (length pad < n)%nat) as Hfin.
  { intros k Hk [= <-]. split; [lia|]. exists (take start data), rest.
    split; [symmetry; apply take_drop|]. rewrite length_take. split; [|lia].
    revert Hpad. apply Forall_impl. intros b. destruct (is_padding_byte b); simpl; congruence. }
  destruct (position is_colon rest) as [colon|] eqn:Ec; simpl.
  - pose proof (position_lt _ _ _ Ec).
    destruct (parse_named _ _) as [[c' k]|] eqn:Ep; simpl; [|done].
    apply parse_named_le in Ep. rewrite length_drop in Ep. intros E.
    assert (c' = c) as -> by congruence. eapply Hfin; [|exact E]. lia.
  - intros E. injection E as <- En. apply (Hfin (token_len rest)); [|congruence].
    split; [|apply token_len_le]. unfold token_len.
    destruct (position is_padding_byte rest) as [[|i]|] eqn:Ei; simpl; [|lia|lia].
    destruct (position_Some _ _ _ Ei) as (y & Hy & Hpy & _).
    unfold rest in Hy. rewrite lookup_drop, Nat.add_0_r in Hy. simplify_eq.
    by rewrite Hpy in Hpx.
Qed.

(** ** Download headers *)

Lemma hex_upper_ascii d : 0 <= d < 16 -> b2z (hex_digit_upper d) < 128.
Proof.
  intros Hd. unfold hex_digit_upper. rewrite b2z_z2b.
  destruct (d <? 10) eqn:E; rewrite wrap_small; lia.
Qed.

Lemma fmt_hex_upper_ascii w z : Forall (fun b => b2z b < 128) (fmt_hex_upper w z).
Proof.
  unfold fmt_hex_upper. apply Forall_fmap.
  eapply List.Forall_impl; [|by apply strip_zeros_Forall, (radix_digits_range 16)].
  intros d Hd. by apply hex_upper_ascii.
Qed.

Lemma from_utf8_hex w z : exists s, from_utf8 (fmt_hex_upper w z) = Some s.
Proof.
  unfold from_utf8. rewrite utf8_valid_ascii by apply fmt_hex_upper_ascii. by eexists.
Qed.

Definition marker (kind : DownloadKind) : list byte :=
  match kind with Plain => [] | Fastboot => bs "%" end.

(** The command a host sends to announce a download of [len] bytes. *)
Definition download_command (kind : DownloadKind) (len : Z) : list byte :=
  bs "download:" ++ marker kind ++ fmt_hex_upper 8 len.

Lemma get_range_app (a l r : list byte) :
  get_range (length a) (length a + length l) (a ++ l ++ r) = Some l.
Proof.
  unfold get_range, slice. rewrite !length_app.
  replace (length a + length l <=? length a + (length l + length r))%nat with true
    by (symmetry; apply Nat.leb_le; lia).
  rewrite drop_app_length. replace (length a + length l - length a)%nat with (length l) by lia.
  by rewrite take_app_length.
Qed.

Lemma parse_size_hex kind len payload :
  0 <= len < 16 ^ 8 ->
  parse_size (match kind with Plain => false | Fastboot => true end)
    (marker kind ++ fmt_hex_upper 8 len ++ payload)
  = Some (Download len kind, (length (marker kind) + 8)%nat).
Proof.
  intros Hlen. pose proof (length_fmt_hex_upper 8 len ltac:(lia) Hlen) as Hl.
  pose proof (get_range_app (marker kind) (fmt_hex_upper 8 len) payload) as Hr. rewrite Hl in Hr.
  destruct (from_utf8_hex 8 len) as [s Hs].
  assert (from_str_radix 16 usize_max (fmt_hex_upper 8 len) = Some len) as Hp.
  { apply from_str_radix_fmt_hex_upper; [lia|]. unfold usize_max. lia. }
  unfold parse_size. change DOWNLOAD_SIZE_WIDTH with 8%nat. destruct kind.
  - change (length (marker Plain)) with 0%nat in *. cbn iota zeta. rewrite Hr.
    cbn [mbind option_bind]. rewrite Hs. cbn [mbind option_bind]. by rewrite Hp.
  - change (length (marker Fastboot)) with 1%nat in *. cbn iota zeta. rewrite Hr.
    cbn [mbind option_bind]. rewrite Hs. cbn [mbind option_bind]. by rewrite Hp.
Qed.

(** No digit is the marker. *)
Lemma hex_not_marker w z rest : starts_with (bs "%") (fmt_hex_upper w z ++ rest) = false.
Proof.
  unfold fmt_hex_upper.
  pose proof (strip_zeros_Forall _ (Nat.max 1 w) _ (radix_digits_range 16 (Nat.max 16 w) z ltac:(lia))) as Hr.
  pose proof (length_strip_zeros (Nat.max 1 w) (radix_digits 16 (Nat.max 16 w) z)) as Hl.
  rewrite length_radix_digits in Hl.
  destruct (strip_zeros _ _) as [|d ds]; [simpl in Hl; lia|].
  inversion Hr as [|? ? Hd _]; subst. apply bool_decide_eq_false. simpl.
  intros [= E]. apply (f_equal b2z) in E. unfold hex_digit_upper in E. rewrite b2z_z2b in E.
  change (b2z Byte.x25) with 37 in E. destruct (d <? 10) eqn:Ed; rewrite wrap_small in E; lia.
Qed.

Lemma parse_download_header kind len payload :
  0 <= len < 16 ^ 8 ->
  parse_download (bs "download") (marker kind ++ fmt_hex_upper 8 len ++ payload)
  = Some (Download len kind, (length (marker kind) + 8)%nat).
Proof.
  intros Hlen. unfold parse_download. rewrite (bool_decide_eq_true_2 (_ = _)) by done. cbn [andb].
  destruct kind.
  - change (marker Plain ++ ?l) with l. rewrite hex_not_marker.
    by apply (parse_size_hex Plain).
  - by apply (parse_size_hex Fastboot).
Qed.

(** A download command is parsed exactly, whatever padding precedes it and
    whatever payload follows it without a separator: its length and kind are
    recovered and only the header is consumed. *)
Theorem parse_download_command pad kind len payload :
  Forall (fun b => is_padding_byte b = true) pad -> 0 <= len < 16 ^ 8 ->
  let cmd := download_command kind len in
  parse_command (pad ++ cmd ++ payload) = Some (Download len kind, (length pad + length cmd)%nat).
Proof.
  intros Hpad Hlen cmd. unfold parse_command.
  assert (position (fun b => negb (is_padding_byte b)) (pad ++ cmd ++ payload) = Some (length pad)) as ->.
  { apply (position_app_hit _ pad (tail (cmd ++ payload)) Byte.x64); [|done].
    revert Hpad. apply List.Forall_impl. by intros b ->. }
  cbn [mbind option_bind]. rewrite drop_app_length.
  assert (cmd ++ payload = bs "download" ++ Byte.x3a :: marker kind ++ fmt_hex_upper 8 len ++ payload) as ->.
  { unfold cmd, download_command. by rewrite <- !app_assoc. }
  rewrite (position_app_hit is_colon (bs "download")); [|by repeat constructor|done].
  rewrite take_app_length.
  replace (drop (length (bs "download") + 1) (bs "download" ++ Byte.x3a :: marker kind ++ fmt_hex_upper 8 len ++ payload))
    with (marker kind ++ fmt_hex_upper 8 len ++ payload) by done.
  unfold parse_named. rewrite (bool_decide_eq_true_2 (bs "download" = bs "download")) by done.
  cbn [orb]. rewrite parse_download_header by done. cbn [mbind option_bind]. do 2 f_equal.
  unfold cmd, download_command. rewrite !length_app, length_fmt_hex_upper by lia.
  change (length (bs "download:")) with 9%nat. change (length (bs "download")) with 8%nat. lia.
Qed.

Lemma parse_download_command_witness :
  parse_command ([Byte.x00; Byte.x20] ++ download_command Fastboot 4096 ++ bs "payload")
  = Some (Download 4096 Fastboot, (2 + 18)%nat).
Proof.
  apply (parse_download_command [Byte.x00; Byte.x20] Fastboot 4096 (bs "payload"));
    [repeat constructor|lia].
Defined.

Lemma parse_command_consumes_witness :
  (0 < 13 <= length (bs "getvar:serial"))%nat.
Proof.
  apply (parse_command_consumes (bs "getvar:serial") (GetVar "serial") 13). vm_compute. reflexivity.
Defined.

(** ** Replies a host can read *)

(** The header of a data phase is the token DATA and the length in
    hexadecimal, which parses back to the length for every size; it is the
    twelve bytes of the protocol for sizes below 4 GiB. Every answer to a
    variable query starts with OKAY. *)
Theorem replies_well_formed :
  (forall len, 0 <= len <= usize_max ->
   take 4 (data_header len) = bs "DATA" /\
   from_str_radix 16 usize_max (drop 4 (data_header len)) = Some len /\
   (len < 16 ^ 8 -> length (data_header len) = 12%nat)) /\
  (forall env arg ser reply, fastboot_getvar_reply env arg ser = Some reply ->
   take 4 reply = OKAY).
Proof.
  split.
  - intros len Hlen. split; [done|]. split.
    + change (drop 4 (data_header len)) with (fmt_hex_upper 8 len).
      by apply from_str_radix_fmt_hex_upper; [lia|].
    + intros Hlt. unfold data_header. rewrite length_app, length_fmt_hex_upper by lia. done.
  - intros env arg ser reply. unfold fastboot_getvar_reply.
    assert (forall s, take 4 (okay s) = OKAY) as Hok by done.
    intros Hr. repeat (case_match; [simplify_eq; try done|]); try done.
    apply fmap_Some in Hr as (s & _ & ->). done.
Qed.
