(* ===== verification/FastbootTcp.v ===== *)
(** * Fastboot over TCP

    Models crates/summit-usbgadget-fastboot-tcp: the framing of the AOSP TCP
    protocol (transport.rs), the session with its commands and data phases
    (session.rs) and the configuration (lib.rs). The session runs on a scripted
    connection (Net.v) and an update session; operations that wait for SWUpdate
    run against a schedule of background events. *)

From stdpp Require pretty.
From S2P Require Import Prelude Io Bytes SysInfo Session Link Pump Net FastbootProto.

(** ** Framing (transport.rs) *)

Definition HANDSHAKE : list byte := bs "FB01".
Definition PROTOCOL_VERSION : Z := 1.
Definition MAX_COMMAND_LEN : Z := 4096.

Definition inactive : io_error := Custom KTimedOut "fastboot-tcp connection inactive".

Definition handshake : M CW unit :=
  write_all HANDSHAKE >>;
  do! buf := read_exact inactive 4 in
  if negb (bool_decide (take 2 buf = bs "FB"))
  then throw (Custom KInvalidData "malformed fastboot handshake")
  else
    match (_ ← from_utf8 (drop 2 buf); from_str_radix 10 u32_max (drop 2 buf)) with
    | None => throw (Custom KInvalidData "malformed fastboot handshake version")
    | Some version =>
        if version <? PROTOCOL_VERSION
        then throw (Custom KInvalidData
               ("unsupported fastboot protocol version " +:+ pretty.pretty version))
        else ret tt
    end.

Definition frame (data : list byte) : list byte :=
  be_bytes 8 (Z.of_nat (length data)) ++ data.

Definition send_packet (data : list byte) : M CW unit := write_all (frame data).
Definition send_prebuilt (f : list byte) : M CW unit := write_all f.

(** Reads the eight bytes of a length prefix; every read returns at least one of
    them or ends the loop. *)
Fixpoint read_header_loop (fuel : nat) (filled : list byte) : M CW (option Z) :=
  if (length filled =? 8)%nat then ret (Some (be_val filled)) else
  match fuel with
  | O => throw (Custom KUnexpectedEof "truncated fastboot frame header")
  | S fuel =>
      do! got := read inactive (8 - length filled) in
      match got with
      | [] =>
          if bool_decide (filled = []) then ret None
          else throw (Custom KUnexpectedEof "truncated fastboot frame header")
      | _ => read_header_loop fuel (filled ++ got)
      end
  end.

Definition read_header : M CW (option Z) := read_header_loop 8 [].

Definition recv_command : M CW (option (list byte)) :=
  do! header := read_header in
  match header with
  | None => ret None
  | Some len =>
      if MAX_COMMAND_LEN <? len
      then throw (Custom KInvalidData "fastboot command frame too large")
      else do! buf := read_exact inactive (Z.to_nat len) in ret (Some buf)
  end.

Definition read_into (n : nat) : M CW (list byte) := read inactive n.

(** ** Framing properties *)

Lemma read_header_loop_arrives fuel filled c w data rest :
  arrives (c_in c) -> stream (c_in c) = data ++ rest -> (length filled + length data = 8)%nat ->
  (length data <= fuel)%nat ->
  exists l' w', read_header_loop fuel filled (c, w)
      = (Ok (Some (be_val (filled ++ data))), (set_in l' c, w')) /\
    stream l' = rest /\ arrives l' /\ same_world w w'.
Proof.
  revert filled data c w. induction fuel as [|fuel IH]; intros filled data c w Ha Hs Hn Hf.
  - destruct data; [|simpl in Hf; lia]. simpl in *. rewrite Nat.add_0_r in Hn. rewrite Hn. simpl.
    exists (c_in c), w. rewrite app_nil_r, set_in_id. repeat split; try done. apply same_world_refl.
  - cbn [read_header_loop]. destruct (Nat.eqb_spec (length filled) 8) as [Heq|Hne].
    + destruct data; [|simpl in Hn; lia]. exists (c_in c), w.
      rewrite app_nil_r, set_in_id. repeat split; try done. apply same_world_refl.
    + destruct (read_arrives inactive (8 - length filled) c w ltac:(lia) Ha)
        as (got & l1 & w1 & Hr & Hs1 & Ha1 & Hlen & Hnil & Hw1).
      rewrite (bind_Ok _ _ _ _ _ Hr).
      destruct got as [|g got].
      { specialize (Hnil eq_refl). rewrite Hs in Hnil. apply app_eq_nil in Hnil as [-> _].
        simpl in Hn. lia. }
      destruct (split_stream (g :: got) (stream l1) data rest) as (data' & -> & Hd');
        [by rewrite <- Hs1|lia|].
      rewrite length_app in Hn, Hf.
      destruct (IH (filled ++ g :: got) data' (set_in l1 c) w1) as (l2 & w2 & Hr2 & Hs2 & Ha2 & Hw2);
        [done|done|rewrite length_app; lia|simpl in *; lia|].
      exists l2, w2. rewrite Hr2, <- app_assoc. repeat split; try done.
      by eapply same_world_trans.
Qed.

Lemma frame_length_ok (data : list byte) : Z.of_nat (length data) <= MAX_COMMAND_LEN ->
  0 <= Z.of_nat (length data) < 256 ^ Z.of_nat 8.
Proof. unfold MAX_COMMAND_LEN. change (256 ^ Z.of_nat 8) with (2 ^ 64). lia. Qed.

(** A command frame is received intact however the network cuts the stream
    into pieces and whatever the background does meanwhile: reading after
    [send_packet]'s framing returns the packet and leaves what follows; at the
    end of the stream the session sees a clean disconnect. *)
Theorem recv_command_roundtrip c w data rest :
  arrives (c_in c) -> stream (c_in c) = frame data ++ rest ->
  Z.of_nat (length data) <= MAX_COMMAND_LEN ->
  exists l' w', recv_command (c, w) = (Ok (Some data), (set_in l' c, w')) /\
    stream l' = rest /\ arrives l' /\ same_world w w' /\
    (rest = [] -> exists l2 w2, recv_command (set_in l' c, w') = (Ok None, (set_in l2 c, w2))).
Proof.
  intros Ha Hs Hle. unfold frame in Hs. rewrite <- app_assoc in Hs.
  destruct (read_header_loop_arrives 8 [] c w (be_bytes 8 (Z.of_nat (length data))) (data ++ rest))
    as (l1 & w1 & Hr1 & Hs1 & Ha1 & Hw1);
    [done|done|by rewrite length_be_bytes|by rewrite length_be_bytes|].
  cbn [app] in Hr1. rewrite be_val_be_bytes in Hr1 by (by apply frame_length_ok).
  destruct (read_exact_arrives inactive (set_in l1 c) w1 data rest Ha1 Hs1)
    as (l2 & w2 & Hr2 & Hs2 & Ha2 & Hw2).
  exists l2, w2. split; [|split; [done|split; [done|split; [by eapply same_world_trans|]]]].
  - unfold recv_command, read_header. rewrite (bind_Ok _ _ _ _ _ Hr1).
    replace (MAX_COMMAND_LEN <? Z.of_nat (length data)) with false by lia.
    rewrite Nat2Z.id. by rewrite (bind_Ok _ _ _ _ _ Hr2).
  - intros ->. destruct (read_arrives inactive 8 (set_in l2 c) w2 ltac:(lia) Ha2)
      as (got & l3 & w3 & Hr3 & Hs3 & _).
    simpl in Hs3. rewrite Hs2 in Hs3. symmetry in Hs3. apply app_eq_nil in Hs3 as [-> _].
    assert (read_header (set_in l2 c, w2) = (Ok None, (set_in l3 c, w3))) as Hnone.
    { unfold read_header, read_header_loop. change (@length byte [] =? 8)%nat with false. cbn iota.
      by rewrite (bind_Ok _ _ _ _ _ Hr3). }
    exists l3, w3. unfold recv_command. by rewrite (bind_Ok _ _ _ _ _ Hnone).
Qed.

(** The handshake accepts exactly the peers that speak version 1 or later:
    four bytes, "FB" and a decimal version of at least 1; whatever it answers,
    our own greeting was sent first. *)
Theorem handshake_accepts c w buf rest :
  arrives (c_in c) -> stream (c_in c) = buf ++ rest -> length buf = 4%nat ->
  c_write_errors c = [] ->
  exists r l' w', handshake (c, w) = (r, ({| c_in := l'; c_inactivity := c_inactivity c;
      c_out := c_out c ++ HANDSHAKE; c_write_errors := [] |}, w')) /\ stream l' = rest /\
    (r = Ok tt <-> take 2 buf = bs "FB" /\ (exists t, from_utf8 (drop 2 buf) = Some t) /\
       exists v, from_str_radix 10 u32_max (drop 2 buf) = Some v /\ PROTOCOL_VERSION <= v).
Proof.
  intros Ha Hs Hlen He. set (c1 := {| c_in := c_in c; c_inactivity := c_inactivity c;
    c_out := c_out c ++ HANDSHAKE; c_write_errors := [] |}).
  assert (write_all HANDSHAKE (c, w) = (Ok tt, (c1, w))) as Hw by (unfold write_all; by rewrite He).
  destruct (read_exact_arrives inactive c1 w buf rest Ha Hs) as (l' & w' & Hr & Hs' & _).
  rewrite Hlen in Hr. unfold handshake. rewrite (bind_Ok _ _ _ _ _ Hw), (bind_Ok _ _ _ _ _ Hr).
  destruct (bool_decide_reflect (take 2 buf = bs "FB")) as [Hfb|Hfb]; cbn [negb].
  2: { eexists _, l', w'. split; [reflexivity|]. split; [done|]. split; [done|]. by intros [? _]. }
  destruct (from_utf8 (drop 2 buf)) as [t|]; cbn [mbind option_bind].
  2: { eexists _, l', w'. split; [reflexivity|]. split; [done|]. split; [done|]. by intros (_ & [? [=]] & _). }
  destruct (from_str_radix 10 u32_max (drop 2 buf)) as [v|].
  2: { eexists _, l', w'. split; [reflexivity|]. split; [done|]. split; [done|]. by intros (_ & _ & ? & [=] & _). }
  destruct (Z.ltb_spec v PROTOCOL_VERSION); (eexists _, l', w'; split; [reflexivity|]; split; [done|]).
  - split; [done|]. intros (_ & _ & v' & [= <-] & ?). lia.
  - split; [|done]. intros _. split; [done|]. split; [by eexists|]. by exists v.
Qed.

(** ** Configuration (lib.rs) *)

Definition RECV_BUFFER_SIZE : Z := 128 * 1024.

Record FastbootTcpConfig := {
  ft_address : string;
  ft_accept_timeout_secs : option Z;
  ft_inactivity_timeout_secs : Z;
  ft_shutdown_timeout_secs : Z;
  ft_serial : string;
  ft_swupdate : SwupdateConfig;
}.

Definition DEFAULT_SERIAL : string := "unknown".

Definition default_tcp_config : FastbootTcpConfig := {|
  ft_address := "0.0.0.0:5554"; ft_accept_timeout_secs := None; ft_inactivity_timeout_secs := 30;
  ft_shutdown_timeout_secs := 15; ft_serial := DEFAULT_SERIAL;
  ft_swupdate := {| cfg_download := None; cfg_software_set := None; cfg_image_mode := None;
    cfg_dry_run := None; cfg_disable_store_swu := None; cfg_timeout_secs := None |} |}.

Definition to_swupdate_params (c : FastbootTcpConfig) : result SwupdateParams SwupdateConfigError :=
  to_params (ft_swupdate c).

Definition inactivity_timeout (c : FastbootTcpConfig) : option Z :=
  if ft_inactivity_timeout_secs c =? 0 then None else Some (ft_inactivity_timeout_secs c).

Definition accept_timeout (c : FastbootTcpConfig) : option Z := ft_accept_timeout_secs c.

Definition shutdown_timeout (c : FastbootTcpConfig) : Z := ft_shutdown_timeout_secs c.

(** [FastbootFraming::shutdown]: when closing the connection ends and how, if it
    does; it is given up after a time. *)
Definition framing_shutdown (limit : Z) (closing : option (Z * io_result unit)) : io_result unit :=
  let lapsed := Err (Custom KTimedOut "fastboot-tcp connection shutdown timed out") in
  match closing with
  | Some (t, r) => if t <=? limit then r else lapsed
  | None => lapsed
  end.

(** ** The session (session.rs) *)

Record Tcp := {
  t_conn : Conn;
  t_config : FastbootTcpConfig;
  t_params : SwupdateParams;
  t_sink : Session;
  t_session_open : bool;
  t_pending_flash : bool;
}.

Definition tcp_new (c : Conn) (cfg : FastbootTcpConfig) (p : SwupdateParams) : Tcp :=
  {| t_conn := c; t_config := cfg; t_params := p; t_sink := session_new p RECV_BUFFER_SIZE;
     t_session_open := false; t_pending_flash := false |}.

Definition set_conn (v : Conn) (t : Tcp) : Tcp :=
  {| t_conn := v; t_config := t_config t; t_params := t_params t; t_sink := t_sink t;
     t_session_open := t_session_open t; t_pending_flash := t_pending_flash t |}.
Definition set_tsink (v : Session) (t : Tcp) : Tcp :=
  {| t_conn := t_conn t; t_config := t_config t; t_params := t_params t; t_sink := v;
     t_session_open := t_session_open t; t_pending_flash := t_pending_flash t |}.
Definition set_flags (o f : bool) (t : Tcp) : Tcp :=
  {| t_conn := t_conn t; t_config := t_config t; t_params := t_params t; t_sink := t_sink t;
     t_session_open := o; t_pending_flash := f |}.

Abbreviation TW := (Tcp * World)%type.

Definition on_conn {A} (m : M CW A) : M TW A := fun '(t, w) =>
  let '(r, (c, w)) := m (t_conn t, w) in (r, (set_conn c t, w)).
Definition on_tsink {A} (m : M SW A) : M TW A := fun '(t, w) =>
  let '(r, (s, w)) := m (t_sink t, w) in (r, (set_tsink s t, w)).
Definition on_tsink_async {A} (m : Async SW A) : Async TW A := fun l '(t, w) =>
  let '(r, (l, (s, w))) := m l (t_sink t, w) in (r, (l, (set_tsink s t, w))).

Definition reply (data : list byte) : M TW unit := on_conn (send_packet data).

(** The source of a data phase: what is left of the download and of the current
    frame. *)
Record FastbootDownloadSource := {
  ds_conn : Conn;
  ds_remaining : Z;
  ds_frame_remaining : Z;
}.

Definition download_source_new (transport : Conn) (total : Z) : FastbootDownloadSource :=
  {| ds_conn := transport; ds_remaining := total; ds_frame_remaining := 0 |}.

(** The number of bytes the next read asks for. *)
Definition want (frame_remaining remaining : Z) : nat :=
  Z.to_nat (Z.min (Z.min frame_remaining remaining) RECV_BUFFER_SIZE).

Definition read_block (src : FastbootDownloadSource)
    : M SW (option block * FastbootDownloadSource) := fun '(s, w) =>
  if ds_remaining src =? 0 then (Ok (None, src), (s, w)) else
  let '(header, (c, w)) :=
    if ds_frame_remaining src =? 0 then read_header (ds_conn src, w)
    else (Ok (Some (ds_frame_remaining src)), (ds_conn src, w)) in
  match header with
  | Err e => (Err e, (s, w))
  | Ok None => (Err (Custom KUnexpectedEof "connection closed mid-download"), (s, w))
  | Ok (Some frame_remaining) =>
      let '(_, (s, w)) := buffer (s, w) in
      let '(got, (c, w)) := read_into (want frame_remaining (ds_remaining src)) (c, w) in
      match got with
      | Err e => (Err e, (s, w))
      | Ok [] => (Err (Custom KUnexpectedEof "connection closed mid-download"), (s, w))
      | Ok buf =>
          let k := Z.of_nat (length buf) in
          (Ok (Some buf, {| ds_conn := c; ds_remaining := ds_remaining src - k;
                            ds_frame_remaining := frame_remaining - k |}), (s, w))
      end
  end.

#[global] Instance download_source : SwupdatePumpSource FastbootDownloadSource := {|
  next_block src := sync (read_block src);
|}.

(** The data phase. [fuel] bounds the reads, each of which takes at least one
    byte; [pump_to_swupdate] gets the same bound. *)
Fixpoint stream_loop (fuel : nat) (forwarding : bool) (src : FastbootDownloadSource)
    : Async TW unit :=
  match fuel with
  | O => fun l tw => (None, (l, tw))
  | S fuel =>
      if ds_remaining src <=? 0 then
        sync (modify (fun '(t, w) => (set_conn (ds_conn src) t, w)) >>; reply OKAY)
      else if negb forwarding then
        await! p := sync (on_tsink (read_block src)) in stream_loop fuel forwarding (snd p)
      else
        await! p := on_tsink_async (pump_to_swupdate fuel src) in
        let (pump_end, src) := p : PumpToSwupdateEnd * FastbootDownloadSource in
        match pump_end with
        | InputClosed =>
            sync (modify (fun '(t, w) => (set_conn (ds_conn src) t, w)) >>; reply OKAY)
        | SwupdateFinished (Ok _) => stream_loop fuel false src
        | SwupdateFinished (Err err) =>
            sync (modify (fun '(t, w) => (set_conn (ds_conn src) t, w)) >>;
                  do! _ := attempt (reply FAIL_EPIPE) in
                  on_tsink abort >>;
                  throw err)
        end
  end.

Definition stream_download (total : Z) : Async TW unit := fun l '(t, w) =>
  stream_loop (S (S (Z.to_nat total))) true
    (download_source_new (t_conn t) total) l (t, w).

Definition handle_wopen : M TW unit :=
  do! r := attempt (on_tsink open) in
  match r with
  | Err _ => reply FAIL_OPEN
  | Ok _ => modify (fun '(t, w) => (set_flags true false t, w)) >>; reply OKAY
  end.

Definition handle_getvar (arg : string) : M TW unit :=
  do! r := gets (fun tw : TW =>
    fastboot_getvar_reply (w_env tw.2) arg (ft_serial (t_config tw.1))) in
  match r with Some data => reply data | None => reply FAIL_CMD end.

Definition handle_fetch : M TW unit :=
  do! json := gets (fun tw : TW => system_info_json (w_env tw.2)) in
  reply (data_header (Z.of_nat (length json))) >>;
  on_conn (send_prebuilt (frame json)) >>;
  reply OKAY.

Definition handle_download (len : Z) (kind : DownloadKind) : Async TW unit := fun l '(t, w) =>
  let '(opened, (t, w)) :=
    if is_open (t_sink t) then (Ok tt, (t, w)) else on_tsink open (t, w) in
  match opened with
  | Err _ => sync (reply FAIL_OPEN) l (t, w)
  | Ok _ =>
      (await! _ := sync (
         reply (data_header len) >>;
         modify (fun '(t, w) => (set_flags (t_session_open t)
           (match kind with Fastboot => true | Plain => negb (t_session_open t) end) t, w))) in
       if len =? 0 then sync (reply OKAY) else stream_download len) l (t, w)
  end.

Definition reset_after_finish : M TW unit := modify (fun '(t, w) =>
  (set_flags false false (set_tsink (session_new (t_params t) RECV_BUFFER_SIZE) t),
   drop_session (t_sink t) w)).

Definition finish_download : Async TW unit := fun l '(t, w) =>
  if negb (is_open (t_sink t)) then
    sync (modify (fun '(t, w) => (set_flags (t_session_open t) false t, w)) >>;
          reply FAIL_CLOSE) l (t, w)
  else
    (await! _ := sync (on_tsink eof) in
     await! verdict := on_tsink_async finished_result in
     sync (reset_after_finish >>;
           match verdict with Ok _ => reply OKAY | Err _ => reply FAIL_CLOSE end)) l (t, w).

Definition handle_flash : Async TW unit := fun l '(t, w) =>
  if negb (t_pending_flash t) then sync (reply FAIL_FLASH) l (t, w)
  else (await! _ := sync (reply INFO_WAIT_SWUPDATE) in finish_download) l (t, w).

Definition dispatch (cmd : list byte) : Async TW unit :=
  match parse_command cmd with
  | None => sync (reply FAIL_CMD)
  | Some (command, _) =>
      match command with
      | WOpen => sync handle_wopen
      | GetVar arg => sync (handle_getvar arg)
      | Fetch _ => sync handle_fetch
      | FetchUnknownPart => sync (reply FAIL_UNKNOWN_PART)
      | Download len kind => handle_download len kind
      | Flash => handle_flash
      | Close => finish_download
      | Unsupported => sync (reply FAIL_CMD)
      end
  end.

Fixpoint command_loop (fuel : nat) : Async TW unit :=
  match fuel with
  | O => fun l tw => (None, (l, tw))
  | S fuel =>
      await! f := sync (on_conn recv_command) in
      match f with
      | None => sync (ret tt)
      | Some cmd => await! _ := dispatch cmd in command_loop fuel
      end
  end.

(** The whole session; [shutdown] is the outcome of closing the connection, and
    the update session is dropped with it. *)
Definition run (fuel : nat) (shutdown : io_result unit) : Async TW unit :=
  await! _ := sync (on_conn handshake) in
  fun l tw =>
    match command_loop fuel l tw with
    | (None, ltw) => (None, ltw)
    | (Some (Ok _), (l, (t, w))) => (Some shutdown, (l, (t, drop_session (t_sink t) w)))
    | (Some (Err e), (l, tw)) =>
        let '(_, (t, w)) := on_tsink abort tw in
        (Some (Err e), (l, (t, drop_session (t_sink t) w)))
    end.

(** ** The listener (lib.rs) *)

(** The connection of a client, with the idle limit of its reads. *)
Definition framing_new (c_in_ : list NetIn) (inactivity : option Z) (write_errors : list (option io_error)) : Conn :=
  {| c_in := c_in_; c_inactivity := inactivity; c_out := []; c_write_errors := write_errors |}.

(** One turn of the listener: the outcomes of bind and accept ([None]: nobody
    came within the accept timeout, if there is one), and the connection with
    what happens during its session. *)
Record TcpClient := {
  tc_bind : io_result unit;
  tc_accept : option (io_result unit);
  tc_in : list NetIn;
  tc_write_errors : list (option io_error);
  tc_fuel : nat;
  tc_sched : list wevent;
  tc_shutdown : option (Z * io_result unit);
}.

Definition tc_conn (cfg : FastbootTcpConfig) (cl : TcpClient) : Conn :=
  framing_new (tc_in cl) (inactivity_timeout cfg) (tc_write_errors cl).

(** The loop over the turns of a run; an error ends the service, [None] when it
    is still waiting or serving. *)
Fixpoint tcp_serve (cfg : FastbootTcpConfig) (p : SwupdateParams) (clients : list TcpClient) (w : World)
    : option (io_result unit) * World :=
  match clients with
  | [] => (None, w)
  | cl :: clients =>
      match tc_bind cl with
      | Err e => (Some (Err e), w)
      | Ok _ =>
          match tc_accept cl with
          | Some (Err e) => (Some (Err e), w)
          | None =>
              match accept_timeout cfg with
              | Some _ => tcp_serve cfg p clients w
              | None => (None, w)
              end
          | Some (Ok _) =>
              match run (tc_fuel cl) (framing_shutdown (shutdown_timeout cfg) (tc_shutdown cl)) (tc_sched cl) (tcp_new (tc_conn cfg cl) cfg p, w) with
              | (Some _, (_, (_, w))) => tcp_serve cfg p clients w
              | (None, (_, (_, w))) => (None, w)
              end
          end
      end
  end.
