(* ===== verification/TcpDelivery.v ===== *)
(** * Fastboot over TCP: what a data phase delivers

    The producer of fastboot over TCP discharges the interface of the pump
    (Pump.v): however the client cuts the image into frames and the network cuts
    the frames into reads, the source produces the image. From that follow the
    behaviour of a whole data phase and that it ends. *)

From S2P Require Import Prelude Io Bytes SysInfo Session Link Owner Pump Net FastbootProto FastbootTcp.

(** ** The source of a data phase *)

Definition frame_ok (f : list byte) : Prop := f <> [] /\ Z.of_nat (length f) < 2 ^ 64.

(** [tcp_holds out tail src data]: the source is in the middle of a stream that
    carries [data] in well-formed frames and then [tail]; the client has been
    sent [out]. *)
Definition tcp_holds (out tail : list byte) (src : FastbootDownloadSource) (data : list byte) : Prop :=
  exists cur frames,
    arrives (c_in (ds_conn src)) /\
    stream (c_in (ds_conn src)) = cur ++ concat (frame <$> frames) ++ tail /\
    data = cur ++ concat frames /\ Forall frame_ok frames /\
    ds_frame_remaining src = Z.of_nat (length cur) /\
    ds_remaining src = Z.of_nat (length data) /\
    c_out (ds_conn src) = out /\ c_write_errors (ds_conn src) = [].

Lemma want_pos a b : 0 < a -> 0 < b -> (0 < want a b)%nat.
Proof. unfold want, RECV_BUFFER_SIZE. lia. Qed.

Lemma want_le a b : 0 <= a -> Z.of_nat (want a b) <= a.
Proof. unfold want, RECV_BUFFER_SIZE. lia. Qed.

(** What a source holds once it is inside a frame: the header of the next frame
    has been read when the current one is used up. *)
Lemma enter_frame out tail src data w :
  tcp_holds out tail src data -> data <> [] ->
  exists fr l1 w1,
    (if ds_frame_remaining src =? 0 then read_header (ds_conn src, w)
     else (Ok (Some (ds_frame_remaining src)), (ds_conn src, w)))
      = (Ok (Some fr), (set_in l1 (ds_conn src), w1)) /\
    tcp_holds out tail {| ds_conn := set_in l1 (ds_conn src); ds_remaining := ds_remaining src;
                          ds_frame_remaining := fr |} data /\
    0 < fr /\ same_world w w1.
Proof.
  intros (cur & frames & Ha & Hs & -> & Hf & Hfr & Hr & Ho & He) Hne.
  destruct (Z.eqb_spec (ds_frame_remaining src) 0) as [H0|H0].
  - destruct cur; [|simpl in Hfr; lia]. simpl in Hne.
    destruct frames as [|f frames]; [done|]. apply Forall_cons_1 in Hf as [[Hf1 Hf2] Hf].
    cbn [fmap list_fmap concat app] in Hs. rewrite <- app_assoc in Hs. unfold frame in Hs at 1. rewrite <- app_assoc in Hs.
    destruct (read_header_loop_arrives 8 [] (ds_conn src) w (be_bytes 8 (Z.of_nat (length f)))
      (f ++ concat (frame <$> frames) ++ tail)) as (l1 & w1 & Hr1 & Hs1 & Ha1 & Hw1);
      [done|done|by rewrite length_be_bytes|by rewrite length_be_bytes|].
    cbn [app] in Hr1. rewrite be_val_be_bytes in Hr1 by (change (256 ^ Z.of_nat 8) with (2 ^ 64); lia).
    exists (Z.of_nat (length f)), l1, w1. split; [exact Hr1|]. split.
    { exists f, frames. cbn. by repeat split. }
    split; [destruct f; [done|simpl; lia]|done].
  - exists (ds_frame_remaining src), (c_in (ds_conn src)), w. rewrite set_in_id. split; [done|].
    split; [exists cur, frames; by repeat split|]. split; [lia|apply same_world_refl].
Qed.

(** A read of the source takes a non-empty piece off the front of what it holds
    and leaves the sink's transfer alone. *)
Lemma read_block_law out tail src data n s w L m :
  tcp_holds out tail src data -> Link n s w L m -> world_ok w ->
  exists b src' w', read_block src (s, w) = (Ok (b, src'), (s, w')) /\
    Link n s w' L m /\ world_ok w' /\
    exists data', tcp_holds out tail src' data' /\
    match b with
    | Some item => data = item ++ data' /\ item <> []
    | None => data = [] /\ data' = []
    end.
Proof.
  intros Hh HL Hok. unfold read_block.
  assert (ds_remaining src = Z.of_nat (length data)) as Hrem by (destruct Hh as (?&?&?&?&?&?&?&?&?); done).
  destruct (Z.eqb_spec (ds_remaining src) 0) as [H0|H0].
  { destruct data; [|simpl in Hrem; lia]. exists None, src, w. do 3 (split; [done|]). by exists []. }
  destruct (enter_frame out tail src data w Hh) as (fr & l1 & w1 & -> & Hh1 & Hfr & Hw1); [by intros ->|].
  pose proof (same_world_link _ _ _ _ _ _ Hw1 HL) as HL1. pose proof (same_world_ok _ _ Hw1 Hok) as Hok1.
  destruct (link_buffer n s w1 L m HL1) as (w2 & Hb & HL2).
  pose proof (buffer_inv (P := backend_ok) (C := fun cap => 0 < cap) (s, w1)
      (conj Hok1 (queue_capacity_pos _))) as [Hok2 _].
  rewrite Hb in Hok2 |- *. cbn [snd] in Hok2.
  destruct Hh1 as (cur & frames & Ha & Hs & -> & Hf & Hcur & Hr & Ho & He). cbn in Ha, Hs, Hcur, Hr, Ho, He.
  destruct (read_arrives inactive (want fr (ds_remaining src)) (set_in l1 (ds_conn src)) w2)
    as (got & l2 & w3 & Hrd & Hs3 & Ha3 & Hlen & Hnil & Hw3); [apply want_pos; lia|done|].
  unfold read_into. rewrite Hrd. pose proof (want_le fr (ds_remaining src) ltac:(lia)) as Hwl.
  cbn in Hs3, Hnil. rewrite Hs in Hs3, Hnil.
  destruct got as [|g got].
  { specialize (Hnil eq_refl). destruct cur; [simpl in Hcur; lia|done]. }
  destruct (split_stream (g :: got) (stream l2) cur (concat (frame <$> frames) ++ tail))
    as (cur' & -> & Htl); [done|lia|].
  eexists _, _, w3. split; [reflexivity|].
  split; [by eapply same_world_link|]. split; [by eapply same_world_ok|].
  exists (cur' ++ concat frames). split; [|by rewrite app_assoc].
  exists cur', frames. cbn. rewrite length_app in Hcur. rewrite !length_app in Hr. cbn [length] in *.
  repeat split; try done; rewrite ?length_app; lia.
Qed.

#[refine] Instance download_laws (out tail : list byte) : SourceLaws FastbootDownloadSource := {|
  src_holds := tcp_holds out tail;
|}.
Proof.
  intros n src data l s w L m Hh HL Hok. cbn [next_block download_source]. unfold sync.
  destruct (read_block_law out tail src data n s w L m Hh HL Hok)
    as (b & src' & w' & -> & HL' & Hok' & data' & Hh' & Hb).
  do 2 (split; [done|]). exists data'. split; [done|]. destruct b; [by destruct Hb|done].
Defined.

Lemma download_next_ok out tail n src data l s w L m :
  src_holds (SourceLaws := download_laws out tail) src data -> Link n s w L m -> world_ok w ->
  exists p l' sw', next_block src l (s, w) = (Some (Ok p), (l', sw')).
Proof.
  intros Hh HL Hok. destruct (read_block_law out tail src data n s w L m Hh HL Hok)
    as (b & src' & w' & Hr & _). cbn [next_block download_source]. unfold sync. rewrite Hr. eauto.
Qed.

(** Reads take bytes off the download, so the pump's fuel is enough. *)
Lemma read_length lapse n c w got cw' :
  read lapse n (c, w) = (Ok got, cw') -> (length got <= n)%nat.
Proof.
  unfold read. set (lp := _ <$> c_inactivity c). intros H.
  assert (exists l' w', read_script lp n (c_in c) w = (Ok got, (l', w'))) as (l' & w' & Hr).
  { destruct (read_script lp n (c_in c) w) as [r [l' w']]. injection H as -> _. eauto. }
  clear H. destruct n as [|n].
  { destruct (c_in c); injection Hr as <- _ _; simpl; lia. }
  revert w Hr. induction (c_in c) as [|[[|b d]|e| |ev] l IH]; intros w; cbn [read_script].
  - intros [= <- _ _]. simpl. lia.
  - apply IH.
  - intros [= <- _ _]. cbn [length take]. rewrite length_take. lia.
  - done.
  - destruct lp; [done|apply IH].
  - apply IH.
Qed.

Lemma download_shrinks src l sw :
  match next_block src l sw with
  | (Some (Ok (Some _, src')), _) => (Z.to_nat (ds_remaining src') < Z.to_nat (ds_remaining src))%nat
  | (Some _, _) => True
  | (None, _) => False
  end.
Proof.
  destruct sw as [s w]. cbn [next_block download_source]. unfold sync, read_block.
  destruct (ds_remaining src =? 0); [done|].
  destruct (if ds_frame_remaining src =? 0 then _ else _) as [[[fr|]|e] [c w1]]; try done.
  destruct (buffer (s, w1)) as [r2 [s2 w2]].
  destruct (read_into (want fr (ds_remaining src)) (c, w2)) as [[[|b got]|e] [c3 w3]] eqn:Er; try done.
  apply read_length in Er. cbn [ds_remaining length] in *. unfold want in Er. lia.
Qed.

(** ** The data phase *)

Lemma reply_ok data t w :
  c_write_errors (t_conn t) = [] ->
  reply data (t, w) = (Ok tt, (set_conn {| c_in := c_in (t_conn t);
    c_inactivity := c_inactivity (t_conn t); c_out := c_out (t_conn t) ++ frame data;
    c_write_errors := [] |} t, w)).
Proof. intros He. unfold reply, on_conn, send_packet, write_all. by rewrite He. Qed.

(** Everything the session keeps but its connection and its sink. *)
Definition same_session (t t' : Tcp) : Prop :=
  t_config t' = t_config t /\ t_params t' = t_params t /\
  t_session_open t' = t_session_open t /\ t_pending_flash t' = t_pending_flash t.

(** The end of a data phase that was acknowledged. *)
Record acked (out tail : list byte) (t t' : Tcp) : Prop := {
  ack_out : c_out (t_conn t') = out ++ frame OKAY;
  ack_rest : stream (c_in (t_conn t')) = tail;
  ack_arrives : arrives (c_in (t_conn t'));
  ack_same : same_session t t';
}.

Lemma finish_phase out tail src t w :
  tcp_holds out tail src [] ->
  exists t', (modify (fun '(t, w) => (set_conn (ds_conn src) t, w)) >>; reply OKAY) (t, w)
      = (Ok tt, (t', w)) /\ t_sink t' = t_sink t /\ acked out tail t t'.
Proof.
  intros (cur & frames & Ha & Hs & Hd & Hf & Hcur & Hr & Ho & He).
  symmetry in Hd. apply app_eq_nil in Hd as [-> Hfr].
  destruct frames as [|f frames].
  2: { simpl in Hfr. apply app_eq_nil in Hfr as [-> _]. apply Forall_cons_1 in Hf as [[? _] _]. done. }
  eexists. unfold modify, bind. rewrite reply_ok by done. split; [reflexivity|].
  split; [done|]. split; cbn; [by rewrite Ho|done|done|by repeat split].
Qed.

(** After an early success the rest of the download is read and discarded. *)
Lemma drain_phase out tail n fuel src data l t w L m :
  tcp_holds out tail src data -> (length data < fuel)%nat ->
  Link n (t_sink t) w L m -> world_ok w ->
  exists t' w', stream_loop fuel false src l (t, w) = (Some (Ok tt), (l, (t', w'))) /\
    acked out tail t t' /\ Link n (t_sink t') w' L m /\ world_ok w' /\ t_sink t' = t_sink t.
Proof.
  revert src data t w. induction fuel as [|fuel IH]; intros src data t w Hh Hf HL Hok; [lia|].
  cbn [stream_loop].
  assert (ds_remaining src = Z.of_nat (length data)) as Hrem by (destruct Hh as (?&?&?&?&?&?&?&?&?); done).
  destruct (Z.leb_spec (ds_remaining src) 0) as [H0|H0].
  - destruct data; [|simpl in Hrem; lia].
    destruct (finish_phase out tail src t w Hh) as (t' & Hr & Hs & Hack).
    exists t', w. unfold sync. rewrite Hr, Hs. by do 4 (split; [done|]).
  - cbn [negb]. unfold abind, sync, on_tsink at 1.
    destruct (read_block_law out tail src data n (t_sink t) w L m Hh HL Hok)
      as (b & src' & w' & -> & HL' & Hok' & data' & Hh' & Hb).
    destruct b as [item|]; [|destruct Hb as [-> _]; simpl in *; lia].
    destruct Hb as [-> Hne]. cbn [snd]. rewrite length_app in Hf.
    assert (0 < length item)%nat by (destruct item; [done|simpl; lia]).
    destruct (IH src' data' (set_tsink (t_sink t) t) w') as (t' & w'' & Hr & Hack & Hrest);
      [done|lia|done|done|].
    exists t', w''. split; [exact Hr|]. split; [|done]. destruct Hack as [? ? ? Hs]. by split.
Qed.

(** The outcomes of a data phase for an image [data] fed after [L]. *)
Definition phase_outcome (n : nat) (L data tail : list byte) (t : Tcp)
    (o : option (io_result unit) * (list wevent * TW)) : Prop :=
  match o with
  | (Some (Ok _), (_, (t', w'))) =>
      acked (c_out (t_conn t)) tail t t' /\ world_ok w' /\
      exists L' m', Link n (t_sink t') w' L' m' /\
        ((L' = L ++ data /\ m' = Live) \/
         (s_terminal (t_sink t') = Some (Ok tt) /\ L' `prefix_of` L ++ data))
  | (Some (Err _), (_, (t', _))) =>
      c_out (t_conn t') = c_out (t_conn t) ++ frame FAIL_EPIPE /\
      is_open (t_sink t') = false /\ s_terminal (t_sink t') = None
  | (None, (l, _)) => l = []
  end.

(** The failure of SWUpdate during a data phase. *)
Lemma fail_phase out tail src data (err : io_error) t w :
  tcp_holds out tail src data ->
  exists t' w', (modify (fun '(t, w) => (set_conn (ds_conn src) t, w)) >>;
      do! _ := attempt (reply FAIL_EPIPE) in on_tsink abort >>; throw (A := unit) err) (t, w)
      = (Err err, (t', w')) /\ c_out (t_conn t') = out ++ frame FAIL_EPIPE /\
    is_open (t_sink t') = false /\ s_terminal (t_sink t') = None.
Proof.
  intros (cur & frames & _ & _ & _ & _ & _ & _ & Ho & He).
  unfold modify, bind at 1, attempt. unfold bind at 1. rewrite reply_ok by done. rewrite <- Ho.
  by eexists _, _.
Qed.

(** C6. A whole data phase of fastboot over TCP, on a connection that delivers the announced
    bytes, in frames of any number and any sizes but zero, cut by the network into any pieces,
    without a read error and with replies that can be written, for a sink that is live. For
    every schedule of SWUpdate the phase ends in one of two ways unless SWUpdate makes it wait
    for ever: it is acknowledged once, exactly the download has been taken off the stream, and
    SWUpdate's queue has accepted exactly the image after what it had, or SWUpdate reported
    success before it had all of it and the queue holds a prefix; or SWUpdate failed, the
    client was told and the transfer is gone. *)
Theorem stream_download_delivers n t w L frames tail l :
  arrives (c_in (t_conn t)) -> stream (c_in (t_conn t)) = concat (frame <$> frames) ++ tail ->
  Forall frame_ok frames -> c_write_errors (t_conn t) = [] ->
  Link n (t_sink t) w L Live -> world_ok w ->
  phase_outcome n L (concat frames) tail t
    (stream_download (Z.of_nat (length (concat frames))) l (t, w)).
Proof.
  intros Ha Hs Hf He HL Hok. unfold stream_download, download_source_new. rewrite Nat2Z.id.
  set (data := concat frames). set (src := {| ds_conn := _ |}). set (out := c_out (t_conn t)).
  assert (tcp_holds out tail src data) as Hh by (exists [], frames; by repeat split).
  change (length (concat frames)) with (length data).
  remember (S (length data)) as fuel eqn:Hfuel.
  cbn [stream_loop]. destruct (Z.leb_spec (ds_remaining src) 0) as [H0|H0]; cbn [ds_remaining src] in H0.
  { assert (data = []) as Hd by (destruct data; [done|simpl in H0; lia]). rewrite Hd in Hh |- *.
    destruct (finish_phase out tail src t w Hh) as (t' & Hr & Hsk & Hack).
    unfold sync. rewrite Hr. split; [done|]. split; [done|]. exists L, Live. rewrite Hsk, app_nil_r. auto. }
  cbn [negb]. unfold abind, on_tsink_async.
  pose proof (pump_accounts (H0 := download_laws out tail) n fuel src data l (t_sink t) w L Live) as Hp.
  pose proof (pump_no_error (H0 := download_laws out tail) (download_next_ok out tail)
    n fuel src data l (t_sink t) w L Live) as Hne.
  pose proof (pump_pending (fun src => Z.to_nat (ds_remaining src)) download_shrinks
    fuel src l (t_sink t, w)) as Hpend.
  destruct (pump_to_swupdate fuel src l (t_sink t, w))
    as [[[[e src']|err]|] [l' [s' w']]].
  - destruct (Hp _ _ _ _ _ Hh HL (or_intror eq_refl) Hok eq_refl)
      as (Hok' & L' & m' & data' & HL' & Hh' & Hcase).
    cbn [src_holds download_laws] in Hh'. destruct e as [|[[]|err]].
    + destruct Hcase as (-> & -> & Hm').
      destruct (finish_phase out tail src' (set_tsink s' t) w' Hh') as (t' & Hr & Hsk & Hack).
      unfold sync. rewrite Hr. split; [by destruct Hack; split|]. split; [done|].
      exists (L ++ data), m'. rewrite Hsk. split; [done|]. left. split; [done|]. by destruct Hm'.
    + destruct Hcase as ((fed & dropped & Hd & ->) & Ht).
      destruct (drain_phase out tail n fuel src' data' l' (set_tsink s' t) w' (L ++ fed) m' Hh')
        as (t' & w'' & -> & Hack & HL'' & Hok'' & Hsk); [rewrite Hfuel, Hd, !length_app; lia|done|done|].
      split; [by destruct Hack; split|]. split; [done|]. exists (L ++ fed), m'. split; [done|]. right.
      rewrite Hsk. split; [by apply Ht|]. exists (dropped ++ data'). by rewrite Hd, <- !app_assoc.
    + destruct (fail_phase out tail src' data' err (set_tsink s' t) w' Hh') as (t' & w'' & Hr & Hrest).
      unfold sync. rewrite Hr. exact Hrest.
  - by destruct (Hne err (l', (s', w')) Hh HL ltac:(done) Hok).
  - apply (Hpend l' (s', w')); [cbn; lia|done].
Qed.

(** ** The verdict *)

(** What tells a client of success: the verdict the session has seen already, or
    else the result of the status task. *)
Definition reports_success (t : Tcp) (b : Backend) : bool :=
  match s_terminal (t_sink t) with Some v => is_ok v | None => succeeded b end.

(** C20. [finish_download], which [flash] and [Close] end with, while replies can be
    written. With a sink that is open it signals end of stream first, so that SWUpdate can
    come to an end while the session waits for the verdict, and it waits as long as the
    status task runs; then it replies OKAY exactly when the verdict was success (one seen
    before, or the result of the status task of that transfer), FAIL otherwise, and the sink
    and the flags are reset for the next transfer. With a sink that is not open, because
    nothing was downloaded or because the verdict was taken and the queue found closed, it
    replies FAIL at once whatever the verdict was. *)
Theorem finish_download_reports_verdict n t w L m l :
  Link n (t_sink t) w L m -> c_write_errors (t_conn t) = [] ->
  (is_open (t_sink t) = false ->
   exists t', finish_download l (t, w) = (Some (Ok tt), (l, (t', w))) /\
     t_sink t' = t_sink t /\ t_session_open t' = t_session_open t /\ t_pending_flash t' = false /\
     c_out (t_conn t') = c_out (t_conn t) ++ frame FAIL_CLOSE) /\
  (is_open (t_sink t) = true -> m = Live \/ m = Dead ->
   match finish_download l (t, w) with
   | (None, (l', (_, w'))) =>
       l' = [] /\ exists b, w_transfers w' !! n = Some b /\ bk_status b = StRunning /\ bk_tx_open b = false
   | (Some r, (_, (t', w'))) =>
       r = Ok tt /\ t_sink t' = session_new (t_params t) RECV_BUFFER_SIZE /\
       t_session_open t' = false /\ t_pending_flash t' = false /\
       exists b, w_transfers w' !! n = Some b /\ concat (bk_log b) = L /\ bk_tx_open b = false /\
         c_out (t_conn t') = c_out (t_conn t) ++ frame (if reports_success t b then OKAY else FAIL_CLOSE)
   end).
Proof.
  intros HL He. unfold finish_download. split; intros Ho; rewrite Ho; cbn [negb].
  { eexists. unfold sync, modify, bind. rewrite reply_ok by done. split; [reflexivity|]. done. }
  intros Hm. unfold abind, sync, on_tsink at 1. pose proof (link_eof n (t_sink t) w L m HL) as Heof.
  destruct Heof as (s1 & w1 & Heq & HL1). rewrite Heq.
  assert (s_terminal s1 = s_terminal (t_sink t)) as Ht1 by (unfold eof, drop_tx, modify in Heq; by injection Heq as <- _).
  assert (after_eof m = Ended \/ after_eof m = Dead) as Hm1 by (destruct Hm as [-> | ->]; auto).
  assert (after_eof m <> Unopened) as Hu by (by destruct Hm1 as [-> | ->]).
  unfold on_tsink_async, finished_result. cbn [t_sink set_tsink].
  assert (match finished l (s1, w1) with
    | (None, (l', (s', w'))) => l' = [] /\ Link n s' w' L (after_eof m) /\
        exists b, w_transfers w' !! n = Some b /\ bk_status b = StRunning
    | (Some r, (_, (s', w'))) => Link n s' w' L (after_eof m) /\
        exists b, w_transfers w' !! n = Some b /\ is_ok r = reports_success t b
    end) as Hf.
  { unfold reports_success. rewrite <- Ht1. destruct (s_terminal s1) as [v|] eqn:Et.
    - destruct (finished_known l s1 w1 v Et) as (r & -> & Hr). split; [done|].
      destruct (link_backend _ _ _ _ _ HL1 Hu) as (b & Hb & _). by exists b.
    - pose proof (finished_verdict n l s1 w1 L _ HL1 Hu Et) as Hv.
      destruct (finished l (s1, w1)) as [[r|] [l' [s2 w2]]] eqn:Ef; [done|]. by eapply finished_waits. }
  destruct (finished l (s1, w1)) as [[r|] [l' [s2 w2]]].
  - destruct Hf as [HL2 (b & Hb & Hr)].
    destruct (drop_ended n s2 w2 L _ HL2 Hm1 b Hb) as (b' & Hb' & Hst & Hlog & Htx).
    assert (reports_success t b' = reports_success t b) as Hsucc by (unfold reports_success, succeeded; by rewrite Hst).
    unfold reset_after_finish, modify, bind at 1. cbn [t_sink set_tsink].
    destruct r as [u|e]; (rewrite reply_ok by done); (do 4 (split; [done|]));
      exists b'; rewrite Hsucc, <- Hr; done.
  - destruct Hf as (-> & HL2 & b & Hb & Hst). split; [done|]. exists b. split_and!; [done..|].
    destruct Hm1 as [Hm1|Hm1]; rewrite Hm1 in HL2; inversion HL2 as [| |b2 Hb2 ? ? ? Htx|b2 Hb2 ? ? ? Hd]; simplify_eq; [done|apply Hd].
Qed.

(** ** The transfer is released

    Operations on the connection let only background events happen, and every
    operation of the session keeps the sender where it can be dropped. *)

Lemma env_only_header fuel filled : env_only (read_header_loop fuel filled).
Proof.
  revert filled. induction fuel as [|fuel IH]; intros filled; cbn [read_header_loop];
    destruct (length filled =? 8)%nat; auto with gadget.
  apply env_only_bind; [auto with gadget|]. intros [|b got]; [|apply IH].
  destruct (bool_decide _); auto with gadget.
Qed.

Lemma env_only_recv : env_only recv_command.
Proof.
  apply env_only_bind; [apply env_only_header|]. intros [len|]; [|auto with gadget].
  destruct (_ <? _); [auto with gadget|]. apply env_only_bind; [apply env_only_exact|auto with gadget].
Qed.

Lemma env_only_handshake : env_only handshake.
Proof.
  apply env_only_bind; [auto with gadget|]. intros _. apply env_only_bind; [apply env_only_exact|].
  intros buf. destruct (negb _); [auto with gadget|]. destruct (mbind _ _) as [v|]; [|auto with gadget].
  destruct (_ <? _); auto with gadget.
Qed.

Section Kept.
(** What the operations of its sink keep, the connection keeps. *)
Context {I : SW -> Prop} `{!SessionInv I}.

Definition t_kept (tw : TW) : Prop := I (t_sink tw.1, tw.2).

Lemma on_conn_kept {A} (m : M CW A) : env_only m -> preserves t_kept (on_conn m).
Proof.
  intros Hm [t w] H. unfold on_conn. specialize (Hm (t_conn t, w)).
  destruct (m (t_conn t, w)) as [r [c w']]. destruct Hm as [evs Hw]. cbn in Hw. subst w'.
  by apply ticks_kept.
Qed.

Lemma reply_kept data : preserves t_kept (reply data).
Proof. apply on_conn_kept, env_only_write. Qed.

Lemma on_tsink_kept {A} (m : M SW A) : preserves I m -> preserves t_kept (on_tsink m).
Proof.
  intros Hm [t w] H. unfold on_tsink. specialize (Hm (t_sink t, w) H).
  by destruct (m (t_sink t, w)) as [r [s w']].
Qed.

Lemma on_tsink_async_kept {A} (m : Async SW A) :
  apreserves I m -> apreserves t_kept (on_tsink_async m).
Proof.
  intros Hm l [t w] H. unfold on_tsink_async. specialize (Hm l (t_sink t, w) H).
  by destruct (m l (t_sink t, w)) as [r [l' [s w']]].
Qed.

#[local] Hint Resolve si_open si_abort si_drop_tx reply_kept on_tsink_kept on_tsink_async_kept on_conn_kept
  env_only_recv env_only_handshake : gadget.

Lemma upd_kept (f : TW -> TW) :
  (forall t w, t_sink (f (t, w)).1 = t_sink t /\ (f (t, w)).2 = w) -> preserves t_kept (modify f).
Proof.
  intros Hf [t w] H. unfold t_kept, modify. cbn [snd]. destruct (Hf t w) as [-> ->]. exact H.
Qed.

Lemma read_block_kept src : preserves I (read_block src).
Proof.
  intros [s w] H. unfold read_block. destruct (_ =? 0); [done|].
  set (p := if ds_frame_remaining src =? 0 then _ else _).
  assert (same_world w p.2.2) as Hp.
  { subst p. destruct (_ =? 0); [apply (env_only_header 8 [] (ds_conn src, w))|apply same_world_refl]. }
  destruct p as [[[fr|]|e] [c w1]]; cbn [snd] in Hp; destruct Hp as [evs ->];
    try (cbn; by apply ticks_kept).
  pose proof (si_buffer (s, wsteps evs w) ltac:(by apply ticks_kept)) as Hb.
  destruct (buffer (s, wsteps evs w)) as [r2 [s2 w2]]. cbn [snd] in Hb.
  pose proof (env_only_read inactive (want fr (ds_remaining src)) (c, w2)) as Hr. unfold read_into.
  destruct (read inactive (want fr (ds_remaining src)) (c, w2)) as [[[|b got]|e] [c3 w3]];
    cbn [snd] in Hr; destruct Hr as [evs2 ->]; by apply ticks_kept.
Qed.

Lemma set_conn_kept c : preserves t_kept (modify (fun '(t, w) => (set_conn c t, w))).
Proof. by apply upd_kept. Qed.

Lemma stream_loop_kept fuel forwarding src : apreserves t_kept (stream_loop fuel forwarding src).
Proof.
  revert forwarding src. induction fuel as [|fuel IH]; intros forwarding src; cbn [stream_loop];
    [by intros l tw H|].
  assert (forall c, preserves t_kept (modify (fun '(t, w) => (set_conn c t, w)) >>; reply OKAY)) as Hfin.
  { intros c. apply preserves_bind; [apply set_conn_kept|auto with gadget]. }
  destruct (_ <=? 0); [by apply apreserves_sync|].
  destruct forwarding; cbn [negb]; (apply apreserves_abind; [|intros [[|[u|err]] src'] || intros p]).
  - apply on_tsink_async_kept, pump_kept. intros src1. apply apreserves_sync, read_block_kept.
  - by apply apreserves_sync.
  - apply IH.
  - apply apreserves_sync, preserves_bind; [apply set_conn_kept|]. intros _.
    apply preserves_bind; [auto with gadget|]. intros _.
    apply preserves_bind; [apply on_tsink_kept, si_abort|auto with gadget].
  - apply apreserves_sync, on_tsink_kept, read_block_kept.
  - apply IH.
Qed.

Lemma handle_download_kept len kind : apreserves t_kept (handle_download len kind).
Proof.
  intros l [t w] H. unfold handle_download. set (p := if is_open (t_sink t) then _ else _).
  assert (t_kept p.2) as Hp.
  { subst p. destruct (is_open (t_sink t)); [done|]. apply on_tsink_kept; [apply si_open|done]. }
  destruct p as [[u|e] [t1 w1]]; cbn [snd] in Hp; [|by apply apreserves_sync; [apply reply_kept|]].
  revert Hp. apply apreserves_abind.
  - apply apreserves_sync, preserves_bind; [auto with gadget|]. intros _. by apply upd_kept.
  - intros _. destruct (len =? 0); [apply apreserves_sync; auto with gadget|].
    intros l2 [t2 w2] H2. by apply stream_loop_kept.
Qed.

Lemma finish_download_kept : apreserves t_kept finish_download.
Proof.
  intros l [t w] H. unfold finish_download. destruct (negb _).
  { revert H. apply apreserves_sync, preserves_bind; [by apply upd_kept|auto with gadget]. }
  unfold abind, sync. pose proof (on_tsink_kept eof si_drop_tx (t, w) H) as H1.
  destruct (on_tsink eof (t, w)) as [[u|e] [t1 w1]]; [|done]. cbn [snd] in H1.
  pose proof (finished_kept l (t_sink t1, w1) H1) as H2. unfold on_tsink_async, finished_result.
  destruct (finished l (t_sink t1, w1)) as [[r|] [l2 [s2 w2]]] eqn:Ef; [|done]. cbn [snd] in H2.
  unfold reset_after_finish, bind, modify. cbn [t_sink set_tsink t_params].
  set (t3 := set_flags false false _). assert (t_kept (t3, drop_session s2 w2)) as H3.
  { exact (finished_replace l (t_sink t1, w1) r l2 (s2, w2) (t_params t1) RECV_BUFFER_SIZE H1 Ef). }
  destruct r as [u2|e2]; [pose proof (reply_kept OKAY _ H3) as H4|pose proof (reply_kept FAIL_CLOSE _ H3) as H4];
    by destruct (reply _ _).
Qed.

Lemma dispatch_kept cmd : apreserves t_kept (dispatch cmd).
Proof.
  unfold dispatch. destruct (parse_command cmd) as [[[]]|]; try (apply apreserves_sync; auto with gadget).
  - unfold handle_wopen. apply preserves_bind; [auto 6 with gadget|]. intros [u|e]; [|auto with gadget].
    apply preserves_bind; [by apply upd_kept|auto with gadget].
  - apply preserves_bind; [auto with gadget|]. intros [d|]; auto with gadget.
  - apply preserves_bind; [auto with gadget|]. intros json. apply preserves_bind; [auto with gadget|].
    intros _. apply preserves_bind; [apply on_conn_kept, env_only_write|auto with gadget].
  - apply handle_download_kept.
  - intros l [t w] H. unfold handle_flash. destruct (negb _).
    + by apply apreserves_sync; [apply reply_kept|].
    + revert H. apply apreserves_abind; [apply apreserves_sync; auto with gadget|].
      intros _. apply finish_download_kept.
  - apply finish_download_kept.
Qed.

Lemma command_loop_kept fuel : apreserves t_kept (command_loop fuel).
Proof.
  induction fuel as [|fuel IH]; cbn [command_loop]; [by intros l tw H|].
  apply apreserves_abind; [apply apreserves_sync; auto with gadget|].
  intros [cmd|]; [|apply apreserves_sync; auto with gadget].
  apply apreserves_abind; [apply dispatch_kept|done].
Qed.
End Kept.

(** C21. How a fastboot connection ends. Whatever ends it, a disconnect, an error at any
    point or a lapse of activity, no transfer keeps an open sender, so SWUpdate sees the end
    of its stream. If it ended with an error of the session (not only of the closing), no
    status task of a transfer opened on the connection is left running; after an orderly
    disconnect at most one is, that of the download the client did not finish: neither
    opening a further transfer nor the reset after a finished one leaves one behind. *)
Theorem run_releases fuel shutdown l c cfg p w r l' t' w' :
  released w ->
  run fuel shutdown l (tcp_new c cfg p, w) = (Some r, (l', (t', w'))) ->
  released w' /\
  (r <> shutdown -> at_rest (length (w_transfers w)) w') /\
  tracked (length (w_transfers w)) (t_sink t', w').
Proof.
  set (n := length (w_transfers w)). intros Hw. unfold run, abind.
  set (I := fun sw => sw_owned sw /\ tracked n sw).
  assert (t_kept (I := I) (tcp_new c cfg p, w)) as H0.
  { split; [exact Hw|]. apply rest_tracked; [|done]. intros i b Hi Hb. apply lookup_lt_Some in Hb. cbn [snd] in Hb. lia. }
  pose proof (on_conn_kept (I := I) handshake env_only_handshake _ H0) as H1. unfold sync.
  destruct (on_conn handshake (tcp_new c cfg p, w)) as [[u|e] [t1 w1]] eqn:Eh; cbn [snd] in H1.
  2: { intros [= _ _ <- <-]. revert H1. unfold on_conn in Eh.
       destruct (handshake _) as [rh [ch wh]]. injection Eh as _ <- <-. intros [Ho Ht].
       split; [done|]. split; [|done]. intros _. by apply (tracked_rest n _ _ Ht). }
  assert (forall s0 w0, I (s0, w0) -> released (drop_session s0 w0) /\ tracked n (s0, drop_session s0 w0)) as Hdrop.
  { intros s0 w0 [Ho Ht]. split; [by apply drop_session_released|]. unfold drop_session.
    by do 2 (apply tracked_on_transfer; [done|]). }
  pose proof (command_loop_kept (I := I) fuel l (t1, w1) H1) as H2.
  destruct (command_loop fuel l (t1, w1)) as [[[u2|e2]|] [l2 [t2 w2]]]; cbn [snd] in H2; [| |done].
  - intros [= -> _ <- <-]. destruct (Hdrop _ _ H2) as [Hr Ht]. by split_and!.
  - pose proof (on_tsink_kept (I := I) abort si_abort _ H2) as H3.
    assert (s_status (t_sink (on_tsink abort (t2, w2)).2.1) = None) as Hs by done.
    destruct (on_tsink abort (t2, w2)) as [r3 [t3 w3]]. cbn [snd fst] in H3, Hs.
    intros [= _ _ <- <-]. destruct (Hdrop _ _ H3) as [Hr Ht]. split_and!; [done| |done].
    intros _. by apply (tracked_rest n (t_sink t3)).
Qed.

(** ** Runs *)

Module TcpDemo.

Definition config : FastbootTcpConfig := default_tcp_config.

Definition conn (l : list NetIn) : Conn :=
  {| c_in := l; c_inactivity := Some 30; c_out := []; c_write_errors := [] |}.

Definition session (l : list NetIn) : TW :=
  (tcp_new (conn l) config default_params, idle_world sample_env).

(** The command stream cut into awkward pieces. *)
Lemma recv_command_roundtrip_witness :
  exists l' w', recv_command (conn [NData (take 3 (frame (bs "getvar:version")));
        NEnv WSuccess; NData (drop 3 (frame (bs "getvar:version")))], idle_world sample_env)
      = (Ok (Some (bs "getvar:version")), (set_in l' (conn [NData (take 3 (frame (bs "getvar:version")));
        NEnv WSuccess; NData (drop 3 (frame (bs "getvar:version")))]), w')) /\ stream l' = [].
Proof.
  destruct (recv_command_roundtrip (conn [NData (take 3 (frame (bs "getvar:version")));
      NEnv WSuccess; NData (drop 3 (frame (bs "getvar:version")))]) (idle_world sample_env)
      (bs "getvar:version") []) as (l' & w' & H & Hs & _).
  - repeat constructor.
  - reflexivity.
  - vm_compute. discriminate.
  - exists l', w'. split; [exact H|exact Hs].
Defined.

Lemma handshake_accepts_witness :
  exists l' w', handshake (conn [NData (bs "FB"); NData (bs "01rest")], idle_world sample_env)
    = (Ok tt, ({| c_in := l'; c_inactivity := Some 30; c_out := HANDSHAKE; c_write_errors := [] |}, w'))
    /\ stream l' = bs "rest".
Proof.
  destruct (handshake_accepts (conn [NData (bs "FB"); NData (bs "01rest")]) (idle_world sample_env)
      (bs "FB01") (bs "rest")) as (r & l' & w' & H & Hs & Hr).
  - repeat constructor.
  - reflexivity.
  - reflexivity.
  - reflexivity.
  - exists l', w'. rewrite <- (proj2 Hr); [split; [exact H|exact Hs]|].
    split; [reflexivity|]. split; [eexists; vm_compute; reflexivity|].
    exists 1. split; [vm_compute; reflexivity|]. vm_compute. discriminate.
Defined.

(** A six byte image in two frames, read in three pieces. *)
Definition pieces : list NetIn :=
  [NData (frame (bs "abcd") ++ take 5 (frame (bs "ef"))); NEnv (WBackend 0 EvConnectOk);
   NData (drop 5 (frame (bs "ef")) ++ bs "tail")].

Definition opened : TW := (on_tsink open (session pieces)).2.

Lemma opened_live : Link 0 (t_sink opened.1) opened.2 [] Live.
Proof.
  pose proof (link_open 0 (session_new default_params RECV_BUFFER_SIZE) (idle_world sample_env)
    eq_refl eq_refl eq_refl) as H.
  unfold opened, on_tsink. cbn [session fst snd t_sink tcp_new].
  destruct (open _) as [[u|e] [s w]] eqn:E; [apply H|]. vm_compute in E. discriminate.
Qed.

Lemma opened_ok : world_ok opened.2.
Proof.
  pose proof (open_inv (P := backend_ok) (C := fun cap => 0 < cap)
    (session_new default_params RECV_BUFFER_SIZE, idle_world sample_env)
    (conj (Forall_nil_2 _) (queue_capacity_pos _))) as [H _].
  unfold opened, on_tsink. cbn [session fst snd t_sink tcp_new].
  destruct (open _) as [r [s w]]. exact H.
Qed.

Lemma stream_download_delivers_witness :
  phase_outcome 0 [] (bs "abcdef") (bs "tail") opened.1
    (stream_download 6 [] (opened.1, opened.2)).
Proof.
  apply (stream_download_delivers 0 opened.1 opened.2 [] [bs "abcd"; bs "ef"] (bs "tail") []).
  - repeat constructor.
  - reflexivity.
  - repeat constructor; discriminate.
  - reflexivity.
  - exact opened_live.
  - exact opened_ok.
Defined.

Lemma finish_download_reports_verdict_witness :
  let l := [WBackend 0 EvConnectOk; WBackend 0 (EvStatus (Returned (Ok tt)))] in
  match finish_download l (opened.1, opened.2) with
  | (Some r, (_, (t', w'))) => r = Ok tt /\ exists b, w_transfers w' !! 0%nat = Some b /\
      c_out (t_conn t') = frame (if reports_success opened.1 b then OKAY else FAIL_CLOSE)
  | (None, (l', _)) => l' = []
  end.
Proof.
  intros l. pose proof (proj2 (finish_download_reports_verdict 0 opened.1 opened.2 [] Live l
    opened_live eq_refl) eq_refl (or_introl eq_refl)) as H.
  destruct (finish_download l (opened.1, opened.2)) as [[r|] [l' [t' w']]]; [|exact (proj1 H)].
  destruct H as (Hr & _ & _ & _ & b & Hb & _ & _ & Hout).
  split; [exact Hr|]. exists b. split; [exact Hb|exact Hout].
Defined.

(** The replies of a run, without the greeting. *)
Definition replies (n : nat) (script : list NetIn) (l : list wevent) : option (io_result unit) * list byte :=
  let o := run n (Ok tt) l (session script) in (o.1, drop 4 (c_out (t_conn o.2.2.1))).

Definition cmd (s : string) : NetIn := NData (frame (bs s)).

(** A client that downloads and flashes an image SWUpdate accepts. *)
Example whole_session :
  replies 9 [NData (bs "FB01"); cmd "download:00000006"; NEnv (WBackend 0 EvConnectOk);
             cmd "abcd"; cmd "ef"; cmd "flash:swu"]
    [WBackend 0 (EvStatus (Returned (Ok tt)))]
  = (Some (Ok tt), frame (bs "DATA00000006") ++ frame OKAY ++ frame INFO_WAIT_SWUPDATE ++ frame OKAY).
Proof. vm_compute. reflexivity. Qed.

(** A frame without data in the middle of a download: the read of no bytes is
    taken for the end of the connection, which is still open. *)
Example empty_frame_ends_session :
  replies 9 [NData (bs "FB01"); cmd "download:00000006"; NEnv (WBackend 0 EvConnectOk);
             cmd "abcd"; NData (frame []); cmd "ef"; cmd "flash:swu"] []
  = (Some (Err (Custom KUnexpectedEof "connection closed mid-download")), frame (bs "DATA00000006")).
Proof. vm_compute. reflexivity. Qed.

(** SWUpdate stops reading once it has what it needs and then succeeds: the
    block that finds the queue closed learns of the success, the data phase is
    acknowledged, and the flash that follows is answered with a failure. *)
Example early_success_fails_flash :
  replies 9 [NData (bs "FB01"); cmd "download:00000006"; NEnv (WBackend 0 EvConnectOk); cmd "abcd";
             NEnv (WBackend 0 (EvWriteErr 2)); cmd "ef"; cmd "flash:swu"]
    [WBackend 0 (EvStatus (Returned (Ok tt)))]
  = (Some (Ok tt), frame (bs "DATA00000006") ++ frame OKAY ++ frame INFO_WAIT_SWUPDATE ++ frame FAIL_CLOSE).
Proof. vm_compute. reflexivity. Qed.

(** A client that goes away in the middle of a download. *)
Definition lost : list NetIn :=
  [NData (bs "FB01"); cmd "download:00000006"; NEnv (WBackend 0 EvConnectOk); cmd "abcd"].

Lemma run_releases_witness :
  exists r l t w, run 9 (Ok tt) [] (session lost) = (Some r, (l, (t, w))) /\ released w /\
    length (w_transfers w) = 1%nat.
Proof.
  destruct (run 9 (Ok tt) [] (session lost)) as [[r|] [l [t w]]] eqn:E; [|vm_compute in E; discriminate E].
  exists r, l, t, w. split; [reflexivity|]. split.
  - refine (proj1 (run_releases 9 (Ok tt) [] _ _ _ _ _ _ _ _ _ E)). intros i b H. destruct i; discriminate H.
  - vm_compute in E. injection E as _ _ _ <-. reflexivity.
Defined.

End TcpDemo.
