(* ===== verification/FastbootUsb.v ===== *)
(** * Fastboot over USB

    Models crates/summit-usbgadget-fastboot-usb: the state and its teardown, the
    commands (commands.rs), the bulk data path with its connected loop
    (state.rs), the control plane and the configuration (lib.rs). The bulk OUT
    endpoint is scripted at the level of packets: a read completes when its
    buffer is full or a packet shorter than the maximum packet size ends it. *)

From S2P Require Import Prelude Io Bytes SysInfo Session Link FunctionFs FastbootProto.

(** ** The bulk endpoints *)

(** What the host and the bus do on the OUT endpoint: a packet, a failed read,
    silence for as long as the stall timeout, or background events. *)
Inductive RxIn :=
| RPacket (p : list byte)
| RErr (e : io_error)
| RStall
| REnv (ev : wevent).

(** The receive queue has one slot: the read in flight with the length of its
    buffer and what it has received so far. *)
Record Rx := {
  rx_mps : Z;
  rx_query : io_result Z;
  rx_inflight : option (Z * list byte);
  rx_in : list RxIn;
  rx_submit : list (option io_error);
}.

Definition rx_set (fl : option (Z * list byte)) (l : list RxIn) (r : Rx) : Rx :=
  {| rx_mps := rx_mps r; rx_query := rx_query r; rx_inflight := fl; rx_in := l;
     rx_submit := rx_submit r |}.

Definition rx_is_empty (r : Rx) : bool := negb (isSome (rx_inflight r)).

Definition rx_cancel (r : Rx) : Rx := rx_set None (rx_in r) r.

(** [try_recv]: enqueues a buffer of [cap] bytes. *)
Definition rx_try_recv (cap : Z) (r : Rx) : io_result unit * Rx :=
  match rx_submit r with
  | Some e :: errs => (Err e, {| rx_mps := rx_mps r; rx_query := rx_query r;
      rx_inflight := rx_inflight r; rx_in := rx_in r; rx_submit := errs |})
  | errs => (Ok tt, {| rx_mps := rx_mps r; rx_query := rx_query r;
      rx_inflight := Some (cap, []); rx_in := rx_in r; rx_submit := tail errs |})
  end.

Definition EOVERFLOW : Z := 75.

Definition stalled : io_error := Custom KTimedOut "timed out waiting for fastboot-usb download data".

(** [fetch_async], under the stall timeout when [timed]. [None]: pending. *)
Fixpoint fetch_script (timed : bool) (mps cap : Z) (acc : list byte) (l : list RxIn) (w : World)
    : option (io_result (option block)) * (option (Z * list byte) * list RxIn * World) :=
  match l with
  | [] => (None, (Some (cap, acc), [], w))
  | RPacket p :: l =>
      let acc := acc ++ p in
      if cap <? Z.of_nat (length acc) then (Some (Err (Os EOVERFLOW)), (None, l, w))
      else if (Z.of_nat (length p) <? mps) || (Z.of_nat (length acc) =? cap)
      then (Some (Ok (Some acc)), (None, l, w))
      else fetch_script timed mps cap acc l w
  | RErr e :: l => (Some (Err e), (None, l, w))
  | RStall :: l =>
      if timed then (Some (Err stalled), (Some (cap, acc), l, w))
      else fetch_script timed mps cap acc l w
  | REnv ev :: l => fetch_script timed mps cap acc l (wstep ev w)
  end.

(** The IN endpoint: the transfers the host has read. *)
Record Tx := {
  tx_out : list (list byte);
  tx_errors : list (option io_error);
}.

(** ** The state *)

Definition RECV_BUFFER_SIZE : Z := 16 * 1024.

Record FastbootUsbFnConfig := { fu_swupdate : SwupdateConfig }.

Definition to_swupdate_params (c : FastbootUsbFnConfig) : result SwupdateParams SwupdateConfigError :=
  to_params (fu_swupdate c).

Record FastbootUsbState := {
  u_rx_max_packet_size : Z;
  u_rx_max_packet_size_default : Z;
  u_rx : Rx;
  u_tx : Tx;
  u_download_params : SwupdateParams;
  u_download : option Session;
  u_session_open : bool;
  u_serial : string;
  u_download_size : Z;
  u_downloaded_size : Z;
  u_pending_flash : bool;
  u_finish_pending : bool;
  u_pending_fail_reply : option (list byte);
  u_gadget_torn_down : bool;
}.

Definition state_new (rx : Rx) (tx : Tx) (download : SwupdateParams) (serial : string) (mps_default : Z)
    : FastbootUsbState :=
  {| u_rx_max_packet_size := mps_default; u_rx_max_packet_size_default := mps_default;
     u_rx := rx; u_tx := tx; u_download_params := download;
     u_download := Some (session_new download RECV_BUFFER_SIZE); u_session_open := false;
     u_serial := serial; u_download_size := 0; u_downloaded_size := 0; u_pending_flash := false;
     u_finish_pending := false; u_pending_fail_reply := None; u_gadget_torn_down := false |}.

(** Record updates. *)
Definition set_rx (v : Rx) (u : FastbootUsbState) : FastbootUsbState :=
  {| u_rx_max_packet_size := u_rx_max_packet_size u; u_rx_max_packet_size_default := u_rx_max_packet_size_default u;
     u_rx := v; u_tx := u_tx u; u_download_params := u_download_params u; u_download := u_download u;
     u_session_open := u_session_open u; u_serial := u_serial u; u_download_size := u_download_size u;
     u_downloaded_size := u_downloaded_size u; u_pending_flash := u_pending_flash u;
     u_finish_pending := u_finish_pending u; u_pending_fail_reply := u_pending_fail_reply u;
     u_gadget_torn_down := u_gadget_torn_down u |}.
Definition set_tx (v : Tx) (u : FastbootUsbState) : FastbootUsbState :=
  {| u_rx_max_packet_size := u_rx_max_packet_size u; u_rx_max_packet_size_default := u_rx_max_packet_size_default u;
     u_rx := u_rx u; u_tx := v; u_download_params := u_download_params u; u_download := u_download u;
     u_session_open := u_session_open u; u_serial := u_serial u; u_download_size := u_download_size u;
     u_downloaded_size := u_downloaded_size u; u_pending_flash := u_pending_flash u;
     u_finish_pending := u_finish_pending u; u_pending_fail_reply := u_pending_fail_reply u;
     u_gadget_torn_down := u_gadget_torn_down u |}.
Definition set_download (v : option Session) (u : FastbootUsbState) : FastbootUsbState :=
  {| u_rx_max_packet_size := u_rx_max_packet_size u; u_rx_max_packet_size_default := u_rx_max_packet_size_default u;
     u_rx := u_rx u; u_tx := u_tx u; u_download_params := u_download_params u; u_download := v;
     u_session_open := u_session_open u; u_serial := u_serial u; u_download_size := u_download_size u;
     u_downloaded_size := u_downloaded_size u; u_pending_flash := u_pending_flash u;
     u_finish_pending := u_finish_pending u; u_pending_fail_reply := u_pending_fail_reply u;
     u_gadget_torn_down := u_gadget_torn_down u |}.
(** The download's boundary: announced and consumed sizes, and the flags. *)
Definition set_phase (size done : Z) (flash : bool) (u : FastbootUsbState) : FastbootUsbState :=
  {| u_rx_max_packet_size := u_rx_max_packet_size u; u_rx_max_packet_size_default := u_rx_max_packet_size_default u;
     u_rx := u_rx u; u_tx := u_tx u; u_download_params := u_download_params u; u_download := u_download u;
     u_session_open := u_session_open u; u_serial := u_serial u; u_download_size := size;
     u_downloaded_size := done; u_pending_flash := flash;
     u_finish_pending := u_finish_pending u; u_pending_fail_reply := u_pending_fail_reply u;
     u_gadget_torn_down := u_gadget_torn_down u |}.
Definition set_modes (open finish : bool) (fail : option (list byte)) (torn : bool)
    (u : FastbootUsbState) : FastbootUsbState :=
  {| u_rx_max_packet_size := u_rx_max_packet_size u; u_rx_max_packet_size_default := u_rx_max_packet_size_default u;
     u_rx := u_rx u; u_tx := u_tx u; u_download_params := u_download_params u; u_download := u_download u;
     u_session_open := open; u_serial := u_serial u; u_download_size := u_download_size u;
     u_downloaded_size := u_downloaded_size u; u_pending_flash := u_pending_flash u;
     u_finish_pending := finish; u_pending_fail_reply := fail; u_gadget_torn_down := torn |}.
Definition set_mps (v : Z) (u : FastbootUsbState) : FastbootUsbState :=
  {| u_rx_max_packet_size := v; u_rx_max_packet_size_default := u_rx_max_packet_size_default u;
     u_rx := u_rx u; u_tx := u_tx u; u_download_params := u_download_params u; u_download := u_download u;
     u_session_open := u_session_open u; u_serial := u_serial u; u_download_size := u_download_size u;
     u_downloaded_size := u_downloaded_size u; u_pending_flash := u_pending_flash u;
     u_finish_pending := u_finish_pending u; u_pending_fail_reply := u_pending_fail_reply u;
     u_gadget_torn_down := u_gadget_torn_down u |}.

Abbreviation UW := (FastbootUsbState * World)%type.

Definition upd (f : FastbootUsbState -> FastbootUsbState) : M UW unit :=
  modify (fun '(u, w) => (f u, w)).

(** A call of the sink; nothing happens when there is none. *)
Definition on_download {A} (none : io_result A) (m : M SW A) : M UW A := fun '(u, w) =>
  match u_download u with
  | None => (none, (u, w))
  | Some s => let '(r, (s, w)) := m (s, w) in (r, (set_download (Some s) u, w))
  end.
Definition on_download_async {A} (none : io_result A) (m : Async SW A) : Async UW A := fun l '(u, w) =>
  match u_download u with
  | None => (Some none, (l, (u, w)))
  | Some s => let '(r, (l, (s, w))) := m l (s, w) in (r, (l, (set_download (Some s) u, w)))
  end.

(** Replies. *)
Definition send_async (d : list byte) : M UW unit := fun '(u, w) =>
  match tx_errors (u_tx u) with
  | Some e :: errs => (Err e, (set_tx {| tx_out := tx_out (u_tx u); tx_errors := errs |} u, w))
  | errs => (Ok tt, (set_tx {| tx_out := tx_out (u_tx u) ++ [d]; tx_errors := tail errs |} u, w))
  end.

Definition send_static (d : list byte) : M UW unit := send_async d.

(** [let _ = send_static(...)]: a failed reply is ignored. *)
Definition send_reply (d : list byte) : M UW unit := do! _ := attempt (send_static d) in ret tt.

Definition reset_state : M UW unit := modify (fun '(u, w) =>
  (set_download (Some (session_new (u_download_params u) RECV_BUFFER_SIZE))
     (set_phase 0 0 false (set_modes false false None (u_gadget_torn_down u) u)),
   match u_download u with Some s => drop_session s w | None => w end)).

Definition fail_download (reply : list byte) : M UW unit :=
  on_download (Ok tt) abort >>;
  upd (fun u => set_modes (u_session_open u) (u_finish_pending u) (Some reply) (u_gadget_torn_down u) u).

Definition reset (reply : option (list byte)) : M UW unit :=
  upd (fun u => set_rx (rx_cancel (u_rx u)) u) >>;
  on_download (Ok tt) abort >>;
  reset_state >>;
  match reply with Some d => send_reply d | None => ret tt end.

Definition remaining_download_bytes (u : FastbootUsbState) : Z :=
  Z.max 0 (u_download_size u - u_downloaded_size u).

Definition download_active (u : FastbootUsbState) : bool := u_downloaded_size u <? u_download_size u.

Definition in_flight (u : FastbootUsbState) : bool :=
  download_active u || u_pending_flash u || u_finish_pending u.

Definition recv_capacity (u : FastbootUsbState) : Z :=
  if negb (download_active u) then RECV_BUFFER_SIZE else
  let remaining := Z.min (Z.max (remaining_download_bytes u) 1) RECV_BUFFER_SIZE in
  let mps := Z.max (u_rx_max_packet_size u) 1 in
  div_ceil remaining mps * mps.

(** The length of the buffer a read is submitted with; full-sized buffers come
    from the sink's pool. *)
Definition recv_buffer : M UW Z := fun '(u, w) =>
  let capacity := recv_capacity u in
  if RECV_BUFFER_SIZE <=? capacity then
    let '(_, uw) := on_download (Ok []) buffer (u, w) in (Ok RECV_BUFFER_SIZE, uw)
  else (Ok capacity, (u, w)).

(** ** Commands (commands.rs) *)

Definition send_data_header (len : Z) : M UW unit := send_async (data_header len).

Definition begin_download_command : M UW bool :=
  do! r := attempt (on_download (Err (other "no download")) open) in
  match r with
  | Ok _ => ret true
  | Err _ => send_reply FAIL_OPEN >>; ret false
  end.

Definition download_is_open (u : FastbootUsbState) : bool :=
  match u_download u with Some s => is_open s | None => false end.

Definition start_finish_download_command : M UW bool :=
  do! opened := gets (fun uw : UW => download_is_open uw.1) in
  if negb opened then send_reply FAIL_CLOSE >>; ret false
  else
    on_download (Ok tt) eof >>;
    upd (fun u => set_modes (u_session_open u) true (u_pending_fail_reply u) (u_gadget_torn_down u) u) >>;
    ret true.

Definition handle_wopen_command : M UW bool :=
  do! begun := begin_download_command in
  if negb begun then ret false
  else
    upd (fun u => set_modes true (u_finish_pending u) (u_pending_fail_reply u) (u_gadget_torn_down u)
      (set_phase (u_download_size u) (u_downloaded_size u) false u)) >>;
    send_reply OKAY >>; ret true.

Definition handle_fetch_command : M UW bool :=
  do! json := gets (fun uw : UW => system_info_json (w_env uw.2)) in
  do! r := attempt (send_data_header (Z.of_nat (length json))) in
  if is_err r then ret false else
  do! r := attempt (send_async json) in
  if is_err r then ret false else
  send_reply OKAY >>; ret true.

Definition start_download_transfer (len : Z) (kind : DownloadKind) : M UW bool :=
  do! opened := gets (fun uw : UW => download_is_open uw.1) in
  do! begun := (if opened then ret true else begin_download_command) in
  if negb begun then ret false else
  do! r := attempt (send_data_header len) in
  if is_err r then reset None >>; ret false else
  upd (fun u => set_phase len 0
    (match kind with Fastboot => true | Plain => negb (u_session_open u) end) u) >>;
  (if len =? 0 then upd (fun u => set_phase 0 0 (u_pending_flash u) u) >>; send_reply OKAY
   else ret tt) >>;
  ret true.

Definition finish_flash_download : M UW bool := fun '(u, w) =>
  (if negb (u_pending_flash u) then send_reply FAIL_FLASH >>; ret false
   else if download_active u then send_reply FAIL_BADSIZE >>; ret false
   else
     send_reply INFO_WAIT_SWUPDATE >>;
     do! started := start_finish_download_command in
     if negb started then
       upd (fun u => set_phase (u_download_size u) (u_downloaded_size u) false u) >>; ret false
     else ret true) (u, w).

Definition handle_close_command : M UW bool := start_finish_download_command.

Definition handle_getvar_command (arg : string) : M UW bool :=
  do! r := gets (fun uw : UW => fastboot_getvar_reply (w_env uw.2) arg (u_serial uw.1)) in
  match r with
  | Some reply => do! _ := attempt (send_async reply) in ret true
  | None => send_reply FAIL_CMD >>; ret false
  end.

(** The flag and what is left of the chunk. *)
Definition handle_command_chunk (chunk : list byte) : M UW (bool * list byte) :=
  match parse_command chunk with
  | None => ret (false, chunk)
  | Some (command, consumed) =>
      do! handled := match command with
        | WOpen => handle_wopen_command
        | GetVar arg => handle_getvar_command arg
        | Fetch _ => handle_fetch_command
        | FetchUnknownPart => send_reply FAIL_UNKNOWN_PART >>; ret false
        | Download len kind => start_download_transfer len kind
        | Flash => finish_flash_download
        | Close => handle_close_command
        | Unsupported => send_reply FAIL_CMD >>; ret false
        end in
      ret (handled, drop consumed chunk)
  end.

(** ** The data phase (state.rs) *)

(** The result of an awaited call as a value. *)
Definition aattempt {S A} (m : Async S A) : Async S (io_result A) := fun l s =>
  match m l s with
  | (Some r, ls) => (Some (Ok r), ls)
  | (None, ls) => (None, ls)
  end.

(** [try_send], and [send] when the queue is full. *)
Definition feed_download (chunk : block) : Async UW (io_result unit) :=
  await! r := sync (attempt (on_download (Err (other "no download")) (try_send chunk))) in
  match r with
  | Ok (FeedFull chunk) =>
      await! r := aattempt (on_download_async (Err (other "no download")) (send chunk)) in
      sync (ret (match r with Ok _ => Ok tt | Err e => Err e end))
  | Ok _ => sync (ret (Ok tt))
  | Err e => sync (ret (Err e))
  end.

Definition saturating_add (a b : Z) : Z := Z.min (a + b) usize_max.

(** Bytes that were consumed off the wire. *)
Definition consume (n : Z) : M UW unit :=
  upd (fun u => set_phase (u_download_size u) (saturating_add (u_downloaded_size u) n) (u_pending_flash u) u).

Definition at_boundary (m : M UW unit) : M UW unit := fun '(u, w) =>
  if u_download_size u <=? u_downloaded_size u then m (u, w) else (Ok tt, (u, w)).

Definition handle_download_chunk (chunk : block) : Async UW bool := fun l '(u, w) =>
  if bool_decide (chunk = []) then (Some (Ok true), (l, (u, w))) else
  let chunk_len := Z.of_nat (length chunk) in
  match u_pending_fail_reply u with
  | Some reply =>
      sync (consume chunk_len >>; at_boundary (send_reply reply >>; reset_state) >>; ret true) l (u, w)
  | None =>
      match u_download u with
      | None => sync (reset (Some FAIL_NOTOPEN) >>; ret false) l (u, w)
      | Some _ =>
          (await! outcome := feed_download chunk in
           sync match outcome with
           | Ok _ => consume chunk_len >>; at_boundary (send_reply OKAY) >>; ret true
           | Err err =>
               let reply := if bool_decide (kind err = KNotConnected) then FAIL_NOTOPEN else FAIL_EPIPE in
               consume chunk_len >>;
               fail_download reply >>;
               at_boundary (send_reply reply >>; reset_state) >>; ret true
           end) l (u, w)
      end
  end.

Definition handle_rx_chunk (chunk : block) : Async UW bool := fun l '(u, w) =>
  if negb (download_active u) then
    (await! p := sync (handle_command_chunk chunk) in
     let (handled, chunk) := p : bool * list byte in
     fun l '(u, w) =>
     if handled && download_active u && negb (bool_decide (chunk = []))
     then handle_download_chunk chunk l (u, w)
     else (Some (Ok true), (l, (u, w)))) l (u, w)
  else
    let remaining := Z.to_nat (remaining_download_bytes u) in
    if (remaining <? length chunk)%nat then
      (await! keep := handle_download_chunk (take remaining chunk) in
       fun l '(u, w) =>
       if negb keep then (Some (Ok false), (l, (u, w)))
       else if download_active u then (Some (Ok true), (l, (u, w)))
       else handle_download_chunk (drop remaining chunk) l (u, w)) l (u, w)
    else handle_download_chunk chunk l (u, w).

(** [submit_recv]: one read in flight at a time. *)
Definition submit_recv : M UW unit := fun '(u, w) =>
  if negb (rx_is_empty (u_rx u)) then (Ok tt, (u, w)) else
  (do! cap := recv_buffer in
   fun '(u, w) =>
   let (r, rx) := rx_try_recv cap (u_rx u) in
   let u := set_rx rx u in
   match r with
   | Err err =>
       if is_closed_transport_error err
       then (Ok tt, (set_modes (u_session_open u) (u_finish_pending u) (u_pending_fail_reply u) true u, w))
       else (Ok tt, (u, w))
   | Ok _ => (Ok tt, (u, w))
   end) (u, w).

Definition on_recv (data_res : io_result (option block)) : Async UW bool := fun l '(u, w) =>
  match data_res with
  | Ok (Some chunk) => handle_rx_chunk chunk l (u, w)
  | Ok None => (Some (Ok true), (l, (u, w)))
  | Err err =>
      if bool_decide (kind err = KTimedOut) then
        if in_flight u then sync (reset (Some FAIL_BADSIZE) >>; ret false) l (u, w)
        else (Some (Ok true), (l, (u, w)))
      else if is_closed_transport_error err then
        sync (upd (fun u => set_modes (u_session_open u) (u_finish_pending u) (u_pending_fail_reply u) true u) >>;
              reset None >>; ret false) l (u, w)
      else sync (reset (Some FAIL_BADSIZE) >>; ret false) l (u, w)
  end.

(** [fetch_async]; a read that is pending keeps what it has received. *)
Definition fetch (timed : bool) : Async UW (io_result (option block)) := fun l '(u, w) =>
  match rx_inflight (u_rx u) with
  | None => (Some (Ok (Ok None)), (l, (u, w)))
  | Some (cap, acc) =>
      let '(r, (fl, rest, w)) := fetch_script timed (rx_mps (u_rx u)) cap acc (rx_in (u_rx u)) w in
      ((fun r => Ok r) <$> r, (l, (set_rx (rx_set fl rest (u_rx u)) u, w)))
  end.

Definition transfer_step : Async UW bool := fun l '(u, w) =>
  if u_finish_pending u then
    (await! status := aattempt (on_download_async (Ok tt) finished) in
     sync (reset_state >>;
           match status with Ok _ => send_reply OKAY | Err _ => send_reply FAIL_CLOSE end >>;
           ret true)) l (u, w)
  else
    (await! data_res := fetch (download_active u) in on_recv data_res) l (u, w).

(** ** The enable signal *)

(** A [tokio::sync::watch] channel: the value, its version, the version the
    receiver has seen, and whether the sender is gone. *)
Record Watch := {
  wt_value : bool;
  wt_version : nat;
  wt_seen : nat;
  wt_closed : bool;
}.

Definition watch_channel (v : bool) : Watch :=
  {| wt_value := v; wt_version := 0; wt_seen := 0; wt_closed := false |}.

(** What the control loop does to it. *)
Inductive Ctl := CtlSend (v : bool) | CtlClosed.

Definition watch_step (wt : Watch) (c : Ctl) : Watch :=
  match c with
  | CtlSend v => {| wt_value := v; wt_version := S (wt_version wt); wt_seen := wt_seen wt;
                    wt_closed := wt_closed wt |}
  | CtlClosed => {| wt_value := wt_value wt; wt_version := wt_version wt; wt_seen := wt_seen wt;
                    wt_closed := true |}
  end.

Definition mark_seen (wt : Watch) : Watch :=
  {| wt_value := wt_value wt; wt_version := wt_version wt; wt_seen := wt_version wt;
     wt_closed := wt_closed wt |}.

(** [changed]: [None] while it waits. *)
Definition changed (wt : Watch) : option (bool * Watch) :=
  if negb (wt_version wt =? wt_seen wt)%nat then Some (true, mark_seen wt)
  else if wt_closed wt then Some (false, wt)
  else None.

Definition borrow_and_update (wt : Watch) : bool * Watch := (wt_value wt, mark_seen wt).

(** The control plane publishes the host's configured state. *)
#[global] Instance FastbootControl : EventHandler Watch := {|
  handle_event ev := fun '(wt, w) =>
    match ev with
    | Enable => (Ok None, (watch_step wt (CtlSend true), w))
    | Disable | Unbind => (Ok None, (watch_step wt (CtlSend false), w))
    | SetupHostToDevice _ data => (Ok None, (wt, wsteps (ds_env data) w))
    | SetupDeviceToHost _ sent => (Ok (if is_ok sent then Some [] else None), (wt, w))
    | _ => (Ok None, (wt, w))
    end;
  on_transport_closed := ret tt;
  idle_timeout _ := None;
  on_idle_timeout := ret tt;
|}.

(** ** The connected loop *)

(** One turn of the loop: the signals that are there when it waits, the
    background events during the transfer step, and the signals that interrupt
    the step while it waits. *)
Record Round := {
  rd_before : list Ctl;
  rd_sched : list wevent;
  rd_after : list Ctl;
}.

Abbreviation DL := (Watch * UW)%type.

(** Whether the loop is still waiting in its turn, has another one, or has
    ended. A run that ends while the loop waits ends there. *)
Inductive Turn := Parked | Again | Gone.

Definition check_swupdate : M UW unit := fun '(u, w) =>
  if negb (u_finish_pending u) && download_active u && negb (isSome (u_pending_fail_reply u)) then
    match u_download u with
    | Some s =>
        if is_open s then
          let '(r, (s, w)) := try_finished (s, w) in
          let u := set_download (Some s) u in
          match r with
          | Some (Err _) => fail_download FAIL_EPIPE (u, w)
          | _ => (Ok tt, (u, w))
          end
        else (Ok tt, (u, w))
    | None => (Ok tt, (u, w))
    end
  else (Ok tt, (u, w)).

(** The [enabled.changed()] arm: [None] while there is nothing to see. *)
Definition on_signal : DL -> option (Turn * DL) := fun '(wt, uw) =>
  match changed wt with
  | None => None
  | Some (ok, wt) =>
      if negb ok || negb (wt_value wt) then Some (Gone, (wt, (reset None uw).2))
      else Some (Again, (wt, uw))
  end.

Definition connected_turn (rd : Round) : DL -> Turn * DL := fun '(wt, uw) =>
  let uw := (submit_recv (check_swupdate uw).2).2 in
  if u_gadget_torn_down uw.1 then (Gone, (wt, (reset None uw).2)) else
  let ready := negb (rx_is_empty (u_rx uw.1)) || u_finish_pending uw.1 in
  let wt := foldl watch_step wt (rd_before rd) in
  match on_signal (wt, uw) with
  | Some out => out
  | None =>
      let '(step, (_, uw)) :=
        if ready then transfer_step (rd_sched rd) uw
        else (None, ([], (uw.1, wsteps (rd_sched rd) uw.2))) in
      match step with
      | Some (Ok true) => (Again, (wt, uw))
      | Some _ => (Gone, (wt, uw))
      | None =>
          let wt := foldl watch_step wt (rd_after rd) in
          default (Parked, (wt, uw)) (on_signal (wt, uw))
      end
  end.

Fixpoint connected_loop (rounds : list Round) (d : DL) : bool * (list Round * DL) :=
  match rounds with
  | [] => (true, ([], d))
  | rd :: rounds =>
      match connected_turn rd d with
      | (Gone, d) => (false, (rounds, d))
      | (Again, d) => connected_loop rounds d
      | (Parked, d) => (true, (rounds, d))
      end
  end.

(** [serve_connected]; [true] when the run ends inside it. *)
Definition serve_connected (rounds : list Round) : DL -> bool * (list Round * DL) := fun '(wt, (u, w)) =>
  let mps := match rx_query (u_rx u) with Ok n => n | Err _ => u_rx_max_packet_size_default u end in
  connected_loop rounds (wt, (set_mps mps u, w)).

(** [wait_for_enabled]: [None] when the run ends while it waits. *)
Fixpoint wait_for_enabled (rounds : list Round) (d : DL) : option bool * (list Round * DL) :=
  match rounds with
  | [] => (None, ([], d))
  | rd :: rounds =>
      let '(wt, (u, w)) := d in
      let wt := foldl watch_step wt (rd_before rd ++ rd_after rd) in
      let w := wsteps (rd_sched rd) w in
      match changed wt with
      | None => wait_for_enabled rounds (wt, (u, w))
      | Some (false, wt) => (Some false, (rounds, (wt, (u, w))))
      | Some (true, wt) =>
          if wt_value wt then (Some true, (rounds, (wt, (u, w))))
          else if wt_closed wt then (Some false, (rounds, (wt, (u, w))))
          else wait_for_enabled rounds (wt, (u, w))
      end
  end.

(** [data_loop]; a connected phase uses up at least one round, so their number
    bounds the phases. [true] when the control loop has ended. *)
Fixpoint data_loop_from (fuel : nat) (accept_current : bool) (rounds : list Round) (d : DL) : bool * DL :=
  match fuel with
  | O => (false, d)
  | S fuel =>
      let '(en, (rounds, d)) :=
        if accept_current && wt_value d.1 then (Some true, (rounds, (mark_seen d.1, d.2)))
        else wait_for_enabled rounds ((if accept_current then mark_seen d.1 else d.1), d.2) in
      match en with
      | None => (false, d)
      | Some false => (true, d)
      | Some true =>
          let d := (d.1, (set_modes (u_session_open d.2.1) (u_finish_pending d.2.1)
                            (u_pending_fail_reply d.2.1) false d.2.1, d.2.2)) in
          let '(inside, (rounds, d)) := serve_connected rounds d in
          if inside then (false, d) else data_loop_from fuel false rounds d
      end
  end.

Definition data_loop (rounds : list Round) (d : DL) : bool * DL :=
  data_loop_from (S (length rounds)) true rounds d.
