(* ===== verification/UsbDelivery.v ===== *)
(** * Fastboot over USB: what a data phase delivers

    The bulk reads of a download are sized so that they end exactly at the
    download's boundary, whatever the host's packets; every announced byte is
    consumed, fed to SWUpdate in order, and answered with one reply. A failure
    of SWUpdate during the download is reported at the boundary too, and a
    connection that is lost leaves nothing behind. *)

From S2P Require Import Prelude Io Bytes SysInfo Session Link Pump Net FunctionFs FastbootProto FastbootUsb.

(** ** The length of a read *)

Lemma recv_capacity_active u :
  download_active u = true ->
  let mps := Z.max (u_rx_max_packet_size u) 1 in
  let goal := Z.min (u_download_size u - u_downloaded_size u) RECV_BUFFER_SIZE in
  (mps | recv_capacity u) /\ goal <= recv_capacity u < goal + mps.
Proof.
  intros Hact. simpl. unfold recv_capacity. rewrite Hact. cbn [negb].
  unfold download_active in Hact. apply Z.ltb_lt in Hact.
  assert (0 < Z.max (u_rx_max_packet_size u) 1) as Hmps by lia.
  set (mps := Z.max _ 1) in *. unfold remaining_download_bytes, RECV_BUFFER_SIZE.
  split; [by exists (div_ceil (Z.min (Z.max (Z.max 0 (u_download_size u - u_downloaded_size u)) 1) (16 * 1024)) mps)|].
  pose proof (div_ceil_bounds (Z.min (Z.max (Z.max 0 (u_download_size u - u_downloaded_size u)) 1) (16 * 1024))
    mps Hmps). lia.
Qed.

Lemma recv_capacity_le u :
  (Z.max (u_rx_max_packet_size u) 1 | RECV_BUFFER_SIZE) -> recv_capacity u <= RECV_BUFFER_SIZE.
Proof.
  intros Hdiv. destruct (download_active u) eqn:Hact.
  2: { unfold recv_capacity. rewrite Hact. cbn [negb]. lia. }
  destruct (recv_capacity_active u Hact) as [Hd [Hlo Hhi]].
  assert (0 < Z.max (u_rx_max_packet_size u) 1) as Hmps by lia. set (mps := Z.max _ 1) in *.
  destruct Hd as [k Hk], Hdiv as [j Hj]. rewrite Hk in *.
  assert (k * mps < (j + 1) * mps) by lia. assert (k < j + 1) by nia. rewrite Hj. nia.
Qed.

(** Every bulk read is submitted with a length the hardware accepts: a
    positive multiple of the maximum packet size, never more than the 16 KiB one
    request may have when that size divides it, and during a download never a
    whole packet more than what is left of it. *)
Theorem recv_capacity_bounds u :
  let mps := Z.max (u_rx_max_packet_size u) 1 in
  (mps | RECV_BUFFER_SIZE) ->
  (mps | recv_capacity u) /\ 0 < recv_capacity u <= RECV_BUFFER_SIZE /\
  (download_active u = true ->
   Z.min (remaining_download_bytes u) RECV_BUFFER_SIZE <= recv_capacity u
     < remaining_download_bytes u + mps).
Proof.
  intros mps Hdiv. pose proof (recv_capacity_le u Hdiv) as Hle. destruct (download_active u) eqn:Hact.
  2: { unfold recv_capacity in *. rewrite Hact in *. cbn [negb] in *. unfold RECV_BUFFER_SIZE in *.
       split; [done|]. split; [lia|done]. }
  destruct (recv_capacity_active u Hact) as [Hd [Hlo Hhi]]. fold mps in Hd, Hhi.
  unfold download_active in Hact. apply Z.ltb_lt in Hact. unfold remaining_download_bytes.
  split; [done|]. split; [unfold RECV_BUFFER_SIZE in *; lia|intros _; lia].
Qed.

Lemma recv_capacity_bounds_witness :
  let u := set_phase 1000 0 true (state_new {| rx_mps := 512; rx_query := Ok 512; rx_inflight := None;
    rx_in := []; rx_submit := [] |} {| tx_out := []; tx_errors := [] |} default_params "s" 512) in
  0 < recv_capacity u <= RECV_BUFFER_SIZE.
Proof.
  intros u. destruct (recv_capacity_bounds u) as (_ & H & _); [by exists 32|exact H].
Defined.

(** ** Reads of a host's transfer *)

(** [Sends mps data script rest]: the host sends [data] as full packets, the
    last one possibly short and without a terminating empty packet; background
    events may happen in between; [rest] follows. *)
Inductive Sends (mps : Z) : list byte -> list RxIn -> list RxIn -> Prop :=
| sends_done rest : Sends mps [] rest rest
| sends_env ev data l rest : Sends mps data l rest -> Sends mps data (REnv ev :: l) rest
| sends_full p data l rest :
    Z.of_nat (length p) = mps -> Sends mps data l rest -> Sends mps (p ++ data) (RPacket p :: l) rest
| sends_short p rest :
    0 < Z.of_nat (length p) < mps -> Sends mps p (RPacket p :: rest) rest.

(** A read of a multiple of the packet size that does not reach past the data's
    last packet completes with exactly its share of the data. *)
Lemma fetch_sends timed mps cap data l rest acc w :
  Sends mps data l rest -> 0 < mps -> data <> [] ->
  (mps | cap) -> (mps | Z.of_nat (length acc)) -> Z.of_nat (length acc) < cap ->
  cap - Z.of_nat (length acc) < Z.of_nat (length data) + mps ->
  let got := take (Z.to_nat (cap - Z.of_nat (length acc))) data in
  exists l' w', fetch_script timed mps cap acc l w = (Some (Ok (Some (acc ++ got))), (None, l', w')) /\
    Sends mps (drop (Z.to_nat (cap - Z.of_nat (length acc))) data) l' rest /\ same_world w w'.
Proof.
  intros HS Hmps. revert acc w. induction HS as [rest|ev data l rest HS IH|p data l rest Hp HS IH|p rest Hp];
    intros acc w Hne Hcap Hacc Hlt Hgap; cbn [fetch_script]; [done| | |].
  - destruct (IH acc (wstep ev w)) as (l' & w' & ? & ? & Hw); try done.
    exists l', w'. do 2 (split; [done|]). destruct Hw as [evs ->]. by exists (ev :: evs).
  - destruct Hcap as [c ->], Hacc as [a Ha]. assert (a + 1 <= c) by nia.
    rewrite length_app, Nat2Z.inj_add, Hp, Ha in *.
    replace (c * mps <? a * mps + mps) with false by nia.
    replace (mps <? mps) with false by lia. cbn [orb].
    destruct (Z.eqb_spec (a * mps + mps) (c * mps)) as [Heq|Hneq].
    + exists l, w. replace (Z.to_nat (c * mps - a * mps)) with (length p) by lia.
      rewrite take_app_length, drop_app_length. split; [done|]. split; [done|apply same_world_refl].
    + assert (a + 2 <= c) by nia.
      destruct (IH (acc ++ p) w) as (l' & w' & Hr & Hs & Hw).
      * intros ->. simpl in Hgap. nia.
      * by exists c.
      * exists (a + 1). rewrite length_app. lia.
      * rewrite length_app. nia.
      * rewrite length_app. lia.
      * rewrite length_app, Nat2Z.inj_add, Hp, Ha in Hr, Hs.
        exists l', w'. rewrite Hr.
        replace (Z.to_nat (c * mps - a * mps)) with (length p + Z.to_nat (c * mps - (a * mps + mps)))%nat by nia.
        rewrite take_app_add, drop_app_add, <- app_assoc. done.
  - destruct Hcap as [c ->], Hacc as [a Ha]. assert (a + 1 <= c) by nia.
    rewrite length_app, Nat2Z.inj_add, Ha in *.
    replace (c * mps <? a * mps + Z.of_nat (length p)) with false by nia.
    replace (Z.of_nat (length p) <? mps) with true by lia. cbn [orb].
    assert (length p <= Z.to_nat (c * mps - a * mps))%nat by nia.
    exists rest, w. rewrite take_ge, drop_ge by done. split; [done|].
    split; [constructor|apply same_world_refl].
Qed.

(** ** The sink during a data phase *)

(** [sink_at n s w F]: the sink is linked to transfer [n], which has accepted
    exactly [F], or has stopped accepting at a prefix of it. *)
Definition sink_at (n : nat) (s : Session) (w : World) (F : list byte) : Prop :=
  world_ok w /\ exists L m, Link n s w L m /\
    ((m = Live /\ L = F) \/ ((m = Ended \/ m = Dead) /\ L `prefix_of` F)).

Lemma sink_at_world n s w w' F : same_world w w' -> sink_at n s w F -> sink_at n s w' F.
Proof.
  intros Hw (Hok & L & m & HL & Hm). split; [by eapply same_world_ok|].
  exists L, m. split; [by eapply same_world_link|done].
Qed.

Lemma sink_at_opened n s w L m F :
  world_ok w -> Link n s w L m -> m <> Unopened -> (m = Live -> L = F) -> L `prefix_of` F -> sink_at n s w F.
Proof. intros Hok HL Hm H1 H2. split; [done|]. exists L, m. split; [done|]. destruct m; [done|left|right|right]; auto. Qed.

Lemma sink_at_buffer n s w F :
  sink_at n s w F -> exists w', buffer (s, w) = (Ok [], (s, w')) /\ sink_at n s w' F.
Proof.
  intros (Hok & L & m & HL & Hm). destruct (link_buffer n s w L m HL) as (w' & Hb & HL').
  exists w'. split; [done|]. split; [|by exists L, m].
  pose proof (buffer_inv (P := backend_ok) (C := fun cap => 0 < cap) (s, w)
    (conj Hok (queue_capacity_pos _))) as [H _]. by rewrite Hb in H.
Qed.

Lemma sink_at_poll n s w F r s' w' :
  poll_status (s, w) = (r, (s', w')) -> sink_at n s w F -> sink_at n s' w' F.
Proof.
  intros E (Hok & L & m & HL & Hm). split.
  - pose proof (poll_status_inv (P := backend_ok) (C := fun cap => 0 < cap) (s, w)
      (conj Hok (queue_capacity_pos _))) as [H _]. by rewrite E in H.
  - exists L, m. split; [|done]. by destruct (link_poll_status _ _ _ _ _ _ _ _ E HL).
Qed.

(** A chunk is accepted in order or discarded; the sink cannot fail. *)
Lemma feed_download_ok n u w s F chunk l :
  u_download u = Some s -> sink_at n s w F ->
  match feed_download chunk l (u, w) with
  | (Some r, (_, (u', w'))) =>
      r = Ok (Ok tt) /\ exists s', u' = set_download (Some s') u /\ sink_at n s' w' (F ++ chunk)
  | (None, (_, (_, w'))) => full n F w'
  end.
Proof.
  intros Hs (Hok & L & m & HL & Hm). unfold feed_download, abind at 1, sync, attempt, on_download.
  rewrite Hs. pose proof (link_try_send n s w L m chunk HL Hok) as Ht.
  pose proof (try_send_inv (P := backend_ok) (Q := fun _ => True) (C := fun cap => 0 < cap) chunk I (s, w)
    (conj Hok (queue_capacity_pos _))) as [Hok1 _].
  destruct (try_send chunk (s, w)) as [[[k|item|]|e] [s1 w1]]; cbn [fst snd] in *.
  - destruct Ht as (_ & Hml & HL1). split; [done|]. exists s1. split; [done|].
    eapply sink_at_opened; [done|exact HL1|done| |]; destruct Hm as [[-> ->]|[[-> | ->] _]]; try done;
      by destruct Hml.
  - destruct Ht as (-> & -> & HL1). destruct Hm as [[_ ->]|[[] _]]; try done.
    unfold abind, aattempt, on_download_async. cbn [u_download set_download].
    pose proof (link_send n chunk l s1 w1 F Live HL1 Hok1) as Hsend.
    destruct (send chunk l (s1, w1)) as [[[f|e]|] [l2 [s2 w2]]] eqn:Es; [|done|by eapply send_waits].
    destruct f as [k|it|]; [destruct Hsend as [Hok2 HL2]|by destruct Hsend as [_ []]|destruct Hsend as [Hok2 HL2]];
      (split; [done|]; exists s2; split; [done|]).
    + by apply (sink_at_opened n s2 w2 (F ++ chunk) Live).
    + eapply sink_at_opened; [done|exact HL2|done|done|by eexists].
  - split; [done|]. exists s1. split; [done|].
    assert (exists m1, Link n s1 w1 L m1 /\ (m1 = Ended \/ m1 = Dead)) as (m1 & HL1 & Hm1)
      by (destruct Ht as [[_ ?]|[? ?]]; eauto).
    eapply sink_at_opened; [done|exact HL1|by destruct Hm1 as [-> | ->]|by destruct Hm1 as [-> | ->]|].
    apply (prefix_app_r _ _). destruct Hm as [[_ ->]|[_ ?]]; done.
  - destruct Ht as [-> _]. destruct Hm as [[] |[[] _]]; done.
Qed.

(** ** A data phase *)

Definition is_fail (reply : list byte) : Prop := reply = FAIL_EPIPE \/ reply = FAIL_NOTOPEN.

(** In the middle of a data phase: [fed] has been consumed, the host goes on to
    send [todo], nothing has been replied since [out]. *)
Record receiving (n : nat) (out : list (list byte)) (F todo : list byte) (rest : list RxIn) (uw : UW)
    : Prop := {
  rc_sends : Sends (rx_mps (u_rx uw.1)) todo (rx_in (u_rx uw.1)) rest;
  rc_mps : u_rx_max_packet_size uw.1 = rx_mps (u_rx uw.1) /\ 0 < rx_mps (u_rx uw.1) /\
    (rx_mps (u_rx uw.1) | RECV_BUFFER_SIZE);
  rc_todo : todo <> [] /\ u_download_size uw.1 - u_downloaded_size uw.1 = Z.of_nat (length todo);
  rc_size : 0 <= u_downloaded_size uw.1 /\ u_download_size uw.1 <= usize_max;
  rc_rx : rx_inflight (u_rx uw.1) = None /\ rx_submit (u_rx uw.1) = [];
  rc_tx : tx_out (u_tx uw.1) = out /\ tx_errors (u_tx uw.1) = [];
  rc_modes : u_finish_pending uw.1 = false /\ u_gadget_torn_down uw.1 = false;
  rc_sink : exists s, u_download uw.1 = Some s /\
    match u_pending_fail_reply uw.1 with
    | None => sink_at n s uw.2 F
    | Some reply => is_fail reply /\ world_ok uw.2
    end;
}.

(** At the boundary: one reply, and the sink has the whole image or the failure
    was reported and the session reset. *)
Record phase_done (n : nat) (out : list (list byte)) (F : list byte) (rest : list RxIn) (uw : UW)
    : Prop := {
  pd_inactive : download_active uw.1 = false;
  pd_rest : Sends (rx_mps (u_rx uw.1)) [] (rx_in (u_rx uw.1)) rest /\ rx_inflight (u_rx uw.1) = None;
  pd_fail : u_pending_fail_reply uw.1 = None;
  pd_reply :
    (tx_out (u_tx uw.1) = out ++ [OKAY] /\ exists s, u_download uw.1 = Some s /\ sink_at n s uw.2 F) \/
    ((exists reply, is_fail reply /\ tx_out (u_tx uw.1) = out ++ [reply]) /\
     u_download uw.1 = Some (session_new (u_download_params uw.1) RECV_BUFFER_SIZE) /\
     u_pending_flash uw.1 = false);
}.

Lemma receiving_active n out F todo rest uw :
  receiving n out F todo rest uw -> download_active uw.1 = true.
Proof.
  intros []. destruct rc_todo0 as [Hne Hlen]. unfold download_active. apply Z.ltb_lt.
  destruct todo; [done|]. simpl in Hlen. lia.
Qed.

(** The check for a failed update before a read. *)
Lemma check_swupdate_receiving n out F todo rest uw :
  receiving n out F todo rest uw -> receiving n out F todo rest (check_swupdate uw).2.
Proof.
  intros H. pose proof (receiving_active _ _ _ _ _ _ H) as Hact.
  destruct uw as [u w]. destruct H as [H1 H2 H3 H4 H5 H6 [H7 H7'] (s & Hs & H8)]. cbn [fst snd] in *.
  unfold check_swupdate. rewrite H7, Hact, Hs. cbn [negb andb].
  destruct (u_pending_fail_reply u) as [reply|] eqn:Ef; cbn [isSome negb].
  { split; try done. exists s. cbn. by rewrite Ef. }
  destruct (is_open s); [|split; try done; exists s; cbn; by rewrite Ef].
  unfold try_finished. destruct (poll_status (s, w)) as [r [s1 w1]] eqn:E.
  pose proof (sink_at_poll n s w F r s1 w1 E H8) as Hs1.
  assert (receiving n out F todo rest (set_download (Some s1) u, w1)) as Hkeep.
  { split; try done. exists s1. cbn. by rewrite Ef. }
  destruct r as [[v|e]|]; [done| |done].
  unfold fail_download, on_download, bind. cbn [u_download set_download].
  destruct Hs1 as [Hok1 _].
  pose proof (abort_inv (P := backend_ok) (C := fun cap => 0 < cap) (s1, w1)
    (conj Hok1 (queue_capacity_pos _))) as [Hok2 _].
  destruct (abort (s1, w1)) as [[v|e2] [s2 w2]] eqn:Ea; [|unfold abort in Ea; discriminate].
  split; try done. exists s2. split; [done|]. cbn. split; [by left|exact Hok2].
Qed.

(** Priming the next read. *)
Lemma submit_recv_receiving n out F todo rest u w :
  receiving n out F todo rest (u, w) ->
  exists w', submit_recv (u, w) = (Ok tt, (set_rx (rx_set (Some (recv_capacity u, [])) (rx_in (u_rx u)) (u_rx u)) u, w')) /\
    receiving n out F todo rest (u, w').
Proof.
  intros H. pose proof (receiving_active _ _ _ _ _ _ H) as Hact. cbn [fst] in Hact.
  destruct H as [H1 [H2 [H2' Hdiv]] H3 H4 [H5 H5'] H6 H7 (s & Hs & H8)]. cbn [fst snd] in *.
  unfold submit_recv, rx_is_empty. rewrite H5. cbn [isSome negb].
  assert (exists w', recv_buffer (u, w) = (Ok (recv_capacity u), (u, w')) /\
    match u_pending_fail_reply u with
    | None => sink_at n s w' F
    | Some reply => is_fail reply /\ world_ok w'
    end) as (w' & Hb & H8').
  { unfold recv_buffer. destruct (Z.leb_spec RECV_BUFFER_SIZE (recv_capacity u)) as [Hle|Hlt]; [|by exists w].
    assert (recv_capacity u = RECV_BUFFER_SIZE) as ->.
    { assert (recv_capacity u <= RECV_BUFFER_SIZE); [|lia]. apply recv_capacity_le.
      rewrite Z.max_l by lia. by rewrite H2. }
    unfold on_download. rewrite Hs.
    assert (set_download (Some s) u = u) as Hid by (destruct u; cbn in *; by rewrite <- Hs).
    destruct (u_pending_fail_reply u) as [reply|].
    - destruct H8 as [Hf Hok].
      pose proof (buffer_inv (P := backend_ok) (C := fun cap => 0 < cap) (s, w)
        (conj Hok (queue_capacity_pos _))) as [Hok' _].
      unfold buffer in *. cbn [snd] in Hok'. rewrite Hid. eexists. split; [reflexivity|]. done.
    - destruct (sink_at_buffer n s w F H8) as (w' & -> & Hs'). rewrite Hid. eauto. }
  rewrite (bind_Ok _ _ _ _ _ Hb). unfold rx_try_recv. rewrite H5'. exists w'. split; [unfold rx_set; by rewrite H5'|].
  split; try done. exists s. done.
Qed.

(** Consuming the chunk of a read that stayed inside the download. *)
Lemma handle_download_chunk_ok n out F chunk todo rest l u w :
  receiving n out F (chunk ++ todo) rest (u, w) -> chunk <> [] ->
  forall rx, Sends (rx_mps (u_rx u)) todo (rx_in rx) rest -> rx_inflight rx = None ->
  rx_submit rx = [] -> rx_mps rx = rx_mps (u_rx u) ->
  match handle_download_chunk chunk l (set_rx rx u, w) with
  | (Some r, (_, uw')) => r = Ok true /\
      (receiving n out (F ++ chunk) todo rest uw' \/ (todo = [] /\ phase_done n out (F ++ chunk) rest uw'))
  | (None, (_, uw')) => full n F uw'.2
  end.
Proof.
  intros H Hne rx Hrx Hfl Hsub Hmps.
  destruct H as [H1 H2 [H3 Hlen] H4 H5 [H6 H6'] H7 (s & Hs & H8)]. cbn [fst snd] in *.
  assert (saturating_add (u_downloaded_size u) (Z.of_nat (length chunk))
    = u_downloaded_size u + Z.of_nat (length chunk)) as Hsat.
  { unfold saturating_add. rewrite length_app in Hlen. lia. }
  rewrite length_app in Hlen.
  unfold handle_download_chunk. rewrite bool_decide_false by done.
  cbn [u_pending_fail_reply set_rx u_download]. rewrite Hs.
  destruct (u_pending_fail_reply u) as [reply|] eqn:Ef.
  - destruct H8 as [Hf Hok]. unfold sync, consume, upd, modify, bind, at_boundary.
    cbn [set_rx set_phase u_download_size u_downloaded_size]. rewrite Hsat.
    destruct (Z.leb_spec (u_download_size u) (u_downloaded_size u + Z.of_nat (length chunk))) as [Hb|Hb].
    + assert (todo = []) as -> by (destruct todo; [done|simpl in Hlen; lia]).
      unfold send_reply, attempt, send_static, send_async, bind. cbn. rewrite H6'.
      split; [done|]. right. split; [done|]. split; cbn; rewrite ?Hmps; try done.
      right. split; [|done]. exists reply. by rewrite H6.
    + split; [done|]. left. split; cbn; rewrite ?Hmps; try done.
      * by split; [intros ->; simpl in Hlen; lia|lia].
      * lia.
      * exists s. split; [done|]. by rewrite Ef.
  - pose proof (feed_download_ok n (set_rx rx u) w s F chunk l Hs H8) as Hfeed.
    unfold abind. destruct (feed_download chunk l (set_rx rx u, w)) as [[r|] [l' [u' w']]]; [|done].
    destruct Hfeed as (-> & s' & -> & Hsink).
    unfold sync, consume, upd, modify, bind, at_boundary.
    cbn [set_rx set_phase set_download u_download_size u_downloaded_size]. rewrite Hsat.
    destruct (Z.leb_spec (u_download_size u) (u_downloaded_size u + Z.of_nat (length chunk))) as [Hb|Hb].
    + assert (todo = []) as -> by (destruct todo; [done|simpl in Hlen; lia]).
      unfold send_reply, attempt, send_static, send_async, bind. cbn. rewrite H6'.
      split; [done|]. right. split; [done|]. split; cbn; rewrite ?Hmps; [|done|done|].
      * unfold download_active. cbn. by apply Z.ltb_ge.
      * left. rewrite H6. split; [done|]. by exists s'.
    + split; [done|]. left. split; cbn; rewrite ?Hmps; try done.
      * by split; [intros ->; simpl in Hlen; lia|lia].
      * lia.
      * exists s'. split; [done|]. by rewrite Ef.
Qed.

(** A round during which the control plane signals nothing. *)
Definition quiet (rd : Round) : Prop := rd_before rd = [] /\ rd_after rd = [].

Lemma quiet_signal wt uw : changed wt = None -> on_signal (wt, uw) = None.
Proof. intros H. unfold on_signal. by rewrite H. Qed.

(** One turn of the connected loop in a data phase. *)
Lemma connected_turn_receiving n out F todo rest rd wt uw :
  receiving n out F todo rest uw -> quiet rd -> changed wt = None ->
  match connected_turn rd (wt, uw) with
  | (Again, (wt', uw')) => wt' = wt /\ exists chunk todo', todo = chunk ++ todo' /\ chunk <> [] /\
      (receiving n out (F ++ chunk) todo' rest uw' \/ (todo' = [] /\ phase_done n out (F ++ chunk) rest uw'))
  | (Parked, (wt', uw')) => wt' = wt /\ full n F uw'.2
  | (Gone, _) => False
  end.
Proof.
  intros H [Hb Ha] Hwt. unfold connected_turn. apply check_swupdate_receiving in H.
  destruct (check_swupdate uw).2 as [u w]. clear uw.
  destruct (submit_recv_receiving n out F todo rest u w H) as (w1 & -> & H1). clear H w. cbn [snd fst].
  pose proof (receiving_active _ _ _ _ _ _ H1) as Hact. cbn [fst] in Hact.
  pose proof (recv_capacity_active u Hact) as [Hdiv Hcap].
  pose proof H1 as [Hs [Hm [Hm' Hmdiv]] [Hne Hlen] _ [_ Hsub] _ [Hfp Htd] _]. cbn [fst snd] in *.
  rewrite Z.max_l, Hm in Hdiv, Hcap by lia. cbn [set_rx u_gadget_torn_down u_rx rx_set rx_is_empty rx_inflight isSome negb u_finish_pending].
  rewrite Htd, Hb, Ha. cbn [foldl]. rewrite quiet_signal by done. cbn [orb].
  unfold transfer_step. cbn [set_rx u_finish_pending]. rewrite Hfp.
  unfold abind at 1, fetch. cbn [u_rx set_rx rx_set rx_inflight rx_in rx_mps].
  assert (0 < Z.of_nat (length todo)) by (destruct todo; [done|simpl; lia]).
  assert (0 < recv_capacity u) by (unfold RECV_BUFFER_SIZE in *; lia).
  destruct (fetch_sends (download_active (set_rx (rx_set (Some (recv_capacity u, [])) (rx_in (u_rx u)) (u_rx u)) u))
    (rx_mps (u_rx u)) (recv_capacity u) todo (rx_in (u_rx u)) rest [] w1)
    as (l' & w2 & Hf & Hs2 & Hw2); try done; [apply Z.divide_0_r|simpl; lia|].
  cbn [app length] in Hf, Hs2. rewrite Z.sub_0_r in Hf, Hs2. rewrite Hf. cbn [fmap option_fmap option_map].
  set (k := Z.to_nat (recv_capacity u)) in *. set (chunk := take k todo). set (todo' := drop k todo) in *.
  assert (chunk <> []) as Hchunk by (subst chunk k; destruct todo; [done|]; destruct (Z.to_nat _) eqn:E; [lia|done]).
  assert (todo = chunk ++ todo') as Htodo by (subst chunk todo'; by rewrite take_drop).
  unfold on_recv, handle_rx_chunk. cbn [download_active set_rx u_downloaded_size u_download_size].
  change (download_active (set_rx _ _)) with (download_active u). rewrite Hact. cbn [negb].
  change (remaining_download_bytes (set_rx _ _)) with (remaining_download_bytes u).
  assert ((Z.to_nat (remaining_download_bytes u) <? length chunk)%nat = false) as ->.
  { apply Nat.ltb_ge. unfold remaining_download_bytes. subst chunk. rewrite length_take. lia. }
  change (set_rx ?r1 (set_rx ?r2 u)) with (set_rx r1 u).
  assert (receiving n out F (chunk ++ todo') rest (u, w2)) as H2.
  { rewrite <- Htodo. destruct H1 as [???????(s & ? & Hsink)]. split; try done. exists s. split; [done|].
    cbn [fst snd] in *. destruct (u_pending_fail_reply u); [|by eapply sink_at_world].
    destruct Hsink. split; [done|]. by eapply same_world_ok. }
  pose proof (handle_download_chunk_ok n out F chunk todo' rest (rd_sched rd) u w2 H2 Hchunk
    (rx_set None l' (u_rx u))) as Hd.
  cbn [rx_set rx_in rx_inflight rx_mps rx_submit] in Hd. specialize (Hd Hs2 eq_refl Hsub eq_refl).
  destruct (handle_download_chunk _ _ _) as [[r|] [l2 uw2]].
  - destruct Hd as [-> Hd]. split; [done|]. by exists chunk, todo'.
  - cbn [foldl]. by rewrite quiet_signal.
Qed.

(** C5. A data phase of fastboot over USB. While the control plane is quiet and replies can
    be sent, a download the host sends as bulk packets (full ones and at most a short last one,
    without a terminating empty packet, of a packet size that divides the size of the receive
    buffer) ends within a bounded number of turns, at the download's boundary and not before: no byte of what follows is taken,
    exactly one reply is sent, and either it is OKAY and SWUpdate's queue has accepted the
    whole image in order (or SWUpdate had stopped accepting, after a prefix), or SWUpdate
    failed, the rest of the download was discarded and the session is reset. The only other
    outcome is that a turn waits for SWUpdate: then its queue, which has accepted all of the
    download before the chunk in hand, is full at the end of what happened in that turn. *)
Theorem usb_data_phase n out F todo rest rounds wt uw :
  receiving n out F todo rest uw -> Forall quiet rounds -> changed wt = None ->
  (length todo <= length rounds)%nat ->
  exists k uw', (k <= length todo)%nat /\
    connected_loop (take k rounds) (wt, uw) = (true, ([], (wt, uw'))) /\
    (phase_done n out (F ++ todo) rest uw' \/
     exists rd uw2 fed more, rounds !! k = Some rd /\ connected_turn rd (wt, uw') = (Parked, (wt, uw2)) /\
       F ++ todo = fed ++ more /\ more <> [] /\ full n fed uw2.2).
Proof.
  intros H Hq Hwt. revert F todo uw H. induction Hq as [|rd rounds Hrd Hq IH]; intros F todo uw H Hlen.
  { destruct (rc_todo _ _ _ _ _ _ H) as [Hne _]. destruct todo; [done|simpl in Hlen; lia]. }
  pose proof (connected_turn_receiving n out F todo rest rd wt uw H Hrd Hwt) as Hturn.
  destruct (connected_turn rd (wt, uw)) as [[] [wt' uw']] eqn:E; [| |done].
  { destruct Hturn as [-> Hfull]. exists 0%nat, uw. split; [lia|]. split; [done|]. right.
    exists rd, uw', F, todo. split_and!; try done. by destruct (rc_todo _ _ _ _ _ _ H). }
  destruct Hturn as (-> & chunk & todo' & -> & Hne & Hcase). rewrite length_app in *. cbn [length] in Hlen.
  assert (0 < length chunk)%nat by (destruct chunk; [done|simpl; lia]).
  destruct Hcase as [Hr|[-> Hd]].
  - destruct (IH (F ++ chunk) todo' uw' Hr) as (k & uw2 & Hk & Hl & Hend); [lia|].
    exists (S k), uw2. split; [lia|]. split; [cbn [take connected_loop]; by rewrite E|].
    rewrite app_assoc. exact Hend.
  - exists 1%nat, uw'. split; [lia|]. split; [cbn [take connected_loop]; rewrite E; by destruct rounds|].
    left. by rewrite app_nil_r.
Qed.
