(* ===== verification/UsbTeardown.v ===== *)
(** * Fastboot over USB: teardown and runs

    A connected phase that ends, for whatever reason, leaves no read queued, no
    transfer with an open sender and the state of a fresh connection; concrete
    runs show whole sessions and the cases in which the code's behaviour
    deserves attention. *)

From S2P Require Import Prelude Io Bytes SysInfo Session Link Owner Pump Net FunctionFs FastbootProto.
From S2P Require Import FastbootUsb UsbDelivery.

Definition u_handle (u : FastbootUsbState) : option nat := s ← u_download u; s_tx s.

Definition u_owned (uw : UW) : Prop := owned (u_handle uw.1) uw.2.

(** The state of a fresh connection. *)
Record clean (u : FastbootUsbState) : Prop := {
  cl_sink : u_download u = Some (session_new (u_download_params u) RECV_BUFFER_SIZE);
  cl_open : u_session_open u = false;
  cl_size : u_download_size u = 0;
  cl_done : u_downloaded_size u = 0;
  cl_flash : u_pending_flash u = false;
  cl_finish : u_finish_pending u = false;
  cl_fail : u_pending_fail_reply u = None;
  cl_read : rx_inflight (u_rx u) = None;
}.

(** An operation that cannot fail and keeps the sender where it can be dropped. *)
Definition keeps {A} (m : M UW A) : Prop :=
  forall uw, u_owned uw -> exists a uw', m uw = (Ok a, uw') /\ u_owned uw'.

Lemma keeps_ret {A} (a : A) : keeps (ret a).
Proof. intros uw H. by exists a, uw. Qed.

Lemma keeps_bind {A B} (m : M UW A) (f : A -> M UW B) :
  keeps m -> (forall a, keeps (f a)) -> keeps (bind m f).
Proof.
  intros Hm Hf uw H. destruct (Hm uw H) as (a & uw1 & E & H1). rewrite (bind_Ok _ _ _ _ _ E). by apply Hf.
Qed.

Lemma keeps_attempt {A} (m : M UW A) : preserves u_owned m -> keeps (attempt m).
Proof. intros Hm uw H. unfold attempt. specialize (Hm uw H). destruct (m uw) as [r uw']. by exists r, uw'. Qed.

Lemma keeps_gets {A} (f : UW -> A) : keeps (gets f).
Proof. intros uw H. by exists (f uw), uw. Qed.

Lemma keeps_upd f : (forall u, u_download (f u) = u_download u) -> keeps (upd f).
Proof.
  intros Hf [u w] H. exists tt, (f u, w). split; [done|]. unfold u_owned, u_handle. cbn [fst snd].
  by rewrite Hf.
Qed.

Lemma keeps_preserves {A} (m : M UW A) : keeps m -> preserves u_owned m.
Proof. intros Hm uw H. by destruct (Hm uw H) as (a & uw' & -> & H'). Qed.

Lemma on_download_owned {A} (none : io_result A) (m : M SW A) :
  preserves sw_owned m -> preserves u_owned (on_download none m).
Proof.
  intros Hm [u w] H. unfold on_download. destruct (u_download u) as [s|] eqn:E; [|done].
  unfold u_owned, u_handle in H. cbn [fst snd] in H. rewrite E in H.
  specialize (Hm (s, w) H). by destruct (m (s, w)) as [r [s' w']].
Qed.

Lemma send_async_owned d : preserves u_owned (send_async d).
Proof. intros [u w] H. unfold send_async. by destruct (tx_errors (u_tx u)) as [|[e|] errs]. Qed.

Lemma keeps_reply d : keeps (send_reply d).
Proof. apply keeps_bind; [apply keeps_attempt, send_async_owned|intros _; apply keeps_ret]. Qed.

#[local] Hint Resolve keeps_ret keeps_bind keeps_attempt keeps_gets keeps_reply on_download_owned
  send_async_owned : gadget.

Lemma keeps_on_download_unit (m : M SW unit) :
  preserves sw_owned m -> (forall sw, exists sw', m sw = (Ok tt, sw')) -> keeps (on_download (Ok tt) m).
Proof.
  intros Hm Hok uw H. pose proof (on_download_owned (Ok tt) m Hm uw H) as H'. destruct uw as [u w].
  unfold on_download in *. destruct (u_download u) as [s|]; [|by eexists _, _].
  destruct (Hok (s, w)) as [[s' w'] E]. rewrite E in *. by eexists _, _.
Qed.

Lemma reset_state_clean u w :
  u_owned (u, w) -> rx_inflight (u_rx u) = None ->
  exists u' w', reset_state (u, w) = (Ok tt, (u', w')) /\ clean u' /\ released w' /\ u_tx u' = u_tx u.
Proof.
  intros H Hf. eexists _, _. split; [reflexivity|]. split; [by split|]. split; [|done].
  unfold u_owned, u_handle in H. cbn [fst snd] in H. destruct (u_download u) as [s|]; [|done].
  by apply drop_session_released.
Qed.

Lemma keeps_reset_state : keeps reset_state.
Proof.
  intros [u w] H. eexists _, _. split; [reflexivity|]. unfold u_owned, u_handle in *. cbn [fst snd] in *.
  cbn. destruct (u_download u) as [s|]; [|done]. by apply drop_session_released.
Qed.

(** Every hard teardown. *)
Lemma reset_clean reply uw :
  u_owned uw -> exists u' w', reset reply uw = (Ok tt, (u', w')) /\ clean u' /\ released w'.
Proof.
  intros H. unfold reset. destruct uw as [u w].
  destruct (keeps_upd (fun u => set_rx (rx_cancel (u_rx u)) u) (fun _ => eq_refl) (u, w) H) as ([] & uw1 & E1 & H1).
  rewrite (bind_Ok _ _ _ _ _ E1). injection E1 as <-.
  destruct (keeps_on_download_unit abort abort_owned ltac:(intros []; eexists; reflexivity) _ H1)
    as ([] & [u2 w2] & E2 & H2).
  rewrite (bind_Ok _ _ _ _ _ E2).
  assert (rx_inflight (u_rx u2) = None) as Hrx.
  { revert E2. unfold on_download. cbn [u_download set_rx]. destruct (u_download u) as [s|]; [|by intros [= <- _]].
    destruct (abort (s, w)) as [r [s' w']]. by intros [= _ <- _]. }
  destruct (reset_state_clean u2 w2 H2 Hrx) as (u3 & w3 & E3 & Hc & Hr & _).
  rewrite (bind_Ok _ _ _ _ _ E3). destruct reply as [d|]; [|by eexists _, _].
  unfold send_reply, attempt, bind, send_static, send_async.
  destruct (tx_errors (u_tx u3)) as [|[e|] errs]; eexists _, _; (split; [reflexivity|]); by destruct Hc.
Qed.

Lemma clean_owned u w : clean u -> released w -> u_owned (u, w).
Proof. intros Hc Hr. unfold u_owned, u_handle. cbn [fst snd]. by rewrite (cl_sink _ Hc). Qed.

Lemma keeps_reset reply : keeps (reset reply).
Proof.
  intros uw H. destruct (reset_clean reply uw H) as (u' & w' & E & Hc & Hr).
  exists tt, (u', w'). split; [done|]. by apply clean_owned.
Qed.

Lemma keeps_fail reply : keeps (fail_download reply).
Proof.
  apply keeps_bind; [apply keeps_on_download_unit; [apply abort_owned|intros []; eexists; reflexivity]|].
  intros _. by apply keeps_upd.
Qed.

#[local] Hint Resolve keeps_reset keeps_fail keeps_reset_state : gadget.
#[local] Hint Extern 1 (keeps (upd _)) => (by apply keeps_upd) : gadget.

(** ** Commands *)

Lemma keeps_begin : keeps begin_download_command.
Proof.
  apply keeps_bind; [apply keeps_attempt, on_download_owned, open_owned|].
  intros [u|e]; auto with gadget.
Qed.

Lemma keeps_start_finish : keeps start_finish_download_command.
Proof.
  apply keeps_bind; [auto with gadget|]. intros opened. destruct (negb opened); [auto with gadget|].
  apply keeps_bind; [apply keeps_on_download_unit; [apply eof_owned|intros []; eexists; reflexivity]|].
  auto with gadget.
Qed.

#[local] Hint Resolve keeps_begin keeps_start_finish : gadget.

Lemma keeps_start_download len kind : keeps (start_download_transfer len kind).
Proof.
  apply keeps_bind; [auto with gadget|]. intros opened.
  apply keeps_bind; [destruct opened; auto with gadget|]. intros begun.
  destruct (negb begun); [auto with gadget|]. apply keeps_bind; [apply keeps_attempt, send_async_owned|].
  intros r. destruct (is_err r); [auto with gadget|]. apply keeps_bind; [auto with gadget|]. intros _.
  apply keeps_bind; [destruct (len =? 0); auto with gadget|auto with gadget].
Qed.

Lemma keeps_finish_flash : keeps finish_flash_download.
Proof.
  intros [u w]. unfold finish_flash_download. revert u w.
  enough (forall b1 b2 : bool, keeps (if negb b1 then send_reply FAIL_FLASH >>; ret false
    else if b2 then send_reply FAIL_BADSIZE >>; ret false
    else send_reply INFO_WAIT_SWUPDATE >>;
      do! started := start_finish_download_command in
      if negb started then upd (fun u => set_phase (u_download_size u) (u_downloaded_size u) false u) >>; ret false
      else ret true)) as H by (intros u w; apply H).
  intros b1 b2. destruct b1, b2; cbn [negb]; auto with gadget.
  apply keeps_bind; [auto with gadget|]. intros _. apply keeps_bind; [auto with gadget|].
  intros []; cbn [negb]; auto with gadget.
Qed.

Lemma keeps_command chunk : keeps (handle_command_chunk chunk).
Proof.
  unfold handle_command_chunk. destruct (parse_command chunk) as [[c n]|]; [|auto with gadget].
  apply keeps_bind; [|auto with gadget]. destruct c; auto with gadget.
  - apply keeps_bind; [auto with gadget|]. intros []; cbn [negb]; auto with gadget.
  - apply keeps_bind; [auto with gadget|]. intros [r|]; auto 6 with gadget.
  - apply keeps_bind; [auto with gadget|]. intros json.
    apply keeps_bind; [apply keeps_attempt, send_async_owned|]. intros r. destruct (is_err r); [auto with gadget|].
    apply keeps_bind; [apply keeps_attempt, send_async_owned|]. intros r2. destruct (is_err r2); auto with gadget.
  - apply keeps_start_download.
  - apply keeps_finish_flash.
Qed.

(** ** The connected loop *)

(** An awaited step that answers [false] only after a teardown, never fails, and
    keeps the sender otherwise, also when it is interrupted. *)
Definition tears (o : option (io_result bool) * (list wevent * UW)) : Prop :=
  match o with
  | (Some (Ok false), (_, (u, w))) => clean u /\ released w
  | (Some (Err _), _) => False
  | (_, (_, uw)) => u_owned uw
  end.

Lemma tears_keep (m : M UW unit) l uw : keeps m -> u_owned uw -> tears (sync (m >>; ret true) l uw).
Proof.
  intros Hm H. unfold sync. destruct (Hm uw H) as (a & uw' & E & H'). by rewrite (bind_Ok _ _ _ _ _ E).
Qed.

Lemma tears_reset reply l uw : u_owned uw -> tears (sync (reset reply >>; ret false) l uw).
Proof.
  intros H. unfold sync. destruct (reset_clean reply uw H) as (u' & w' & E & Hc & Hr).
  by rewrite (bind_Ok _ _ _ _ _ E).
Qed.

(** The rest of a step after an awaited part that cannot fail. *)
Definition held {A} (o : option (io_result A) * (list wevent * UW)) : Prop :=
  match o with (Some (Err _), _) => False | (_, (_, uw)) => u_owned uw end.

Lemma tears_abind {A} (m : Async UW A) (f : A -> Async UW bool) l uw :
  held (m l uw) -> (forall a l uw, u_owned uw -> tears (f a l uw)) -> tears (abind m f l uw).
Proof. unfold abind. destruct (m l uw) as [[[a|e]|] [l' uw']]; cbn; auto; done. Qed.

Lemma held_sync {A} (m : M UW A) l uw : keeps m -> u_owned uw -> held (sync m l uw).
Proof. intros Hm H. unfold sync. by destruct (Hm uw H) as (a & uw' & -> & H'). Qed.

Lemma held_abind {A B} (m : Async UW A) (f : A -> Async UW B) l uw :
  held (m l uw) -> (forall a l uw, u_owned uw -> held (f a l uw)) -> held (abind m f l uw).
Proof. unfold abind. destruct (m l uw) as [[[a|e]|] [l' uw']]; cbn; auto; done. Qed.

Lemma on_download_async_owned {A} (none : io_result A) (m : Async SW A) :
  apreserves sw_owned m -> apreserves u_owned (on_download_async none m).
Proof.
  intros Hm l [u w] H. unfold on_download_async. destruct (u_download u) as [s|] eqn:E; [|done].
  unfold u_owned, u_handle in H. cbn [fst snd] in H. rewrite E in H.
  specialize (Hm l (s, w) H). by destruct (m l (s, w)) as [r [l' [s' w']]].
Qed.

Lemma held_aattempt {A} (m : Async UW A) l uw : apreserves u_owned m -> u_owned uw -> held (aattempt m l uw).
Proof. intros Hm H. unfold aattempt. specialize (Hm l uw H). by destruct (m l uw) as [[r|] [l' uw']]. Qed.

Lemma held_feed chunk l uw : u_owned uw -> held (feed_download chunk l uw).
Proof.
  intros H. unfold feed_download. apply held_abind.
  - apply held_sync; [|done]. apply keeps_attempt, on_download_owned, try_send_owned.
  - clear l uw H. intros [[k|item|]|e] l uw H; try (by apply held_sync; auto with gadget).
    apply held_abind; [apply held_aattempt; [apply on_download_async_owned, send_owned|done]|].
    intros r l2 uw2 H2. apply held_sync; auto with gadget.
Qed.

Lemma keeps_consume n : keeps (consume n).
Proof. by apply keeps_upd. Qed.

Lemma keeps_boundary m : keeps m -> keeps (at_boundary m).
Proof. intros Hm [u w] H. unfold at_boundary. destruct (_ <=? _); [by apply Hm|by eexists _, _]. Qed.

#[local] Hint Resolve keeps_consume keeps_boundary : gadget.

Lemma tears_download chunk l uw : u_owned uw -> tears (handle_download_chunk chunk l uw).
Proof.
  destruct uw as [u w]. intros H. unfold handle_download_chunk. destruct (bool_decide _); [done|].
  destruct (u_pending_fail_reply u) as [reply|].
  { destruct (keeps_consume (Z.of_nat (length chunk)) (u, w) H) as (a & uw3 & E & H3).
    unfold sync. rewrite (bind_Ok _ _ _ _ _ E).
    apply (tears_keep (at_boundary (send_reply reply >>; reset_state)) l uw3); auto with gadget. }
  destruct (u_download u) as [s|]; [|by apply tears_reset].
  apply tears_abind; [by apply held_feed|]. intros [v|err] l2 uw2 H2.
  - destruct (keeps_consume (Z.of_nat (length chunk)) uw2 H2) as (a & uw3 & E & H3).
    unfold sync. rewrite (bind_Ok _ _ _ _ _ E).
    by apply (tears_keep (at_boundary (send_reply OKAY)) l2 uw3); auto with gadget.
  - cbn zeta. set (reply := if bool_decide _ then _ else _).
    destruct (keeps_consume (Z.of_nat (length chunk)) uw2 H2) as (a & uw3 & E & H3).
    unfold sync. rewrite (bind_Ok _ _ _ _ _ E).
    destruct (keeps_fail reply uw3 H3) as (a4 & uw4 & E4 & H4). rewrite (bind_Ok _ _ _ _ _ E4).
    apply (tears_keep (at_boundary (send_reply reply >>; reset_state)) l2 uw4); auto with gadget.
Qed.

Lemma tears_rx chunk l uw : u_owned uw -> tears (handle_rx_chunk chunk l uw).
Proof.
  destruct uw as [u w]. intros H. unfold handle_rx_chunk. destruct (negb (download_active u)).
  - apply tears_abind; [apply held_sync; [apply keeps_command|done]|].
    intros [handled rest] l2 [u2 w2] H2. destruct (_ && _); [by apply tears_download|done].
  - destruct (_ <? _)%nat; [|by apply tears_download].
    pose proof (tears_download (take (Z.to_nat (remaining_download_bytes u)) chunk) l (u, w) H) as Ht.
    unfold abind. destruct (handle_download_chunk _ l (u, w)) as [[[[]|e]|] [l2 [u2 w2]]]; cbn in Ht; cbn [negb]; try done.
    destruct (download_active u2); [done|by apply tears_download].
Qed.

Lemma tears_on_recv r l uw : u_owned uw -> tears (on_recv r l uw).
Proof.
  destruct uw as [u w]. intros H. unfold on_recv. destruct r as [[chunk|]|err]; [by apply tears_rx|done|].
  destruct (bool_decide _); [destruct (in_flight u); [by apply tears_reset|done]|].
  destruct (is_closed_transport_error err); [|by apply tears_reset].
  unfold sync. by apply (tears_reset None l (_, w)).
Qed.

Lemma fetch_script_world timed mps cap acc l w :
  same_world w (fetch_script timed mps cap acc l w).2.2.
Proof.
  revert acc w. induction l as [|[p|e| |ev] l IH]; intros acc w; cbn [fetch_script]; try apply same_world_refl.
  - destruct (_ <? _); [apply same_world_refl|]. destruct (_ || _); [apply same_world_refl|apply IH].
  - destruct timed; [apply same_world_refl|apply IH].
  - destruct (IH acc (wstep ev w)) as [evs Hev]. by exists (ev :: evs).
Qed.

Lemma held_fetch timed l uw : u_owned uw -> held (fetch timed l uw).
Proof.
  destruct uw as [u w]. intros H. unfold fetch. destruct (rx_inflight (u_rx u)) as [[cap acc]|]; [|done].
  pose proof (fetch_script_world timed (rx_mps (u_rx u)) cap acc (rx_in (u_rx u)) w) as [evs Hw].
  destruct (fetch_script _ _ _ _ _ _) as [r [[fl rest] w']]. cbn [snd] in Hw. subst w'.
  destruct r as [r|]; cbn; by apply owned_wsteps.
Qed.

Lemma tears_transfer l uw : u_owned uw -> tears (transfer_step l uw).
Proof.
  destruct uw as [u w]. intros H. unfold transfer_step. destruct (u_finish_pending u).
  - apply tears_abind; [apply held_aattempt; [apply on_download_async_owned, finished_owned|done]|].
    intros r l2 uw2 H2. destruct (keeps_reset_state uw2 H2) as (a & uw3 & E & H3).
    unfold sync. rewrite (bind_Ok _ _ _ _ _ E).
    apply (tears_keep (match r with Ok _ => send_reply OKAY | Err _ => send_reply FAIL_CLOSE end) l2 uw3);
      [destruct r; auto with gadget|done].
  - apply tears_abind; [by apply held_fetch|]. intros r l2 uw2 H2. by apply tears_on_recv.
Qed.

Lemma check_swupdate_owned : preserves u_owned check_swupdate.
Proof.
  intros [u w] H. unfold check_swupdate. destruct (_ && _); [|done].
  destruct (u_download u) as [s|] eqn:E; [|done]. destruct (is_open s); [|done].
  unfold u_owned, u_handle in H. cbn [fst snd] in H. rewrite E in H.
  pose proof (poll_status_owned (s, w) H) as Hp. unfold try_finished.
  destruct (poll_status (s, w)) as [[[v|e]|] [s' w']]; cbn [snd] in Hp; [done| |done].
  by apply (keeps_preserves _ (keeps_fail FAIL_EPIPE)).
Qed.

Lemma submit_recv_owned : preserves u_owned submit_recv.
Proof.
  intros [u w] H. unfold submit_recv. destruct (negb _); [done|].
  apply preserves_bind; [| |exact H].
  - clear u w H. intros [u w] H. unfold recv_buffer. destruct (_ <=? _); [|done].
    pose proof (on_download_owned (Ok []) buffer buffer_owned (u, w) H) as Hb.
    by destruct (on_download (Ok []) buffer (u, w)) as [r uw'].
  - clear u w H. intros cap [u w] H. destruct (rx_try_recv cap (u_rx u)) as [[v|e] rx]; [done|].
    by destruct (is_closed_transport_error e).
Qed.

Lemma connected_turn_tears rd wt uw :
  u_owned uw ->
  match connected_turn rd (wt, uw) with
  | (Gone, (_, (u', w'))) => clean u' /\ released w'
  | (_, (_, uw')) => u_owned uw'
  end.
Proof.
  intros H. unfold connected_turn. apply check_swupdate_owned, submit_recv_owned in H.
  destruct (submit_recv _).2 as [u w]. clear uw.
  assert (exists u' w', (reset None (u, w)).2 = (u', w') /\ clean u' /\ released w') as (ur & wr & Hreset & Hc & Hr).
  { destruct (reset_clean None (u, w) H) as (u' & w' & -> & ?). by exists u', w'. }
  cbn [fst]. destruct (u_gadget_torn_down u); [by rewrite Hreset|].
  unfold on_signal at 1. destruct (changed _) as [[ok wt1]|].
  { destruct (_ || _); [by rewrite Hreset|done]. }
  set (step := if _ || _ then _ else _).
  assert (tears step) as Hs.
  { subst step. destruct (_ || _); [by apply tears_transfer|]. cbn. by apply owned_wsteps. }
  destruct step as [[[[]|e]|] [l2 uw2]]; cbn in Hs; [done|destruct uw2; done|done|].
  unfold on_signal. destruct (changed _) as [[ok wt2]|]; cbn [default]; [|done].
  destruct (_ || _); [|done]. by destruct (reset_clean None uw2 Hs) as (u' & w' & -> & ?).
Qed.

(** C13. A connected phase that ends, because the host disabled the function,
    the control loop is gone, a download stalled or the endpoint failed, at any
    point of any command or download, leaves the state of a fresh connection:
    no read queued, no download half done that the next host could run into,
    and no transfer with an open sender. *)
Theorem serve_connected_teardown rounds wt u w rounds' wt' u' w' :
  u_owned (u, w) ->
  serve_connected rounds (wt, (u, w)) = (false, (rounds', (wt', (u', w')))) ->
  clean u' /\ released w'.
Proof.
  intros H. unfold serve_connected. set (mps := match rx_query (u_rx u) with Ok n => n | Err _ => _ end).
  assert (u_owned (set_mps mps u, w)) as H1 by exact H. clear H. revert H1.
  generalize (set_mps mps u, w) as uw. clear mps u w. revert wt.
  induction rounds as [|rd rounds IH]; intros wt uw H; cbn [connected_loop]; [done|].
  pose proof (connected_turn_tears rd wt uw H) as Ht.
  destruct (connected_turn rd (wt, uw)) as [[] [wt1 [u1 w1]]]; [done|by apply IH|].
  intros [= _ _ <- <-]. exact Ht.
Qed.

(** ** Runs *)

Module UsbDemo.

Definition rx (l : list RxIn) : Rx :=
  {| rx_mps := 512; rx_query := Ok 512; rx_inflight := None; rx_in := l; rx_submit := [] |}.

Definition fresh (l : list RxIn) : UW :=
  (state_new (rx l) {| tx_out := []; tx_errors := [] |} default_params "abc" 512, idle_world sample_env).

Definition wt : Watch := mark_seen (watch_step (watch_channel false) (CtlSend true)).

Definition calm : Round := {| rd_before := []; rd_sched := []; rd_after := [] |}.
Definition during (l : list wevent) : Round := {| rd_before := []; rd_sched := l; rd_after := [] |}.

Definition pkt (s : string) : RxIn := RPacket (bs s).

(** What the host has read, and what each transfer was given. *)
Definition view (d : DL) : list (list byte) * list (list byte) :=
  (tx_out (u_tx d.2.1), (fun b => concat (bk_log b)) <$> w_transfers d.2.2).

Definition serve_view (rounds : list Round) (l : list RxIn) : bool * (list (list byte) * list (list byte)) :=
  let o := serve_connected rounds (wt, fresh l) in (o.1, view o.2.2).

Example usb_session :
  serve_view [calm; calm; calm; during [WBackend 0 (EvStatus (Returned (Ok tt)))]]
    [pkt "download:00000006"; REnv (WBackend 0 EvConnectOk); pkt "abcdef"; pkt "flash:swu"]
  = (true, ([bs "DATA00000006"; OKAY; INFO_WAIT_SWUPDATE; OKAY], [bs "abcdef"])).
Proof. vm_compute. reflexivity. Qed.

(** A host that sends more than it announced: the bytes after the boundary go
    to SWUpdate as well, and are acknowledged again. *)
Example overlong_packet_is_fed :
  serve_view [calm; calm] [pkt "download:00000006"; pkt "abcdefXY"]
  = (true, ([bs "DATA00000006"; OKAY; OKAY], [bs "abcdefXY"])).
Proof. vm_compute. reflexivity. Qed.

(** After a failed update the same bytes start a second transfer. *)
Example overlong_packet_opens_transfer :
  serve_view [calm; calm; calm; calm]
    [pkt "download:00000006"; REnv (WBackend 0 EvConnectOk); pkt "ab";
     REnv (WBackend 0 (EvStatus (Returned (Err (other "failed"))))); RPacket []; pkt "cdefXY"]
  = (true, ([bs "DATA00000006"; FAIL_EPIPE; OKAY], [bs "ab"; bs "XY"])).
Proof. vm_compute. reflexivity. Qed.

(** The host enables the function again while a chunk waits for a free slot of
    the queue: the chunk is dropped with the interrupted step, so the download
    misses a byte the host has sent. *)
Example enable_while_queue_full_loses_chunk :
  let l := pkt "download:00000082" :: replicate 130 (pkt "x") in
  let rounds := replicate 129 calm ++
    [{| rd_before := []; rd_sched := []; rd_after := [CtlSend true] |};
     during [WBackend 0 EvConnectOk; WBackend 0 EvWrite]] in
  let o := serve_connected rounds (wt, fresh l) in
  (rx_in (u_rx o.2.2.2.1), u_downloaded_size o.2.2.2.1,
   (fun b => length (concat (bk_log b))) <$> w_transfers o.2.2.2.2)
  = ([], 129, [129%nat]).
Proof. vm_compute. reflexivity. Qed.

(** The state after a [download:00000006] command. *)
Definition opened : SW := (open (session_new default_params RECV_BUFFER_SIZE, idle_world sample_env)).2.

Definition downloading : UW :=
  (set_phase 6 0 true (set_download (Some opened.1)
     (fresh [REnv (WBackend 0 EvConnectOk); pkt "abcdef"; pkt "flash:swu"]).1), opened.2).

Lemma opened_sink : sink_at 0 opened.1 opened.2 [].
Proof.
  pose proof (link_open 0 (session_new default_params RECV_BUFFER_SIZE) (idle_world sample_env)
    eq_refl eq_refl eq_refl) as H.
  pose proof (open_inv (P := backend_ok) (C := fun cap => 0 < cap)
    (session_new default_params RECV_BUFFER_SIZE, idle_world sample_env)
    (conj (Forall_nil_2 _) (queue_capacity_pos _))) as [Hok _].
  unfold opened. destruct (open _) as [[u|e] [s w]] eqn:E; [|vm_compute in E; discriminate].
  split; [exact Hok|]. exists [], Live. split; [apply H|auto].
Qed.

Lemma downloading_receives :
  receiving 0 [] [] (bs "abcdef") [pkt "flash:swu"] downloading.
Proof.
  split; try (vm_compute; done).
  - apply sends_env, sends_short. vm_compute. done.
  - vm_compute. split; [done|]. split; [done|]. by exists 32.
  - exists opened.1. split; [done|]. exact opened_sink.
Qed.

Lemma usb_data_phase_witness :
  exists k uw', (k <= 6)%nat /\
    connected_loop (take k (replicate 6 calm)) (wt, downloading) = (true, ([], (wt, uw'))) /\
    (phase_done 0 [] (bs "abcdef") [pkt "flash:swu"] uw' \/
     exists rd uw2 fed more, replicate 6 calm !! k = Some rd /\ connected_turn rd (wt, uw') = (Parked, (wt, uw2)) /\
       bs "abcdef" = fed ++ more /\ more <> [] /\ full 0 fed uw2.2).
Proof.
  apply (usb_data_phase 0 [] [] (bs "abcdef") [pkt "flash:swu"] (replicate 6 calm) wt downloading).
  - exact downloading_receives.
  - repeat constructor.
  - reflexivity.
  - vm_compute. lia.
Defined.

(** The host unplugs in the middle of a download. *)
Abbreviation unplugged :=
  (serve_connected [calm; calm; {| rd_before := [CtlSend false]; rd_sched := []; rd_after := [] |}]
    (wt, ((fresh [pkt "download:00000006"; pkt "ab"]).1, (fresh [pkt "download:00000006"; pkt "ab"]).2))).

Lemma serve_connected_teardown_witness :
  exists rounds' wt' u' w', unplugged = (false, (rounds', (wt', (u', w')))) /\ clean u' /\ released w' /\
    length (w_transfers w') = 1%nat.
Proof.
  destruct unplugged as [inside [rounds' [wt' [u' w']]]] eqn:E.
  assert (inside = false) as -> by (vm_compute in E; injection E as <- _ _ _ _; reflexivity).
  exists rounds', wt', u', w'. split; [reflexivity|].
  destruct (serve_connected_teardown [calm; calm; {| rd_before := [CtlSend false]; rd_sched := []; rd_after := [] |}]
    wt (fresh [pkt "download:00000006"; pkt "ab"]).1 (fresh [pkt "download:00000006"; pkt "ab"]).2 rounds' wt' u' w')
    as [Hc Hr].
  - intros i b H. destruct i; discriminate H.
  - exact E.
  - split; [exact Hc|]. split; [exact Hr|]. vm_compute in E. injection E as _ _ _ <-. reflexivity.
Defined.

End UsbDemo.
