(* ===== verification/UsbService.v ===== *)
(** * The fastboot-usb service

    Models [serve] of crates/summit-usbgadget-fastboot-usb/src/lib.rs: the
    endpoint-zero loop of [FunctionFs] with the handler [FastbootControl], and the
    bulk data loop of [FastbootUsb], run side by side and connected by the enable
    signal alone, until one of them ends and the other is dropped with it. *)

From stdpp Require Import sets.
From S2P Require Import Prelude Io Session Link Owner FunctionFs FastbootUsb UsbTeardown.

(** ** The control loop, as the data loop sees it *)

(** What the handler of an event publishes. *)
Definition signals_of (ev : Event) : list Ctl :=
  match ev with
  | Enable => [CtlSend true]
  | Disable | Unbind => [CtlSend false]
  | _ => []
  end.

(** The signals of a run of the control loop, and whether it ended: only the
    tearing down of endpoint zero ends it. *)
Fixpoint control_signals (l : list (io_result Event)) : bool * list Ctl :=
  match l with
  | [] => (false, [])
  | Ok ev :: l => let (ended, cs) := control_signals l in (ended, signals_of ev ++ cs)
  | Err e :: l => if is_torn_down_transport_error e then (true, []) else control_signals l
  end.

(** The background events that pass meanwhile. *)
Fixpoint control_env (steps : list (list wevent * io_result Event)) : list wevent :=
  match steps with
  | [] => []
  | (env, r) :: steps =>
      env ++ match r with
             | Ok (SetupHostToDevice _ data) => ds_env data ++ control_env steps
             | Ok _ => control_env steps
             | Err e => if is_torn_down_transport_error e then [] else control_env steps
             end
  end.

(** It is the loop of [FunctionFs] with this handler: endpoint zero is waited for
    without a limit. *)
Lemma control_is_serve_loop steps wt w :
  serve_loop ((fun p => {| es_env := p.1; es_wait := Ep0Next p.2 |}) <$> steps) (wt, w) =
  let (ended, cs) := control_signals (snd <$> steps) in
  (ended, (foldl watch_step wt cs, wsteps (control_env steps) w)).
Proof.
  revert wt w. induction steps as [|[env r] steps IH]; intros wt w; [done|].
  cbn [fmap list_fmap serve_loop control_signals control_env fst snd next_step es_wait es_env].
  destruct r as [ev|e]; cbn [serve_step].
  - destruct ev; cbn [handle_event FastbootControl snd signals_of]; rewrite IH;
      destruct (control_signals (snd <$> steps)) as [ended cs]; cbn; unfold wsteps; by rewrite !foldl_app.
  - destruct (is_torn_down_transport_error e); [by rewrite app_nil_r|].
    destruct (is_setup_superseded_error e); [|case_bool_decide]; cbn; rewrite IH;
      destruct (control_signals (snd <$> steps)) as [ended cs]; unfold wsteps; by rewrite foldl_app.
Qed.

(** ** The service *)

(** One turn of the data loop, with what endpoint zero delivers before the turn
    waits and while it waits, and the background events of the turn. *)
Record Slot := {
  sl_before : list (io_result Event);
  sl_sched : list wevent;
  sl_after : list (io_result Event);
}.

(** The turns up to the end of the control loop, and whether it ends. *)
Fixpoint rounds_of (slots : list Slot) : bool * list Round :=
  match slots with
  | [] => (false, [])
  | s :: slots =>
      let (ended1, before) := control_signals (sl_before s) in
      if ended1 then (true, [{| rd_before := before; rd_sched := []; rd_after := [] |}]) else
      let (ended2, after) := control_signals (sl_after s) in
      let rd := {| rd_before := before; rd_sched := sl_sched s; rd_after := after |} in
      if ended2 then (true, [rd])
      else let (ended, rounds) := rounds_of slots in (ended, rd :: rounds)
  end.

(** The data loop's state is dropped with its future. *)
Definition drop_state : UW -> World := fun '(u, w) =>
  match u_download u with Some s => drop_session s w | None => w end.

Inductive Service := Running (d : DL) | Returned_ (w : World).

(** [serve]: [fd] is the outcome of opening endpoint zero. *)
Definition usb_serve (fd : io_result unit) (slots : list Slot) (u : FastbootUsbState) (w : World) : Service :=
  match fd with
  | Err _ => Returned_ (drop_state (u, w))
  | Ok _ =>
      let (control_ended, rounds) := rounds_of slots in
      let '(data_ended, (wt, uw)) := data_loop rounds (watch_channel false, (u, w)) in
      if control_ended || data_ended then Returned_ (drop_state uw) else Running (wt, uw)
  end.

(** ** The data loop never outlives or leaves the control loop *)

(** The sender of the signal lives as long as the service. *)
Definition no_close (rd : Round) : Prop := CtlClosed ∉ rd_before rd /\ CtlClosed ∉ rd_after rd.

Lemma signals_no_close l : CtlClosed ∉ (control_signals l).2.
Proof.
  induction l as [|[ev|e] l IH]; cbn; [apply not_elem_of_nil| |].
  - destruct (control_signals l). cbn in *. rewrite elem_of_app. intros [H|H]; [|done].
    destruct ev; cbn in H; set_solver.
  - destruct (is_torn_down_transport_error e); [apply not_elem_of_nil|done].
Qed.

Lemma rounds_no_close slots : Forall no_close (rounds_of slots).2.
Proof.
  induction slots as [|s slots IH]; cbn [rounds_of]; [constructor|].
  pose proof (signals_no_close (sl_before s)) as Hb. pose proof (signals_no_close (sl_after s)) as Ha.
  destruct (control_signals (sl_before s)) as [[] cs1]; [apply Forall_singleton; split; [done|apply not_elem_of_nil]|].
  destruct (control_signals (sl_after s)) as [[] cs2]; [by apply Forall_singleton|].
  destruct (rounds_of slots). by constructor.
Qed.

Lemma watch_open cs wt : CtlClosed ∉ cs -> wt_closed wt = false -> wt_closed (foldl watch_step wt cs) = false.
Proof.
  revert wt. induction cs as [|[v|] cs IH]; intros wt Hn Hc; [done|apply IH; set_solver|set_solver].
Qed.

Lemma changed_open wt ok wt' : wt_closed wt = false -> changed wt = Some (ok, wt') -> ok = true /\ wt_closed wt' = false.
Proof. unfold changed. intros Hc. rewrite Hc. destruct (negb _); [|done]. by intros [= <- <-]. Qed.

Lemma wait_open rounds d en rounds' d' :
  Forall no_close rounds -> wt_closed d.1 = false -> wait_for_enabled rounds d = (en, (rounds', d')) ->
  en <> Some false /\ wt_closed d'.1 = false /\ Forall no_close rounds'.
Proof.
  revert d. induction rounds as [|rd rounds IH]; intros [wt [u w]] Hf Hc; cbn [wait_for_enabled]; [by intros [= <- <- <-]|].
  apply Forall_cons_1 in Hf as [[Hb Ha] Hf]. cbn in Hc.
  assert (wt_closed (foldl watch_step wt (rd_before rd ++ rd_after rd)) = false) as Hc1 by (apply watch_open; set_solver).
  destruct (changed _) as [[ok wt1]|] eqn:E; [|by apply IH].
  destruct (changed_open _ _ _ Hc1 E) as [-> Hc2]. destruct (wt_value wt1); [by intros [= <- <- <-]|].
  rewrite Hc2. by apply IH.
Qed.

Lemma turn_open rd wt uw t wt' uw' :
  no_close rd -> wt_closed wt = false -> connected_turn rd (wt, uw) = (t, (wt', uw')) -> wt_closed wt' = false.
Proof.
  intros [Hb Ha] Hc. unfold connected_turn. set (uw1 := (submit_recv _).2).
  destruct (u_gadget_torn_down uw1.1); [by intros [= _ <- _]|].
  pose proof (watch_open _ _ Hb Hc) as Hc1. set (wt1 := foldl watch_step wt (rd_before rd)) in *.
  assert (forall wt uw t wt' uw', wt_closed wt = false -> on_signal (wt, uw) = Some (t, (wt', uw')) -> wt_closed wt' = false) as Hs.
  { clear. intros wt uw t wt' uw' Hc. unfold on_signal. destruct (changed wt) as [[ok wt1]|] eqn:E; [|done].
    destruct (changed_open _ _ _ Hc E) as [-> Hc1]. by destruct (_ || _); intros [= _ <- _]. }
  destruct (on_signal (wt1, uw1)) as [[t1 [wt2 uw2]]|] eqn:E; [intros [= _ <- _]; by eapply Hs|].
  destruct (if _ || _ then _ else _) as [step [l uw2]]. destruct step as [[[]|e]|]; [by intros [= _ <- _]..|].
  pose proof (watch_open _ _ Ha Hc1) as Hc2.
  destruct (on_signal (foldl watch_step wt1 (rd_after rd), uw2)) as [[t1 [wt3 uw3]]|] eqn:E3; cbn [default];
    intros [= _ <- _]; [by eapply Hs|done].
Qed.

(** The state the data loop holds, at every point of a run. *)
Lemma connected_owned rounds wt uw inside rounds' wt' uw' :
  Forall no_close rounds -> wt_closed wt = false -> u_owned uw ->
  connected_loop rounds (wt, uw) = (inside, (rounds', (wt', uw'))) ->
  Forall no_close rounds' /\ wt_closed wt' = false /\ u_owned uw'.
Proof.
  revert wt uw. induction rounds as [|rd rounds IH]; intros wt uw Hf Hc Ho; cbn [connected_loop];
    [by intros [= _ <- <- <-]|].
  apply Forall_cons_1 in Hf as [Hrd Hf]. pose proof (connected_turn_tears rd wt uw Ho) as Ht.
  destruct (connected_turn rd (wt, uw)) as [t [wt1 [u1 w1]]] eqn:E. pose proof (turn_open _ _ _ _ _ _ Hrd Hc E) as Hc1.
  destruct t; [by intros [= _ <- <- <-]|by apply IH|]. intros [= _ <- <- <-]. destruct Ht as [_ Hr].
  split_and!; [done..|]. by apply released_owned.
Qed.

Lemma wait_owned rounds d en rounds' d' :
  wait_for_enabled rounds d = (en, (rounds', d')) -> u_owned d.2 -> u_owned d'.2.
Proof.
  revert d. induction rounds as [|rd rounds IH]; intros [wt [u w]]; cbn [wait_for_enabled]; [by intros [= _ _ <-]|].
  intros E Ho. assert (u_owned (u, wsteps (rd_sched rd) w)) as Ho1 by (by apply owned_wsteps).
  destruct (changed _) as [[[] wt1]|]; [|by injection E as _ _ <-|by eapply IH].
  destruct (wt_value wt1); [by injection E as _ _ <-|]. destruct (wt_closed wt1); [by injection E as _ _ <-|].
  by eapply IH.
Qed.

Lemma data_loop_owned fuel acc rounds d ended d' :
  Forall no_close rounds -> wt_closed d.1 = false -> u_owned d.2 ->
  data_loop_from fuel acc rounds d = (ended, d') -> ended = false /\ u_owned d'.2.
Proof.
  revert acc rounds d. induction fuel as [|fuel IH]; intros acc rounds d Hf Hc Ho; cbn [data_loop_from];
    [by intros [= <- <-]|].
  set (wait := if acc && _ then _ else _). destruct wait as [en [rounds1 d1]] eqn:Ew. subst wait.
  assert (en <> Some false /\ wt_closed d1.1 = false /\ Forall no_close rounds1 /\ u_owned d1.2) as (Hen & Hc1 & Hf1 & Ho1).
  { destruct (acc && _); [by injection Ew as <- <- <-|].
    assert (wt_closed (if acc then mark_seen d.1 else d.1) = false) as Hm by (by destruct acc).
    destruct (wait_open _ (_, d.2) _ _ _ Hf Hm Ew) as (? & ? & ?).
    split_and!; try done. by apply (wait_owned _ _ _ _ _ Ew). }
  destruct en as [[]|]; [|done|by intros [= <- <-]]. destruct d1 as [wt1 [u1 w1]]. cbn [fst snd] in *.
  destruct (serve_connected rounds1 _) as [inside [rounds2 [wt2 uw2]]] eqn:Es.
  assert (Forall no_close rounds2 /\ wt_closed wt2 = false /\ u_owned uw2) as (Hf2 & Hc2 & Ho2).
  { unfold serve_connected in Es. eapply connected_owned; [exact Hf1|exact Hc1| |exact Es]. exact Ho1. }
  destruct inside; [by intros [= <- <-]|]. by apply IH.
Qed.

(** ** Nothing is touched before the host enables the function *)

Definition quiet (l : list (io_result Event)) : Prop := Ok Enable ∉ l.

Lemma quiet_signals l c : quiet l -> c ∈ (control_signals l).2 -> c = CtlSend false.
Proof.
  unfold quiet. induction l as [|[ev|e] l IH]; cbn; intros Hq; [by intros ?%not_elem_of_nil| |].
  - apply not_elem_of_cons in Hq as [Hne Hq]. destruct (control_signals l) as [ended cs]. cbn in *.
    intros [Hin|Hin]%elem_of_app; [|by apply IH]. destruct ev; set_solver.
  - apply not_elem_of_cons in Hq as [_ Hq].
    destruct (is_torn_down_transport_error e); [by intros ?%not_elem_of_nil|by apply IH].
Qed.

Definition quiet_round (rd : Round) : Prop :=
  forall c, c ∈ rd_before rd ++ rd_after rd -> c = CtlSend false.

Lemma quiet_rounds slots :
  Forall (fun s => quiet (sl_before s) /\ quiet (sl_after s)) slots -> Forall quiet_round (rounds_of slots).2.
Proof.
  induction 1 as [|s slots [Hb Ha] _ IH]; cbn [rounds_of]; [constructor|].
  pose proof (fun c => quiet_signals (sl_before s) c Hb) as Qb. pose proof (fun c => quiet_signals (sl_after s) c Ha) as Qa.
  destruct (control_signals (sl_before s)) as [e1 cs1], (control_signals (sl_after s)) as [e2 cs2]. cbn [snd] in *.
  assert (forall sched, quiet_round {| rd_before := cs1; rd_sched := sched; rd_after := cs2 |}) as Hr.
  { intros sched c [?|?]%elem_of_app; auto. }
  destruct e1; [apply Forall_singleton; intros c; cbn; rewrite app_nil_r; apply Qb|].
  destruct e2; [by apply Forall_singleton|]. destruct (rounds_of slots). by constructor.
Qed.

Lemma watch_quiet cs wt :
  (forall c, c ∈ cs -> c = CtlSend false) -> wt_value wt = false -> wt_value (foldl watch_step wt cs) = false.
Proof.
  revert wt. induction cs as [|c cs IH]; intros wt Hq Hv; [done|]. cbn. apply IH; [set_solver|].
  by rewrite (Hq c) by set_solver.
Qed.

Lemma wait_quiet rounds wt u w en rounds' d' :
  Forall quiet_round rounds -> Forall no_close rounds -> wt_value wt = false -> wt_closed wt = false ->
  wait_for_enabled rounds (wt, (u, w)) = (en, (rounds', d')) -> en = None /\ d'.2.1 = u.
Proof.
  revert wt w. induction rounds as [|rd rounds IH]; intros wt w Hq Hf Hv Hc; cbn [wait_for_enabled];
    [by intros [= <- _ <-]|].
  apply Forall_cons_1 in Hq as [Hrd Hq]. apply Forall_cons_1 in Hf as [[Hb Ha] Hf].
  assert (wt_closed (foldl watch_step wt (rd_before rd ++ rd_after rd)) = false) as Hc1 by (apply watch_open; set_solver).
  pose proof (watch_quiet _ _ Hrd Hv) as Hv1. set (wt1 := foldl watch_step wt _) in *.
  destruct (changed wt1) as [[ok wt2]|] eqn:E; [|by apply IH].
  destruct (changed_open _ _ _ Hc1 E) as [-> Hc2].
  assert (wt_value wt2 = false) as Hv2 by (revert E; unfold changed; destruct (negb _); [by intros [= <-]|by rewrite Hc1]).
  rewrite Hv2, Hc2. by apply IH.
Qed.

(** ** The service *)

Definition torn_down (r : io_result Event) : Prop := exists e, r = Err e /\ is_torn_down_transport_error e = true.

Lemma control_ends l : (control_signals l).1 = true <-> exists r, r ∈ l /\ torn_down r.
Proof.
  induction l as [|r l IH]; cbn; [split; [done|by intros (? & ?%not_elem_of_nil & _)]|].
  setoid_rewrite elem_of_cons. destruct r as [ev|e].
  - transitivity (exists r, r ∈ l /\ torn_down r); [destruct (control_signals l); exact IH|].
    split; [naive_solver|]. intros (r & [->|Hr] & Ht); [destruct Ht as (? & ? & ?); done|eauto].
  - destruct (is_torn_down_transport_error e) eqn:E; cbn.
    + split; [|done]. intros _. exists (Err e). split; [by left|by exists e].
    + rewrite IH. split; [naive_solver|]. intros (r & [->|Hr] & Ht); [destruct Ht as (? & [= <-] & ?); congruence|eauto].
Qed.

Lemma rounds_end slots :
  (rounds_of slots).1 = true <-> exists s r, s ∈ slots /\ r ∈ sl_before s ++ sl_after s /\ torn_down r.
Proof.
  induction slots as [|s slots IH]; cbn [rounds_of]; [split; [done|by intros (? & ? & ?%not_elem_of_nil & _)]|].
  pose proof (control_ends (sl_before s)) as Hb. pose proof (control_ends (sl_after s)) as Ha.
  destruct (control_signals (sl_before s)) as [e1 cs1], (control_signals (sl_after s)) as [e2 cs2]. cbn [fst] in *.
  destruct e1.
  { split; [|done]. intros _. destruct (proj1 Hb eq_refl) as (r & Hr & Ht). exists s, r.
    split_and!; [by left|by apply elem_of_app; left|done]. }
  destruct e2.
  { split; [|done]. intros _. destruct (proj1 Ha eq_refl) as (r & Hr & Ht). exists s, r.
    split_and!; [by left|by apply elem_of_app; right|done]. }
  destruct (rounds_of slots) as [ended rounds]. cbn [fst] in *. rewrite IH. split.
  - intros (x & r & Hx & Hr). exists x, r. split; [by right|done].
  - intros (x & r & [->|Hx]%elem_of_cons & Hr & Ht); [|by exists x, r].
    assert (false = true); [|done]. apply elem_of_app in Hr as [Hr|Hr]; [apply Hb|apply Ha]; by exists r.
Qed.

(** C14. The fastboot-usb service as a whole. It returns exactly when endpoint zero could
    not be opened or was torn down, whatever the data loop is in the middle of, and
    then no transfer keeps an open sender, so that SWUpdate sees the end of a
    stream that was cut off; the data loop alone never ends it. Until the host has
    enabled the function, neither bulk endpoint is touched and nothing is
    received. *)
Theorem usb_service_ends fd slots rx tx params serial mps w :
  released w ->
  let u0 := state_new rx tx params serial mps in
  (match usb_serve fd slots u0 w with
   | Returned_ w' => released w'
   | Running (_, uw) => u_owned uw
   end) /\
  ((exists w', usb_serve fd slots u0 w = Returned_ w') <->
     is_ok fd = false \/ exists s r, s ∈ slots /\ r ∈ sl_before s ++ sl_after s /\ torn_down r) /\
  (Forall (fun s => quiet (sl_before s) /\ quiet (sl_after s)) slots ->
   forall wt uw, usb_serve fd slots u0 w = Running (wt, uw) -> uw.1 = u0).
Proof.
  intros Hw u0. assert (u_owned (u0, w)) as Ho by exact Hw.
  assert (forall uw, u_owned uw -> released (drop_state uw)) as Hdrop.
  { intros [u w1] H. unfold drop_state, u_owned, u_handle in *. cbn in H.
    destruct (u_download u); [by apply drop_session_released|done]. }
  unfold usb_serve. destruct fd as [[]|e]; cbn [is_ok].
  2: { split_and!; [by apply Hdrop|naive_solver|done]. }
  pose proof (rounds_no_close slots) as Hf. pose proof (rounds_end slots) as He.
  pose proof (quiet_rounds slots) as Hq. destruct (rounds_of slots) as [ended rounds]. cbn [fst snd] in *.
  unfold data_loop. destruct (data_loop_from _ true rounds _) as [data_ended [wt uw]] eqn:E.
  destruct (data_loop_owned _ _ _ (watch_channel false, (u0, w)) _ _ Hf eq_refl Ho E) as [-> Huw]. cbn [snd] in Huw. rewrite orb_false_r.
  split_and!.
  - destruct ended; [by apply Hdrop|done].
  - rewrite <- He. destruct ended; split; naive_solver.
  - intros Hs wt' uw' Hr. destruct ended; [done|]. injection Hr as <- <-. specialize (Hq Hs).
    cbn [data_loop_from andb fst snd wt_value watch_channel] in E.
    destruct (wait_for_enabled rounds _) as [en [rounds1 d1]] eqn:Ew.
    destruct (wait_quiet _ (mark_seen (watch_channel false)) _ _ _ _ _ Hq Hf eq_refl eq_refl Ew) as [-> Hu].
    injection E as ->. exact Hu.
Qed.

Module ServiceDemo.
(** A host that enables the function, announces eight bytes and sends five; then
    the gadget is taken away. *)
Definition cut_off : list Slot :=
  [{| sl_before := [Ok Bind; Ok Enable]; sl_sched := []; sl_after := [] |};
   {| sl_before := []; sl_sched := []; sl_after := [] |};
   {| sl_before := []; sl_sched := []; sl_after := [] |};
   {| sl_before := []; sl_sched := []; sl_after := [Ok Disable; Ok Unbind; Err (Os ENODEV)] |}].

Definition host : Rx := UsbDemo.rx [UsbDemo.pkt "download:00000008"; UsbDemo.pkt "abcde"].

Definition run (slots : list Slot) : Service :=
  usb_serve (Ok tt) slots (state_new host {| tx_out := []; tx_errors := [] |} default_params "abc" 512)
    (idle_world sample_env).

Definition transfers_begun (r : Service) : option nat :=
  match r with Returned_ w' => Some (length (w_transfers w')) | Running _ => None end.

Lemma run_cut_off : transfers_begun (run cut_off) = Some 1%nat.
Proof. vm_compute. reflexivity. Qed.

(** The transfer was begun, and its sender is gone. *)
Lemma usb_service_ends_witness :
  exists w', run cut_off = Returned_ w' /\ length (w_transfers w') = 1%nat /\ released w'.
Proof.
  destruct (usb_service_ends (Ok tt) cut_off host {| tx_out := []; tx_errors := [] |} default_params "abc" 512
    (idle_world sample_env) ltac:(intros i b Hb; discriminate Hb)) as [Hr _].
  cbv zeta in Hr. pose proof run_cut_off as Hn. revert Hr Hn. unfold run.
  generalize (usb_serve (Ok tt) cut_off (state_new host {| tx_out := []; tx_errors := [] |} default_params "abc" 512)
    (idle_world sample_env)) as r.
  intros [d|w'] Hr Hn; [discriminate Hn|]. exists w'. injection Hn as Hn. auto.
Defined.
End ServiceDemo.
