(* ===== verification/SocketUpdate.v ===== *)
(** * The socket listener

    Models crates/summit-usbgadget-socket-update: the listener loop, the session
    that streams a connection into SWUpdate (lib.rs) and the TLS configuration
    (tls.rs). OpenSSL is an interface; a TLS stream is read and written like a
    plain one. *)

From S2P Require Import Prelude Io Bytes SysInfo Session Link Owner Pump Net.

(** ** TLS (tls.rs) *)

Record SocketTlsConfig := {
  tls_server_cert : string;
  tls_server_key : string;
  tls_request_client_cert : bool;
  tls_ca_cert : option string;
  tls_ignore_expiration : bool;
  tls_fips : bool;
}.

(** The calls of OpenSSL the code makes; an error carries its text. *)
Class OpenSsl := {
  load_provider : string -> result unit string;
  enable_fips : Z;
  builder_new : result unit string;
  set_certificate_chain_file : string -> result unit string;
  set_private_key_file : string -> result unit string;
  check_private_key : result unit string;
  set_ca_file : string -> result unit string;
}.

Inductive SslVerifyMode := VerifyNone | VerifyPeer.

(** How the acceptor judges a peer's certificate: the mode, and the callback if
    one is installed, given OpenSSL's own verdict and error code. *)
Record SslAcceptor := {
  acc_verify_mode : SslVerifyMode;
  acc_callback : option (bool -> Z -> bool);
}.

Definition is_ignorable_expiration_result (raw : Z) : bool :=
  (raw =? 9) || (raw =? 10) || (raw =? 13) || (raw =? 14).

Definition failed (what : string) (r : result unit string) : io_result unit :=
  map_err (fun err => other (what +:+ " failed: " +:+ err)) r.

Definition enable_fips_if_requested `{OpenSsl} (c : SocketTlsConfig) : io_result unit :=
  if negb (tls_fips c) then Ok tt else
  let? _ := failed "loading OpenSSL default provider" (load_provider "default") in
  let? _ := failed "loading OpenSSL FIPS provider" (load_provider "fips") in
  if negb (enable_fips =? 1) then Err (other "enabling OpenSSL FIPS default properties failed") else Ok tt.

Definition build_tls_acceptor `{OpenSsl} (c : SocketTlsConfig) : io_result SslAcceptor :=
  let? _ := enable_fips_if_requested c in
  let? _ := failed "OpenSSL TLS builder creation" builder_new in
  let? _ := failed ("loading OpenSSL server certificate chain " +:+ tls_server_cert c)
    (set_certificate_chain_file (tls_server_cert c)) in
  let? _ := failed ("loading OpenSSL server private key " +:+ tls_server_key c)
    (set_private_key_file (tls_server_key c)) in
  let? _ := map_err (fun err => other ("OpenSSL server certificate/key mismatch: " +:+ err))
    check_private_key in
  let? verify_mode :=
    (if tls_request_client_cert c then
      let? ca_cert := ok_or (Custom KInvalidInput "client certificate validation requires a ca_cert")
        (tls_ca_cert c) in
      let? _ := failed ("loading OpenSSL CA file " +:+ ca_cert) (set_ca_file ca_cert) in
      Ok VerifyPeer
    else Ok VerifyNone) in
  Ok {| acc_verify_mode := verify_mode;
        acc_callback :=
          if tls_ignore_expiration c
          then Some (fun preverified error => preverified || is_ignorable_expiration_result error)
          else None |}.

(** What the acceptor makes of a client's certificate: without a callback
    OpenSSL's own verdict stands. *)
Definition accepts_certificate (a : SslAcceptor) (preverified : bool) (error : Z) : bool :=
  match acc_verify_mode a with
  | VerifyNone => true
  | VerifyPeer => match acc_callback a with Some f => f preverified error | None => preverified end
  end.

(** The outcomes of OpenSSL for one connection: session and stream setup, and
    the handshake ([None]: it timed out). *)
Record TlsHandshake := {
  hs_ssl : result unit string;
  hs_stream : result unit string;
  hs_accept : option (result unit string);
}.

Definition accept `{OpenSsl} (c : SocketTlsConfig) (h : TlsHandshake) : io_result unit :=
  let? _ := build_tls_acceptor c in
  let? _ := failed "OpenSSL TLS session setup" (hs_ssl h) in
  let? _ := failed "OpenSSL stream setup" (hs_stream h) in
  match hs_accept h with
  | None => Err (Custom KTimedOut "TLS handshake timed out")
  | Some r => failed "TLS handshake" r
  end.

(** ** Configuration *)

Record SocketSourceConfig := {
  so_address : string;
  so_shutdown_timeout_secs : Z;
  so_inactivity_timeout_secs : Z;
  so_tls : option SocketTlsConfig;
  so_swupdate : SwupdateConfig;
}.

Definition default_socket_config : SocketSourceConfig := {|
  so_address := "0.0.0.0:9000"; so_shutdown_timeout_secs := 15; so_inactivity_timeout_secs := 30;
  so_tls := None;
  so_swupdate := {| cfg_download := None; cfg_software_set := None; cfg_image_mode := None;
    cfg_dry_run := None; cfg_disable_store_swu := None; cfg_timeout_secs := None |} |}.

Definition socket_swupdate_params (c : SocketSourceConfig) : result SwupdateParams SwupdateConfigError :=
  to_params (so_swupdate c).

(** ** One session *)

Definition SOCKET_READ_BUFFER_SIZE : Z := 128 * 1024.

Inductive PumpEnd := SourceClosed | SwupdateDone.

Abbreviation KW := (Conn * SW)%type.

Definition socket_inactive : io_error := Custom KTimedOut "socket update connection inactive".

(** [read_buf] into a buffer borrowed from the sink. *)
Definition read_socket_block : M KW (io_result (list byte)) := fun '(c, (s, w)) =>
  let '(_, (s, w)) := buffer (s, w) in
  let '(r, (c, w)) := read socket_inactive (Z.to_nat SOCKET_READ_BUFFER_SIZE) (c, w) in
  (Ok r, (c, (s, w))).

Definition on_ksink {A} (m : Async SW A) : Async KW A := fun l '(c, sw) =>
  let '(r, (l, sw)) := m l sw in (r, (l, (c, sw))).

(** [fuel] bounds the reads; each takes at least one byte. *)
Fixpoint pump (fuel : nat) : Async KW PumpEnd :=
  match fuel with
  | O => fun l k => (None, (l, k))
  | S fuel =>
      await! r := sync read_socket_block in
      match r with
      | Err _ | Ok [] => sync (ret SourceClosed)
      | Ok blk =>
          fun l '(c, (s, w)) =>
          let verdict := if is_open s then try_finished (s, w) else (None, (s, w)) in
          match verdict with
          | (Some (Ok _), sw) => (Some (Ok SwupdateDone), (l, (c, sw)))
          | (Some (Err e), sw) => (Some (Err e), (l, (c, sw)))
          | (None, sw) =>
              (await! f := on_ksink (send blk) in
               match f with
               | FeedClosed => sync (ret SwupdateDone)
               | _ => pump fuel
               end) l (c, sw)
          end
      end
  end.

(** The rest of a session after the pump; a failed session aborts the sink. *)
Definition conclude (o : io_result PumpEnd) : Async SW unit := fun l '(s, w) =>
  match o with
  | Ok SourceClosed =>
      if is_open s then (await! _ := sync eof in finished) l (s, w) else (Some (Ok tt), (l, (s, w)))
  | Ok SwupdateDone => (Some (Ok tt), (l, (s, w)))
  | Err e => (Some (Err e), (l, (s, w)))
  end.

(** [shutdown] is the outcome of closing the stream in time; the sink is dropped
    at the end. *)
Definition stream_to_swupdate (fuel : nat) (p : SwupdateParams) (shutdown : io_result unit)
    : Async (Conn * World) unit := fun l '(c, w) =>
  match pump fuel l (c, (session_new p SOCKET_READ_BUFFER_SIZE, w)) with
  | (None, (l, (c, (s, w)))) => (None, (l, (c, w)))
  | (Some o, (l, (c, (s, w)))) =>
      match conclude o l (s, w) with
      | (None, (l, (s, w))) => (None, (l, (c, w)))
      | (Some result, (l, (s, w))) =>
          let '(_, (s, w)) := if is_err result then abort (s, w) else (Ok tt, (s, w)) in
          (Some (let? _ := shutdown in result), (l, (c, drop_session s w)))
      end
  end.

(** ** The listener *)

(** One turn of the listener: the outcomes of bind, accept and [peer_addr], the
    TLS handshake, the connection and what happens during the session. *)
Record Client := {
  cl_bind : io_result unit;
  cl_accept : io_result unit;
  cl_peer : io_result unit;
  cl_tls : TlsHandshake;
  cl_conn : Conn;
  cl_fuel : nat;
  cl_sched : list wevent;
  cl_shutdown : io_result unit;
}.

(** [None]: the session is still running at the end of its schedule. A session
    that failed is only logged. *)
Definition serve_client `{OpenSsl} (cfg : SocketSourceConfig) (p : SwupdateParams) (cl : Client)
    (w : World) : option (io_result unit) * World :=
  match (let? _ := cl_bind cl in let? _ := cl_accept cl in let? _ := cl_peer cl in
         match so_tls cfg with Some tls => accept tls (cl_tls cl) | None => Ok tt end) with
  | Err e => (Some (Err e), w)
  | Ok _ =>
      match stream_to_swupdate (cl_fuel cl) p (cl_shutdown cl) (cl_sched cl) (cl_conn cl, w) with
      | (Some _, (_, (_, w))) => (Some (Ok tt), w)
      | (None, (_, (_, w))) => (None, w)
      end
  end.

(** The loop over the clients of a run; an error ends the service. *)
Fixpoint serve_swupdate `{OpenSsl} (cfg : SocketSourceConfig) (p : SwupdateParams) (clients : list Client)
    (w : World) : option (io_result unit) * World :=
  match clients with
  | [] => (None, w)
  | cl :: clients =>
      match serve_client cfg p cl w with
      | (Some (Ok _), w) => serve_swupdate cfg p clients w
      | out => out
      end
  end.

(** ** The TLS policy *)

(** The TLS policy: when a configuration yields an acceptor, clients are
    verified exactly when it asks for client certificates, which it may only do
    with a CA; a verified client is accepted if OpenSSL accepts its certificate
    or, when expiration is ignored, if the only complaint is a date. *)
Theorem tls_policy `{OpenSsl} c a :
  build_tls_acceptor c = Ok a ->
  (tls_request_client_cert c = true -> exists ca, tls_ca_cert c = Some ca /\ set_ca_file ca = Ok tt) /\
  forall preverified error,
    accepts_certificate a preverified error
    = negb (tls_request_client_cert c) || preverified ||
      (tls_ignore_expiration c && is_ignorable_expiration_result error).
Proof.
  unfold build_tls_acceptor, rbind. destruct (enable_fips_if_requested c); [|done].
  destruct (failed _ builder_new); [|done]. destruct (failed _ (set_certificate_chain_file _)); [|done].
  destruct (failed _ (set_private_key_file _)); [|done]. destruct (map_err _ check_private_key); [|done].
  destruct (tls_request_client_cert c).
  - destruct (tls_ca_cert c) as [ca|]; [|done]. unfold ok_or, failed.
    destruct (set_ca_file ca) as [[]|e] eqn:Eca; cbn; [|done]. intros [= <-]. split; [by exists ca|].
    intros pv err. unfold accepts_certificate. cbn. destruct (tls_ignore_expiration c), pv; cbn; done || by rewrite ?orb_false_r.
  - intros [= <-]. done.
Qed.

(** ** Sessions *)

Lemma read_socket_block_law n c s w L m data :
  arrives (c_in c) -> stream (c_in c) = data -> Link n s w L m -> world_ok w ->
  exists blk l' w', read_socket_block (c, (s, w)) = (Ok (Ok blk), (set_in l' c, (s, w'))) /\
    data = blk ++ stream l' /\ (blk = [] -> data = []) /\ arrives l' /\ Link n s w' L m /\ world_ok w'.
Proof.
  intros Ha Hs HL Hok. unfold read_socket_block. destruct (link_buffer n s w L m HL) as (w1 & Hb & HL1).
  pose proof (buffer_inv (P := backend_ok) (C := fun cap => 0 < cap) (s, w)
      (conj Hok (queue_capacity_pos _))) as [Hok1 _].
  rewrite Hb in Hok1 |- *. cbn [snd] in Hok1.
  destruct (read_arrives socket_inactive (Z.to_nat SOCKET_READ_BUFFER_SIZE) c w1)
    as (got & l' & w2 & -> & Hs2 & Ha2 & _ & Hnil & Hw); [unfold SOCKET_READ_BUFFER_SIZE; lia|done|].
  exists got, l', w2. split; [done|]. rewrite <- Hs. repeat split; try done.
  - by eapply same_world_link.
  - by eapply same_world_ok.
Qed.

(** The sink after the pump, for a stream that carried [data] after [L]. *)
Definition pumped_to (n : nat) (L data : list byte) (m : Mode)
    (o : option (io_result PumpEnd) * (list wevent * KW)) : Prop :=
  match o with
  | (None, (l, _)) => l = []
  | (Some r, (_, (_, (s, w)))) =>
      match r with
      | Ok SourceClosed => world_ok w /\ exists m', Link n s w (L ++ data) m' /\ s_terminal s = None /\
          ((m' = m /\ data = []) \/ m' = Live)
      | Ok SwupdateDone => world_ok w /\ exists lost m' b, Link n s w (concat (bk_log b)) m' /\
          L ++ data = concat (bk_log b) ++ lost /\ lost <> [] /\
          w_transfers w !! n = Some b /\ bk_drain b <> DrClosed /\ (succeeded b = true \/ dead b)
      | Err _ => True
      end
  end.

Lemma poll_success n s w L m s' w' :
  poll_status (s, w) = (Some (Ok tt), (s', w')) -> Link n s w L m -> s_terminal s = None ->
  m <> Unopened /\ exists b, w_transfers w' !! n = Some b /\ succeeded b = true.
Proof.
  intros E HL Ht. destruct (link_poll_status _ _ _ _ _ _ _ _ E HL) as (_ & Hw & Hun).
  assert (m <> Unopened) as Hm by (intros ->; specialize (Hun eq_refl); congruence).
  split; [done|]. destruct (link_backend _ _ _ _ _ HL Hm) as (b & Hb & Hh).
  exists b. rewrite Hw. split; [done|]. revert E. unfold poll_status. rewrite Ht.
  destruct (h_status _ _ _ Hh) as [[Hst _]|(_ & ? & _)]; [|done].
  rewrite Hst. unfold transfer. simpl. rewrite Hb. simpl. unfold succeeded.
  by destruct (bk_status b) as [|[[[]|e]|msg]|].
Qed.

Lemma poll_pending_terminal s w s' w' :
  poll_status (s, w) = (None, (s', w')) -> s_terminal s' = None /\ s_tx s' = s_tx s.
Proof.
  unfold poll_status. destruct (s_terminal s) as [[[]|]|] eqn:Et; try done.
  destruct (transfer (s_status s) w) as [b|]; [|done].
  destruct (bk_status b) as [|[[[]|e]|msg]|]; try done. by intros [= <- _].
Qed.

(** Sending a block does not settle the verdict. *)
Definition unsettled (sw : SW) : Prop := s_terminal sw.1 = None.

Lemma feed_unsettled item : preserves unsettled (feed item).
Proof.
  intros [s w] H. unfold feed. destruct (transfer (s_tx s) w) as [b|]; [|done]. by destruct (chan_try_send b).
Qed.

Lemma send_unsettled item : apreserves unsettled (send item).
Proof.
  apply apreserves_abind.
  - apply apreserves_sync. intros [s w] H. unfold ensure_open. destruct (_ || _); [done|].
    unfold open. destruct (is_open s); [done|]. by destruct (reject_if_restart_pending w).
  - intros _. apply apreserves_wait; [|by intros ev [s w]]. intros sw H. unfold poll_send.
    pose proof (feed_unsettled item sw H) as Hf. by destruct (feed item sw) as [[[]|] sw'].
Qed.

Lemma on_ksink_send item l c sw :
  on_ksink (send item) l (c, sw)
  = ((send item l sw).1, ((send item l sw).2.1, (c, (send item l sw).2.2))).
Proof. unfold on_ksink. by destruct (send item l sw) as [r [l' sw']]. Qed.

Lemma pump_delivers n fuel c l s w L m data :
  arrives (c_in c) -> stream (c_in c) = data -> (length data < fuel)%nat ->
  Link n s w L m -> m = Unopened \/ m = Live -> s_terminal s = None -> world_ok w ->
  pumped_to n L data m (pump fuel l (c, (s, w))).
Proof.
  revert c l s w L m data.
  induction fuel as [|fuel IH]; intros c l s w L m data Ha Hs Hf HL Hm Ht Hok; [lia|]. cbn [pump].
  destruct (read_socket_block_law n c s w L m data Ha Hs HL Hok)
    as (blk & l1 & w1 & Hr & Hd & Hnil & Ha1 & HL1 & Hok1).
  unfold abind at 1, sync at 1. rewrite Hr. destruct blk as [|b blk].
  { split; [done|]. exists m. specialize (Hnil eq_refl). subst data. rewrite Hnil, app_nil_r. auto. }
  set (item := b :: blk) in *. clear Hnil.
  assert (exists v s2 w2, (if is_open s then try_finished (s, w1) else (None, (s, w1))) = (v, (s2, w2)) /\
    Link n s2 w2 L m /\ world_ok w2 /\ (v = None -> s_terminal s2 = None) /\
    (v = Some (Ok tt) -> m <> Unopened /\ exists b, w_transfers w2 !! n = Some b /\ succeeded b = true))
    as (v & s2 & w2 & -> & HL2 & Hok2 & Ht2 & Hv2).
  { destruct (is_open s); [|by exists None, s, w1]. unfold try_finished.
    pose proof (poll_status_inv (P := backend_ok) (C := fun cap => 0 < cap) (s, w1)
      (conj Hok1 (queue_capacity_pos _))) as [Hok' _].
    destruct (poll_status (s, w1)) as [v [s2 w2]] eqn:E. exists v, s2, w2. split; [done|].
    destruct (link_poll_status _ _ _ _ _ _ _ _ E HL1) as [? _]. do 2 (split; [done|]). split.
    - intros ->. by eapply poll_pending_terminal.
    - intros ->. by eapply poll_success. }
  destruct v as [[[]|e]|]; [|done|].
  { destruct (Hv2 eq_refl) as (Hmu & b' & Hb' & Hsucc). split; [done|]. exists data, m, b'.
    destruct Hm as [-> | ->]; [done|]. inversion HL2 as [|b2 Hb2 Hlen2 Hh2 Htx2 Hop2| |]; subst L; simplify_eq.
    split; [done|]. split; [done|]. split; [by rewrite Hd|]. split; [done|]. split; [|auto]. intros Hc.
    destruct (bo_closed _ (world_ok_lookup _ _ _ Hok2 Hb') Hc) as (_ & ? & _). congruence. }
  specialize (Ht2 eq_refl). unfold abind at 1. rewrite on_ksink_send.
  pose proof (link_send n item l s2 w2 L m HL2 Hok2) as Hsend.
  pose proof (send_unsettled item l (s2, w2) Ht2) as Hun. pose proof (send_pending item l (s2, w2)) as Hpend.
  destruct (send item l (s2, w2)) as [[[[k|it|]|err]|] [l3 [s3 w3]]]; cbn [fst snd] in *.
  - destruct Hsend as [Hok3 HL3].
    assert (length (stream l1) < fuel)%nat as Hf1 by (rewrite Hd, length_app in Hf; cbn in Hf; lia).
    pose proof (IH (set_in l1 c) l3 s3 w3 (L ++ item) Live (stream l1) Ha1 eq_refl Hf1 HL3
      (or_intror eq_refl) Hun Hok3) as Hrec.
    unfold pumped_to in *. rewrite <- app_assoc, <- Hd in Hrec.
    destruct (pump fuel l3 (set_in l1 c, (s3, w3))) as [[[[]|e]|] [l4 [c4 [s4 w4]]]]; try done.
    destruct Hrec as (Hok4 & m' & HL4 & Ht4 & Hm4). split; [done|]. exists m'. split; [done|].
    split; [done|]. right. by destruct Hm4 as [[? _]|?].
  - by destruct Hsend as [_ []].
  - destruct Hsend as [Hok3 HL3]. split; [done|].
    assert (after_close m = Dead) as Hdead by (by destruct Hm as [-> | ->]). rewrite Hdead in HL3.
    inversion HL3 as [| | |b' Hb' Hlen' Hh' Htx' Hdd]; subst L. exists data, Dead, b'. split; [done|].
    split; [done|]. split; [by rewrite Hd|]. split; [done|]. split; [apply Hdd|auto].
  - done.
  - by eapply Hpend.
Qed.

(** ** Teardown *)

Definition k_owned (k : KW) : Prop := sw_owned k.2.

Lemma read_socket_block_owned : preserves k_owned read_socket_block.
Proof.
  intros [c [s w]] H. unfold read_socket_block. pose proof (buffer_owned (s, w) H) as Hb.
  destruct (buffer (s, w)) as [r [s1 w1]]. cbn [snd] in Hb.
  pose proof (env_only_read socket_inactive (Z.to_nat SOCKET_READ_BUFFER_SIZE) (c, w1)) as [evs Hw].
  destruct (read _ _ (c, w1)) as [r2 [c2 w2]]. cbn [snd] in Hw. subst w2.
  unfold k_owned, sw_owned. cbn. by apply owned_wsteps.
Qed.

Lemma socket_pump_owned fuel : apreserves k_owned (pump fuel).
Proof.
  induction fuel as [|fuel IH]; cbn [pump]; [by intros l k H|].
  apply apreserves_abind; [apply apreserves_sync, read_socket_block_owned|].
  intros [[|b blk]|e]; [apply apreserves_sync, preserves_ret| |apply apreserves_sync, preserves_ret].
  intros l [c [s w]] H. set (v := if is_open s then _ else _).
  assert (sw_owned v.2) as Hv by (subst v; destruct (is_open s); [by apply poll_status_owned|done]).
  destruct v as [[[[]|e]|] sw]; [done|done|]. cbn [snd] in Hv.
  eapply apreserves_abind; [| |exact Hv].
  - intros l2 [c2 sw2] H2. rewrite on_ksink_send. by apply send_owned.
  - intros [k|it|]; [apply IH|apply IH|apply apreserves_sync, preserves_ret].
Qed.

Lemma conclude_owned o : apreserves sw_owned (conclude o).
Proof.
  intros l [s w] H. unfold conclude. destruct o as [[]|e]; try done. destruct (is_open s); [|done].
  revert H. apply apreserves_abind; [apply apreserves_sync, eof_owned|intros _; apply finished_owned].
Qed.

(** However a session ends, its sender is gone. *)
Lemma stream_releases fuel p shutdown l c w r l' c' w' :
  released w -> stream_to_swupdate fuel p shutdown l (c, w) = (Some r, (l', (c', w'))) -> released w'.
Proof.
  intros Hw. unfold stream_to_swupdate.
  pose proof (socket_pump_owned fuel l (c, (session_new p SOCKET_READ_BUFFER_SIZE, w)) Hw) as H1.
  destruct (pump fuel l _) as [[o|] [l1 [c1 [s1 w1]]]]; [|done]. cbn [snd] in H1.
  pose proof (conclude_owned o l1 (s1, w1) H1) as H2.
  destruct (conclude o l1 (s1, w1)) as [[result|] [l2 [s2 w2]]]; [|done]. cbn [snd] in H2.
  assert (sw_owned (if is_err result then abort (s2, w2) else (Ok tt, (s2, w2))).2) as H3
    by (destruct (is_err result); [by apply abort_owned|done]).
  destruct (if is_err result then _ else _) as [r3 [s3 w3]]. intros [= _ _ _ <-].
  by apply drop_session_released.
Qed.

Lemma conclude_pending o l s w l' sw' : conclude o l (s, w) = (None, (l', sw')) -> l' = [].
Proof.
  unfold conclude. destruct o as [[]|e]; try done. destruct (is_open s); [|done].
  unfold abind, sync. destruct (eof (s, w)) as [[u|e] sw1]; [apply wait_pending|done].
Qed.


(** ** Runs *)

Module SocketDemo.

Definition conn (l : list NetIn) : Conn :=
  {| c_in := l; c_inactivity := Some 30; c_out := []; c_write_errors := [] |}.

#[local] Instance lenient : OpenSsl := {|
  load_provider _ := Ok tt; enable_fips := 1; builder_new := Ok tt;
  set_certificate_chain_file _ := Ok tt; set_private_key_file _ := Ok tt; check_private_key := Ok tt;
  set_ca_file _ := Ok tt |}.

Definition tls (ca : option string) : SocketTlsConfig := {|
  tls_server_cert := "cert.pem"; tls_server_key := "key.pem"; tls_request_client_cert := true;
  tls_ca_cert := ca; tls_ignore_expiration := true; tls_fips := false |}.

Lemma tls_policy_witness :
  exists a, build_tls_acceptor (tls (Some "ca.pem")) = Ok a /\
    accepts_certificate a false 10 = true /\ accepts_certificate a false 18 = false.
Proof.
  destruct (build_tls_acceptor (tls (Some "ca.pem"))) as [a|e] eqn:E; [|discriminate E].
  exists a. split; [reflexivity|]. destruct (tls_policy (tls (Some "ca.pem")) a E) as [_ H].
  rewrite !H. split; reflexivity.
Defined.

Definition sent_image : list NetIn := [NData (bs "abc"); NEnv (WBackend 0 EvConnectOk); NData (bs "def")].


(** What a session reports, the tasks left for a successful update, and the
    reboots. *)
Definition outcome (l : list NetIn) (sched : list wevent) : option (io_result unit) * (nat * nat) :=
  let o := stream_to_swupdate 9 default_params (Ok tt) sched (conn l, idle_world side_a_env) in
  (o.1, (length (w_success_tasks o.2.2.2), w_reboots o.2.2.2)).

(** A successful update schedules its success task. *)
Example session_success :
  outcome sent_image [WBackend 0 (EvStatus (Returned (Ok tt)))] = (Some (Ok tt), (1%nat, 0%nat)).
Proof. vm_compute. reflexivity. Qed.

(** SWUpdate stops reading early: the session ends without waiting for the
    verdict. A failure is then reported as a success, and the success task of an
    update that succeeds never runs. *)
Example closed_queue_skips_verdict :
  outcome [NData (bs "abc"); NEnv (WBackend 0 EvConnectOk); NEnv (WBackend 0 (EvWriteErr 1)); NData (bs "def")]
    [WBackend 0 (EvStatus (Returned (Err (other "bad image"))))] = (Some (Ok tt), (0%nat, 0%nat)).
Proof. vm_compute. reflexivity. Qed.

(** One client whose handshake fails ends the service. *)
Example failed_handshake_ends_service :
  serve_swupdate {| so_address := ""; so_shutdown_timeout_secs := 15; so_inactivity_timeout_secs := 30;
      so_tls := Some (tls (Some "ca.pem")); so_swupdate := so_swupdate default_socket_config |} default_params
    [{| cl_bind := Ok tt; cl_accept := Ok tt; cl_peer := Ok tt;
        cl_tls := {| hs_ssl := Ok tt; hs_stream := Ok tt; hs_accept := Some (Err "no shared cipher") |};
        cl_conn := conn []; cl_fuel := 1; cl_sched := []; cl_shutdown := Ok tt |}] (idle_world sample_env)
  = (Some (Err (other "TLS handshake failed: no shared cipher")), idle_world sample_env).
Proof. vm_compute. reflexivity. Qed.

End SocketDemo.
