(* ===== verification/UsbConfig.v ===== *)
(** * The composite gadget: configuration and functions

    Models the configuration types, the function registry and the controller
    selection of crates/summit-usbgadget-usb (config.rs, registry.rs, udc.rs),
    the functions the DFU and fastboot crates register, and how gadget.rs builds
    a function from its configuration. The TOML and MAC-address parsers are
    interfaces; the function builders of the patched usb-gadget library are
    represented by the values they collect. *)

From stdpp Require Import gmap.
From S2P Require Import Prelude Io Bytes SysInfo Session FunctionFs Dfu FastbootProto FastbootUsb.

(** ** Controller selection (udc.rs) *)

Inductive UdcSelector := One (s : string) | Many (v : list string).

Inductive Selection := First | All | Named (names : gset string).

Definition eq_ignore_ascii_case (a b : string) : bool :=
  bool_decide (to_ascii_lowercase <$> bs a = to_ascii_lowercase <$> bs b).

Definition is_all (s : string) : bool := eq_ignore_ascii_case s "all" || bool_decide (s = "*").
Definition is_first (s : string) : bool := eq_ignore_ascii_case s "first".

Definition from_config (selector : option UdcSelector) : Selection :=
  match selector with
  | None => All
  | Some (One s) => if is_all s then All else if is_first s then First else Named {[s]}
  | Some (Many v) =>
      if existsb is_all v then All else if existsb is_first v then First
      else Named (list_to_set v)
  end.

(** Whether the controller [name] should be bound, given those already bound. *)
Definition wants (sel : Selection) (name : string) (bound : gset string) : bool :=
  if bool_decide (name ∈ bound) then false else
  match sel with
  | First => bool_decide (bound = ∅)
  | All => true
  | Named names => bool_decide (name ∈ names)
  end.

Definition wants_more (sel : Selection) (bound : gset string) : bool :=
  match sel with
  | First => bool_decide (bound = ∅)
  | All => true
  | Named names => negb (bool_decide (names ⊆ bound))
  end.

(** ** Configuration types (config.rs) *)

Record SerialConfig := { sc_class : string; sc_console : option bool }.

Record NetConfig := {
  nc_class : string;
  nc_dev_addr : option string;
  nc_host_addr : option string;
  nc_qmult : option Z;
  nc_os_compatible_id : option string;
  nc_os_sub_compatible_id : option string;
  nc_interface_class : option Z;
  nc_interface_sub_class : option Z;
  nc_interface_protocol : option Z;
}.

Record LunConfig := {
  lc_file : option string;
  lc_read_only : option bool;
  lc_cdrom : option bool;
  lc_no_fua : option bool;
  lc_removable : option bool;
  lc_inquiry_string : option string;
}.

Record MsdConfig := { mc_stall : option bool; mc_lun : list LunConfig }.

Record OsDescriptorConfig := {
  oc_vendor_code : option Z;
  oc_qw_sign : option string;
  oc_config : option Z;
}.

Record DeviceConfig := {
  dv_vendor : Z;
  dv_product : Z;
  dv_class : option Z;
  dv_sub_class : option Z;
  dv_protocol : option Z;
  dv_manufacturer : option string;
  dv_product_name : option string;
  dv_product_name_source : option string;
  dv_serial : option string;
  dv_serial_source : option string;
}.

(** ** Functions as they are built *)

Record Class_ := { cls_class : Z; cls_sub_class : Z; cls_protocol : Z }.

Inductive SerialClass := Acm | Generic.
Inductive NetClass := Ecm | EcmSubset | Eem | Ncm | Rndis.

Record Net := {
  net_class : NetClass;
  net_dev_addr : option (list byte);
  net_host_addr : option (list byte);
  net_qmult : option Z;
  net_interface_class : option Class_;
}.

Record Lun := {
  lun_file : option string;
  lun_read_only : bool;
  lun_cdrom : bool;
  lun_no_fua : bool;
  lun_removable : bool;
  lun_inquiry_string : string;
}.

(** A function handle: what its builder was given. *)
Inductive Handle :=
| HSerial (class : SerialClass) (console : option bool)
| HNet (n : Net)
| HMsd (stall : option bool) (luns : list Lun)
| HCustom (class : Class_) (name : string).

Definition handle_is_custom (h : Handle) : bool := match h with HCustom _ _ => true | _ => false end.

(** ** The registry (registry.rs) *)

(** The services the registered functions contribute. *)
Inductive GadgetService :=
| DfuService (config : Dfu.DfuConfig)
| FastbootUsbService (params : SwupdateParams) (serial : string).

Record FunctionBuildContext := {
  claimed_singletons : list string;
  services : list GadgetService;
}.

Definition build_context_default : FunctionBuildContext :=
  {| claimed_singletons := []; services := [] |}.

Definition claim_singleton (kind : string) (c : FunctionBuildContext)
    : result unit string * FunctionBuildContext :=
  if bool_decide (kind ∈ claimed_singletons c)
  then (Err ("configuration declares more than one " +:+ kind +:+ " function"), c)
  else (Ok tt, {| claimed_singletons := kind :: claimed_singletons c; services := services c |}).

Definition push_service (s : GadgetService) (c : FunctionBuildContext) : FunctionBuildContext :=
  {| claimed_singletons := claimed_singletons c; services := services c ++ [s] |}.

Definition into_services (c : FunctionBuildContext) : list GadgetService := services c.

(** The types behind [as_any]. *)
Inductive AnyConfig :=
| AnyDfu (c : Dfu.DfuFnConfig)
| AnyFastbootUsb (c : FastbootUsb.FastbootUsbFnConfig).

(** The trait of a registered function's configuration. *)
Record RegisteredFunctionConfig := {
  rf_kind : string;
  rf_build : SysEnv -> string -> FunctionBuildContext ->
             result (option Handle) string * FunctionBuildContext;
  rf_as_any : AnyConfig;
}.

Definition DFU_MODE : Class_ := {| cls_class := 254; cls_sub_class := 1; cls_protocol := 2 |}.
Definition FASTBOOT_CLASS : Class_ := {| cls_class := 255; cls_sub_class := 66; cls_protocol := 3 |}.

Definition dfu_build (c : Dfu.DfuFnConfig) (env : SysEnv) (ser : string)
    : result (Handle * Dfu.DfuConfig) Dfu.DfuConfigError :=
  let? config := Dfu.to_config env c in Ok (HCustom DFU_MODE "swupdate", config).

(** An unsupported section is logged and skipped. *)
Definition dfu_function (c : Dfu.DfuFnConfig) : RegisteredFunctionConfig := {|
  rf_kind := "dfu";
  rf_build env ser ctx :=
    match claim_singleton "dfu" ctx with
    | (Err e, ctx) => (Err e, ctx)
    | (Ok _, ctx) =>
        match dfu_build c env ser with
        | Err _ => (Ok None, ctx)
        | Ok (handle, runtime) => (Ok (Some handle), push_service (DfuService runtime) ctx)
        end
    end;
  rf_as_any := AnyDfu c;
|}.

(** [build_dfu], for callers without a registry: the runtime goes to a slot. *)
Definition build_dfu (c : Dfu.DfuFnConfig) (env : SysEnv) (ser : string) (runtime_slot : option Dfu.DfuConfig)
    : result (option Handle) string * option Dfu.DfuConfig :=
  if isSome runtime_slot then (Err "configuration declares more than one DFU function", runtime_slot)
  else match dfu_build c env ser with
       | Err _ => (Ok None, runtime_slot)
       | Ok (handle, runtime) => (Ok (Some handle), Some runtime)
       end.

Definition fastboot_usb_build (c : FastbootUsb.FastbootUsbFnConfig) (ser : string)
    : result (Handle * (SwupdateParams * string)) SwupdateConfigError :=
  let? download := FastbootUsb.to_swupdate_params c in
  Ok (HCustom FASTBOOT_CLASS "fastboot-usb", (download, ser)).

Definition fastboot_usb_function (c : FastbootUsb.FastbootUsbFnConfig) : RegisteredFunctionConfig := {|
  rf_kind := "fastboot-usb";
  rf_build env ser ctx :=
    match claim_singleton "fastboot-usb" ctx with
    | (Err e, ctx) => (Err e, ctx)
    | (Ok _, ctx) =>
        match fastboot_usb_build c ser with
        | Err _ => (Ok None, ctx)
        | Ok (handle, (download, serial)) =>
            (Ok (Some handle), push_service (FastbootUsbService download serial) ctx)
        end
    end;
  rf_as_any := AnyFastbootUsb c;
|}.

Definition build_fastboot_usb (c : FastbootUsb.FastbootUsbFnConfig) (ser : string)
    (runtime_slot : option (SwupdateParams * string)) : result (option Handle) string * option (SwupdateParams * string) :=
  if isSome runtime_slot then (Err "configuration declares more than one fastboot-usb function", runtime_slot)
  else match fastboot_usb_build c ser with
       | Err _ => (Ok None, runtime_slot)
       | Ok (handle, runtime) => (Ok (Some handle), Some runtime)
       end.

(** ** Parsing function sections *)

Inductive Value :=
| VString (s : string)
| VInteger (z : Z)
| VBoolean (b : bool)
| VArray (l : list Value)
| VTable (t : list (string * Value)).

Abbreviation Table := (list (string * Value)).

Definition table_get (t : Table) (key : string) : option Value :=
  snd <$> head (filter (fun p => p.1 = key) t).

Definition as_str (v : Value) : option string := match v with VString s => Some s | _ => None end.

Inductive FunctionConfig :=
| FSerial (c : SerialConfig)
| FNet (c : NetConfig)
| FMsd (c : MsdConfig)
| FPlugin (c : RegisteredFunctionConfig).

Definition fn_kind (f : FunctionConfig) : string :=
  match f with
  | FSerial _ => "serial" | FNet _ => "net" | FMsd _ => "msd" | FPlugin c => rf_kind c
  end.

(** [FunctionConfig::plugin] boxes a configuration. *)
Definition plugin (c : RegisteredFunctionConfig) : FunctionConfig := FPlugin c.

(** [downcast_ref] to a type, given by its case of [as_any]. *)
Definition downcast_ref {T} (is_T : AnyConfig -> option T) (f : FunctionConfig) : option T :=
  match f with FPlugin c => is_T (rf_as_any c) | _ => None end.

Definition any_dfu (a : AnyConfig) : option Dfu.DfuFnConfig := match a with AnyDfu c => Some c | _ => None end.

Definition any_fastboot_usb (a : AnyConfig) : option FastbootUsb.FastbootUsbFnConfig :=
  match a with AnyFastbootUsb c => Some c | _ => None end.

Record FunctionRegistration := {
  fr_kind : string;
  fr_parse : Table -> result RegisteredFunctionConfig string;
}.

Definition registration_new (kind : string) (parse : Table -> result RegisteredFunctionConfig string)
    : FunctionRegistration := {| fr_kind := kind; fr_parse := parse |}.

(** [parse_registered_function], for a type with its deserializer and its
    implementation of the trait. *)
Definition parse_registered_function {T} (de : Table -> result T string) (boxed : T -> RegisteredFunctionConfig)
    (t : Table) : result RegisteredFunctionConfig string :=
  let? config := de t in Ok (boxed config).

(** The [declare_usb_function] of the two crates. *)
Definition declared_functions (de_dfu : Table -> result Dfu.DfuFnConfig string)
    (de_fastboot : Table -> result FastbootUsb.FastbootUsbFnConfig string) : list FunctionRegistration :=
  [registration_new "dfu" (parse_registered_function de_dfu dfu_function);
   registration_new "fastboot-usb" (parse_registered_function de_fastboot fastboot_usb_function)].

(** The deserializers of the built-in functions and the registrations that are
    compiled in. *)
Class Deserializers := {
  de_serial : Table -> result SerialConfig string;
  de_net : Table -> result NetConfig string;
  de_msd : Table -> result MsdConfig string;
  registrations : list FunctionRegistration;
}.

(** Rust's debug form of a plain string. *)
Definition quoted (s : string) : string := str_of_bytes ([Byte.x22] ++ bs s ++ [Byte.x22]).

(** [None]: no such function is compiled in. *)
Definition parse_function `{Deserializers} (kind : string) (t : Table)
    : result (option RegisteredFunctionConfig) string :=
  match filter (fun r => fr_kind r = kind) registrations with
  | [] => Ok None
  | [r] => let? c := fr_parse r t in Ok (Some c)
  | _ => Err ("multiple USB function registrations found for type " +:+ quoted kind)
  end.

Definition parse_builtin_function {T} (de : Table -> result T string) (t : Table) (wrap : T -> FunctionConfig)
    : result FunctionConfig string :=
  let? config := de t in Ok (wrap config).

Definition parse_function_config `{Deserializers} (t : Table) : result (option FunctionConfig) string :=
  let? kind := ok_or "USB function entry is missing string field `type`"
    (v ← table_get t "type"; as_str v) in
  if bool_decide (kind = "serial") then let? f := parse_builtin_function de_serial t FSerial in Ok (Some f)
  else if bool_decide (kind = "net") then let? f := parse_builtin_function de_net t FNet in Ok (Some f)
  else if bool_decide (kind = "msd") then let? f := parse_builtin_function de_msd t FMsd in Ok (Some f)
  else
    let? p := parse_function kind t in
    match p with Some c => Ok (Some (FPlugin c)) | None => Ok None end.

(** The first bad section fails the whole list; unsupported kinds are dropped. *)
Fixpoint deserialize_function_configs `{Deserializers} (tables : list Table)
    : result (list FunctionConfig) string :=
  match tables with
  | [] => Ok []
  | t :: tables =>
      let? f := parse_function_config t in
      let? fs := deserialize_function_configs tables in
      Ok (match f with Some f => f :: fs | None => fs end)
  end.

(** With both crates compiled in, a section of theirs is read by their own
    deserializer into a plugin that can be asked for its type again; a section of
    another type is dropped without an error. *)
Lemma declared_sections `{Deserializers} de_dfu de_fastboot t kind :
  registrations = declared_functions de_dfu de_fastboot ->
  (v ← table_get t "type"; as_str v) = Some kind ->
  (kind = "dfu" -> forall c, de_dfu t = Ok c ->
     exists f, parse_function_config t = Ok (Some f) /\ fn_kind f = kind /\ downcast_ref any_dfu f = Some c) /\
  (kind = "fastboot-usb" -> forall c, de_fastboot t = Ok c ->
     exists f, parse_function_config t = Ok (Some f) /\ fn_kind f = kind /\ downcast_ref any_fastboot_usb f = Some c) /\
  (kind ∉ ["serial"; "net"; "msd"; "dfu"; "fastboot-usb"] -> parse_function_config t = Ok None).
Proof.
  intros Hr Hk. unfold parse_function_config. rewrite Hk. cbn [ok_or rbind]. split_and!.
  - intros -> c Hc. rewrite !bool_decide_eq_false_2 by done. unfold parse_function. rewrite Hr. unfold declared_functions.
    rewrite filter_cons_True, filter_cons_False by done. cbn. unfold parse_registered_function. rewrite Hc.
    by exists (FPlugin (dfu_function c)).
  - intros -> c Hc. rewrite !bool_decide_eq_false_2 by done. unfold parse_function. rewrite Hr. unfold declared_functions.
    rewrite filter_cons_False, filter_cons_True by done. cbn. unfold parse_registered_function. rewrite Hc.
    by exists (FPlugin (fastboot_usb_function c)).
  - rewrite !not_elem_of_cons. intros (Hs & Hn & Hm & Hd & Hf & _).
    rewrite !bool_decide_eq_false_2 by done. unfold parse_function. rewrite Hr. unfold declared_functions.
    rewrite !filter_cons_False by (cbn; congruence). done.
Qed.

(** Outside of a registry the builders do what they do in a fresh one. *)
Lemma build_dfu_registered c env ser :
  (build_dfu c env ser None).1 = (rf_build (dfu_function c) env ser build_context_default).1 /\
  DfuService <$> (build_dfu c env ser None).2 =
    head (into_services (rf_build (dfu_function c) env ser build_context_default).2).
Proof. unfold build_dfu. cbn. by destruct (dfu_build c env ser) as [[h r]|]. Qed.

Record UsbConfigConfig := {
  uc_description : option string;
  uc_max_power : option Z;
  uc_self_powered : option bool;
  uc_remote_wakeup : option bool;
  uc_function : list FunctionConfig;
}.

Record GadgetConfig := {
  gc_name : option string;
  gc_udc : option UdcSelector;
  gc_os_descriptor : option OsDescriptorConfig;
  gc_device : DeviceConfig;
  gc_config : list UsbConfigConfig;
}.

(** ** Building functions (gadget.rs) *)

Record NetOsDescriptor := {
  no_function : Net;
  no_interface : string;
  no_compatible_id : string;
  no_sub_compatible_id : option string;
}.

Definition net_class_name (c : NetClass) : string :=
  match c with
  | Ecm => "Ecm" | EcmSubset => "EcmSubset" | Eem => "Eem" | Ncm => "Ncm" | Rndis => "Rndis"
  end.

Definition remember_net_os_descriptor (class : NetClass) (net : Net)
    (compatible_id sub_compatible_id : option string) (ds : list NetOsDescriptor)
    : result (list NetOsDescriptor) string :=
  match compatible_id with
  | None =>
      match sub_compatible_id with
      | Some _ => Err "os_sub_compatible_id requires os_compatible_id"
      | None => Ok ds
      end
  | Some id =>
      let? interface := match class with
        | Ncm => Ok "ncm"
        | Rndis => Ok "rndis"
        | o => Err ("os_compatible_id is only supported for ncm and rndis, got " +:+ net_class_name o)
        end in
      Ok (ds ++ [{| no_function := net; no_interface := interface; no_compatible_id := id;
                    no_sub_compatible_id := sub_compatible_id |}])
  end.

(** The MAC-address parser of the networking library. *)
Class MacParser := parse_mac : string -> result (list byte) string.

Definition build_serial (c : SerialConfig) : result Handle string :=
  let? class :=
    (if bool_decide (sc_class c = "acm") then Ok Acm
     else if bool_decide (sc_class c = "generic") then Ok Generic
     else Err ("unknown serial class: " +:+ sc_class c)) in
  Ok (HSerial class (sc_console c)).

Definition parse_net_class (s : string) : result NetClass string :=
  if bool_decide (s = "ecm") then Ok Ecm
  else if bool_decide (s = "ecm_subset") then Ok EcmSubset
  else if bool_decide (s = "eem") then Ok Eem
  else if bool_decide (s = "ncm") then Ok Ncm
  else if bool_decide (s = "rndis") then Ok Rndis
  else Err ("unknown net class: " +:+ s).

Definition parse_addr `{MacParser} (what : string) (a : option string) : result (option (list byte)) string :=
  match a with
  | None => Ok None
  | Some s => let? m := map_err (fun e => "bad " +:+ what +:+ ": " +:+ e) (parse_mac s) in Ok (Some m)
  end.

Definition build_net `{MacParser} (c : NetConfig) (ds : list NetOsDescriptor)
    : result (Handle * list NetOsDescriptor) string :=
  let? class := parse_net_class (nc_class c) in
  let? dev := parse_addr "dev_addr" (nc_dev_addr c) in
  let? host := parse_addr "host_addr" (nc_host_addr c) in
  let net := {|
    net_class := class; net_dev_addr := dev; net_host_addr := host; net_qmult := nc_qmult c;
    net_interface_class :=
      if isSome (nc_interface_class c) || isSome (nc_interface_sub_class c) || isSome (nc_interface_protocol c)
      then Some {| cls_class := default 0 (nc_interface_class c);
                   cls_sub_class := default 0 (nc_interface_sub_class c);
                   cls_protocol := default 0 (nc_interface_protocol c) |}
      else None |} in
  let? ds := remember_net_os_descriptor class net (nc_os_compatible_id c) (nc_os_sub_compatible_id c) ds in
  Ok (HNet net, ds).

Definition lun_default : Lun := {|
  lun_file := None; lun_read_only := false; lun_cdrom := false; lun_no_fua := false;
  lun_removable := true; lun_inquiry_string := "" |}.

(** [Lun::new]: the path of the backing file must be absolute. *)
Definition lun_new (file : string) : result Lun string :=
  if starts_with (bs "/") (bs file)
  then Ok {| lun_file := Some file; lun_read_only := false; lun_cdrom := false; lun_no_fua := false;
             lun_removable := true; lun_inquiry_string := "" |}
  else Err "the LUN file path must be absolute".

Definition build_lun (c : LunConfig) : result Lun string :=
  let? lun := match lc_file c with Some f => lun_new f | None => Ok lun_default end in
  Ok {| lun_file := lun_file lun;
        lun_read_only := default (lun_read_only lun) (lc_read_only c);
        lun_cdrom := default (lun_cdrom lun) (lc_cdrom c);
        lun_no_fua := default (lun_no_fua lun) (lc_no_fua c);
        lun_removable := default (lun_removable lun) (lc_removable c);
        lun_inquiry_string := default (lun_inquiry_string lun) (lc_inquiry_string c) |}.

Fixpoint build_luns (l : list LunConfig) : result (list Lun) string :=
  match l with
  | [] => Ok []
  | c :: l => let? lun := build_lun c in let? luns := build_luns l in Ok (lun :: luns)
  end.

Definition build_msd (c : MsdConfig) : result Handle string :=
  let? luns := build_luns (mc_lun c) in Ok (HMsd (mc_stall c) luns).

Record FunctionOutputs := { fo_net_os : list NetOsDescriptor; fo_plugin : FunctionBuildContext }.

Definition outputs_default : FunctionOutputs :=
  {| fo_net_os := []; fo_plugin := build_context_default |}.

Definition build_function `{MacParser} (env : SysEnv) (cfg : FunctionConfig) (ser : string)
    (o : FunctionOutputs) : result (option Handle) string * FunctionOutputs :=
  match cfg with
  | FSerial c => (let? h := build_serial c in Ok (Some h), o)
  | FNet c =>
      match build_net c (fo_net_os o) with
      | Ok (h, ds) => (Ok (Some h), {| fo_net_os := ds; fo_plugin := fo_plugin o |})
      | Err e => (Err e, o)
      end
  | FMsd c => (let? h := build_msd c in Ok (Some h), o)
  | FPlugin c =>
      let '(r, ctx) := rf_build c env ser (fo_plugin o) in
      (r, {| fo_net_os := fo_net_os o; fo_plugin := ctx |})
  end.
