(* ===== verification/Gadget.v ===== *)
(** * The composite gadget: controllers and lifetime

    Models gadget.rs of crates/summit-usbgadget-usb: building and registering a
    gadget on a controller, the retry without DFU, the cleanup of a failed
    registration, and the loop that binds controllers as they appear and unbinds
    them as they go. Configfs is represented by the set of gadget directories in
    it; the outcomes of its operations are part of the script of a run. *)

From stdpp Require Import gmap.
From S2P Require Import Prelude Io Bytes SysInfo Session FunctionFs Dfu FastbootProto FastbootUsb UsbConfig.

(** ** The gadget description *)

Inductive Speed := SpUnknown | LowSpeed | FullSpeed | HighSpeed | SuperSpeed | SuperSpeedPlus.
Inductive UsbVersion := V11 | V20 | V21 | V30 | V31.

Record OsDescriptor := { od_vendor_code : Z; od_qw_sign : string; od_config : Z }.

Definition microsoft : OsDescriptor := {| od_vendor_code := 240; od_qw_sign := "MSFT100"; od_config := 0 |}.

Record Config := {
  cf_max_power : Z;
  cf_self_powered : bool;
  cf_remote_wakeup : bool;
  cf_description : string;
  cf_functions : list Handle;
}.

Record Gadget := {
  gd_name : string;
  gd_class : Class_;
  gd_id : Z * Z;
  gd_strings : string * string * string;
  gd_usb_version : UsbVersion;
  gd_max_speed : option Speed;
  gd_os_descriptor : option OsDescriptor;
  gd_configs : list Config;
}.

(** The speed the gadget advertises on a controller; the query may fail. *)
Definition gadget_speed (max_speed : option Speed) : UsbVersion * option Speed :=
  match max_speed with
  | Some SuperSpeed => (V30, Some SuperSpeed)
  | Some SuperSpeedPlus => (V31, Some SuperSpeedPlus)
  | Some SpUnknown | None => (V20, None)
  | Some speed => (V20, Some speed)
  end.

Definition build_os_descriptor (c : OsDescriptorConfig) : OsDescriptor :=
  {| od_vendor_code := default (od_vendor_code microsoft) (oc_vendor_code c);
     od_qw_sign := default (od_qw_sign microsoft) (oc_qw_sign c);
     od_config := default (od_config microsoft) (oc_config c) |}.

(** The gadget directories in configfs. *)
Abbreviation Fs := (gset string).

Section Build.
Context `{MacParser} (env : SysEnv) (usb_gadget_dir : string).

(** The gadget's directory in configfs. *)
Definition gadget_path (udc : string) : string := usb_gadget_dir +:+ "/" +:+ udc.

Fixpoint build_functions (fs : list FunctionConfig) (ser : string) (o : FunctionOutputs)
    : result (list Handle) string * FunctionOutputs :=
  match fs with
  | [] => (Ok [], o)
  | f :: fs =>
      match build_function env f ser o with
      | (Err e, o) => (Err e, o)
      | (Ok h, o) =>
          match build_functions fs ser o with
          | (Err e, o) => (Err e, o)
          | (Ok hs, o) => (Ok (match h with Some h => h :: hs | None => hs end), o)
          end
      end
  end.

Fixpoint build_configs (cs : list UsbConfigConfig) (ser : string) (o : FunctionOutputs)
    : result (list Config) string * FunctionOutputs :=
  match cs with
  | [] => (Ok [], o)
  | c :: cs =>
      match build_functions (uc_function c) ser o with
      | (Err e, o) => (Err e, o)
      | (Ok hs, o) =>
          match build_configs cs ser o with
          | (Err e, o) => (Err e, o)
          | (Ok configs, o) =>
              (Ok ({| cf_max_power := default 500 (uc_max_power c);
                      cf_self_powered := default false (uc_self_powered c);
                      cf_remote_wakeup := default false (uc_remote_wakeup c);
                      cf_description := default "" (uc_description c);
                      cf_functions := hs |} :: configs), o)
          end
      end
  end.

(** Everything up to the registration: the description of the gadget and what
    its functions left to do. *)
Definition describe (cfg : GadgetConfig) (udc : string) (max_speed : option Speed)
    : result (Gadget * FunctionOutputs) string :=
  let device := gc_device cfg in
  let serial_number := resolve_serial env (dv_serial_source device) in
  let? product_name := product_resolve env (dv_product_name device) (dv_product_name_source device) in
  let '(version, speed) := gadget_speed max_speed in
  match gc_config cfg with
  | [] => Err "at least one [[config]] is required"
  | _ =>
      match build_configs (gc_config cfg) serial_number outputs_default with
      | (Err e, _) => Err e
      | (Ok configs, o) =>
          Ok ({| gd_name := udc;
                 gd_class := {| cls_class := default 0 (dv_class device);
                                cls_sub_class := default 0 (dv_sub_class device);
                                cls_protocol := default 0 (dv_protocol device) |};
                 gd_id := (dv_vendor device, dv_product device);
                 gd_strings := (default "" (dv_manufacturer device), product_name, serial_number);
                 gd_usb_version := version; gd_max_speed := speed;
                 gd_os_descriptor := build_os_descriptor <$> gc_os_descriptor cfg;
                 gd_configs := configs |}, o)
      end
  end.

(** ** Registration *)

(** What configfs answers during one attempt: the failure of each operation, if
    it fails, whether a failed registration leaves its directory behind, and
    whether the drop after a failed removal still removes the gadget. *)
Record Attempt := {
  at_speed : option Speed;
  at_register : option string;
  at_partial : bool;
  at_net_os : option string;
  at_bind : option string;
  at_remove : option string;
  at_dropped : bool;
  at_list : option string;
}.

Record RunningGadget := {
  rg_gadget : Gadget;
  rg_services : list GadgetService;
}.

Definition udc_name (r : RunningGadget) : string := gd_name (rg_gadget r).

(** [Gadget::register]: the directory must not exist yet. *)
Definition register (a : Attempt) (g : Gadget) (fs : Fs) : result unit string * Fs :=
  if bool_decide (gd_name g ∈ fs) then (Err (default "File exists (os error 17)" (at_register a)), fs)
  else match at_register a with
       | Some e => (Err e, if at_partial a then {[gd_name g]} ∪ fs else fs)
       | None => (Ok tt, {[gd_name g]} ∪ fs)
       end.

Definition remove_failed (name err cleanup_err : string) : string :=
  err +:+ "; additionally failed to remove partially registered gadget " +:+ name +:+ ": " +:+ cleanup_err.

(** A removal that fails is tried again when the registration is dropped. *)
Definition cleanup_failed_registration (a : Attempt) (name err : string) (fs : Fs) : string * Fs :=
  match at_remove a with
  | None => (err, fs ∖ {[name]})
  | Some e => (remove_failed name err e, if at_dropped a then fs ∖ {[name]} else fs)
  end.

Definition cleanup_failed_registration_by_name (a : Attempt) (name err : string) (fs : Fs) : string * Fs :=
  match at_list a with
  | Some e =>
      (err +:+ "; additionally failed to enumerate registered gadgets while cleaning up partially registered gadget "
         +:+ name +:+ ": " +:+ e, fs)
  | None =>
      if bool_decide (name ∈ fs) then
        match at_remove a with
        | None => (err, fs ∖ {[name]})
        | Some e => (remove_failed name err e, fs)
        end
      else (err, fs)
  end.

(** [net_os] is written after the registration, and the gadget is then bound. *)
Definition build_on_udc_once (cfg : GadgetConfig) (udc : string) (a : Attempt) (fs : Fs)
    : result RunningGadget string * Fs :=
  match describe cfg udc (at_speed a) with
  | Err e => (Err e, fs)
  | Ok (gadget, outputs) =>
      match register a gadget fs with
      | (Err err, fs) =>
          let '(e, fs) := cleanup_failed_registration_by_name a udc
            ("failed to register gadget for UDC " +:+ udc +:+ " before bind: " +:+ err) fs in
          (Err e, fs)
      | (Ok _, fs) =>
          match (if bool_decide (fo_net_os outputs = []) then None else at_net_os a) with
          | Some err =>
              let '(e, fs) := cleanup_failed_registration a udc
                ("failed to finish gadget setup in configfs at " +:+ gadget_path udc +:+ ": " +:+ err) fs in
              (Err e, fs)
          | None =>
              match at_bind a with
              | Some err =>
                  let '(e, fs) := cleanup_failed_registration a udc
                    ("failed to bind registered gadget at " +:+ gadget_path udc +:+ " to UDC " +:+ udc +:+ ": " +:+ err) fs in
                  (Err e, fs)
              | None =>
                  (Ok {| rg_gadget := gadget; rg_services := into_services (fo_plugin outputs) |}, fs)
              end
          end
      end
  end.

(** ** The retry without DFU *)

Definition str_contains (needle : list byte) (s : string) : bool :=
  existsb (fun i => starts_with needle (drop i (bs s))) (seq 0 (S (length (bs s)))).

Definition without_dfu (fs : list FunctionConfig) : list FunctionConfig :=
  filter (fun f => fn_kind f <> "dfu") fs.

Definition strip_dfu (c : UsbConfigConfig) : UsbConfigConfig :=
  {| uc_description := uc_description c; uc_max_power := uc_max_power c;
     uc_self_powered := uc_self_powered c; uc_remote_wakeup := uc_remote_wakeup c;
     uc_function := without_dfu (uc_function c) |}.

Definition removed_dfu (c : UsbConfigConfig) : bool :=
  negb (length (without_dfu (uc_function c)) =? length (uc_function c))%nat.

Definition config_without_dfu (cfg : GadgetConfig) (err : string) : option GadgetConfig :=
  if negb (str_contains (bs "FunctionFS") err) then None else
  let configs := filter (fun c => uc_function c <> []) (strip_dfu <$> gc_config cfg) in
  if existsb removed_dfu (gc_config cfg) && negb (bool_decide (configs = []))
  then Some {| gc_name := gc_name cfg; gc_udc := gc_udc cfg; gc_os_descriptor := gc_os_descriptor cfg;
               gc_device := gc_device cfg; gc_config := configs |}
  else None.

Definition build_on_udc (cfg : GadgetConfig) (udc : string) (a1 a2 : Attempt) (fs : Fs)
    : result RunningGadget string * Fs :=
  match build_on_udc_once cfg udc a1 fs with
  | (Ok running, fs) => (Ok running, fs)
  | (Err err, fs) =>
      match config_without_dfu cfg err with
      | None => (Err err, fs)
      | Some filtered =>
          let '(r, fs) := build_on_udc_once filtered udc a2 fs in
          (map_err (fun e => "retry without DFU after registration failure on UDC " +:+ udc
                               +:+ " also failed: " +:+ e) r, fs)
      end
  end.

(** ** Binding and unbinding *)

Record Manager := {
  mg_bound : gset string;
  mg_gadgets : list RunningGadget;
  mg_fs : Fs;
}.

Definition set_fs (fs : Fs) (m : Manager) : Manager :=
  {| mg_bound := mg_bound m; mg_gadgets := mg_gadgets m; mg_fs := fs |}.

(** What happens to one build: the controller may be gone, the build task may
    panic, and configfs answers. *)
Record BuildScript := {
  bu_panic : bool;
  bu_present : bool;
  bu_first : Attempt;
  bu_retry : Attempt;
}.

Definition bind_one (cfg : GadgetConfig) (sel : Selection) (name : string) (b : BuildScript) (m : Manager)
    : Manager :=
  if negb (wants sel name (mg_bound m)) then m else
  if bu_panic b || negb (bu_present b) then m else
  match build_on_udc cfg name (bu_first b) (bu_retry b) (mg_fs m) with
  | (Err _, fs) => set_fs fs m
  | (Ok running, fs) =>
      {| mg_bound := {[name]} ∪ mg_bound m; mg_gadgets := mg_gadgets m ++ [running]; mg_fs := fs |}
  end.

(** [shutdown] of a gadget ends by dropping its registration, which removes it
    unless that fails. *)
Definition shutdown_gadget (removed : bool) (name : string) (fs : Fs) : Fs :=
  if removed then fs ∖ {[name]} else fs.

(** [position] and [Vec::remove]. *)
Fixpoint take_gadget (name : string) (l : list RunningGadget) : option (list RunningGadget) :=
  match l with
  | [] => None
  | g :: l => if bool_decide (udc_name g = name) then Some l else cons g <$> take_gadget name l
  end.

Definition unbind_one (name : string) (removed : bool) (m : Manager) : Manager :=
  if bool_decide (name ∈ mg_bound m) then
    let bound := mg_bound m ∖ {[name]} in
    match take_gadget name (mg_gadgets m) with
    | None => {| mg_bound := bound; mg_gadgets := mg_gadgets m; mg_fs := mg_fs m |}
    | Some gadgets =>
        {| mg_bound := bound; mg_gadgets := gadgets; mg_fs := shutdown_gadget removed name (mg_fs m) |}
    end
  else m.

(** Events of the udev monitor; other event types and errors are ignored. *)
Inductive UdevEvent :=
| UAdd (name : string) (b : BuildScript)
| URemove (name : string) (removed : bool)
| UOther
| UError (msg : string).

Definition on_event (cfg : GadgetConfig) (sel : Selection) (m : Manager) (ev : UdevEvent) : Manager :=
  match ev with
  | UAdd name b => bind_one cfg sel name b m
  | URemove name removed => unbind_one name removed m
  | UOther | UError _ => m
  end.

Definition bind_existing (cfg : GadgetConfig) (sel : Selection) (l : list (string * BuildScript))
    (m : Manager) : Manager :=
  foldl (fun m '(name, b) => bind_one cfg sel name b m) m l.

(** One after the other; [removed] tells which removals work. *)
Fixpoint shutdown_each (removed : nat -> bool) (i : nat) (l : list RunningGadget) (fs : Fs) : Fs :=
  match l with
  | [] => fs
  | g :: l => shutdown_each removed (S i) l (shutdown_gadget (removed i) (udc_name g) fs)
  end.

Definition shutdown_all (removed : nat -> bool) (m : Manager) : Manager :=
  {| mg_bound := mg_bound m; mg_gadgets := [];
     mg_fs := shutdown_each removed 0 (mg_gadgets m) (mg_fs m) |}.

(** [reset] of gadgets left over from an earlier run: [remove_all] is the outcome
    and, when some removal failed, the gadgets that were removed all the same; a
    missing configfs is not an error. *)
Definition reset_gadgets (remove_all : io_result unit * Fs) (fs : Fs) : result Fs io_error :=
  match remove_all with
  | (Ok _, _) => Ok ∅
  | (Err e, removed) => if bool_decide (kind e = KNotFound) then Ok (fs ∖ removed) else Err e
  end.

(** A run up to the point where it serves: reset, the monitor, the controllers
    that are there (sorted by name), and the events so far. *)
Definition serving (cfg : GadgetConfig) (remove_all : io_result unit * Fs) (monitor : io_result unit)
    (existing : list (string * BuildScript)) (events : list UdevEvent) (fs : Fs) : result Manager io_error :=
  let? fs := reset_gadgets remove_all fs in
  let sel := from_config (gc_udc cfg) in
  let? _ := monitor in
  let m := bind_existing cfg sel existing {| mg_bound := ∅; mg_gadgets := []; mg_fs := fs |} in
  Ok (foldl (on_event cfg sel) m events).

(** [serve_until]: the events end with a shutdown or with the monitor. *)
Definition serve_until (cfg : GadgetConfig) (remove_all : io_result unit * Fs) (monitor : io_result unit)
    (existing : list (string * BuildScript)) (events : list UdevEvent) (removed : nat -> bool) (fs : Fs)
    : result Manager io_error :=
  let? m := serving cfg remove_all monitor existing events fs in
  Ok (shutdown_all removed m).
End Build.
