(* ===== verification/GadgetProps.v ===== *)
(** * The composite gadget: properties

    Which controllers carry a gadget at every point of a run, that failed builds
    and ended runs leave nothing in configfs, what the retry without DFU builds,
    and that each registered function runs at most once per gadget. *)

From stdpp Require Import gmap.
From S2P Require Import Prelude Io Bytes SysInfo Session FunctionFs Dfu FastbootProto FastbootUsb UsbConfig Gadget.

Section Props.
Context `{MacParser} (env : SysEnv) (dir : string).

(** ** One build *)

(** A build touches only its own directory; it succeeds by adding it, and when
    it fails and the cleanup works it adds nothing. *)
Definition build_effect (udc : string) (works : Prop) (o : result RunningGadget string * Fs) (fs : Fs) : Prop :=
  match o with
  | (Ok r, fs') => udc_name r = udc /\ fs' = {[udc]} ∪ fs
  | (Err _, fs') => fs ∖ {[udc]} ⊆ fs' /\ fs' ⊆ {[udc]} ∪ fs /\ (works -> fs' ⊆ fs)
  end.

Definition cleanup_works (a : Attempt) : Prop := at_remove a = None /\ at_list a = None.

Lemma describe_name cfg udc sp g o : describe env cfg udc sp = Ok (g, o) -> gd_name g = udc.
Proof.
  unfold describe, rbind. destruct (product_resolve _ _ _); [|done]. destruct (gadget_speed sp) as [v s].
  destruct (gc_config cfg); [done|]. destruct (build_configs _ _ _ _) as [[]]; [|done]. by intros [= <- _].
Qed.

Lemma cleanup_effect a name err fs0 fs :
  fs = {[name]} ∪ fs0 ->
  let '(_, fs') := cleanup_failed_registration a name err fs in
  fs0 ∖ {[name]} ⊆ fs' /\ fs' ⊆ {[name]} ∪ fs0 /\ (cleanup_works a -> fs' ⊆ fs0).
Proof.
  intros ->. unfold cleanup_failed_registration. destruct (at_remove a) eqn:E.
  - destruct (at_dropped a); (split; [set_solver|]); (split; [set_solver|]); intros [? _]; congruence.
  - split; [set_solver|]. split; [set_solver|]. intros _. set_solver.
Qed.

Lemma build_once_effect cfg udc a fs :
  build_effect udc (cleanup_works a) (build_on_udc_once env dir cfg udc a fs) fs.
Proof.
  unfold build_on_udc_once. destruct (describe env cfg udc (at_speed a)) as [[g o]|e] eqn:Ed; [|set_solver].
  apply describe_name in Ed. unfold register. rewrite Ed. case_bool_decide as Hin.
  { unfold cleanup_failed_registration_by_name, cleanup_failed_registration.
    destruct (at_list a); [set_solver|]. rewrite bool_decide_true by done. destruct (at_remove a); set_solver. }
  destruct (at_register a) as [e|].
  { unfold cleanup_failed_registration_by_name. destruct (at_list a) eqn:El.
    - destruct (at_partial a); (split; [set_solver|]); (split; [set_solver|]); intros [_ ?]; congruence.
    - destruct (at_partial a); [|rewrite bool_decide_false by done; set_solver].
      rewrite bool_decide_true by set_solver. destruct (at_remove a) eqn:Er.
      + split; [set_solver|]. split; [done|]. intros [? _]. congruence.
      + split; [set_solver|]. split; [set_solver|]. intros _. set_solver. }
  destruct (if bool_decide _ then _ else _) as [e|].
  { pose proof (cleanup_effect a udc ("failed to finish gadget setup in configfs at " +:+ gadget_path dir udc +:+ ": " +:+ e)
      fs _ eq_refl) as Hc. by destruct (cleanup_failed_registration _ _ _ _). }
  destruct (at_bind a) as [e|]; [|done].
  pose proof (cleanup_effect a udc ("failed to bind registered gadget at " +:+ gadget_path dir udc +:+ " to UDC " +:+ udc +:+ ": " +:+ e)
    fs _ eq_refl) as Hc. by destruct (cleanup_failed_registration _ _ _ _).
Qed.

Lemma build_both_effect cfg udc a1 a2 fs :
  udc ∉ fs ->
  build_effect udc (cleanup_works a1 /\ cleanup_works a2) (build_on_udc env dir cfg udc a1 a2 fs) fs.
Proof.
  intros Hu. unfold build_on_udc. pose proof (build_once_effect cfg udc a1 fs) as H1.
  destruct (build_on_udc_once env dir cfg udc a1 fs) as [[r|err] fs1]; cbn in H1; [done|].
  destruct H1 as (Hlo & Hhi & Hw).
  destruct (config_without_dfu cfg err) as [filtered|]; [|split; [done|split; [done|intros []; auto]]].
  pose proof (build_once_effect filtered udc a2 fs1) as H2.
  destruct (build_on_udc_once env dir filtered udc a2 fs1) as [[r|err2] fs2]; cbn in H2 |- *.
  - destruct H2 as [? ->]. split; [done|]. set_solver.
  - destruct H2 as (Hlo2 & Hhi2 & Hw2). split; [set_solver|]. split; [set_solver|].
    intros [? ?]. specialize (Hw ltac:(done)). specialize (Hw2 ltac:(done)). set_solver.
Qed.

(** A gadget that cannot be built on a controller, with or without the
    retry, leaves nothing in configfs when the cleanup works, and never touches
    another controller's gadget; one that is built adds exactly its directory,
    named after the controller. *)
Theorem build_on_udc_effect cfg udc a1 a2 fs :
  udc ∉ fs ->
  build_effect udc (cleanup_works a1 /\ cleanup_works a2) (build_on_udc env dir cfg udc a1 a2 fs) fs.
Proof. apply build_both_effect. Qed.

(** ** The controllers of a run *)

Definition names (m : Manager) : list string := udc_name <$> mg_gadgets m.

(** The selection's promise about the bound controllers. *)
Definition respects (sel : Selection) (bound : gset string) : Prop :=
  match sel with First => (size bound <= 1)%nat | All => True | Named ns => bound ⊆ ns end.

Record mgr_ok (sel : Selection) (m : Manager) : Prop := {
  mo_nodup : NoDup (names m);
  mo_bound : list_to_set (names m) = mg_bound m;
  mo_fs : mg_bound m ⊆ mg_fs m;
  mo_sel : respects sel (mg_bound m);
}.

Lemma respects_add sel name bound :
  wants sel name bound = true -> respects sel bound -> respects sel ({[name]} ∪ bound).
Proof.
  unfold wants. case_bool_decide as Hin; [done|]. destruct sel as [| |ns]; cbn; [| |intros ?%bool_decide_eq_true; set_solver].
  - case_bool_decide as He; [|done]. intros _ _. rewrite He, (right_id_L ∅ (∪)), size_singleton. lia.
  - done.
Qed.

Lemma respects_subset sel bound bound' : bound' ⊆ bound -> respects sel bound -> respects sel bound'.
Proof.
  intros Hs. destruct sel; cbn; [|done|set_solver]. intros. pose proof (subseteq_size _ _ Hs). lia.
Qed.

Lemma bind_one_ok cfg sel name b m :
  mgr_ok sel m -> mgr_ok sel (bind_one env dir cfg sel name b m).
Proof.
  intros [Hnd Hb Hfs Hs]. unfold bind_one. destruct (wants sel name (mg_bound m)) eqn:Hw; cbn [negb]; [|by split].
  destruct (bu_panic b || negb (bu_present b)); [by split|].
  assert (name ∉ mg_bound m) as Hn by (unfold wants in Hw; by case_bool_decide).
  pose proof (build_once_effect cfg name (bu_first b) (mg_fs m)) as H1. unfold build_on_udc.
  assert (forall fs, mg_fs m ∖ {[name]} ⊆ fs -> mgr_ok sel (set_fs fs m)) as Hkeep.
  { intros fs Hle. split; try done. cbn. set_solver. }
  assert (forall r fs, udc_name r = name -> mg_fs m ∖ {[name]} ⊆ fs ->
    mgr_ok sel {| mg_bound := {[name]} ∪ mg_bound m; mg_gadgets := mg_gadgets m ++ [r]; mg_fs := {[name]} ∪ fs |})
    as Hadd.
  { intros r fs Hr Hle. split; cbn.
    - unfold names. cbn. rewrite fmap_app. apply list.NoDup_app. split; [done|]. split; [|apply NoDup_singleton].
      intros x Hx ->%list_elem_of_singleton. rewrite Hr in Hx. apply Hn. rewrite <- Hb.
      by apply elem_of_list_to_set.
    - unfold names in *. cbn. rewrite fmap_app, list_to_set_app_L, Hb. cbn. rewrite Hr. set_solver.
    - set_solver.
    - by apply respects_add. }
  destruct (build_on_udc_once env dir cfg name (bu_first b) (mg_fs m)) as [[r|err] fs1]; cbn in H1.
  { destruct H1 as [Hr ->]. apply Hadd; [done|set_solver]. }
  destruct H1 as (Hlo & _). destruct (config_without_dfu cfg err) as [filtered|]; [|by apply Hkeep].
  pose proof (build_once_effect filtered name (bu_retry b) fs1) as H2.
  destruct (build_on_udc_once env dir filtered name (bu_retry b) fs1) as [[r|err2] fs2]; cbn in H2 |- *.
  - destruct H2 as [Hr ->]. apply Hadd; [done|set_solver].
  - destruct H2 as (Hlo2 & _). apply Hkeep. set_solver.
Qed.

(** Taking a gadget off the list. *)
Lemma take_gadget_spec name l :
  NoDup (udc_name <$> l) ->
  match take_gadget name l with
  | None => name ∉ udc_name <$> l
  | Some l' => udc_name <$> l ≡ₚ name :: (udc_name <$> l') /\ NoDup (udc_name <$> l')
  end.
Proof.
  induction l as [|g l IH]; cbn; intros Hnd; [set_solver|]. apply list.NoDup_cons in Hnd as [Hg Hnd].
  case_bool_decide as He; [subst; done|]. specialize (IH Hnd).
  destruct (take_gadget name l) as [l'|]; cbn; [|set_solver].
  destruct IH as [Hp Hnd']. split; [by rewrite Hp, Permutation_swap|]. apply list.NoDup_cons. split; [|done].
  rewrite Hp in Hg. set_solver.
Qed.

Lemma unbind_one_ok sel name removed m : mgr_ok sel m -> mgr_ok sel (unbind_one name removed m).
Proof.
  intros [Hnd Hb Hfs Hs]. unfold unbind_one. case_bool_decide as Hin; [|by split].
  pose proof (take_gadget_spec name (mg_gadgets m) Hnd) as Ht.
  destruct (take_gadget name (mg_gadgets m)) as [l'|].
  - destruct Ht as [Hp Hnd']. unfold names in Hb. rewrite Hp in Hb, Hnd. cbn in Hb.
    apply list.NoDup_cons in Hnd as [Hn _]. split; cbn; [done| | |].
    + unfold names. cbn. rewrite <- Hb.
      assert (name ∉ (list_to_set (udc_name <$> l') : gset string)) by (by rewrite elem_of_list_to_set). set_solver.
    + unfold shutdown_gadget. destruct removed; set_solver.
    + eapply respects_subset; [|exact Hs]. set_solver.
  - exfalso. apply Ht. rewrite <- Hb in Hin. by apply elem_of_list_to_set in Hin.
Qed.

Lemma bind_existing_ok cfg sel l m : mgr_ok sel m -> mgr_ok sel (bind_existing env dir cfg sel l m).
Proof.
  unfold bind_existing. revert m. induction l as [|[name b] l IH]; intros m Hm; cbn; [done|].
  by apply IH, bind_one_ok.
Qed.

Lemma events_ok cfg sel events m : mgr_ok sel m -> mgr_ok sel (foldl (on_event env dir cfg sel) m events).
Proof.
  revert m. induction events as [|ev events IH]; intros m Hm; cbn; [done|]. apply IH.
  destruct ev; cbn; [by apply bind_one_ok|by apply unbind_one_ok|done|done].
Qed.

Lemma empty_ok sel fs : mgr_ok sel {| mg_bound := ∅; mg_gadgets := []; mg_fs := fs |}.
Proof. split; cbn; [constructor|done|set_solver|]. destruct sel; cbn; [by rewrite size_empty; lia|done|set_solver]. Qed.

(** C16. At every point of a run, whatever controllers come and go and whatever
    fails, the controllers recorded as bound are exactly those that carry a
    gadget, none carries two, each is registered in configfs, and the selection
    is respected: one controller at most for [first], only listed ones for a
    list. *)
Theorem manager_invariant cfg remove_all monitor existing events fs m :
  serving env dir cfg remove_all monitor existing events fs = Ok m ->
  mgr_ok (from_config (gc_udc cfg)) m.
Proof.
  unfold serving, rbind. destruct (reset_gadgets remove_all fs) as [fs0|]; [|done]. destruct monitor; [|done].
  intros [= <-]. apply events_ok, bind_existing_ok, empty_ok.
Qed.

(** A controller that goes away and comes back is bound again, by a gadget
    built from scratch. *)
Theorem hotplug_rebinds cfg sel name removed b m r fs' :
  mgr_ok sel m -> name ∈ mg_bound m ->
  bu_panic b = false -> bu_present b = true ->
  build_on_udc env dir cfg name (bu_first b) (bu_retry b) (mg_fs (unbind_one name removed m)) = (Ok r, fs') ->
  let m' := foldl (on_event env dir cfg sel) m [URemove name removed; UAdd name b] in
  mg_bound m' = mg_bound m /\ list.last (mg_gadgets m') = Some r /\ names m' ≡ₚ names m.
Proof.
  intros Hm Hin Hp Hpr Hb. cbn [foldl on_event].
  pose proof (unbind_one_ok sel name removed m Hm) as Hm1.
  assert (mg_bound (unbind_one name removed m) = mg_bound m ∖ {[name]}) as Hbd.
  { unfold unbind_one. rewrite bool_decide_true by done. by destruct (take_gadget _ _). }
  assert (wants sel name (mg_bound (unbind_one name removed m)) = true) as Hw.
  { unfold wants. rewrite bool_decide_false by (rewrite Hbd; set_solver). rewrite Hbd.
    pose proof (mo_sel _ _ Hm) as Hs. destruct sel as [| |ns]; cbn in Hs |- *; [|done|].
    - apply bool_decide_eq_true. apply leibniz_equiv, size_empty_inv. rewrite size_difference by set_solver. rewrite size_singleton. lia.
    - apply bool_decide_eq_true. set_solver. }
  assert (bind_one env dir cfg sel name b (unbind_one name removed m) =
    {| mg_bound := {[name]} ∪ mg_bound (unbind_one name removed m);
       mg_gadgets := mg_gadgets (unbind_one name removed m) ++ [r]; mg_fs := fs' |}) as ->
    by (unfold bind_one; rewrite Hw, Hp, Hpr; cbn [negb orb]; by rewrite Hb).
  cbn [mg_bound mg_gadgets].
  assert (udc_name r = name) as Hr.
  { revert Hb. unfold build_on_udc. pose proof (build_once_effect cfg name (bu_first b) (mg_fs (unbind_one name removed m))) as H1.
    destruct (build_on_udc_once env dir cfg name (bu_first b) _) as [[r1|err] fs1]; cbn in H1.
    - intros [= <- _]. by destruct H1.
    - destruct (config_without_dfu cfg err) as [filtered|]; [|done].
      pose proof (build_once_effect filtered name (bu_retry b) fs1) as H2.
      destruct (build_on_udc_once env dir filtered name (bu_retry b) fs1) as [[r2|err2] fs2]; cbn in H2 |- *; [|done].
      intros [= <- _]. by destruct H2. }
  split; [rewrite Hbd; by rewrite <- union_difference_L by set_solver|].
  split; [by rewrite list.last_snoc|].
  unfold names in *. cbn. rewrite fmap_app. cbn. rewrite Hr.
  unfold unbind_one. rewrite bool_decide_true by done.
  pose proof (take_gadget_spec name (mg_gadgets m) (mo_nodup _ _ Hm)) as Ht.
  destruct (take_gadget name (mg_gadgets m)) as [l'|]; cbn.
  - destruct Ht as [-> _]. by rewrite Permutation_app_comm.
  - exfalso. apply Ht. rewrite <- (mo_bound _ _ Hm) in Hin. by apply elem_of_list_to_set in Hin.
Qed.

(** ** What a run leaves behind *)

Definition script_works (b : BuildScript) : Prop := cleanup_works (bu_first b) /\ cleanup_works (bu_retry b).
Definition event_works (ev : UdevEvent) : Prop :=
  match ev with UAdd _ b => script_works b | URemove _ removed => removed = true | _ => True end.

(** While every cleanup works, configfs holds exactly the bound gadgets. *)
Lemma bind_one_exact cfg sel name b m :
  script_works b -> mg_fs m = mg_bound m ->
  mg_fs (bind_one env dir cfg sel name b m) = mg_bound (bind_one env dir cfg sel name b m).
Proof.
  intros [Hw1 Hw2] He. unfold bind_one. destruct (wants sel name (mg_bound m)) eqn:Hw; cbn [negb]; [|done].
  destruct (bu_panic b || negb (bu_present b)); [done|].
  assert (name ∉ mg_bound m) as Hn by (unfold wants in Hw; by case_bool_decide).
  pose proof (build_both_effect cfg name (bu_first b) (bu_retry b) (mg_fs m) ltac:(by rewrite He)) as Hb.
  destruct (build_on_udc _ _ _ _ _ _ _) as [[r|e] fs']; cbn in Hb |- *.
  - destruct Hb as [_ ->]. by rewrite He.
  - destruct Hb as (Hlo & _ & Hhi). specialize (Hhi (conj Hw1 Hw2)). set_solver.
Qed.

Lemma unbind_one_exact sel name m :
  mgr_ok sel m -> mg_fs m = mg_bound m ->
  mg_fs (unbind_one name true m) = mg_bound (unbind_one name true m).
Proof.
  intros Hm He. unfold unbind_one. case_bool_decide as Hin; [|done].
  pose proof (take_gadget_spec name (mg_gadgets m) (mo_nodup _ _ Hm)) as Ht.
  destruct (take_gadget name (mg_gadgets m)); cbn; [by rewrite He|].
  exfalso. apply Ht. rewrite <- (mo_bound _ _ Hm) in Hin. by apply elem_of_list_to_set in Hin.
Qed.

Lemma serving_exact cfg sel existing events m :
  Forall (fun p => script_works p.2) existing -> Forall event_works events ->
  mgr_ok sel m -> mg_fs m = mg_bound m ->
  let m' := foldl (on_event env dir cfg sel) (bind_existing env dir cfg sel existing m) events in
  mgr_ok sel m' /\ mg_fs m' = mg_bound m'.
Proof.
  intros Hex Hev Hm He. cbn.
  assert (mgr_ok sel (bind_existing env dir cfg sel existing m) /\
    mg_fs (bind_existing env dir cfg sel existing m) = mg_bound (bind_existing env dir cfg sel existing m))
    as [Hm1 He1].
  { unfold bind_existing. revert m Hm He. induction Hex as [|[name b] l Hb Hex IH]; intros m Hm He; cbn; [done|].
    apply IH; [by apply bind_one_ok|by apply bind_one_exact]. }
  revert Hm1 He1. generalize (bind_existing env dir cfg sel existing m). clear Hm He m.
  induction Hev as [|ev events Hw Hev IH]; intros m Hm He; cbn; [done|].
  apply IH; destruct ev; cbn in Hw |- *; subst; try done.
  - by apply bind_one_ok.
  - by apply unbind_one_ok.
  - by apply bind_one_exact.
  - by eapply unbind_one_exact.
Qed.

(** When the operations of configfs that remove gadgets work, a run that
    ends leaves no gadget registered, whatever was bound, failed or unplugged
    meanwhile. *)
Theorem run_leaves_nothing cfg monitor existing events fs m :
  Forall (fun p => script_works p.2) existing -> Forall event_works events ->
  serve_until env dir cfg (Ok tt, ∅) monitor existing events (fun _ => true) fs = Ok m ->
  mg_fs m = ∅ /\ mg_gadgets m = [].
Proof.
  intros Hex Hev. unfold serve_until, serving, reset_gadgets, rbind. destruct monitor; [|done].
  set (sel := from_config (gc_udc cfg)).
  destruct (serving_exact cfg sel existing events {| mg_bound := ∅; mg_gadgets := []; mg_fs := ∅ |}
    Hex Hev (empty_ok sel ∅) eq_refl) as [Hm He].
  set (m1 := foldl _ _ events) in *. intros [= <-]. split; [|done]. cbn. rewrite He, <- (mo_bound _ _ Hm).
  unfold names. clear.
  assert (forall l i (fs : Fs), fs ⊆ list_to_set (udc_name <$> l) ->
    shutdown_each (fun _ => true) i l fs = ∅) as Hl; [|by apply Hl].
  induction l as [|g l IH]; intros i fs; cbn; [set_solver|]. intros Hfs. apply IH. set_solver.
Qed.

(** ** The retry without DFU *)

Lemma without_dfu_length fs :
  length (without_dfu fs) <> length fs -> exists f, f ∈ fs /\ fn_kind f = "dfu".
Proof.
  induction fs as [|f fs IH]; [done|]. unfold without_dfu. rewrite filter_cons.
  destruct (decide (fn_kind f <> "dfu")) as [Hd|Hd]; cbn.
  - intros Hne. destruct IH as (f' & ? & ?); [unfold without_dfu; lia|]. exists f'. split; [set_solver|done].
  - intros _. exists f. split; [set_solver|]. by destruct (decide (fn_kind f = "dfu")).
Qed.

Lemma strip_concat cs :
  concat (uc_function <$> filter (fun c => uc_function c <> []) (strip_dfu <$> cs))
  = without_dfu (concat (uc_function <$> cs)).
Proof.
  induction cs as [|c cs IH]; [done|]. cbn [fmap list_fmap concat]. rewrite filter_cons.
  unfold without_dfu at 1. rewrite list.filter_app. fold (without_dfu (concat (uc_function <$> cs))).
  change (filter (λ f, fn_kind f ≠ "dfu") (uc_function c)) with (uc_function (strip_dfu c)).
  destruct (decide (uc_function (strip_dfu c) <> [])) as [Hd|Hd].
  - cbn [fmap list_fmap concat]. by rewrite <- IH.
  - destruct (uc_function (strip_dfu c)); [exact IH|]. by destruct Hd.
Qed.

(** The fallback for controllers that cannot carry the DFU interface: it
    applies only to a FunctionFS failure of a configuration that has a DFU
    function, keeps every other function in order and the device as it was, and
    never builds an empty configuration. *)
Theorem config_without_dfu_spec cfg err cfg' :
  config_without_dfu cfg err = Some cfg' ->
  str_contains (bs "FunctionFS") err = true /\
  (exists f, f ∈ concat (uc_function <$> gc_config cfg) /\ fn_kind f = "dfu") /\
  concat (uc_function <$> gc_config cfg') = without_dfu (concat (uc_function <$> gc_config cfg)) /\
  gc_config cfg' <> [] /\ Forall (fun c => uc_function c <> []) (gc_config cfg') /\
  gc_device cfg' = gc_device cfg /\ gc_udc cfg' = gc_udc cfg /\ gc_os_descriptor cfg' = gc_os_descriptor cfg.
Proof.
  unfold config_without_dfu. destruct (str_contains (bs "FunctionFS") err); cbn [negb]; [|done].
  destruct (existsb removed_dfu (gc_config cfg)) eqn:Er; cbn [andb]; [|done].
  case_bool_decide as Hne; [done|]. cbn [negb]. intros [= <-]. cbn. split; [done|]. split.
  { apply existsb_exists in Er as (c & Hc%list_elem_of_In & Hd). unfold removed_dfu in Hd.
    apply negb_true_iff, Nat.eqb_neq, without_dfu_length in Hd as (f & Hf & Hk). exists f. split; [|done].
    apply list_elem_of_In, in_concat. exists (uc_function c). split; [|by apply list_elem_of_In].
    apply list_elem_of_In. apply list_elem_of_fmap. eauto. }
  split; [apply strip_concat|]. split; [done|]. split; [|done].
  apply list.Forall_forall. intros c Hc. by apply list_elem_of_filter in Hc as [? _].
Qed.

(** ** Singletons *)

Definition service_kind (s : GadgetService) : string :=
  match s with DfuService _ => "dfu" | FastbootUsbService _ _ => "fastboot-usb" end.

(** The functions this repository registers. *)
Definition known (f : FunctionConfig) : Prop :=
  match f with
  | FPlugin c => (exists d, c = dfu_function d) \/ (exists b, c = fastboot_usb_function b)
  | _ => True
  end.

Definition ctx_ok (c : FunctionBuildContext) : Prop :=
  NoDup (service_kind <$> services c) /\
  forall k, k ∈ service_kind <$> services c -> k ∈ claimed_singletons c.

Lemma claim_push_ok k svc ctx ctx' :
  ctx_ok ctx -> claim_singleton k ctx = (Ok tt, ctx') -> service_kind svc = k ->
  ctx_ok ctx' /\ ctx_ok (push_service svc ctx').
Proof.
  unfold claim_singleton. intros [Hnd Hsub]. case_bool_decide as Hin; [done|]. intros [= <-] Hk.
  split; (split; cbn; [|intros k']).
  - done.
  - intros Hk'. apply list_elem_of_further. by apply Hsub.
  - rewrite fmap_app. apply list.NoDup_app. split; [done|]. split; [|apply NoDup_singleton].
    intros x Hx ->%list_elem_of_singleton. apply Hin. rewrite <- Hk. by apply Hsub.
  - rewrite fmap_app. intros [?|Hs]%elem_of_app; [apply list_elem_of_further; by apply Hsub|].
    apply list_elem_of_singleton in Hs. rewrite Hs, Hk. apply list_elem_of_here.
Qed.

Lemma build_function_ctx f ser o :
  known f -> ctx_ok (fo_plugin o) -> ctx_ok (fo_plugin (build_function env f ser o).2).
Proof.
  intros Hk Ho. destruct f as [c|c|c|c]; cbn; [done|by destruct (build_net c (fo_net_os o)) as [[]|]|done|].
  destruct Hk as [[d ->]|[b ->]]; cbn.
  - destruct (claim_singleton "dfu" (fo_plugin o)) as [[[]|e] ctx] eqn:Ec.
    + destruct (dfu_build d env ser) as [[h rt]|e]; cbn.
      * by apply (claim_push_ok "dfu" (DfuService rt) (fo_plugin o)).
      * by destruct (claim_push_ok "dfu" (DfuService {| dc_download := default_params; dc_upload := None;
          dc_transfer_size := 0; dc_poll_timeout_ms := 0 |}) (fo_plugin o) ctx Ho Ec eq_refl).
    + unfold claim_singleton in Ec. case_bool_decide; [|done]. by injection Ec as _ <-.
  - destruct (claim_singleton "fastboot-usb" (fo_plugin o)) as [[[]|e] ctx] eqn:Ec.
    + destruct (fastboot_usb_build b ser) as [[h [p s]]|e]; cbn.
      * by apply (claim_push_ok "fastboot-usb" (FastbootUsbService p s) (fo_plugin o)).
      * by destruct (claim_push_ok "fastboot-usb" (FastbootUsbService default_params "") (fo_plugin o) ctx Ho Ec eq_refl).
    + unfold claim_singleton in Ec. case_bool_decide; [|done]. by injection Ec as _ <-.
Qed.

Lemma build_functions_ctx fs ser o :
  Forall known fs -> ctx_ok (fo_plugin o) -> ctx_ok (fo_plugin (build_functions env fs ser o).2).
Proof.
  intros Hk. revert o. induction Hk as [|f fs Hf Hk IH]; intros o Ho; cbn; [done|].
  pose proof (build_function_ctx f ser o Hf Ho) as H1. destruct (build_function env f ser o) as [[h|e] o1]; [|done].
  specialize (IH o1 H1). by destruct (build_functions env fs ser o1) as [[hs|e] o2].
Qed.

Lemma build_configs_ctx cs ser o :
  Forall (fun c => Forall known (uc_function c)) cs -> ctx_ok (fo_plugin o) ->
  ctx_ok (fo_plugin (build_configs env cs ser o).2).
Proof.
  intros Hk. revert o. induction Hk as [|c cs Hc Hk IH]; intros o Ho; cbn; [done|].
  pose proof (build_functions_ctx (uc_function c) ser o Hc Ho) as H1.
  destruct (build_functions env (uc_function c) ser o) as [[hs|e] o1]; [|done].
  specialize (IH o1 H1). by destruct (build_configs env cs ser o1) as [[cfgs|e] o2].
Qed.

(** However many function sections a configuration has, in however many USB
    configurations, a gadget that is built starts at most one DFU service and at
    most one fastboot service. *)
Theorem services_singleton cfg udc a fs r fs' :
  Forall (fun c => Forall known (uc_function c)) (gc_config cfg) ->
  build_on_udc_once env dir cfg udc a fs = (Ok r, fs') ->
  NoDup (service_kind <$> rg_services r).
Proof.
  intros Hk. unfold build_on_udc_once. destruct (describe env cfg udc (at_speed a)) as [[g o]|e] eqn:Ed; [|done].
  assert (ctx_ok (fo_plugin o)) as [Hnd _].
  { revert Ed. unfold describe, rbind. destruct (product_resolve _ _ _); [|done].
    destruct (gadget_speed (at_speed a)) as [v s]. destruct (gc_config cfg) as [|c cs] eqn:Ec; [done|].
    pose proof (build_configs_ctx (c :: cs) (resolve_serial env (dv_serial_source (gc_device cfg))) outputs_default Hk) as Hb.
    destruct (build_configs _ _ _ _) as [[]]; [|done]. intros [= _ <-]. apply Hb. split; cbn; [constructor|].
    intros k Hk'. by apply elem_of_nil in Hk'. }
  destruct (register a g fs) as [[]]; [|by destruct (cleanup_failed_registration_by_name _ _ _ _)].
  destruct (if bool_decide _ then _ else _); [by destruct (cleanup_failed_registration _ _ _ _)|].
  destruct (at_bind a); [by destruct (cleanup_failed_registration _ _ _ _)|]. by intros [= <- _].
Qed.
End Props.

(** ** Runs *)

Module GadgetDemo.

#[local] Instance mac : MacParser := fun _ => Err "unparsed".

Definition device : DeviceConfig := {|
  dv_vendor := 7141; dv_product := 1; dv_class := None; dv_sub_class := None; dv_protocol := None;
  dv_manufacturer := Some "Ezurio"; dv_product_name := Some "gadget"; dv_product_name_source := None;
  dv_serial := None; dv_serial_source := None |}.

Definition dfu : FunctionConfig := FPlugin (dfu_function default_dfu_fn_config).
Definition acm : FunctionConfig := FSerial {| sc_class := "acm"; sc_console := None |}.

Definition usb_config (fs : list FunctionConfig) : UsbConfigConfig := {|
  uc_description := None; uc_max_power := None; uc_self_powered := None; uc_remote_wakeup := None;
  uc_function := fs |}.

Definition gadget (fs : list FunctionConfig) : GadgetConfig := {|
  gc_name := None; gc_udc := None; gc_os_descriptor := None; gc_device := device;
  gc_config := [usb_config fs] |}.

Definition fine : Attempt := {|
  at_speed := Some HighSpeed; at_register := None; at_partial := false; at_net_os := None;
  at_bind := None; at_remove := None; at_dropped := false; at_list := None |}.

Definition no_functionfs : Attempt := {|
  at_speed := Some HighSpeed; at_register := Some "FunctionFS initialization failed"; at_partial := true;
  at_net_os := None; at_bind := None; at_remove := None; at_dropped := false; at_list := None |}.

Definition build (a : Attempt) : BuildScript :=
  {| bu_panic := false; bu_present := true; bu_first := a; bu_retry := fine |}.

Definition udc : string := "ci_hdrc.0".

Lemma build_on_udc_effect_witness :
  build_effect udc (cleanup_works no_functionfs /\ cleanup_works fine)
    (build_on_udc imx8mp_env "/cfg" (gadget [dfu; acm]) udc no_functionfs fine ∅) ∅.
Proof. apply (build_on_udc_effect imx8mp_env "/cfg" (gadget [dfu; acm]) udc no_functionfs fine ∅). set_solver. Defined.

(** The controller cannot carry DFU: the gadget comes up with the serial port. *)
Example retry_without_dfu :
  match (build_on_udc imx8mp_env "/cfg" (gadget [dfu; acm]) udc no_functionfs fine ∅).1 with
  | Ok r => (cf_functions <$> gd_configs (rg_gadget r), length (rg_services r))
  | Err _ => ([], 0%nat)
  end = ([[HSerial Acm None]], 0%nat).
Proof. vm_compute. reflexivity. Qed.

Definition events : list UdevEvent :=
  [UAdd "usb1" (build fine); URemove udc true; UOther; UAdd udc (build no_functionfs)].

Abbreviation served := (serving imx8mp_env "/cfg" (gadget [dfu; acm]) (Ok tt, ∅) (Ok tt)
  [(udc, build fine)] events ∅).

Lemma manager_invariant_witness :
  exists m, served = Ok m /\ mgr_ok All m /\ names m = ["usb1"; udc].
Proof.
  destruct served as [m|e] eqn:E; [|vm_compute in E; discriminate E].
  exists m. split; [reflexivity|]. split.
  - exact (manager_invariant imx8mp_env "/cfg" (gadget [dfu; acm]) (Ok tt, ∅) (Ok tt) [(udc, build fine)]
      events ∅ m E).
  - vm_compute in E. injection E as <-. reflexivity.
Defined.

Definition bound_one : Manager :=
  bind_one imx8mp_env "/cfg" (gadget [acm]) First udc (build fine) {| mg_bound := ∅; mg_gadgets := []; mg_fs := ∅ |}.

Lemma hotplug_rebinds_witness :
  exists r fs',
    build_on_udc imx8mp_env "/cfg" (gadget [acm]) udc fine fine (mg_fs (unbind_one udc true bound_one)) = (Ok r, fs') /\
    let m' := foldl (on_event imx8mp_env "/cfg" (gadget [acm]) First) bound_one [URemove udc true; UAdd udc (build fine)] in
    mg_bound m' = mg_bound bound_one /\ list.last (mg_gadgets m') = Some r /\ names m' ≡ₚ names bound_one.
Proof.
  destruct (build_on_udc imx8mp_env "/cfg" (gadget [acm]) udc fine fine (mg_fs (unbind_one udc true bound_one)))
    as [[r|e] fs'] eqn:E; [|vm_compute in E; discriminate E].
  exists r, fs'. split; [reflexivity|].
  apply (hotplug_rebinds imx8mp_env "/cfg" (gadget [acm]) First udc true (build fine) bound_one r fs').
  - apply bind_one_ok, empty_ok.
  - vm_compute. reflexivity.
  - reflexivity.
  - reflexivity.
  - exact E.
Defined.

Lemma run_leaves_nothing_witness :
  exists m, serve_until imx8mp_env "/cfg" (gadget [dfu; acm]) (Ok tt, ∅) (Ok tt) [(udc, build fine)] events (fun _ => true) ∅ = Ok m /\
    mg_fs m = ∅ /\ mg_gadgets m = [].
Proof.
  destruct (serve_until imx8mp_env "/cfg" (gadget [dfu; acm]) (Ok tt, ∅) (Ok tt) [(udc, build fine)] events (fun _ => true) ∅)
    as [m|e] eqn:E; [|vm_compute in E; discriminate E].
  exists m. split; [reflexivity|].
  apply (run_leaves_nothing imx8mp_env "/cfg" (gadget [dfu; acm]) (Ok tt) [(udc, build fine)] events ∅ m).
  - repeat constructor.
  - repeat constructor.
  - exact E.
Defined.

Lemma config_without_dfu_spec_witness :
  exists cfg', config_without_dfu (gadget [dfu; acm]) "FunctionFS initialization failed" = Some cfg' /\
    concat (uc_function <$> gc_config cfg') = [acm].
Proof.
  destruct (config_without_dfu (gadget [dfu; acm]) "FunctionFS initialization failed") as [cfg'|] eqn:E;
    [|vm_compute in E; discriminate E].
  exists cfg'. split; [reflexivity|].
  destruct (config_without_dfu_spec (gadget [dfu; acm]) _ cfg' E) as (_ & _ & H & _). rewrite H. reflexivity.
Defined.

Lemma services_singleton_witness :
  exists r fs', build_on_udc_once imx8mp_env "/cfg" (gadget [dfu; acm]) udc fine ∅ = (Ok r, fs') /\
    NoDup (service_kind <$> rg_services r).
Proof.
  destruct (build_on_udc_once imx8mp_env "/cfg" (gadget [dfu; acm]) udc fine ∅) as [[r|e] fs'] eqn:E;
    [|vm_compute in E; discriminate E].
  exists r, fs'. split; [reflexivity|].
  apply (services_singleton imx8mp_env "/cfg" (gadget [dfu; acm]) udc fine ∅ r fs').
  - constructor; [|constructor]. constructor; [left; eexists; reflexivity|].
    constructor; [exact I|constructor].
  - exact E.
Defined.

End GadgetDemo.
