(* ===== verification/Services.v ===== *)
(** * Configuration document and services

    Models crates/summit-usbgadget-config/src/lib.rs: the shared configuration
    document and how each plugin reads its part of it, the shutdown signal, and
    [run_services], which runs every registered service until all have stopped.
    The entry points of the services are modelled with it. The TOML parser and
    the deserializers of the plugins are interfaces. *)

From stdpp Require Import gmap.
From S2P Require Import Prelude Io Bytes SysInfo Session FunctionFs Dfu FastbootProto FastbootUsb UsbConfig.
From S2P Require Import Gadget Link Owner Pump Net FastbootTcp SocketUpdate.

(** ** The configuration document *)

Inductive ConfigError :=
| CfgIo (e : io_error)
| CfgToml (msg : string)
| CfgStructure (msg : string)
| CfgPlugin (msg : string).

Definition config_error_display (env : SysEnv) (e : ConfigError) : string :=
  match e with
  | CfgIo e => "cannot read configuration: " +:+ display env e
  | CfgToml m => "invalid configuration: " +:+ m
  | CfgStructure m => "invalid configuration structure: " +:+ m
  | CfgPlugin m => "invalid plugin configuration: " +:+ m
  end.

Record ConfigDocument := { cd_root : Table }.

(** The TOML parser. *)
Class TomlParser := toml_from_str : string -> result Value string.

Definition from_toml_str `{TomlParser} (text : string) : result ConfigDocument ConfigError :=
  let? value := map_err CfgToml (toml_from_str text) in
  match value with
  | VTable root => Ok {| cd_root := root |}
  | _ => Err (CfgStructure "configuration root must be a TOML table")
  end.

(** [file] is what reading the configuration file returned. *)
Definition document_load `{TomlParser} (file : io_result string) : result ConfigDocument ConfigError :=
  let? text := map_err CfgIo file in from_toml_str text.

Definition root_value (d : ConfigDocument) : Value := VTable (cd_root d).
Definition section_value (d : ConfigDocument) (name : string) : option Value := table_get (cd_root d) name.

(** A plugin's configuration type: the section it is read from and its
    deserializer. *)
Class PluginConfig (T : Type) := {
  SECTION : option string;
  try_into : Value -> result T string;
}.

Definition parse_root `{PluginConfig T} (d : ConfigDocument) : result T ConfigError :=
  map_err CfgToml (try_into (root_value d)).

Definition parse_section `{PluginConfig T} (d : ConfigDocument) (name : string)
    : result (option T) ConfigError :=
  match section_value d name with
  | Some v => let? t := map_err CfgToml (try_into v) in Ok (Some t)
  | None => Ok None
  end.

Definition from_document `{PluginConfig T} (d : ConfigDocument) : result T ConfigError :=
  match SECTION with
  | None => parse_root d
  | Some section =>
      let? t := parse_section d section in
      ok_or (CfgStructure ("configuration is missing [" +:+ section +:+ "] section")) t
  end.

Definition plugin_load `{TomlParser, PluginConfig T} (file : io_result string) : result T ConfigError :=
  let? d := document_load file in from_document d.

(** ** Services *)

(** An error of a service, as it is displayed. *)
Abbreviation Outcome := (result unit string).

(** How the race between a service's loop and the shutdown signal ends. *)
Inductive Race := Served (r : io_result unit) | ShutdownRequested.

Definition race_result (env : SysEnv) (r : Race) : Outcome :=
  match r with
  | Served r => map_err (display env) r
  | ShutdownRequested => Ok tt
  end.

Definition swupdate_error_display (e : SwupdateConfigError) : string :=
  match e with
  | UnsupportedDownloadTarget t =>
      "unsupported download target " +:+ quoted t +:+ "; expected " +:+ quoted "swupdate"
  end.

(** The entry points; [race] is only reached with a valid configuration. *)
Definition socket_run `{TomlParser, PluginConfig SocketSourceConfig} (env : SysEnv)
    (file : io_result string) (race : SocketSourceConfig -> SwupdateParams -> Race) : Outcome :=
  let? config := map_err (config_error_display env) (plugin_load file) in
  let? params := map_err swupdate_error_display (socket_swupdate_params config) in
  race_result env (race config params).

Definition fastboot_tcp_run `{TomlParser, PluginConfig FastbootTcpConfig} (env : SysEnv)
    (file : io_result string) (race : FastbootTcpConfig -> SwupdateParams -> Race) : Outcome :=
  let? config := map_err (config_error_display env) (plugin_load file) in
  let? params := map_err swupdate_error_display (FastbootTcp.to_swupdate_params config) in
  race_result env (race config params).

(** The gadget service resets the gadgets when its configuration is bad; the
    outcome of that reset is only logged. The second component says whether a
    reset was attempted. *)
Definition gadget_run `{TomlParser, PluginConfig GadgetConfig} (env : SysEnv)
    (file : io_result string) (serve : GadgetConfig -> result unit io_error) : Outcome * bool :=
  match plugin_load file with
  | Err e => (Err (config_error_display env e), true)
  | Ok config => (map_err (display env) (serve config), false)
  end.

(** [join_all]: the results so far of the services in registration order; a
    step is a service that stops. *)
Abbreviation Joining := (list (option Outcome)).

Definition joining (n : nat) : Joining := replicate n None.

Definition service_stops (j : Joining) (ev : nat * Outcome) : Joining :=
  match j !! ev.1 with
  | Some None => <[ev.1 := Some ev.2]> j
  | _ => j
  end.

Fixpoint first_error (l : list Outcome) : Outcome :=
  match l with
  | [] => Ok tt
  | Err e :: _ => Err e
  | Ok _ :: l => first_error l
  end.

(** The joined future: ready when every service has stopped. *)
Definition joined (j : Joining) : option Outcome := first_error <$> mapM id j.

(** The process over a run: [None] while a service is still running. *)
Definition run_services (n : nat) (stops : list (nat * Outcome)) : option Outcome :=
  if (n =? 0)%nat then Some (Ok tt) else joined (foldl service_stops (joining n) stops).

(** ** Properties *)

(** A plugin whose section is present gets exactly its own subtree of the
    document, whatever else the document holds; one whose section is missing
    fails with a structure error and does not affect the others. *)
Theorem plugin_section_isolated `{PluginConfig T} section root root' :
  SECTION = Some section ->
  table_get root section = table_get root' section ->
  from_document {| cd_root := root |} = from_document (T := T) {| cd_root := root' |} /\
  (table_get root section = None ->
   from_document (T := T) {| cd_root := root |}
   = Err (CfgStructure ("configuration is missing [" +:+ section +:+ "] section"))).
Proof.
  intros Hs Ht. unfold from_document. rewrite Hs. unfold parse_section, section_value. cbn [cd_root].
  split; [by rewrite Ht|]. intros Hn. by rewrite Hn.
Qed.

Lemma service_stops_length j ev : length (service_stops j ev) = length j.
Proof. unfold service_stops. destruct (j !! ev.1) as [[o|]|]; [done|by rewrite length_insert|done]. Qed.

(** A service that has stopped stays stopped with its result. *)
Lemma service_stops_lookup j ev i o : j !! i = Some (Some o) -> service_stops j ev !! i = Some (Some o).
Proof.
  intros Hi. unfold service_stops. destruct (j !! ev.1) as [[o'|]|] eqn:E; [done| |done].
  destruct (decide (ev.1 = i)) as [<-|Hne]; [congruence|]. by rewrite list_lookup_insert_ne.
Qed.

Lemma stops_lookup stops j i o : j !! i = Some (Some o) -> foldl service_stops j stops !! i = Some (Some o).
Proof.
  revert j. induction stops as [|ev stops IH]; intros j Hi; cbn; [done|]. by apply IH, service_stops_lookup.
Qed.

(** The result of service [i]: its first stop. *)
Definition outcome_of (i : nat) (stops : list (nat * Outcome)) : option Outcome :=
  snd <$> head (filter (fun ev => ev.1 = i) stops).

Lemma stops_outcome stops j i :
  j !! i = Some None -> foldl service_stops j stops !! i = Some (outcome_of i stops).
Proof.
  revert j. induction stops as [|ev stops IH]; intros j Hi; cbn; [done|].
  unfold outcome_of. rewrite filter_cons. destruct (decide (ev.1 = i)) as [He|Hne].
  - cbn. apply stops_lookup. unfold service_stops. rewrite He, Hi.
    apply list_lookup_insert_eq. by eapply lookup_lt_Some.
  - apply IH. unfold service_stops. destruct (j !! ev.1) as [[o|]|]; [done| |done].
    by rewrite list_lookup_insert_ne.
Qed.

Lemma stops_joining n stops :
  foldl service_stops (joining n) stops = (fun i => outcome_of i stops) <$> seq 0 n.
Proof.
  assert (length (foldl service_stops (joining n) stops) = n) as Hlen.
  { transitivity (length (joining n)); [|apply length_replicate]. generalize (joining n).
    induction stops as [|ev stops IH]; intros j; cbn; [done|]. by rewrite IH, service_stops_length. }
  apply list_eq. intros i. rewrite list_lookup_fmap. destruct (decide (i < n)%nat) as [Hi|Hi].
  - rewrite (stops_outcome stops (joining n) i) by (by apply lookup_replicate_2).
    by rewrite lookup_seq_lt.
  - rewrite lookup_ge_None_2 by lia. rewrite lookup_seq_ge by lia. done.
Qed.

(** The services are independent: the process ends exactly when every
    service has stopped, in whatever order and however they interleave, and its
    result is the first failure in registration order, if any. *)
Theorem run_services_joins n stops :
  (0 < n)%nat ->
  match run_services n stops with
  | None => exists i, (i < n)%nat /\ outcome_of i stops = None
  | Some r => exists results, length results = n /\
      (forall i, (i < n)%nat -> outcome_of i stops = results !! i) /\ r = first_error results
  end.
Proof.
  intros Hn. unfold run_services. replace (n =? 0)%nat with false by (symmetry; apply Nat.eqb_neq; lia).
  rewrite stops_joining. unfold joined.
  destruct (mapM id ((fun i => outcome_of i stops) <$> seq 0 n)) as [results|] eqn:E; cbn.
  - apply mapM_Some in E. assert (length results = n) as Hlen.
    { apply Forall2_length in E. rewrite length_fmap, length_seq in E. done. }
    exists results. split; [done|]. split; [|done]. intros i Hi.
    assert (((fun i => outcome_of i stops) <$> seq 0 n) !! i = Some (outcome_of i stops)) as Hl
      by (rewrite list_lookup_fmap, lookup_seq_lt by done; done).
    destruct (Forall2_lookup_l _ _ _ _ _ E Hl) as (o & Ho & Hr). cbn in Hr. by rewrite Ho.
  - apply mapM_None in E. apply Exists_exists in E as (o & Ho & Hnone).
    apply list_elem_of_In, list_elem_of_fmap in Ho as (i & -> & Hi). apply elem_of_seq in Hi.
    exists i. split; [lia|done].
Qed.

(** ** Runs *)

Module ServicesDemo.

#[local] Instance socket_section : PluginConfig string := {|
  SECTION := Some "socket_source";
  try_into v := match v with VString s => Ok s | _ => Err "not a string" end;
|}.

Lemma plugin_section_isolated_witness :
  from_document {| cd_root := [("socket_source", VString "x")] |}
  = from_document (T := string) {| cd_root := [("device", VTable []); ("socket_source", VString "x")] |}.
Proof.
  refine (proj1 (plugin_section_isolated (T := string) "socket_source" [("socket_source", VString "x")]
    [("device", VTable []); ("socket_source", VString "x")] _ _)); reflexivity.
Defined.

(** The gadget service fails at once, the updater keeps running until the end. *)
Lemma run_services_joins_witness :
  run_services 2 [(0%nat, Err "no controller")] = None /\
  exists results, length results = 2%nat /\ run_services 2 [(0%nat, Err "no controller"); (1%nat, Ok tt)]
    = Some (first_error results).
Proof.
  split; [reflexivity|].
  pose proof (run_services_joins 2 [(0%nat, Err "no controller"); (1%nat, Ok tt)] ltac:(lia)) as H.
  destruct (run_services 2 [(0%nat, Err "no controller"); (1%nat, Ok tt)]) as [r|] eqn:E; [|discriminate E].
  destruct H as (results & Hl & _ & ->). exists results. split; [exact Hl|reflexivity].
Defined.

End ServicesDemo.
