(* ===== verification/Language.v ===== *)
(** * Language codes

    Models patches/usb-gadget/src/lang.rs: the languages with a name of their own
    and the code that stands for each in string descriptors and in the names of
    the string directories of configfs. *)

From stdpp Require Import base list.
From S2P Require Import Prelude.

Inductive Language :=
| Afrikaans | Albanian | ArabicSaudiArabia | ArabicIraq | ArabicEgypt | ArabicLibya | ArabicAlgeria
| ArabicMorocco | ArabicTunisia | ArabicOman | ArabicYemen | ArabicSyria | ArabicJordan | ArabicLebanon
| ArabicKuwait | ArabicUAE | ArabicBahrain | ArabicQatar | Armenian | Assamese | AzeriLatin | AzeriCyrillic
| Basque | Belarussian | Bengali | Bulgarian | Burmese | Catalan | ChineseTaiwan | ChinesePRC
| ChineseHongKongSARPRC | ChineseSingapore | ChineseMacauSAR | Croatian | Czech | Danish | DutchNetherlands
| DutchBelgium | EnglishUnitedStates | EnglishUnitedKingdom | EnglishAustralian | EnglishCanadian
| EnglishNewZealand | EnglishIreland | EnglishSouthAfrica | EnglishJamaica | EnglishCaribbean
| EnglishBelize | EnglishTrinidad | EnglishZimbabwe | EnglishPhilippines | Estonian | Faeroese | Farsi
| Finnish | FrenchStandard | FrenchBelgian | FrenchCanadian | FrenchSwitzerland | FrenchLuxembourg
| FrenchMonaco | Georgian | GermanStandard | GermanSwitzerland | GermanAustria | GermanLuxembourg
| GermanLiechtenstein | Greek | Gujarati | Hebrew | Hindi | Hungarian | Icelandic | Indonesian
| ItalianStandard | ItalianSwitzerland | Japanese | Kannada | KashmiriIndia | Kazakh | Konkani | Korean
| KoreanJohab | Latvian | Lithuanian | LithuanianClassic | Macedonian | MalayMalaysian
| MalayBruneiDarussalam | Malayalam | Manipuri | Marathi | NepaliIndia | NorwegianBokmal | NorwegianNynorsk
| Oriya | Polish | PortugueseBrazil | PortugueseStandard | Punjabi | Romanian | Russian | Sanskrit
| SerbianCyrillic | SerbianLatin | Sindhi | Slovak | Slovenian | SpanishTraditionalSort | SpanishMexican
| SpanishModernSort | SpanishGuatemala | SpanishCostaRica | SpanishPanama | SpanishDominicanRepublic
| SpanishVenezuela | SpanishColombia | SpanishPeru | SpanishArgentina | SpanishEcuador | SpanishChile
| SpanishUruguay | SpanishParaguay | SpanishBolivia | SpanishElSalvador | SpanishHonduras
| SpanishNicaragua | SpanishPuertoRico | Sutu | SwahiliKenya | Swedish | SwedishFinland | Tamil
| TatarTatarstan | Telugu | Thai | Turkish | Ukrainian | UrduPakistan | UrduIndia | UzbekLatin
| UzbekCyrillic | Vietnamese | HidUsageDataDescriptor | HidVendorDefined1 | HidVendorDefined2
| HidVendorDefined3 | HidVendorDefined4
| Other (code : Z).

(** [From<Language> for u16]. *)
Definition language_code (l : Language) : Z :=
  match l with
  | Afrikaans => 1078 | Albanian => 1052 | ArabicSaudiArabia => 1025 | ArabicIraq => 2049
  | ArabicEgypt => 3073 | ArabicLibya => 4097 | ArabicAlgeria => 5121 | ArabicMorocco => 6145
  | ArabicTunisia => 7169 | ArabicOman => 8193 | ArabicYemen => 9217 | ArabicSyria => 10241
  | ArabicJordan => 11265 | ArabicLebanon => 12289 | ArabicKuwait => 13313 | ArabicUAE => 14337
  | ArabicBahrain => 15361 | ArabicQatar => 16385 | Armenian => 1067 | Assamese => 1101
  | AzeriLatin => 1068 | AzeriCyrillic => 2092 | Basque => 1069 | Belarussian => 1059 | Bengali => 1093
  | Bulgarian => 1026 | Burmese => 1109 | Catalan => 1027 | ChineseTaiwan => 1028 | ChinesePRC => 2052
  | ChineseHongKongSARPRC => 3076 | ChineseSingapore => 4100 | ChineseMacauSAR => 5124 | Croatian => 1050
  | Czech => 1029 | Danish => 1030 | DutchNetherlands => 1043 | DutchBelgium => 2067
  | EnglishUnitedStates => 1033 | EnglishUnitedKingdom => 2057 | EnglishAustralian => 3081
  | EnglishCanadian => 4105 | EnglishNewZealand => 5129 | EnglishIreland => 6153
  | EnglishSouthAfrica => 7177 | EnglishJamaica => 8201 | EnglishCaribbean => 9225 | EnglishBelize => 10249
  | EnglishTrinidad => 11273 | EnglishZimbabwe => 12297 | EnglishPhilippines => 13321 | Estonian => 1061
  | Faeroese => 1080 | Farsi => 1065 | Finnish => 1035 | FrenchStandard => 1036 | FrenchBelgian => 2060
  | FrenchCanadian => 3084 | FrenchSwitzerland => 4108 | FrenchLuxembourg => 5132 | FrenchMonaco => 6156
  | Georgian => 1079 | GermanStandard => 1031 | GermanSwitzerland => 2055 | GermanAustria => 3079
  | GermanLuxembourg => 4103 | GermanLiechtenstein => 5127 | Greek => 1032 | Gujarati => 1095
  | Hebrew => 1037 | Hindi => 1081 | Hungarian => 1038 | Icelandic => 1039 | Indonesian => 1057
  | ItalianStandard => 1040 | ItalianSwitzerland => 2064 | Japanese => 1041 | Kannada => 1099
  | KashmiriIndia => 2144 | Kazakh => 1087 | Konkani => 1111 | Korean => 1042 | KoreanJohab => 2066
  | Latvian => 1062 | Lithuanian => 1063 | LithuanianClassic => 2087 | Macedonian => 1071
  | MalayMalaysian => 1086 | MalayBruneiDarussalam => 2110 | Malayalam => 1100 | Manipuri => 1112
  | Marathi => 1102 | NepaliIndia => 2145 | NorwegianBokmal => 1044 | NorwegianNynorsk => 2068
  | Oriya => 1096 | Polish => 1045 | PortugueseBrazil => 1046 | PortugueseStandard => 2070
  | Punjabi => 1094 | Romanian => 1048 | Russian => 1049 | Sanskrit => 1103 | SerbianCyrillic => 3098
  | SerbianLatin => 2074 | Sindhi => 1113 | Slovak => 1051 | Slovenian => 1060
  | SpanishTraditionalSort => 1034 | SpanishMexican => 2058 | SpanishModernSort => 3082
  | SpanishGuatemala => 4106 | SpanishCostaRica => 5130 | SpanishPanama => 6154
  | SpanishDominicanRepublic => 7178 | SpanishVenezuela => 8202 | SpanishColombia => 9226
  | SpanishPeru => 10250 | SpanishArgentina => 11274 | SpanishEcuador => 12298 | SpanishChile => 13322
  | SpanishUruguay => 14346 | SpanishParaguay => 15370 | SpanishBolivia => 16394
  | SpanishElSalvador => 17418 | SpanishHonduras => 18442 | SpanishNicaragua => 19466
  | SpanishPuertoRico => 20490 | Sutu => 1072 | SwahiliKenya => 1089 | Swedish => 1053
  | SwedishFinland => 2077 | Tamil => 1097 | TatarTatarstan => 1092 | Telugu => 1098 | Thai => 1054
  | Turkish => 1055 | Ukrainian => 1058 | UrduPakistan => 1056 | UrduIndia => 2080 | UzbekLatin => 1091
  | UzbekCyrillic => 2115 | Vietnamese => 1066 | HidUsageDataDescriptor => 1279
  | HidVendorDefined1 => 61695 | HidVendorDefined2 => 62719 | HidVendorDefined3 => 63743
  | HidVendorDefined4 => 64767
  | Other code => code
  end.

(** The languages with a name. *)
Definition named_languages : list Language :=
  [Afrikaans; Albanian; ArabicSaudiArabia; ArabicIraq; ArabicEgypt; ArabicLibya; ArabicAlgeria;
   ArabicMorocco; ArabicTunisia; ArabicOman; ArabicYemen; ArabicSyria; ArabicJordan; ArabicLebanon;
   ArabicKuwait; ArabicUAE; ArabicBahrain; ArabicQatar; Armenian; Assamese; AzeriLatin; AzeriCyrillic;
   Basque; Belarussian; Bengali; Bulgarian; Burmese; Catalan; ChineseTaiwan; ChinesePRC;
   ChineseHongKongSARPRC; ChineseSingapore; ChineseMacauSAR; Croatian; Czech; Danish; DutchNetherlands;
   DutchBelgium; EnglishUnitedStates; EnglishUnitedKingdom; EnglishAustralian; EnglishCanadian;
   EnglishNewZealand; EnglishIreland; EnglishSouthAfrica; EnglishJamaica; EnglishCaribbean; EnglishBelize;
   EnglishTrinidad; EnglishZimbabwe; EnglishPhilippines; Estonian; Faeroese; Farsi; Finnish; FrenchStandard;
   FrenchBelgian; FrenchCanadian; FrenchSwitzerland; FrenchLuxembourg; FrenchMonaco; Georgian;
   GermanStandard; GermanSwitzerland; GermanAustria; GermanLuxembourg; GermanLiechtenstein; Greek; Gujarati;
   Hebrew; Hindi; Hungarian; Icelandic; Indonesian; ItalianStandard; ItalianSwitzerland; Japanese; Kannada;
   KashmiriIndia; Kazakh; Konkani; Korean; KoreanJohab; Latvian; Lithuanian; LithuanianClassic; Macedonian;
   MalayMalaysian; MalayBruneiDarussalam; Malayalam; Manipuri; Marathi; NepaliIndia; NorwegianBokmal;
   NorwegianNynorsk; Oriya; Polish; PortugueseBrazil; PortugueseStandard; Punjabi; Romanian; Russian;
   Sanskrit; SerbianCyrillic; SerbianLatin; Sindhi; Slovak; Slovenian; SpanishTraditionalSort;
   SpanishMexican; SpanishModernSort; SpanishGuatemala; SpanishCostaRica; SpanishPanama;
   SpanishDominicanRepublic; SpanishVenezuela; SpanishColombia; SpanishPeru; SpanishArgentina;
   SpanishEcuador; SpanishChile; SpanishUruguay; SpanishParaguay; SpanishBolivia; SpanishElSalvador;
   SpanishHonduras; SpanishNicaragua; SpanishPuertoRico; Sutu; SwahiliKenya; Swedish; SwedishFinland; Tamil;
   TatarTatarstan; Telugu; Thai; Turkish; Ukrainian; UrduPakistan; UrduIndia; UzbekLatin; UzbekCyrillic;
   Vietnamese; HidUsageDataDescriptor; HidVendorDefined1; HidVendorDefined2; HidVendorDefined3;
   HidVendorDefined4].

Definition language_named (code : Z) : option Language :=
  List.find (fun l => language_code l =? code) named_languages.

Definition is_named (l : Language) : bool := match l with Other _ => false | _ => true end.

(** A name is found again from its code. *)
Lemma language_named_code l : is_named l = true -> language_named (language_code l) = Some l.
Proof. destruct l; intros Hl; try discriminate Hl; vm_compute; reflexivity. Qed.

(** No two names share a code, and every code is one of 16 bits: a language's
    strings are published once and found by the host. *)
Theorem language_codes_distinct a b :
  is_named a = true -> is_named b = true -> language_code a = language_code b -> a = b.
Proof.
  intros Ha Hb E. apply language_named_code in Ha, Hb. rewrite E, Hb in Ha. by injection Ha.
Qed.

Lemma language_code_u16 l : is_named l = true -> 0 <= language_code l <= u16_max.
Proof. destruct l; intros Hl; try discriminate Hl; vm_compute; split; discriminate. Qed.

(** The default. *)
Example default_is_us_english : language_named 1033 = Some EnglishUnitedStates.
Proof. vm_compute. reflexivity. Qed.
