(* ===== verification/FfsDesc.v ===== *)
(** * FunctionFS descriptors and events

    Models patches/usb-gadget/src/function/custom/ffs.rs: the descriptor blocks
    and string tables a function writes into its endpoint zero, the parsing of
    endpoint descriptors, control requests and events, and the mount options;
    and the kernel version test of src/lib.rs they depend on. A decoder of the
    block format of the kernel's interface (linux/usb/functionfs.h) is given as
    the specification: what is written decodes to what was described. *)

From S2P Require Import Prelude Io Bytes.

(** ** Fixed-width fields *)

(** [z] fits an unsigned integer of [n] bytes. *)
Definition fits (n : nat) (z : Z) : Prop := 0 <= z < 256 ^ Z.of_nat n.

#[global] Instance fits_dec n z : Decision (fits n z).
Proof. unfold fits. apply _. Defined.

Inductive FfsError := StringsDifferAcrossLanguages | Overflow.

Abbreviation ffs_result A := (result A FfsError).

(** [try_into] of a length into an unsigned integer of [n] bytes. *)
Definition try_into (n : nat) (len : nat) : ffs_result Z :=
  if bool_decide (fits n (Z.of_nat len)) then Ok (Z.of_nat len) else Err Overflow.

Abbreviation write_u8 := (le_bytes 1).
Abbreviation write_u16 := (le_bytes 2).
Abbreviation write_u32 := (le_bytes 4).

(** [data[a..b].copy_from_slice(v)] with [v] as long as the range. *)
Definition patch (a : nat) (v data : list byte) : list byte :=
  take a data ++ v ++ drop (a + length v) data.

(** The concatenation of the encodings of a list, up to the first failure. *)
Fixpoint encode_all {A} (f : A -> ffs_result (list byte)) (l : list A) : ffs_result (list byte) :=
  match l with
  | [] => Ok []
  | x :: l => let? b := f x in let? rest := encode_all f l in Ok (b ++ rest)
  end.

(** ** Descriptors *)

Definition DIR_OUT : Z := 0.
Definition DIR_IN : Z := 128.

Record InterfaceDesc := {
  if_interface_number : Z;
  if_alternate_setting : Z;
  if_num_endpoints : Z;
  if_interface_class : Z;
  if_interface_sub_class : Z;
  if_interface_protocol : Z;
  if_name_idx : Z;
}.

Definition INTERFACE_TYPE : Z := 4.

Definition interface_write (d : InterfaceDesc) : list byte :=
  write_u8 INTERFACE_TYPE ++ write_u8 (if_interface_number d) ++ write_u8 (if_alternate_setting d) ++
  write_u8 (if_num_endpoints d) ++ write_u8 (if_interface_class d) ++ write_u8 (if_interface_sub_class d) ++
  write_u8 (if_interface_protocol d) ++ write_u8 (if_name_idx d).

Record AudioEndpointDesc := { au_refresh : Z; au_synch_address : Z }.

Record EndpointDesc := {
  ed_endpoint_address : Z;
  ed_attributes : Z;
  ed_max_packet_size : Z;
  ed_interval : Z;
  ed_audio : option AudioEndpointDesc;
}.

Definition ENDPOINT_TYPE : Z := 5.
Definition ENDPOINT_SIZE : Z := 7.
Definition ENDPOINT_AUDIO_SIZE : Z := 9.

Definition endpoint_write (d : EndpointDesc) : list byte :=
  write_u8 ENDPOINT_TYPE ++ write_u8 (ed_endpoint_address d) ++ write_u8 (ed_attributes d) ++
  write_u16 (ed_max_packet_size d) ++ write_u8 (ed_interval d) ++
  match ed_audio d with
  | Some a => write_u8 (au_refresh a) ++ write_u8 (au_synch_address a)
  | None => []
  end.

Record SsEndpointComp := { sc_max_burst : Z; sc_attributes : Z; sc_bytes_per_interval : Z }.

Definition SS_COMP_TYPE : Z := 48.

Definition ss_comp_write (d : SsEndpointComp) : list byte :=
  write_u8 SS_COMP_TYPE ++ write_u8 (sc_max_burst d) ++ write_u8 (sc_attributes d) ++
  write_u16 (sc_bytes_per_interval d).

Record InterfaceAssocDesc := {
  ia_first_interface : Z;
  ia_interface_count : Z;
  ia_function_class : Z;
  ia_function_sub_class : Z;
  ia_function_protocol : Z;
  ia_name_idx : Z;
}.

Definition ASSOC_TYPE : Z := 11.

Definition assoc_write (d : InterfaceAssocDesc) : list byte :=
  write_u8 ASSOC_TYPE ++ write_u8 (ia_first_interface d) ++ write_u8 (ia_interface_count d) ++
  write_u8 (ia_function_class d) ++ write_u8 (ia_function_sub_class d) ++
  write_u8 (ia_function_protocol d) ++ write_u8 (ia_name_idx d).

Record CustomDesc := { cd_descriptor_type : Z; cd_data : list byte }.

Definition custom_write (d : CustomDesc) : list byte := write_u8 (cd_descriptor_type d) ++ cd_data d.

Inductive Desc :=
| DInterface (d : InterfaceDesc)
| DEndpoint (d : EndpointDesc)
| DSsEndpointComp (d : SsEndpointComp)
| DInterfaceAssoc (d : InterfaceAssocDesc)
| DCustom (d : CustomDesc).

Definition desc_write (d : Desc) : list byte :=
  match d with
  | DInterface d => interface_write d
  | DEndpoint d => endpoint_write d
  | DSsEndpointComp d => ss_comp_write d
  | DInterfaceAssoc d => assoc_write d
  | DCustom d => custom_write d
  end.

(** The length is the first byte. *)
Definition desc_to_bytes (d : Desc) : ffs_result (list byte) :=
  let data := write_u8 0 ++ desc_write d in
  let? len := try_into 1 (length data) in
  Ok (patch 0 (write_u8 len) data).

(** ** Operating system descriptors *)

Record OsExtCompat := {
  oe_first_interface_number : Z;
  oe_compatible_id : list byte;
  oe_sub_compatible_id : list byte;
}.

Definition compat_write (c : OsExtCompat) : list byte :=
  write_u8 (oe_first_interface_number c) ++ write_u8 1 ++ oe_compatible_id c ++
  oe_sub_compatible_id c ++ replicate 6 Byte.x00.

Record OsExtProp := { op_data_type : Z; op_name : list byte; op_data : list byte }.

(** The assertion on the total length holds by construction. *)
Definition prop_to_bytes (p : OsExtProp) : ffs_result (list byte) :=
  let? name_len := try_into 2 (length (op_name p)) in
  let? data_len := try_into 4 (length (op_data p)) in
  let data := write_u32 0 ++ write_u32 (op_data_type p) ++ write_u16 name_len ++ op_name p ++
              write_u32 data_len ++ op_data p in
  let? len := try_into 4 (length data) in
  Ok (patch 0 (write_u32 len) data).

Inductive OsDescExt :=
| ExtCompat (l : list OsExtCompat)
| ExtProp (l : list OsExtProp).

Record OsDesc := { os_interface : Z; os_ext : OsDescExt }.

(** The kernel release's major and minor number, from the text of [uname]. *)
Definition split_dot (l : list byte) : list byte * option (list byte) :=
  match position (fun b => bool_decide (b = Byte.x2e)) l with
  | Some i => (take i l, Some (drop (S i) l))
  | None => (l, None)
  end.

Definition linux_version (release : list byte) : option (Z * Z) :=
  match split_dot release with
  | (_, None) => None
  | (major, Some rest) =>
      a ← from_str_radix 10 u16_max major;
      b ← from_str_radix 10 u16_max (split_dot rest).1;
      Some (a, b)
  end.

(** The version field of the OS descriptors changed its byte order in 6.4. *)
Definition os_desc_bcd_version (kernel : option (Z * Z)) : Z :=
  let '(major, minor) := default (0, 0) kernel in
  if (6 <? major) || ((major =? 6) && (4 <=? minor)) then 256 else 1.

Section Kernel.
Variable kernel : option (Z * Z).

Definition ext_write (e : OsDescExt) : ffs_result (list byte) :=
  match e with
  | ExtCompat compats =>
      let? n := try_into 1 (length compats) in
      Ok (write_u16 (os_desc_bcd_version kernel) ++ write_u16 4 ++ write_u8 n ++ write_u8 0 ++
          concat (compat_write <$> compats))
  | ExtProp props =>
      let? n := try_into 2 (length props) in
      let? body := encode_all prop_to_bytes props in
      Ok (write_u16 (os_desc_bcd_version kernel) ++ write_u16 5 ++ write_u16 n ++ body)
  end.

Definition os_desc_to_bytes (d : OsDesc) : ffs_result (list byte) :=
  let? ext := ext_write (os_ext d) in
  let data := write_u8 (os_interface d) ++ write_u32 0 ++ ext in
  let? len := try_into 4 (length data) in
  Ok (patch 1 (write_u32 len) data).

(** ** The descriptor block *)

Definition HAS_FS_DESC : Z := 1.
Definition HAS_HS_DESC : Z := 2.
Definition HAS_SS_DESC : Z := 4.
Definition HAS_MS_OS_DESC : Z := 8.
Definition EVENTFD : Z := 32.
Definition ALL_CTRL_RECIP : Z := 64.
Definition CONFIG0_SETUP : Z := 128.

(** [insert] and [set] of a bit set. *)
Definition flag_set (flag : Z) (on : bool) (flags : Z) : Z :=
  if on then Z.lor flags flag else Z.land flags (Z.lnot flag).

Record Descs := {
  flags : Z;
  eventfd : option Z;
  fs_descrs : list Desc;
  hs_descrs : list Desc;
  ss_descrs : list Desc;
  os_descrs : list OsDesc;
}.

Definition DESCS_MAGIC_V2 : Z := 3.

Definition all_speeds : Z :=
  Z.lor (Z.lor (Z.lor HAS_FS_DESC HAS_HS_DESC) HAS_SS_DESC) HAS_MS_OS_DESC.

Definition descs_flags (d : Descs) : Z :=
  flag_set EVENTFD (bool_decide (is_Some (eventfd d))) (Z.lor (flags d) all_speeds).

Definition descs_to_bytes (d : Descs) : ffs_result (list byte) :=
  let? nfs := try_into 4 (length (fs_descrs d)) in
  let? nhs := try_into 4 (length (hs_descrs d)) in
  let? nss := try_into 4 (length (ss_descrs d)) in
  let? nos := try_into 4 (length (os_descrs d)) in
  let? fs := encode_all desc_to_bytes (fs_descrs d) in
  let? hs := encode_all desc_to_bytes (hs_descrs d) in
  let? ss := encode_all desc_to_bytes (ss_descrs d) in
  let? os := encode_all os_desc_to_bytes (os_descrs d) in
  let data := write_u32 DESCS_MAGIC_V2 ++ write_u32 0 ++ write_u32 (descs_flags d) ++
              match eventfd d with Some fd => write_u32 fd | None => [] end ++
              write_u32 nfs ++ write_u32 nhs ++ write_u32 nss ++ write_u32 nos ++
              fs ++ hs ++ ss ++ os in
  let? len := try_into 4 (length data) in
  Ok (patch 4 (write_u32 len) data).

End Kernel.

(** ** The string block *)

(** The languages in the order the map yields them, with their strings. *)
Abbreviation StringTable := (list (Z * list string)).

Definition STRINGS_MAGIC : Z := 2.

Definition c_str (s : string) : list byte := bs s ++ [Byte.x00].

Definition strings_to_bytes (t : StringTable) : ffs_result (list byte) :=
  let str_count := default 0%nat (length ∘ snd <$> head t) in
  if negb (forallb (fun p => (length p.2 =? str_count)%nat) t)
  then Err StringsDifferAcrossLanguages else
  let? n := try_into 4 str_count in
  let? langs := try_into 4 (length t) in
  let data := write_u32 STRINGS_MAGIC ++ write_u32 0 ++ write_u32 n ++ write_u32 langs ++
              concat ((fun p => write_u16 p.1 ++ concat (c_str <$> p.2)) <$> t) in
  let? len := try_into 4 (length data) in
  Ok (patch 4 (write_u32 len) data).

(** ** Reading *)

(** One [read_u8] or [read_u16::<LE>] of a slice. *)
Definition read_uint (n : nat) (data : list byte) : io_result (Z * list byte) :=
  if (n <=? length data)%nat then Ok (le_val (take n data), drop n data)
  else Err (Custom KUnexpectedEof "failed to fill whole buffer").

Definition endpoint_parse (data : list byte) : io_result EndpointDesc :=
  let? (size, data) := read_uint 1 data in
  if negb (size =? ENDPOINT_SIZE) && negb (size =? ENDPOINT_AUDIO_SIZE)
  then Err (Custom KInvalidData "endpoint descriptor size mismatch") else
  let? (ty, data) := read_uint 1 data in
  if negb (ty =? ENDPOINT_TYPE)
  then Err (Custom KInvalidData "endpoint descriptor type mismatch") else
  let? (address, data) := read_uint 1 data in
  let? (attributes, data) := read_uint 1 data in
  let? (max_packet_size, data) := read_uint 2 data in
  let? (interval, data) := read_uint 1 data in
  let? audio :=
    if size =? ENDPOINT_AUDIO_SIZE then
      let? (refresh, data) := read_uint 1 data in
      let? (synch, _) := read_uint 1 data in
      Ok (Some {| au_refresh := refresh; au_synch_address := synch |})
    else Ok None in
  Ok {| ed_endpoint_address := address; ed_attributes := attributes;
        ed_max_packet_size := max_packet_size; ed_interval := interval; ed_audio := audio |}.

(** A control request and an event. [None] is the [unreachable!()] a short
    buffer runs into; both are only called with full ones. *)
Record RawCtrlReq := {
  rc_request_type : Z;
  rc_request : Z;
  rc_value : Z;
  rc_index : Z;
  rc_length : Z;
}.

Definition ctrl_req_parse (buf : list byte) : option RawCtrlReq :=
  '(request_type, buf) ← ok (read_uint 1 buf);
  '(request, buf) ← ok (read_uint 1 buf);
  '(value, buf) ← ok (read_uint 2 buf);
  '(index, buf) ← ok (read_uint 2 buf);
  '(len, _) ← ok (read_uint 2 buf);
  Some {| rc_request_type := request_type; rc_request := request; rc_value := value;
          rc_index := index; rc_length := len |}.

Definition EVENT_SIZE : nat := 12.

Record RawEvent := { rv_data : list byte; rv_event_type : Z }.

Definition event_parse (buf : list byte) : option RawEvent :=
  if (length buf <? EVENT_SIZE)%nat then None
  else Some {| rv_data := take 8 buf; rv_event_type := le_val (take 1 (drop 8 buf)) |}.

(** ** Mount options *)

Record MountOptions := {
  mo_no_disconnect : bool;
  mo_rmode : option Z;
  mo_fmode : option Z;
  mo_mode : option Z;
  mo_uid : option Z;
  mo_gid : option Z;
}.

(** [u32]'s decimal form. *)
Definition fmt_decimal (z : Z) : list byte :=
  (fun d => z2b (48 + d)) <$> strip_zeros 1 (radix_digits 10 10 z).

Fixpoint join (sep : list byte) (l : list (list byte)) : list byte :=
  match l with
  | [] => []
  | [x] => x
  | x :: l => x ++ sep ++ join sep l
  end.

Definition mount_option (name : string) (v : option Z) : list (list byte) :=
  match v with Some v => [bs name ++ fmt_decimal v] | None => [] end.

Definition to_mount_data (o : MountOptions) : list byte :=
  join (bs ",")
    ((if mo_no_disconnect o then [bs "no_disconnect=1"] else []) ++
     mount_option "rmode=" (mo_rmode o) ++ mount_option "fmode=" (mo_fmode o) ++
     mount_option "mode=" (mo_mode o) ++ mount_option "uid=" (mo_uid o) ++
     mount_option "gid=" (mo_gid o)).

(** ** The block format, as a decoder

    What the kernel reads: a parser of the format, written from its layout and
    not from the encoder, with every length and count checked. *)

Definition parser (A : Type) : Type := list byte -> option (A * list byte).

Definition pret {A} (x : A) : parser A := fun l => Some (x, l).
Definition pfail {A} : parser A := fun _ => None.
Definition pbind {A B} (p : parser A) (k : A -> parser B) : parser B := fun l =>
  match p l with Some (x, l) => k x l | None => None end.

Notation "'parse!' x ':=' p 'in' k" := (pbind p (fun x => k))
  (at level 10, x pattern, p at level 100, k at level 200) : gadget_scope.

Definition p_bytes (n : nat) : parser (list byte) := fun l =>
  if (n <=? length l)%nat then Some (take n l, drop n l) else None.
Definition p_uint (n : nat) : parser Z := parse! b := p_bytes n in pret (le_val b).
Definition p_guard (b : bool) : parser unit := if b then pret tt else pfail.

Fixpoint p_repeat {A} (n : nat) (p : parser A) : parser (list A) :=
  match n with
  | O => pret []
  | S n => parse! x := p in parse! l := p_repeat n p in pret (x :: l)
  end.

(** [p] must consume exactly the next [n] bytes. *)
Definition p_within {A} (n : nat) (p : parser A) : parser A :=
  parse! b := p_bytes n in
  match p b with Some (x, []) => pret x | _ => pfail end.

Definition p_rest : parser (list byte) := fun l => Some (l, []).

Definition p_interface : parser Desc :=
  parse! n := p_uint 1 in parse! alt := p_uint 1 in parse! eps := p_uint 1 in
  parse! c := p_uint 1 in parse! s := p_uint 1 in parse! p := p_uint 1 in parse! i := p_uint 1 in
  pret (DInterface {| if_interface_number := n; if_alternate_setting := alt; if_num_endpoints := eps;
                      if_interface_class := c; if_interface_sub_class := s;
                      if_interface_protocol := p; if_name_idx := i |}).

Definition p_endpoint (audio : bool) : parser Desc :=
  parse! a := p_uint 1 in parse! attrs := p_uint 1 in parse! sz := p_uint 2 in
  parse! iv := p_uint 1 in
  parse! au := (if audio then
                  parse! r := p_uint 1 in parse! s := p_uint 1 in
                  pret (Some {| au_refresh := r; au_synch_address := s |})
                else pret None) in
  pret (DEndpoint {| ed_endpoint_address := a; ed_attributes := attrs; ed_max_packet_size := sz;
                     ed_interval := iv; ed_audio := au |}).

Definition p_ss_comp : parser Desc :=
  parse! b := p_uint 1 in parse! a := p_uint 1 in parse! n := p_uint 2 in
  pret (DSsEndpointComp {| sc_max_burst := b; sc_attributes := a; sc_bytes_per_interval := n |}).

Definition p_assoc : parser Desc :=
  parse! f := p_uint 1 in parse! n := p_uint 1 in parse! c := p_uint 1 in
  parse! s := p_uint 1 in parse! p := p_uint 1 in parse! i := p_uint 1 in
  pret (DInterfaceAssoc {| ia_first_interface := f; ia_interface_count := n; ia_function_class := c;
                           ia_function_sub_class := s; ia_function_protocol := p; ia_name_idx := i |}).

(** A descriptor starts with its length, which counts itself. *)
Definition p_desc : parser Desc :=
  parse! len := p_uint 1 in
  parse! _ := p_guard (2 <=? len) in
  p_within (Z.to_nat (len - 1))
    (parse! ty := p_uint 1 in
     if ty =? INTERFACE_TYPE then p_interface
     else if ty =? ENDPOINT_TYPE then p_endpoint (len =? ENDPOINT_AUDIO_SIZE)
     else if ty =? SS_COMP_TYPE then p_ss_comp
     else if ty =? ASSOC_TYPE then p_assoc
     else parse! data := p_rest in
          pret (DCustom {| cd_descriptor_type := ty; cd_data := data |})).

Definition p_compat : parser OsExtCompat :=
  parse! i := p_uint 1 in
  parse! one := p_uint 1 in
  parse! _ := p_guard (one =? 1) in
  parse! c := p_bytes 8 in
  parse! s := p_bytes 8 in
  parse! z := p_bytes 6 in
  parse! _ := p_guard (bool_decide (z = replicate 6 Byte.x00)) in
  pret {| oe_first_interface_number := i; oe_compatible_id := c; oe_sub_compatible_id := s |}.

Definition p_prop : parser OsExtProp :=
  parse! len := p_uint 4 in
  parse! _ := p_guard (4 <=? len) in
  p_within (Z.to_nat (len - 4))
    (parse! ty := p_uint 4 in
     parse! name_len := p_uint 2 in
     parse! name := p_bytes (Z.to_nat name_len) in
     parse! data_len := p_uint 4 in
     parse! data := p_bytes (Z.to_nat data_len) in
     pret {| op_data_type := ty; op_name := name; op_data := data |}).

Definition p_ext (kernel : option (Z * Z)) : parser OsDescExt :=
  parse! bcd := p_uint 2 in
  parse! _ := p_guard (bcd =? os_desc_bcd_version kernel) in
  parse! index := p_uint 2 in
  if index =? 4 then
    parse! n := p_uint 1 in
    parse! reserved := p_uint 1 in
    parse! _ := p_guard (reserved =? 0) in
    parse! l := p_repeat (Z.to_nat n) p_compat in
    pret (ExtCompat l)
  else
    parse! _ := p_guard (index =? 5) in
    parse! n := p_uint 2 in
    parse! l := p_repeat (Z.to_nat n) p_prop in
    pret (ExtProp l).

Definition p_os_desc (kernel : option (Z * Z)) : parser OsDesc :=
  parse! i := p_uint 1 in
  parse! len := p_uint 4 in
  parse! _ := p_guard (5 <=? len) in
  parse! e := p_within (Z.to_nat (len - 5)) (p_ext kernel) in
  pret {| os_interface := i; os_ext := e |}.

(** The block: all four groups are flagged as present. *)
Definition p_descs (kernel : option (Z * Z)) : parser Descs :=
  parse! magic := p_uint 4 in
  parse! _ := p_guard (magic =? DESCS_MAGIC_V2) in
  parse! len := p_uint 4 in
  parse! _ := p_guard (8 <=? len) in
  p_within (Z.to_nat (len - 8))
    (parse! flags := p_uint 4 in
     parse! _ := p_guard (Z.land flags all_speeds =? all_speeds) in
     parse! fd := (if Z.testbit flags 5 then parse! fd := p_uint 4 in pret (Some fd) else pret None) in
     parse! nfs := p_uint 4 in parse! nhs := p_uint 4 in
     parse! nss := p_uint 4 in parse! nos := p_uint 4 in
     parse! fs := p_repeat (Z.to_nat nfs) p_desc in
     parse! hs := p_repeat (Z.to_nat nhs) p_desc in
     parse! ss := p_repeat (Z.to_nat nss) p_desc in
     parse! os := p_repeat (Z.to_nat nos) (p_os_desc kernel) in
     pret {| flags := flags; eventfd := fd; fs_descrs := fs; hs_descrs := hs;
             ss_descrs := ss; os_descrs := os |}).

(** The whole of a byte string. *)
Definition run_parser {A} (p : parser A) (b : list byte) : option A :=
  match p b with Some (x, []) => Some x | _ => None end.

Definition descs_decode (kernel : option (Z * Z)) : list byte -> option Descs :=
  run_parser (p_descs kernel).

(** ** Encodings and their parsers *)

(** [e] is an encoding of [x] for [p], whatever follows it. *)
Definition parses {A} (p : parser A) (e : list byte) (x : A) : Prop :=
  forall tail, p (e ++ tail) = Some (x, tail).

Lemma parses_pret {A} (x : A) : parses (pret x) [] x.
Proof. done. Qed.

Lemma parses_pbind {A B} (p : parser A) (k : A -> parser B) e e' x y :
  parses p e x -> parses (k x) e' y -> parses (pbind p k) (e ++ e') y.
Proof. intros Hp Hk tail. unfold pbind. by rewrite <- app_assoc, Hp. Qed.

Lemma pbind_parses {A B} (p : parser A) (k : A -> parser B) e x tail :
  parses p e x -> pbind p k (e ++ tail) = k x tail.
Proof. intros Hp. unfold pbind. by rewrite Hp. Qed.

Lemma parses_last {A B} (p : parser A) (k : A -> parser B) e x y :
  parses p e x -> parses (k x) [] y -> parses (pbind p k) e y.
Proof. intros Hp Hk. rewrite <- (app_nil_r e). by eapply parses_pbind. Qed.

Lemma parses_guard {B} (b : bool) (k : unit -> parser B) e y :
  b = true -> parses (k tt) e y -> parses (pbind (p_guard b) k) e y.
Proof. intros -> Hk tail. apply Hk. Qed.

Lemma parses_bytes n b : length b = n -> parses (p_bytes n) b b.
Proof.
  intros <- tail. unfold p_bytes. rewrite (proj2 (Nat.leb_le _ _)).
  - by rewrite take_app_length, drop_app_length.
  - rewrite length_app. lia.
Qed.

Lemma run_parser_parses {A} (p : parser A) e x : parses p e x -> run_parser p e = Some x.
Proof. intros Hp. unfold run_parser. specialize (Hp []). rewrite app_nil_r in Hp. by rewrite Hp. Qed.

Lemma parses_uint n z : fits n z -> parses (p_uint n) (le_bytes n z) z.
Proof.
  intros Hz. eapply parses_last; [apply parses_bytes, length_le_bytes|].
  rewrite le_val_le_bytes by done. apply parses_pret.
Qed.

Lemma parses_within {A} n (p : parser A) e x :
  length e = n -> parses p e x -> parses (p_within n p) e x.
Proof.
  intros Hn Hp. eapply parses_last; [by apply parses_bytes|].
  specialize (Hp []). rewrite app_nil_r in Hp. rewrite Hp. apply parses_pret.
Qed.

(** A parser that takes all that is left can only end an encoding. *)
Lemma parses_within_rest {A} n (p : parser A) e x :
  length e = n -> p e = Some (x, []) -> parses (p_within n p) e x.
Proof.
  intros Hn Hp. eapply parses_last; [by apply parses_bytes|].
  rewrite Hp. apply parses_pret.
Qed.

(** Encoding a list and parsing it back, entry by entry. *)
Lemma parses_encode_all {A} (p : parser A) f (l : list A) e :
  (forall x b, x ∈ l -> f x = Ok b -> parses p b x) ->
  encode_all f l = Ok e -> parses (p_repeat (length l) p) e l.
Proof.
  revert e. induction l as [|x l IH]; simpl; intros e Hf He.
  - injection He as <-. apply parses_pret.
  - destruct (f x) as [b|] eqn:Ef; simplify_eq/=.
    destruct (encode_all f l) as [r|] eqn:Er; simplify_eq/=.
    eapply parses_pbind; [apply Hf; [left|done]|].
    eapply parses_last; [|apply parses_pret]. apply IH; [|done].
    intros y b' Hy. apply Hf. by right.
Qed.

Lemma parses_concat {A} (p : parser A) f (l : list A) :
  (forall x, x ∈ l -> parses p (f x) x) -> parses (p_repeat (length l) p) (concat (f <$> l)) l.
Proof.
  induction l as [|x l IH]; simpl; intros Hf; [apply parses_pret|].
  eapply parses_pbind; [apply Hf; left|].
  eapply parses_last; [|apply parses_pret]. apply IH. intros y Hy. apply Hf. by right.
Qed.

Lemma Ok_inj {A E} (x y : A) : @Ok A E x = Ok y -> y = x.
Proof. by intros [= ->]. Qed.

(** The length field, written last over its placeholder. *)
Lemma patch_le k pre n z z0 rest :
  length pre = k ->
  patch k (le_bytes n z) (pre ++ le_bytes n z0 ++ rest) = pre ++ le_bytes n z ++ rest.
Proof.
  intros <-. unfold patch. rewrite take_app_length, length_le_bytes, <- drop_drop, drop_app_length.
  by rewrite drop_app_length' by (by rewrite length_le_bytes).
Qed.

Lemma patch_le0 n z z0 rest : patch 0 (le_bytes n z) (le_bytes n z0 ++ rest) = le_bytes n z ++ rest.
Proof. by apply (patch_le 0 []). Qed.

Lemma try_into_Ok n len z : try_into n len = Ok z -> z = Z.of_nat len /\ fits n z.
Proof. unfold try_into. case_bool_decide; intros; simplify_eq. done. Qed.

(** Goals [parses] over a literal sequence of fields: one field at a time. *)
Ltac solve_fits := first [done | split; vm_compute; done].
Ltac parse_one := first [apply parses_uint; solve_fits | by apply parses_bytes].
Ltac parse_field :=
  first
    [ eapply parses_guard; [first [done | by rewrite bool_decide_true]|]
    | eapply parses_pbind; [parse_one|]
    | eapply parses_last; [parse_one|] ].

(** ** Values that fit their fields *)

(** The widths of the fields, which Rust's types guarantee; a custom descriptor
    is not one of the four standard kinds. *)
Definition desc_fits (d : Desc) : Prop :=
  match d with
  | DInterface d =>
      fits 1 (if_interface_number d) /\ fits 1 (if_alternate_setting d) /\ fits 1 (if_num_endpoints d) /\
      fits 1 (if_interface_class d) /\ fits 1 (if_interface_sub_class d) /\
      fits 1 (if_interface_protocol d) /\ fits 1 (if_name_idx d)
  | DEndpoint d =>
      fits 1 (ed_endpoint_address d) /\ fits 1 (ed_attributes d) /\ fits 2 (ed_max_packet_size d) /\
      fits 1 (ed_interval d) /\
      match ed_audio d with
      | Some a => fits 1 (au_refresh a) /\ fits 1 (au_synch_address a)
      | None => True
      end
  | DSsEndpointComp d =>
      fits 1 (sc_max_burst d) /\ fits 1 (sc_attributes d) /\ fits 2 (sc_bytes_per_interval d)
  | DInterfaceAssoc d =>
      fits 1 (ia_first_interface d) /\ fits 1 (ia_interface_count d) /\ fits 1 (ia_function_class d) /\
      fits 1 (ia_function_sub_class d) /\ fits 1 (ia_function_protocol d) /\ fits 1 (ia_name_idx d)
  | DCustom d =>
      fits 1 (cd_descriptor_type d) /\
      cd_descriptor_type d ∉ [INTERFACE_TYPE; ENDPOINT_TYPE; SS_COMP_TYPE; ASSOC_TYPE]
  end.

Definition compat_fits (c : OsExtCompat) : Prop :=
  fits 1 (oe_first_interface_number c) /\ length (oe_compatible_id c) = 8%nat /\
  length (oe_sub_compatible_id c) = 8%nat.

Definition os_desc_fits (d : OsDesc) : Prop :=
  fits 1 (os_interface d) /\
  match os_ext d with
  | ExtCompat l => Forall compat_fits l
  | ExtProp l => Forall (fun p => fits 4 (op_data_type p)) l
  end.

Definition descs_fits (d : Descs) : Prop :=
  fits 4 (flags d) /\
  match eventfd d with Some fd => fits 4 fd | None => True end /\
  Forall desc_fits (fs_descrs d) /\ Forall desc_fits (hs_descrs d) /\
  Forall desc_fits (ss_descrs d) /\ Forall os_desc_fits (os_descrs d).

#[global] Instance desc_fits_dec d : Decision (desc_fits d).
Proof. destruct d as [| d | | |]; simpl; try apply _. destruct (ed_audio d); apply _. Defined.
#[global] Instance os_desc_fits_dec d : Decision (os_desc_fits d).
Proof. unfold os_desc_fits, compat_fits. destruct (os_ext d); apply _. Defined.
#[global] Instance descs_fits_dec d : Decision (descs_fits d).
Proof. unfold descs_fits. destruct (eventfd d); apply _. Defined.

(** ** Every descriptor decodes to itself *)

Lemma desc_to_bytes_Ok d b :
  desc_to_bytes d = Ok b ->
  b = write_u8 (Z.of_nat (S (length (desc_write d)))) ++ desc_write d /\
  fits 1 (Z.of_nat (S (length (desc_write d)))).
Proof.
  unfold desc_to_bytes. destruct (try_into _ _) as [z|] eqn:E; [|done].
  apply try_into_Ok in E as [-> Hf]. intros ->%Ok_inj. by rewrite patch_le0.
Qed.

Lemma desc_roundtrip d b : desc_fits d -> desc_to_bytes d = Ok b -> parses p_desc b d.
Proof.
  intros Hd [-> Hlen]%desc_to_bytes_Ok. eapply parses_pbind; [by apply parses_uint|].
  destruct d as [d|d|d|d|d]; cbn [desc_write desc_fits] in *.
  all: try (eapply parses_guard; [apply Z.leb_le; simpl; lia|]).
  - destruct d; simpl in Hd; destruct_and?. apply parses_within; [done|].
    repeat parse_field. apply parses_pret.
  - destruct d as [? ? ? ? [[]|]]; simpl in Hd; destruct_and?; (apply parses_within; [done|]).
    + repeat parse_field. eapply parses_last; [repeat parse_field|]; apply parses_pret.
    + repeat parse_field. eapply parses_last; apply parses_pret.
  - destruct d; simpl in Hd; destruct_and?. apply parses_within; [done|].
    repeat parse_field. apply parses_pret.
  - destruct d; simpl in Hd; destruct_and?. apply parses_within; [done|].
    repeat parse_field. apply parses_pret.
  - destruct d as [ty data]. destruct Hd as [Hty Hnot]. apply parses_within_rest; [simpl; lia|].
    etransitivity; [by apply (pbind_parses _ _ (le_bytes 1 ty)), parses_uint|].
    cbn [cd_descriptor_type] in *. rewrite !not_elem_of_cons in Hnot. destruct_and?.
    by rewrite !(proj2 (Z.eqb_neq ty _)) by done.
Qed.

Lemma compat_roundtrip c : compat_fits c -> parses p_compat (compat_write c) c.
Proof.
  destruct c. intros (? & ? & ?). unfold compat_write.
  cbn [oe_first_interface_number oe_compatible_id oe_sub_compatible_id] in *.
  repeat parse_field. apply parses_pret.
Qed.

Lemma prop_roundtrip p b :
  fits 4 (op_data_type p) -> prop_to_bytes p = Ok b -> parses p_prop b p.
Proof.
  intros Ht. unfold prop_to_bytes.
  destruct (try_into 2 _) as [nl|] eqn:En; [|done]. apply try_into_Ok in En as [-> Hn].
  cbn [rbind]. destruct (try_into 4 _) as [dl|] eqn:Ed; [|done]. apply try_into_Ok in Ed as [-> Hd].
  cbn [rbind]. destruct (try_into 4 _) as [len|] eqn:El; [|done]. apply try_into_Ok in El as [-> Hl].
  intros ->%Ok_inj.
  rewrite patch_le0. eapply parses_pbind; [parse_one|].
  rewrite length_app, length_le_bytes. eapply parses_guard; [apply Z.leb_le; lia|].
  apply parses_within; [lia|]. destruct p; cbn [op_data_type op_name op_data] in *.
  do 2 parse_field. rewrite !Nat2Z.id. repeat parse_field.
  rewrite !Nat2Z.id. repeat parse_field. apply parses_pret.
Qed.

(** ** The block decodes to what was described *)

Section Roundtrip.
Variable kernel : option (Z * Z).

Lemma bcd_fits : fits 2 (os_desc_bcd_version kernel).
Proof. unfold os_desc_bcd_version. destruct (default _ _) as [a b]. case_match; solve_fits. Qed.

Lemma ext_roundtrip i e b :
  os_desc_fits {| os_interface := i; os_ext := e |} ->
  ext_write kernel e = Ok b -> parses (p_ext kernel) b e.
Proof.
  intros [_ He]. pose proof bcd_fits. unfold ext_write. cbn [os_ext] in He. destruct e as [l|l].
  - destruct (try_into 1 _) as [n|] eqn:En; [|done]. apply try_into_Ok in En as [-> Hn].
    intros ->%Ok_inj. do 4 (parse_field; try (eapply parses_guard; [apply Z.eqb_refl|])).
    rewrite Nat2Z.id. eapply parses_last; [|apply parses_pret].
    apply parses_concat. intros c Hc. apply compat_roundtrip. by eapply list.Forall_forall in He.
  - destruct (try_into 2 _) as [n|] eqn:En; [|done]. apply try_into_Ok in En as [-> Hn].
    cbn [rbind]. destruct (encode_all _ _) as [body|] eqn:Eb; [|done].
    intros ->%Ok_inj. do 3 (parse_field; try (eapply parses_guard; [apply Z.eqb_refl|])).
    rewrite Nat2Z.id. eapply parses_last; [|apply parses_pret].
    eapply parses_encode_all; [|done]. intros p b' Hp. apply prop_roundtrip. by eapply list.Forall_forall in He.
Qed.

Lemma os_desc_roundtrip d b :
  os_desc_fits d -> os_desc_to_bytes kernel d = Ok b -> parses (p_os_desc kernel) b d.
Proof.
  destruct d as [i e]. intros Hd. unfold os_desc_to_bytes. cbn [os_ext os_interface].
  destruct (ext_write kernel e) as [ext|] eqn:Ee; [|done]. cbn [rbind].
  destruct (try_into 4 _) as [len|] eqn:El; [|done]. apply try_into_Ok in El as [-> Hl].
  intros ->%Ok_inj. rewrite (patch_le 1 (write_u8 i)) by apply length_le_bytes.
  destruct Hd as [Hi He]. do 2 parse_field. rewrite !length_app, !length_le_bytes.
  eapply parses_guard; [apply Z.leb_le; lia|].
  eapply parses_last; [|apply parses_pret]. apply parses_within; [lia|]. by eapply ext_roundtrip.
Qed.

Lemma flag_set_width w flag on f :
  0 <= w -> 0 <= flag < 2 ^ w -> 0 <= f < 2 ^ w -> 0 <= flag_set flag on f < 2 ^ w.
Proof.
  intros Hw. rewrite !width_bits by done. unfold flag_set. intros [Hg Hg'] [Hf Hf'].
  destruct on; (split; [|intros i Hi]).
  - by apply Z.lor_nonneg.
  - by rewrite Z.lor_spec, Hg', Hf'.
  - apply Z.land_nonneg. by left.
  - by rewrite Z.land_spec, Hf'.
Qed.

Lemma descs_flags_fits d : fits 4 (flags d) -> fits 4 (descs_flags d).
Proof.
  intros Hf. apply (flag_set_width 32); [done..|]. by apply (flag_set_width 32 all_speeds true).
Qed.

(** The flags name every group, and the event descriptor exactly when there is one. *)
Lemma descs_flags_speeds d : Z.land (descs_flags d) all_speeds = all_speeds.
Proof.
  apply Z.bits_inj'. intros i Hi. rewrite Z.land_spec.
  destruct (Z.testbit all_speeds i) eqn:E; [|by rewrite andb_false_r]. rewrite andb_true_r.
  unfold descs_flags, flag_set. case_bool_decide.
  - by rewrite !Z.lor_spec, E, orb_true_r.
  - rewrite Z.land_spec, Z.lor_spec, E, orb_true_r, Z.lnot_spec by done.
    destruct (decide (i = 5)) as [->|]; [done|].
    change EVENTFD with (2 ^ 5). by rewrite Z.pow2_bits_false by done.
Qed.

Lemma descs_flags_eventfd d :
  Z.testbit (descs_flags d) 5 = bool_decide (is_Some (eventfd d)).
Proof.
  unfold descs_flags, flag_set. case_bool_decide.
  - by rewrite Z.lor_spec, orb_true_r.
  - by rewrite Z.land_spec, andb_false_r.
Qed.

Definition described (d : Descs) : Descs :=
  {| flags := descs_flags d; eventfd := eventfd d; fs_descrs := fs_descrs d;
     hs_descrs := hs_descrs d; ss_descrs := ss_descrs d; os_descrs := os_descrs d |}.

Lemma p_repeat_descs l b :
  Forall desc_fits l -> encode_all desc_to_bytes l = Ok b -> parses (p_repeat (length l) p_desc) b l.
Proof.
  intros Hl. apply parses_encode_all. intros d b' Hd. apply desc_roundtrip.
  by eapply list.Forall_forall in Hl.
Qed.

Lemma p_repeat_os_descs l b :
  Forall os_desc_fits l -> encode_all (os_desc_to_bytes kernel) l = Ok b ->
  parses (p_repeat (length l) (p_os_desc kernel)) b l.
Proof.
  intros Hl. apply parses_encode_all. intros d b' Hd. apply os_desc_roundtrip.
  by eapply list.Forall_forall in Hl.
Qed.

Lemma descs_parses d b :
  descs_fits d -> descs_to_bytes kernel d = Ok b -> parses (p_descs kernel) b (described d).
Proof.
  intros (Hf & Hfd & Hfs & Hhs & Hss & Hos). unfold descs_to_bytes.
  destruct (try_into 4 (length (fs_descrs d))) as [n1|] eqn:E1; [|done]. apply try_into_Ok in E1 as [-> H1].
  destruct (try_into 4 (length (hs_descrs d))) as [n2|] eqn:E2; [|done]. apply try_into_Ok in E2 as [-> H2].
  destruct (try_into 4 (length (ss_descrs d))) as [n3|] eqn:E3; [|done]. apply try_into_Ok in E3 as [-> H3].
  destruct (try_into 4 (length (os_descrs d))) as [n4|] eqn:E4; [|done]. apply try_into_Ok in E4 as [-> H4].
  cbn [rbind].
  destruct (encode_all _ (fs_descrs d)) as [fs|] eqn:F1; [|done]. apply p_repeat_descs in F1; [|done].
  destruct (encode_all _ (hs_descrs d)) as [hs|] eqn:F2; [|done]. apply p_repeat_descs in F2; [|done].
  destruct (encode_all _ (ss_descrs d)) as [ss|] eqn:F3; [|done]. apply p_repeat_descs in F3; [|done].
  destruct (encode_all _ (os_descrs d)) as [os|] eqn:F4; [|done]. apply p_repeat_os_descs in F4; [|done].
  cbn [rbind]. destruct (try_into 4 _) as [len|] eqn:El; [|done]. apply try_into_Ok in El as [-> Hl].
  intros ->%Ok_inj. rewrite (patch_le 4 (write_u32 DESCS_MAGIC_V2)) by apply length_le_bytes.
  do 3 parse_field. rewrite !(length_app (write_u32 _)), !length_le_bytes.
  eapply parses_guard; [apply Z.leb_le; lia|]. apply parses_within; [rewrite !length_app, !length_le_bytes; lia|].
  eapply parses_pbind; [by apply parses_uint, descs_flags_fits|].
  eapply parses_guard; [by apply Z.eqb_eq, descs_flags_speeds|].
  eapply (parses_pbind _ _ _ _ (eventfd d)).
  { rewrite descs_flags_eventfd. destruct (eventfd d); [|by apply parses_pret].
    eapply parses_last; [by apply parses_uint|apply parses_pret]. }
  do 4 parse_field. rewrite !Nat2Z.id.
  do 3 (eapply parses_pbind; [done|]). eapply parses_last; [done|]. apply parses_pret.
Qed.

Theorem descs_decode_encode d b :
  descs_fits d -> descs_to_bytes kernel d = Ok b -> descs_decode kernel b = Some (described d).
Proof.
  intros Hd Hb. by apply run_parser_parses, descs_parses.
Qed.
End Roundtrip.

(** ** The string block decodes to the table *)

(** The bytes up to the next NUL. *)
Fixpoint p_cstr (l : list byte) : option (list byte * list byte) :=
  match l with
  | [] => None
  | Byte.x00 :: l => Some ([], l)
  | b :: l => match p_cstr l with Some (s, l) => Some (b :: s, l) | None => None end
  end.

Definition p_language (n : nat) : parser (Z * list (list byte)) :=
  parse! lang := p_uint 2 in parse! strs := p_repeat n p_cstr in pret (lang, strs).

Definition p_strings : parser (list (Z * list (list byte))) :=
  parse! magic := p_uint 4 in
  parse! _ := p_guard (magic =? STRINGS_MAGIC) in
  parse! len := p_uint 4 in
  parse! _ := p_guard (8 <=? len) in
  p_within (Z.to_nat (len - 8))
    (parse! n := p_uint 4 in
     parse! langs := p_uint 4 in
     p_repeat (Z.to_nat langs) (p_language (Z.to_nat n))).

Definition strings_decode : list byte -> option (list (Z * list (list byte))) := run_parser p_strings.

Definition no_nul (s : string) : Prop := Byte.x00 ∉ bs s.

Definition table_fits (t : StringTable) : Prop :=
  Forall (fun p => fits 2 p.1 /\ Forall no_nul p.2) t.

Definition table_bytes (t : StringTable) : list (Z * list (list byte)) :=
  (fun p : Z * list string => (p.1, bs <$> p.2)) <$> t.

#[global] Instance table_fits_dec t : Decision (table_fits t).
Proof. unfold table_fits, no_nul. apply _. Defined.

Lemma p_cstr_parses l : Byte.x00 ∉ l -> parses p_cstr (l ++ [Byte.x00]) l.
Proof.
  induction l as [|b l IH]; intros Hl tail; [done|].
  rewrite not_elem_of_cons in Hl. destruct Hl as [Hb Hl]. specialize (IH Hl tail).
  cbn [app p_cstr]. rewrite IH. by destruct b.
Qed.

Lemma p_strs_parses l :
  Forall no_nul l -> parses (p_repeat (length l) p_cstr) (concat (c_str <$> l)) (bs <$> l).
Proof.
  induction 1 as [|s l Hs _ IH]; [apply parses_pret|]. cbn [length p_repeat fmap list_fmap concat].
  eapply parses_pbind; [by apply p_cstr_parses|]. eapply parses_last; [done|]. apply parses_pret.
Qed.

Lemma p_table_parses n (t : StringTable) :
  table_fits t -> Forall (fun p => length p.2 = n) t ->
  parses (p_repeat (length t) (p_language n))
    (concat ((fun p => write_u16 p.1 ++ concat (c_str <$> p.2)) <$> t)) (table_bytes t).
Proof.
  induction 1 as [|[lang strs] t [Hl Hs] _ IH]; intros Hn; [apply parses_pret|].
  apply Forall_cons_1 in Hn as [<- Hn]. cbn [length p_repeat fmap list_fmap concat].
  eapply parses_pbind.
  - eapply parses_pbind; [by apply parses_uint|]. eapply parses_last; [by apply p_strs_parses|].
    apply parses_pret.
  - eapply parses_last; [by apply IH|]. apply parses_pret.
Qed.

(** Accepted tables have the same number of strings in every language. *)
Lemma strings_to_bytes_uniform t b :
  strings_to_bytes t = Ok b ->
  Forall (fun p => length p.2 = default 0%nat (length ∘ snd <$> head t)) t.
Proof.
  unfold strings_to_bytes. destruct (forallb _ t) eqn:E; [|done]. intros _.
  apply list.Forall_forall. intros p Hp. rewrite forallb_forall in E.
  by apply Nat.eqb_eq, E, list_elem_of_In.
Qed.

Theorem strings_decode_encode t b :
  table_fits t -> strings_to_bytes t = Ok b -> strings_decode b = Some (table_bytes t).
Proof.
  intros Ht Hb. pose proof (strings_to_bytes_uniform t b Hb) as Hu. revert Hb.
  unfold strings_to_bytes. set (n := default _ _) in *. destruct (negb _); [done|].
  destruct (try_into 4 n) as [z|] eqn:E1; [|done]. apply try_into_Ok in E1 as [-> H1]. cbn [rbind].
  destruct (try_into 4 (length t)) as [z|] eqn:E2; [|done]. apply try_into_Ok in E2 as [-> H2]. cbn [rbind].
  destruct (try_into 4 _) as [len|] eqn:El; [|done]. apply try_into_Ok in El as [-> Hl].
  intros ->%Ok_inj. rewrite (patch_le 4 (write_u32 STRINGS_MAGIC)) by apply length_le_bytes.
  apply run_parser_parses. do 3 parse_field. rewrite !length_app, !length_le_bytes.
  eapply parses_guard; [apply Z.leb_le; lia|].
  apply parses_within; [rewrite !length_app, !length_le_bytes; lia|].
  do 2 parse_field. rewrite !Nat2Z.id. by apply p_table_parses.
Qed.

(** ** What the kernel hands back *)

Lemma read_uint_le n z tail : fits n z -> read_uint n (le_bytes n z ++ tail) = Ok (z, tail).
Proof.
  intros Hz. unfold read_uint.
  rewrite (proj2 (Nat.leb_le _ _)) by (rewrite length_app, length_le_bytes; lia).
  rewrite take_app_length', drop_app_length' by (by rewrite length_le_bytes). by rewrite le_val_le_bytes.
Qed.

(** The parser of endpoint descriptors inverts their encoding, in a buffer with
    room for the longer form. *)
Theorem endpoint_parse_write d b tail :
  desc_fits (DEndpoint d) -> desc_to_bytes (DEndpoint d) = Ok b -> endpoint_parse (b ++ tail) = Ok d.
Proof.
  intros Hd [-> Hlen]%desc_to_bytes_Ok. cbn [desc_write] in *. unfold endpoint_write in *.
  destruct d as [a at_ sz iv [[r sy]|]]; cbn [desc_fits ed_endpoint_address ed_attributes
    ed_max_packet_size ed_interval ed_audio au_refresh au_synch_address] in *; destruct_and?;
    unfold endpoint_parse; rewrite <- !app_assoc.
  - rewrite read_uint_le by done. change (Z.of_nat _) with 9. cbn [rbind]. cbn [Z.eqb negb andb].
    by do 7 (rewrite read_uint_le by solve_fits; cbn [rbind]).
  - rewrite read_uint_le by done. change (Z.of_nat _) with 7. cbn [rbind]. cbn [Z.eqb negb andb].
    by do 5 (rewrite read_uint_le by solve_fits; cbn [rbind]).
Qed.

(** A control request's eight bytes, and the event that carries them. *)
Definition ctrl_req_bytes (r : RawCtrlReq) : list byte :=
  le_bytes 1 (rc_request_type r) ++ le_bytes 1 (rc_request r) ++ le_bytes 2 (rc_value r) ++
  le_bytes 2 (rc_index r) ++ le_bytes 2 (rc_length r).

Definition ctrl_req_fits (r : RawCtrlReq) : Prop :=
  fits 1 (rc_request_type r) /\ fits 1 (rc_request r) /\ fits 2 (rc_value r) /\
  fits 2 (rc_index r) /\ fits 2 (rc_length r).

#[global] Instance ctrl_req_fits_dec r : Decision (ctrl_req_fits r).
Proof. unfold ctrl_req_fits. apply _. Defined.

Theorem ctrl_req_parse_bytes r tail :
  ctrl_req_fits r -> ctrl_req_parse (ctrl_req_bytes r ++ tail) = Some r.
Proof.
  destruct r as [t q v i l]. intros (? & ? & ? & ? & ?).
  cbn [rc_request_type rc_request rc_value rc_index rc_length] in *.
  unfold ctrl_req_parse, ctrl_req_bytes. rewrite <- !app_assoc.
  by do 5 (rewrite read_uint_le by done; cbn [ok mbind option_bind]).
Qed.

Lemma event_parse_bytes data ty pad :
  length data = 8%nat -> length pad = 3%nat -> fits 1 ty ->
  event_parse (data ++ le_bytes 1 ty ++ pad) = Some {| rv_data := data; rv_event_type := ty |}.
Proof.
  intros Hd Hp Ht. unfold event_parse. rewrite (proj2 (Nat.ltb_ge _ _)).
  - rewrite take_app_length', drop_app_length', take_app_length' by (by rewrite ?length_le_bytes).
    by rewrite le_val_le_bytes.
  - rewrite !length_app, length_le_bytes, Hd, Hp. done.
Qed.

(** A buffer with room for a whole event never reaches the [unreachable!()]. *)
Lemma event_parse_total buf : (EVENT_SIZE <= length buf)%nat -> is_Some (event_parse buf).
Proof. intros H. unfold event_parse. by rewrite (proj2 (Nat.ltb_ge _ _)). Qed.

Lemma event_parse_data buf e : event_parse buf = Some e -> length (rv_data e) = 8%nat.
Proof.
  unfold event_parse. destruct (Nat.ltb_spec (length buf) EVENT_SIZE) as [|H]; [done|].
  intros [= <-]. cbn [rv_data]. rewrite length_take. unfold EVENT_SIZE in H. lia.
Qed.

Lemma ctrl_req_parse_total buf : (8 <= length buf)%nat -> is_Some (ctrl_req_parse buf).
Proof.
  intros H. unfold ctrl_req_parse, read_uint.
  repeat (rewrite (proj2 (Nat.leb_le _ _)) by (rewrite ?length_drop; lia); cbn [ok mbind option_bind]).
  done.
Qed.
