(* ===== verification/FfsBuild.v ===== *)
(** * Building a FunctionFS function's descriptors

    Models the builder half of patches/usb-gadget/src/function/custom/mod.rs:
    interfaces, endpoints and their attributes, the DFU functional descriptor,
    Microsoft descriptors and registry values, and the generation of the
    descriptor groups and of the string table from the builder
    ([CustomBuilder::ffs_descs]). The builders of the two functions of the
    daemon (crates/summit-usbgadget-dfu/src/gadget.rs and
    crates/summit-usbgadget-fastboot-usb/src/lib.rs) are here too, so that what
    the host is told about them is a theorem. *)

From stdpp Require Import gmap.
From S2P Require Import Prelude Io Bytes Session Language FfsDesc Dfu FastbootUsb UsbConfig.

(** ** Interfaces and endpoints *)

Definition dfu_desc_from (d : DfuDesc) : CustomDesc :=
  let attrs := Z.lor (Z.lor (Z.lor (Z.b2z (can_download d)) (Z.shiftl (Z.b2z (can_upload d)) 1))
                            (Z.shiftl (Z.b2z (manifest_tolerant d)) 2))
                     (Z.shiftl (Z.b2z (will_detach d)) 3) in
  let bcd := Z.lor (wrap 16 (Z.shiftl (dfu_version d).1 8)) (wrap 16 (Z.shiftl (dfu_version d).2 4)) in
  {| cd_descriptor_type := 33;
     cd_data := le_bytes 1 attrs ++ le_bytes 2 (detach_timeout_ms d) ++ le_bytes 2 (transfer_size_ d) ++
                le_bytes 2 bcd |}.

(** Names per language. A language is its code: an [Other] that carries the code
    of a named language counts as that language. *)
Abbreviation Names := (gmap Z string).
Definition default_language : Z := language_code EnglishUnitedStates.

(** The identity of an association is its allocation [as_addr]. *)
Record Association := { as_addr : nat; as_class : Class_; as_name : Names }.

#[global] Instance Class_eq_dec : EqDecision Class_.
Proof. solve_decision. Defined.
#[global] Instance Association_eq_dec : EqDecision Association.
Proof. solve_decision. Defined.

(** [Association::new], at the address of its allocation. *)
Definition association_new (addr : nat) (function_class : Class_) (name : string) : Association :=
  {| as_addr := addr; as_class := function_class; as_name := {[default_language := name]} |}.

(** [PartialEq]: two associations are the same object, described alike. *)
Definition association_eq (a b : Association) : bool :=
  (as_addr a =? as_addr b)%nat && bool_decide (as_class a = as_class b) && bool_decide (as_name a = as_name b).

Lemma association_eq_spec a b : association_eq a b = true <-> a = b.
Proof.
  unfold association_eq. rewrite !andb_true_iff, Nat.eqb_eq, !bool_decide_eq_true.
  destruct a, b. cbn. split; [intros [[-> ->] ->]; done|intros [= -> -> ->]; done].
Qed.

Inductive Direction := DeviceToHost | HostToDevice.
#[global] Instance Direction_eq_dec : EqDecision Direction.
Proof. solve_decision. Defined.

Inductive SyncType := NoSync | Async | Adaptive | Sync.
Inductive UsageType := Data | Feedback | ImplicitFeedback.
Inductive TransferType :=
| Control
| Isochronous (sync : SyncType) (usage : UsageType)
| Bulk
| Interrupt.

Definition sync_to_attributes (s : SyncType) : Z :=
  Z.shiftl (match s with NoSync => 0 | Async => 1 | Adaptive => 2 | Sync => 3 end) 2.

Definition usage_to_attributes (u : UsageType) : Z :=
  Z.shiftl (match u with Data => 0 | Feedback => 1 | ImplicitFeedback => 2 end) 4.

Definition to_attributes (t : TransferType) : Z :=
  match t with
  | Control => 0
  | Isochronous sync usage => Z.lor (Z.lor 1 (sync_to_attributes sync)) (usage_to_attributes usage)
  | Bulk => 2
  | Interrupt => 3
  end.

Record EndpointDirection := { dir_direction : Direction; dir_queue_len : Z }.

Definition DEFAULT_QUEUE_LEN : Z := 16.

Definition device_to_host : EndpointDirection :=
  {| dir_direction := DeviceToHost; dir_queue_len := DEFAULT_QUEUE_LEN |}.
Definition host_to_device : EndpointDirection :=
  {| dir_direction := HostToDevice; dir_queue_len := DEFAULT_QUEUE_LEN |}.
Definition with_queue_len (n : Z) (d : EndpointDirection) : EndpointDirection :=
  {| dir_direction := dir_direction d; dir_queue_len := n |}.

Record Endpoint := {
  ep_direction : EndpointDirection;
  ep_transfer : TransferType;
  ep_max_packet_size_hs : Z;
  ep_max_packet_size_ss : Z;
  ep_max_burst_ss : Z;
  ep_bytes_per_interval_ss : Z;
  ep_interval : Z;
  ep_audio : option AudioEndpointDesc;
}.

Definition endpoint_custom (d : EndpointDirection) (t : TransferType) : Endpoint :=
  {| ep_direction := d; ep_transfer := t; ep_max_packet_size_hs := 512; ep_max_packet_size_ss := 1024;
     ep_max_burst_ss := 0; ep_bytes_per_interval_ss := 0;
     ep_interval := match dir_direction d with DeviceToHost => 0 | HostToDevice => 1 end;
     ep_audio := None |}.

Definition endpoint_bulk (d : EndpointDirection) : Endpoint := endpoint_custom d Bulk.

(** ** Microsoft descriptors *)

Inductive OsRegValue :=
| Sz (s : list byte)
| ExpandSz (s : list byte)
| Binary (b : list byte)
| DwordLe (v : Z)
| DwordBe (v : Z)
| Link (s : list byte)
| MultiSz (ss : list (list byte)).

(** The conversions of strings, bytes, numbers and lists of strings. *)
Definition reg_of_string (s : list byte) : OsRegValue := Sz s.
Definition reg_of_bytes (b : list byte) : OsRegValue := Binary b.
Definition reg_of_u32 (v : Z) : OsRegValue := DwordLe v.
Definition reg_of_strings (ss : list (list byte)) : OsRegValue := MultiSz ss.

Definition as_type (v : OsRegValue) : Z :=
  match v with
  | Sz _ => 1 | ExpandSz _ => 2 | Binary _ => 3 | DwordLe _ => 4 | DwordBe _ => 5 | Link _ => 6
  | MultiSz _ => 7
  end.

Definition as_bytes (v : OsRegValue) : list byte :=
  match v with
  | Sz s | ExpandSz s | Link s => s ++ [Byte.x00]
  | Binary s => s
  | DwordLe v => le_bytes 4 v
  | DwordBe v => be_bytes 4 v
  | MultiSz ss => concat ((fun s => s ++ [Byte.x00]) <$> ss)
  end.

Record ExtCompatId := { ec_compatible_id : list byte; ec_sub_compatible_id : list byte }.

Definition winusb : ExtCompatId :=
  {| ec_compatible_id := bs "WINUSB" ++ [Byte.x00; Byte.x00];
     ec_sub_compatible_id := replicate 8 Byte.x00 |}.

Record ExtProperty := { ex_name : list byte; ex_value : OsRegValue }.

(** The hyphenated form of the identifier is an argument. *)
Definition device_interface_guid (guid : list byte) : ExtProperty :=
  {| ex_name := bs "DeviceInterfaceGUID"; ex_value := Sz (bs "{" ++ guid ++ bs "}") |}.

Definition as_os_ext_prop (p : ExtProperty) : OsExtProp :=
  {| op_data_type := as_type (ex_value p); op_name := ex_name p ++ [Byte.x00];
     op_data := as_bytes (ex_value p) |}.

Record Interface := {
  in_class : Class_;
  in_name : Names;
  in_endpoints : list Endpoint;
  in_association : option Association;
  in_os_ext_compat : list ExtCompatId;
  in_os_ext_props : list ExtProperty;
  in_custom_descs : list CustomDesc;
}.

Definition interface_new (c : Class_) (name : string) : Interface :=
  {| in_class := c; in_name := {[default_language := name]}; in_endpoints := [];
     in_association := None; in_os_ext_compat := []; in_os_ext_props := []; in_custom_descs := [] |}.

Definition with_endpoint (e : Endpoint) (i : Interface) : Interface :=
  {| in_class := in_class i; in_name := in_name i; in_endpoints := in_endpoints i ++ [e];
     in_association := in_association i; in_os_ext_compat := in_os_ext_compat i;
     in_os_ext_props := in_os_ext_props i; in_custom_descs := in_custom_descs i |}.

Definition with_association (a : Association) (i : Interface) : Interface :=
  {| in_class := in_class i; in_name := in_name i; in_endpoints := in_endpoints i;
     in_association := Some a; in_os_ext_compat := in_os_ext_compat i;
     in_os_ext_props := in_os_ext_props i; in_custom_descs := in_custom_descs i |}.

Definition with_os_ext_compat (c : ExtCompatId) (i : Interface) : Interface :=
  {| in_class := in_class i; in_name := in_name i; in_endpoints := in_endpoints i;
     in_association := in_association i; in_os_ext_compat := in_os_ext_compat i ++ [c];
     in_os_ext_props := in_os_ext_props i; in_custom_descs := in_custom_descs i |}.

Definition with_os_ext_prop (p : ExtProperty) (i : Interface) : Interface :=
  {| in_class := in_class i; in_name := in_name i; in_endpoints := in_endpoints i;
     in_association := in_association i; in_os_ext_compat := in_os_ext_compat i;
     in_os_ext_props := in_os_ext_props i ++ [p]; in_custom_descs := in_custom_descs i |}.

Definition with_custom_desc (d : CustomDesc) (i : Interface) : Interface :=
  {| in_class := in_class i; in_name := in_name i; in_endpoints := in_endpoints i;
     in_association := in_association i; in_os_ext_compat := in_os_ext_compat i;
     in_os_ext_props := in_os_ext_props i; in_custom_descs := in_custom_descs i ++ [d] |}.

(** ** The builder *)

Record CustomBuilder := {
  cb_interfaces : list Interface;
  cb_all_ctrl_recipient : bool;
  cb_config0_setup : bool;
  cb_ffs_dir : option string;
  cb_ffs_root_mode : option Z;
  cb_ffs_file_mode : option Z;
  cb_ffs_uid : option Z;
  cb_ffs_gid : option Z;
  cb_ffs_no_disconnect : bool;
  cb_ffs_no_init : bool;
  cb_ffs_no_mount : bool;
}.

Definition builder : CustomBuilder :=
  {| cb_interfaces := []; cb_all_ctrl_recipient := false; cb_config0_setup := false;
     cb_ffs_dir := None; cb_ffs_root_mode := None; cb_ffs_file_mode := None; cb_ffs_uid := None;
     cb_ffs_gid := None; cb_ffs_no_disconnect := false; cb_ffs_no_init := false;
     cb_ffs_no_mount := false |}.

Definition with_interface (i : Interface) (b : CustomBuilder) : CustomBuilder :=
  {| cb_interfaces := cb_interfaces b ++ [i]; cb_all_ctrl_recipient := cb_all_ctrl_recipient b;
     cb_config0_setup := cb_config0_setup b; cb_ffs_dir := cb_ffs_dir b;
     cb_ffs_root_mode := cb_ffs_root_mode b; cb_ffs_file_mode := cb_ffs_file_mode b;
     cb_ffs_uid := cb_ffs_uid b; cb_ffs_gid := cb_ffs_gid b;
     cb_ffs_no_disconnect := cb_ffs_no_disconnect b; cb_ffs_no_init := cb_ffs_no_init b;
     cb_ffs_no_mount := cb_ffs_no_mount b |}.

Definition invalid_input (msg : string) : io_error := Custom KInvalidInput msg.

(** [io::Error] of a descriptor error. *)
Definition ffs_io_error (e : FfsError) : io_error :=
  invalid_input match e with
                | StringsDifferAcrossLanguages => "string count differs across languages"
                | Overflow => "too many descriptor entries"
                end.

Definition u8_try_from (n : nat) (msg : string) : io_result Z :=
  if (n <=? 255)%nat then Ok (Z.of_nat n) else Err (invalid_input msg).

Abbreviation Strings := (gmap Z (list string)).

Section Iteration.
(** The order in which the standard library iterates over a hash map. *)
Variable iter : forall {A : Type}, list A -> list A.
Arguments iter {A} _.

Definition str_count (t : Strings) : nat :=
  default 0%nat (length ∘ snd <$> head (iter (map_to_list t))).

(** A language seen for the first time gets empty strings for the earlier ones. *)
Definition push_string (cnt : nat) (old : option (list string)) (new : option string)
    : option (list string) :=
  match old, new with
  | None, None => None
  | _, _ => Some (default (replicate cnt EmptyString) old ++ [default EmptyString new])
  end.

Definition add_strings (strs : Names) (t : Strings) : io_result (Z * Strings) :=
  let cnt := str_count t in
  let? idx := u8_try_from (S cnt) "too many strings" in
  Ok (idx, merge (push_string cnt) t strs).

(** The descriptor groups under construction. *)
Record Groups := {
  g_strings : Strings;
  g_fs : list Desc;
  g_hs : list Desc;
  g_ss : list Desc;
  g_os : list OsDesc;
  g_endpoint_num : Z;
  g_assocs : list (Association * InterfaceAssocDesc);
}.

Definition endpoint_desc (num : Z) (ep : Endpoint) (max_packet_size : Z) : EndpointDesc :=
  {| ed_endpoint_address :=
       match dir_direction (ep_direction ep) with
       | DeviceToHost => Z.lor num DIR_IN
       | HostToDevice => Z.lor num DIR_OUT
       end;
     ed_attributes := to_attributes (ep_transfer ep);
     ed_max_packet_size := max_packet_size;
     ed_interval := ep_interval ep;
     ed_audio := ep_audio ep |}.

Definition ss_comp_desc (ep : Endpoint) : SsEndpointComp :=
  {| sc_max_burst := ep_max_burst_ss ep; sc_attributes := 0;
     sc_bytes_per_interval := ep_bytes_per_interval_ss ep |}.

(** [endpoint_num] is a [u8] and its limit is below its maximum. *)
Definition add_endpoint (ep : Endpoint) (g : Groups) : io_result Groups :=
  let num := g_endpoint_num g + 1 in
  if DIR_IN <=? num then Err (invalid_input "too many endpoints") else
  Ok {| g_strings := g_strings g;
        g_fs := g_fs g ++ [DEndpoint (endpoint_desc num ep 0)];
        g_hs := g_hs g ++ [DEndpoint (endpoint_desc num ep (ep_max_packet_size_hs ep))];
        g_ss := g_ss g ++ [DEndpoint (endpoint_desc num ep (ep_max_packet_size_ss ep));
                           DSsEndpointComp (ss_comp_desc ep)];
        g_os := g_os g; g_endpoint_num := num; g_assocs := g_assocs g |}.

Fixpoint add_endpoints (eps : list Endpoint) (g : Groups) : io_result Groups :=
  match eps with
  | [] => Ok g
  | ep :: eps => let? g := add_endpoint ep g in add_endpoints eps g
  end.

(** The entry of an association, created on its first use. *)
Definition assoc_entry (n : Z) (a : Association) (g : Groups) : io_result (InterfaceAssocDesc * Strings) :=
  match list_find (fun p => p.1 = a) (g_assocs g) with
  | Some (_, (_, iad)) => Ok (iad, g_strings g)
  | None =>
      let? (idx, strings) := add_strings (as_name a) (g_strings g) in
      Ok ({| ia_first_interface := n; ia_interface_count := 0;
             ia_function_class := cls_class (as_class a);
             ia_function_sub_class := cls_sub_class (as_class a);
             ia_function_protocol := cls_protocol (as_class a);
             ia_name_idx := idx |}, strings)
  end.

Definition assoc_update (a : Association) (iad : InterfaceAssocDesc)
    (l : list (Association * InterfaceAssocDesc)) : list (Association * InterfaceAssocDesc) :=
  match list_find (fun p => p.1 = a) l with
  | Some (i, _) => <[i := (a, iad)]> l
  | None => l ++ [(a, iad)]
  end.

(** The sums are [u8] sums. *)
Definition add_association (n : Z) (o : option Association) (g : Groups) : io_result Groups :=
  match o with
  | None => Ok g
  | Some a =>
      let? (iad, strings) := assoc_entry n a g in
      if negb (wrap 8 (ia_first_interface iad + n) =? n)
      then Err (invalid_input "associated interfaces must be adjacent") else
      let iad := {| ia_first_interface := ia_first_interface iad;
                    ia_interface_count := wrap 8 (ia_interface_count iad + 1);
                    ia_function_class := ia_function_class iad;
                    ia_function_sub_class := ia_function_sub_class iad;
                    ia_function_protocol := ia_function_protocol iad;
                    ia_name_idx := ia_name_idx iad |} in
      Ok {| g_strings := strings; g_fs := g_fs g; g_hs := g_hs g; g_ss := g_ss g; g_os := g_os g;
            g_endpoint_num := g_endpoint_num g; g_assocs := assoc_update a iad (g_assocs g) |}
  end.

Definition os_descs_of (n : Z) (i : Interface) : list OsDesc :=
  match in_os_ext_compat i with
  | [] => []
  | l => [{| os_interface := n;
             os_ext := ExtCompat ((fun c => {| oe_first_interface_number := n;
                                               oe_compatible_id := ec_compatible_id c;
                                               oe_sub_compatible_id := ec_sub_compatible_id c |}) <$> l) |}]
  end ++
  match in_os_ext_props i with
  | [] => []
  | l => [{| os_interface := n; os_ext := ExtProp (as_os_ext_prop <$> l) |}]
  end.

Definition interface_desc (n num_endpoints idx : Z) (i : Interface) : InterfaceDesc :=
  {| if_interface_number := n; if_alternate_setting := 0; if_num_endpoints := num_endpoints;
     if_interface_class := cls_class (in_class i); if_interface_sub_class := cls_sub_class (in_class i);
     if_interface_protocol := cls_protocol (in_class i); if_name_idx := idx |}.

Definition add_interface (number : nat) (i : Interface) (g : Groups) : io_result Groups :=
  let? n := u8_try_from number "too many interfaces" in
  let? num_endpoints := u8_try_from (length (in_endpoints i)) "too many endpoints" in
  let? (idx, strings) := add_strings (in_name i) (g_strings g) in
  let head := DInterface (interface_desc n num_endpoints idx i) :: (DCustom <$> in_custom_descs i) in
  let? g := add_endpoints (in_endpoints i)
              {| g_strings := strings; g_fs := g_fs g ++ head; g_hs := g_hs g ++ head;
                 g_ss := g_ss g ++ head; g_os := g_os g; g_endpoint_num := g_endpoint_num g;
                 g_assocs := g_assocs g |} in
  let? g := add_association n (in_association i) g in
  Ok {| g_strings := g_strings g; g_fs := g_fs g; g_hs := g_hs g; g_ss := g_ss g;
        g_os := g_os g ++ os_descs_of n i; g_endpoint_num := g_endpoint_num g;
        g_assocs := g_assocs g |}.

Fixpoint add_interfaces (number : nat) (l : list Interface) (g : Groups) : io_result Groups :=
  match l with
  | [] => Ok g
  | i :: l => let? g := add_interface number i g in add_interfaces (S number) l g
  end.

Definition no_groups : Groups :=
  {| g_strings := ∅; g_fs := []; g_hs := []; g_ss := []; g_os := []; g_endpoint_num := 0;
     g_assocs := [] |}.

Definition ffs_descs (b : CustomBuilder) : io_result (Descs * Strings) :=
  let? g := add_interfaces 0 (cb_interfaces b) no_groups in
  let iads := (fun p => DInterfaceAssoc p.2) <$> iter (g_assocs g) in
  let flags := flag_set CONFIG0_SETUP (cb_config0_setup b)
                 (flag_set ALL_CTRL_RECIP (cb_all_ctrl_recipient b) 0) in
  Ok ({| flags := flags; eventfd := None; fs_descrs := g_fs g ++ iads; hs_descrs := g_hs g ++ iads;
         ss_descrs := g_ss g ++ iads; os_descrs := g_os g |}, g_strings g).

Definition ffs_descriptors_and_strings (kernel : option (Z * Z)) (b : CustomBuilder)
    : io_result (list byte * list byte) :=
  let? (descs, strs) := ffs_descs b in
  let? d := map_err ffs_io_error (descs_to_bytes kernel descs) in
  let? s := map_err ffs_io_error (strings_to_bytes (iter (map_to_list strs))) in
  Ok (d, s).

End Iteration.

(** ** The functions of the daemon *)

Definition dfu_builder (c : DfuConfig) : CustomBuilder :=
  with_interface (with_custom_desc (dfu_desc_from (descriptor c)) (interface_new DFU_MODE "swupdate"))
    builder.

Definition RECV_QUEUE_DEPTH : Z := 1.

Definition fastboot_builder : CustomBuilder :=
  with_interface
    (with_os_ext_compat winusb
       (with_endpoint (endpoint_bulk device_to_host)
          (with_endpoint (endpoint_bulk (with_queue_len RECV_QUEUE_DEPTH host_to_device))
             (interface_new FASTBOOT_CLASS "fastboot-usb"))))
    builder.

(** ** The layout of the groups *)

Inductive Speed := FullSpeed | HighSpeed | SuperSpeed.

Definition group (s : Speed) (g : Groups) : list Desc :=
  match s with FullSpeed => g_fs g | HighSpeed => g_hs g | SuperSpeed => g_ss g end.

Definition descrs (s : Speed) (d : Descs) : list Desc :=
  match s with FullSpeed => fs_descrs d | HighSpeed => hs_descrs d | SuperSpeed => ss_descrs d end.

Definition packet_size (s : Speed) (ep : Endpoint) : Z :=
  match s with
  | FullSpeed => 0
  | HighSpeed => ep_max_packet_size_hs ep
  | SuperSpeed => ep_max_packet_size_ss ep
  end.

(** The endpoints after the [num]-th, in order. *)
Fixpoint layout_endpoints (s : Speed) (num : Z) (eps : list Endpoint) : list Desc :=
  match eps with
  | [] => []
  | ep :: eps =>
      DEndpoint (endpoint_desc (num + 1) ep (packet_size s ep)) ::
      match s with SuperSpeed => [DSsEndpointComp (ss_comp_desc ep)] | _ => [] end ++
      layout_endpoints s (num + 1) eps
  end.

(** The interfaces from number [n] on, with the indices of their names: each is
    followed by its custom descriptors and its endpoints. *)
Fixpoint layout (s : Speed) (n num : Z) (idxs : list Z) (l : list Interface) {struct l} : list Desc :=
  match l, idxs with
  | i :: l, idx :: idxs =>
      DInterface (interface_desc n (Z.of_nat (length (in_endpoints i))) idx i) ::
      (DCustom <$> in_custom_descs i) ++ layout_endpoints s num (in_endpoints i) ++
      layout s (n + 1) (num + Z.of_nat (length (in_endpoints i))) idxs l
  | _, _ => []
  end.

(** Every language has [c] strings. *)
Definition uniform (c : nat) (t : Strings) : Prop := map_Forall (fun _ l => length l = c) t.

(** [name]'s strings are those at index [idx], counted from one, of its languages. *)
Definition named (t : Strings) (name : Names) (idx : Z) : Prop :=
  forall lang s, name !! lang = Some s ->
    exists l, t !! lang = Some l /\ l !! Z.to_nat (idx - 1) = Some s.

(** [t'] extends the strings of every language of [t]. *)
Definition extends (t t' : Strings) : Prop :=
  forall lang l, t !! lang = Some l -> exists l', t' !! lang = Some l' /\ l `prefix_of` l'.

Section Layout.
Context (iter : forall A : Type, list A -> list A).
Context (iter_perm : forall A (l : list A), iter A l ≡ₚ l).

Lemma iter_nil A : iter A [] = [].
Proof. by apply Permutation_nil_r, iter_perm. Qed.

(** The count is that of any language. *)
Lemma str_count_uniform c t : uniform c t -> t <> ∅ -> str_count iter t = c.
Proof.
  intros Hu Hne. unfold str_count. pose proof (iter_perm _ (map_to_list t)) as Hp.
  destruct (iter _ (map_to_list t)) as [|[lang l] r] eqn:E.
  - apply Permutation_nil_l in Hp. by apply eq_sym, map_to_list_empty_iff in Hp.
  - cbn. eapply Hu, elem_of_map_to_list. rewrite <- Hp. by left.
Qed.

Lemma str_count_empty : str_count iter ∅ = 0%nat.
Proof. unfold str_count. by rewrite map_to_list_empty, iter_nil. Qed.

(** The table is empty or every language has as many strings as were added. *)
Definition table_ok (t : Strings) : Prop := uniform (str_count iter t) t.

Lemma add_strings_spec strs t idx t' :
  table_ok t -> add_strings iter strs t = Ok (idx, t') ->
  table_ok t' /\ extends t t' /\ named t' strs idx /\
  1 <= idx <= 255 /\ idx = Z.of_nat (S (str_count iter t)).
Proof.
  intros Ht. unfold add_strings, u8_try_from. destruct (Nat.leb_spec (S (str_count iter t)) 255); [|done].
  cbn [rbind]. intros ?%Ok_inj; simplify_eq. set (c := str_count iter t) in *.
  assert (uniform (S c) (merge (push_string c) t strs)) as Hu.
  { intros lang l. rewrite lookup_merge. destruct (t !! lang) as [l0|] eqn:E1, (strs !! lang) as [s|] eqn:E2;
      cbn; intros; simplify_eq; rewrite length_app, ?length_replicate; simpl; rewrite ?(Ht lang l0 E1); lia. }
  split_and!.
  - unfold table_ok. destruct (decide (merge (push_string c) t strs = ∅)) as [->|Hne].
    + apply map_Forall_empty.
    + by rewrite (str_count_uniform (S c)).
  - intros lang l Hl. exists (l ++ [default EmptyString (strs !! lang)]). split; [|by eexists].
    rewrite lookup_merge, Hl. by destruct (strs !! lang).
  - intros lang s Hs. rewrite lookup_merge, Hs. replace (Z.to_nat (Z.of_nat (S c) - 1)) with c by lia.
    destruct (t !! lang) as [l|] eqn:E; cbn; eexists; (split; [done|]).
    + rewrite lookup_app_r by (rewrite (Ht lang l E); lia). by rewrite (Ht lang l E), Nat.sub_diag.
    + rewrite lookup_app_r by (rewrite length_replicate; lia). by rewrite length_replicate, Nat.sub_diag.
  - lia.
  - lia.
  - done.
Qed.

Lemma named_extends t t' name idx : extends t t' -> named t name idx -> named t' name idx.
Proof.
  intros He Hn lang s Hs. destruct (Hn lang s Hs) as (l & Hl & Hi).
  destruct (He lang l Hl) as (l' & Hl' & Hp). exists l'. split; [done|].
  by eapply prefix_lookup_Some.
Qed.

Lemma extends_refl t : extends t t.
Proof. intros lang l Hl. by exists l. Qed.

Lemma extends_trans t1 t2 t3 : extends t1 t2 -> extends t2 t3 -> extends t1 t3.
Proof.
  intros H1 H2 lang l Hl. destruct (H1 lang l Hl) as (l2 & Hl2 & P2).
  destruct (H2 lang l2 Hl2) as (l3 & Hl3 & P3). exists l3. split; [done|]. by etransitivity.
Qed.

Lemma add_endpoints_spec eps g g' :
  0 <= g_endpoint_num g < 128 -> add_endpoints eps g = Ok g' ->
  (forall s, group s g' = group s g ++ layout_endpoints s (g_endpoint_num g) eps) /\
  g_endpoint_num g' = g_endpoint_num g + Z.of_nat (length eps) /\ g_endpoint_num g' < 128 /\
  g_strings g' = g_strings g /\ g_os g' = g_os g /\ g_assocs g' = g_assocs g.
Proof.
  revert g. induction eps as [|ep eps IH]; intros g Hg; cbn [add_endpoints].
  - intros ->%Ok_inj. split_and!; try done; [|simpl; lia|lia].
    intros []; by rewrite app_nil_r.
  - unfold add_endpoint. destruct (Z.leb_spec DIR_IN (g_endpoint_num g + 1)) as [|Hlt]; [done|].
    cbn [rbind]. intros H. unfold DIR_IN in Hlt. apply IH in H; cbn in *; [|lia].
    destruct H as (Hgr & -> & ? & ? & ? & ?). split_and!; try done; [|lia..].
    intros s. rewrite Hgr. destruct s; cbn; by rewrite <- app_assoc.
Qed.

(** ** Associations *)

Definition assoc_ok (t : Strings) (p : Association * InterfaceAssocDesc) : Prop :=
  named t (as_name p.1) (ia_name_idx p.2) /\ 1 <= ia_name_idx p.2 <= 255 /\
  ia_first_interface p.2 = 0 /\ fits 1 (ia_interface_count p.2) /\
  ia_function_class p.2 = cls_class (as_class p.1) /\
  ia_function_sub_class p.2 = cls_sub_class (as_class p.1) /\
  ia_function_protocol p.2 = cls_protocol (as_class p.1).

Definition groups_ok (g : Groups) : Prop :=
  table_ok (g_strings g) /\ Forall (assoc_ok (g_strings g)) (g_assocs g).

Lemma assoc_ok_extends t t' p : extends t t' -> assoc_ok t p -> assoc_ok t' p.
Proof. intros He [Hn Hr]. split; [|done]. by eapply named_extends. Qed.

Lemma assoc_update_Forall P a iad l :
  Forall P l -> P (a, iad) -> Forall P (assoc_update a iad l).
Proof.
  intros Hl Hp. unfold assoc_update. destruct (list_find _ l) as [[i [? ?]]|].
  - by apply Forall_insert.
  - apply Forall_app. by auto.
Qed.

(** The check lets an association start at interface zero only. *)
Lemma adjacent_first f n : 0 <= f < 256 -> 0 <= n < 256 -> wrap 8 (f + n) = n -> f = 0.
Proof.
  unfold wrap. change (2 ^ 8) with 256. intros Hf Hn H.
  pose proof (Z.div_mod (f + n) 256 ltac:(lia)). assert ((f + n) / 256 <= 1) by (apply Z.div_le_upper_bound; lia).
  assert (0 <= (f + n) / 256) by (apply Z.div_pos; lia). lia.
Qed.

Lemma assoc_entry_spec n a g iad t :
  0 <= n < 256 -> groups_ok g -> assoc_entry iter n a g = Ok (iad, t) ->
  table_ok t /\ extends (g_strings g) t /\ Forall (assoc_ok t) (g_assocs g) /\
  0 <= ia_first_interface iad < 256 /\ (ia_first_interface iad = 0 -> assoc_ok t (a, iad)).
Proof.
  intros Hn [Ht Ha]. unfold assoc_entry. destruct (list_find _ _) as [[i [a' iad']]|] eqn:Ef.
  - intros ?%Ok_inj; simplify_eq. apply list_find_Some in Ef as (Hi & Heq & _). cbn in Heq. subst a'.
    pose proof (Forall_lookup_1 _ _ _ _ Ha Hi) as Hok. destruct Hok as (? & ? & H0 & ?). cbn in *.
    split_and!; try done; [apply extends_refl|lia..].
  - destruct (add_strings _ _ _) as [[idx t']|] eqn:Es; [|done]. cbn [rbind].
    intros ?%Ok_inj; simplify_eq. apply add_strings_spec in Es as (? & He & ? & ? & _); [|done].
    do 2 (split; [done|]). split; [|split; [done|by cbn; intros ->]].
    eapply list.Forall_impl; [done|]. intros p. by apply assoc_ok_extends.
Qed.

Lemma add_association_spec n o g g' :
  0 <= n < 256 -> groups_ok g -> add_association iter n o g = Ok g' ->
  groups_ok g' /\ extends (g_strings g) (g_strings g') /\ (forall s, group s g' = group s g) /\
  g_endpoint_num g' = g_endpoint_num g /\ g_os g' = g_os g.
Proof.
  intros Hn [Ht Ha]. destruct o as [a|]; cbn [add_association]; [|intros ->%Ok_inj; by split_and!; try apply extends_refl].
  destruct (assoc_entry iter n a g) as [[iad strings]|] eqn:Ee; [|done]. cbn [rbind].
  destruct (Z.eqb_spec (wrap 8 (ia_first_interface iad + n)) n) as [Hadj|]; [|done].
  intros ->%Ok_inj; cbn.
  destruct (assoc_entry_spec n a g iad strings Hn (conj Ht Ha) Ee) as (Hst & He & Has & Hf & Hiad).
  pose proof (adjacent_first _ n Hf Hn Hadj) as H0.
  split_and!; try done. split; [done|]. apply assoc_update_Forall; [done|].
  destruct (Hiad H0) as (? & ? & ? & _ & ?). do 3 (split; [done|]).
  split; [by apply (wrap_range 8)|done].
Qed.

Lemma groups_ok_strings g t :
  groups_ok g -> table_ok t -> extends (g_strings g) t -> Forall (assoc_ok t) (g_assocs g).
Proof.
  intros [_ Ha] _ He. eapply list.Forall_impl; [done|]. intros p. by apply assoc_ok_extends.
Qed.

(** ** Interfaces *)

Lemma add_interface_spec number i g g' :
  groups_ok g -> 0 <= g_endpoint_num g < 128 -> add_interface iter number i g = Ok g' ->
  exists idx,
    (forall s, group s g' = group s g ++
       layout s (Z.of_nat number) (g_endpoint_num g) [idx] [i]) /\
    g_endpoint_num g' = g_endpoint_num g + Z.of_nat (length (in_endpoints i)) /\
    g_endpoint_num g' < 128 /\ (number <= 255)%nat /\ groups_ok g' /\
    extends (g_strings g) (g_strings g') /\ named (g_strings g') (in_name i) idx /\
    1 <= idx <= 255 /\ g_os g' = g_os g ++ os_descs_of (Z.of_nat number) i.
Proof.
  intros Hg Hnum. unfold add_interface, u8_try_from.
  destruct (Nat.leb_spec number 255) as [Hn|]; [|done]. cbn [rbind].
  destruct (Nat.leb_spec (length (in_endpoints i)) 255) as [He|]; [|done]. cbn [rbind].
  destruct (add_strings _ _ _) as [[idx t]|] eqn:Es; [|done]. cbn [rbind].
  apply add_strings_spec in Es as (Ht & Hext & Hname & Hidx & _); [|apply Hg].
  destruct (add_endpoints _ _) as [g1|] eqn:Ee; [|done]. cbn [rbind].
  apply add_endpoints_spec in Ee; [|done]. cbn in Ee. destruct Ee as (Hgr & Hep & Hlt & Hst & Hos & Has).
  destruct (add_association _ _ _ _) as [g2|] eqn:Ea; [|done]. cbn [rbind]. intros ->%Ok_inj.
  apply add_association_spec in Ea as (Hok2 & Hext2 & Hgr2 & Hep2 & Hos2); [|lia|].
  - exists idx. rewrite Hst in Hext2. split_and!; cbn; try (done || lia).
    + intros s. transitivity (group s g2); [by destruct s|]. rewrite Hgr2, Hgr, app_nil_r.
      by destruct s; cbn; rewrite <- app_assoc.
    + by eapply extends_trans.
    + by eapply named_extends.
    + by rewrite Hos2, Hos.
  - split; rewrite Hst; [done|]. rewrite Has. by apply groups_ok_strings.
Qed.

Lemma layout_cons s n num idx idxs i l :
  layout s n num (idx :: idxs) (i :: l) =
  layout s n num [idx] [i] ++
  layout s (n + 1) (num + Z.of_nat (length (in_endpoints i))) idxs l.
Proof. cbn. by rewrite app_nil_r, <- app_assoc. Qed.

Definition endpoint_count (l : list Interface) : nat := length (l ≫= in_endpoints).

Lemma endpoint_count_cons i l :
  endpoint_count (i :: l) = (length (in_endpoints i) + endpoint_count l)%nat.
Proof. unfold endpoint_count. cbn. by rewrite length_app. Qed.

Fixpoint layout_os (n : Z) (l : list Interface) : list OsDesc :=
  match l with [] => [] | i :: l => os_descs_of n i ++ layout_os (n + 1) l end.

Lemma add_interfaces_spec l number g g' :
  groups_ok g -> 0 <= g_endpoint_num g < 128 ->
  add_interfaces iter number l g = Ok g' ->
  exists idxs,
    Forall2 (fun i idx => named (g_strings g') (in_name i) idx /\ 1 <= idx <= 255) l idxs /\
    (forall s, group s g' = group s g ++ layout s (Z.of_nat number) (g_endpoint_num g) idxs l) /\
    g_endpoint_num g' = g_endpoint_num g + Z.of_nat (endpoint_count l) /\
    g_endpoint_num g' < 128 /\ (l <> [] -> number + length l <= 256)%nat /\ groups_ok g' /\
    extends (g_strings g) (g_strings g') /\ g_os g' = g_os g ++ layout_os (Z.of_nat number) l.
Proof.
  revert number g.
  induction l as [|i l IH]; intros number g Hg Hnum; cbn [add_interfaces].
  - intros ->%Ok_inj. exists []. split_and!; try done; [|cbn; lia|lia|apply extends_refl|by rewrite app_nil_r].
    intros s. by rewrite app_nil_r.
  - destruct (add_interface _ _ _ _) as [g1|] eqn:E1; [|done]. cbn [rbind]. intros E2.
    apply add_interface_spec in E1 as (idx & Hgr & Hep & Hlt & Hn & Hg1 & Hext & Hname & Hidx & Hos); [|done..].
    apply IH in E2 as (idxs & Hnames & Hgr2 & Hep2 & Hlt2 & Hn2 & Hg2 & Hext2 & Hos2); [|done|lia].
    exists (idx :: idxs). rewrite endpoint_count_cons. split_and!; try done.
    + constructor; [|done]. split; [|done]. by eapply named_extends.
    + intros s. rewrite Hgr2, Hgr, Hep, (layout_cons _ _ _ idx idxs), <- app_assoc.
      by replace (Z.of_nat number + 1) with (Z.of_nat (S number)) by lia.
    + lia.
    + intros _. cbn. destruct l as [|i' l]; [cbn; lia|]. specialize (Hn2 ltac:(done)). cbn in *. lia.
    + by eapply extends_trans.
    + rewrite Hos2, Hos, <- app_assoc. cbn [layout_os].
      by replace (Z.of_nat number + 1) with (Z.of_nat (S number)) by lia.
Qed.

(** ** The generated groups *)

Lemma groups_ok_empty : groups_ok no_groups.
Proof. split; [apply map_Forall_empty|constructor]. Qed.

(** The groups and the table describe the builder: every speed has the same
    interfaces in order, each with its name's index, and the same endpoints,
    numbered consecutively from one. *)
Definition describes (b : CustomBuilder) (d : Descs) (t : Strings) (idxs : list Z)
    (iads : list InterfaceAssocDesc) : Prop :=
  (forall s, descrs s d = layout s 0 0 idxs (cb_interfaces b) ++ (DInterfaceAssoc <$> iads)) /\
  Forall2 (fun i idx => named t (in_name i) idx /\ 1 <= idx <= 255) (cb_interfaces b) idxs /\
  Forall (fun iad => exists a, assoc_ok t (a, iad)) iads /\
  os_descrs d = layout_os 0 (cb_interfaces b) /\
  (endpoint_count (cb_interfaces b) < 128)%nat /\ (length (cb_interfaces b) <= 256)%nat /\
  table_ok t.

Lemma ffs_descs_describes b d t :
  ffs_descs iter b = Ok (d, t) -> exists idxs iads, describes b d t idxs iads.
Proof.
  unfold ffs_descs. destruct (add_interfaces _ _ _ _) as [g|] eqn:E; [|done]. cbn [rbind].
  intros ?%Ok_inj; simplify_eq. apply add_interfaces_spec in E; [|apply groups_ok_empty|done].
  destruct E as (idxs & Hn & Hgr & Hep & Hlt & Hlen & [Ht Ha] & _ & Hos).
  exists idxs, (snd <$> iter _ (g_assocs g)). cbn in Hep. split_and!; try done.
  - intros s. rewrite <- list_fmap_compose. specialize (Hgr s). destruct s; cbn in *; by rewrite Hgr.
  - apply Forall_fmap. rewrite (iter_perm _ (g_assocs g)). eapply list.Forall_impl; [done|].
    intros [a iad] Hp. by exists a.
  - lia.
  - destruct (cb_interfaces b); [cbn; lia|]. by apply Hlen.
Qed.

(** *** Their fields fit *)

Definition class_fits (c : Class_) : Prop :=
  fits 1 (cls_class c) /\ fits 1 (cls_sub_class c) /\ fits 1 (cls_protocol c).

Definition endpoint_fits (e : Endpoint) : Prop :=
  fits 2 (ep_max_packet_size_hs e) /\ fits 2 (ep_max_packet_size_ss e) /\
  fits 1 (ep_max_burst_ss e) /\ fits 2 (ep_bytes_per_interval_ss e) /\ fits 1 (ep_interval e) /\
  match ep_audio e with
  | Some a => fits 1 (au_refresh a) /\ fits 1 (au_synch_address a)
  | None => True
  end.

Definition names_fit (n : Names) : Prop := map_Forall (fun lang s => fits 2 lang /\ no_nul s) n.

Definition interface_fits (i : Interface) : Prop :=
  class_fits (in_class i) /\ names_fit (in_name i) /\ Forall endpoint_fits (in_endpoints i) /\
  match in_association i with Some a => class_fits (as_class a) /\ names_fit (as_name a) | None => True end /\
  Forall (fun c => length (ec_compatible_id c) = 8%nat /\ length (ec_sub_compatible_id c) = 8%nat)
    (in_os_ext_compat i) /\
  Forall (fun d => desc_fits (DCustom d)) (in_custom_descs i).

Definition builder_fits (b : CustomBuilder) : Prop := Forall interface_fits (cb_interfaces b).

Lemma endpoint_address_fits num : 0 <= num < 128 -> fits 1 (Z.lor num DIR_IN) /\ fits 1 (Z.lor num DIR_OUT).
Proof.
  intros Hn. unfold fits. change (256 ^ Z.of_nat 1) with (2 ^ 8).
  split; apply (flag_set_width 8 _ true); unfold DIR_IN, DIR_OUT; lia.
Qed.

Lemma to_attributes_fits t : fits 1 (to_attributes t).
Proof. destruct t as [|[] []| |]; solve_fits. Qed.

Lemma layout_endpoints_fits s num eps :
  0 <= num -> num + Z.of_nat (length eps) < 128 -> Forall endpoint_fits eps ->
  Forall desc_fits (layout_endpoints s num eps).
Proof.
  intros Hn Hlen H. revert num Hn Hlen. induction H as [|e eps He _ IH]; intros num Hn Hlen; [constructor|].
  cbn [length] in Hlen. cbn [layout_endpoints]. destruct He as (? & ? & ? & ? & ? & ?).
  constructor; [|apply Forall_app; split; [|apply IH; lia]].
  - pose proof (endpoint_address_fits (num + 1) ltac:(lia)) as [Hi Ho]. cbn.
    split; [by destruct (dir_direction _)|]. split; [apply to_attributes_fits|].
    split; [destruct s; cbn; [solve_fits|done..]|]. done.
  - destruct s; [apply Forall_nil_2..|]. apply Forall_singleton. split; [done|]. split; [solve_fits|done].
Qed.

Lemma layout_fits s n num idxs l :
  0 <= n -> n + Z.of_nat (length l) <= 256 -> 0 <= num -> num + Z.of_nat (endpoint_count l) < 128 ->
  Forall interface_fits l -> Forall (fun idx => 1 <= idx <= 255) idxs ->
  Forall desc_fits (layout s n num idxs l).
Proof.
  intros Hn Hlen Hnum Hcnt H. revert n num idxs Hn Hlen Hnum Hcnt.
  induction H as [|i l Hi _ IH]; intros n num idxs Hn Hlen Hnum Hcnt Hidx; [apply Forall_nil_2|].
  destruct Hidx as [|idx idxs Hx Hidx]; [apply Forall_nil_2|]. cbn [layout].
  rewrite endpoint_count_cons in Hcnt. cbn [length] in Hlen.
  destruct Hi as ((? & ? & ?) & _ & He & _ & _ & Hc).
  constructor; [|apply Forall_app; split; [|apply Forall_app; split]].
  - unfold desc_fits, fits in *. change (256 ^ Z.of_nat 1) with 256 in *. cbn. lia.
  - by apply Forall_fmap.
  - apply layout_endpoints_fits; [lia..|done].
  - apply IH; [lia..|done].
Qed.

Lemma os_descs_of_fits n i :
  0 <= n < 256 -> interface_fits i -> Forall os_desc_fits (os_descs_of n i).
Proof.
  intros Hn (_ & _ & _ & _ & Hc & _). unfold os_descs_of. apply Forall_app. split.
  - destruct (in_os_ext_compat i) as [|c l]; [constructor|]. constructor; [|constructor].
    split; [done|]. apply Forall_fmap. eapply list.Forall_impl; [done|]. by intros ? [??].
  - destruct (in_os_ext_props i) as [|p l]; [constructor|]. constructor; [|constructor].
    split; [done|]. apply Forall_fmap, Forall_true. intros [? []]; solve_fits.
Qed.

Lemma layout_os_fits n l :
  0 <= n -> n + Z.of_nat (length l) <= 256 -> Forall interface_fits l -> Forall os_desc_fits (layout_os n l).
Proof.
  intros Hn Hlen H. revert n Hn Hlen. induction H as [|i l Hi _ IH]; intros n Hn Hlen; [constructor|].
  cbn [length] in Hlen. apply Forall_app. split; [apply os_descs_of_fits; [lia|done]|apply IH; lia].
Qed.

(** *** The table and the associations fit *)

Definition strings_fit (t : Strings) : Prop :=
  map_Forall (fun lang l => fits 2 lang /\ Forall no_nul l) t.

Definition groups_fit (g : Groups) : Prop :=
  strings_fit (g_strings g) /\ Forall (fun p => class_fits (as_class p.1)) (g_assocs g).

Lemma no_nul_empty : no_nul EmptyString.
Proof. apply not_elem_of_nil. Qed.

Lemma add_strings_fit strs t idx t' :
  names_fit strs -> strings_fit t -> add_strings iter strs t = Ok (idx, t') -> strings_fit t'.
Proof.
  intros Hs Ht. unfold add_strings. destruct (u8_try_from _ _); [|done]. cbn [rbind].
  intros ?%Ok_inj; simplify_eq. intros lang l. rewrite lookup_merge.
  pose proof no_nul_empty. destruct (t !! lang) as [l0|] eqn:E1, (strs !! lang) as [s|] eqn:E2;
    cbn; intros; simplify_eq.
  - split; [by eapply Hs|]. apply Forall_app. split; [by eapply Ht|]. constructor; [by eapply Hs|done].
  - split; [by eapply Ht|]. apply Forall_app. split; [by eapply Ht|]. by constructor.
  - split; [by eapply Hs|]. apply Forall_app. split; [by apply Forall_replicate|]. constructor; [by eapply Hs|done].
Qed.

Lemma add_association_fit n o g g' :
  match o with Some a => class_fits (as_class a) /\ names_fit (as_name a) | None => True end ->
  groups_fit g -> add_association iter n o g = Ok g' -> groups_fit g'.
Proof.
  intros Ho [Hs Ha]. destruct o as [a|]; cbn [add_association]; [|by intros ->%Ok_inj].
  destruct (assoc_entry iter n a g) as [[iad t]|] eqn:Ee; [|done]. cbn [rbind].
  destruct (negb _); [done|]. intros ->%Ok_inj. split; cbn; [|apply assoc_update_Forall; [done|apply Ho]].
  revert Ee. unfold assoc_entry. destruct (list_find _ _) as [[i [a' iad']]|].
  - intros ?%Ok_inj. by simplify_eq.
  - destruct (add_strings _ _ _) as [[idx t']|] eqn:Es; [|done]. intros ?%Ok_inj; simplify_eq.
    eapply add_strings_fit; [apply Ho|done..].
Qed.

Lemma add_endpoints_fit eps g g' : groups_fit g -> add_endpoints eps g = Ok g' -> groups_fit g'.
Proof.
  revert g. induction eps as [|e eps IH]; cbn [add_endpoints]; intros g Hg; [by intros ->%Ok_inj|].
  unfold add_endpoint. destruct (DIR_IN <=? _); [done|]. cbn [rbind]. by apply IH.
Qed.

Lemma add_interfaces_fit l number g g' :
  Forall interface_fits l -> groups_fit g -> add_interfaces iter number l g = Ok g' -> groups_fit g'.
Proof.
  intros Hl. revert number g. induction Hl as [|i l Hi _ IH]; intros number g Hg; cbn [add_interfaces];
    [by intros ->%Ok_inj|].
  destruct (add_interface _ _ _ _) as [g1|] eqn:E; [|done]. cbn [rbind]. apply IH. revert E.
  destruct Hi as (_ & Hn & _ & Ha & _). unfold add_interface.
  do 2 (destruct (u8_try_from _ _); [|done]; cbn [rbind]).
  destruct (add_strings _ _ _) as [[idx t]|] eqn:Es; [|done]. cbn [rbind].
  apply add_strings_fit in Es; [|done|apply Hg].
  destruct (add_endpoints _ _) as [g2|] eqn:Ee; [|done]. cbn [rbind].
  apply add_endpoints_fit in Ee; [|split; [done|apply Hg]].
  destruct (add_association _ _ _ _) as [g3|] eqn:E3; [|done]. cbn [rbind].
  apply add_association_fit in E3; [|done..]. intros ->%Ok_inj. by destruct E3.
Qed.

Lemma assoc_desc_fits t p :
  class_fits (as_class p.1) -> assoc_ok t p -> desc_fits (DInterfaceAssoc p.2).
Proof.
  intros (? & ? & ?) (_ & Hidx & E0 & Hc & E1 & E2 & E3). cbn. rewrite E0, E1, E2, E3.
  split_and!; try done. unfold fits. change (256 ^ Z.of_nat 1) with 256. lia.
Qed.

Lemma groups_fit_empty : groups_fit no_groups.
Proof. split; [apply map_Forall_empty|constructor]. Qed.

Lemma builder_flags_fit b :
  fits 4 (flag_set CONFIG0_SETUP (cb_config0_setup b)
            (flag_set ALL_CTRL_RECIP (cb_all_ctrl_recipient b) 0)).
Proof. by do 2 (apply (flag_set_width 32); [done..|]). Qed.

Lemma ffs_descs_fits b d t :
  builder_fits b -> ffs_descs iter b = Ok (d, t) -> descs_fits d /\ strings_fit t.
Proof.
  intros Hb. unfold ffs_descs. destruct (add_interfaces _ _ _ _) as [g|] eqn:E; [|done]. cbn [rbind].
  intros ?%Ok_inj; simplify_eq.
  pose proof (add_interfaces_fit _ _ _ _ Hb groups_fit_empty E) as [Hst Has].
  pose proof (add_interfaces_spec _ _ _ _ groups_ok_empty ltac:(done) E)
    as (idxs & Hn & Hgr & Hep & Hlt & Hlen & [_ Hok] & _ & Hos).
  assert (length (cb_interfaces b) <= 256)%nat.
  { destruct (cb_interfaces b); [cbn; lia|]. by apply Hlen. }
  assert (Forall (fun idx => 1 <= idx <= 255) idxs) as Hidx.
  { eapply Forall2_Forall_r; [done|]. apply Forall_true. by intros ? ? [_ ?]. }
  assert (forall s, Forall desc_fits (group s g ++ ((fun p => DInterfaceAssoc p.2) <$> iter _ (g_assocs g)))) as Hall.
  { intros s. apply Forall_app. cbn in Hep. split.
    - rewrite Hgr. replace (group s no_groups) with (@nil Desc) by (by destruct s).
      by apply layout_fits; cbn; try lia.
    - apply Forall_fmap. rewrite (iter_perm _ (g_assocs g)).
      apply list.Forall_forall. intros p Hp. rewrite list.Forall_forall in Has, Hok.
      eapply assoc_desc_fits; [by apply Has|by apply Hok]. }
  split; [|done]. unfold descs_fits. cbn. split; [apply builder_flags_fit|].
  split; [done|]. do 3 (split; [first [apply (Hall FullSpeed)|apply (Hall HighSpeed)|apply (Hall SuperSpeed)]|]).
  rewrite Hos. apply layout_os_fits; [done|lia|done].
Qed.

(** The table always encodes: its languages have equally many strings. *)
Lemma table_ok_uniform t :
  table_ok t ->
  forallb (fun p => (length p.2 =? str_count iter t)%nat) (iter _ (map_to_list t)) = true.
Proof.
  intros Ht. apply forallb_forall. intros [lang l] Hin%list_elem_of_In. apply Nat.eqb_eq.
  eapply Ht, elem_of_map_to_list. by rewrite <- (iter_perm _ (map_to_list t)).
Qed.

Lemma strings_never_differ t :
  table_ok t -> strings_to_bytes (iter _ (map_to_list t)) <> Err StringsDifferAcrossLanguages.
Proof.
  intros Ht. unfold strings_to_bytes. fold (str_count iter t). rewrite table_ok_uniform by done.
  cbn [negb]. unfold try_into. by repeat (case_bool_decide; cbn [rbind]).
Qed.

Lemma table_fits_iter t : strings_fit t -> table_fits (iter _ (map_to_list t)).
Proof.
  intros Ht. unfold table_fits. rewrite (iter_perm _ (map_to_list t)). apply list.Forall_forall.
  intros [lang l] Hin%elem_of_map_to_list. by apply Ht.
Qed.

(** The name at index [idx] of the decoded table. *)
Definition named_in (tb : list (Z * list (list byte))) (name : Names) (idx : Z) : Prop :=
  forall lang s, name !! lang = Some s ->
    exists l, (lang, l) ∈ tb /\ l !! Z.to_nat (idx - 1) = Some (bs s).

Lemma named_table t name idx :
  named t name idx -> named_in (table_bytes (iter _ (map_to_list t))) name idx.
Proof.
  intros Hn lang s Hs. destruct (Hn lang s Hs) as (l & Hl & Hi). exists (bs <$> l). split.
  - unfold table_bytes. apply list_elem_of_fmap. exists (lang, l). split; [done|].
    by rewrite (iter_perm _ (map_to_list t)), elem_of_map_to_list.
  - by rewrite list_lookup_fmap, Hi.
Qed.

Lemma published_layout kernel b db sb :
  builder_fits b -> ffs_descriptors_and_strings iter kernel b = Ok (db, sb) ->
  exists d tb idxs iads,
    descs_decode kernel db = Some d /\ strings_decode sb = Some tb /\
    (forall s, descrs s d = layout s 0 0 idxs (cb_interfaces b) ++ (DInterfaceAssoc <$> iads)) /\
    os_descrs d = layout_os 0 (cb_interfaces b) /\
    Forall2 (fun i idx => named_in tb (in_name i) idx /\ 1 <= idx) (cb_interfaces b) idxs /\
    (endpoint_count (cb_interfaces b) < 128)%nat.
Proof.
  intros Hb. unfold ffs_descriptors_and_strings. destruct (ffs_descs iter b) as [[d t]|] eqn:Ed; [|done].
  cbn [rbind]. pose proof (ffs_descs_fits b d t Hb Ed) as [Hd Ht].
  destruct (ffs_descs_describes b d t Ed) as (idxs & iads & Hl & Hn & _ & Hos & Hc & _).
  destruct (descs_to_bytes kernel d) as [db'|] eqn:E1; [|done]. cbn [map_err rbind].
  destruct (strings_to_bytes _) as [sb'|] eqn:E2; [|done]. cbn [map_err rbind]. intros ?%Ok_inj; simplify_eq.
  exists (described d), (table_bytes (iter _ (map_to_list t))), idxs, iads.
  split; [by apply descs_decode_encode|].
  split; [apply strings_decode_encode; [by apply table_fits_iter|done]|].
  split; [intros s; rewrite <- (Hl s); by destruct s|]. split; [done|]. split; [|done].
  eapply list.Forall2_impl; [done|]. intros i idx [Hi [? _]]. split; [by apply named_table|done].
Qed.

(** C31. What is written to endpoint zero is well formed: the kernel's parser reads both
    blobs back, each speed lists the interfaces in order with their endpoints numbered from
    one, the interface associations and the OS descriptors follow, every interface name is
    found at its string index in every language it has, and fewer than 128 endpoints are
    used. *)
Theorem published_descriptors kernel b db sb :
  builder_fits b -> ffs_descriptors_and_strings iter kernel b = Ok (db, sb) ->
  exists d tb idxs iads,
    descs_decode kernel db = Some d /\ strings_decode sb = Some tb /\
    (forall s, descrs s d = layout s 0 0 idxs (cb_interfaces b) ++ (DInterfaceAssoc <$> iads)) /\
    os_descrs d = layout_os 0 (cb_interfaces b) /\
    Forall2 (fun i idx => named_in tb (in_name i) idx /\ 1 <= idx) (cb_interfaces b) idxs /\
    (endpoint_count (cb_interfaces b) < 128)%nat.
Proof. apply published_layout. Qed.

(** The mismatch the encoder checks for cannot happen. *)
Lemma strings_error_unreachable b d t :
  ffs_descs iter b = Ok (d, t) ->
  strings_to_bytes (iter _ (map_to_list t)) <> Err StringsDifferAcrossLanguages.
Proof.
  intros Ed. apply strings_never_differ.
  by destruct (ffs_descs_describes b d t Ed) as (? & ? & ? & ? & ? & ? & ? & ? & ?).
Qed.

(** ** What the host is told about the daemon's functions *)

Lemma iter_one A (x : A) : iter A [x] = [x].
Proof. by apply Permutation_singleton_r, iter_perm. Qed.

Lemma add_strings_first name :
  add_strings iter {[default_language := name]} ∅ = Ok (1, {[default_language := [name]]}).
Proof.
  unfold add_strings. by rewrite str_count_empty.
Qed.

(** The DFU function: one interface without endpoints, followed by the
    functional descriptor. *)
Definition dfu_group (c : DfuConfig) : list Desc :=
  [DInterface {| if_interface_number := 0; if_alternate_setting := 0; if_num_endpoints := 0;
                 if_interface_class := 254; if_interface_sub_class := 1; if_interface_protocol := 2;
                 if_name_idx := 1 |};
   DCustom {| cd_descriptor_type := 33;
              cd_data := le_bytes 1 (if isSome (dc_upload c) then 7 else 5) ++ le_bytes 2 1000 ++
                         le_bytes 2 (dc_transfer_size c) ++ le_bytes 2 272 |}].

Lemma dfu_descs c :
  ffs_descs iter (dfu_builder c) =
  Ok ({| flags := 0; eventfd := None; fs_descrs := dfu_group c; hs_descrs := dfu_group c;
         ss_descrs := dfu_group c; os_descrs := [] |}, {[default_language := ["swupdate"]]}).
Proof.
  unfold ffs_descs, dfu_builder. cbn [cb_interfaces with_interface builder app add_interfaces].
  unfold add_interface. change (in_name _) with ({[default_language := "swupdate"]} : Names).
  change (g_strings no_groups) with (∅ : Strings). rewrite add_strings_first.
  cbn -[singletonM le_bytes]. rewrite iter_nil. unfold dfu_group, descriptor. by destruct (dc_upload c).
Qed.

Lemma names_fit_default name : no_nul name -> names_fit {[default_language := name]}.
Proof. intros Hn. apply map_Forall_singleton. split; [solve_fits|done]. Qed.

Lemma dfu_builder_fits c : builder_fits (dfu_builder c).
Proof.
  apply Forall_singleton. split; [split_and!; solve_fits|].
  split; [apply names_fit_default; by apply (bool_decide_unpack _)|].
  split; [apply Forall_nil_2|]. split; [done|]. split; [apply Forall_nil_2|].
  apply Forall_singleton. split; [solve_fits|by apply (bool_decide_unpack _)].
Qed.

Lemma fastboot_builder_fits : builder_fits fastboot_builder.
Proof.
  apply Forall_singleton. split; [split_and!; solve_fits|].
  split; [apply names_fit_default; by apply (bool_decide_unpack _)|].
  split; [repeat constructor; solve_fits|]. split; [done|]. split; [by apply Forall_singleton|].
  apply Forall_nil_2.
Qed.

(** The DFU function's descriptors can be built for every configuration and kernel and,
    read back, are one DFU-mode interface with its functional descriptor at every speed, no
    OS descriptors, and the one string swupdate in US English. *)
Theorem dfu_published kernel c :
  exists db sb d, ffs_descriptors_and_strings iter kernel (dfu_builder c) = Ok (db, sb) /\
    descs_decode kernel db = Some d /\ (forall s, descrs s d = dfu_group c) /\ os_descrs d = [] /\
    strings_decode sb = Some [(default_language, [bs "swupdate"])].
Proof.
  unfold ffs_descriptors_and_strings. rewrite dfu_descs. cbn [rbind].
  destruct (ffs_descs_fits _ _ _ (dfu_builder_fits c) (dfu_descs c)) as [Hd _].
  rewrite map_to_list_singleton, iter_one.
  destruct (descs_to_bytes kernel _) as [db|] eqn:E; [|done]. cbn [map_err rbind].
  apply descs_decode_encode in E; [|done]. do 3 eexists. split; [reflexivity|]. split; [done|].
  split; [by intros []|]. by split.
Qed.

(** The fastboot function: one interface with a bulk endpoint in each
    direction, for which Windows is told to use its generic driver. *)
Definition fastboot_group (s : Speed) : list Desc :=
  let size := match s with FullSpeed => 0 | HighSpeed => 512 | SuperSpeed => 1024 end in
  let comp := match s with
              | SuperSpeed => [DSsEndpointComp {| sc_max_burst := 0; sc_attributes := 0;
                                                  sc_bytes_per_interval := 0 |}]
              | _ => []
              end in
  [DInterface {| if_interface_number := 0; if_alternate_setting := 0; if_num_endpoints := 2;
                 if_interface_class := 255; if_interface_sub_class := 66; if_interface_protocol := 3;
                 if_name_idx := 1 |};
   DEndpoint {| ed_endpoint_address := 1; ed_attributes := 2; ed_max_packet_size := size;
                ed_interval := 1; ed_audio := None |}] ++ comp ++
  [DEndpoint {| ed_endpoint_address := 130; ed_attributes := 2; ed_max_packet_size := size;
                ed_interval := 0; ed_audio := None |}] ++ comp.

Definition fastboot_os : list OsDesc :=
  [{| os_interface := 0;
      os_ext := ExtCompat [{| oe_first_interface_number := 0;
                              oe_compatible_id := bs "WINUSB" ++ [Byte.x00; Byte.x00];
                              oe_sub_compatible_id := replicate 8 Byte.x00 |}] |}].

Lemma fastboot_descs :
  ffs_descs iter fastboot_builder =
  Ok ({| flags := 0; eventfd := None; fs_descrs := fastboot_group FullSpeed;
         hs_descrs := fastboot_group HighSpeed; ss_descrs := fastboot_group SuperSpeed;
         os_descrs := fastboot_os |}, {[default_language := ["fastboot-usb"]]}).
Proof.
  unfold ffs_descs, fastboot_builder. cbn [cb_interfaces with_interface builder app add_interfaces].
  unfold add_interface. change (in_name _) with ({[default_language := "fastboot-usb"]} : Names).
  change (g_strings no_groups) with (∅ : Strings). rewrite add_strings_first.
  lazy. by rewrite iter_nil.
Qed.

Theorem fastboot_published kernel :
  exists db sb d, ffs_descriptors_and_strings iter kernel fastboot_builder = Ok (db, sb) /\
    descs_decode kernel db = Some d /\ (forall s, descrs s d = fastboot_group s) /\
    os_descrs d = fastboot_os /\
    strings_decode sb = Some [(default_language, [bs "fastboot-usb"])].
Proof.
  unfold ffs_descriptors_and_strings. rewrite fastboot_descs. cbn [rbind].
  destruct (ffs_descs_fits _ _ _ fastboot_builder_fits fastboot_descs) as [Hd _].
  rewrite map_to_list_singleton, iter_one.
  destruct (descs_to_bytes kernel _) as [db|] eqn:E; [|done]. cbn [map_err rbind].
  apply descs_decode_encode in E; [|done]. do 3 eexists. split; [reflexivity|]. split; [done|].
  split; [by intros []|]. by split.
Qed.

End Layout.

(** ** Interface associations *)

Definition insertion_order {A : Type} (l : list A) : list A := l.

Lemma insertion_order_perm A (l : list A) : insertion_order l ≡ₚ l.
Proof. done. Qed.

Definition vendor : Class_ := {| cls_class := 255; cls_sub_class := 0; cls_protocol := 0 |}.
Definition pair_function : Association :=
  {| as_addr := 0; as_class := vendor; as_name := {[default_language := "pair"]} |}.
Definition plain_interface (name : string) : Interface := interface_new vendor name.
Definition pair_interface (name : string) : Interface :=
  with_association pair_function (plain_interface name).
Definition three (a b c : Interface) : CustomBuilder :=
  with_interface c (with_interface b (with_interface a builder)).

(** The adjacency test compares [first + number] with [number]: interfaces one
    and two of one function are refused although they are adjacent, zero and
    two are accepted although they are not. *)
Theorem adjacency_check_misfires :
  is_ok (ffs_descs (@insertion_order) (three (plain_interface "a") (pair_interface "b") (pair_interface "c"))) = false /\
  is_ok (ffs_descs (@insertion_order) (three (pair_interface "a") (plain_interface "b") (pair_interface "c"))) = true.
Proof. by split; vm_compute. Qed.

(** *** Witnesses *)

Lemma published_descriptors_witness :
  match ffs_descriptors_and_strings (@insertion_order) None fastboot_builder with
  | Ok (db, sb) => exists d tb, descs_decode None db = Some d /\ strings_decode sb = Some tb /\
      os_descrs d = layout_os 0 (cb_interfaces fastboot_builder)
  | Err _ => False
  end.
Proof.
  assert (is_ok (ffs_descriptors_and_strings (@insertion_order) None fastboot_builder) = true) as Hok
    by (vm_compute; reflexivity).
  destruct (ffs_descriptors_and_strings (@insertion_order) None fastboot_builder) as [[db sb]|e] eqn:E; [|discriminate].
  destruct (published_descriptors (@insertion_order) insertion_order_perm None fastboot_builder db sb fastboot_builder_fits E)
    as (d & tb & _ & _ & Hd & Ht & _ & Ho & _).
  exists d, tb. split; [exact Hd|]. split; [exact Ht|exact Ho].
Defined.

Definition sample_dfu : DfuConfig :=
  {| dc_download := default_params; dc_upload := None; dc_transfer_size := 4096; dc_poll_timeout_ms := 10 |}.

Lemma dfu_published_witness :
  exists db sb, ffs_descriptors_and_strings (@insertion_order) None (dfu_builder sample_dfu) = Ok (db, sb) /\
    strings_decode sb = Some [(default_language, [bs "swupdate"])].
Proof.
  destruct (dfu_published (@insertion_order) insertion_order_perm None sample_dfu) as (db & sb & d & E & _ & _ & _ & Hs).
  exists db, sb. split; [exact E|exact Hs].
Defined.
