(* ===== verification/Aio.v ===== *)
(** * The asynchronous I/O driver of an endpoint

    Models patches/usb-gadget/src/function/custom/aio/mod.rs: the driver that
    submits operations to the kernel's AIO context and counts free slots, and
    its thread, which learns of submissions over a channel, of completions from
    the context, and sleeps on an event counter. The driver, the thread and the
    kernel run concurrently: their atomic actions are functions on one state
    and the interleavings are the step relation [step]. *)

From stdpp Require Import gmap.
From S2P Require Import Prelude Io Bytes.

(** ** Operations *)

(** A buffer to send, or a buffer of a capacity to receive into. *)
Inductive Buffer :=
| BWrite (data : list byte)
| BRead (cap : nat) (data : list byte).

Definition buffer_size (b : Buffer) : nat :=
  match b with BWrite d => length d | BRead cap _ => cap end.

(** A completion of the kernel, with what it wrote into a read buffer. *)
Record IoEvent := { ev_data : Z; ev_res : Z; ev_bytes : list byte }.

Record CompletedOp := { co_id : Z; co_res : Z; co_result : io_result Buffer }.

Definition assume_init (bytes : list byte) (b : Buffer) : Buffer :=
  match b with BWrite d => BWrite d | BRead cap _ => BRead cap bytes end.

Definition complete (b : Buffer) (e : IoEvent) : CompletedOp :=
  {| co_id := ev_data e; co_res := ev_res e;
     co_result := if 0 <=? ev_res e then Ok (assume_init (ev_bytes e) b)
                  else Err (Os (Z.min (- ev_res e) (2 ^ 31 - 1))) |}.

Inductive Cmd :=
| Insert (id : Z) (buf : Buffer)
| Remove (id : Z)
| Cancel (id : Z)
| CancelAll.

(** ** The state *)

(** Where the driver is: between calls, inside [submit] after the operation was
    handed to the thread, inside [drop] after the last command, or gone. *)
Inductive DriverPc := Idle | Submitting (id : Z) | Dropping | Dropped.

#[global] Instance DriverPc_eq_dec : EqDecision DriverPc.
Proof. solve_decision. Defined.

(** Where the thread is: before the read of the event counter, in one of its
    three loops, finished, or panicked. *)
Inductive Phase := Waiting | Commands | Fetching | Processing | Exited | Panicked.

Record St := {
  next_id : Z;
  space : Z;
  queue_length : Z;
  pc : DriverPc;
  cmds : list Cmd;
  wake : Z;
  phase : Phase;
  active : gmap Z Buffer;
  event_queue : list IoEvent;
  inflight : gset Z;
  ring : list IoEvent;
  done_ : list CompletedOp;
  (** What the run did so far: submissions, accepted operations, results handed out. *)
  submitted : Z;
  accepted : list Z;
  delivered : list CompletedOp;
}.

Definition new (len : Z) : St :=
  {| next_id := 0; space := len; queue_length := len; pc := Idle; cmds := []; wake := 0;
     phase := Waiting; active := ∅; event_queue := []; inflight := ∅; ring := []; done_ := [];
     submitted := 0; accepted := []; delivered := [] |}.

Definition is_full (s : St) : bool := space s =? 0.
Definition is_empty (s : St) : bool := space s =? queue_length s.

(** ** The driver *)

(** The operation goes to the thread before it goes to the kernel. *)
Definition submit_insert (buf : Buffer) (s : St) : io_result Z * St :=
  if is_full s then (Err (Custom KWouldBlock "no AIO queue space available"), s) else
  let id := next_id s in
  (Ok id,
   {| next_id := wrap 64 (next_id s + 1); space := space s; queue_length := queue_length s;
      pc := Submitting id; cmds := cmds s ++ [Insert id buf]; wake := wake s; phase := phase s;
      active := active s; event_queue := event_queue s; inflight := inflight s; ring := ring s;
      done_ := done_ s; submitted := submitted s + 1; accepted := accepted s;
      delivered := delivered s |}).

(** The kernel took the operation. *)
Definition submit_accept (id : Z) (s : St) : St :=
  {| next_id := next_id s; space := space s - 1; queue_length := queue_length s; pc := Idle;
     cmds := cmds s; wake := wake s + 1; phase := phase s; active := active s;
     event_queue := event_queue s; inflight := {[id]} ∪ inflight s; ring := ring s;
     done_ := done_ s; submitted := submitted s; accepted := accepted s ++ [id];
     delivered := delivered s |}.

(** It did not: the thread is told to forget it. *)
Definition submit_reject (id : Z) (s : St) : St :=
  {| next_id := next_id s; space := space s; queue_length := queue_length s; pc := Idle;
     cmds := cmds s ++ [Remove id]; wake := wake s + 1; phase := phase s; active := active s;
     event_queue := event_queue s; inflight := inflight s; ring := ring s; done_ := done_ s;
     submitted := submitted s; accepted := accepted s; delivered := delivered s |}.

(** Takes the next result off the channel. *)
Definition try_completed (s : St) : option CompletedOp * St :=
  match done_ s with
  | [] => (None, s)
  | c :: rest =>
      (Some c,
       {| next_id := next_id s; space := space s + 1; queue_length := queue_length s; pc := pc s;
          cmds := cmds s; wake := wake s; phase := phase s; active := active s;
          event_queue := event_queue s; inflight := inflight s; ring := ring s; done_ := rest;
          submitted := submitted s; accepted := accepted s; delivered := delivered s ++ [c] |})
  end.

Definition send_cmd (c : Cmd) (p : DriverPc) (s : St) : St :=
  {| next_id := next_id s; space := space s; queue_length := queue_length s; pc := p;
     cmds := cmds s ++ [c]; wake := wake s + 1; phase := phase s; active := active s;
     event_queue := event_queue s; inflight := inflight s; ring := ring s; done_ := done_ s;
     submitted := submitted s; accepted := accepted s; delivered := delivered s |}.

Definition cancel (id : Z) (s : St) : St := send_cmd (Cancel id) Idle s.
Definition cancel_all (s : St) : St := send_cmd CancelAll Idle s.

(** [drop]: the last command, then the channels are closed. *)
Definition drop_cancel (s : St) : St := send_cmd CancelAll Dropping s.

Definition set_pc (p : DriverPc) (s : St) : St :=
  {| next_id := next_id s; space := space s; queue_length := queue_length s; pc := p;
     cmds := cmds s; wake := wake s; phase := phase s; active := active s;
     event_queue := event_queue s; inflight := inflight s; ring := ring s; done_ := done_ s;
     submitted := submitted s; accepted := accepted s; delivered := delivered s |}.

Definition drop_close (s : St) : St := set_pc Dropped s.

(** ** The thread *)

Definition set_phase (p : Phase) (s : St) : St :=
  {| next_id := next_id s; space := space s; queue_length := queue_length s; pc := pc s;
     cmds := cmds s; wake := wake s; phase := p; active := active s;
     event_queue := event_queue s; inflight := inflight s; ring := ring s; done_ := done_ s;
     submitted := submitted s; accepted := accepted s; delivered := delivered s |}.

(** The read of the counter returns when it is not zero and clears it. *)
Definition thread_wake (s : St) : St :=
  {| next_id := next_id s; space := space s; queue_length := queue_length s; pc := pc s;
     cmds := cmds s; wake := 0; phase := Commands; active := active s;
     event_queue := event_queue s; inflight := inflight s; ring := ring s; done_ := done_ s;
     submitted := submitted s; accepted := accepted s; delivered := delivered s |}.

Definition set_thread (cs : list Cmd) (act : gmap Z Buffer) (infl : gset Z) (dn : list CompletedOp)
    (p : Phase) (s : St) : St :=
  {| next_id := next_id s; space := space s; queue_length := queue_length s; pc := pc s;
     cmds := cs; wake := wake s; phase := p; active := act;
     event_queue := event_queue s; inflight := infl; ring := ring s; done_ := dn;
     submitted := submitted s; accepted := accepted s; delivered := delivered s |}.

(** The cancelled operations' completions, sent on. *)
Definition completions (act : gmap Z Buffer) (evs : list IoEvent) : list CompletedOp :=
  (fun e => complete (default (BWrite []) (act !! ev_data e)) e) <$> evs.

(** One turn of the command loop; [evs] are the completions of the operations
    the kernel agrees to cancel. *)
Definition thread_cmd (evs : list IoEvent) (s : St) : St :=
  match cmds s with
  | Insert id buf :: cs =>
      match active s !! id with
      | Some _ => set_phase Panicked s
      | None => set_thread cs (<[id := buf]> (active s)) (inflight s) (done_ s) Commands s
      end
  | Remove id :: cs =>
      match active s !! id with
      | Some _ => set_thread cs (delete id (active s)) (inflight s) (done_ s) Commands s
      | None => set_phase Panicked s
      end
  | Cancel _ :: cs | CancelAll :: cs =>
      let ids : gset Z := list_to_set (ev_data <$> evs) in
      set_thread cs (filter (fun p => p.1 ∉ ids) (active s)) (inflight s ∖ ids)
        (done_ s ++ completions (active s) evs) Commands s
  | [] =>
      if bool_decide (pc s = Dropped) && bool_decide (active s = ∅)
      then set_phase Exited s else set_phase Fetching s
  end.

(** Up to sixteen completions per call, until there are none. *)
Definition thread_fetch (s : St) : St :=
  match ring s with
  | [] => set_phase Processing s
  | _ =>
      {| next_id := next_id s; space := space s; queue_length := queue_length s; pc := pc s;
         cmds := cmds s; wake := wake s; phase := Fetching; active := active s;
         event_queue := event_queue s ++ take 16 (ring s); inflight := inflight s;
         ring := drop 16 (ring s); done_ := done_ s;
         submitted := submitted s; accepted := accepted s; delivered := delivered s |}
  end.

Definition thread_process (s : St) : St :=
  match event_queue s with
  | [] => set_phase Waiting s
  | e :: rest =>
      match active s !! ev_data e with
      | None => set_phase Waiting s
      | Some buf =>
          {| next_id := next_id s; space := space s; queue_length := queue_length s; pc := pc s;
             cmds := cmds s; wake := wake s; phase := Processing;
             active := delete (ev_data e) (active s); event_queue := rest;
             inflight := inflight s; ring := ring s; done_ := done_ s ++ [complete buf e];
             submitted := submitted s; accepted := accepted s; delivered := delivered s |}
      end
  end.

(** ** The kernel *)

Definition kernel_complete (e : IoEvent) (s : St) : St :=
  {| next_id := next_id s; space := space s; queue_length := queue_length s; pc := pc s;
     cmds := cmds s; wake := wake s + 1; phase := phase s; active := active s;
     event_queue := event_queue s; inflight := inflight s ∖ {[ev_data e]}; ring := ring s ++ [e];
     done_ := done_ s; submitted := submitted s; accepted := accepted s; delivered := delivered s |}.

(** What the kernel may answer to a cancellation of [target]: the completion of
    operations it still holds. *)
Definition cancellable (target : Z -> Prop) (s : St) (evs : list IoEvent) : Prop :=
  NoDup (ev_data <$> evs) /\
  Forall (fun e => target (ev_data e) /\ ev_data e ∈ inflight s /\ is_Some (active s !! ev_data e)) evs.

Definition cancels (s : St) (evs : list IoEvent) : Prop :=
  match cmds s with
  | Cancel id :: _ => cancellable (fun i => i = id) s evs
  | CancelAll :: _ => cancellable (fun _ => True) s evs
  | _ => evs = []
  end.

Inductive step : St -> St -> Prop :=
| step_submit s buf : pc s = Idle -> is_full s = false -> step s (submit_insert buf s).2
| step_accept s id : pc s = Submitting id -> step s (submit_accept id s)
| step_reject s id : pc s = Submitting id -> step s (submit_reject id s)
| step_completed s : pc s = Idle -> done_ s <> [] -> step s (try_completed s).2
| step_cancel s id : pc s = Idle -> step s (cancel id s)
| step_cancel_all s : pc s = Idle -> step s (cancel_all s)
| step_drop s : pc s = Idle -> step s (drop_cancel s)
| step_close s : pc s = Dropping -> step s (drop_close s)
| step_wake s : phase s = Waiting -> 0 < wake s -> step s (thread_wake s)
| step_cmd s evs : phase s = Commands -> cancels s evs -> step s (thread_cmd evs s)
| step_fetch s : phase s = Fetching -> step s (thread_fetch s)
| step_process s : phase s = Processing -> step s (thread_process s)
| step_complete s e : ev_data e ∈ inflight s -> step s (kernel_complete e s).

Definition reachable (len : Z) (s : St) : Prop := rtc step (new len) s.

(** ** The commands in the channel *)

Definition inserts (cs : list Cmd) : list Z :=
  omap (fun c => match c with Insert id _ => Some id | _ => None end) cs.
Definition removes (cs : list Cmd) : list Z :=
  omap (fun c => match c with Remove id => Some id | _ => None end) cs.

(** The commands can be carried out on the operations [live]: nothing is
    inserted twice, and only a known operation the kernel never took (the ones
    it took are [K]) is removed. *)
Fixpoint cmds_ok (K : list Z) (live : gset Z) (cs : list Cmd) : Prop :=
  match cs with
  | [] => True
  | Insert id _ :: cs => id ∉ live /\ cmds_ok K ({[id]} ∪ live) cs
  | Remove id :: cs => id ∈ live /\ id ∉ K /\ cmds_ok K (live ∖ {[id]}) cs
  | _ :: cs => cmds_ok K live cs
  end.

(** Operations the kernel took may disappear meanwhile. *)
Lemma cmds_ok_shrink K (gone live : gset Z) cs :
  (forall id, id ∈ gone -> id ∈ K) -> gone ⊆ live ->
  cmds_ok K live cs -> cmds_ok K (live ∖ gone) cs.
Proof.
  intros HK. revert live. induction cs as [|[id b|id|id|] cs IH]; intros live Hg; cbn; [done|..].
  - intros [Hid Hcs]. split; [set_solver|]. apply IH in Hcs; [|set_solver].
    replace ({[id]} ∪ live ∖ gone) with (({[id]} ∪ live) ∖ gone); [done|]. set_solver.
  - intros (Hid & HidK & Hcs). assert (id ∉ gone) by auto. split; [set_solver|]. split; [done|].
    apply IH in Hcs; [|set_solver].
    replace ((live ∖ gone) ∖ {[id]}) with ((live ∖ {[id]}) ∖ gone); [done|]. set_solver.
  - by apply IH.
  - by apply IH.
Qed.

Lemma cmds_ok_insert K live cs id b :
  id ∉ live -> id ∉ inserts cs -> cmds_ok K live cs -> cmds_ok K live (cs ++ [Insert id b]).
Proof.
  revert live. induction cs as [|[id' b'|id'|id'|] cs IH]; intros live Hl Hi; cbn in *; [done|..].
  - intros [? ?]. split; [done|]. apply IH; set_solver.
  - intros (? & ? & ?). split_and!; [done..|]. apply IH; set_solver.
  - by apply IH.
  - by apply IH.
Qed.

Lemma cmds_ok_remove K live cs id :
  id ∈ live \/ id ∈ inserts cs -> id ∉ removes cs -> id ∉ K ->
  cmds_ok K live cs -> cmds_ok K live (cs ++ [Remove id]).
Proof.
  intros Hl Hr HK. revert live Hl. induction cs as [|[id' b'|id'|id'|] cs IH]; intros live Hl; cbn in *.
  - set_solver.
  - intros [? ?]. split; [done|]. apply IH; set_solver.
  - intros (? & ? & ?). split_and!; [done..|]. apply IH; set_solver.
  - by apply IH.
  - by apply IH.
Qed.

Lemma cmds_ok_accept K live cs id :
  id ∉ removes cs -> cmds_ok K live cs -> cmds_ok (K ++ [id]) live cs.
Proof.
  intros Hr. revert live. induction cs as [|[id' b'|id'|id'|] cs IH]; intros live; cbn in *; [done|..].
  - intros [? ?]. split; [done|]. by apply IH.
  - intros (? & ? & ?). split_and!; [done|set_solver|]. apply IH; set_solver.
  - by apply IH.
  - by apply IH.
Qed.

Lemma cmds_ok_cancel K live cs c :
  c = CancelAll \/ (exists id, c = Cancel id) -> cmds_ok K live cs -> cmds_ok K live (cs ++ [c]).
Proof.
  intros Hc. revert live. induction cs as [|[id' b'|id'|id'|] cs IH]; intros live; cbn.
  - by destruct Hc as [->|[? ->]].
  - intros [? ?]. split; [done|]. by apply IH.
  - intros (? & ? & ?). split_and!; [done..|]. by apply IH.
  - by apply IH.
  - by apply IH.
Qed.

Lemma inserts_app a b : inserts (a ++ b) = inserts a ++ inserts b.
Proof. apply omap_app. Qed.
Lemma removes_app a b : removes (a ++ b) = removes a ++ removes b.
Proof. apply omap_app. Qed.

(** ** The invariant *)

Definition held (s : St) : list Z :=
  elements (inflight s) ++ (ev_data <$> ring s) ++ (ev_data <$> event_queue s).

(** The operations the kernel took whose result the driver has not seen. *)
Definition outstanding (s : St) : list Z := held s ++ (co_id <$> done_ s).

Definition known (s : St) (id : Z) : Prop := id ∈ dom (active s) \/ id ∈ inserts (cmds s).

(** The channel holds nothing the thread has not been woken for: it is empty or
    holds the operation that is being submitted. *)
Definition settled (s : St) : Prop :=
  cmds s = [] \/ exists id b, pc s = Submitting id /\ cmds s = [Insert id b].

Record inv (s : St) : Prop := {
  inv_space : space s + Z.of_nat (length (outstanding s)) = queue_length s;
  inv_accepted : accepted s ≡ₚ outstanding s ++ (co_id <$> delivered s);
  inv_nodup : NoDup (accepted s);
  inv_next : next_id s = wrap 64 (submitted s);
  inv_bound : forall id, id ∈ accepted s \/ known s id -> 0 <= id < submitted s;
  inv_known : forall id, id ∈ held s -> known s id;
  inv_cmds : cmds_ok (accepted s) (dom (active s)) (cmds s);
  inv_pc : forall id, pc s = Submitting id -> id ∉ accepted s /\ id ∉ removes (cmds s) /\ known s id;
  inv_removes : forall id, id ∈ removes (cmds s) -> 0 <= id < submitted s;
  inv_wake_cmds : phase s <> Commands -> phase s <> Exited -> settled s \/ 0 < wake s;
  inv_wake_ring : phase s = Processing \/ phase s = Waiting -> ring s = [] \/ 0 < wake s;
  inv_wake_queue : phase s = Waiting -> event_queue s = [] \/ 0 < wake s;
  inv_wake_pos : 0 <= wake s;
  inv_phase : phase s <> Panicked;
  inv_submitted : 0 <= submitted s;
}.

Lemma inv_new len : inv (new len).
Proof.
  constructor; cbn; try done; try set_solver; try lia; try by left.
  - change (length (outstanding (new len))) with 0%nat. lia.
  - unfold known. cbn. set_solver.
  - intros _ _. left. by left.
Qed.

(** What the kernel holds was accepted. *)
Lemma held_accepted s id : inv s -> id ∈ held s -> id ∈ accepted s.
Proof. intros Hi Hh. rewrite (inv_accepted s Hi). unfold outstanding. set_solver. Qed.

Lemma aio_inv_submit s buf :
  inv s -> pc s = Idle -> is_full s = false -> submitted s < 2 ^ 64 ->
  inv (submit_insert buf s).2.
Proof.
  intros Hi Hpc Hf Hb. unfold submit_insert. rewrite Hf. cbn.
  assert (next_id s = submitted s) as Hid.
  { rewrite (inv_next s Hi). apply wrap_small. split; [by apply inv_submitted|done]. }
  assert (forall id, id ∈ accepted s \/ known s id \/ id ∈ removes (cmds s) -> id <> submitted s) as Hfresh.
  { intros id [H|[H|H]] ->; [pose proof (inv_bound s Hi (submitted s) (or_introl H))
      |pose proof (inv_bound s Hi (submitted s) (or_intror H))|pose proof (inv_removes s Hi _ H)]; lia. }
  rewrite Hid. pose proof (inv_submitted s Hi). destruct Hi. constructor; cbn; try done; try lia.
  - intros id Hk. unfold known in Hk. cbn in Hk. rewrite inserts_app in Hk. cbn in Hk.
    destruct (decide (id = submitted s)) as [->|]; [lia|].
    assert (0 <= id < submitted s); [|lia]. apply inv_bound0. unfold known. set_solver.
  - intros id Hh. specialize (inv_known0 id Hh). unfold known in *. cbn. rewrite inserts_app. set_solver.
  - apply cmds_ok_insert; [| |done]; intros Hin; apply (Hfresh (submitted s)); auto; right; left;
      [by left|by right].
  - intros id [= <-]. rewrite removes_app. cbn. split_and!.
    + intros Hin. by apply (Hfresh (submitted s)); auto.
    + rewrite app_nil_r. intros Hin. by apply (Hfresh (submitted s)); auto.
    + unfold known. cbn. rewrite inserts_app. set_solver.
  - intros id. rewrite removes_app. cbn. rewrite app_nil_r. intros Hr%inv_removes0. lia.
  - intros Hp Hp'. destruct (inv_wake_cmds0 Hp Hp') as [Hs|?]; [|by right].
    left. unfold settled in *. cbn. destruct Hs as [->|(id & b & Hpc' & _)]; [|by rewrite Hpc in Hpc'].
    right. by exists (submitted s), buf.
Qed.

Lemma held_submit_accept id s :
  id ∉ inflight s -> held (submit_accept id s) ≡ₚ id :: held s.
Proof. intros Hn. unfold held. cbn. by rewrite elements_union_singleton. Qed.

Lemma inv_accept s id : inv s -> pc s = Submitting id -> inv (submit_accept id s).
Proof.
  intros Hi Hpc. destruct (inv_pc s Hi id Hpc) as (Hacc & Hrem & Hkn).
  assert (id ∉ inflight s) as Hfl.
  { intros Hin. apply Hacc, (held_accepted s id Hi). unfold held. set_solver. }
  pose proof (held_submit_accept id s Hfl) as Hheld.
  assert (outstanding (submit_accept id s) ≡ₚ id :: outstanding s) as Hout.
  { unfold outstanding. cbn. by rewrite Hheld. }
  destruct Hi. constructor; cbn; try done; try lia.
  - rewrite Hout. cbn [length]. lia.
  - rewrite Hout, inv_accepted0. cbn. by rewrite (Permutation_app_comm _ [id]).
  - apply list.NoDup_app. split; [done|]. split; [set_solver|apply NoDup_singleton].
  - intros id'. change (known (submit_accept id s) id') with (known s id'). intros [Hin|?]; [|auto].
    apply elem_of_app in Hin as [?|Hin]; [auto|]. apply list_elem_of_singleton in Hin as ->. auto.
  - intros id'. rewrite Hheld. change (known (submit_accept id s) id') with (known s id').
    intros [->|?]%elem_of_cons; auto.
  - by apply cmds_ok_accept.
Qed.

(** A command that names nothing: cancellations. *)
Lemma inv_send_cancel s c p :
  inv s -> c = CancelAll \/ (exists id, c = Cancel id) -> (forall id, p <> Submitting id) ->
  inv (send_cmd c p s).
Proof.
  intros Hi Hc Hp. assert (inserts [c] = [] /\ removes [c] = []) as [Hins Hrem].
  { by destruct Hc as [->|[? ->]]. }
  assert (forall id, known (send_cmd c p s) id <-> known s id) as Hk.
  { intros id. unfold known. cbn. by rewrite inserts_app, Hins, app_nil_r. }
  destruct Hi. constructor; cbn; try done; try lia.
  - intros id. rewrite Hk. auto.
  - intros id Hh. apply Hk. auto.
  - by apply cmds_ok_cancel.
  - intros id ->. by destruct (Hp id).
  - intros id. rewrite removes_app, Hrem, app_nil_r. auto.
Qed.

Lemma inv_reject s id : inv s -> pc s = Submitting id -> inv (submit_reject id s).
Proof.
  intros Hi Hpc. destruct (inv_pc s Hi id Hpc) as (Hacc & Hrem & Hkn).
  assert (forall id', known (submit_reject id s) id' <-> known s id') as Hk.
  { intros id'. unfold known. cbn. by rewrite inserts_app, app_nil_r. }
  destruct Hi. constructor; cbn; try done; try lia.
  - intros id'. rewrite Hk. auto.
  - intros id' Hh. apply Hk. auto.
  - by apply cmds_ok_remove.
  - intros id'. rewrite removes_app. cbn. intros [?|Hin]%elem_of_app; [auto|].
    apply list_elem_of_singleton in Hin as ->. auto.
Qed.

Lemma inv_completed s : inv s -> pc s = Idle -> inv (try_completed s).2.
Proof.
  intros Hi Hpc. unfold try_completed. destruct (done_ s) as [|c rest] eqn:Ed; [done|]. cbn.
  destruct Hi. unfold outstanding in *. rewrite Ed in *. cbn in *. constructor; cbn; try done.
  - unfold outstanding. cbn. unfold held in *. cbn. rewrite !length_app in *. cbn in *. lia.
  - etransitivity; [exact inv_accepted0|]. unfold outstanding, held. cbn. rewrite fmap_app. cbn.
    solve_Permutation.
Qed.

Lemma inv_set_phase_pc s p :
  inv s -> (forall id, p <> Submitting id) -> (forall id, pc s <> Submitting id) -> inv (set_pc p s).
Proof.
  intros Hi Hp Hp'. destruct Hi. constructor; cbn; try done.
  - intros id ->. by destruct (Hp id).
  - intros H1 H2. destruct (inv_wake_cmds0 H1 H2) as [[?|(id & ? & ? & _)]|?]; [by left; left| |by right].
    by destruct (Hp' id).
Qed.

Lemma inv_thread_wake s : inv s -> phase s = Waiting -> inv (thread_wake s).
Proof. intros Hi Hp. destruct Hi. constructor; cbn; try done. - by intros [?|?]. Qed.

Lemma inv_complete s e : inv s -> ev_data e ∈ inflight s -> inv (kernel_complete e s).
Proof.
  intros Hi He.
  assert (held (kernel_complete e s) ≡ₚ held s) as Hheld.
  { unfold held. cbn. rewrite fmap_app. cbn.
    rewrite (union_difference_L {[ev_data e]} (inflight s)) at 2 by set_solver.
    rewrite elements_union_singleton by set_solver. solve_Permutation. }
  assert (outstanding (kernel_complete e s) ≡ₚ outstanding s) as Hout.
  { unfold outstanding. cbn. by rewrite Hheld. }
  destruct Hi. constructor; cbn; try done; try lia.
  - by rewrite Hout.
  - by rewrite Hout.
  - intros id. rewrite Hheld. apply inv_known0.
Qed.

Lemma outstanding_nodup s : inv s -> NoDup (outstanding s).
Proof.
  intros Hi. pose proof (inv_nodup s Hi) as Hn. rewrite (inv_accepted s Hi) in Hn.
  by apply list.NoDup_app in Hn as [? _].
Qed.

(** An accepted operation the thread does not know yet is in the channel, and
    the thread is going to be woken for it. *)
Lemma unknown_wakes s id :
  inv s -> phase s = Processing -> id ∈ held s -> active s !! id = None -> 0 < wake s.
Proof.
  intros Hi Hp Hh Ha. pose proof (held_accepted s id Hi Hh) as Hacc.
  destruct (inv_known s Hi id Hh) as [Hd|Hin]; [by apply not_elem_of_dom in Ha|].
  destruct (inv_wake_cmds s Hi) as [[Hc|(id' & b & Hpc & Hc)]|?]; [by rewrite Hp|by rewrite Hp| |..|done].
  - rewrite Hc in Hin. by apply elem_of_nil in Hin.
  - rewrite Hc in Hin. cbn in Hin. apply list_elem_of_singleton in Hin as ->.
    by destruct (inv_pc s Hi id' Hpc) as [? _].
Qed.

Lemma inv_thread_fetch s : inv s -> phase s = Fetching -> inv (thread_fetch s).
Proof.
  intros Hi Hp. unfold thread_fetch. destruct (ring s) as [|e r] eqn:Er.
  - destruct Hi. constructor; cbn; try done.
    + intros _ _. apply inv_wake_cmds0; by rewrite Hp.
    + by intros _; left.
  - rewrite <- Er. set (s' := Build_St _ _ _ _ _ _ _ _ _ _ _ _ _ _ _).
    assert (held s' ≡ₚ held s) as Hheld.
    { unfold held, s'. cbn. rewrite <- (take_drop 16 (ring s)) at 3. rewrite !fmap_app. solve_Permutation. }
    assert (outstanding s' ≡ₚ outstanding s) as Hout by (unfold outstanding; cbn; by rewrite Hheld).
    destruct Hi. constructor; try done.
    + by rewrite Hout.
    + by rewrite Hout.
    + intros id. rewrite Hheld. apply inv_known0.
    + intros _ _. apply inv_wake_cmds0; by rewrite Hp.
    + by intros [?|?].
Qed.

Lemma inv_thread_process s : inv s -> phase s = Processing -> inv (thread_process s).
Proof.
  intros Hi Hp. unfold thread_process.
  assert (phase s <> Commands /\ phase s <> Exited) as [Hp1 Hp2] by by rewrite Hp.
  destruct (event_queue s) as [|e r] eqn:Eq.
  { destruct Hi. constructor; cbn; try done; auto. }
  assert (ev_data e ∈ held s) as Hh.
  { unfold held. rewrite Eq. cbn. set_solver. }
  destruct (active s !! ev_data e) as [buf|] eqn:Ea.
  - set (s' := Build_St _ _ _ _ _ _ _ _ _ _ _ _ _ _ _).
    pose proof (outstanding_nodup s Hi) as Hnd.
    assert (held s ≡ₚ ev_data e :: held s') as Hheld.
    { unfold held, s'. cbn. rewrite Eq. cbn. solve_Permutation. }
    assert (outstanding s' ≡ₚ outstanding s) as Hout.
    { unfold outstanding. rewrite Hheld. cbn. rewrite fmap_app. cbn. solve_Permutation. }
    assert (ev_data e ∉ held s') as Hne.
    { rewrite <- Hout in Hnd. unfold outstanding, s' in Hnd. cbn in Hnd. rewrite fmap_app in Hnd. cbn in Hnd.
      apply list.NoDup_app in Hnd as (_ & Hd & _). intros Hin. apply (Hd _ Hin). set_solver. }
    pose proof (held_accepted s _ Hi Hh) as Hacc.
    destruct Hi. constructor; try done.
    + by rewrite Hout.
    + by rewrite Hout.
    + intros id Hk. apply inv_bound0. unfold known in *. cbn in Hk. rewrite dom_delete_L in Hk. set_solver.
    + intros id Hid. assert (id <> ev_data e) by (by intros ->).
      destruct (inv_known0 id) as [?|?]; [rewrite Hheld; by right| |by right].
      left. cbn. rewrite dom_delete_L. set_solver.
    + cbn. rewrite dom_delete_L. apply cmds_ok_shrink; [set_solver| |done].
      apply singleton_subseteq_l, elem_of_dom. by eexists.
    + intros id Hpc. destruct (inv_pc0 id Hpc) as (? & ? & Hk). split_and!; try done.
      assert (id <> ev_data e) by (by intros ->). destruct Hk as [Hk|?]; [left|by right].
      cbn. rewrite dom_delete_L. set_solver.
    + intros _ _. apply inv_wake_cmds0; by rewrite Hp.
    + intros _. apply inv_wake_ring0. by left.
  - pose proof (unknown_wakes s _ Hi Hp Hh Ea) as Hw.
    destruct Hi. constructor; cbn; try done; intros; by right.
Qed.

Lemma co_id_completions act evs : co_id <$> completions act evs = ev_data <$> evs.
Proof. unfold completions. by rewrite <- list_fmap_compose. Qed.

(** What a cancellation takes from the kernel it hands to the driver. *)
Lemma elements_cancelled (infl : gset Z) evs :
  NoDup (ev_data <$> evs) -> Forall (fun e => ev_data e ∈ infl) evs ->
  elements infl ≡ₚ elements (infl ∖ list_to_set (ev_data <$> evs)) ++ (ev_data <$> evs).
Proof.
  intros Hn Hall. set (X := list_to_set (ev_data <$> evs) : gset Z).
  assert (X ⊆ infl) as Hsub.
  { intros id Hid. apply elem_of_list_to_set, list_elem_of_fmap in Hid as (e & -> & He).
    by eapply list.Forall_forall in Hall. }
  assert (elements X ≡ₚ ev_data <$> evs) as HX by (by apply elements_list_to_set).
  rewrite <- HX, <- elements_disj_union by set_solver.
  by replace (infl ∖ X ∪ X) with infl by (rewrite difference_union_L; set_solver).
Qed.

Lemma inv_thread_cancel s c cs evs :
  inv s -> phase s = Commands -> cmds s = c :: cs -> c = CancelAll \/ (exists id, c = Cancel id) ->
  NoDup (ev_data <$> evs) ->
  Forall (fun e => ev_data e ∈ inflight s /\ is_Some (active s !! ev_data e)) evs ->
  inv (set_thread cs (filter (fun p => p.1 ∉ (list_to_set (ev_data <$> evs) : gset Z)) (active s))
         (inflight s ∖ list_to_set (ev_data <$> evs)) (done_ s ++ completions (active s) evs) Commands s).
Proof.
  intros Hi Hp Hcs Hc Hn Hall. set (X := list_to_set (ev_data <$> evs) : gset Z).
  set (s' := set_thread _ _ _ _ _ _).
  assert (inserts (cmds s) = inserts cs /\ removes (cmds s) = removes cs) as [Hins Hrem].
  { rewrite Hcs. by destruct Hc as [->|[? ->]]. }
  assert (dom (active s') = dom (active s) ∖ X) as Hdom.
  { cbn. apply set_eq. intros id. rewrite elem_of_difference, !elem_of_dom. split.
    - intros [b [Hb Hx]%map_lookup_filter_Some]. split; [by eexists|done].
    - intros [[b Hb] Hx]. exists b. by apply map_lookup_filter_Some. }
  assert (Forall (fun e => ev_data e ∈ inflight s) evs) as Hfl
    by (eapply list.Forall_impl; [done|by intros ? [??]]).
  assert (outstanding s' ≡ₚ outstanding s) as Hout.
  { unfold outstanding, held. cbn. rewrite (elements_cancelled (inflight s) evs) by done.
    rewrite fmap_app, co_id_completions. fold X. solve_Permutation. }
  assert (forall id, id ∈ X -> id ∈ accepted s /\ id ∈ dom (active s) /\ id ∉ held s') as HX.
  { intros id Hid. assert (id ∈ ev_data <$> evs) as Hid' by (by apply elem_of_list_to_set in Hid).
    pose proof (outstanding_nodup s Hi) as Hnd. rewrite <- Hout in Hnd. apply list.NoDup_app in Hnd as (_ & Hd & _).
    split_and!.
    - apply list_elem_of_fmap in Hid' as (e & -> & He). apply (held_accepted s _ Hi).
      rewrite list.Forall_forall in Hfl. specialize (Hfl e He). unfold held. set_solver.
    - apply list_elem_of_fmap in Hid' as (e & -> & He). rewrite list.Forall_forall in Hall.
      by apply elem_of_dom, Hall.
    - intros Hh. apply (Hd _ Hh). cbn. rewrite fmap_app, co_id_completions. set_solver. }
  assert (forall id, id ∈ held s' -> id ∈ held s) as Hsub.
  { intros id. unfold held. cbn. set_solver. }
  destruct Hi. constructor; try done.
  - by rewrite Hout.
  - by rewrite Hout.
  - intros id Hk. apply inv_bound0. unfold known in *. rewrite Hdom in Hk. change (cmds s') with cs in Hk.
    rewrite Hins. set_solver.
  - intros id Hid. unfold known. rewrite Hdom. change (cmds s') with cs. rewrite <- Hins.
    destruct (inv_known0 id (Hsub id Hid)) as [?|?]; [left|by right].
    apply elem_of_difference. split; [done|]. intros Hx. by apply HX in Hx as (_ & _ & ?).
  - rewrite Hdom. cbn. assert (cmds_ok (accepted s) (dom (active s)) cs) as Hok.
    { rewrite Hcs in inv_cmds0. by destruct Hc as [->|[? ->]]. }
    apply cmds_ok_shrink; [|intros id Hx|done]; [intros id Hx|]; by apply HX in Hx as (? & ? & _).
  - intros id Hpc. destruct (inv_pc0 id Hpc) as (Hacc & ? & Hk). split_and!; [done|by rewrite Hrem in *|].
    unfold known. rewrite Hdom. change (cmds s') with cs. rewrite <- Hins. destruct Hk as [?|?]; [left|by right].
    apply elem_of_difference. split; [done|]. intros Hx. by apply HX in Hx as (? & _).
  - intros id. change (cmds s') with cs. rewrite <- Hrem. apply inv_removes0.
  - by intros [?|?].
Qed.

Lemma inv_thread_cmd s evs : inv s -> phase s = Commands -> cancels s evs -> inv (thread_cmd evs s).
Proof.
  intros Hi Hp Hc. unfold thread_cmd, cancels in *. destruct (cmds s) as [|[id b|id|id|] cs] eqn:Ecs.
  - assert (settled s) as Hs by by left. destruct (_ && _).
    + destruct Hi. constructor; cbn; try done. by intros [?|?].
    + destruct Hi. constructor; cbn; try done; [|by intros [?|?]]. by left.
  - pose proof (inv_cmds s Hi) as Hok. rewrite Ecs in Hok. destruct Hok as [Hid Hok].
    rewrite (not_elem_of_dom_1 _ _ Hid). set (s' := set_thread _ _ _ _ _ _).
    assert (forall i, known s' i <-> known s i) as Hk.
    { intros i. unfold known. rewrite Ecs. cbn. rewrite dom_insert_L. set_solver. }
    destruct Hi. rewrite Ecs in *. constructor; try done.
    + intros i. rewrite Hk. auto.
    + intros i Hh. apply Hk. auto.
    + cbn. by rewrite dom_insert_L.
    + intros i Hpc. destruct (inv_pc0 i Hpc) as (? & ? & ?). split_and!; [done..|by apply Hk].
    + by intros [?|?].
  - pose proof (inv_cmds s Hi) as Hok. rewrite Ecs in Hok. destruct Hok as (Hid & HidK & Hok).
    pose proof Hid as [b Hb]%elem_of_dom. rewrite Hb. set (s' := set_thread _ _ _ _ _ _).
    assert (forall i, i <> id -> known s' i <-> known s i) as Hk.
    { intros i Hne. unfold known. rewrite Ecs. cbn. rewrite dom_delete_L. set_solver. }
    assert (forall i, known s' i -> known s i) as Hk'.
    { intros i. unfold known. rewrite Ecs. cbn. rewrite dom_delete_L. set_solver. }
    pose proof (held_accepted s) as Hacc.
    assert (forall i, i ∈ held s -> i <> id) as Hne by (intros i Hh ->; by apply HidK, Hacc).
    destruct Hi. rewrite Ecs in *. constructor; try done.
    + intros i [?|?]; [auto|]. apply inv_bound0. right. auto.
    + intros i Hh. apply Hk; [by apply Hne|auto].
    + cbn. by rewrite dom_delete_L.
    + intros i Hpc. destruct (inv_pc0 i Hpc) as (? & Hr & ?). cbn in Hr. rewrite not_elem_of_cons in Hr.
      destruct Hr. split_and!; [done..|by apply Hk].
    + intros i Hi. apply inv_removes0. cbn. by right.
    + by intros [?|?].
  - destruct Hc as [Hn Hall]. eapply inv_thread_cancel; [done..|by right; eexists|done|].
    eapply list.Forall_impl; [done|]. by intros e [_ ?].
  - destruct Hc as [Hn Hall]. eapply inv_thread_cancel; [done..|by left|done|].
    eapply list.Forall_impl; [done|]. by intros e [_ ?].
Qed.

(** ** Reachable states *)

Lemma thread_cmd_submitted evs s : submitted (thread_cmd evs s) = submitted s.
Proof. unfold thread_cmd. by repeat case_match. Qed.

Lemma step_submitted s s' : step s s' -> submitted s <= submitted s'.
Proof.
  destruct 1; cbn; try lia.
  - unfold submit_insert. case_match; cbn; lia.
  - unfold try_completed. by case_match.
  - by rewrite thread_cmd_submitted.
  - unfold thread_fetch. by case_match.
  - unfold thread_process. by repeat case_match.
Qed.

(** Identifiers are distinct for the first 2^64 submissions, after which the
    counter starts again. *)
Lemma inv_step s s' : step s s' -> submitted s' <= 2 ^ 64 -> inv s -> inv s'.
Proof.
  intros Hs Hb Hi. destruct Hs.
  - apply aio_inv_submit; [done..|]. revert Hb. unfold submit_insert. rewrite H0. cbn. lia.
  - by apply inv_accept.
  - by apply inv_reject.
  - by apply inv_completed.
  - apply inv_send_cancel; [done|right; by eexists|done].
  - apply inv_send_cancel; [done|by left|done].
  - apply inv_send_cancel; [done|by left|done].
  - apply inv_set_phase_pc; [done|done|]. intros id E. by rewrite H in E.
  - by apply inv_thread_wake.
  - by apply inv_thread_cmd.
  - by apply inv_thread_fetch.
  - by apply inv_thread_process.
  - by apply inv_complete.
Qed.

Lemma reachable_inv len s : reachable len s -> submitted s <= 2 ^ 64 -> inv s.
Proof.
  revert s. refine (rtc_ind_r (fun s => submitted s <= 2 ^ 64 -> inv s) _ _ _).
  - intros _. apply inv_new.
  - intros s s' _ Hs IH Hb. eapply inv_step; [done..|]. apply IH. by etransitivity; [apply step_submitted|].
Qed.

(** The free slots never run out of range. *)
Definition room (len : Z) (s : St) : Prop :=
  queue_length s = len /\ 0 <= space s /\ forall id, pc s = Submitting id -> 0 < space s.

Lemma room_step len s s' : step s s' -> room len s -> room len s'.
Proof.
  intros Hs (Hl & H0 & Hp). unfold room. destruct Hs; cbn; try (split_and!; try done; by intros).
  - unfold submit_insert. rewrite H1. cbn. unfold is_full in H1. split_and!; try done.
    intros _ _. lia.
  - specialize (Hp _ H). split_and!; [done|lia|done].
  - unfold try_completed. case_match; cbn; split_and!; try done; try lia.
  - unfold thread_cmd. repeat case_match; done.
  - unfold thread_fetch. by case_match.
  - unfold thread_process. by repeat case_match.
Qed.

Lemma reachable_room len s : 0 <= len -> reachable len s -> room len s.
Proof.
  intros Hlen. revert s. refine (rtc_ind_r (room len) _ _ _); [by split_and!|].
  intros s s' _ Hs IH. by eapply room_step.
Qed.

(** C25. Asynchronous I/O loses and duplicates nothing, in every interleaving of driver,
    thread and kernel: the free space plus the outstanding operations is the queue length,
    every operation the kernel accepted is outstanding or was handed out, exactly once, and
    the thread never panics. *)
Theorem aio_accounting len s :
  0 <= len -> reachable len s -> submitted s <= 2 ^ 64 ->
  0 <= space s /\ space s + Z.of_nat (length (outstanding s)) = len /\
  accepted s ≡ₚ outstanding s ++ (co_id <$> delivered s) /\ NoDup (accepted s) /\ phase s <> Panicked.
Proof.
  intros Hlen Hr Hb. pose proof (reachable_inv len s Hr Hb) as Hi.
  destruct (reachable_room len s Hlen Hr) as (<- & Hsp & _).
  split_and!; [done|apply Hi..].
Qed.

(** At rest nothing was missed. *)
Lemma aio_at_rest len s :
  reachable len s -> submitted s <= 2 ^ 64 -> phase s = Waiting -> wake s = 0 ->
  (forall id, pc s <> Submitting id) ->
  cmds s = [] /\ ring s = [] /\ event_queue s = [] /\
  outstanding s = elements (inflight s) ++ (co_id <$> done_ s).
Proof.
  intros Hr Hb Hp Hw Hpc. pose proof (reachable_inv len s Hr Hb) as Hi.
  destruct (inv_wake_cmds s Hi) as [[Hc|(id & b & Hid & _)]|?];
    [by rewrite Hp|by rewrite Hp| |by destruct (Hpc id)|lia].
  destruct (inv_wake_ring s Hi) as [Hring|?]; [by right| |lia].
  destruct (inv_wake_queue s Hi Hp) as [Hq|?]; [|lia].
  split_and!; [done..|]. unfold outstanding, held. by rewrite Hring, Hq, app_nil_r.
Qed.

(** No wake-up is lost: when the thread sleeps with nothing to wake it and no submission
    is half done, there is no command, no completion in the ring and none in its queue that
    it missed; what is outstanding is with the kernel or waiting for the driver to take it.
    *)
Theorem aio_no_lost_completion len s :
  reachable len s -> submitted s <= 2 ^ 64 -> phase s = Waiting -> wake s = 0 ->
  (forall id, pc s <> Submitting id) ->
  cmds s = [] /\ ring s = [] /\ event_queue s = [] /\
  outstanding s = elements (inflight s) ++ (co_id <$> done_ s).
Proof. apply aio_at_rest. Qed.

(** The driver's [drop] sends the last command and wakes the thread before its
    end of the channel is closed. A thread that is fast enough finds the channel
    open and goes back to sleep: with nothing outstanding nobody wakes it
    again. *)
Definition leaked (s : St) : Prop :=
  pc s = Dropped /\ phase s = Waiting /\ wake s = 0 /\ outstanding s = [].

Lemma leaked_stuck s s' : leaked s -> step s s' -> False.
Proof.
  intros (Hpc & Hp & Hw & Ho) Hs. destruct Hs; try congruence; try lia.
  unfold outstanding, held in Ho. apply app_nil in Ho as [Ho _]. apply app_nil in Ho as [Ho _].
  apply elements_empty_inv in Ho. set_solver.
Qed.

Ltac run_step c := eapply rtc_l; [by apply c|].

Theorem aio_drop_can_leak_thread : exists s, reachable 1 s /\ leaked s /\ forall s', ~ step s s'.
Proof.
  exists (drop_close (thread_process (thread_fetch (thread_cmd [] (thread_cmd []
            (thread_wake (drop_cancel (new 1)))))))).
  split; [|split; [done|]].
  - unfold reachable. run_step step_drop. run_step step_wake.
    eapply rtc_l; [apply (step_cmd _ []); [done|by split; [apply NoDup_nil_2|apply Forall_nil_2]]|].
    eapply rtc_l; [apply (step_cmd _ []); exact eq_refl|]. run_step step_fetch. run_step step_process.
    run_step step_close. apply rtc_refl.
  - intros s' Hs. by eapply leaked_stuck; [|exact Hs].
Qed.

(** ** A run *)

Definition aio_run : St :=
  thread_process (thread_fetch (thread_cmd [] (thread_cmd [] (thread_wake
    (submit_accept 0 (submit_insert (BWrite []) (new 2)).2))))).

(** One operation is with the kernel and the thread sleeps. *)
Lemma aio_run_reachable : reachable 2 aio_run.
Proof.
  unfold reachable, aio_run. run_step step_submit. run_step step_accept. run_step step_wake.
  eapply rtc_l; [apply (step_cmd _ []); exact eq_refl|]. eapply rtc_l; [apply (step_cmd _ []); exact eq_refl|].
  run_step step_fetch. run_step step_process. apply rtc_refl.
Qed.

Lemma aio_accounting_witness :
  space aio_run + Z.of_nat (length (outstanding aio_run)) = 2 /\ phase aio_run <> Panicked.
Proof.
  destruct (aio_accounting 2 aio_run ltac:(lia) aio_run_reachable ltac:(vm_compute; discriminate))
    as (_ & Hs & _ & _ & Hp).
  split; [exact Hs|exact Hp].
Defined.

Lemma aio_no_lost_completion_witness : outstanding aio_run = elements (inflight aio_run) ++ (co_id <$> done_ aio_run).
Proof.
  destruct (aio_no_lost_completion 2 aio_run aio_run_reachable ltac:(vm_compute; discriminate)) as (_ & _ & _ & Ho).
  - reflexivity.
  - reflexivity.
  - intros id. discriminate.
  - exact Ho.
Defined.
