(* ===== verification/AioSys.v ===== *)
(** * The system calls of asynchronous I/O

    Models what is below the driver of [Aio]: the control blocks and the results
    of the system calls (patches/usb-gadget/src/function/custom/aio/sys.rs), the
    event counter, the context and the buffers of aio/mod.rs, and [Driver::submit]
    as a whole. The kernel works on memory the program owns: the theorem shows that
    a buffer is kept, unchanged, for as long as the kernel has its operation. *)

From stdpp Require Import gmap.
From S2P Require Import Prelude Io Bytes Aio.

(** ** Control blocks *)

Module Opcode.
Definition PREAD : Z := 0.
Definition PWRITE : Z := 1.
Definition FSYNC : Z := 2.
Definition FDSYNC : Z := 3.
Definition POLL : Z := 5.
Definition NOOP : Z := 6.
Definition PREADV : Z := 7.
Definition PWRITEV : Z := 8.
End Opcode.

Definition RESFD : Z := Z.shiftl 1 0.
Definition IOPRIO : Z := Z.shiftl 1 1.

Record IoCb := {
  cb_data : Z;
  cb_key : Z;
  cb_rw_flags : Z;
  cb_opcode : Z;
  cb_reqprio : Z;
  cb_fildes : Z;
  cb_buf : Z;
  cb_nbytes : Z;
  cb_offset : Z;
  cb_reserved2 : Z;
  cb_flags : Z;
  cb_resfd : Z;
}.

Definition iocb_new (opcode fildes buf nbytes : Z) : IoCb :=
  {| cb_data := 0; cb_key := 0; cb_rw_flags := 0; cb_opcode := opcode; cb_reqprio := 0; cb_fildes := fildes;
     cb_buf := buf; cb_nbytes := nbytes; cb_offset := 0; cb_reserved2 := 0; cb_flags := 0; cb_resfd := 0 |}.

Definition with_resfd (resfd : Z) (c : IoCb) : IoCb :=
  {| cb_data := cb_data c; cb_key := cb_key c; cb_rw_flags := cb_rw_flags c; cb_opcode := cb_opcode c;
     cb_reqprio := cb_reqprio c; cb_fildes := cb_fildes c; cb_buf := cb_buf c; cb_nbytes := cb_nbytes c;
     cb_offset := cb_offset c; cb_reserved2 := cb_reserved2 c; cb_flags := Z.lor (cb_flags c) RESFD;
     cb_resfd := resfd |}.

Definition with_data (data : Z) (c : IoCb) : IoCb :=
  {| cb_data := data; cb_key := cb_key c; cb_rw_flags := cb_rw_flags c; cb_opcode := cb_opcode c;
     cb_reqprio := cb_reqprio c; cb_fildes := cb_fildes c; cb_buf := cb_buf c; cb_nbytes := cb_nbytes c;
     cb_offset := cb_offset c; cb_reserved2 := cb_reserved2 c; cb_flags := cb_flags c; cb_resfd := cb_resfd c |}.

(** ** System calls *)

(** What [syscall] returned, and [errno]. *)
Record Raw := { raw_ret : Z; raw_errno : Z }.

(** [as c_int]. *)
Definition as_c_int (z : Z) : Z := let w := wrap 32 z in if w <? 2 ^ 31 then w else w - 2 ^ 32.

Definition last_os_error (r : Raw) : io_error := Os (raw_errno r).

Definition sys_setup (r : Raw) : io_result unit := if raw_ret r =? 0 then Ok tt else Err (last_os_error r).
Definition sys_destroy (r : Raw) : io_result unit := if as_c_int (raw_ret r) =? 0 then Ok tt else Err (last_os_error r).
Definition sys_submit (r : Raw) : io_result Z :=
  if as_c_int (raw_ret r) =? -1 then Err (last_os_error r) else Ok (as_c_int (raw_ret r)).
Definition sys_cancel (r : Raw) : io_result unit := if as_c_int (raw_ret r) =? 0 then Ok tt else Err (last_os_error r).
Definition sys_getevents (r : Raw) : io_result Z :=
  if as_c_int (raw_ret r) =? -1 then Err (last_os_error r) else Ok (as_c_int (raw_ret r)).

(** ** The event counter *)

(** [rustix]'s read and write of the counter return bytes. *)
Definition eventfd_read (r : io_result (list byte)) : io_result Z :=
  let? buf := r in
  if negb (length buf =? 8)%nat then Err (other "short read from eventfd") else Ok (le_val buf).

Definition eventfd_write (write : list byte -> io_result nat) (n : Z) : io_result unit :=
  let? written := write (le_bytes 8 n) in
  if negb (written =? 8)%nat then Err (other "short write to eventfd") else Ok tt.

(** ** Buffers *)

Definition bytes_of_buffer (b : Buffer) : list byte := match b with BWrite d => d | BRead _ d => d end.
Definition read_buffer (b : Buffer) : option (list byte) := match b with BWrite _ => None | BRead _ d => Some d end.

(** ** [Driver::submit] *)

(** The control block of a submission: where the buffer is, its length or
    capacity, the counter to signal, and the operation's number. *)
Definition submission (opcode fd ptr eventfd id : Z) (b : Buffer) : IoCb :=
  with_data id (with_resfd eventfd (iocb_new opcode fd ptr (Z.of_nat (buffer_size b)))).

(** The operation goes to the thread, then to the kernel; [raw] is what the system
    call returned. *)
Definition driver_submit (b : Buffer) (raw : Raw) (s : St) : io_result Z * St :=
  match submit_insert b s with
  | (Err e, s) => (Err e, s)
  | (Ok id, s) =>
      match sys_submit raw with
      | Ok n => if n =? 1 then (Ok id, submit_accept id s)
                else (Err (Custom KWouldBlock "AIO request not accepted"), submit_reject id s)
      | Err e => (Err e, submit_reject id s)
      end
  end.

(** It is the driver's steps of [Aio], and takes a slot exactly when it succeeds. *)
Lemma driver_submit_steps b raw s :
  pc s = Idle -> rtc step s (driver_submit b raw s).2 /\
  space (driver_submit b raw s).2 = space s - (if ok (driver_submit b raw s).1 then 1 else 0).
Proof.
  intros Hp. unfold driver_submit. destruct (is_full s) eqn:Ef.
  { unfold submit_insert. rewrite Ef. cbn. split; [apply rtc_refl|lia]. }
  pose proof (step_submit s b Hp Ef) as Hs. unfold submit_insert in *. rewrite Ef in *. cbn in Hs.
  set (s1 := {| next_id := _ |}) in *.
  assert (rtc step s (submit_accept (next_id s) s1)) as Ha by (eapply rtc_l; [exact Hs|]; apply rtc_once; by apply step_accept).
  assert (rtc step s (submit_reject (next_id s) s1)) as Hr by (eapply rtc_l; [exact Hs|]; apply rtc_once; by apply step_reject).
  destruct (sys_submit raw) as [n|e]; [destruct (n =? 1)|]; cbn; split; done || lia.
Qed.

(** ** Ownership of the buffers *)

(** The first insertion of an operation in the channel. *)
Fixpoint inserted (id : Z) (cs : list Cmd) : option Buffer :=
  match cs with
  | [] => None
  | Insert i b :: cs => if i =? id then Some b else inserted id cs
  | _ :: cs => inserted id cs
  end.

(** The buffer of an operation, held by the thread or on its way to it. *)
Definition owner (id : Z) (s : St) : option Buffer :=
  match active s !! id with Some b => Some b | None => inserted id (cmds s) end.

Lemma inserted_elem id cs : is_Some (inserted id cs) <-> id ∈ inserts cs.
Proof.
  induction cs as [|[i b|i|i|] cs IH]; cbn; [split; [by intros []|by intros ?%not_elem_of_nil]|..|done|done|done].
  rewrite elem_of_cons, <- IH. destruct (i =? id) eqn:E.
  - apply Z.eqb_eq in E as ->. split; [by left|by eexists].
  - apply Z.eqb_neq in E. split; [by right|by intros [->|]].
Qed.

Lemma known_owner s id : known s id -> is_Some (owner id s).
Proof.
  unfold known, owner. intros [[b Hb]%elem_of_dom|Hi]; [by rewrite Hb|].
  destruct (active s !! id); [done|]. by apply inserted_elem.
Qed.

Lemma inserted_app id cs cs' : id ∉ inserts cs' -> inserted id (cs ++ cs') = inserted id cs.
Proof.
  intros Hn. induction cs as [|[i b|i|i|] cs IH]; cbn; try done.
  - destruct (inserted id cs') eqn:E; [|done]. exfalso. apply Hn, inserted_elem. by eexists.
  - by rewrite IH.
Qed.

(** The thread has left its loop only with nothing to do. *)
Definition exited_idle (s : St) : Prop := phase s = Exited -> pc s = Dropped /\ cmds s = [] /\ active s = ∅.

Lemma exited_step s s' : step s s' -> exited_idle s -> exited_idle s'.
Proof.
  unfold exited_idle. intros Hs He. destruct Hs; cbn; try (intros Hx; destruct (He Hx) as (? & ? & ?); congruence); try done.
  - unfold submit_insert. rewrite H0. cbn. intros Hx. destruct (He Hx). congruence.
  - unfold try_completed. destruct (done_ s); cbn; [done|]. intros Hx. destruct (He Hx). congruence.
  - unfold thread_cmd. destruct (cmds s) as [|[i b|i|i|] cs] eqn:Ec; cbn; [|destruct (active s !! i); cbn; done..|done|done].
    case_bool_decide as H1; cbn; [|done]. case_bool_decide as H2; cbn; done.
  - unfold thread_fetch. destruct (ring s); cbn; [done|congruence].
  - unfold thread_process. destruct (event_queue s) as [|e q]; cbn; [done|]. destruct (active s !! ev_data e); cbn; congruence || done.
Qed.

Lemma reachable_exited len s : reachable len s -> exited_idle s.
Proof. revert s. apply (rtc_ind_r exited_idle); [done|]. intros x y _ Hxy. by apply exited_step. Qed.

Lemma inflight_held s id : id ∈ inflight s -> id ∈ held s.
Proof. intros Hi. unfold held. apply elem_of_app. left. by apply elem_of_elements. Qed.

(** A step leaves the buffer of an operation that the kernel has before and after
    it where it is. *)
Lemma owner_thread_cmd s evs id :
  inv s -> phase s = Commands -> id ∈ inflight s -> id ∈ inflight (thread_cmd evs s) ->
  owner id (thread_cmd evs s) = owner id s.
Proof.
  intros Hi Hph Hin. pose proof (held_accepted s id Hi (inflight_held _ _ Hin)) as Hacc.
  pose proof (inv_cmds s Hi) as Hok. unfold thread_cmd, owner.
  destruct (cmds s) as [|[i b|i|i|] cs] eqn:Ec; cbn [set_phase set_thread active cmds inflight].
  - intros _. by destruct (_ && _); cbn; rewrite Ec.
  - intros _. destruct Hok as [Hnew _]. apply not_elem_of_dom in Hnew. rewrite Hnew. cbn.
    rewrite lookup_insert. destruct (decide (i = id)) as [->|Hne]; [by rewrite Hnew, Z.eqb_refl|].
    by rewrite (proj2 (Z.eqb_neq _ _)) by done.
  - intros _. destruct Hok as (Hlive & HnK & _). apply elem_of_dom in Hlive as [x Hx]. rewrite Hx. cbn.
    rewrite lookup_delete_ne; [done|]. intros ->. done.
  - intros [_ Hn]%elem_of_difference. rewrite map_lookup_filter. destruct (active s !! id) as [x|]; cbn; [|done].
    by rewrite option_guard_True.
  - intros [_ Hn]%elem_of_difference. rewrite map_lookup_filter. destruct (active s !! id) as [x|]; cbn; [|done].
    by rewrite option_guard_True.
Qed.

Lemma owner_process s id : inv s -> id ∈ inflight s -> owner id (thread_process s) = owner id s.
Proof.
  intros Hi Hin. unfold thread_process, owner. destruct (event_queue s) as [|e q] eqn:Eq; [done|].
  destruct (active s !! ev_data e) as [b|] eqn:Ea; cbn; [|done]. rewrite lookup_delete_ne; [done|]. intros E.
  pose proof (outstanding_nodup s Hi) as Hnd. unfold outstanding, held in Hnd. rewrite Eq in Hnd.
  apply list.NoDup_app in Hnd as (Hnd & _ & _). apply list.NoDup_app in Hnd as (_ & Hdis & _).
  apply (Hdis id); [by apply elem_of_elements|]. rewrite <- E. cbn. set_solver.
Qed.

Lemma owner_step s s' id :
  inv s -> submitted s < 2 ^ 64 -> step s s' -> id ∈ inflight s -> id ∈ inflight s' -> owner id s' = owner id s.
Proof.
  intros Hi Hb Hs Hin. pose proof (held_accepted s id Hi (inflight_held _ _ Hin)) as Hacc.
  assert (forall cs, id ∉ inserts cs -> forall s1, active s1 = active s -> cmds s1 = cmds s ++ cs -> owner id s1 = owner id s) as Happ.
  { intros cs Hn s1 Ha Hc. unfold owner. rewrite Ha, Hc. destruct (active s !! id); [done|]. by apply inserted_app. }
  destruct Hs as [s buf Hp Hf|s i Hp|s i Hp|s Hp Hd|s i Hp|s Hp|s Hp|s Hp|s Hp Hw|s evs Hp Hc|s Hp|s Hp|s e He]; intros Hin'.
  - apply (Happ [Insert (next_id s) buf]); [|unfold submit_insert; by rewrite Hf..]. cbn.
    apply not_elem_of_cons. split; [|by apply not_elem_of_nil]. intros ->.
    pose proof (inv_next s Hi) as Hnx. destruct (inv_bound s Hi (next_id s)) as [_ Hlt]; [by left|].
    rewrite Hnx in Hlt. rewrite wrap_small in Hlt; [lia|]. pose proof (inv_submitted s Hi). lia.
  - by apply (Happ []); [apply not_elem_of_nil|done|cbn; rewrite app_nil_r].
  - by apply (Happ [Remove i]); [apply not_elem_of_nil|done|].
  - unfold try_completed. by destruct (done_ s).
  - by apply (Happ [Cancel i]); [apply not_elem_of_nil|done|].
  - by apply (Happ [CancelAll]); [apply not_elem_of_nil|done|].
  - by apply (Happ [CancelAll]); [apply not_elem_of_nil|done|].
  - done.
  - done.
  - by apply owner_thread_cmd.
  - unfold thread_fetch. by destruct (ring s).
  - by apply owner_process.
  - done.
Qed.

(** C26. The kernel only ever works on memory that is there: in every interleaving
    of driver, thread and kernel, the buffer of an operation that the kernel has is
    held by the thread or on its way to it, and no step drops, replaces or changes
    it while the kernel keeps the operation; the thread does not end, and the
    context is not torn down with it, before the kernel has given everything
    back. *)
Theorem aio_memory_safe len s :
  reachable len s -> submitted s < 2 ^ 64 ->
  (forall id, id ∈ inflight s -> is_Some (owner id s)) /\
  (forall s' id, step s s' -> id ∈ inflight s -> id ∈ inflight s' -> owner id s' = owner id s) /\
  (phase s = Exited -> inflight s = ∅).
Proof.
  intros Hr Hb. assert (inv s) as Hi by (by apply (reachable_inv len); [|lia]).
  assert (forall id, id ∈ inflight s -> is_Some (owner id s)) as Ho.
  { intros id Hin. apply known_owner, (inv_known s Hi), inflight_held, Hin. }
  split_and!; [done|by intros; apply owner_step|].
  intros Hx. destruct (reachable_exited len s Hr Hx) as (_ & Hc & Ha).
  apply set_eq. intros id. split; [|set_solver]. intros [b Hw]%Ho. unfold owner in Hw. by rewrite Ha, Hc, lookup_empty in Hw.
Qed.

Lemma aio_memory_safe_witness : is_Some (owner 0 aio_run) /\ 0 ∈ inflight aio_run.
Proof.
  assert (0 ∈ inflight aio_run) as Hin by (apply (bool_decide_unpack _); vm_compute; exact I).
  split; [|exact Hin]. refine (proj1 (aio_memory_safe 2 aio_run aio_run_reachable _) 0 Hin). reflexivity.
Defined.
