(* ===== verification/Notify.v ===== *)
(** * The notifier

    Models tokio's [Notify] (vendor/tokio/src/sync/notify.rs), on which the status
    of a function and the completions of an endpoint are waited for: a permit that
    [notify_one] leaves, the list of waiting futures, the number of calls of
    [notify_waiters], and the futures made by [notified]. Each operation takes
    effect at one point, where it holds the lock of the list or changes the atomic
    state, so that it is one function here. *)

From stdpp Require Import gmap.
From S2P Require Import Prelude Io.

(** ** The notifier and its futures *)

Inductive NState := EMPTY | WAITING | NOTIFIED.
Inductive Notification := NOne | NAll.

#[global] Instance NState_eq_dec : EqDecision NState.
Proof. solve_decision. Defined.
#[global] Instance Notification_eq_dec : EqDecision Notification.
Proof. solve_decision. Defined.

(** The state and the calls share a machine word, two bits for the state. The
    waiters are the futures in the list, the latest first; [nt_notes] holds what
    the unlinked ones were notified with. *)
Record Notify := {
  nt_state : NState;
  nt_calls : Z;
  nt_waiters : list nat;
  nt_notes : gmap nat Notification;
}.

Definition notify_new : Notify := {| nt_state := EMPTY; nt_calls := 0; nt_waiters := []; nt_notes := ∅ |}.

Inductive FState := FInit | FWaiting | FDone.
Record Notified := { nf_waiter : nat; nf_state : FState; nf_calls : Z }.

Definition set_state (st : NState) (n : Notify) : Notify :=
  {| nt_state := st; nt_calls := nt_calls n; nt_waiters := nt_waiters n; nt_notes := nt_notes n |}.
Definition set_fstate (st : FState) (f : Notified) : Notified :=
  {| nf_waiter := nf_waiter f; nf_state := st; nf_calls := nf_calls f |}.

(** A new future, known by the place of its waiter. *)
Definition notified (w : nat) (n : Notify) : Notified :=
  {| nf_waiter := w; nf_state := FInit; nf_calls := nt_calls n |}.

(** The oldest waiter is notified; without one, the permit is left. *)
Definition notify_locked (n : Notify) : Notify :=
  match nt_state n with
  | EMPTY | NOTIFIED => set_state NOTIFIED n
  | WAITING =>
      match list.last (nt_waiters n) with
      | Some w =>
          let rest := removelast (nt_waiters n) in
          {| nt_state := if bool_decide (rest = []) then EMPTY else WAITING; nt_calls := nt_calls n;
             nt_waiters := rest; nt_notes := <[w := NOne]> (nt_notes n) |}
      | None => n
      end
  end.

Definition notify_one (n : Notify) : Notify :=
  match nt_state n with
  | EMPTY | NOTIFIED => set_state NOTIFIED n
  | WAITING => notify_locked n
  end.

(** All waiters are notified; the permit stays. *)
Definition notify_waiters (n : Notify) : Notify :=
  match nt_state n with
  | EMPTY | NOTIFIED =>
      {| nt_state := nt_state n; nt_calls := wrap 62 (nt_calls n + 1); nt_waiters := nt_waiters n;
         nt_notes := nt_notes n |}
  | WAITING =>
      {| nt_state := EMPTY; nt_calls := wrap 62 (nt_calls n + 1); nt_waiters := [];
         nt_notes := foldr (fun w m => <[w := NAll]> m) (nt_notes n) (nt_waiters n) |}
  end.

Definition enqueue (w : nat) (n : Notify) : Notify :=
  {| nt_state := WAITING; nt_calls := nt_calls n; nt_waiters := w :: nt_waiters n; nt_notes := nt_notes n |}.

(** Takes a waiter off the list and its notification away. *)
Definition unlink (w : nat) (n : Notify) : Notify :=
  {| nt_state := nt_state n; nt_calls := nt_calls n; nt_waiters := filter (fun x => x <> w) (nt_waiters n);
     nt_notes := delete w (nt_notes n) |}.

(** One poll: whether the future is ready, the future and the notifier after it. *)
Definition poll_notified (f : Notified) (n : Notify) : bool * Notified * Notify :=
  match nf_state f with
  | FInit =>
      if negb (nt_calls n =? nf_calls f) then (true, set_fstate FDone f, n) else
      match nt_state n with
      | NOTIFIED => (true, set_fstate FDone f, set_state EMPTY n)
      | EMPTY | WAITING => (false, set_fstate FWaiting f, enqueue (nf_waiter f) n)
      end
  | FWaiting =>
      match nt_notes n !! nf_waiter f with
      | Some _ => (true, set_fstate FDone f, unlink (nf_waiter f) n)
      | None =>
          if negb (nt_calls n =? nf_calls f) then (true, set_fstate FDone f, unlink (nf_waiter f) n)
          else (false, f, n)
      end
  | FDone => (true, f, n)
  end.

(** The state of an empty list. *)
Definition relax (n : Notify) : Notify :=
  if bool_decide (nt_waiters n = []) && bool_decide (nt_state n = WAITING) then set_state EMPTY n else n.

(** A future that was notified with the permit but never polled again passes it
    on. *)
Definition drop_notified (f : Notified) (n : Notify) : Notify :=
  match nf_state f with
  | FWaiting =>
      let note := nt_notes n !! nf_waiter f in
      let n := relax (unlink (nf_waiter f) n) in
      match note with
      | Some NOne => notify_locked n
      | _ => n
      end
  | _ => n
  end.

(** ** One notifier and its live futures *)

Record NSys := { sy_notify : Notify; sy_futures : gmap nat Notified }.

Inductive sys_step : NSys -> NSys -> Prop :=
| sys_notified w s : sy_futures s !! w = None ->
    sys_step s {| sy_notify := sy_notify s; sy_futures := <[w := notified w (sy_notify s)]> (sy_futures s) |}
| sys_notify_one s : sys_step s {| sy_notify := notify_one (sy_notify s); sy_futures := sy_futures s |}
| sys_notify_waiters s : sys_step s {| sy_notify := notify_waiters (sy_notify s); sy_futures := sy_futures s |}
| sys_poll w f s : sy_futures s !! w = Some f ->
    sys_step s {| sy_notify := (poll_notified f (sy_notify s)).2;
                  sy_futures := <[w := (poll_notified f (sy_notify s)).1.2]> (sy_futures s) |}
| sys_drop w f s : sy_futures s !! w = Some f ->
    sys_step s {| sy_notify := drop_notified f (sy_notify s); sy_futures := delete w (sy_futures s) |}.

(** Each waiting future is in the list or notified, never both; the list is what
    the state says, and its futures saw every broadcast. *)
Record notify_wf (s : NSys) : Prop := {
  wf_state : nt_state (sy_notify s) = WAITING <-> nt_waiters (sy_notify s) <> [];
  wf_nodup : NoDup (nt_waiters (sy_notify s));
  wf_name w f : sy_futures s !! w = Some f -> nf_waiter f = w;
  wf_listed w : w ∈ nt_waiters (sy_notify s) ->
    nt_notes (sy_notify s) !! w = None /\
    exists f, sy_futures s !! w = Some f /\ nf_state f = FWaiting /\ nf_calls f = nt_calls (sy_notify s);
  wf_noted w : is_Some (nt_notes (sy_notify s) !! w) ->
    exists f, sy_futures s !! w = Some f /\ nf_state f = FWaiting;
  wf_waiting w f : sy_futures s !! w = Some f -> nf_state f = FWaiting ->
    w ∈ nt_waiters (sy_notify s) \/ is_Some (nt_notes (sy_notify s) !! w);
}.

Lemma last_split {A} (l : list A) x : list.last l = Some x -> l = removelast l ++ [x].
Proof.
  intros Hl. apply last_Some in Hl as [l' ->]. by rewrite removelast_last.
Qed.

Lemma notes_foldr (ws : list nat) (m : gmap nat Notification) w :
  foldr (fun w m => <[w := NAll]> m) m ws !! w = if decide (w ∈ ws) then Some NAll else m !! w.
Proof.
  induction ws as [|x ws IH]; cbn; [done|]. rewrite lookup_insert, IH.
  repeat case_decide; set_solver.
Qed.

Lemma notify_one_locked n : notify_one n = notify_locked n.
Proof. unfold notify_one, notify_locked. by destruct (nt_state n). Qed.

Lemma wf_notify_locked n fs :
  notify_wf {| sy_notify := n; sy_futures := fs |} -> notify_wf {| sy_notify := notify_locked n; sy_futures := fs |}.
Proof.
  intros [Hst Hnd Hname Hl Hn Hw]. cbn in *. unfold notify_locked. destruct (nt_state n) eqn:E.
  1, 3: split; cbn; [|done..]; split; [done|]; intros Hne; by apply Hst in Hne.
  destruct (list.last (nt_waiters n)) as [w|] eqn:El; [|by split; cbn; rewrite ?E].
  apply last_split in El. set (rest := removelast (nt_waiters n)) in *. rewrite El in *.
  apply list.NoDup_app in Hnd as (Hnd & Hdis & _). split; cbn.
  - case_bool_decide as Hr; [by rewrite Hr|]. done.
  - done.
  - done.
  - intros x Hx. destruct (Hl x) as [Hnone Hf]; [set_solver|]. split; [|done].
    rewrite lookup_insert_ne; [done|]. intros ->. by apply (Hdis x); [|apply list_elem_of_singleton].
  - intros x. destruct (decide (x = w)) as [->|Hne].
    + intros _. destruct (Hl w) as (_ & f & Hf & Hs & _); [set_solver|]. by exists f.
    + rewrite lookup_insert_ne by done. apply Hn.
  - intros x f Hf Hs. destruct (decide (x = w)) as [->|Hne]; [right; by rewrite lookup_insert_eq|].
    rewrite lookup_insert_ne by done. destruct (Hw x f Hf Hs) as [Hx|]; [|by right]. set_solver.
Qed.

Lemma wf_notify_waiters n fs :
  notify_wf {| sy_notify := n; sy_futures := fs |} -> notify_wf {| sy_notify := notify_waiters n; sy_futures := fs |}.
Proof.
  intros [Hst Hnd Hname Hl Hn Hw]. cbn in *. unfold notify_waiters.
  destruct (nt_state n) eqn:E.
  1, 3: assert (nt_waiters n = []) as Hnil by (destruct (nt_waiters n); [done|]; assert (_ = WAITING) by (by apply Hst); congruence);
    rewrite Hnil in *; split; cbn; rewrite ?Hnil; try done; set_solver.
  split; cbn; try done.
  - constructor.
  - set_solver.
  - intros w. rewrite notes_foldr. case_decide as Hd; [|apply Hn]. intros _.
    destruct (Hl w Hd) as (_ & f & Hf & Hs & _). by exists f.
  - intros w f Hf Hs. right. rewrite notes_foldr. case_decide; [done|]. by destruct (Hw w f Hf Hs).
Qed.

(** A future that stops waiting. *)
Lemma wf_unlink n fs fs' w :
  notify_wf {| sy_notify := n; sy_futures := fs |} ->
  (forall x, x <> w -> fs' !! x = fs !! x) ->
  (forall f, fs' !! w = Some f -> nf_waiter f = w /\ nf_state f <> FWaiting) ->
  notify_wf {| sy_notify := relax (unlink w n); sy_futures := fs' |}.
Proof.
  intros [Hst Hnd Hname Hl Hn Hw] Hother Hself. cbn in *.
  assert (nt_waiters (relax (unlink w n)) = filter (fun x => x <> w) (nt_waiters n) /\
          nt_notes (relax (unlink w n)) = delete w (nt_notes n) /\
          nt_calls (relax (unlink w n)) = nt_calls n) as (Ew & En & Ec) by (unfold relax; by destruct (_ && _)).
  split; cbn; rewrite ?Ew, ?En, ?Ec.
  - unfold relax. cbn. case_bool_decide as H1; cbn; cbn in H1; [case_bool_decide as H2; by rewrite H1|].
    cbn in H1. split; [done|]. intros _. apply Hst. intros Hnil. by rewrite Hnil in H1.
  - by apply list.NoDup_filter.
  - intros x f Hf. destruct (decide (x = w)) as [->|Hne]; [by apply Hself|]. rewrite Hother in Hf by done. by apply Hname.
  - intros x [Hne Hx]%list_elem_of_filter. rewrite lookup_delete_ne, Hother by done. by apply Hl.
  - intros x. destruct (decide (x = w)) as [->|Hne]; [rewrite lookup_delete_eq; by intros []|].
    rewrite lookup_delete_ne, Hother by done. apply Hn.
  - intros x f Hf Hs. destruct (decide (x = w)) as [->|Hne]; [by destruct (Hself f Hf)|].
    rewrite lookup_delete_ne by done. rewrite Hother in Hf by done.
    destruct (Hw x f Hf Hs); [left; by apply list_elem_of_filter|by right].
Qed.

Lemma relax_noted n fs w :
  notify_wf {| sy_notify := n; sy_futures := fs |} -> is_Some (nt_notes n !! w) -> relax (unlink w n) = unlink w n.
Proof.
  intros [Hst _ _ Hl _ _] [x Hx]. cbn in *. unfold relax. case_bool_decide as H1; [|done].
  case_bool_decide as H2; [|done]. exfalso. cbn in H1, H2. apply Hst in H2. apply H2.
  destruct (nt_waiters n) as [|y l] eqn:E; [done|]. rewrite <- E in *.
  assert (w <> y) as Hne by (intros ->; destruct (Hl y) as [Hnone _]; [rewrite E; set_solver|]; congruence).
  assert (y ∈ filter (fun x => x <> w) (nt_waiters n)) as Hy by (apply list_elem_of_filter; split; [done|]; rewrite E; set_solver).
  rewrite H1 in Hy. set_solver.
Qed.

Lemma wf_poll n fs w f :
  notify_wf {| sy_notify := n; sy_futures := fs |} -> fs !! w = Some f ->
  notify_wf {| sy_notify := (poll_notified f n).2; sy_futures := <[w := (poll_notified f n).1.2]> fs |}.
Proof.
  intros Hwf Hf. pose proof Hwf as [Hst Hnd Hname Hl Hn Hw]. cbn in *. pose proof (Hname _ _ Hf) as Ew.
  assert (forall g, nf_state f <> FWaiting -> nf_waiter g = w -> nf_state g <> FWaiting ->
    notify_wf {| sy_notify := n; sy_futures := <[w := g]> fs |}) as Hkeep.
  { intros g Hnf Hg Hs. split; cbn; try done.
    - intros x h. rewrite lookup_insert. case_decide; [intros [= <-]; congruence|apply Hname].
    - intros x Hx. destruct (Hl x Hx) as (Hnone & h & Hh & ? & ?). split; [done|]. exists h.
      rewrite lookup_insert_ne; [done|]. intros ->. congruence.
    - intros x Hx. destruct (Hn x Hx) as (h & Hh & ?). exists h. rewrite lookup_insert_ne; [done|]. intros ->. congruence.
    - intros x h. rewrite lookup_insert. case_decide; [intros [= <-]; done|apply Hw]. }
  unfold poll_notified. destruct (nf_state f) eqn:Es.
  - destruct (nt_calls n =? nf_calls f) eqn:Ec; cbn; [|by apply Hkeep].
    apply Z.eqb_eq in Ec.
    assert (w ∉ nt_waiters n) as Hnew by (intros Hx; destruct (Hl w Hx) as (_ & h & Hh & ? & _); congruence).
    assert (nt_notes n !! w = None) as Hnote.
    { destruct (nt_notes n !! w) eqn:E; [|done]. destruct (Hn w) as (h & Hh & ?); [by eexists|]. congruence. }
    assert (notify_wf {| sy_notify := enqueue w n; sy_futures := <[w := set_fstate FWaiting f]> fs |}) as Hq.
    { split; cbn; [done|by apply NoDup_cons_2|..].
      - intros x h. rewrite lookup_insert. case_decide; [intros [= <-]; cbn; congruence|apply Hname].
      - intros x [->|Hx]%elem_of_cons.
        + split; [done|]. eexists. rewrite lookup_insert_eq. done.
        + destruct (Hl x Hx) as (Hnone & h & Hh & ?). split; [done|]. exists h. rewrite lookup_insert_ne; [done|]. by intros ->.
      - intros x Hx. destruct (Hn x Hx) as (h & Hh & ?). exists h. rewrite lookup_insert_ne; [done|]. intros ->. congruence.
      - intros x h. rewrite lookup_insert. case_decide; [subst; left; set_solver|].
        intros Hh Hs. destruct (Hw x h Hh Hs); [left; set_solver|by right]. }
    destruct (nt_state n) eqn:En; cbn; [by rewrite Ew..|].
    destruct (Hkeep (set_fstate FDone f)) as [Hst' ? ? ? ? ?]; [done..|]. split; cbn in *; try done.
    split; [done|]. intros Hne. by apply Hst' in Hne; rewrite En in Hne.
  - rewrite Ew. destruct (nt_notes n !! w) eqn:Enote; cbn.
    + erewrite <- relax_noted; [|done|by eexists]. eapply wf_unlink; [done|intros; by rewrite lookup_insert_ne|].
      rewrite lookup_insert_eq. intros g [= <-]. by split.
    + destruct (Hw w f Hf Es) as [Hx|[? ?]]; [|congruence].
      destruct (Hl w Hx) as (_ & h & Hh & _ & Hc). assert (h = f) as -> by congruence.
      rewrite Hc, Z.eqb_refl. cbn. by rewrite insert_id.
  - cbn. by rewrite insert_id.
Qed.

Lemma wf_drop n fs w f :
  notify_wf {| sy_notify := n; sy_futures := fs |} -> fs !! w = Some f ->
  notify_wf {| sy_notify := drop_notified f n; sy_futures := delete w fs |}.
Proof.
  intros Hwf Hf. pose proof Hwf as [Hst Hnd Hname Hl Hn Hw]. cbn in *. pose proof (Hname _ _ Hf) as Ew.
  unfold drop_notified. destruct (nf_state f) eqn:Es.
  2: { assert (notify_wf {| sy_notify := relax (unlink w n); sy_futures := delete w fs |}) as Hu.
       { eapply wf_unlink; [done|intros; by rewrite lookup_delete_ne|by rewrite lookup_delete_eq]. }
       rewrite Ew. destruct (nt_notes n !! w) as [[]|]; [by apply wf_notify_locked|done..]. }
  all: split; cbn; try done;
    [intros x h; rewrite lookup_delete_Some; intros [? ?]; by apply Hname
    |intros x Hx; destruct (Hl x Hx) as (Hnone & h & Hh & ? & ?); split; [done|]; exists h; rewrite lookup_delete_ne;
       [done|]; intros ->; congruence
    |intros x Hx; destruct (Hn x Hx) as (h & Hh & ?); exists h; rewrite lookup_delete_ne; [done|]; intros ->; congruence
    |intros x h; rewrite lookup_delete_Some; intros [? ?]; by apply Hw].
Qed.

Lemma wf_step s s' : sys_step s s' -> notify_wf s -> notify_wf s'.
Proof.
  intros [w s0 Hnone|s0|s0|w f s0 Hf|w f s0 Hf] Hwf; destruct s0 as [n fs]; cbn in *.
  - destruct Hwf as [Hst Hnd Hname Hl Hn Hw]. cbn in *. split; cbn; try done.
    + intros x h. rewrite lookup_insert. case_decide; [by intros [= <-]|apply Hname].
    + intros x Hx. destruct (Hl x Hx) as (? & h & Hh & ? & ?). split; [done|]. exists h.
      rewrite lookup_insert_ne; [done|]. intros ->. congruence.
    + intros x Hx. destruct (Hn x Hx) as (h & Hh & ?). exists h. rewrite lookup_insert_ne; [done|]. intros ->. congruence.
    + intros x h. rewrite lookup_insert. case_decide; [by intros [= <-]|apply Hw].
  - rewrite notify_one_locked. by apply wf_notify_locked.
  - by apply wf_notify_waiters.
  - by apply wf_poll.
  - by apply wf_drop.
Qed.

(** ** Notifications are not lost *)

(** A permit is left, or on its way to a future. *)
Definition pending (n : Notify) : Prop :=
  nt_state n = NOTIFIED \/ exists w, nt_notes n !! w = Some NOne.

Definition ready (f : Notified) (n : Notify) : bool := (poll_notified f n).1.1.

Definition sys_new : NSys := {| sy_notify := notify_new; sy_futures := ∅ |}.

Lemma wf_reachable s : rtc sys_step sys_new s -> notify_wf s.
Proof.
  intros Hr. assert (notify_wf sys_new) as H0.
  { split; cbn; [done|constructor|set_solver|set_solver|by intros w []|set_solver]. }
  revert H0. induction Hr as [|x y z Hxy _ IH]; [done|]. intros Hx. by apply IH, (wf_step x).
Qed.

Lemma locked_pending n fs : notify_wf {| sy_notify := n; sy_futures := fs |} -> pending (notify_locked n).
Proof.
  intros [Hst _ _ _ _ _]. cbn in Hst. unfold notify_locked. destruct (nt_state n) eqn:E; [by left| |by left].
  destruct (list.last (nt_waiters n)) as [w|] eqn:El; [right; exists w; cbn; by rewrite lookup_insert_eq|].
  apply last_None in El. exfalso. by apply Hst.
Qed.

Lemma drop_pending n fs w f :
  notify_wf {| sy_notify := n; sy_futures := fs |} -> fs !! w = Some f -> pending n -> pending (drop_notified f n).
Proof.
  intros Hwf Hf Hp. pose proof Hwf as [Hst _ Hname Hl _ _]. cbn in *. pose proof (Hname _ _ Hf) as Ew.
  unfold drop_notified. destruct (nf_state f) eqn:Es; [done| |done]. rewrite Ew.
  assert (notify_wf {| sy_notify := relax (unlink w n); sy_futures := delete w fs |}) as Hu.
  { eapply wf_unlink; [done|intros; by rewrite lookup_delete_ne|by rewrite lookup_delete_eq]. }
  destruct (nt_notes n !! w) as [[]|] eqn:En; [by eapply locked_pending| |];
    (assert (nt_state n = NOTIFIED -> pending (relax (unlink w n))) as Hst' by
       (intros E; left; unfold relax; rewrite (bool_decide_false (nt_state _ = _)) by (by cbn; rewrite E);
        by rewrite andb_false_r);
     assert (nt_notes (relax (unlink w n)) = delete w (nt_notes n)) as Hn by (unfold relax; by destruct (_ && _));
     destruct Hp as [Hp|[x Hx]]; [by apply Hst'|right; exists x; rewrite Hn, lookup_delete_ne by congruence; done]).
Qed.

(** Notifications are not lost, for any number of futures made, polled and
    dropped in any order: after [notify_one] there is a permit; what is done to
    the futures keeps it, also when the future it was given to is dropped, except
    for a poll that returns ready; and after [notify_waiters] every future that
    was waiting, or made since the last call and not yet polled, is ready. *)
Theorem notifications_kept s s' :
  rtc sys_step sys_new s ->
  pending (notify_one (sy_notify s)) /\
  (sys_step s s' -> pending (sy_notify s) ->
     pending (sy_notify s') \/
     exists w f, sy_futures s !! w = Some f /\ ready f (sy_notify s) = true /\
       s' = {| sy_notify := (poll_notified f (sy_notify s)).2;
               sy_futures := <[w := (poll_notified f (sy_notify s)).1.2]> (sy_futures s) |}) /\
  (forall w f, sy_futures s !! w = Some f ->
     nf_state f = FWaiting \/ nf_calls f <> wrap 62 (nt_calls (sy_notify s) + 1) ->
     ready f (notify_waiters (sy_notify s)) = true).
Proof.
  intros Hwf%wf_reachable. destruct s as [n fs]. split_and!.
  - rewrite notify_one_locked. by eapply locked_pending.
  - intros Hs Hp. inversion Hs; subst; cbn in *; [by left|left; rewrite notify_one_locked; by eapply locked_pending| | |].
    + left. unfold notify_waiters. destruct Hp as [E|[w Hw]]; [rewrite E; by left|].
      destruct (nt_state n) eqn:E; [right; by exists w| |by left]. right. exists w. cbn. rewrite notes_foldr.
      case_decide as Hd; [|done]. destruct Hwf as [_ _ _ Hl _ _]. destruct (Hl w Hd) as [Hnone _]. cbn in Hnone. congruence.
    + destruct (ready f n) eqn:Er; [right; by exists w, f|left]. revert Er. unfold ready, poll_notified.
      destruct (nf_state f); [| |done].
      * destruct (nt_calls n =? nf_calls f); cbn; [|done].
        destruct (nt_state n) eqn:E; cbn; [intros _; right; destruct Hp as [?|?]; [congruence|done]..|done].
      * destruct (nt_notes n !! nf_waiter f); [done|]. by destruct (nt_calls n =? nf_calls f).
    + left. by eapply drop_pending.
  - intros w f Hf Hc. cbn in *. destruct Hwf as [Hst _ Hname _ _ Hw]. cbn in *. pose proof (Hname _ _ Hf) as Ew.
    unfold ready, poll_notified. destruct (nf_state f) eqn:Es; [| |done].
    + destruct Hc as [|Hc]; [done|].
      assert (nt_calls (notify_waiters n) = wrap 62 (nt_calls n + 1)) as -> by (unfold notify_waiters; by destruct (nt_state n)).
      by rewrite (proj2 (Z.eqb_neq _ _)) by congruence.
    + rewrite Ew.
      assert (is_Some (nt_notes (notify_waiters n) !! w)) as [x ->]; [|done]. unfold notify_waiters.
      destruct (Hw w f Hf Es) as [Hl|Hn].
      * rewrite (proj2 Hst) by (intros E; rewrite E in Hl; set_solver). cbn. rewrite notes_foldr. by rewrite decide_True.
      * destruct (nt_state n); cbn; [done| |done]. rewrite notes_foldr. by case_decide.
Qed.

(** A future that waits, dropped after it was given the permit. *)
Definition demo_sys : NSys :=
  let n := (poll_notified (notified 0 notify_new) notify_new).2 in
  {| sy_notify := notify_one n; sy_futures := {[ 0%nat := set_fstate FWaiting (notified 0 notify_new) ]} |}.

Lemma demo_sys_reachable : rtc sys_step sys_new demo_sys.
Proof.
  eapply rtc_l; [by apply (sys_notified 0)|].
  eapply rtc_l; [apply (sys_poll 0 (notified 0 notify_new)); reflexivity|].
  apply rtc_once. exact (sys_notify_one _).
Qed.

Lemma notifications_kept_witness :
  let s' := {| sy_notify := drop_notified (set_fstate FWaiting (notified 0 notify_new)) (sy_notify demo_sys);
               sy_futures := delete 0%nat (sy_futures demo_sys) |} in
  pending (sy_notify demo_sys) /\
  (pending (sy_notify s') \/
   exists w f, sy_futures demo_sys !! w = Some f /\ ready f (sy_notify demo_sys) = true /\
     s' = {| sy_notify := (poll_notified f (sy_notify demo_sys)).2;
             sy_futures := <[w := (poll_notified f (sy_notify demo_sys)).1.2]> (sy_futures demo_sys) |}).
Proof.
  assert (pending (sy_notify demo_sys)) as Hp by (right; exists 0%nat; reflexivity).
  intros s'. split; [exact Hp|].
  destruct (notifications_kept demo_sys s' demo_sys_reachable) as (_ & Hk & _).
  apply Hk; [|exact Hp]. apply sys_drop. reflexivity.
Defined.

(** With broadcasts alone, a future is ready exactly when one came after it was
    made, polled before or not. *)
Lemma broadcasts_calls k n :
  nt_calls n = 0 -> Z.of_nat k < 2 ^ 62 -> nt_calls (Nat.iter k notify_waiters n) = Z.of_nat k.
Proof.
  intros H0. induction k as [|k IH]; intros Hk; [done|]. cbn [Nat.iter nat_rect].
  change (nt_calls (notify_waiters (Nat.iter k notify_waiters n)) = Z.of_nat (S k)).
  assert (forall m, nt_calls (notify_waiters m) = wrap 62 (nt_calls m + 1)) as -> by (intros m; unfold notify_waiters; by destruct (nt_state m)).
  rewrite IH by lia. rewrite wrap_small; lia.
Qed.

Lemma broadcasts_ready w k n :
  nt_state n = EMPTY -> nt_calls n = 0 -> Z.of_nat k < 2 ^ 62 ->
  ready (notified w n) (Nat.iter k notify_waiters n) = (0 <? k)%nat.
Proof.
  intros Hs H0 Hk. unfold ready, poll_notified. cbn [notified nf_state nf_calls]. rewrite broadcasts_calls, H0 by done.
  destruct k as [|k]; [cbn; by rewrite Hs|]. rewrite (proj2 (Z.eqb_neq _ _)) by lia. done.
Qed.
