(* ===== verification/AioWait.v ===== *)
(** * Waiting for completions

    Models how a task waits for the completions of an endpoint's driver:
    [Driver::wait_completed] of
    patches/usb-gadget/src/function/custom/aio/mod.rs, which looks at the channel
    of results and otherwise awaits the notifier, and the notifications of the
    driver's thread, each sent after a result. The thread, the kernel and the
    waiting task run concurrently on the state of [Aio], with the notifier of
    [Notify]; the blocking calls wait on the channel itself. *)

From stdpp Require Import gmap.
From S2P Require Import Prelude Io Bytes Aio Notify.

(** ** Blocking calls *)

(** [completed] blocks while the channel is empty: the result of the call when it
    can return. *)
Definition completed (s : St) : option (option CompletedOp * St) :=
  if is_empty s then Some (None, s) else
  match done_ s with [] => None | _ => Some (try_completed s) end.

(** [recv_timeout] gives up on an empty channel. *)
Definition completed_timeout (s : St) : option CompletedOp * St :=
  if is_empty s then (None, s) else try_completed s.

(** ** The waiting task *)

(** Where the task is: outside the call, before its look at the channel, about to
    await the notifier, awaiting it, or returned. *)
Inductive Waiter :=
| TIdle
| TCheck
| TEmpty
| TAwait (f : Notified)
| TReturned (r : option CompletedOp).

(** The driver and its thread, the notifications the thread still owes for the
    results it sent, the notifier, and the task. *)
Record WSt := {
  w_aio : St;
  w_owed : nat;
  w_notify : Notify;
  w_task : Waiter;
}.

Definition with_task (t : Waiter) (s : WSt) : WSt :=
  {| w_aio := w_aio s; w_owed := w_owed s; w_notify := w_notify s; w_task := t |}.

(** [wait_completed]: one turn of the task, up to its next access to shared
    state; nothing if it has returned or is not in the call. *)
Definition task_turn (s : WSt) : option WSt :=
  match w_task s with
  | TIdle | TReturned _ => None
  | TCheck =>
      let (r, a) := try_completed (w_aio s) in
      Some {| w_aio := a; w_owed := w_owed s; w_notify := w_notify s;
              w_task := match r with Some op => TReturned (Some op) | None => TEmpty end |}
  | TEmpty =>
      let '(ready, f, n) := poll_notified (notified 0 (w_notify s)) (w_notify s) in
      Some {| w_aio := w_aio s; w_owed := w_owed s; w_notify := n; w_task := if ready then TCheck else TAwait f |}
  | TAwait f =>
      let '(ready, f, n) := poll_notified f (w_notify s) in
      if ready then Some {| w_aio := w_aio s; w_owed := w_owed s; w_notify := n; w_task := TCheck |} else None
  end.

(** The call: an empty queue has nothing to wait for. *)
Definition task_call (s : WSt) : WSt :=
  with_task (if is_empty (w_aio s) then TReturned None else TCheck) s.

(** The future is dropped, at an await point or before its first poll. *)
Definition task_drop (s : WSt) : WSt :=
  {| w_aio := w_aio s; w_owed := w_owed s;
     w_notify := match w_task s with TAwait f => drop_notified f (w_notify s) | _ => w_notify s end;
     w_task := TIdle |}.

(** The driver is borrowed by the call. *)
Definition in_call (t : Waiter) : bool := match t with TIdle | TReturned _ => false | _ => true end.

(** The steps of the driver's owner, and of the thread and the kernel. *)
Inductive owner_step : St -> St -> Prop :=
| own_submit s buf : pc s = Idle -> is_full s = false -> owner_step s (submit_insert buf s).2
| own_accept s id : pc s = Submitting id -> owner_step s (submit_accept id s)
| own_reject s id : pc s = Submitting id -> owner_step s (submit_reject id s)
| own_completed s : pc s = Idle -> done_ s <> [] -> owner_step s (try_completed s).2
| own_cancel s id : pc s = Idle -> owner_step s (cancel id s)
| own_cancel_all s : pc s = Idle -> owner_step s (cancel_all s)
| own_drop s : pc s = Idle -> owner_step s (drop_cancel s)
| own_close s : pc s = Dropping -> owner_step s (drop_close s).

Inductive other_step : St -> St -> Prop :=
| oth_wake s : phase s = Waiting -> 0 < wake s -> other_step s (thread_wake s)
| oth_cmd s evs : phase s = Commands -> cancels s evs -> other_step s (thread_cmd evs s)
| oth_fetch s : phase s = Fetching -> other_step s (thread_fetch s)
| oth_process s : phase s = Processing -> other_step s (thread_process s)
| oth_complete s e : ev_data e ∈ inflight s -> other_step s (kernel_complete e s).

(** The results a step of the thread sent. *)
Definition sent (a a' : St) : nat := (length (done_ a') - length (done_ a))%nat.

Inductive wstep : WSt -> WSt -> Prop :=
| w_owner s a : in_call (w_task s) = false -> owner_step (w_aio s) a ->
    wstep s {| w_aio := a; w_owed := w_owed s; w_notify := w_notify s; w_task := w_task s |}
| w_thread s a : other_step (w_aio s) a ->
    wstep s {| w_aio := a; w_owed := (w_owed s + sent (w_aio s) a)%nat; w_notify := w_notify s; w_task := w_task s |}
| w_notifies s n : w_owed s = S n ->
    wstep s {| w_aio := w_aio s; w_owed := n; w_notify := notify_one (w_notify s); w_task := w_task s |}
| w_calls s : in_call (w_task s) = false -> pc (w_aio s) = Idle -> wstep s (task_call s)
| w_turn s s' : task_turn s = Some s' -> wstep s s'
| w_drops s : in_call (w_task s) = true -> wstep s (task_drop s).

Definition wnew (len : Z) : WSt :=
  {| w_aio := new len; w_owed := 0; w_notify := notify_new; w_task := TIdle |}.

(** ** The invariant *)

Lemma owner_other_step a a' : step a a' <-> owner_step a a' \/ other_step a a'.
Proof.
  split.
  - intros []; first [by left; constructor|by right; constructor].
  - intros [[]|[]]; by constructor.
Qed.

(** A result that is there has its notification still to come, or the task will
    find the permit, or was given it. *)
Definition covered (s : WSt) : Prop := done_ (w_aio s) <> [] -> (0 < w_owed s)%nat.

(** Only the task's future can be in the list of the notifier, and broadcasts are
    not used. *)
Definition winv (s : WSt) : Prop :=
  nt_calls (w_notify s) = 0 /\
  match w_task s with
  | TAwait f =>
      f = {| nf_waiter := 0; nf_state := FWaiting; nf_calls := 0 |} /\
      ((w_notify s = {| nt_state := WAITING; nt_calls := 0; nt_waiters := [0%nat]; nt_notes := ∅ |} /\ covered s) \/
       (nt_state (w_notify s) <> WAITING /\ nt_waiters (w_notify s) = [] /\ nt_notes (w_notify s) = {[ 0%nat := NOne ]}))
  | t =>
      nt_state (w_notify s) <> WAITING /\ nt_waiters (w_notify s) = [] /\ nt_notes (w_notify s) = ∅ /\
      (t = TEmpty -> nt_state (w_notify s) = NOTIFIED \/ covered s)
  end.

Lemma other_sends a a' : other_step a a' -> exists l, done_ a' = done_ a ++ l.
Proof.
  intros [s ? ?|s evs ? ?|s ?|s ?|s e ?].
  - exists []. by rewrite app_nil_r.
  - unfold thread_cmd. destruct (cmds s) as [|[id b|id|id|] cs]; [|destruct (active s !! id)..| |].
    2-5: exists []; by rewrite app_nil_r.
    1: exists []; rewrite app_nil_r; by destruct (_ && _).
    all: by eexists.
  - exists []. rewrite app_nil_r. unfold thread_fetch. by destruct (ring s).
  - unfold thread_process. destruct (event_queue s) as [|e q]; [exists []; by rewrite app_nil_r|].
    destruct (active s !! ev_data e); [by eexists|exists []; by rewrite app_nil_r].
  - exists []. by rewrite app_nil_r.
Qed.

Lemma covered_thread s a :
  other_step (w_aio s) a -> covered s ->
  covered {| w_aio := a; w_owed := (w_owed s + sent (w_aio s) a)%nat; w_notify := w_notify s; w_task := w_task s |}.
Proof.
  intros [l Hl]%other_sends Hc. unfold covered, sent in *. cbn. rewrite Hl, length_app. intros Hne.
  destruct l as [|x l]; [|cbn; lia]. rewrite app_nil_r in Hne. specialize (Hc Hne). lia.
Qed.

Lemma winv_new len : winv (wnew len).
Proof. by repeat split. Qed.

Lemma winv_turn s s' : task_turn s = Some s' -> winv s -> winv s'.
Proof.
  unfold task_turn, winv. intros Ht [Hc Hi]. destruct (w_task s) as [| | |f|r]; [done| | | |done].
  - destruct Hi as (Hs & Hw & Hn & _). unfold try_completed in Ht.
    destruct (done_ (w_aio s)) as [|c rest] eqn:E; injection Ht as <-; cbn; split_and!; try done.
    intros _. right. unfold covered. cbn. by rewrite E.
  - destruct Hi as (Hs & Hw & Hn & Hcov). unfold poll_notified in Ht. cbn in Ht. rewrite Z.eqb_refl in Ht. cbn in Ht.
    destruct (nt_state (w_notify s)) eqn:E; [|done|]; injection Ht as <-; cbn; [|by split_and!].
    split; [done|]. unfold set_fstate, notified. cbn. rewrite Hc. split; [done|]. left. destruct Hcov as [?|Hcov]; [done|done|].
    split; [|done]. unfold enqueue. by rewrite Hc, Hw, Hn.
  - destruct Hi as [-> [[E _]|(Hs & Hw & Hn)]].
    + by rewrite E in Ht.
    + unfold poll_notified in Ht. cbn [nf_state nf_waiter] in Ht. rewrite Hn, lookup_singleton_eq in Ht.
      injection Ht as <-. cbn. by rewrite Hn, Hw, Hc, delete_singleton_eq.
Qed.

Lemma winv_step s s' : wstep s s' -> winv s -> winv s'.
Proof.
  intros [s0 a Hidle _|s0 a Ha|s0 n Ho|s0 Hidle _|s0 s1 Ht|s0 Hin] Hi.
  - unfold winv in *. cbn. destruct (w_task s0); try done; destruct Hi as (? & ? & ? & ? & _); by split_and!.
  - unfold winv in *. cbn. destruct Hi as [Hc Hi]. split; [done|]. destruct (w_task s0) as [| | |f|r].
    1, 2, 5: destruct Hi as (? & ? & ? & _); by split_and!.
    + destruct Hi as (? & ? & ? & Hcov). split_and!; [done..|]. intros E.
      destruct (Hcov E) as [?|Hx]; [by left|right]. by apply (covered_thread s0 a Ha).
    + destruct Hi as [-> [[E Hcov]|?]]; split; [done| |done|by right]. left. split; [done|]. by apply (covered_thread s0 a Ha).
  - unfold winv in *. cbn. destruct Hi as [Hc Hi].
    assert (nt_calls (notify_one (w_notify s0)) = 0) as Hc'.
    { rewrite notify_one_locked. unfold notify_locked. destruct (nt_state (w_notify s0)); [done| |done].
      by destruct (list.last _). }
    split; [done|]. destruct (w_task s0) as [| | |f|r].
    4: { destruct Hi as [-> [[-> _]|(Hs & Hw & Hn)]]; split; [done|right; by cbn|done|]. right.
         unfold notify_one. destruct (nt_state (w_notify s0)); [by cbn|done|by cbn]. }
    all: destruct Hi as (Hs & Hw & Hn & _); unfold notify_one; destruct (nt_state (w_notify s0)); try done;
      cbn; split_and!; try done; intros _; by left.
  - unfold winv, task_call in *. cbn. destruct Hi as [Hc Hi].
    destruct (w_task s0); try done; destruct (is_empty (w_aio s0)); destruct Hi as (? & ? & ? & _); by split_and!.
  - by eapply winv_turn.
  - unfold winv, task_drop in *. cbn. destruct Hi as [Hc Hi]. destruct (w_task s0) as [| | |f|r]; try done.
    1, 2: destruct Hi as (? & ? & ? & _); by split_and!.
    destruct Hi as [-> [[-> _]|(Hs & Hw & Hn)]]; [by cbn|].
    unfold drop_notified. cbn [nf_state nf_waiter]. rewrite Hn, lookup_singleton_eq. unfold relax.
    rewrite (bool_decide_false (nt_state _ = _)) by done. rewrite andb_false_r. unfold notify_locked. cbn.
    destruct (nt_state (w_notify s0)); try done; cbn; rewrite Hn, Hw, delete_singleton_eq; by split_and!.
Qed.

Lemma winv_reachable len s : rtc wstep (wnew len) s -> winv s.
Proof.
  intros Hr. pose proof (winv_new len) as H0. revert H0.
  induction Hr as [|x y z Hxy _ IH]; [done|]. intros Hx. by apply IH, (winv_step x).
Qed.

(** During the call the driver is not used otherwise, and something is
    outstanding. *)
Definition wcall (s : WSt) : Prop :=
  in_call (w_task s) = true -> is_empty (w_aio s) = false /\ pc (w_aio s) = Idle.

Lemma other_keeps a a' :
  other_step a a' -> space a' = space a /\ queue_length a' = queue_length a /\ pc a' = pc a.
Proof.
  intros [s ? ?|s evs ? ?|s ?|s ?|s e ?]; try done.
  - unfold thread_cmd. destruct (cmds s) as [|[id b|id|id|] cs]; [by destruct (_ && _)|by destruct (active s !! id)..|done|done].
  - unfold thread_fetch. by destruct (ring s).
  - unfold thread_process. destruct (event_queue s) as [|e q]; [done|]. by destruct (active s !! ev_data e).
Qed.

(** A turn of the task takes a result, or leaves the driver as it is. *)
Lemma turn_aio s s' :
  task_turn s = Some s' ->
  w_aio s' = w_aio s \/ (w_task s = TCheck /\ done_ (w_aio s) <> [] /\ w_aio s' = (try_completed (w_aio s)).2 /\
                         in_call (w_task s') = false).
Proof.
  unfold task_turn. destruct (w_task s) as [| | |f|r]; [done| | | |done].
  - unfold try_completed. destruct (done_ (w_aio s)); intros [= <-]; [by left|right; by split_and!].
  - destruct (poll_notified _ _) as [[[] f] n]; intros [= <-]; by left.
  - destruct (poll_notified _ _) as [[[] f'] n]; [intros [= <-]; by left|done].
Qed.

Lemma wcall_step s s' : wstep s s' -> wcall s -> wcall s'.
Proof.
  intros [s0 a Hidle _|s0 a Ha|s0 n Ho|s0 Hidle Hpc|s0 s1 Ht|s0 Hin] Hc; unfold wcall in *; cbn.
  - by rewrite Hidle.
  - intros Hi. destruct (Hc Hi) as [He Hp]. destruct (other_keeps _ _ Ha) as (E1 & E2 & E3).
    unfold is_empty in *. by rewrite E1, E2, E3.
  - done.
  - by destruct (is_empty (w_aio s0)) eqn:E.
  - intros Hi. destruct (turn_aio _ _ Ht) as [->|(_ & _ & _ & Hn)]; [|congruence]. apply Hc.
    unfold task_turn in Ht. by destruct (w_task s0).
  - done.
Qed.

Lemma wstep_aio s s' : wstep s s' -> wcall s -> w_aio s' = w_aio s \/ step (w_aio s) (w_aio s').
Proof.
  intros [s0 a Hidle Ha|s0 a Ha|s0 n Ho|s0 Hidle Hpc|s0 s1 Ht|s0 Hin] Hc; cbn.
  - right. apply owner_other_step. by left.
  - right. apply owner_other_step. by right.
  - by left.
  - by left.
  - destruct (turn_aio _ _ Ht) as [->|(Et & Hd & -> & _)]; [by left|right]. apply step_completed; [|done].
    apply Hc. by rewrite Et.
  - by left.
Qed.

Lemma reachable_call len s : rtc wstep (wnew len) s -> wcall s /\ reachable len (w_aio s).
Proof.
  revert s. apply (rtc_ind_r (fun s => wcall s /\ reachable len (w_aio s))).
  - split; [done|apply rtc_refl].
  - intros x y _ Hxy [Hc Hr]. split; [by eapply wcall_step|].
    destruct (wstep_aio _ _ Hxy Hc) as [->|Hs]; [done|]. by eapply rtc_r.
Qed.

(** ** Theorem *)

Definition turns (s s' : WSt) : Prop := task_turn s = Some s'.

Lemma check_returns s c rest :
  w_task s = TCheck -> done_ (w_aio s) = c :: rest ->
  exists s', turns s s' /\ w_task s' = TReturned (Some c) /\ done_ (w_aio s') = rest.
Proof.
  intros Et Ed. unfold turns, task_turn, try_completed. rewrite Et, Ed. by eexists.
Qed.

(** C27. A task that awaits a completion is not left sleeping: whatever the driver's
    thread and the kernel do meanwhile, and whatever waits were dropped before, as
    soon as a result is in the channel and the thread has sent the notifications
    it owes, the task by itself goes on to return the oldest result; and when the
    task and the thread both sleep with nothing to come, the queue is not empty and
    every outstanding operation is still with the kernel. *)
Theorem wait_completed_returns len s :
  rtc wstep (wnew len) s -> in_call (w_task s) = true -> w_owed s = 0%nat ->
  (forall c rest, done_ (w_aio s) = c :: rest ->
     exists s', rtc turns s s' /\ w_task s' = TReturned (Some c) /\ done_ (w_aio s') = rest) /\
  (submitted (w_aio s) <= 2 ^ 64 -> phase (w_aio s) = Waiting -> wake (w_aio s) = 0 -> task_turn s = None ->
     outstanding (w_aio s) = elements (inflight (w_aio s)) /\ inflight (w_aio s) <> ∅).
Proof.
  intros Hr Hin Ho. pose proof (winv_reachable _ _ Hr) as [Hcalls Hi]. destruct (reachable_call _ _ Hr) as [Hcall Hreach].
  split.
  - intros c rest Hd.
    destruct (w_task s) as [| | |f|r] eqn:Et; [done| | | |done].
    + destruct (check_returns _ _ _ Et Hd) as (s' & Hs & Hrest). exists s'. split; [by apply rtc_once|done].
    + destruct Hi as (_ & _ & _ & Hcov). destruct Hcov as [Hn|Hcov]; [done| |exfalso].
      2: { unfold covered in Hcov. rewrite Ho, Hd in Hcov. by assert (0 < 0)%nat by auto; lia. }
      set (s1 := {| w_aio := w_aio s; w_owed := w_owed s; w_notify := set_state EMPTY (w_notify s); w_task := TCheck |}).
      destruct (check_returns s1 c rest eq_refl Hd) as (s' & Hs & Hrest). exists s'. split; [|done].
      eapply rtc_l; [|by apply rtc_once]. unfold turns, task_turn. rewrite Et. unfold poll_notified. cbn.
      by rewrite Z.eqb_refl, Hn.
    + destruct Hi as [-> [[_ Hcov]|(_ & _ & Hn)]].
      { exfalso. unfold covered in Hcov. rewrite Ho, Hd in Hcov. by assert (0 < 0)%nat by auto; lia. }
      set (s1 := {| w_aio := w_aio s; w_owed := w_owed s; w_notify := unlink 0 (w_notify s); w_task := TCheck |}).
      destruct (check_returns s1 c rest eq_refl Hd) as (s' & Hs & Hrest). exists s'. split; [|done].
      eapply rtc_l; [|by apply rtc_once]. unfold turns, task_turn. rewrite Et. unfold poll_notified.
      cbn [nf_state nf_waiter]. by rewrite Hn, lookup_singleton_eq.
  - intros Hb Hp Hw Ht. destruct (Hcall Hin) as [He Hpc].
    destruct (aio_at_rest len (w_aio s) Hreach Hb Hp Hw) as (_ & _ & _ & Hout); [congruence|].
    assert (done_ (w_aio s) = []) as Hd.
    { destruct (done_ (w_aio s)) as [|c rest] eqn:Hd; [done|]. exfalso. revert Ht. unfold task_turn.
      destruct (w_task s) as [| | |f|r] eqn:Et; try done; [by unfold try_completed; rewrite Hd|by destruct (poll_notified _ _) as [[[] ?] ?]|].
      destruct Hi as [-> [[_ Hcov]|(_ & _ & Hn)]].
      - unfold covered in Hcov. rewrite Ho, Hd in Hcov. by assert (0 < 0)%nat by auto; lia.
      - unfold poll_notified. cbn [nf_state nf_waiter]. by rewrite Hn, lookup_singleton_eq. }
    rewrite Hd, app_nil_r in Hout. split; [done|]. intros Hnil.
    pose proof (inv_space _ (reachable_inv len (w_aio s) Hreach Hb)) as Hspace. rewrite Hout, Hnil, elements_empty in Hspace.
    unfold is_empty in He. cbn in Hspace. lia.
Qed.

(** The thread and the kernel alone. *)
Lemma thread_runs s a :
  rtc other_step (w_aio s) a ->
  rtc wstep s {| w_aio := a; w_owed := (w_owed s + sent (w_aio s) a)%nat; w_notify := w_notify s; w_task := w_task s |}.
Proof.
  intros Hr. remember (w_aio s) as a0 eqn:E. revert s E. induction Hr as [a0|a0 a1 a2 Hstep Hr IH]; intros s E.
  - unfold sent. rewrite Nat.sub_diag, Nat.add_0_r. subst a0. by destruct s.
  - subst a0. pose proof (w_thread s a1 Hstep) as Hw. eapply rtc_l; [exact Hw|]. etrans; [by apply IH|]. cbn.
    assert (exists l, done_ a2 = done_ a1 ++ l) as [l2 E2].
    { clear -Hr. induction Hr as [|x y z Hxy _ [l IH]]; [exists []; by rewrite app_nil_r|].
      destruct (other_sends _ _ Hxy) as [l' E']. exists (l' ++ l). by rewrite IH, E', app_assoc. }
    destruct (other_sends _ _ Hstep) as [l1 E1]. unfold sent. rewrite E2, E1, !length_app.
    replace (w_owed s + (length (done_ (w_aio s)) + length l1 - length (done_ (w_aio s))) +
      (length (done_ (w_aio s)) + length l1 + length l2 - (length (done_ (w_aio s)) + length l1)))%nat
      with (w_owed s + (length (done_ (w_aio s)) + length l1 + length l2 - length (done_ (w_aio s))))%nat by lia.
    apply rtc_refl.
Qed.

Lemma thread_notifies s a n :
  rtc other_step (w_aio s) a -> (w_owed s + sent (w_aio s) a)%nat = S n ->
  rtc wstep s {| w_aio := a; w_owed := n; w_notify := notify_one (w_notify s); w_task := w_task s |}.
Proof.
  intros Hr Hn. eapply rtc_r; [by apply thread_runs|].
  exact (w_notifies {| w_aio := a; w_owed := _; w_notify := w_notify s; w_task := w_task s |} n Hn).
Qed.

(** ** A run *)

(** A read is submitted, the task waits for it and sleeps, the kernel completes
    it, the thread passes the result on and notifies. *)
Definition demo_event : IoEvent := {| ev_data := 0; ev_res := 1; ev_bytes := [Byte.x2a] |}.

Definition demo_waits : WSt :=
  {| w_aio := submit_accept 0 (submit_insert (BRead 8 []) (new 2)).2; w_owed := 0;
     w_notify := (poll_notified (notified 0 notify_new) notify_new).2;
     w_task := TAwait (set_fstate FWaiting (notified 0 notify_new)) |}.

Definition demo_aio : St :=
  thread_process (thread_process (thread_fetch (thread_fetch (thread_cmd [] (thread_cmd [] (thread_wake
    (kernel_complete demo_event (w_aio demo_waits)))))))).

Definition demo_notified : WSt :=
  {| w_aio := demo_aio; w_owed := 0; w_notify := notify_one (w_notify demo_waits); w_task := w_task demo_waits |}.

Lemma demo_waits_reachable : rtc wstep (wnew 2) demo_waits.
Proof.
  eapply rtc_l; [apply w_owner; [done|apply (own_submit _ (BRead 8 [])); done]|].
  eapply rtc_l; [apply w_owner; [done|apply (own_accept _ 0); done]|].
  eapply rtc_l; [by apply w_calls|]. eapply rtc_l; [by apply w_turn|]. eapply rtc_l; [by apply w_turn|]. apply rtc_refl.
Qed.

Lemma demo_aio_runs : rtc other_step (w_aio demo_waits) demo_aio.
Proof.
  eapply rtc_l; [apply (oth_complete _ demo_event), elem_of_union_l, elem_of_singleton; reflexivity|].
  eapply rtc_l; [apply oth_wake; vm_compute; reflexivity|].
  do 2 (eapply rtc_l; [apply (oth_cmd _ []); vm_compute; reflexivity|]).
  do 2 (eapply rtc_l; [apply oth_fetch; vm_compute; reflexivity|]).
  do 2 (eapply rtc_l; [apply oth_process; vm_compute; reflexivity|]). unfold demo_aio. apply rtc_refl.
Qed.

Lemma demo_notified_reachable : rtc wstep (wnew 2) demo_notified.
Proof.
  etrans; [apply demo_waits_reachable|]. apply (thread_notifies demo_waits demo_aio 0 demo_aio_runs).
  vm_compute. reflexivity.
Qed.

Lemma demo_done : done_ (w_aio demo_notified) = [complete (BRead 8 []) demo_event].
Proof. vm_compute. reflexivity. Qed.

Lemma wait_completed_returns_witness :
  exists s', rtc turns demo_notified s' /\ w_task s' = TReturned (Some (complete (BRead 8 []) demo_event)).
Proof.
  destruct (wait_completed_returns 2 demo_notified demo_notified_reachable eq_refl eq_refl) as [Hret _].
  destruct (Hret _ _ demo_done) as (s' & Hs & Ht & _). exists s'. split; [exact Hs|exact Ht].
Defined.
