(* ===== verification/Endpoint.v ===== *)
(** * Endpoints

    Models the endpoints of patches/usb-gadget/src/function/custom/mod.rs, the
    sender and the receiver that queue buffers with the AIO driver, and the value
    channel of function/util.rs that hands them the endpoint's files. The driver
    is the interface [AioDriver]: its operations, and as [AioLaws] that every accepted
    operation is delivered once, in order. AioQueue.v shows them of the driver of
    Aio.v. *)

From stdpp Require Import base list.
From S2P Require Import Prelude Io Bytes FfsDesc FfsBuild Aio.

(** ** The value channel *)

(** A receiver waits for its value, holds it, or has given it away. *)
Inductive Value (T : Type) :=
| Receiving (sent : option T) (sender_alive : bool)
| Received (v : T)
| Taken.
Arguments Receiving {T}. Arguments Received {T}. Arguments Taken {T}.

Inductive RecvError := REmpty | RDisconnected | RTaken.

Definition recv_error_io (e : RecvError) : io_error :=
  match e with
  | REmpty => Custom KWouldBlock "value was not yet sent"
  | RDisconnected => Custom KBrokenPipe "no value was sent"
  | RTaken => other "value was taken"
  end.

Definition value_get {T} (s : Value T) : result T RecvError * Value T :=
  match s with
  | Receiving (Some v) _ => (Ok v, Received v)
  | Receiving None true => (Err REmpty, s)
  | Receiving None false => (Err RDisconnected, s)
  | Received v => (Ok v, s)
  | Taken => (Err RTaken, Taken)
  end.

Definition value_take {T} (s : Value T) : result T RecvError * Value T :=
  match value_get s with
  | (Ok v, _) => (Ok v, Taken)
  | (Err e, s) => (Err e, s)
  end.

(** [Sender::send] takes the sender's half: it sends once. *)
Definition value_send {T} (v : T) (s : Value T) : option (Value T) :=
  match s with Receiving None true => Some (Receiving (Some v) false) | _ => None end.

(** What was sent is what every [get] returns, until it is taken. *)
Lemma value_get_sent {T} (v : T) s s' : value_send v s = Some s' ->
  (value_get s').1 = Ok v /\ (value_get (value_get s').2).1 = Ok v /\
  (value_take s').1 = Ok v /\ (value_get (value_take s').2).1 = Err RTaken.
Proof. destruct s as [[] []| |]; cbn; try done. by intros [= <-]. Qed.

(** ** The driver *)

(** [q_fate] is what the operations in the queue come to, in the order they will
    be delivered. *)
Class AioDriver (D : Type) := {
  q_len : D -> nat;
  q_full : D -> bool;
  q_empty : D -> bool;
  q_submit : Buffer -> D -> io_result unit * D;
  q_completed : D -> option (io_result Buffer) * D;
  q_completed_timeout : Z -> D -> option (io_result Buffer) * D;
  q_try_completed : D -> option (io_result Buffer) * D;
  q_cancel_all : D -> D;
  q_fate : D -> list (io_result Buffer);
}.

(** Takes the first result, or nothing. *)
Definition takes {D} `{AioDriver D} (d : D) (o : option (io_result Buffer) * D) : Prop :=
  q_len o.2 = q_len d /\
  match o.1 with Some r => q_fate d = r :: q_fate o.2 | None => q_fate o.2 = q_fate d end.

Class AioLaws {D} `(AioDriver D) : Prop := {
  full_law d : q_full d = (q_len d <=? length (q_fate d))%nat;
  empty_law d : q_empty d = (length (q_fate d) =? 0)%nat;
  submit_law b d :
    q_len (q_submit b d).2 = q_len d /\
    match (q_submit b d).1 with
    | Ok _ => (length (q_fate d) < q_len d)%nat /\ exists r, q_fate (q_submit b d).2 = q_fate d ++ [r]
    | Err e => q_fate (q_submit b d).2 = q_fate d
    end;
  completed_law d : takes d (q_completed d) /\ ((q_completed d).1 = None -> q_fate d = []);
  completed_timeout_law t d : takes d (q_completed_timeout t d);
  try_completed_law d : takes d (q_try_completed d);
  cancel_all_law d : q_len (q_cancel_all d) = q_len d /\ length (q_fate (q_cancel_all d)) = length (q_fate d);
}.

(** ** Endpoints *)

(** The files, once registered, are gone when the gadget is removed. *)
Record Ep (D : Type) := { ep_io : io_result unit; ep_file : bool; ep_aio : D }.
Arguments ep_io {D}. Arguments ep_file {D}. Arguments ep_aio {D}.

Definition removed_error : io_error := Custom KBrokenPipe "USB gadget was removed".

Section Endpoint.
Context {D : Type} `{AioDriver D}.
Abbreviation E := (Ep D).

Definition io_get : M E unit := do! r := gets ep_io in lift r.
Definition io_file : M E unit := do! f := gets ep_file in if f then ret tt else throw removed_error.

(** A call of the driver. *)
Definition aio_call {A} (op : D -> A * D) : M E A := fun e =>
  let (a, d) := op (ep_aio e) in (Ok a, {| ep_io := ep_io e; ep_file := ep_file e; ep_aio := d |}).

Definition aio_submit (b : Buffer) : M E unit := do! r := aio_call (q_submit b) in lift r.

Definition is_ready : M E bool :=
  do! r := attempt io_get in
  match r with Err _ => ret false | Ok _ => gets (fun e => negb (q_full (ep_aio e))) end.

Definition is_empty : M E bool :=
  do! r := attempt io_get in
  match r with Err _ => ret true | Ok _ => gets (fun e => q_empty (ep_aio e)) end.

(** A loop over the queue ends after as many turns as the queue is long. *)
Definition out_of_turns : io_error := other "the queue was longer than its length".

(** *** The sender *)

(** [while is_full() { next()?.result()? }]. *)
Fixpoint until_space (fuel : nat) (next : M E (io_result Buffer)) : M E unit :=
  do! full := gets (fun e => q_full (ep_aio e)) in
  if negb full then ret tt else
  match fuel with
  | O => throw out_of_turns
  | S fuel => do! r := next in do! _ := lift r in until_space fuel next
  end.

(** [while let Some(comp) = next() { comp.result()? }]. *)
Fixpoint drain (fuel : nat) (next : D -> option (io_result Buffer) * D) : M E unit :=
  do! c := aio_call next in
  match c, fuel with
  | None, _ => ret tt
  | Some _, O => throw out_of_turns
  | Some r, S fuel => do! _ := lift r in drain fuel next
  end.

(** [completed().unwrap()]: a full queue is not empty. *)
Definition next_completed : M E (io_result Buffer) :=
  do! c := aio_call q_completed in
  match c with Some r => ret r | None => throw (other "called Option::unwrap on a None value") end.

Definition next_completed_timeout (timeout : Z) : M E (io_result Buffer) :=
  do! c := aio_call (q_completed_timeout timeout) in
  match c with Some r => ret r | None => throw (Custom KTimedOut "timeout waiting for send space") end.

Definition turns : M E nat := gets (fun e => S (q_len (ep_aio e))).

Definition ready : M E unit := io_get >>; do! n := turns in until_space n next_completed.
Definition ready_timeout (timeout : Z) : M E unit :=
  io_get >>; do! n := turns in until_space n (next_completed_timeout timeout).
Definition try_ready : M E unit := io_get >>; do! n := turns in drain n q_try_completed.

Definition ep_try_send (data : list byte) : M E unit :=
  try_ready >>; io_get >>; io_file >>; aio_submit (BWrite data).

Definition ep_send (data : list byte) : M E unit := ready >>; ep_try_send data.
Definition ep_send_timeout (data : list byte) (timeout : Z) : M E unit := ready_timeout timeout >>; ep_try_send data.

Definition flush : M E unit := io_get >>; do! n := turns in drain n q_completed.

Definition flush_timeout (timeout : Z) : M E unit :=
  io_get >>;
  do! n := turns in
  drain n (q_completed_timeout timeout) >>;
  do! none := gets (fun e => q_empty (ep_aio e)) in
  if none then ret tt else throw (Custom KTimedOut "timeout waiting for send to complete").

(** The same, awaited: [wait_completed] comes to what [completed] returns. *)
Definition wait_ready : M E unit := io_get >>; do! n := turns in until_space n next_completed.
Definition send_async (data : list byte) : M E unit := wait_ready >>; ep_try_send data.
Definition flush_async : M E unit := io_get >>; do! n := turns in drain n q_completed.

(** [while completed().is_some() {}]. *)
Fixpoint discard (fuel : nat) : M E unit :=
  do! c := aio_call q_completed in
  match c, fuel with
  | None, _ => ret tt
  | Some _, O => throw out_of_turns
  | Some _, S fuel => discard fuel
  end.

Definition ep_cancel : M E unit :=
  io_get >>;
  do! _ := aio_call (fun d => (tt, q_cancel_all d)) in
  do! n := turns in discard n.

Definition send_and_flush (data : list byte) : M E unit := ep_send data >>; flush.

Definition send_and_flush_timeout (data : list byte) (timeout : Z) : M E unit :=
  ep_send data >>;
  do! res := attempt (flush_timeout timeout) in
  match res with
  | Ok _ => ret tt
  | Err e => ep_cancel >>; throw e
  end.

(** *** The receiver *)

Definition into_read_buffer (b : Buffer) : io_result (list byte) :=
  match b with
  | BRead _ data => Ok data
  | BWrite _ => Err (Custom KInvalidData "unexpected write buffer in receive queue")
  end.

Definition fetch_with (next : D -> option (io_result Buffer) * D) : M E (option (list byte)) :=
  io_get >>;
  do! c := aio_call next in
  match c with
  | None => ret None
  | Some r => do! b := lift r in do! data := lift (into_read_buffer b) in ret (Some data)
  end.

Definition fetch : M E (option (list byte)) := fetch_with q_completed.
Definition fetch_timeout (timeout : Z) : M E (option (list byte)) := fetch_with (q_completed_timeout timeout).
Definition try_fetch : M E (option (list byte)) := fetch_with q_try_completed.
Definition fetch_async : M E (option (list byte)) := fetch_with q_completed.

Definition ep_try_recv (cap : nat) : M E unit := io_get >>; io_file >>; aio_submit (BRead cap []).

Definition ep_recv (cap : nat) : M E (option (list byte)) :=
  do! r := is_ready in
  do! data := (if r then try_fetch else fetch) in
  ep_try_recv cap >>;
  ret data.

Definition recv_async (cap : nat) : M E (option (list byte)) :=
  do! r := is_ready in
  do! data := (if r then try_fetch else fetch_async) in
  ep_try_recv cap >>;
  ret data.

Definition ep_recv_timeout (cap : nat) (timeout : Z) : M E (option (list byte)) :=
  do! r := is_ready in
  do! data := (if r then try_fetch else fetch_timeout timeout) in
  do! r := is_ready in
  (if r then ep_try_recv cap else ret tt) >>;
  ret data.

Definition recv_and_fetch (cap : nat) : M E (list byte) :=
  ep_try_recv cap >>;
  do! data := fetch in lift (ok_or (other "receive queue unexpectedly empty") data).

Definition recv_and_fetch_timeout (cap : nat) (timeout : Z) : M E (list byte) :=
  ep_try_recv cap >>;
  do! res := attempt (fetch_timeout timeout) in
  match res with
  | Ok (Some data) => ret data
  | Ok None => ep_cancel >>; throw (Custom KTimedOut "timeout waiting for data to be received")
  | Err e => ep_cancel >>; throw e
  end.
End Endpoint.

(** ** What the loops do *)

Section Loops.
Context {D : Type} `{AioLaws D}.
Abbreviation E := (Ep D).

Definition fate (e : E) : list (io_result Buffer) := q_fate (ep_aio e).
Definition within (e : E) : Prop := (length (fate e) <= q_len (ep_aio e))%nat.

(** Nothing but the queue changed. *)
Definition same_files (e e' : E) : Prop := ep_io e' = ep_io e /\ ep_file e' = ep_file e /\ q_len (ep_aio e') = q_len (ep_aio e).

Lemma same_files_refl e : same_files e e.
Proof. done. Qed.
Lemma same_files_trans a b c : same_files a b -> same_files b c -> same_files a c.
Proof. intros (? & ? & ?) (? & ? & ?). split_and!; congruence. Qed.

Lemma io_get_bind {A} (k : M E A) e : ep_io e = Ok tt -> (io_get >>; k) e = k e.
Proof. intros Hi. unfold io_get. rewrite bind_assoc, bind_gets. unfold bind. by rewrite Hi. Qed.

Lemma call_takes (next : D -> option (io_result Buffer) * D) e :
  (forall d, takes d (next d)) ->
  exists c e', aio_call next e = (Ok c, e') /\ c = (next (ep_aio e)).1 /\ same_files e e' /\
    match c with Some r => fate e = r :: fate e' | None => fate e' = fate e end.
Proof.
  intros Ht. unfold aio_call. destruct (Ht (ep_aio e)) as [Hl Hm]. destruct (next (ep_aio e)) as [c d]. cbn in *.
  eexists c, _. split; [done|]. split; [done|]. split; [by split_and!|]. by destruct c.
Qed.

Definition succeeded (r : io_result Buffer) : Prop := exists b, r = Ok b.

(** Draining takes the results in order, up to the first failure; without one it
    ends when the driver has nothing more to give. *)
Lemma drain_spec (next : D -> option (io_result Buffer) * D) fuel e :
  (forall d, takes d (next d)) -> (length (fate e) < fuel)%nat ->
  exists r e' taken, drain fuel next e = (r, e') /\ same_files e e' /\ fate e = taken ++ fate e' /\
    match r with
    | Ok _ => Forall succeeded taken /\ exists e1, same_files e e1 /\ fate e1 = fate e' /\ (next (ep_aio e1)).1 = None
    | Err x => exists oks, taken = oks ++ [Err x] /\ Forall succeeded oks
    end.
Proof.
  intros Ht. revert e. induction fuel as [|fuel IH]; intros e Hf; [lia|]. cbn [drain].
  destruct (call_takes next e Ht) as (c & e1 & Hc & Ec & Hs & Hm). rewrite (bind_Ok _ _ _ _ _ Hc). destruct c as [r|].
  - destruct r as [b|x].
    + destruct (IH e1) as (r & e' & taken & Hd & Hs' & Hfate & Hr). { rewrite Hm in Hf. cbn in Hf. lia. }
      exists r, e', (Ok b :: taken). unfold bind. cbn [lift]. split; [done|]. split; [by eapply same_files_trans|].
      split; [by rewrite Hm, Hfate|]. destruct r as [u|x].
      * destruct Hr as [Hall (e2 & Hs2 & Hf2 & Hn)]. split; [constructor; [by eexists|done]|].
        exists e2. split; [by eapply same_files_trans|done].
      * destruct Hr as (oks & -> & Hall). exists (Ok b :: oks). split; [done|]. constructor; [by eexists|done].
    + exists (Err x), e1, [Err x]. split; [done|]. split; [done|]. split; [done|]. exists []. split; [done|constructor].
  - exists (Ok tt), e1, []. split; [done|]. split; [done|]. split; [done|]. split; [constructor|].
    exists e. split; [done|]. split; [done|]. done.
Qed.

Lemma flush_spec e :
  ep_io e = Ok tt -> within e ->
  exists r e' taken, flush e = (r, e') /\ same_files e e' /\ fate e = taken ++ fate e' /\
    match r with
    | Ok _ => Forall succeeded taken /\ fate e' = []
    | Err x => exists oks, taken = oks ++ [Err x] /\ Forall succeeded oks
    end.
Proof.
  intros Hi Hw. unfold flush. rewrite io_get_bind by done. unfold turns. rewrite bind_gets.
  destruct (drain_spec q_completed (S (q_len (ep_aio e))) e) as (r & e' & taken & Hd & Hs & Hf & Hr).
  { intros d. apply completed_law. } { unfold within in Hw. lia. }
  exists r, e', taken. split_and!; [done..|]. destruct r as [u|x]; [|done].
  destruct Hr as [Hall (e1 & _ & Hf1 & Hn)]. split; [done|]. rewrite <- Hf1. by apply completed_law.
Qed.

Lemma discard_spec fuel e :
  (length (fate e) < fuel)%nat -> exists e', discard fuel e = (Ok tt, e') /\ same_files e e' /\ fate e' = [].
Proof.
  revert e. induction fuel as [|fuel IH]; intros e Hf; [lia|]. cbn [discard].
  destruct (call_takes q_completed e) as (c & e1 & Hc & Ec & Hs & Hm); [intros d; apply completed_law|].
  rewrite (bind_Ok _ _ _ _ _ Hc). destruct c as [r|].
  - destruct (IH e1) as (e' & Hd & Hs' & Hn). { rewrite Hm in Hf. cbn in Hf. lia. }
    exists e'. split_and!; [done| |done]. by eapply same_files_trans.
  - exists e1. split_and!; [done..|]. rewrite Hm. by apply completed_law.
Qed.

(** Cancelling always ends, with an empty queue. *)
Lemma cancel_spec e :
  ep_io e = Ok tt -> within e -> exists e', ep_cancel e = (Ok tt, e') /\ same_files e e' /\ fate e' = [].
Proof.
  intros Hi Hw. unfold ep_cancel. rewrite io_get_bind by done. unfold aio_call. unfold bind at 1.
  unfold turns. rewrite bind_gets. cbn [ep_aio]. destruct (cancel_all_law (ep_aio e)) as [Hl Hn].
  destruct (discard_spec (S (q_len (q_cancel_all (ep_aio e))))
    {| ep_io := ep_io e; ep_file := ep_file e; ep_aio := q_cancel_all (ep_aio e) |}) as (e' & Hd & Hs & He).
  { unfold fate. cbn. unfold within, fate in Hw. lia. }
  exists e'. split; [done|]. split; [|done]. destruct Hs as (? & ? & Hq). split_and!; [done..|]. cbn in Hq. lia.
Qed.

(** What draining the queue took, by its outcome. *)
Definition outcome (taken : list (io_result Buffer)) (r : io_result unit) : Prop :=
  match r with
  | Ok _ => Forall succeeded taken
  | Err x => exists oks, taken = oks ++ [Err x] /\ Forall succeeded oks
  end.

Lemma outcome_cons b taken r : outcome taken r -> outcome (Ok b :: taken) r.
Proof.
  destruct r as [u|x]; cbn.
  - intros Hall. constructor; [by eexists|done].
  - intros (oks & -> & Hall). exists (Ok b :: oks). split; [done|]. constructor; [by eexists|done].
Qed.

Lemma full_nonempty d : (0 < q_len d)%nat -> q_full d = true -> q_fate d <> [].
Proof. rewrite full_law. intros Hl Hf%Nat.leb_le Hn. rewrite Hn in Hf. cbn in Hf. lia. Qed.

Lemma until_space_spec fuel e :
  (0 < q_len (ep_aio e))%nat -> (length (fate e) < fuel)%nat ->
  exists r e' taken, until_space fuel next_completed e = (r, e') /\ same_files e e' /\ fate e = taken ++ fate e' /\
    outcome taken r /\ (r = Ok tt -> q_full (ep_aio e') = false).
Proof.
  revert e. induction fuel as [|fuel IH]; intros e Hl Hf; [lia|]. cbn [until_space]. rewrite bind_gets.
  destruct (q_full (ep_aio e)) eqn:Hfull; cbn [negb].
  - unfold next_completed at 1. rewrite bind_assoc.
    destruct (call_takes q_completed e) as (c & e1 & Hc & Ec & Hs & Hm); [intros d; apply completed_law|].
    rewrite (bind_Ok _ _ _ _ _ Hc). destruct c as [r|].
    2: { exfalso. eapply full_nonempty; [done..|]. by apply completed_law. }
    rewrite bind_ret. destruct r as [b|x].
    + destruct (IH e1) as (r & e' & taken & Hd & Hs' & Hfate & Hr & Hn).
      { destruct Hs as (_ & _ & Hs). lia. } { rewrite Hm in Hf. cbn in Hf. lia. }
      exists r, e', (Ok b :: taken). unfold bind. cbn [lift]. split; [done|]. split; [by eapply same_files_trans|].
      split; [by rewrite Hm, Hfate|]. split; [by apply outcome_cons|done].
    + exists (Err x), e1, [Err x]. split; [done|]. split; [done|]. split; [done|].
      split; [exists []; by split|done].
  - exists (Ok tt), e, []. split_and!; try done. constructor.
Qed.

Lemma submit_spec b e :
  exists r e', aio_submit b e = (r, e') /\ same_files e e' /\
    match r with
    | Ok _ => (length (fate e) < q_len (ep_aio e))%nat /\ exists new, fate e' = fate e ++ [new]
    | Err _ => fate e' = fate e
    end.
Proof.
  unfold aio_submit, aio_call, bind. destruct (submit_law b (ep_aio e)) as [Hl Hm].
  destruct (q_submit b (ep_aio e)) as [r d]. cbn in *. eexists r, _. split; [done|]. by split.
Qed.

(** What a send did: the results of earlier sends come first, and a failed one
    ends the call before anything is queued; otherwise there is space. *)
Definition sent (e : E) (r : io_result unit) (e' : E) : Prop :=
  same_files e e' /\ within e' /\
  exists taken rest, fate e = taken ++ rest /\
    match r with
    | Ok _ => Forall succeeded taken /\ exists new, fate e' = rest ++ [new]
    | Err x => fate e' = rest /\
        (outcome taken (Err x) \/ (Forall succeeded taken /\ (length rest < q_len (ep_aio e))%nat))
    end.

Lemma try_send_spec data e :
  ep_io e = Ok tt -> (length (fate e) < q_len (ep_aio e))%nat ->
  exists r e', ep_try_send data e = (r, e') /\ sent e r e'.
Proof.
  intros Hi Hlt. unfold ep_try_send, try_ready. rewrite bind_assoc, io_get_bind, bind_assoc by done.
  unfold turns. rewrite bind_gets.
  destruct (drain_spec q_try_completed (S (q_len (ep_aio e))) e) as (r & e1 & t & Hd & Hs & Hf & Hr).
  { intros d. apply try_completed_law. } { lia. }
  pose proof Hs as (Hi1 & _ & Hl1). rewrite Hf, length_app in Hlt. unfold bind at 1. rewrite Hd. destruct r as [[]|x].
  - destruct Hr as [Hall _]. rewrite io_get_bind by congruence. unfold io_file. rewrite bind_assoc, bind_gets.
    destruct (ep_file e1).
    + rewrite bind_ret. destruct (submit_spec (BWrite data) e1) as (r & e2 & Hsub & Hs2 & Hr2).
      exists r, e2. split; [done|]. split; [by eapply same_files_trans|]. unfold within.
      destruct Hs2 as (_ & _ & Hl2). rewrite Hl2. destruct r as [u|x].
      * destruct Hr2 as (Hlt2 & new & Hnew). rewrite Hnew, length_app. split; [cbn; lia|].
        exists t, (fate e1). split; [done|]. split; [done|by exists new].
      * rewrite Hr2. split; [lia|]. exists t, (fate e1). split; [done|]. split; [done|]. right. split; [done|lia].
    + rewrite bind_throw. exists (Err removed_error), e1. split; [done|]. split; [done|]. split; [unfold within; lia|].
      exists t, (fate e1). split; [done|]. split; [done|]. right. split; [done|lia].
  - exists (Err x), e1. split; [done|]. split; [done|]. split; [unfold within; lia|].
    exists t, (fate e1). split; [done|]. split; [done|]. by left.
Qed.

Lemma send_spec data e :
  ep_io e = Ok tt -> within e -> (0 < q_len (ep_aio e))%nat ->
  exists r e', ep_send data e = (r, e') /\ sent e r e'.
Proof.
  intros Hi Hw Hl. unfold ep_send, ready. rewrite bind_assoc, io_get_bind, bind_assoc by done.
  unfold turns at 1. rewrite bind_gets.
  destruct (until_space_spec (S (q_len (ep_aio e))) e Hl) as (r & e1 & t1 & Hr & Hs1 & Hf1 & Ho1 & Hn1).
  { unfold within in Hw. lia. }
  unfold within in Hw. rewrite Hf1, length_app in Hw. pose proof Hs1 as (Hi1 & _ & Hl1).
  unfold bind at 1. rewrite Hr. destruct r as [[]|x].
  2: { exists (Err x), e1. split; [done|]. split; [done|]. split; [unfold within; lia|].
       exists t1, (fate e1). split; [done|]. split; [done|]. by left. }
  specialize (Hn1 eq_refl). rewrite full_law in Hn1. apply Nat.leb_gt in Hn1.
  destruct (try_send_spec data e1) as (r & e2 & Hsend & Hs2 & Hw2 & t2 & rest & Hf2 & Hr2); [congruence|done|].
  exists r, e2. split; [done|]. split; [by eapply same_files_trans|]. split; [done|].
  exists (t1 ++ t2), rest. split; [by rewrite Hf1, Hf2, app_assoc|]. destruct r as [u|x].
  - destruct Hr2 as [Hall Hnew]. split; [by apply Forall_app|done].
  - destruct Hr2 as [Hrest Hr2]. split; [done|]. rewrite Hl1 in Hr2. destruct Hr2 as [(oks & -> & Hall)|[Hall Hlt]].
    + left. exists (t1 ++ oks). split; [by rewrite app_assoc|by apply Forall_app].
    + right. split; [by apply Forall_app|done].
Qed.

(** *** Timeouts leave nothing behind *)

Lemma flush_timeout_spec t e :
  ep_io e = Ok tt -> within e ->
  exists r e', flush_timeout t e = (r, e') /\ same_files e e' /\ within e' /\ (r = Ok tt -> fate e' = []).
Proof.
  intros Hi Hw. unfold flush_timeout. rewrite io_get_bind by done. unfold turns. rewrite bind_gets.
  destruct (drain_spec (q_completed_timeout t) (S (q_len (ep_aio e))) e) as (r & e1 & tk & Hd & Hs & Hf & _).
  { intros d. apply completed_timeout_law. } { unfold within in Hw. lia. }
  unfold within in *. rewrite Hf, length_app in Hw. pose proof Hs as (_ & _ & Hl).
  unfold bind at 1. rewrite Hd. destruct r as [[]|x]; [|exists (Err x), e1; split_and!; [done|done|lia|done]].
  rewrite bind_gets, empty_law. destruct (Nat.eqb_spec (length (q_fate (ep_aio e1))) 0) as [Hz|Hz].
  - exists (Ok tt), e1. split_and!; [done|done|lia|]. intros _. by apply nil_length_inv.
  - eexists (Err _), e1. split_and!; [done|done|lia|done].
Qed.

(** C40. A send with a deadline leaves nothing behind: on success and on a timeout or an
    error of the flush the queue is empty, the rest having been cancelled; the only other
    failure is that of queueing the data. *)
Theorem send_and_flush_timeout_leaves_nothing data t e :
  ep_io e = Ok tt -> within e -> (0 < q_len (ep_aio e))%nat ->
  match send_and_flush_timeout data t e with
  | (Ok _, e') => fate e' = []
  | (Err x, e') => fate e' = [] \/ ep_send data e = (Err x, e')
  end.
Proof.
  intros Hi Hw Hl. unfold send_and_flush_timeout. destruct (send_spec data e Hi Hw Hl) as (r & e1 & Hsend & Hs & Hw1 & _).
  unfold bind at 1. rewrite Hsend. destruct r as [[]|x]; [|by right]. rewrite bind_attempt.
  destruct (flush_timeout_spec t e1) as (r & e2 & Hfl & Hs2 & Hw2 & Hn); [by destruct Hs as (-> & _)|done|].
  rewrite Hfl. cbn [fst snd]. destruct r as [[]|x]; [by apply Hn|].
  destruct (cancel_spec e2) as (e3 & Hc & _ & He3); [|done|by rewrite (bind_Ok _ _ _ _ _ Hc); left].
  destruct Hs2 as (-> & _), Hs as (-> & _). done.
Qed.

(** *** Receiving *)

Lemma fetch_spec (next : D -> option (io_result Buffer) * D) e :
  ep_io e = Ok tt -> (forall d, takes d (next d)) ->
  exists r e', fetch_with next e = (r, e') /\ same_files e e' /\
    match r with
    | Ok (Some data) => exists cap, fate e = Ok (BRead cap data) :: fate e'
    | Ok None => fate e' = fate e /\ (next (ep_aio e)).1 = None
    | Err x => exists c, fate e = c :: fate e' /\ (c = Err x \/ exists d, c = Ok (BWrite d))
    end.
Proof.
  intros Hi Ht. unfold fetch_with. rewrite io_get_bind by done.
  destruct (call_takes next e Ht) as (c & e1 & Hc & Ec & Hs & Hm). rewrite (bind_Ok _ _ _ _ _ Hc). destruct c as [r|].
  - destruct r as [[d|cap d]|x]; unfold bind, lift; cbn [into_read_buffer ret].
    + eexists (Err _), e1. split_and!; [done..|]. eexists. split; [done|]. right. by eexists.
    + exists (Ok (Some d)), e1. split_and!; [done..|]. by eexists.
    + exists (Err x), e1. split_and!; [done..|]. eexists. split; [done|]. by left.
  - exists (Ok None), e1. by split_and!.
Qed.

Lemma try_recv_spec cap e :
  ep_io e = Ok tt ->
  exists r e', ep_try_recv cap e = (r, e') /\ same_files e e' /\
    match r with
    | Ok _ => (length (fate e) < q_len (ep_aio e))%nat /\ exists new, fate e' = fate e ++ [new]
    | Err _ => fate e' = fate e
    end.
Proof.
  intros Hi. unfold ep_try_recv. rewrite io_get_bind by done. unfold io_file. rewrite bind_assoc, bind_gets.
  destruct (ep_file e); [rewrite bind_ret; apply submit_spec|]. rewrite bind_throw. eexists (Err _), e. by split_and!.
Qed.

(** The fetch before the new buffer is queued: afterwards there is space. *)
Lemma fetch_for_space e :
  ep_io e = Ok tt -> within e -> (0 < q_len (ep_aio e))%nat ->
  exists r e', (do! r := is_ready in if r then try_fetch else fetch) e = (r, e') /\ same_files e e' /\
    (length (fate e') < q_len (ep_aio e))%nat /\
    match r with
    | Ok (Some data) => exists c, fate e = Ok (BRead c data) :: fate e'
    | Ok None => fate e' = fate e
    | Err x => exists c, fate e = c :: fate e' /\ (c = Err x \/ exists d, c = Ok (BWrite d))
    end.
Proof.
  intros Hi Hw Hl. unfold is_ready. rewrite bind_assoc, bind_attempt.
  replace (io_get e) with (Ok tt : io_result unit, e) by (unfold io_get, bind, gets, lift; by rewrite Hi).
  cbn [fst snd]. rewrite bind_gets. destruct (q_full (ep_aio e)) eqn:Hfull; cbn [negb].
  - destruct (fetch_spec q_completed e Hi) as (r & e' & Hf & Hs & Hm); [intros d; apply completed_law|].
    exists r, e'. split; [done|]. split; [done|]. unfold within in Hw. destruct r as [[data|]|x].
    + destruct Hm as [c Hm]. rewrite Hm in Hw. cbn in Hw. split; [lia|by exists c].
    + destruct Hm as [_ Hn]. exfalso. eapply full_nonempty; [done..|]. by apply completed_law.
    + destruct Hm as (c & Hc & Hx). rewrite Hc in Hw. cbn in Hw. split; [lia|by exists c].
  - rewrite full_law in Hfull. apply Nat.leb_gt in Hfull. fold (fate e) in Hfull.
    destruct (fetch_spec q_try_completed e Hi) as (r & e' & Hf & Hs & Hm); [intros d; apply try_completed_law|].
    exists r, e'. split; [done|]. split; [done|]. destruct r as [[data|]|x].
    + destruct Hm as [c Hm]. rewrite Hm in Hfull. cbn in Hfull. split; [lia|by exists c].
    + destruct Hm as [-> _]. by split.
    + destruct Hm as (c & Hc & Hx). rewrite Hc in Hfull. cbn in Hfull. split; [lia|by exists c].
Qed.

(** Receiving keeps the data in order: on success the call returns the oldest
    operation's data, or nothing if the queue had room, and queues one new buffer behind the
    others; on failure at most one operation was taken, which is the one that failed, or one
    that was not a read, or one taken to make room for a buffer the queue then refused. *)
Theorem recv_accounts cap e :
  ep_io e = Ok tt -> within e -> (0 < q_len (ep_aio e))%nat ->
  match ep_recv cap e with
  | (Ok data, e') => within e' /\ exists new,
      match data with
      | Some d => exists c, fate e ++ [new] = Ok (BRead c d) :: fate e'
      | None => fate e' = fate e ++ [new]
      end
  | (Err x, e') => exists got, fate e = got ++ fate e' /\ (length got <= 1)%nat /\
      (got = [Err x] \/ (exists d, got = [Ok (BWrite d)]) \/ (length (fate e') < q_len (ep_aio e))%nat)
  end.
Proof.
  intros Hi Hw Hl. unfold ep_recv. destruct (fetch_for_space e Hi Hw Hl) as (r & e1 & Hf & Hs & Hlt & Hm).
  rewrite <- bind_assoc. unfold bind at 1. rewrite Hf. destruct r as [data|x].
  - destruct (try_recv_spec cap e1) as (r & e2 & Hr & (_ & _ & Hl2) & Hr2); [by destruct Hs as (-> & _)|].
    destruct Hs as (_ & _ & Hl1). unfold bind. rewrite Hr. destruct r as [[]|x]; cbn [ret].
    + destruct Hr2 as (_ & new & Hnew). unfold within. rewrite Hnew, length_app, Hl2, Hl1. split; [cbn; lia|].
      exists new. destruct data as [d|]; [|by rewrite Hm]. destruct Hm as [c Hm]. exists c. by rewrite Hm.
    + destruct data as [d|].
      * destruct Hm as [c Hm]. exists [Ok (BRead c d)]. rewrite Hr2. split; [done|]. split; [done|]. by right; right.
      * exists []. rewrite Hr2. split; [done|]. split; [cbn; lia|]. by right; right.
  - destruct Hm as (c & Hc & Hx). exists [c]. split; [done|]. split; [done|].
    destruct Hx as [->|[d ->]]; [by left|right; left; by exists d].
Qed.

(** [flush]: success means that everything queued was sent; a failure is that of
    the first operation that failed, and the rest stays queued. *)
Theorem flush_reports e :
  ep_io e = Ok tt -> within e ->
  exists r e' taken, flush e = (r, e') /\ fate e = taken ++ fate e' /\ outcome taken r /\ (r = Ok tt -> fate e' = []).
Proof.
  intros Hi Hw. destruct (flush_spec e Hi Hw) as (r & e' & taken & Hf & _ & Ht & Hr).
  exists r, e', taken. split; [done|]. split; [done|]. destruct r as [[]|x]; [by destruct Hr|done].
Qed.
End Loops.

(** ** A queue *)

(** Operations complete in order; the script says what each submission comes to,
    and whether it is complete at once. *)
Record ToyQueue := { td_len : nat; td_ops : list (bool * io_result Buffer); td_script : list (bool * io_result Buffer) }.

Definition toy_pop (wait : bool) (d : ToyQueue) : option (io_result Buffer) * ToyQueue :=
  match td_ops d with
  | (done, r) :: ops =>
      if wait || done then (Some r, {| td_len := td_len d; td_ops := ops; td_script := td_script d |}) else (None, d)
  | [] => (None, d)
  end.

Definition ECANCELED : Z := 125.

#[local] Instance toy_driver : AioDriver ToyQueue := {|
  q_len := td_len;
  q_full d := (td_len d <=? length (td_ops d))%nat;
  q_empty d := (length (td_ops d) =? 0)%nat;
  q_submit b d :=
    if (td_len d <=? length (td_ops d))%nat then (Err (Custom KWouldBlock "no AIO queue space available"), d) else
    match td_script d with
    | [] => (Err (Os EAGAIN), d)
    | o :: rest => (Ok tt, {| td_len := td_len d; td_ops := td_ops d ++ [o]; td_script := rest |})
    end;
  q_completed d := toy_pop true d;
  q_completed_timeout _ d := toy_pop false d;
  q_try_completed d := toy_pop false d;
  q_cancel_all d :=
    {| td_len := td_len d;
       td_ops := (fun o : bool * io_result Buffer => if o.1 then o else (true, Err (Os ECANCELED))) <$> td_ops d;
       td_script := td_script d |};
  q_fate d := snd <$> td_ops d;
|}.

Lemma toy_pop_takes wait d : takes d (toy_pop wait d).
Proof.
  unfold takes, toy_pop. cbn. destruct (td_ops d) as [|[fin r] ops] eqn:E; [cbn; by rewrite ?E|].
  destruct (wait || fin); cbn; by rewrite ?E.
Qed.

#[local] Instance toy_queue_laws : AioLaws toy_driver.
Proof.
  split; intros; cbn -[toy_pop].
  - by rewrite length_fmap.
  - by rewrite length_fmap.
  - destruct (Nat.leb_spec (td_len d) (length (td_ops d))); [done|]. destruct (td_script d) as [|o rest]; [done|]. cbn.
    split; [done|]. rewrite length_fmap. split; [done|]. exists o.2. by rewrite fmap_app.
  - split; [apply toy_pop_takes|]. unfold toy_pop. by destruct (td_ops d) as [|[[] r] ops].
  - apply toy_pop_takes.
  - apply toy_pop_takes.
  - by rewrite !length_fmap.
Qed.

Definition toy_ep (ops script : list (bool * io_result Buffer)) : Ep ToyQueue :=
  {| ep_io := Ok tt; ep_file := true; ep_aio := {| td_len := 2; td_ops := ops; td_script := script |} |}.

(** A full queue whose first buffer has arrived. *)
Abbreviation receiving := (toy_ep [(true, Ok (BRead 8 (bs "data"))); (false, Ok (BRead 8 (bs "more")))]
                                  [(false, Ok (BRead 8 (bs "last")))]).

Lemma recv_accounts_witness :
  match ep_recv 8 receiving with
  | (Ok data, e') => data = Some (bs "data") /\ within e' /\ exists new,
      match data with
      | Some d => exists c, fate receiving ++ [new] = Ok (BRead c d) :: fate e'
      | None => fate e' = fate receiving ++ [new]
      end
  | (Err _, _) => False
  end.
Proof.
  pose proof (recv_accounts 8 receiving eq_refl) as Hr.
  specialize (Hr ltac:(unfold within, fate; cbn; lia) ltac:(cbn; lia)).
  vm_compute in Hr |- *. split; [reflexivity|]. exact Hr.
Defined.

(** The new buffer is refused, and the data that had arrived is lost. *)
Example refused_buffer_loses_data :
  let e := toy_ep [(true, Ok (BRead 8 (bs "data"))); (false, Ok (BRead 8 (bs "more")))] [] in
  (ep_recv 8 e).1 = Err (Os EAGAIN) /\ fate (ep_recv 8 e).2 = [Ok (BRead 8 (bs "more"))].
Proof. vm_compute. done. Qed.

(** A receive that times out drops the buffer it was given without queueing it. *)
Example timed_out_receive_queues_nothing :
  let e := toy_ep [(false, Ok (BRead 8 (bs "more"))); (false, Ok (BRead 8 (bs "last")))] [(false, Ok (BRead 8 []))] in
  (ep_recv_timeout 8 5 e).1 = Ok None /\ fate (ep_recv_timeout 8 5 e).2 = fate e.
Proof. vm_compute. done. Qed.
