(* ===== verification/AioQueue.v ===== *)
(** * The driver as an endpoint's queue

    Discharges the interface [AioDriver] of Endpoint.v with the driver of Aio.v: the
    calls of patches/usb-gadget/src/function/custom/aio/mod.rs, the turns of the
    driver's thread and a kernel that serves the operations of a file in their order,
    as it does for an endpoint. What the kernel answers is open: which operations it
    takes, how each ends and when, and which ones it cancels. *)

From stdpp Require Import gmap.
From S2P Require Import Prelude Io Bytes Aio Endpoint.

Section Queue.
(** The length of the queue; per operation whether the kernel takes it, its result
    with the bytes received, whether it lasts longer than a wait of a given time, and
    whether it can be cancelled. *)
Context (len : Z) (len_pos : 0 <= len).
Context (accepts : Z -> io_result unit) (outcome : Z -> Z * list byte) (late : option Z -> Z -> bool) (cancels_op : Z -> bool).

Definition io_event (id : Z) : IoEvent :=
  {| ev_data := id; ev_res := (outcome id).1; ev_bytes := (outcome id).2 |}.

Definition cancel_event (id : Z) : IoEvent := {| ev_data := id; ev_res := - ECANCELED; ev_bytes := [] |}.

(** The driver between two calls, its thread asleep; [o] are the operations the
    kernel holds, the oldest first. *)
Record rests (s : St) (o : list Z) : Prop := {
  r_reachable : reachable len s;
  r_submitted : submitted s <= 2 ^ 64;
  r_phase : phase s = Waiting;
  r_wake : wake s = 0;
  r_pc : pc s = Idle;
  r_order : o ≡ₚ elements (inflight s);
}.

(** The thread's turn once its commands are done: nothing to fetch, nothing to
    process, and asleep again. *)
Definition thread_sleep (s : St) : St := thread_process (thread_fetch (thread_cmd [] s)).

(** [submit] and the thread's reaction. *)
Definition submit_turn (b : Buffer) (s : St) : io_result unit * St :=
  match submit_insert b s with
  | (Err e, s) => (Err e, s)
  | (Ok id, s) =>
      match accepts id with
      | Ok _ => (Ok tt, thread_sleep (thread_cmd [] (thread_wake (submit_accept id s))))
      | Err e => (Err e, thread_sleep (thread_cmd [] (thread_cmd [] (thread_wake (submit_reject id s)))))
      end
  end.

(** The kernel completes an operation, and the thread fetches and sends the result. *)
Definition complete_turn (id : Z) (s : St) : St :=
  thread_process (thread_process (thread_fetch (thread_fetch
    (thread_cmd [] (thread_wake (kernel_complete (io_event id) s)))))).

Definition cancel_turn (o : list Z) (s : St) : St :=
  thread_sleep (thread_cmd (cancel_event <$> filter (fun id => cancels_op id) o) (thread_wake (cancel_all s))).

Lemma rests_shape s o :
  rests s o -> inv s /\ cmds s = [] /\ ring s = [] /\ event_queue s = [] /\ NoDup o /\
    space s + Z.of_nat (length (done_ s) + length o) = len /\ 0 <= space s /\
    (forall id, id ∈ o -> id ∈ inflight s /\ is_Some (active s !! id)).
Proof.
  intros [Hr Hs Hp Hw Hpc Ho]. pose proof (reachable_inv len s Hr Hs) as Hi.
  destruct (aio_at_rest len s Hr Hs Hp Hw ltac:(by rewrite Hpc)) as (Hc & Hring & Hq & Hout).
  destruct (reachable_room len s len_pos Hr) as (Hl & Hsp & _). pose proof (inv_space s Hi) as Hspace.
  rewrite Hout, length_app, length_fmap, <- Ho, Hl in Hspace.
  split_and!; try done; [rewrite Ho; apply NoDup_elements|lia|].
  intros id Hid. rewrite Ho, elem_of_elements in Hid. split; [done|].
  destruct (inv_known s Hi id) as [Hk|Hk]; [unfold held; set_solver|by apply elem_of_dom|rewrite Hc in Hk; by apply elem_of_nil in Hk].
Qed.

(** Once its commands are done the thread goes to sleep and changes nothing else. *)
Lemma thread_sleep_step s :
  phase s = Commands -> cmds s = [] -> ring s = [] -> event_queue s = [] -> pc s = Idle ->
  thread_sleep s = set_phase Waiting s /\ rtc step s (set_phase Waiting s).
Proof.
  destruct s; cbn. intros -> -> -> -> ->. split; [reflexivity|].
  eapply rtc_l; [by apply (step_cmd _ [])|]. eapply rtc_l; [by apply step_fetch|].
  eapply rtc_l; [by apply step_process|]. reflexivity.
Qed.

(** The thread's command of a new operation. *)
Lemma thread_insert_step s id b cs :
  phase s = Commands -> cmds s = Insert id b :: cs -> active s !! id = None ->
  step s (set_thread cs (<[id := b]> (active s)) (inflight s) (done_ s) Commands s) /\
  thread_cmd [] s = set_thread cs (<[id := b]> (active s)) (inflight s) (done_ s) Commands s.
Proof.
  intros Hp Hc Ha. assert (thread_cmd [] s = set_thread cs (<[id := b]> (active s)) (inflight s) (done_ s) Commands s) as <-.
  { unfold thread_cmd. by rewrite Hc, Ha. }
  split; [|done]. apply step_cmd; [done|]. unfold cancels. by rewrite Hc.
Qed.

Lemma thread_remove_step s id cs :
  phase s = Commands -> cmds s = Remove id :: cs -> is_Some (active s !! id) ->
  step s (set_thread cs (delete id (active s)) (inflight s) (done_ s) Commands s) /\
  thread_cmd [] s = set_thread cs (delete id (active s)) (inflight s) (done_ s) Commands s.
Proof.
  intros Hp Hc [b Ha]. assert (thread_cmd [] s = set_thread cs (delete id (active s)) (inflight s) (done_ s) Commands s) as <-.
  { unfold thread_cmd. by rewrite Hc, Ha. }
  split; [|done]. apply step_cmd; [done|]. unfold cancels. by rewrite Hc.
Qed.

(** The first half of a submission, from rest. *)
Lemma submit_begins s o b :
  rests s o -> is_full s = false -> submitted s < 2 ^ 64 ->
  exists s1, submit_insert b s = (Ok (next_id s), s1) /\ step s s1 /\
    pc s1 = Submitting (next_id s) /\ cmds s1 = [Insert (next_id s) b] /\ wake s1 = 0 /\ phase s1 = Waiting /\
    ring s1 = [] /\ event_queue s1 = [] /\ active s1 = active s /\ inflight s1 = inflight s /\ done_ s1 = done_ s /\
    submitted s1 = submitted s + 1 /\ active s !! next_id s = None /\ next_id s ∉ inflight s.
Proof.
  intros Hr Hf Hs. destruct (rests_shape s o Hr) as (Hi & Hc & Hring & Hq & _ & _ & _ & Ho).
  pose proof (step_submit s b (r_pc s o Hr) Hf) as Hst. unfold submit_insert in *. rewrite Hf in *.
  assert (active s !! next_id s = None) as Hna.
  { apply not_elem_of_dom. intros Hin. pose proof (inv_bound s Hi (next_id s) (or_intror (or_introl Hin))) as Hb.
    rewrite (inv_next s Hi), wrap_small in Hb by (split; [by apply inv_submitted|done]). lia. }
  destruct Hr as [_ _ Hp Hw _ Hord]. eexists. split; [reflexivity|]. split; [exact Hst|]. cbn. rewrite Hc. split_and!; try done.
  intros Hin. destruct (Ho (next_id s)) as [_ [? Hx]]; [|congruence]. by rewrite Hord, elem_of_elements.
Qed.

(** An operation that is submitted and taken goes behind those the kernel has. *)
Lemma accept_turn s o b :
  rests s o -> is_full s = false -> submitted s < 2 ^ 64 -> accepts (next_id s) = Ok tt ->
  exists s', submit_turn b s = (Ok tt, s') /\ rests s' (o ++ [next_id s]) /\ done_ s' = done_ s /\
    active s' = <[next_id s := b]> (active s) /\ active s !! next_id s = None.
Proof.
  intros Hr Hf Hs Ha. destruct (submit_begins s o b Hr Hf Hs)
    as (s1 & Hins & Hst & Hpc & Hc & Hw & Hp & Hring & Hq & Hact & Hinf & Hd & Hsub & Hna & Hni).
  unfold submit_turn. rewrite Hins, Ha. eexists. split; [reflexivity|].
  set (s2 := thread_wake (submit_accept (next_id s) s1)).
  destruct (thread_insert_step s2 (next_id s) b []) as [Hst2 ->]; [done|exact Hc|cbn; by rewrite Hact|].
  destruct (thread_sleep_step (set_thread [] (<[next_id s := b]> (active s2)) (inflight s2) (done_ s2) Commands s2))
    as [-> Hsl]; [done..|]. split_and!; [|done|cbn; by rewrite Hact|done]. constructor; [|cbn; lia|done..|].
  - unfold reachable. etransitivity; [apply Hr|]. eapply rtc_l; [exact Hst|].
    eapply rtc_l; [by apply step_accept|]. eapply rtc_l; [apply step_wake; cbn; [done|lia]|].
    eapply rtc_l; [exact Hst2|]. exact Hsl.
  - cbn. rewrite Hinf, elements_union_singleton by done. rewrite (r_order s o Hr). by rewrite Permutation_app_comm.
Qed.

(** One the kernel refuses leaves no trace. *)
Lemma reject_turn s o b e :
  rests s o -> is_full s = false -> submitted s < 2 ^ 64 -> accepts (next_id s) = Err e ->
  exists s', submit_turn b s = (Err e, s') /\ rests s' o /\ done_ s' = done_ s /\ active s' = active s.
Proof.
  intros Hr Hf Hs Ha. destruct (submit_begins s o b Hr Hf Hs)
    as (s1 & Hins & Hst & Hpc & Hc & Hw & Hp & Hring & Hq & Hact & Hinf & Hd & Hsub & Hna & Hni).
  unfold submit_turn. rewrite Hins, Ha. eexists. split; [reflexivity|].
  set (s2 := thread_wake (submit_reject (next_id s) s1)).
  destruct (thread_insert_step s2 (next_id s) b [Remove (next_id s)]) as [Hst2 ->];
    [done|cbn; by rewrite Hc|cbn; by rewrite Hact|].
  set (s3 := set_thread [Remove (next_id s)] (<[next_id s := b]> (active s2)) (inflight s2) (done_ s2) Commands s2) in *.
  destruct (thread_remove_step s3 (next_id s) []) as [Hst3 ->]; [done|done|cbn; by rewrite lookup_insert_eq|].
  destruct (thread_sleep_step (set_thread [] (delete (next_id s) (active s3)) (inflight s3) (done_ s3) Commands s3))
    as [-> Hsl]; [done..|]. split_and!; [|done|cbn; by rewrite Hact, delete_insert_id].
  constructor; [|cbn; lia|done..|cbn; rewrite Hinf; apply (r_order s o Hr)].
  unfold reachable. etransitivity; [apply Hr|]. eapply rtc_l; [exact Hst|].
  eapply rtc_l; [by apply step_reject|]. eapply rtc_l; [apply step_wake; cbn; [done|lia]|].
  eapply rtc_l; [exact Hst2|]. eapply rtc_l; [exact Hst3|]. exact Hsl.
Qed.

(** The thread finds one completion in the ring, of an operation it knows. *)
Lemma thread_deliver_step s s' e b :
  phase s = Commands -> cmds s = [] -> ring s = [e] -> event_queue s = [] -> pc s = Idle -> wake s = 0 ->
  active s !! ev_data e = Some b ->
  s' = thread_process (thread_process (thread_fetch (thread_fetch (thread_cmd [] s)))) ->
  rtc step s s' /\ phase s' = Waiting /\ wake s' = 0 /\ pc s' = Idle /\ inflight s' = inflight s /\
  submitted s' = submitted s /\ done_ s' = done_ s ++ [complete b e] /\ active s' = delete (ev_data e) (active s).
Proof.
  destruct s as [ni sp ql p cs wk ph ac eq inf rg dn su acc del]. cbn [phase cmds ring event_queue pc wake active inflight done_ submitted].
  intros -> -> -> -> -> -> Ha Hs'.
  set (s0 := {| next_id := _ |}) in *.
  assert (rtc step s0 (thread_fetch (thread_fetch (thread_cmd [] s0)))) as Hst.
  { eapply rtc_l; [by apply (step_cmd s0 [])|]. eapply rtc_l; [by apply step_fetch|].
    by apply rtc_once, step_fetch. }
  set (s3 := thread_fetch _) in *.
  assert (s3 = {| next_id := ni; space := sp; queue_length := ql; pc := Idle; cmds := []; wake := 0;
    phase := Processing; active := ac; event_queue := [e]; inflight := inf; ring := []; done_ := dn;
    submitted := su; accepted := acc; delivered := del |}) as E3 by reflexivity.
  assert (thread_process s3 = {| next_id := ni; space := sp; queue_length := ql; pc := Idle; cmds := []; wake := 0;
    phase := Processing; active := delete (ev_data e) ac; event_queue := []; inflight := inf; ring := [];
    done_ := dn ++ [complete b e]; submitted := su; accepted := acc; delivered := del |}) as E4.
  { rewrite E3. unfold thread_process. cbn [event_queue active]. by rewrite Ha. }
  split; [|by rewrite Hs', E4].
  etransitivity; [exact Hst|]. eapply rtc_l; [apply step_process; by rewrite E3|].
  rewrite Hs'. apply rtc_once, step_process. by rewrite E4.
Qed.

(** The oldest operation completes. *)
Lemma complete_turn_rests s id o :
  rests s (id :: o) -> exists b, active s !! id = Some b /\
    rests (complete_turn id s) o /\ done_ (complete_turn id s) = done_ s ++ [complete b (io_event id)] /\
    active (complete_turn id s) = delete id (active s).
Proof.
  intros Hr. destruct (rests_shape s _ Hr) as (Hi & Hc & Hring & Hq & Hnd & _ & _ & Ho).
  destruct (Ho id) as [Hin [b Hb]]; [left|]. exists b. split; [done|]. destruct Hr as [Hr Hs Hp Hw Hpc Hord].
  destruct (thread_deliver_step (thread_wake (kernel_complete (io_event id) s)) (complete_turn id s) (io_event id) b)
    as (Hst & Hp' & Hw' & Hpc' & Hinf & Hsub & Hd & Ha); [done|done|cbn; by rewrite Hring|done..|].
  split; [|by split]. constructor; [|by rewrite Hsub|done..|].
  - unfold reachable. etransitivity; [exact Hr|]. eapply rtc_l; [by apply (step_complete s (io_event id))|].
    eapply rtc_l; [apply step_wake; cbn; [done|lia]|]. exact Hst.
  - rewrite Hinf. cbn. apply list.NoDup_Permutation; [by apply list.NoDup_cons in Hnd as []|apply NoDup_elements|].
    intros x. rewrite elem_of_elements, elem_of_difference, elem_of_singleton. rewrite <- (elem_of_elements (inflight s)), <- Hord.
    rewrite elem_of_cons. apply list.NoDup_cons in Hnd as [Hni _]. split; [|tauto]. intros Hx. split; [by right|]. by intros ->.
Qed.

(** A result that is there is taken. *)
Lemma try_completed_rests s o c rest :
  rests s o -> done_ s = c :: rest ->
  exists s', try_completed s = (Some c, s') /\ rests s' o /\ done_ s' = rest /\ active s' = active s.
Proof.
  intros Hr Hd. unfold try_completed. rewrite Hd. eexists. split; [reflexivity|]. split; [|done].
  destruct Hr as [Hr Hs Hp Hw Hpc Hord]. constructor; try done. unfold reachable. etransitivity; [exact Hr|].
  apply rtc_once. pose proof (step_completed s Hpc ltac:(by rewrite Hd)) as Hst. unfold try_completed in Hst. by rewrite Hd in Hst.
Qed.

(** A cancellation ends the operations that can be cancelled, and leaves the others
    in their order. *)
Lemma cancel_turn_rests s o :
  rests s o ->
  rests (cancel_turn o s) (filter (fun id => ~ cancels_op id) o) /\
  done_ (cancel_turn o s) = done_ s ++ completions (active s) (cancel_event <$> filter (fun id => cancels_op id) o) /\
  (forall id, id ∈ o -> ~ cancels_op id -> active (cancel_turn o s) !! id = active s !! id).
Proof.
  intros Hr. destruct (rests_shape s _ Hr) as (Hi & Hc & Hring & Hq & Hnd & _ & _ & Ho).
  destruct Hr as [Hr Hs Hp Hw Hpc Hord]. unfold cancel_turn.
  set (evs := cancel_event <$> _). set (s1 := thread_wake (cancel_all s)).
  assert (ev_data <$> evs = filter (fun id => cancels_op id) o) as Hids.
  { unfold evs. rewrite <- list_fmap_compose. apply list_fmap_id. }
  assert (cancels s1 evs) as Hcan.
  { unfold cancels. cbn. rewrite Hc. cbn. split; [rewrite Hids; by apply list.NoDup_filter|].
    apply list.Forall_forall. intros e (id & -> & [_ Hid]%list_elem_of_filter)%list_elem_of_fmap. cbn. split; [done|]. by apply Ho. }
  assert (rtc step s s1) as Hst.
  { eapply rtc_l; [by apply step_cancel_all|]. apply rtc_once, step_wake; cbn; [done|lia]. }
  assert (step s1 (thread_cmd evs s1)) as Hst2 by (by apply step_cmd).
  assert (thread_cmd evs s1 = set_thread [] (filter (fun p => p.1 ∉ (list_to_set (ev_data <$> evs) : gset Z)) (active s))
    (inflight s ∖ list_to_set (ev_data <$> evs)) (done_ s ++ completions (active s) evs) Commands s1) as E.
  { unfold thread_cmd. cbn. by rewrite Hc. }
  destruct (thread_sleep_step (thread_cmd evs s1)) as [-> Hsl]; [by rewrite E..|].
  split_and!.
  - constructor; [|by rewrite E..|].
    + unfold reachable. etransitivity; [exact Hr|]. etransitivity; [exact Hst|]. by eapply rtc_l.
    + rewrite E. cbn. apply list.NoDup_Permutation; [by apply list.NoDup_filter|apply NoDup_elements|]. intros x.
      rewrite elem_of_elements, elem_of_difference, elem_of_list_to_set, Hids, !list_elem_of_filter, <- (elem_of_elements (inflight s)), <- Hord.
      tauto.
  - by rewrite E.
  - intros id Hid Hn. rewrite E. cbn. destruct (Ho id Hid) as [_ [b Hb]]. rewrite Hb. apply map_lookup_filter_Some. split; [done|].
    cbn. rewrite elem_of_list_to_set, Hids, list_elem_of_filter. tauto.
Qed.

(** ** The queue of an endpoint *)

(** What an operation the kernel holds comes to. *)
Definition op_fate (s : St) (id : Z) : io_result Buffer :=
  co_result (complete (default (BWrite []) (active s !! id)) (io_event id)).

(** The results that are there, then those to come. *)
Definition queue_fate (x : St * list Z) : list (io_result Buffer) :=
  (co_result <$> done_ x.1) ++ (op_fate x.1 <$> x.2).

(** An operation has an identifier of its own as long as they are not used up. *)
Definition queue_submit (b : Buffer) (x : St * list Z) : io_result unit * (St * list Z) :=
  if 2 ^ 64 <=? submitted x.1 then (Err (Os EAGAIN), x) else
  match submit_turn b x.1 with
  | (Ok _, s) => (Ok tt, (s, x.2 ++ [next_id x.1]))
  | (Err e, s) => (Err e, (s, x.2))
  end.

(** Waits for a result, unless the operation whose turn it is lasts too long. *)
Definition queue_take (gives_up : Z -> bool) (x : St * list Z) : option (io_result Buffer) * (St * list Z) :=
  let '(s, o) :=
    match done_ x.1, x.2 with
    | [], id :: o => if gives_up id then x else (complete_turn id x.1, o)
    | _, _ => x
    end in
  let (c, s) := try_completed s in (co_result <$> c, (s, o)).

Definition queue_cancel_all (x : St * list Z) : St * list Z :=
  (cancel_turn x.2 x.1, filter (fun id => ~ cancels_op id) x.2).

Lemma op_fate_ext s s' (o : list Z) :
  (forall id, id ∈ o -> active s' !! id = active s !! id) -> op_fate s' <$> o = op_fate s <$> o.
Proof. intros H. apply list_fmap_ext. intros i id Hid. unfold op_fate. by rewrite H by (by eapply list_elem_of_lookup_2). Qed.

Lemma queue_fate_length x : rests x.1 x.2 -> Z.of_nat (length (queue_fate x)) = len - space x.1 /\ 0 <= space x.1.
Proof.
  intros Hr. destruct (rests_shape _ _ Hr) as (_ & _ & _ & _ & _ & Hsp & H0 & _).
  unfold queue_fate. rewrite length_app, !length_fmap. lia.
Qed.

Lemma queue_submit_spec b x :
  rests x.1 x.2 ->
  let o := queue_submit b x in
  rests o.2.1 o.2.2 /\
  match o.1 with
  | Ok _ => (length (queue_fate x) < Z.to_nat len)%nat /\ exists r, queue_fate o.2 = queue_fate x ++ [r]
  | Err _ => queue_fate o.2 = queue_fate x
  end.
Proof.
  destruct x as [s o]. intros Hr. unfold queue_submit. cbn [fst snd] in *.
  destruct (Z.leb_spec (2 ^ 64) (submitted s)) as [|Hs]; [by cbn|].
  destruct (is_full s) eqn:Hf; [unfold submit_turn, submit_insert; by rewrite Hf|].
  destruct (rests_shape s o Hr) as (_ & _ & _ & _ & _ & _ & _ & Ho).
  destruct (accepts (next_id s)) as [[]|e] eqn:Ha.
  - destruct (accept_turn s o b Hr Hf Hs Ha) as (s' & -> & Hr' & Hd & Hact & Hna). cbn. split; [done|].
    destruct (queue_fate_length (s, o) Hr) as [Hl H0]. unfold is_full in Hf. cbn in Hl, H0. split; [lia|].
    exists (op_fate s' (next_id s)). unfold queue_fate. cbn. rewrite Hd, fmap_app, app_assoc. f_equal. f_equal.
    apply op_fate_ext. intros id [_ [? Hid]]%Ho. rewrite Hact, lookup_insert_ne; [done|]. intros <-. congruence.
  - destruct (reject_turn s o b e Hr Hf Hs Ha) as (s' & -> & Hr' & Hd & Hact). cbn. split; [done|].
    unfold queue_fate. cbn. rewrite Hd. f_equal. apply op_fate_ext. by rewrite Hact.
Qed.

Lemma queue_take_spec g x :
  rests x.1 x.2 ->
  let o := queue_take g x in
  rests o.2.1 o.2.2 /\
  match o.1 with
  | Some r => queue_fate x = r :: queue_fate o.2
  | None => o.2 = x /\ ((forall id, g id = false) -> queue_fate x = [])
  end.
Proof.
  destruct x as [s o]. intros Hr. unfold queue_take. cbn [fst snd] in *.
  destruct (done_ s) as [|c rest] eqn:Hd.
  - destruct o as [|id o]; [unfold try_completed, queue_fate; cbn; by rewrite Hd|].
    destruct (g id) eqn:Hg; [unfold try_completed; rewrite Hd; cbn; split_and!; [done..|]; intros Hx; by rewrite Hx in Hg|].
    destruct (rests_shape s _ Hr) as (_ & _ & _ & _ & Hnd & _ & _ & _).
    destruct (complete_turn_rests s id o Hr) as (b & Hb & Hr1 & Hd1 & Ha1).
    rewrite Hd in Hd1. destruct (try_completed_rests _ o _ [] Hr1 Hd1) as (s' & -> & Hr' & Hd' & Ha'). cbn.
    split; [done|]. unfold queue_fate. cbn. rewrite Hd, Hd'. cbn. f_equal; [unfold op_fate; by rewrite Hb|].
    symmetry. apply op_fate_ext. intros x Hx. rewrite Ha', Ha1, lookup_delete_ne; [done|].
    intros ->. by apply list.NoDup_cons in Hnd as [].
  - destruct (try_completed_rests s o c rest Hr Hd) as (s' & -> & Hr' & Hd' & Ha'). cbn.
    split; [done|]. unfold queue_fate. cbn. rewrite Hd, Hd'. cbn. do 2 f_equal. symmetry. apply op_fate_ext. by rewrite Ha'.
Qed.

Lemma queue_cancel_spec x :
  rests x.1 x.2 ->
  rests (queue_cancel_all x).1 (queue_cancel_all x).2 /\ length (queue_fate (queue_cancel_all x)) = length (queue_fate x).
Proof.
  destruct x as [s o]. intros Hr. destruct (cancel_turn_rests s o Hr) as (Hr' & _ & _). split; [done|].
  cbn in Hr. unfold queue_fate, queue_cancel_all. cbn -[cancel_turn]. destruct (cancel_turn_rests s o Hr) as (_ & -> & _).
  rewrite fmap_app, !length_app, !length_fmap. unfold completions. rewrite !length_fmap.
  rewrite <- (filter_app_complement (fun id => cancels_op id) o) at 3. rewrite length_app. lia.
Qed.

Record Queue := { q_st : St * list Z; q_rests : rests q_st.1 q_st.2 }.

#[local] Instance aio_driver : AioDriver Queue := {|
  q_len _ := Z.to_nat len;
  q_full d := is_full (q_st d).1;
  q_empty d := Aio.is_empty (q_st d).1;
  q_submit b d := ((queue_submit b (q_st d)).1, Build_Queue _ (proj1 (queue_submit_spec b _ (q_rests d))));
  q_completed d :=
    ((queue_take (fun _ => false) (q_st d)).1, Build_Queue _ (proj1 (queue_take_spec (fun _ => false) _ (q_rests d))));
  q_completed_timeout t d :=
    ((queue_take (late (Some t)) (q_st d)).1, Build_Queue _ (proj1 (queue_take_spec (late (Some t)) _ (q_rests d))));
  q_try_completed d :=
    ((queue_take (late None) (q_st d)).1, Build_Queue _ (proj1 (queue_take_spec (late None) _ (q_rests d))));
  q_cancel_all d := Build_Queue _ (proj1 (queue_cancel_spec _ (q_rests d)));
  q_fate d := queue_fate (q_st d);
|}.

(** The driver keeps the laws its clients rely on. *)
#[local] Instance aio_laws : AioLaws aio_driver.
Proof.
  assert (forall g d, takes d ((queue_take g (q_st d)).1, Build_Queue _ (proj1 (queue_take_spec g _ (q_rests d))))) as Ht.
  { intros g d. split; [done|]. cbn. destruct (queue_take_spec g _ (q_rests d)) as [_ Hx].
    destruct (queue_take g (q_st d)) as [[r|] x]; [done|]. cbn in *. by destruct Hx as [-> _]. }
  split.
  - intros d. cbn. destruct (queue_fate_length _ (q_rests d)) as [Hl H0]. unfold is_full.
    apply eq_true_iff_eq. rewrite Z.eqb_eq, Nat.leb_le. lia.
  - intros d. cbn. destruct (queue_fate_length _ (q_rests d)) as [Hl H0]. unfold Aio.is_empty.
    destruct (reachable_room len _ len_pos (r_reachable _ _ (q_rests d))) as (-> & _).
    apply eq_true_iff_eq. rewrite Z.eqb_eq, Nat.eqb_eq. lia.
  - intros b d. cbn. split; [done|]. destruct (queue_submit_spec b _ (q_rests d)) as [_ Hx].
    by destruct (queue_submit b (q_st d)) as [[[]|e] x].
  - intros d. split; [apply Ht|]. cbn. destruct (queue_take_spec (fun _ => false) _ (q_rests d)) as [_ Hx].
    intros E. rewrite E in Hx. by apply Hx.
  - intros t d. apply Ht.
  - intros d. apply Ht.
  - intros d. split; [done|]. apply queue_cancel_spec, q_rests.
Qed.

Lemma rests_new : rests (new len) [].
Proof. constructor; try done. apply rtc_refl. Qed.

(** [Driver::new]. *)
Definition queue_new : Queue := Build_Queue (new len, []) rests_new.
End Queue.

(** ** A queue of two *)

Module QueueDemo.
(** The kernel takes everything; nothing ends within the time of a wait, and
    what was sent once cannot be recalled. *)
Definition two : 0 <= 2.
Proof. discriminate. Qed.

Definition demo_outcome (id : Z) : Z * list byte := (1, []).

#[local] Instance demo_driver : AioDriver (Queue 2) :=
  aio_driver 2 two (fun _ => Ok tt) demo_outcome (fun _ _ => true) (fun _ => false).
#[local] Instance demo_laws : AioLaws demo_driver := aio_laws _ _ _ _ _ _.

Definition demo_ep : Ep (Queue 2) := {| ep_io := Ok tt; ep_file := true; ep_aio := queue_new 2 |}.

Lemma send_and_flush_timeout_leaves_nothing_witness :
  match send_and_flush_timeout (bs "x") 5 demo_ep with
  | (Ok _, _) => False
  | (Err x, e') => fate e' = [] \/ ep_send (bs "x") demo_ep = (Err x, e')
  end.
Proof.
  pose proof (send_and_flush_timeout_leaves_nothing (bs "x") 5 demo_ep eq_refl) as Hs.
  specialize (Hs ltac:(vm_compute; lia) ltac:(vm_compute; lia)).
  assert (is_ok (send_and_flush_timeout (bs "x") 5 demo_ep).1 = false) as Hno by (vm_compute; reflexivity).
  destruct (send_and_flush_timeout (bs "x") 5 demo_ep) as [[[]|x] e']; [discriminate Hno|]. exact Hs.
Defined.
End QueueDemo.
