(* ===== verification/EpControl.v ===== *)
(** * Controlling endpoints

    Models the requests to FunctionFS other than reads and writes: the ioctl
    numbers (vendor/rustix/src/ioctl/linux.rs), the two patterns of
    patches/usb-gadget/src/ioctl.rs, the requests of
    src/function/custom/ffs.rs, and what [EndpointControl] of custom/mod.rs makes
    of them: the FIFO, halting, addresses, the descriptor in use and DMA buffers. *)

From S2P Require Import Prelude Io Bytes FfsDesc FfsBuild Aio Endpoint.

(** ** Request numbers *)

(** Of the usual architectures. *)
Inductive IoDir := DNone | DRead | DWrite | DReadWrite.
Definition dir_bits (d : IoDir) : Z := match d with DNone => 0 | DRead => 2 | DWrite => 1 | DReadWrite => Z.lor 2 1 end.

Definition mask_and_shift (v shift bits : Z) : Z := Z.shiftl (Z.land v (Z.ones bits)) shift.

Definition compose_opcode (d : IoDir) (group num size : Z) : Z :=
  Z.lor (Z.lor (Z.lor (mask_and_shift group 8 8) (mask_and_shift num 0 8)) (mask_and_shift size 16 14))
        (mask_and_shift (dir_bits d) 30 2).

Definition none (group num : Z) : Z := compose_opcode DNone group num 0.
Definition read_ (group num size : Z) : Z := compose_opcode DRead group num size.
Definition write_ (group num size : Z) : Z := compose_opcode DWrite group num size.

Lemma lor_shift a b k : 0 <= k -> 0 <= a < 2 ^ k -> Z.lor a (Z.shiftl b k) = a + b * 2 ^ k.
Proof.
  intros Hk Ha. assert (Z.land a (Z.shiftl b k) = 0) as Hl.
  { apply Z.bits_inj'. intros n Hn. rewrite Z.land_spec, Z.bits_0, Z.shiftl_spec by done.
    destruct (Z_lt_le_dec n k) as [Hlt|Hge]; [rewrite (Z.testbit_neg_r b) by lia; by rewrite andb_false_r|].
    destruct (decide (a = 0)) as [->|]; [by rewrite Z.bits_0|]. rewrite (Z.bits_above_log2 a n); [done|lia|].
    apply Z.log2_lt_pow2; [lia|]. assert (2 ^ k <= 2 ^ n) by (apply Z.pow_le_mono_r; lia). lia. }
  rewrite <- Z.lxor_lor, <- Z.add_nocarry_lxor by done. by rewrite Z.shiftl_mul_pow2.
Qed.

(** The fields of a number can be told apart again. *)
Lemma opcode_fields d group num size :
  0 <= group < 256 -> 0 <= num < 256 -> 0 <= size < 2 ^ 14 ->
  let op := compose_opcode d group num size in
  op mod 256 = num /\ op / 2 ^ 8 mod 256 = group /\ op / 2 ^ 16 mod 2 ^ 14 = size /\ op / 2 ^ 30 = dir_bits d.
Proof.
  intros Hg Hn Hs op.
  assert (0 <= dir_bits d < 4) as Hd by (destruct d; done).
  assert (op = num + group * 2 ^ 8 + size * 2 ^ 16 + dir_bits d * 2 ^ 30) as ->.
  { unfold op, compose_opcode, mask_and_shift. rewrite !Z.land_ones by lia.
    rewrite !Z.mod_small by lia. rewrite Z.shiftl_0_r, (Z.lor_comm _ num). rewrite (lor_shift num) by lia.
    rewrite (lor_shift (num + _)) by lia. rewrite lor_shift by lia. done. }
  split_and!.
  - symmetry. apply (Z.mod_unique _ _ (group + size * 2 ^ 8 + dir_bits d * 2 ^ 22)); lia.
  - rewrite <- (Z.div_unique _ _ (group + size * 2 ^ 8 + dir_bits d * 2 ^ 22) num); [|lia|lia].
    symmetry. apply (Z.mod_unique _ _ (size + dir_bits d * 2 ^ 14)); lia.
  - rewrite <- (Z.div_unique _ _ (size + dir_bits d * 2 ^ 14) (num + group * 2 ^ 8)); [|lia|lia].
    symmetry. apply (Z.mod_unique _ _ (dir_bits d)); lia.
  - symmetry. apply (Z.div_unique _ _ _ (num + group * 2 ^ 8 + size * 2 ^ 16)); lia.
Qed.

(** ** The requests *)

Definition G : Z := 103.
Definition FIFO_STATUS : Z := none G 1.
Definition FIFO_FLUSH : Z := none G 2.
Definition CLEAR_HALT : Z := none G 3.
Definition INTERFACE_REVMAP : Z := none G 128.
Definition ENDPOINT_REVMAP : Z := none G 129.
Definition ENDPOINT_DESC : Z := read_ G 130 9.
Definition DMABUF_ATTACH : Z := write_ G 131 4.
Definition DMABUF_DETACH : Z := write_ G 132 4.
Definition DMABUF_TRANSFER : Z := write_ G 133 16.

(** What an ioctl passes to the kernel: nothing, an integer in place of the
    pointer, or a pointer to these bytes. *)
Inductive Arg := ANull | AInt (v : Z) | APtr (bytes : list byte).

(** A request of the kernel: the returned integer and the memory behind the
    pointer afterwards. *)
Class FfsIoctl := k_ioctl : Z -> Arg -> io_result (Z * list byte).

Section Requests.
Context `{FfsIoctl}.

(** [ReturnInt] and [IntReturnInt]. *)
Definition return_int (op : Z) : io_result Z := let? r := k_ioctl op ANull in Ok r.1.
Definition int_return_int (op value : Z) : io_result Z := let? r := k_ioctl op (AInt value) in Ok r.1.
(** rustix's [Setter] and [Updater]. *)
Definition setter (op : Z) (input : list byte) : io_result unit := let? _ := k_ioctl op (APtr input) in Ok tt.
Definition updater (op : Z) (buf : list byte) : io_result (list byte) := let? r := k_ioctl op (APtr buf) in Ok r.2.

Definition fifo_status : io_result Z := return_int FIFO_STATUS.
Definition fifo_flush : io_result Z := return_int FIFO_FLUSH.
Definition ffs_clear_halt : io_result Z := return_int CLEAR_HALT.
Definition interface_revmap (val : Z) : io_result Z := int_return_int INTERFACE_REVMAP val.
Definition endpoint_revmap : io_result Z := return_int ENDPOINT_REVMAP.
Definition endpoint_desc (buf : list byte) : io_result (list byte) := updater ENDPOINT_DESC buf.
Definition ffs_dmabuf_attach (fd : Z) : io_result unit := setter DMABUF_ATTACH (le_bytes 4 fd).
Definition ffs_dmabuf_detach (fd : Z) : io_result unit := setter DMABUF_DETACH (le_bytes 4 fd).

(** The transfer request in memory, and the call: the input of the setter is the
    reference [req], so that the pointer the kernel gets leads to the address of
    the request, which is [address], and not to the request. *)
Definition transfer_req (fd flags length : Z) : list byte := le_bytes 4 fd ++ le_bytes 4 flags ++ le_bytes 8 length.
Definition ffs_dmabuf_transfer (address : Z) (req : list byte) : io_result unit :=
  setter DMABUF_TRANSFER (le_bytes 8 address).

(** ** [EndpointControl] *)

Context {D : Type}.
Abbreviation E := (Ep D).

(** The file of the endpoint, while the gadget is there. *)
Definition with_file {A} (r : io_result A) : M E A := io_get >>; io_file >>; lift r.

Definition unclaimed_fifo : M E Z := with_file fifo_status.
Definition discard_fifo : M E unit := with_file (let? _ := fifo_flush in Ok tt).

(** A transfer in the wrong direction; [xfer] is its outcome for a read and for a
    write. *)
Definition ep_halt (xfer : Direction -> io_result Z) (d : Direction) : M E unit :=
  with_file (let? _ := xfer (match d with DeviceToHost => HostToDevice | HostToDevice => DeviceToHost end) in Ok tt).

Definition ep_clear_halt : M E unit := with_file (let? _ := ffs_clear_halt in Ok tt).

(** [as u8]. *)
Definition real_address : M E Z := with_file (let? a := endpoint_revmap in Ok (wrap 8 a)).
Definition intf_real_address (intf : Z) : io_result Z := let? a := interface_revmap intf in Ok (wrap 8 a).

Definition descriptor : M E EndpointDesc :=
  with_file (let? data := endpoint_desc (replicate 9 Byte.x00) in endpoint_parse data).

Definition max_packet_size : M E Z := do! d := descriptor in ret (ed_max_packet_size d).

Definition dmabuf_attach (fd : Z) : M E unit := with_file (ffs_dmabuf_attach fd).
Definition dmabuf_detach (fd : Z) : M E unit := with_file (ffs_dmabuf_detach fd).
Definition dmabuf_transfer (address fd length : Z) : M E unit :=
  with_file (ffs_dmabuf_transfer address (transfer_req fd 0 length)).

(** ** Properties *)

Lemma with_file_present {A} (r : io_result A) (e : E) :
  ep_io e = Ok tt -> ep_file e = true -> with_file r e = (r, e).
Proof. intros Hi Hf. unfold with_file. rewrite io_get_bind by done. unfold io_file, bind, gets. cbn. rewrite Hf. by destruct r. Qed.

Lemma with_file_removed {A} (r : io_result A) (e : E) :
  ep_io e = Ok tt -> ep_file e = false -> with_file r e = (Err removed_error, e).
Proof. intros Hi Hf. unfold with_file. rewrite io_get_bind by done. unfold io_file, bind, gets. cbn. by rewrite Hf. Qed.
End Requests.

(** How the kernel answers for the descriptor of endpoint [d]: it fills the front
    of the buffer. *)
Definition answers_descriptor (k : FfsIoctl) (d : EndpointDesc) : Prop :=
  exists b, desc_to_bytes (DEndpoint d) = Ok b /\
    forall buf, length buf = 9%nat -> k ENDPOINT_DESC (APtr buf) = Ok (0, b ++ drop (length b) buf).

(** The descriptor in use is read back as the kernel has it: when the kernel
    answers with the bytes of an endpoint's descriptor, with or without its audio
    part, the program gets that descriptor and its packet size, and changes
    nothing; after the gadget is removed every control request fails with a broken
    pipe and reaches no kernel. *)
Theorem descriptor_in_use `{K : FfsIoctl} {D} (e : Ep D) d :
  ep_io e = Ok tt -> desc_fits (DEndpoint d) -> answers_descriptor K d ->
  (ep_file e = true -> descriptor e = (Ok d, e) /\ max_packet_size e = (Ok (ed_max_packet_size d), e)) /\
  (ep_file e = false ->
     descriptor e = (Err removed_error, e) /\ max_packet_size e = (Err removed_error, e) /\
     real_address e = (Err removed_error, e) /\ ep_clear_halt e = (Err removed_error, e) /\
     forall fd, dmabuf_attach fd e = (Err removed_error, e)).
Proof.
  intros Hi Hd (b & Hb & Hk). split; intros Hf.
  - assert (descriptor e = (Ok d, e)) as He.
    { unfold descriptor. rewrite with_file_present by done. f_equal. unfold endpoint_desc, updater, k_ioctl.
      rewrite Hk by done. cbn [rbind snd]. by apply endpoint_parse_write. }
    split; [done|]. unfold max_packet_size. by rewrite (bind_Ok _ _ _ _ _ He).
  - assert (descriptor e = (Err removed_error, e)) as He by (by apply with_file_removed).
    split_and!; try done; try by apply with_file_removed.
    + unfold max_packet_size, bind. by rewrite He.
    + intros fd. by apply with_file_removed.
Qed.

(** The kernel's view of a transfer request: the file descriptor is the first
    word. *)
Definition kernel_sees_fd (a : Arg) : Z := match a with APtr bytes => le_val (take 4 bytes) | _ => 0 end.

Example transfer_passes_the_request fd len :
  0 <= fd < 2 ^ 31 -> kernel_sees_fd (APtr (transfer_req fd 0 len)) = fd.
Proof.
  intros Hfd. unfold kernel_sees_fd, transfer_req. rewrite take_app_length' by (by rewrite length_le_bytes).
  apply le_val_le_bytes. change (256 ^ Z.of_nat 4) with (2 ^ 32). lia.
Qed.

Lemma le_val_le_bytes_mod n z : le_val (le_bytes n z) = z mod 256 ^ Z.of_nat n.
Proof.
  revert z. induction n as [|n IH]; intros z; cbn [le_bytes le_val]; [by rewrite Z.mod_1_r|].
  rewrite IH, b2z_z2b, Nat2Z.inj_succ, Z.pow_succ_r by lia. unfold wrap. change (2 ^ 8) with 256.
  rewrite Z.rem_mul_r; lia.
Qed.

(** A DMA transfer does not reach its buffer: the kernel is given the address of
    the request instead of the request, and takes the low half of the address for
    the file descriptor, whatever was asked for. *)
Theorem dmabuf_transfer_misdirected (k : FfsIoctl) (buffer : Z -> io_result (Z * list byte)) address req :
  (forall a, k DMABUF_TRANSFER a = buffer (kernel_sees_fd a)) ->
  ffs_dmabuf_transfer address req = (let? _ := buffer (address mod 2 ^ 32) in Ok tt).
Proof.
  intros Hk. unfold ffs_dmabuf_transfer, setter, k_ioctl. rewrite Hk. cbn [kernel_sees_fd].
  assert (take 4 (le_bytes 8 address) = le_bytes 4 address) as -> by reflexivity.
  by rewrite le_val_le_bytes_mod.
Qed.

(** ** A kernel *)

Module EpControlDemo.
Definition bulk_in : EndpointDesc :=
  {| ed_endpoint_address := 129; ed_attributes := 2; ed_max_packet_size := 512; ed_interval := 0; ed_audio := None |}.

(** An endpoint, and a DMA buffer with file descriptor 5. *)
Definition demo_ioctl : FfsIoctl := fun op a =>
  match a with
  | APtr buf =>
      if op =? ENDPOINT_DESC then Ok (0, write_u8 7 ++ endpoint_write bulk_in ++ drop 7 buf)
      else if op =? DMABUF_TRANSFER then
        if kernel_sees_fd a =? 5 then Ok (0, buf) else Err (Os 9)
      else Err (Os 25)
  | _ => Err (Os 25)
  end.

Definition demo_ep : Ep unit := {| ep_io := Ok tt; ep_file := true; ep_aio := tt |}.

Lemma demo_answers : answers_descriptor demo_ioctl bulk_in.
Proof. exists (write_u8 7 ++ endpoint_write bulk_in). split; [reflexivity|]. intros buf Hb. reflexivity. Qed.

Lemma descriptor_in_use_witness : max_packet_size (H := demo_ioctl) demo_ep = (Ok 512, demo_ep).
Proof.
  destruct (descriptor_in_use (K := demo_ioctl) demo_ep bulk_in) as [Hin _];
    [reflexivity|vm_compute; repeat split; discriminate|exact demo_answers|].
  destruct (Hin eq_refl) as [_ Hm]. exact Hm.
Defined.

(** The buffer is there and the transfer would be accepted. *)
Example demo_transfer_fails :
  demo_ioctl DMABUF_TRANSFER (APtr (transfer_req 5 0 4096)) = Ok (0, transfer_req 5 0 4096) /\
  ffs_dmabuf_transfer (H := demo_ioctl) 140737488351232 (transfer_req 5 0 4096) = Err (Os 9).
Proof. split; reflexivity. Qed.
End EpControlDemo.
