(* ===== verification/Ep0.v ===== *)
(** * Control requests on endpoint zero

    Models the custom function's side of endpoint zero in
    patches/usb-gadget/src/function/custom/mod.rs: reading events, the control
    request an event may carry, the replies to it, and the stall of a request
    that was not answered. The endpoint is the interface [Ep0Kernel], with what
    FunctionFS documents of it as [Ep0Laws]. *)

From stdpp Require Import base list relations.
From S2P Require Import Prelude Io Bytes FfsDesc FfsBuild.

Definition EL2HLT : Z := 51.

(** ** The endpoint *)

(** [k0_pending] is the request the endpoint waits to be answered. *)
Class Ep0Kernel (K : Type) := {
  k0_read : nat -> K -> io_result (list byte) * K;
  k0_write : list byte -> K -> io_result nat * K;
  (** Whether an event arrives within a time, if one is given. *)
  k0_poll : option Z -> K -> io_result bool * K;
  k0_pending : K -> option Direction;
}.

(** The types of events. *)
Definition BIND : Z := 0.
Definition UNBIND : Z := 1.
Definition ENABLE : Z := 2.
Definition DISABLE : Z := 3.
Definition SETUP : Z := 4.
Definition SUSPEND : Z := 5.
Definition RESUME : Z := 6.

(** The direction a raw event asks for, if it is a control request. *)
Definition raw_setup (buf : list byte) : option Direction :=
  raw ← event_parse buf;
  if rv_event_type raw =? SETUP then
    req ← ctrl_req_parse (rv_data raw);
    Some (if negb (Z.land (rc_request_type req) DIR_IN =? 0) then DeviceToHost else HostToDevice)
  else None.

(** The call that stalls a request of a direction. *)
Definition stalls {K} `{Ep0Kernel K} (d : Direction) (k : K) : io_result unit * K :=
  match d with
  | DeviceToHost => let (r, k) := k0_read 1 k in (rbind r (fun _ => Ok tt), k)
  | HostToDevice => let (r, k) := k0_write [Byte.x00] k in (rbind r (fun _ => Ok tt), k)
  end.

(** No request but one of a direction is pending. *)
Definition at_most {K} `{Ep0Kernel K} (d : Direction) (k : K) : Prop := k0_pending k = None \/ k0_pending k = Some d.

(** The answer to an I/O against the direction of the pending request: it is
    stalled, or the host has given it up. *)
Definition refused {A} (r : io_result A) : Prop := r = Err (Os EL2HLT) \/ r = Err (Os EIDRM).

(** An I/O against the direction of a request settles it. One in its direction
    answers it, or fails. Without a request a read takes an event, of which only
    a control request leaves one pending. *)
Class Ep0Laws {K} `(Ep0Kernel K) : Prop := {
  stall_read_law n k : k0_pending k = Some DeviceToHost ->
    refused (k0_read n k).1 /\ k0_pending (k0_read n k).2 = None;
  stall_write_law data k : k0_pending k = Some HostToDevice ->
    refused (k0_write data k).1 /\ k0_pending (k0_write data k).2 = None;
  answer_read_law n k : k0_pending k = Some HostToDevice ->
    match (k0_read n k).1 with
    | Ok data => (length data <= n)%nat /\ k0_pending (k0_read n k).2 = None
    | Err _ => at_most HostToDevice (k0_read n k).2
    end;
  answer_write_law data k : k0_pending k = Some DeviceToHost ->
    match (k0_write data k).1 with
    | Ok _ => k0_pending (k0_write data k).2 = None
    | Err _ => at_most DeviceToHost (k0_write data k).2
    end;
  event_law n k : k0_pending k = None ->
    match (k0_read n k).1 with
    | Ok buf => (length buf <= n)%nat /\
        k0_pending (k0_read n k).2 = (if (length buf =? EVENT_SIZE)%nat then raw_setup buf else None)
    | Err _ => k0_pending (k0_read n k).2 = None
    end;
  idle_write_law data k : k0_pending k = None -> k0_pending (k0_write data k).2 = None;
  poll_law t k : k0_pending (k0_poll t k).2 = k0_pending k;
}.

(** ** The custom function *)

(** The endpoint's file is there from the registration to the removal. *)
Record CustomFn (K : Type) := {
  c_ep0 : io_result unit;
  c_setup_event : option Direction;
  c_kernel : K;
}.
Arguments c_ep0 {K}. Arguments c_setup_event {K}. Arguments c_kernel {K}.

Inductive UsbEvent :=
| EvBind | EvUnbind | EvEnable | EvDisable | EvSuspend | EvResume
| EvSetupHostToDevice (req : RawCtrlReq)
| EvSetupDeviceToHost (req : RawCtrlReq)
| EvUnknown (code : Z).

Section Custom.
Context {K : Type} `{Ep0Kernel K}.
Abbreviation C := (CustomFn K).

Definition ep0 : M C unit := do! r := gets c_ep0 in lift r.

Definition set_setup (d : option Direction) : M C unit :=
  modify (fun c => {| c_ep0 := c_ep0 c; c_setup_event := d; c_kernel := c_kernel c |}).

(** A call on the endpoint. *)
Definition io {A} (op : K -> io_result A * K) : M C A := fun c =>
  let (r, k) := op (c_kernel c) in (r, {| c_ep0 := c_ep0 c; c_setup_event := c_setup_event c; c_kernel := k |}).

(** [EL2HLT] is the expected answer to a stall. *)
Definition stall (d : Direction) : M C unit :=
  do! r := attempt (io (stalls d)) in
  match r with
  | Ok _ => ret tt
  | Err e => if bool_decide (raw_os_error e = Some EL2HLT) then ret tt else throw e
  end.

(** [setup_event.take()] comes before the I/O. *)
Definition clear_prev_event : M C unit :=
  ep0 >>;
  do! prev := gets c_setup_event in
  set_setup None >>;
  match prev with Some d => stall d | None => ret tt end.

(** [Event::from_ffs]. *)
Definition from_ffs (raw : RawEvent) : M C UsbEvent :=
  let ty := rv_event_type raw in
  if ty =? BIND then ret EvBind
  else if ty =? UNBIND then ret EvUnbind
  else if ty =? ENABLE then ret EvEnable
  else if ty =? DISABLE then ret EvDisable
  else if ty =? SUSPEND then ret EvSuspend
  else if ty =? RESUME then ret EvResume
  else if ty =? SETUP then
    match ctrl_req_parse (rv_data raw) with
    | None => throw (Custom KInvalidData "invalid data")
    | Some req =>
        if negb (Z.land (rc_request_type req) DIR_IN =? 0) then
          set_setup (Some DeviceToHost) >>; ret (EvSetupDeviceToHost req)
        else set_setup (Some HostToDevice) >>; ret (EvSetupHostToDevice req)
    end
  else ret (EvUnknown ty).

Definition read_event : M C UsbEvent :=
  ep0 >>;
  do! buf := io (k0_read EVENT_SIZE) in
  if negb (length buf =? EVENT_SIZE)%nat then throw (Custom KInvalidData "invalid event size") else
  match event_parse buf with
  | None => throw (Custom KInvalidData "invalid data")
  | Some raw => from_ffs raw
  end.

Definition wait_event_sync (timeout : option Z) : M C bool := ep0 >>; io (k0_poll timeout).

Definition event : M C UsbEvent := clear_prev_event >>; read_event.

(** [wait_event]: readiness of the endpoint, which a poll without a time limit
    waits for. *)
Definition wait_event : M C unit := ep0 >>; do! _ := io (k0_poll None) in ret tt.

Definition event_async : M C UsbEvent := clear_prev_event >>; wait_event >>; read_event.

Definition event_timeout (timeout : Z) : M C (option UsbEvent) :=
  do! there := wait_event_sync (Some timeout) in
  if there then do! e := read_event in ret (Some e) else ret None.

Definition has_event : M C bool :=
  do! r := attempt (wait_event_sync (Some 0)) in ret (match r with Ok b => b | Err _ => false end).

Definition try_event : M C (option UsbEvent) :=
  clear_prev_event >>;
  do! there := has_event in
  if there then do! e := read_event in ret (Some e) else ret None.

(** ** Replies *)

(** The sender and receiver of a control request differ in the direction of
    their I/O; [do_halt] is the stall of their direction. *)
Definition do_halt (d : Direction) : M C unit := ep0 >>; stall d >>; set_setup None.

(** [Drop]: a request that was not answered is stalled, an error ignored. *)
Definition drop_ctrl (d : Direction) : M C unit :=
  do! open := gets c_setup_event in
  match open with Some _ => do! _ := attempt (do_halt d) in ret tt | None => ret tt end.

(** A method that takes the object drops it at its end. *)
Definition consuming {A} (d : Direction) (body : M C A) : M C A :=
  do! r := attempt body in drop_ctrl d >>; lift r.

Definition ctrl_halt (d : Direction) : M C unit := consuming d (do_halt d).

Definition ctrl_send (data : list byte) : M C nat :=
  consuming DeviceToHost (ep0 >>; do! n := io (k0_write data) in set_setup None >>; ret n).

Definition ctrl_recv (len : nat) : M C (list byte) :=
  consuming HostToDevice (ep0 >>; do! data := io (k0_read len) in set_setup None >>; ret data).

(** [recv_all]: a buffer of the request's length, cut to what came. *)
Definition ctrl_recv_all (req : RawCtrlReq) : M C (list byte) := ctrl_recv (Z.to_nat (rc_length req)).

(** The asynchronous forms: the I/O runs on a thread, unless the runtime is being
    shut down. *)
Definition spawn_blocking {A} (shut_down : bool) (op : K -> io_result A * K) : M C A :=
  if shut_down then throw (other "task was cancelled") else io op.

Definition ctrl_send_async (shut_down : bool) (data : list byte) : M C nat :=
  consuming DeviceToHost (ep0 >>; set_setup None >>; spawn_blocking shut_down (k0_write data)).

Definition ctrl_recv_async (shut_down : bool) (len : nat) : M C (list byte) :=
  consuming HostToDevice (ep0 >>; set_setup None >>; spawn_blocking shut_down (k0_read len)).

Definition ctrl_recv_all_async (shut_down : bool) (req : RawCtrlReq) : M C (list byte) :=
  ctrl_recv_async shut_down (Z.to_nat (rc_length req)).
End Custom.

(** ** Every request is settled *)

Section Settled.
Context {K : Type} `{Ep0Laws K}.
Abbreviation C := (CustomFn K).

(** A pending request is one the object knows of. *)
Definition known (c : C) : Prop :=
  forall d, k0_pending (c_kernel c) = Some d -> c_setup_event c = Some d.

Lemma stalls_settles d k : at_most d k -> k0_pending (stalls d k).2 = None.
Proof.
  intros [Hk|Hk]; destruct d; cbn [stalls].
  - pose proof (event_law 1 k Hk) as He. destruct (k0_read 1 k) as [[buf|e] k']; cbn in *; [|done].
    destruct He as [Hl ->]. destruct (Nat.eqb_spec (length buf) EVENT_SIZE) as [E|]; [|done].
    rewrite E in Hl. unfold EVENT_SIZE in Hl. lia.
  - pose proof (idle_write_law [Byte.x00] k Hk) as He. by destruct (k0_write _ k).
  - pose proof (stall_read_law 1 k Hk) as He. destruct (k0_read 1 k). by destruct He.
  - pose proof (stall_write_law [Byte.x00] k Hk) as He. destruct (k0_write _ k). by destruct He.
Qed.

Lemma stall_settles d (c : C) :
  at_most d (c_kernel c) ->
  k0_pending (c_kernel (stall d c).2) = None /\ c_setup_event (stall d c).2 = c_setup_event c /\
  c_ep0 (stall d c).2 = c_ep0 c.
Proof.
  intros Hk%stalls_settles. unfold stall. rewrite bind_attempt. unfold io.
  destruct (stalls d (c_kernel c)) as [r k]. cbn [fst snd]. destruct r; [done|]. by case_bool_decide.
Qed.

(** Everything starts with the endpoint's file. *)
Lemma ep0_bind {A} (k : M C A) c :
  (ep0 >>; k) c = match c_ep0 c with Ok _ => k c | Err e => (Err e, c) end.
Proof. unfold ep0, bind, gets, lift. by destruct (c_ep0 c) as [[]|]. Qed.

(** After the drop nothing is pending, if the endpoint is still there. *)
Lemma drop_settles d (c : C) :
  c_ep0 c = Ok tt -> at_most d (c_kernel c) -> known c ->
  k0_pending (c_kernel (drop_ctrl d c).2) = None.
Proof.
  intros He Hk Hkn. unfold drop_ctrl. rewrite bind_gets. destruct (c_setup_event c) eqn:Es.
  - rewrite bind_attempt. unfold do_halt. rewrite ep0_bind, He.
    destruct (stall_settles d c Hk) as (Hs & _). unfold bind. by destruct (stall d c) as [[]].
  - cbn. destruct (k0_pending (c_kernel c)) as [d'|] eqn:Ek; [|done]. specialize (Hkn _ Ek). congruence.
Qed.

Lemma known_none (c : C) : k0_pending (c_kernel c) = None -> known c.
Proof. intros Hn d. congruence. Qed.

(** With the endpoint gone nothing happens. *)
Lemma drop_gone d (c : C) e : c_ep0 c = Err e -> (drop_ctrl d c).2 = c.
Proof.
  intros He. unfold drop_ctrl. rewrite bind_gets. destruct (c_setup_event c); [|done].
  rewrite bind_attempt. unfold do_halt. rewrite ep0_bind, He. done.
Qed.

Lemma drop_keeps_ep0 d (c : C) : c_ep0 (drop_ctrl d c).2 = c_ep0 c.
Proof.
  unfold drop_ctrl. rewrite bind_gets. destruct (c_setup_event c); [|done]. rewrite bind_attempt.
  unfold do_halt. rewrite ep0_bind. destruct (c_ep0 c) as [[]|e] eqn:He; [|done]. unfold stall. rewrite bind_assoc, bind_attempt. unfold io.
  destruct (stalls d (c_kernel c)) as [[]]; cbn; [done|]. by case_bool_decide.
Qed.

(** A reply: with the endpoint there it answers the request or leaves it to the
    drop; without it, it does nothing. *)
Definition reply (d : Direction) {A} (body : M C A) : Prop := forall c,
  c_ep0 c = Ok tt -> known c -> k0_pending (c_kernel c) = Some d ->
  c_ep0 (body c).2 = c_ep0 c /\ known (body c).2 /\ at_most d (c_kernel (body c).2).

Lemma consuming_settles d {A} (body : M C A) c :
  reply d body -> known c -> k0_pending (c_kernel c) = Some d ->
  c_ep0 (consuming d (ep0 >>; body) c).2 = c_ep0 c /\ known (consuming d (ep0 >>; body) c).2 /\
  (c_ep0 c = Ok tt -> k0_pending (c_kernel (consuming d (ep0 >>; body) c).2) = None).
Proof.
  intros Hb Hkn Hp. unfold consuming. rewrite bind_attempt, ep0_bind. destruct (c_ep0 c) as [[]|e] eqn:E; cbn [fst snd].
  - destruct (Hb c E Hkn Hp) as (He & Hkn1 & Hp1). destruct (body c) as [r c1]. cbn [fst snd] in *. unfold bind.
    pose proof (drop_keeps_ep0 d c1) as He2. rewrite E in He. pose proof (drop_settles d c1 He Hp1 Hkn1) as Hs.
    rewrite He in He2. destruct (drop_ctrl d c1) as [[] c2]; cbn in *; split_and!; auto using known_none.
  - pose proof (drop_gone d c e E) as Hg. unfold bind. destruct (drop_ctrl d c) as [x c2]; cbn in Hg; subst c2.
    by destruct x.
Qed.

(** An I/O in the direction of the request. *)
Lemma reply_io d {A} (op : K -> io_result A * K) :
  (forall k, k0_pending k = Some d ->
     match (op k).1 with Ok _ => k0_pending (op k).2 = None | Err _ => at_most d (op k).2 end) ->
  reply d (do! n := io op in set_setup None >>; ret n).
Proof.
  intros Hop c He Hkn Hp. unfold bind, io. specialize (Hop _ Hp).
  destruct (op (c_kernel c)) as [[n|e] k']; cbn in *.
  - split; [done|]. split; [by apply known_none|by left].
  - split; [done|]. split; [|done]. intros d' Hd. cbn in Hd. apply Hkn. destruct Hop; congruence.
Qed.

Lemma send_settles data c :
  known c -> k0_pending (c_kernel c) = Some DeviceToHost ->
  c_ep0 (ctrl_send data c).2 = c_ep0 c /\ known (ctrl_send data c).2 /\
  (c_ep0 c = Ok tt -> k0_pending (c_kernel (ctrl_send data c).2) = None).
Proof. apply consuming_settles, reply_io. intros k. apply answer_write_law. Qed.

Lemma recv_settles len c :
  known c -> k0_pending (c_kernel c) = Some HostToDevice ->
  c_ep0 (ctrl_recv len c).2 = c_ep0 c /\ known (ctrl_recv len c).2 /\
  (c_ep0 c = Ok tt -> k0_pending (c_kernel (ctrl_recv len c).2) = None).
Proof.
  apply consuming_settles, reply_io. intros k Hk. pose proof (answer_read_law len k Hk) as Hr.
  destruct (fst _); [by destruct Hr|done].
Qed.

Lemma halt_settles d c :
  known c -> k0_pending (c_kernel c) = Some d ->
  c_ep0 (ctrl_halt d c).2 = c_ep0 c /\ known (ctrl_halt d c).2 /\
  (c_ep0 c = Ok tt -> k0_pending (c_kernel (ctrl_halt d c).2) = None).
Proof.
  apply (consuming_settles d). intros c' He Hkn Hp. destruct (stall_settles d c' (or_intror Hp)) as (Hs & _ & He').
  unfold bind. destruct (stall d c') as [[]]; cbn in *; (split; [done|]); (split; [by apply known_none|by left]).
Qed.

(** An asynchronous reply forgets the request before its I/O: it is settled when
    the I/O succeeds. *)
Lemma async_settles d {A} (op : K -> io_result A * K) c a c' :
  (forall k, k0_pending k = Some d -> forall x, (op k).1 = Ok x -> k0_pending (op k).2 = None) ->
  k0_pending (c_kernel c) = Some d ->
  consuming d (ep0 >>; set_setup None >>; spawn_blocking false op) c = (Ok a, c') ->
  c_ep0 c' = c_ep0 c /\ k0_pending (c_kernel c') = None.
Proof.
  intros Hop Hp. unfold consuming. rewrite bind_attempt, ep0_bind. destruct (c_ep0 c) as [[]|e] eqn:E; cbn [fst snd].
  - unfold set_setup. rewrite bind_modify. cbn [spawn_blocking]. unfold io. cbn [c_kernel c_setup_event].
    specialize (Hop _ Hp). destruct (op (c_kernel c)) as [[x|e] k']; [|done]. intros [= <- <-]. cbn. split; [done|]. by eapply Hop.
  - unfold bind. by destruct (drop_ctrl d c) as [[]].
Qed.

(** *** Reading events *)

(** The request an event carries. *)
Definition holds (e : UsbEvent) : option Direction :=
  match e with
  | EvSetupHostToDevice _ => Some HostToDevice
  | EvSetupDeviceToHost _ => Some DeviceToHost
  | _ => None
  end.

Definition holds_result (r : io_result UsbEvent) : option Direction :=
  match r with Ok e => holds e | Err _ => None end.

(** What a computation of the program leaves when it was started with nothing
    pending: the request of the event it returned, known to the object. *)
Definition delivers (c : C) (o : io_result UsbEvent * C) : Prop :=
  c_ep0 o.2 = c_ep0 c /\ known o.2 /\
  match c_ep0 c with
  | Ok _ => k0_pending (c_kernel o.2) = holds_result o.1
  | Err _ => holds_result o.1 = None
  end.

Lemma from_ffs_delivers raw c :
  c_ep0 c = Ok tt ->
  k0_pending (c_kernel c) =
    (if rv_event_type raw =? SETUP then
       req ← ctrl_req_parse (rv_data raw);
       Some (if negb (Z.land (rc_request_type req) DIR_IN =? 0) then DeviceToHost else HostToDevice)
     else None) ->
  delivers c (from_ffs raw c).
Proof.
  intros He Hp. unfold from_ffs, delivers. rewrite He. cbn zeta.
  destruct (Z.eqb_spec (rv_event_type raw) SETUP) as [Hs|Hs]; [rewrite Hs; cbn [Z.eqb SETUP BIND UNBIND ENABLE DISABLE SUSPEND RESUME Pos.eqb]|].
  - destruct (ctrl_req_parse (rv_data raw)) as [req|]; cbn in Hp.
    + destruct (negb _); cbn; (split; [done|]); (split; [|done]); intros d; cbn; congruence.
    + cbn. split; [done|]. split; [by apply known_none|done].
  - repeat (destruct (Z.eqb _ _); [cbn; split; [done|]; split; [by apply known_none|done]|]).
    cbn. split; [done|]. split; [by apply known_none|done].
Qed.

Lemma read_event_delivers c : k0_pending (c_kernel c) = None -> delivers c (read_event c).
Proof.
  intros Hp. unfold read_event. rewrite ep0_bind. unfold delivers. destruct (c_ep0 c) as [[]|e] eqn:E.
  2: { split; [done|]. split; [by apply known_none|done]. }
  pose proof (event_law EVENT_SIZE _ Hp) as He. unfold bind, io.
  destruct (k0_read EVENT_SIZE (c_kernel c)) as [[buf|e] k]; cbn [fst snd] in He.
  2: { split; [done|]. split; [by apply known_none|done]. }
  destruct He as [_ He]. destruct (Nat.eqb_spec (length buf) EVENT_SIZE) as [Hl|Hl]; cbn [negb].
  2: { split; [done|]. split; [by apply known_none|done]. }
  unfold raw_setup in He. destruct (event_parse buf) as [raw|]; cbn [mbind option_bind] in He.
  - pose proof (from_ffs_delivers raw {| c_ep0 := c_ep0 c; c_setup_event := c_setup_event c; c_kernel := k |} E He) as Hd.
    unfold delivers in Hd. cbn [c_ep0] in Hd. rewrite ?E in Hd |- *. done.
  - split; [done|]. split; [by apply known_none|done].
Qed.

(** A forgotten request is stalled before the next event is read. *)
Lemma clear_prev_event_settles c :
  known c -> c_ep0 (clear_prev_event c).2 = c_ep0 c /\ known (clear_prev_event c).2 /\
    (c_ep0 c = Ok tt -> k0_pending (c_kernel (clear_prev_event c).2) = None).
Proof.
  intros Hkn. unfold clear_prev_event. rewrite ep0_bind.
  destruct (c_ep0 c) as [[]|e] eqn:E; [|cbn; split_and!; [done|done|intros [=]]].
  rewrite bind_gets. unfold set_setup. rewrite bind_modify.
  set (c1 := {| c_ep0 := _; c_setup_event := None; c_kernel := c_kernel c |}).
  destruct (c_setup_event c) as [d|] eqn:Es.
  - assert (at_most d (c_kernel c1)) as Hm.
    { unfold at_most, c1. cbn. destruct (k0_pending (c_kernel c)) as [d'|] eqn:Ek; [right|by left].
      specialize (Hkn _ Ek). congruence. }
    destruct (stall_settles d c1 Hm) as (Hs & _ & He). split; [cbn in He; congruence|]. split; [by apply known_none|done].
  - cbn. assert (k0_pending (c_kernel c) = None) as Hn.
    { destruct (k0_pending (c_kernel c)) as [d|] eqn:Ek; [|done]. specialize (Hkn _ Ek). congruence. }
    split; [done|]. split; [by apply known_none|done].
Qed.

Lemma poll_keeps timeout c :
  c_ep0 (wait_event_sync timeout c).2 = c_ep0 c /\
  c_setup_event (wait_event_sync timeout c).2 = c_setup_event c /\
  k0_pending (c_kernel (wait_event_sync timeout c).2) = k0_pending (c_kernel c).
Proof.
  unfold wait_event_sync. rewrite ep0_bind. destruct (c_ep0 c) as [[]|] eqn:E; [|done]. unfold io.
  pose proof (poll_law timeout (c_kernel c)) as Hp. by destruct (k0_poll timeout (c_kernel c)).
Qed.

Lemma wait_keeps c :
  c_ep0 (wait_event c).2 = c_ep0 c /\ c_setup_event (wait_event c).2 = c_setup_event c /\
  k0_pending (c_kernel (wait_event c).2) = k0_pending (c_kernel c).
Proof.
  unfold wait_event. rewrite ep0_bind. destruct (c_ep0 c) as [[]|] eqn:E; [|done]. unfold bind, io.
  pose proof (poll_law None (c_kernel c)) as Hp. by destruct (k0_poll None (c_kernel c)) as [[]].
Qed.

(** Something done with nothing pending or the endpoint gone. *)
Definition quiet (c : C) : Prop := known c /\ (c_ep0 c = Ok tt -> k0_pending (c_kernel c) = None).

Lemma quiet_delivers c e : quiet c -> delivers c (Err e, c).
Proof. intros [Hk Hp]. split_and!; [done..|]. destruct (c_ep0 c) as [[]|]; [by apply Hp|done]. Qed.

Lemma read_event_quiet c : quiet c -> delivers c (read_event c).
Proof.
  intros [Hk Hp]. destruct (c_ep0 c) as [[]|e] eqn:E; [by apply read_event_delivers, Hp|].
  unfold read_event. rewrite ep0_bind, E. split_and!; [done..|]. by rewrite E.
Qed.

Lemma delivers_trans c c1 o : c_ep0 c1 = c_ep0 c -> delivers c1 o -> delivers c o.
Proof. intros E (He & Hk & Hp). split_and!; [congruence|done|]. by rewrite <- E. Qed.

Lemma quiet_step c c1 : quiet c -> c_ep0 c1 = c_ep0 c -> c_setup_event c1 = c_setup_event c ->
  k0_pending (c_kernel c1) = k0_pending (c_kernel c) -> quiet c1.
Proof. intros [Hk Hp] He Hs Hn. split; [intros d; rewrite Hn, Hs; apply Hk|]. by rewrite He, Hn. Qed.

Lemma cleared_quiet c : known c -> quiet (clear_prev_event c).2 /\ c_ep0 (clear_prev_event c).2 = c_ep0 c.
Proof.
  intros Hk. destruct (clear_prev_event_settles c Hk) as (He & Hk1 & Hp). split; [|done]. split; [done|]. by rewrite He.
Qed.

Lemma event_delivers c : known c -> delivers c (event c).
Proof.
  intros [Hq He]%cleared_quiet. unfold event, bind. destruct (clear_prev_event c) as [[[]|e] c1]; cbn [fst snd] in *;
    (eapply delivers_trans; [done|]); [by apply read_event_quiet|by apply quiet_delivers].
Qed.

Lemma event_async_delivers c : known c -> delivers c (event_async c).
Proof.
  intros [Hq He]%cleared_quiet. unfold event_async, bind. destruct (clear_prev_event c) as [[[]|e] c1]; cbn [fst snd] in *;
    (eapply delivers_trans; [done|]); [|by apply quiet_delivers].
  destruct (wait_keeps c1) as (He2 & Hs2 & Hp2). pose proof (quiet_step _ _ Hq He2 Hs2 Hp2) as Hq2.
  destruct (wait_event c1) as [[b|e] c2]; cbn [fst snd] in *;
    (eapply delivers_trans; [done|]); [by apply read_event_quiet|by apply quiet_delivers].
Qed.

(** The optional event as a result: none is an error without effect. *)
Definition optional (o : io_result (option UsbEvent) * C) : io_result UsbEvent * C :=
  (match o.1 with Ok (Some e) => Ok e | Ok None => Err (other "no event") | Err e => Err e end, o.2).

Lemma optional_event (b : bool) c :
  quiet c -> delivers c (optional ((if b then do! e := read_event in ret (Some e) else ret None) c)).
Proof.
  intros Hq. destruct b; [|by apply quiet_delivers]. pose proof (read_event_quiet c Hq) as Hr.
  unfold bind. destruct (read_event c) as [[e|e] c']; done.
Qed.

Lemma event_timeout_delivers timeout c : quiet c -> delivers c (optional (event_timeout timeout c)).
Proof.
  intros Hq. unfold event_timeout, bind. destruct (poll_keeps (Some timeout) c) as (He2 & Hs2 & Hp2).
  pose proof (quiet_step _ _ Hq He2 Hs2 Hp2) as Hq2. destruct (wait_event_sync (Some timeout) c) as [[b|e] c2]; cbn [fst snd] in *;
    (eapply delivers_trans; [done|]); [by apply (optional_event b)|by apply quiet_delivers].
Qed.

Lemma try_event_delivers c : known c -> delivers c (optional (try_event c)).
Proof.
  intros [Hq He]%cleared_quiet. unfold try_event, bind. destruct (clear_prev_event c) as [[[]|e] c1]; cbn [fst snd] in *;
    (eapply delivers_trans; [done|]); [|by apply quiet_delivers].
  unfold has_event. rewrite bind_attempt. destruct (poll_keeps (Some 0) c1) as (He2 & Hs2 & Hp2).
  pose proof (quiet_step _ _ Hq He2 Hs2 Hp2) as Hq2. destruct (wait_event_sync (Some 0) c1) as [r c2]; cbn [fst snd] in *.
  eapply delivers_trans; [done|]. by apply (optional_event (match r with Ok b => b | Err _ => false end)).
Qed.

(** *** A program using the function *)

(** What the program holds: the object of a control request, which borrows the
    function, so that no event can be read meanwhile; whether it leaked one since
    events were last cleared; and whether the record of the pending request was
    lost, which happens in two ways: an asynchronous reply fails although the
    endpoint is there, or [event_timeout] is called after a leak. *)
Record Prog := { p_held : option Direction; p_forgot : bool; p_lost : bool; p_c : C }.

(** A reply that failed on an endpoint that is there. *)
Definition failed_reply {A} (c : C) (r : io_result A) : bool := is_ok (c_ep0 c) && negb (is_ok r).

Inductive api : Prog -> Prog -> Prop :=
| api_event f g c :
    api {| p_held := None; p_forgot := f; p_lost := g; p_c := c |}
        {| p_held := holds_result (event c).1; p_forgot := false; p_lost := g; p_c := (event c).2 |}
| api_event_async f g c :
    api {| p_held := None; p_forgot := f; p_lost := g; p_c := c |}
        {| p_held := holds_result (event_async c).1; p_forgot := false; p_lost := g; p_c := (event_async c).2 |}
| api_try_event f g c :
    api {| p_held := None; p_forgot := f; p_lost := g; p_c := c |}
        {| p_held := holds_result (optional (try_event c)).1; p_forgot := false; p_lost := g; p_c := (try_event c).2 |}
| api_event_timeout t f g c :
    api {| p_held := None; p_forgot := f; p_lost := g; p_c := c |}
        {| p_held := holds_result (optional (event_timeout t c)).1; p_forgot := false; p_lost := g || f;
           p_c := (event_timeout t c).2 |}
| api_send data f g c :
    api {| p_held := Some DeviceToHost; p_forgot := f; p_lost := g; p_c := c |}
        {| p_held := None; p_forgot := f; p_lost := g; p_c := (ctrl_send data c).2 |}
| api_recv len f g c :
    api {| p_held := Some HostToDevice; p_forgot := f; p_lost := g; p_c := c |}
        {| p_held := None; p_forgot := f; p_lost := g; p_c := (ctrl_recv len c).2 |}
| api_halt d f g c :
    api {| p_held := Some d; p_forgot := f; p_lost := g; p_c := c |}
        {| p_held := None; p_forgot := f; p_lost := g; p_c := (ctrl_halt d c).2 |}
| api_drop d f g c :
    api {| p_held := Some d; p_forgot := f; p_lost := g; p_c := c |}
        {| p_held := None; p_forgot := f; p_lost := g; p_c := (drop_ctrl d c).2 |}
| api_send_async shut data f g c :
    api {| p_held := Some DeviceToHost; p_forgot := f; p_lost := g; p_c := c |}
        {| p_held := None; p_forgot := f; p_lost := g || failed_reply c (ctrl_send_async shut data c).1;
           p_c := (ctrl_send_async shut data c).2 |}
| api_recv_async shut len f g c :
    api {| p_held := Some HostToDevice; p_forgot := f; p_lost := g; p_c := c |}
        {| p_held := None; p_forgot := f; p_lost := g || failed_reply c (ctrl_recv_async shut len c).1;
           p_c := (ctrl_recv_async shut len c).2 |}
| api_forget d f g c :
    api {| p_held := Some d; p_forgot := f; p_lost := g; p_c := c |}
        {| p_held := None; p_forgot := true; p_lost := g; p_c := c |}
| api_removed h f g c e :
    api {| p_held := h; p_forgot := f; p_lost := g; p_c := c |}
        {| p_held := h; p_forgot := f; p_lost := g;
           p_c := {| c_ep0 := Err e; c_setup_event := c_setup_event c; c_kernel := c_kernel c |} |}.

Definition settled (p : Prog) : Prop :=
  p_lost p = false ->
  known (p_c p) /\
  match p_held p with
  | Some d => k0_pending (c_kernel (p_c p)) = Some d
  | None => p_forgot p = false -> c_ep0 (p_c p) = Ok tt -> k0_pending (c_kernel (p_c p)) = None
  end.

Lemma delivers_settled f g c o :
  delivers c o -> settled {| p_held := holds_result o.1; p_forgot := f; p_lost := g; p_c := o.2 |}.
Proof.
  intros (He & Hk & Hp) _. split; [done|]. cbn. destruct (holds_result o.1) as [d|] eqn:Eh.
  - destruct (c_ep0 c); [done|]. done.
  - intros _ Hok. rewrite He in Hok. by rewrite Hok in Hp.
Qed.

Lemma reply_settled f g (c c' : C) :
  c_ep0 c' = c_ep0 c /\ known c' /\ (c_ep0 c = Ok tt -> k0_pending (c_kernel c') = None) ->
  settled {| p_held := None; p_forgot := f; p_lost := g; p_c := c' |}.
Proof. intros (He & Hk & Hp) _. split; [done|]. cbn. intros _ Hok. apply Hp. congruence. Qed.

(** An asynchronous reply that did not fail on the endpoint settles the request,
    or the endpoint was gone and nothing happened. *)
Lemma async_settled shut d {A} (op : K -> io_result A * K) f g c :
  (forall k, k0_pending k = Some d -> forall x, (op k).1 = Ok x -> k0_pending (op k).2 = None) ->
  k0_pending (c_kernel c) = Some d -> known c ->
  let o := consuming d (ep0 >>; set_setup None >>; spawn_blocking shut op) c in
  settled {| p_held := None; p_forgot := f; p_lost := g || failed_reply c o.1; p_c := o.2 |}.
Proof.
  intros Hop Hp Hk o [_ Hf]%orb_false_iff. subst o. unfold failed_reply in Hf. cbn [p_held p_c p_forgot].
  destruct (consuming d _ c) as [[a|e] c'] eqn:E; cbn [fst snd] in *.
  - destruct shut.
    { exfalso. revert E. unfold consuming. rewrite bind_attempt, ep0_bind. destruct (c_ep0 c) as [[]|e]; [done|].
      cbn [fst snd]. unfold bind, lift. by destruct (drop_ctrl d c) as [[]]. }
    destruct (async_settles d op c a c' Hop Hp E) as [He Hn]. split; [by apply known_none|auto].
  - destruct (c_ep0 c) as [[]|e0] eqn:Ec; [done|]. revert E. unfold consuming. rewrite bind_attempt, ep0_bind, Ec.
    cbn [fst snd]. pose proof (drop_gone d c e0 Ec) as Hg. unfold bind.
    destruct (drop_ctrl d c) as [x c2]; cbn in Hg; subst c2. destruct x; intros [= _ <-]; (split; [done|]);
      intros _ Hok; congruence.
Qed.

Lemma settled_step p p' : api p p' -> settled p -> settled p'.
Proof.
  intros Hstep Hs. destruct Hstep; unfold settled at 1 in Hs; cbn [p_held p_forgot p_lost p_c] in Hs.
  - intros Hg. destruct (Hs Hg) as [Hk _]. by apply (delivers_settled false g c), Hg; apply event_delivers.
  - intros Hg. destruct (Hs Hg) as [Hk _]. by apply (delivers_settled false g c), Hg; apply event_async_delivers.
  - intros Hg. destruct (Hs Hg) as [Hk _].
    by apply (delivers_settled false g c (optional (try_event c))), Hg; apply try_event_delivers.
  - intros Hg. pose proof Hg as [Hg1 Hf1]%orb_false_iff. destruct (Hs Hg1) as [Hk Hp].
    apply (delivers_settled false (g || f) c (optional (event_timeout t c))); [|exact Hg]. apply event_timeout_delivers. split; auto.
  - intros Hg. destruct (Hs Hg) as [Hk Hp]. by apply (reply_settled f g c), Hg; apply send_settles.
  - intros Hg. destruct (Hs Hg) as [Hk Hp]. by apply (reply_settled f g c), Hg; apply recv_settles.
  - intros Hg. destruct (Hs Hg) as [Hk Hp]. by apply (reply_settled f g c), Hg; apply halt_settles.
  - intros Hg. destruct (Hs Hg) as [Hk Hp]. apply (reply_settled f g c); [|exact Hg].
    split; [apply drop_keeps_ep0|]. destruct (c_ep0 c) as [[]|e] eqn:E.
    + pose proof (drop_settles d c E (or_intror Hp) Hk). split; [by apply known_none|done].
    + rewrite (drop_gone d c e E). split; [done|intros [=]].
  - intros Hg. pose proof Hg as [Hg1 _]%orb_false_iff. destruct (Hs Hg1) as [Hk Hp].
    apply (async_settled shut DeviceToHost (k0_write data) f g c); [|done..]. intros k Hk' x Hx.
    pose proof (answer_write_law data k Hk') as Hw. by rewrite Hx in Hw.
  - intros Hg. pose proof Hg as [Hg1 _]%orb_false_iff. destruct (Hs Hg1) as [Hk Hp].
    apply (async_settled shut HostToDevice (k0_read len) f g c); [|done..]. intros k Hk' x Hx.
    pose proof (answer_read_law len k Hk') as Hw. rewrite Hx in Hw. apply Hw.
  - intros Hg. destruct (Hs Hg) as [Hk Hp]. split; [done|]. cbn. congruence.
  - intros Hg. destruct (Hs Hg) as [Hk Hp]. split; [done|]. cbn. destruct h; [done|]. intros _ [=].
Qed.

(** C29. Along every sequence of calls on endpoint zero, reads of events, replies of both
    kinds with any outcome, stalls, drops, leaks and the removal of the function included: a
    request object the program holds is the request the kernel has pending, so that its reply
    goes to that request; with no object held and none leaked nothing is pending on an endpoint
    that is there, so the next read is an event; and a pending request is always one the
    library knows of and will stall. Two calls end this guarantee, and no other: an
    asynchronous reply that fails on an endpoint that is there, and [event_timeout] after an
    object was leaked. *)
Theorem requests_settled c p :
  c_setup_event c = None -> k0_pending (c_kernel c) = None ->
  rtc api {| p_held := None; p_forgot := false; p_lost := false; p_c := c |} p -> settled p.
Proof.
  intros Hs Hn Hr. assert (settled {| p_held := None; p_forgot := false; p_lost := false; p_c := c |}) as Hinit.
  { intros _. split; [by apply known_none|cbn; auto]. }
  revert Hinit. induction Hr as [p|p q t Hpq _ IH]; [done|]. intros Hp. apply IH. by eapply settled_step.
Qed.
End Settled.

(** ** A FunctionFS endpoint *)

(** The endpoint has a queue of events; [t_fails] makes the next answer fail. *)
Record ToyEp0 := { t_events : list (list byte); t_pending : option Direction; t_data : list byte; t_fails : bool }.

Definition toy_read (n : nat) (k : ToyEp0) : io_result (list byte) * ToyEp0 :=
  match t_pending k with
  | Some DeviceToHost =>
      (Err (Os EL2HLT), {| t_events := t_events k; t_pending := None; t_data := t_data k; t_fails := t_fails k |})
  | Some HostToDevice =>
      if t_fails k then (Err (Os EINTR), {| t_events := t_events k; t_pending := t_pending k; t_data := t_data k; t_fails := false |})
      else (Ok (take n (t_data k)), {| t_events := t_events k; t_pending := None; t_data := t_data k; t_fails := false |})
  | None =>
      match t_events k with
      | e :: rest =>
          if (length e <=? n)%nat then
            (Ok e, {| t_events := rest; t_pending := (if (length e =? EVENT_SIZE)%nat then raw_setup e else None);
                      t_data := t_data k; t_fails := t_fails k |})
          else (Err (Os EINVAL), k)
      | [] => (Err (Os EAGAIN), k)
      end
  end.

Definition toy_write (data : list byte) (k : ToyEp0) : io_result nat * ToyEp0 :=
  match t_pending k with
  | Some HostToDevice =>
      (Err (Os EL2HLT), {| t_events := t_events k; t_pending := None; t_data := t_data k; t_fails := t_fails k |})
  | Some DeviceToHost =>
      if t_fails k then (Err (Os EINTR), {| t_events := t_events k; t_pending := t_pending k; t_data := t_data k; t_fails := false |})
      else (Ok (length data), {| t_events := t_events k; t_pending := None; t_data := t_data k; t_fails := false |})
  | None => (Err (Os EINVAL), k)
  end.

#[global] Instance toy_ep0 : Ep0Kernel ToyEp0 := {|
  k0_read := toy_read;
  k0_write := toy_write;
  k0_poll _ k := (Ok (isSome (head (t_events k))), k);
  k0_pending := t_pending;
|}.

#[global] Instance toy_laws : Ep0Laws toy_ep0.
Proof.
  split; cbn.
  - intros n k Hk. unfold toy_read. rewrite Hk. split; [by left|done].
  - intros data k Hk. unfold toy_write. rewrite Hk. split; [by left|done].
  - intros n k Hk. unfold toy_read. rewrite Hk. destruct (t_fails k); cbn; [right; done|].
    split; [rewrite length_take; lia|done].
  - intros data k Hk. unfold toy_write. rewrite Hk. destruct (t_fails k); cbn; [by right|done].
  - intros n k Hk. unfold toy_read. rewrite Hk. destruct (t_events k) as [|e rest]; cbn; [done|].
    destruct (Nat.leb_spec (length e) n); cbn; [done|done].
  - intros data k Hk. unfold toy_write. by rewrite Hk.
  - done.
Qed.

(** An event with a control request: [get] from the device, or [set] with data. *)
Definition setup_bytes (ty : Z) : list byte :=
  le_bytes 1 ty ++ le_bytes 1 1 ++ le_bytes 2 0 ++ le_bytes 2 0 ++ le_bytes 2 4 ++ le_bytes 1 SETUP ++ le_bytes 3 0.

Definition toy (fails : bool) : CustomFn ToyEp0 :=
  {| c_ep0 := Ok tt; c_setup_event := None;
     c_kernel := {| t_events := [setup_bytes 161; setup_bytes 33]; t_pending := None; t_data := bs "data"; t_fails := fails |} |}.

(** The first request is dropped unanswered, the second is received. *)
Lemma requests_settled_witness :
  settled {| p_held := None; p_forgot := false; p_lost := false; p_c := (ctrl_recv 4 (event (drop_ctrl DeviceToHost (event (toy false)).2).2).2).2 |}.
Proof.
  apply (requests_settled (toy false)); [reflexivity|reflexivity|].
  eapply rtc_l; [apply api_event|]. eapply rtc_l; [vm_compute; apply (api_drop DeviceToHost)|].
  eapply rtc_l; [apply api_event|]. eapply rtc_l; [vm_compute; apply (api_recv 4)|]. apply rtc_refl.
Defined.

(** An asynchronous reply that fails leaves its request unstalled: the next read
    of an event stalls it instead, and reports the stall as an error. *)
Example failed_async_reply_is_not_stalled :
  let c := (event (toy true)).2 in
  let c1 := (ctrl_send_async false (bs "1234") c).2 in
  t_pending (c_kernel c1) = Some DeviceToHost /\ c_setup_event c1 = None /\ (event c1).1 = Err (Os EL2HLT).
Proof. vm_compute. done. Qed.

(** [event_timeout] does not clear a leaked request: the data of the request is
    taken for an event. *)
Example leaked_request_is_read_as_event :
  let c := (event (drop_ctrl DeviceToHost (event (toy false)).2).2).2 in
  (event_timeout 1 {| c_ep0 := Ok tt; c_setup_event := c_setup_event c;
     c_kernel := {| t_events := [le_bytes 12 0]; t_pending := t_pending (c_kernel c); t_data := bs "data"; t_fails := false |} |}).1
  = Err (Custom KInvalidData "invalid event size").
Proof. vm_compute. done. Qed.
