(* ===== verification/Ep0Serve.v ===== *)
(** * The control loop of a function on the library's endpoint zero

    Models the composition of crates/summit-usbgadget-usb/src/functionfs.rs
    ([Ep0Events] and [serve]) with the endpoint zero of patches/usb-gadget
    (Ep0.v) and with the two handlers that run on it: the DFU function
    (crates/summit-usbgadget-dfu, gadget.rs and handler.rs) and the control
    plane of fastboot over USB (crates/summit-usbgadget-fastboot-usb, state.rs).
    A request is the library's object: it is read from the endpoint, answered
    by a call on the endpoint, and stalled when the handler drops it. The loop
    is related to the loop of FunctionFs.v, in which an event arrives with the
    outcome of its data stage. *)

From stdpp Require Import base list.
From S2P Require Import Prelude Io Bytes Crc32 Session FfsDesc FfsBuild Ep0 FunctionFs Dfu FastbootUsb.

(** ** One turn of the loop *)

(** When in a turn the registration drops its file of the endpoint. A wait and a
    reply hold a reference of their own, so that they go on with the file; each
    call that starts later finds it gone. *)
Inductive Removal := BeforeWait | WhileWaiting | BeforeReply | WhileReplying.

#[global] Instance Removal_eq_dec : EqDecision Removal.
Proof. solve_decision. Defined.

(** What happens around the program in one turn, which is one wait with what the
    handler makes of it: the function may be removed, the background tasks run
    while it waits, something arrives (before the idle limit) or nothing does;
    while a reply is in progress the background tasks run again, and the runtime
    may be shutting down. *)
Record Ep0Turn := {
  tn_removed : option Removal;
  tn_env : list wevent;
  tn_arrives : bool;
  tn_data : list wevent;
  tn_shut : bool;
}.

Definition REMOVED : io_error := Custom KBrokenPipe "USB gadget was removed".

Definition IDLE : io_error := Custom KTimedOut "endpoint zero idle".

(** The request as the handlers read it. *)
Definition ctrl_req (r : RawCtrlReq) : CtrlReq :=
  {| request_type := rc_request_type r; request := rc_request r; value := rc_value r;
     index := rc_index r; length_ := rc_length r |}.

Definition ctrl_len (r : RawCtrlReq) : nat := Z.to_nat (rc_length r).

Definition ctrl_is_empty (r : RawCtrlReq) : bool := rc_length r =? 0.

Section Lifting.
Context {K H : Type}.

(** A step of the library's object, and one of the handler with its world. *)
Definition on_custom {A} (m : M (CustomFn K) A) : M (CustomFn K * (H * World)) A := fun '(c, hw) =>
  let (r, c) := m c in (r, (c, hw)).

Definition on_handler {A} (m : M (H * World) A) : M (CustomFn K * (H * World)) A := fun '(c, hw) =>
  let (r, hw) := m hw in (r, (c, hw)).

Lemma on_handler_eq {A} (m : M (H * World) A) c hw r hw' : m hw = (r, hw') -> on_handler m (c, hw) = (r, (c, hw')).
Proof. unfold on_handler. by intros ->. Qed.

Definition background (evs : list wevent) : M (H * World) unit :=
  modify (fun '(h, w) => (h, wsteps evs w)).
End Lifting.

(** What a handler does with an event of the library. *)
Class CtrlHandler (H : Type) `{EventHandler H} := {
  ch_event : forall {K} `{Ep0Kernel K}, Ep0Turn -> UsbEvent -> M (CustomFn K * (H * World)) (option (list byte));
}.

(** ** The loop *)

Section Loop.
Context {K H : Type} `{Ep0Kernel K} `{CtrlHandler H}.
Abbreviation C := (CustomFn K).
Abbreviation ST := (CustomFn K * (H * World))%type.

(** [Custom::fd]: there is one while the function is. *)
Definition fd : M C unit := ep0.

Definition Ep0Events_new : M C unit := fd.

(** The registration drops its file of the endpoint, if it does at this point. *)
Definition drop_file : M C unit :=
  modify (fun c => {| c_ep0 := Err REMOVED; c_setup_event := c_setup_event c; c_kernel := c_kernel c |}).

Definition removed (p : Removal) (t : Ep0Turn) : M C unit :=
  if bool_decide (tn_removed t = Some p) then drop_file else ret tt.

(** By the end of the turn it has, wherever in the turn it did. *)
Definition gone (t : Ep0Turn) : M C unit := if isSome (tn_removed t) then drop_file else ret tt.

(** [event_async]: the reference of the wait ends with it, before the read. *)
Definition next_event (t : Ep0Turn) : M C UsbEvent :=
  clear_prev_event >>; wait_event >>; removed WhileWaiting t >>; read_event.

(** [Ep0Events::next] under the idle limit: a forgotten request is stalled before
    the wait; [None] for an unlimited wait during which nothing arrives. *)
Definition Ep0Events_next (idle : option Z) (t : Ep0Turn) : M C (option UsbEvent) :=
  if tn_arrives t then do! e := next_event t in ret (Some e)
  else clear_prev_event >>; removed WhileWaiting t >>;
       match idle with Some _ => throw IDLE | None => ret None end.

(** What a turn showed: nothing, an error of the wait, or an event with the
    endpoint it was read from and what the handler made of it. *)
Inductive Seen :=
| SeenNothing
| SeenError (e : io_error)
| SeenEvent (c : C) (e : UsbEvent) (r : io_result (option (list byte))).

(** The part of a turn after the wait; [true] when the loop stops. *)
Definition handle_next (t : Ep0Turn) (next : io_result (option UsbEvent)) (st : ST) : Seen * (bool * ST) :=
  match next with
  | Ok None => (SeenNothing, (false, st))
  | Ok (Some e) => let (r, st') := ch_event t e st in (SeenEvent st.1 e r, (false, st'))
  | Err err =>
      (SeenError err,
       if is_torn_down_transport_error err then (true, (on_handler on_transport_closed st).2)
       else if is_setup_superseded_error err then (false, st)
       else if bool_decide (kind err = KTimedOut) then (false, (on_handler on_idle_timeout st).2)
       else (false, st))
  end.

Definition serve_turn (t : Ep0Turn) (st : ST) : Seen * (bool * ST) :=
  let '(c, (h, w)) := st in
  let (next, c) := Ep0Events_next (idle_timeout h) t (removed BeforeWait t c).2 in
  let '(seen, (stop, (c, hw))) := handle_next t next ((removed BeforeReply t c).2, (h, wsteps (tn_env t) w)) in
  (seen, (stop, ((gone t c).2, hw))).

(** The loop is over when it stops, and it stays in a wait that does not end. *)
Definition is_nothing (s : Seen) : bool := match s with SeenNothing => true | _ => false end.

Fixpoint serve_turns (turns : list Ep0Turn) (st : ST) : list Seen * (bool * ST) :=
  match turns with
  | [] => ([], (false, st))
  | t :: turns =>
      let '(seen, (stop, st)) := serve_turn t st in
      if stop || is_nothing seen then ([seen], (stop, st))
      else let (rest, o) := serve_turns turns st in (seen :: rest, o)
  end.

(** [functionfs::serve]. *)
Definition ep0_serve (turns : list Ep0Turn) (st : ST) : list Seen * (bool * ST) :=
  match on_custom Ep0Events_new st with
  | (Ok _, st) => serve_turns turns st
  | (Err _, st) => ([], (true, st))
  end.

(** The replies of a run, and those of the loop without the endpoint. *)
Definition seen_replies (seen : list Seen) : list (io_result (option (list byte))) :=
  omap (fun s => match s with SeenEvent _ _ r => Some r | _ => None end) seen.

Fixpoint serve_replies (steps : list Ep0Step) (hw : H * World) : list (io_result (option (list byte))) :=
  match steps with
  | [] => []
  | s :: steps =>
      let hw := (hw.1, wsteps (es_env s) hw.2) in
      match next_step hw.1 s with
      | None => serve_replies steps hw
      | Some r =>
          let rest := let (stop, hw) := serve_step r hw in if stop then [] else serve_replies steps hw in
          match r with Ok ev => (handle_event ev hw).1 :: rest | Err _ => rest end
      end
  end.

(** ** The relation to the loop of FunctionFs *)

(** An event of the library and the same event with the outcome of its data
    stage: what the endpoint gives to a read of the request's length, and what it
    answers to the bytes the handler sends. *)
Definition stage_of (t : Ep0Turn) (c : C) (e : UsbEvent) (r : io_result (option (list byte))) (ev : Event) : Prop :=
  match e, ev with
  | EvBind, Bind | EvUnbind, Unbind | EvEnable, Enable | EvDisable, Disable
  | EvSuspend, Suspend | EvResume, Resume => True
  | EvUnknown n, Unknown m => n = m
  | EvSetupHostToDevice req, SetupHostToDevice q data =>
      q = ctrl_req req /\ ds_env data = tn_data t /\
      ds_read data = (ctrl_recv_async (tn_shut t) (ctrl_len req) c).1
  | EvSetupDeviceToHost req, SetupDeviceToHost q sent =>
      q = ctrl_req req /\
      exists bytes, sent = rbind (ctrl_send_async (tn_shut t) bytes c).1 (fun _ => Ok tt) /\
        forall reply, r = Ok (Some reply) -> reply = bytes /\ sent = Ok tt
  | _, _ => False
  end.

Definition step_of (t : Ep0Turn) (s : Seen) (step : Ep0Step) : Prop :=
  es_env step = tn_env t /\
  match s, es_wait step with
  | SeenNothing, Ep0Silence => True
  | SeenError e, Ep0Next (Err e') => e' = e
  | SeenEvent c e r, Ep0Next (Ok ev) => stage_of t c e r ev
  | _, _ => False
  end.

(** The endpoint took the answer to the request of an event. *)
Definition answered (ev : Event) : Prop :=
  match ev with
  | SetupHostToDevice _ data => is_ok (ds_read data) = true
  | SetupDeviceToHost _ sent => is_ok sent = true
  | _ => True
  end.

Definition step_answered (s : Ep0Step) : Prop :=
  match es_wait s with Ep0Next (Ok ev) => answered ev | _ => True end.
End Loop.

(** The endpoint with the request of an event: it is the one that is pending. *)
Definition carries {K} `{Ep0Kernel K} (c : CustomFn K) (e : UsbEvent) : Prop :=
  known c /\ (c_ep0 c = Ok tt -> k0_pending (c_kernel c) = holds e).

(** What a handler on the endpoint owes: it does to its own state what the handler
    of FunctionFs does with the event and the outcome of its data stage, and it
    leaves no request pending, unless the endpoint failed to take the answer. *)
Class CtrlHandlerLaws (H : Type) `(CtrlHandler H) : Prop := {
  ch_refines {K} `{Ep0Laws K} t e (c : CustomFn K) hw :
    let '(r, (c', hw')) := ch_event t e (c, hw) in
    exists ev, stage_of t c e r ev /\ handle_event ev hw = (r, hw') /\
      (carries c e -> answered ev -> quiet c');
}.

(** ** The loop refines that of FunctionFs *)

Section Refinement.
Context {K H : Type} `{Ep0Laws K} `{CtrlHandlerLaws H}.
Abbreviation C := (CustomFn K).
Abbreviation ST := (CustomFn K * (H * World))%type.

Lemma removed_quiet p t (c : C) : quiet c -> quiet (removed p t c).2.
Proof. intros [Hk Hp]. unfold removed. case_bool_decide; [|done]. by split. Qed.

Lemma gone_quiet t (c : C) : quiet c -> quiet (gone t c).2.
Proof. intros [Hk Hp]. unfold gone. destruct (isSome _); [|done]. by split. Qed.

Lemma removed_carries p t (c : C) e : carries c e -> carries (removed p t c).2 e.
Proof. intros [Hk Hp]. unfold removed. case_bool_decide; [|done]. by split. Qed.

Lemma removed_ok p t (c : C) : removed p t c = (Ok tt, (removed p t c).2).
Proof. unfold removed. by case_bool_decide. Qed.

Lemma delivered_carries (c0 c : C) e : delivers c0 (Ok e, c) -> carries c e.
Proof. intros (He & Hk & Hp). split; [done|]. cbn in *. intros Hok. by rewrite <- He, Hok in Hp. Qed.

Lemma next_event_carries t (c : C) :
  quiet c -> match next_event t c with (Ok e, c') => carries c' e | (Err _, c') => quiet c' end.
Proof.
  intros [Hk Hp]. unfold next_event, bind at 1. destruct (cleared_quiet c Hk) as [Hq _].
  destruct (clear_prev_event c) as [[[]|e] c1]; cbn [fst snd] in Hq; [|done].
  destruct (wait_keeps c1) as (He2 & Hs2 & Hp2). pose proof (quiet_step _ _ Hq He2 Hs2 Hp2) as Hq2.
  unfold bind at 1. destruct (wait_event c1) as [[[]|e] c2]; cbn [fst snd] in *; [|done].
  rewrite (bind_Ok _ _ _ _ _ (removed_ok WhileWaiting t c2)).
  pose proof (read_event_quiet _ (removed_quiet WhileWaiting t c2 Hq2)) as Hd.
  destruct (read_event _) as [[e|e] c3]; [by eapply delivered_carries|]. destruct Hd as (He & Hk3 & Hp3).
  split; [done|]. cbn in *. intros Hok. by rewrite <- He, Hok in Hp3.
Qed.

(** The wait leaves the request of the event it returned, and nothing else. *)
Lemma next_carries idle t (c : C) :
  quiet c ->
  match Ep0Events_next idle t c with
  | (Ok (Some e), c') => carries c' e
  | (_, c') => quiet c'
  end.
Proof.
  intros Hq. unfold Ep0Events_next. destruct (tn_arrives t).
  - pose proof (next_event_carries t c Hq) as Hn. unfold bind. by destruct (next_event t c) as [[e|e] c'].
  - destruct Hq as [Hk Hp]. destruct (cleared_quiet c Hk) as [Hq _]. unfold bind at 1.
    destruct (clear_prev_event c) as [[[]|e] c']; [|done]. rewrite (bind_Ok _ _ _ _ _ (removed_ok WhileWaiting t c')).
    cbn [snd] in Hq. apply (removed_quiet WhileWaiting t) in Hq. by destruct idle.
Qed.

(** One turn is one step of the loop of FunctionFs. *)
Lemma handle_next_refines t next (c : C) (h : H) w :
  let '(seen, (stop, (c', hw'))) := handle_next t next (c, (h, w)) in
  exists wait, (forall env, es_env {| es_env := env; es_wait := wait |} = tn_env t ->
                  step_of t seen {| es_env := env; es_wait := wait |}) /\
    match wait with
    | Ep0Silence => next = Ok None /\ stop = false /\ hw' = (h, w)
    | Ep0Next r => serve_step r (h, w) = (stop, hw') /\
        seen_replies [seen] = match r with Ok ev => [(handle_event ev (h, w)).1] | Err _ => [] end
    end /\
    (match next with Ok (Some e) => carries c e | _ => quiet c end ->
     step_answered {| es_env := []; es_wait := wait |} -> quiet c').
Proof.
  destruct next as [[e|]|err]; cbn [handle_next].
  - pose proof (ch_refines t e c (h, w)) as Hr. destruct (ch_event t e (c, (h, w))) as [r [c' hw']].
    destruct Hr as (ev & Hev & Hh & Hq). exists (Ep0Next (Ok ev)). split; [|split].
    + intros env Henv. split; [done|]. done.
    + cbn. by rewrite Hh.
    + intros Hd Ha. by apply Hq.
  - exists Ep0Silence. split; [by intros env Henv|]. done.
  - unfold on_handler. destruct (is_torn_down_transport_error err) eqn:E1;
      [destruct (on_transport_closed (h, w)) as [x hw'] eqn:E2
      |destruct (is_setup_superseded_error err) eqn:E2;
        [|destruct (bool_decide _) eqn:E3; [destruct (on_idle_timeout (h, w)) as [x hw'] eqn:E4|]]];
      (exists (Ep0Next (Err err)); split; [by intros env Henv|]; unfold serve_step; rewrite E1, ?E2, ?E3, ?E4; done).
Qed.

(** The endpoint's share of a turn. *)
Lemma turn_waits t (c : C) idle :
  quiet c ->
  let '(next, c') := Ep0Events_next idle t (removed BeforeWait t c).2 in
  match next with Ok (Some e) => carries (removed BeforeReply t c').2 e | _ => quiet (removed BeforeReply t c').2 end.
Proof.
  intros Hq. pose proof (next_carries idle t _ (removed_quiet BeforeWait t c Hq)) as Hn.
  destruct (Ep0Events_next idle t _) as [[[e|]|e] c'];
    [by apply removed_carries|by apply removed_quiet|by apply removed_quiet].
Qed.

Lemma next_nothing idle t (c c' : C) :
  Ep0Events_next idle t c = (Ok None, c') -> idle = None /\ tn_arrives t = false.
Proof.
  unfold Ep0Events_next. destruct (tn_arrives t).
  - unfold bind. by destruct (next_event t c) as [[]].
  - unfold bind at 1. destruct (clear_prev_event c) as [[[]|] c1]; [|done].
    rewrite (bind_Ok _ _ _ _ _ (removed_ok WhileWaiting t c1)). by destruct idle.
Qed.

Definition serve_turns_spec (turns : list Ep0Turn) (st : ST) : Prop :=
  let '(seen, (stop, (c', hw'))) := serve_turns turns st in
  exists steps, Forall2 (fun ts s => step_of ts.1 ts.2 s) (zip turns seen) steps /\
    length seen = length steps /\
    serve_loop steps st.2 = (stop, hw') /\ serve_replies steps st.2 = seen_replies seen /\
    (quiet st.1 -> Forall step_answered steps -> quiet c').

Lemma serve_turns_refines turns (st : ST) : serve_turns_spec turns st.
Proof.
  revert st. induction turns as [|t turns IH]; intros [c [h w]]; unfold serve_turns_spec.
  { exists []. split_and!; [constructor|done..]. }
  cbn [serve_turns]. unfold serve_turn. pose proof (turn_waits t c (idle_timeout h)) as Hw.
  destruct (Ep0Events_next _ _ _) as [next c1] eqn:En.
  pose proof (handle_next_refines t next (removed BeforeReply t c1).2 h (wsteps (tn_env t) w)) as Hd.
  destruct (handle_next _ _ _) as [seen [stop [c2 hw2]]]. destruct Hd as (wait & Hs & Hm & Hq).
  set (s := {| es_env := tn_env t; es_wait := wait |}). specialize (Hs (tn_env t) eq_refl).
  assert (quiet c -> step_answered s -> quiet (gone t c2).2) as Hq2.
  { intros Hc Ha. apply gone_quiet, Hq; [by apply Hw|done]. }
  specialize (IH ((gone t c2).2, hw2)). unfold serve_turns_spec in IH. cbn [fst snd] in IH.
  assert (next_step h s = match wait with Ep0Next r => Some r | Ep0Silence => None end) as Hns.
  { unfold next_step, s. cbn [es_wait]. destruct wait as [r|]; [done|]. destruct Hm as (-> & _).
    by destruct (next_nothing _ _ _ _ En) as [-> _]. }
  destruct (stop || is_nothing seen) eqn:Estop.
  - exists [s]. cbn [zip zip_with fst snd length serve_loop serve_replies es_env s]. rewrite Hns. split_and!.
    + constructor; [done|]. by destruct turns.
    + done.
    + destruct wait as [r|]; [|by destruct Hm as (_ & -> & ->)]. destruct Hm as [Hm _].
      rewrite Hm. by destruct stop.
    + destruct wait as [r|]; [|by destruct seen; destruct Hs]. destruct Hm as [_ Hr]. rewrite Hr.
      by destruct r; destruct (serve_step _ _) as [[] ?].
    + intros Hc Ha. apply Hq2; [done|]. by inversion Ha.
  - apply orb_false_iff in Estop as [-> Hno].
    destruct (serve_turns turns ((gone t c2).2, hw2)) as [rest [stop [c3 hw3]]].
    destruct IH as (steps & Hf & Hl & Hrun & Hrep & Hc). exists (s :: steps).
    cbn [zip zip_with fst snd length serve_loop serve_replies]. rewrite Hns. change (es_env s) with (tn_env t). split_and!.
    + by constructor.
    + by rewrite Hl.
    + destruct wait as [r|]; [|by destruct seen; destruct Hs]. destruct Hm as [Hm _]. by rewrite Hm.
    + destruct wait as [r|]; [|by destruct seen; destruct Hs].
      destruct Hm as [Hm Hr]. rewrite Hm, Hrep. change (seen :: rest) with ([seen] ++ rest).
      unfold seen_replies in *. rewrite omap_app, Hr. by destruct r.
    + intros Hcq Ha. inversion Ha; subst. auto.
Qed.

(** [serve] from its start: [fd] fails when the function is gone. *)
Lemma ep0_serve_refines turns (st : ST) :
  let '(seen, (stop, (c', hw'))) := ep0_serve turns st in
  exists steps, Forall2 (fun ts s => step_of ts.1 ts.2 s) (zip turns seen) steps /\
    length seen = length steps /\
    serve (c_ep0 st.1) steps st.2 = (stop, hw') /\
    (c_ep0 st.1 = Ok tt -> serve_replies steps st.2 = seen_replies seen) /\
    (quiet st.1 -> Forall step_answered steps -> quiet c').
Proof.
  destruct st as [c hw]. unfold ep0_serve, on_custom, Ep0Events_new, fd, ep0, bind, gets, lift. cbn [fst snd].
  destruct (c_ep0 c) as [[]|e].
  - pose proof (serve_turns_refines turns (c, hw)) as Hr. unfold serve_turns_spec in Hr.
    destruct (serve_turns turns (c, hw)) as [seen [stop [c' hw']]].
    destruct Hr as (steps & ? & ? & ? & ? & ?). exists steps. by split_and!.
  - exists []. split_and!; [|done..]. by destruct turns.
Qed.

(** ** Answers on the endpoint *)

(** A read gives at most what was asked for. *)
Lemma k0_read_bound n k data : (k0_read n k).1 = Ok data -> (length data <= n)%nat.
Proof.
  intros Hr. destruct (k0_pending k) as [[]|] eqn:Ek.
  - pose proof (stall_read_law n k Ek) as [[Hs|Hs] _]; rewrite Hs in Hr; done.
  - pose proof (answer_read_law n k Ek) as Hs. rewrite Hr in Hs. apply Hs.
  - pose proof (event_law n k Ek) as Hs. rewrite Hr in Hs. apply Hs.
Qed.

(** The asynchronous answers, without their object. *)
Lemma async_eq {A} d shut (op : K -> io_result A * K) (c : C) :
  consuming d (ep0 >>; set_setup None >>; spawn_blocking shut op) c =
  match c_ep0 c with
  | Err e => (Err e, c)
  | Ok _ =>
      if shut : bool then
        (Err (other "task was cancelled"), {| c_ep0 := c_ep0 c; c_setup_event := None; c_kernel := c_kernel c |})
      else
        ((op (c_kernel c)).1, {| c_ep0 := c_ep0 c; c_setup_event := None; c_kernel := (op (c_kernel c)).2 |})
  end.
Proof.
  unfold consuming. rewrite bind_attempt, ep0_bind. destruct (c_ep0 c) as [[]|e] eqn:E; cbn [fst snd].
  - unfold set_setup. rewrite bind_modify. destruct shut; cbn [spawn_blocking]; [by rewrite E|].
    unfold io. cbn [c_kernel c_setup_event]. destruct (op (c_kernel c)) as [r k]. cbn. by rewrite E.
  - assert (drop_ctrl d c = (Ok tt, c)) as Hd.
    { unfold drop_ctrl. rewrite bind_gets. destruct (c_setup_event c); [|done].
      rewrite bind_attempt. unfold do_halt. by rewrite ep0_bind, E. }
    by rewrite (bind_Ok _ _ _ _ _ Hd).
Qed.

Lemma recv_bound shut len (c : C) data :
  (ctrl_recv_async shut len c).1 = Ok data -> (length data <= len)%nat.
Proof.
  unfold ctrl_recv_async. rewrite async_eq. destruct (c_ep0 c); [|done]. destruct shut; [done|]. apply k0_read_bound.
Qed.

Lemma async_quiet {A} d shut (op : K -> io_result A * K) e (c : C) :
  (forall k x, k0_pending k = Some d -> (op k).1 = Ok x -> k0_pending (op k).2 = None) ->
  holds e = Some d -> carries c e ->
  let '(r, c') := consuming d (ep0 >>; set_setup None >>; spawn_blocking shut op) c in
  is_ok r = true -> quiet c'.
Proof.
  intros Hop Hh [_ Hd]. rewrite async_eq. destruct (c_ep0 c) as [[]|err]; [|done].
  destruct shut; [done|]. destruct (op (c_kernel c)).1 as [x|] eqn:Eo; [|done]. intros _.
  assert (k0_pending (op (c_kernel c)).2 = None) as Hn.
  { eapply Hop; [|done]. rewrite <- Hh. by apply Hd. }
  split; [by apply known_none|done].
Qed.

Lemma recv_quiet shut len req (c : C) :
  carries c (EvSetupHostToDevice req) ->
  let '(r, c') := ctrl_recv_async shut len c in is_ok r = true -> quiet c'.
Proof.
  apply async_quiet; [|done]. intros k x Hk Hx. pose proof (answer_read_law len k Hk) as Hr. rewrite Hx in Hr. apply Hr.
Qed.

Lemma send_quiet shut data req (c : C) :
  carries c (EvSetupDeviceToHost req) ->
  let '(r, c') := ctrl_send_async shut data c in is_ok r = true -> quiet c'.
Proof.
  apply async_quiet; [|done]. intros k x Hk Hx. pose proof (answer_write_law data k Hk) as Hr. by rewrite Hx in Hr.
Qed.

(** Dropping a request cannot fail. *)
Lemma drop_ok d (c : C) : drop_ctrl d c = (Ok tt, (drop_ctrl d c).2).
Proof.
  unfold drop_ctrl. rewrite bind_gets. destruct (c_setup_event c); [|done]. by rewrite bind_attempt.
Qed.

(** A request that is dropped is stalled. *)
Lemma dropped_quiet d e (c : C) :
  holds e = Some d -> carries c e -> quiet (drop_ctrl d c).2.
Proof.
  intros Hh [Hk Hd]. destruct (c_ep0 c) as [[]|err] eqn:Ee.
  - assert (k0_pending (c_kernel (drop_ctrl d c).2) = None) as Hn.
    { apply drop_settles; [done| |done]. right. rewrite <- Hh. by apply Hd. }
    split; [by apply known_none|done].
  - rewrite (drop_gone d c err Ee). split; [done|]. by rewrite Ee.
Qed.

(** An event without a request leaves nothing to answer. *)
Lemma plain_quiet e (c : C) : holds e = None -> carries c e -> quiet c.
Proof. intros Hh [Hk Hd]. split; [done|]. rewrite <- Hh. done. Qed.
End Refinement.

(** ** The DFU function on the endpoint (gadget.rs, handler.rs) *)

Section OnEp0.
Context {K H : Type} `{Ep0Kernel K}.

(** Work of a method that owns the request: an early return drops it. *)
Definition before_answer {A} (d : Direction) (m : M (H * World) A) : M (CustomFn K * (H * World)) A :=
  do! r := attempt (on_handler m) in
  match r with
  | Ok a => ret a
  | Err e => on_custom (drop_ctrl d) >>; throw e
  end.

(** The background tasks run while the answer is in progress. *)
Definition drain_ctrl (t : Ep0Turn) (req : RawCtrlReq) : M (CustomFn K * (H * World)) unit :=
  on_handler (background (tn_data t)) >>;
  do! _ := on_custom (ctrl_recv_all_async (tn_shut t) req) in ret tt.
End OnEp0.

Section DfuOnEp0.
Context {K Hs : Type} `{Ep0Kernel K} `{Hasher Hs}.
Abbreviation Dfu := (Dfu.Dfu Hs).
Abbreviation ST := (CustomFn K * (Dfu * World))%type.

(** [receive_dnload_block] up to the read: the buffer starts with the carried
    tail. *)
Definition dnload_prepare : M (Dfu * World) (list byte) :=
  Dfu.poll >>;
  do! finishing := gets (fun dw : Dfu * World => is_finishing dw.1) in
  if finishing : bool then throw (other "manifestation in progress") else
  do! carry := gets (fun dw : Dfu * World => download_tail dw.1) in
  do! buf := on_sink buffer in
  ret (default [] buf ++ carry).

(** And after it. *)
Definition dnload_accept (buf : list byte) : M (Dfu * World) unit :=
  update (set_state DnloadSync) >>;
  update (set_dstatus StatusOk) >>;
  match flushable_len (length buf) with
  | None => update (set_tail buf)
  | Some flush =>
      update (set_tail (drop flush buf)) >>;
      let chunk := take flush buf in
      update (fun d => set_crc (hasher_update (download_crc d) chunk) d) >>;
      submit_chunk chunk
  end.

Definition ep0_receive_dnload_block (t : Ep0Turn) (req : RawCtrlReq) : M ST unit :=
  do! buf := before_answer HostToDevice dnload_prepare in
  on_handler (background (tn_data t)) >>;
  do! received := on_custom (ctrl_recv_async (tn_shut t) (ctrl_len req)) in
  on_handler (dnload_accept (buf ++ received)).

Definition ep0_setup_out (t : Ep0Turn) (req : RawCtrlReq) : M ST unit :=
  let ctrl := ctrl_req req in
  if negb (is_dfu_request ctrl) then do! _ := attempt (drain_ctrl t req) in ret tt
  else if (request ctrl =? DNLOAD) && negb (ctrl_is_empty req) then
    do! r := attempt (ep0_receive_dnload_block t req) in
    match r with
    | Ok _ => ret tt
    | Err err => if is_closed_transport_error err then on_handler reset_on_idle_timeout else throw err
    end
  else
    do! r := attempt (drain_ctrl t req) in
    match r with
    | Ok _ => on_handler (handle_out ctrl)
    | Err err => if is_closed_transport_error err then on_handler reset_on_idle_timeout else throw err
    end.

Definition ep0_setup_in (t : Ep0Turn) (req : RawCtrlReq) : M ST (option (list byte)) :=
  let ctrl := ctrl_req req in
  if negb (is_dfu_request ctrl) then
    do! r := attempt (on_custom (ctrl_send_async (tn_shut t) [])) in
    ret (if is_ok r then Some [] else None)
  else
    do! response := before_answer DeviceToHost (handle_in ctrl) in
    do! r := attempt (on_custom (ctrl_send_async (tn_shut t) (as_slice response))) in
    match r with
    | Ok _ => ret (Some (as_slice response))
    | Err err => if is_closed_transport_error err then ret None else throw err
    end.

Definition dfu_ctrl_event (t : Ep0Turn) (e : UsbEvent) : M ST (option (list byte)) :=
  match e with
  | EvSetupHostToDevice req => ep0_setup_out t req >>; ret None
  | EvSetupDeviceToHost req => ep0_setup_in t req
  | EvDisable | EvUnbind => on_handler reset_on_idle_timeout >>; ret None
  | _ => ret None
  end.
End DfuOnEp0.

#[global] Instance dfu_ctrl_handler {Hs} `{Hasher Hs} : CtrlHandler (Dfu.Dfu Hs) :=
  {| ch_event K _ := dfu_ctrl_event |}.

(** [gadget::serve] of the DFU function. *)
Definition dfu_ep0_serve {K Hs} `{Ep0Kernel K} `{Hasher Hs} (cfg : DfuConfig) (turns : list Ep0Turn)
    (c : CustomFn K) (w : World) : list Seen * (bool * (CustomFn K * (Dfu.Dfu Hs * World))) :=
  ep0_serve turns (c, (dfu_new cfg, w)).

Section DfuRefines.
Context {K Hs : Type} `{Ep0Laws K} `{Hasher Hs}.
Abbreviation Dfu := (Dfu.Dfu Hs).

Definition data_stage (t : Ep0Turn) (req : RawCtrlReq) (c : CustomFn K) : DataStage :=
  {| ds_env := tn_data t; ds_read := (ctrl_recv_async (tn_shut t) (ctrl_len req) c).1 |}.

Lemma recv_data_stage t req (c : CustomFn K) :
  recv_async (ctrl_len req) (data_stage t req c) = (ctrl_recv_async (tn_shut t) (ctrl_len req) c).1.
Proof.
  unfold recv_async, data_stage. cbn [ds_read]. destruct (ctrl_recv_async _ _ _).1 as [data|] eqn:Er; [|done].
  cbn. apply recv_bound in Er. by rewrite take_ge.
Qed.

Lemma drain_refines t req (c : CustomFn K) (dw : Dfu * World) :
  drain_ctrl t req (c, dw) =
  ((drain_request (ctrl_req req) (data_stage t req c) dw).1,
   ((ctrl_recv_async (tn_shut t) (ctrl_len req) c).2, (drain_request (ctrl_req req) (data_stage t req c) dw).2)).
Proof.
  destruct dw as [d w]. unfold drain_ctrl, drain_request, on_handler, background, on_custom, bind, modify, lift.
  cbn [length_ ctrl_req]. change (Z.to_nat (rc_length req)) with (ctrl_len req). rewrite recv_data_stage.
  unfold ctrl_recv_all_async. change (Z.to_nat (rc_length req)) with (ctrl_len req).
  by destruct (ctrl_recv_async _ _ _) as [[] c'].
Qed.

(** The block's method is its two halves around the read. *)
Lemma receive_split req data (dw : Dfu * World) :
  receive_dnload_block req data dw =
  (do! buf := dnload_prepare in
   background (ds_env data) >>;
   do! received := lift (recv_async (Z.to_nat (length_ req)) data) in
   dnload_accept (buf ++ received)) dw.
Proof.
  unfold receive_dnload_block, dnload_prepare. rewrite bind_assoc.
  destruct (Dfu.poll dw) as [[x|e] [d w]] eqn:Ep; [|by rewrite !(bind_Err _ _ _ _ _ Ep)].
  rewrite !(bind_Ok _ _ _ _ _ Ep), bind_assoc, !bind_gets. destruct (is_finishing _); [done|].
  rewrite bind_assoc, !bind_gets, bind_assoc.
  destruct (on_sink buffer (d, w)) as [[buf|e] [d1 w1]] eqn:Eb; [|by rewrite !(bind_Err _ _ _ _ _ Eb)].
  rewrite !(bind_Ok _ _ _ _ _ Eb), bind_ret. unfold background. rewrite !bind_modify. cbn [fst].
  destruct (recv_async _ _) as [received|e]; [|done].
  rewrite !(bind_Ok (lift (Ok received)) _ _ received _ eq_refl). by rewrite <- app_assoc.
Qed.

(** The block's method on the endpoint: a request refused before the read is
    dropped. *)
Lemma receive_refines t req (c : CustomFn K) (dw : Dfu * World) :
  exists c', ep0_receive_dnload_block t req (c, dw) =
    ((receive_dnload_block (ctrl_req req) (data_stage t req c) dw).1,
     (c', (receive_dnload_block (ctrl_req req) (data_stage t req c) dw).2)) /\
    (c' = (drop_ctrl HostToDevice c).2 \/ c' = (ctrl_recv_async (tn_shut t) (ctrl_len req) c).2).
Proof.
  rewrite receive_split. change (Z.to_nat (length_ (ctrl_req req))) with (ctrl_len req). rewrite recv_data_stage.
  unfold ep0_receive_dnload_block, before_answer. rewrite bind_assoc, bind_attempt.
  destruct (dnload_prepare dw) as [[buf|e] [d w]] eqn:Ep; rewrite (on_handler_eq _ c _ _ _ Ep).
  - cbn [fst snd]. rewrite bind_ret, (bind_Ok _ _ _ _ _ Ep). unfold background. rewrite bind_modify.
    unfold on_handler at 1, modify, bind at 1. cbn [ds_env data_stage].
    exists (ctrl_recv_async (tn_shut t) (ctrl_len req) c).2. split; [|by right]. unfold bind, on_custom, lift.
    destruct (ctrl_recv_async _ _ _) as [[received|e] c']; [|done]. cbn [fst snd]. unfold on_handler.
    by destruct (dnload_accept _ _).
  - cbn [fst snd]. rewrite (bind_Err _ _ _ _ _ Ep). exists (drop_ctrl HostToDevice c).2. split; [|by left].
    unfold bind, on_custom, throw. by rewrite drop_ok.
Qed.

(** A handler's answer to a host's data, with the request read or dropped. *)
Lemma setup_out_refines t req (c : CustomFn K) (dw : Dfu * World) :
  exists c', ep0_setup_out t req (c, dw) =
    ((setup_out (ctrl_req req) (data_stage t req c) dw).1,
     (c', (setup_out (ctrl_req req) (data_stage t req c) dw).2)) /\
    (c' = (drop_ctrl HostToDevice c).2 \/ c' = (ctrl_recv_async (tn_shut t) (ctrl_len req) c).2).
Proof.
  unfold ep0_setup_out, setup_out. cbn [length_ ctrl_req]. fold (ctrl_req req). fold (ctrl_is_empty req).
  destruct (negb (is_dfu_request _)); [|destruct (_ && _)].
  - rewrite !bind_attempt, drain_refines. eexists. split; [reflexivity|by right].
  - destruct (receive_refines t req c dw) as (c' & Hr & Hc'). exists c'. split; [|done].
    rewrite !bind_attempt, Hr. cbn [fst snd]. destruct (receive_dnload_block _ _ dw) as [[x|e] [d w]]; cbn [fst snd]; [done|].
    destruct (is_closed_transport_error e); [|done]. unfold on_handler. by destruct (reset_on_idle_timeout _).
  - rewrite !bind_attempt, drain_refines. cbn [fst snd].
    exists (ctrl_recv_async (tn_shut t) (ctrl_len req) c).2. split; [|by right].
    destruct (drain_request _ _ dw) as [[x|e] [d w]]; cbn [fst snd]; unfold on_handler.
    + by destruct (handle_out _ _).
    + destruct (is_closed_transport_error e); [|done]. by destruct (reset_on_idle_timeout _).
Qed.

(** A handler's answer to a host's read, with the reply sent or dropped. *)
Lemma setup_in_refines t req (c : CustomFn K) (dw : Dfu * World) :
  exists bytes c', let sent := rbind (ctrl_send_async (tn_shut t) bytes c).1 (fun _ => Ok tt) in
    ep0_setup_in t req (c, dw) =
    ((setup_in (ctrl_req req) sent dw).1, (c', (setup_in (ctrl_req req) sent dw).2)) /\
    (forall reply, (setup_in (ctrl_req req) sent dw).1 = Ok (Some reply) -> reply = bytes /\ sent = Ok tt) /\
    (c' = (drop_ctrl DeviceToHost c).2 \/ c' = (ctrl_send_async (tn_shut t) bytes c).2).
Proof.
  unfold ep0_setup_in, setup_in. destruct (negb (is_dfu_request _)).
  - exists [], (ctrl_send_async (tn_shut t) [] c).2. rewrite bind_attempt. unfold on_custom.
    destruct (ctrl_send_async _ _ c) as [[n|e] c']; cbn; (split; [done|]); (split; [|by right]); intros ? [= <-]; done.
  - unfold before_answer. rewrite bind_assoc, bind_attempt.
    destruct (handle_in (ctrl_req req) dw) as [[resp|e] [d w]] eqn:Eh; rewrite (on_handler_eq _ c _ _ _ Eh).
    + exists (as_slice resp), (ctrl_send_async (tn_shut t) (as_slice resp) c).2. cbn [fst snd].
      rewrite bind_ret, bind_attempt, !(bind_Ok _ _ _ _ _ Eh). unfold on_custom.
      destruct (ctrl_send_async _ _ c) as [[n|e] c']; cbn [fst snd rbind].
      * split; [done|]. split; [|by right]. intros ? [= <-]. done.
      * destruct (is_closed_transport_error e); cbn; (split; [done|]); (split; [done|by right]).
    + exists [], (drop_ctrl DeviceToHost c).2. cbn [fst snd]. rewrite !(bind_Err _ _ _ _ _ Eh). split; [|by split; [|left]].
      unfold bind, on_custom, throw. by rewrite drop_ok.
Qed.

End DfuRefines.

(** Either way the request is settled. *)
Lemma out_settled {K} `{Ep0Laws K} t req (c c' : CustomFn K) :
  c' = (drop_ctrl HostToDevice c).2 \/ c' = (ctrl_recv_async (tn_shut t) (ctrl_len req) c).2 ->
  carries c (EvSetupHostToDevice req) -> is_ok (ds_read (data_stage t req c)) = true ->
  quiet c'.
Proof.
  intros [->| ->] Hd Hok; [by apply (dropped_quiet HostToDevice (EvSetupHostToDevice req))|].
  pose proof (recv_quiet (tn_shut t) (ctrl_len req) req c Hd) as Hr. unfold data_stage in Hok. cbn [ds_read] in Hok.
  destruct (ctrl_recv_async _ _ _) as [r c']. by apply Hr.
Qed.

Lemma in_settled {K} `{Ep0Laws K} t req bytes (c c' : CustomFn K) :
  c' = (drop_ctrl DeviceToHost c).2 \/ c' = (ctrl_send_async (tn_shut t) bytes c).2 ->
  carries c (EvSetupDeviceToHost req) ->
  is_ok (rbind (ctrl_send_async (tn_shut t) bytes c).1 (fun _ => Ok tt)) = true ->
  quiet c'.
Proof.
  intros [->| ->] Hd Hok; [by apply (dropped_quiet DeviceToHost (EvSetupDeviceToHost req))|].
  pose proof (send_quiet (tn_shut t) bytes req c Hd) as Hr. destruct (ctrl_send_async _ _ _) as [[n|e] c']; [|done].
  by apply Hr.
Qed.

#[global] Instance dfu_ctrl_laws {Hs} `{Hasher Hs} : CtrlHandlerLaws (Dfu.Dfu Hs) dfu_ctrl_handler.
Proof.
  constructor. intros K EK EL t e c [d w]. destruct e as [| | | | | |req|req|n];
    cbn [ch_event dfu_ctrl_handler dfu_ctrl_event].
  - exists Bind. split_and!; [done..|]. intros Hd _. by apply (plain_quiet EvBind).
  - rewrite (bind_Ok _ _ _ _ _ (on_handler_eq _ c _ _ _ (reset_spec d w))).
    exists Unbind. split; [done|]. split; [|intros Hd _; by apply (plain_quiet EvUnbind)].
    cbn [handle_event dfu_event_handler dfu_handle_event]. by rewrite (bind_Ok _ _ _ _ _ (reset_spec d w)).
  - exists Enable. split_and!; [done..|]. intros Hd _. by apply (plain_quiet EvEnable).
  - rewrite (bind_Ok _ _ _ _ _ (on_handler_eq _ c _ _ _ (reset_spec d w))).
    exists Disable. split; [done|]. split; [|intros Hd _; by apply (plain_quiet EvDisable)].
    cbn [handle_event dfu_event_handler dfu_handle_event]. by rewrite (bind_Ok _ _ _ _ _ (reset_spec d w)).
  - exists Suspend. split_and!; [done..|]. intros Hd _. by apply (plain_quiet EvSuspend).
  - exists Resume. split_and!; [done..|]. intros Hd _. by apply (plain_quiet EvResume).
  - destruct (setup_out_refines t req c (d, w)) as (c' & Hr & Hc'). unfold bind at 1. rewrite Hr.
    destruct (setup_out _ _ (d, w)) as [r [d' w']] eqn:Eo. cbn [fst snd].
    assert (handle_event (SetupHostToDevice (ctrl_req req) (data_stage t req c)) (d, w) =
            (match r with Ok _ => Ok None | Err e => Err e end, (d', w'))) as Hh.
    { cbn [handle_event dfu_event_handler dfu_handle_event]. unfold bind. rewrite Eo. by destruct r. }
    destruct r; (exists (SetupHostToDevice (ctrl_req req) (data_stage t req c)); split; [done|];
      split; [done|]; by apply (out_settled t req)).
  - destruct (setup_in_refines t req c (d, w)) as (bytes & c' & Hr & Hb & Hc'). rewrite Hr.
    destruct (setup_in (ctrl_req req) _ (d, w)) as [r [d' w']] eqn:Ei. cbn [fst snd] in *.
    exists (SetupDeviceToHost (ctrl_req req) (rbind (ctrl_send_async (tn_shut t) bytes c).1 (fun _ => Ok tt))).
    split; [split; [done|]; by exists bytes|]. split; [done|]. by apply (in_settled t req).
  - exists (Unknown n). split_and!; [done..|]. intros Hd _. by apply (plain_quiet (EvUnknown n)).
Qed.

(** ** The control plane of fastboot over USB on the endpoint (state.rs) *)

Definition fastboot_ctrl_event {K} `{Ep0Kernel K} (t : Ep0Turn) (e : UsbEvent)
    : M (CustomFn K * (Watch * World)) (option (list byte)) :=
  let send v := on_handler (modify (fun '(wt, w) => (watch_step wt (CtlSend v), w))) in
  match e with
  | EvEnable => send true >>; ret None
  | EvDisable | EvUnbind => send false >>; ret None
  | EvSetupHostToDevice req => do! _ := attempt (drain_ctrl t req) in ret None
  | EvSetupDeviceToHost _ =>
      do! r := attempt (on_custom (ctrl_send_async (tn_shut t) [])) in ret (if is_ok r then Some [] else None)
  | _ => ret None
  end.

#[global] Instance fastboot_ctrl_handler : CtrlHandler Watch := {| ch_event K _ := fastboot_ctrl_event |}.

#[global] Instance fastboot_ctrl_laws : CtrlHandlerLaws Watch fastboot_ctrl_handler.
Proof.
  constructor. intros K EK EL t e c [wt w]. destruct e as [| | | | | |req|req|n];
    cbn [ch_event fastboot_ctrl_handler fastboot_ctrl_event].
  - exists Bind. split_and!; [done..|]. intros Hd _. by apply (plain_quiet EvBind).
  - exists Unbind. split_and!; [done..|]. intros Hd _. by apply (plain_quiet EvUnbind).
  - exists Enable. split_and!; [done..|]. intros Hd _. by apply (plain_quiet EvEnable).
  - exists Disable. split_and!; [done..|]. intros Hd _. by apply (plain_quiet EvDisable).
  - exists Suspend. split_and!; [done..|]. intros Hd _. by apply (plain_quiet EvSuspend).
  - exists Resume. split_and!; [done..|]. intros Hd _. by apply (plain_quiet EvResume).
  - rewrite bind_attempt. unfold drain_ctrl, on_handler, background, modify, bind, on_custom, ctrl_recv_all_async.
    change (Z.to_nat (rc_length req)) with (ctrl_len req).
    assert (forall c', c' = (ctrl_recv_async (tn_shut t) (ctrl_len req) c).2 ->
      carries c (EvSetupHostToDevice req) -> is_ok (ds_read (data_stage t req c)) = true ->
      quiet c') as Hs by (intros c' Hc; apply (out_settled t req); by right).
    destruct (ctrl_recv_async (tn_shut t) (ctrl_len req) c) as [r c'] eqn:Er. cbn [fst snd] in *.
    destruct r; (exists (SetupHostToDevice (ctrl_req req) (data_stage t req c)); split; [done|]; split; [done|]; by apply Hs).
  - rewrite bind_attempt. unfold on_custom. pose proof (in_settled t req [] c) as Hs.
    destruct (ctrl_send_async (tn_shut t) [] c) as [r c'] eqn:Er. cbn [fst snd ret].
    exists (SetupDeviceToHost (ctrl_req req) (rbind r (fun _ => Ok tt))). split; [split; [done|]|split].
    + exists []. rewrite Er. split; [done|]. destruct r; [|done]. by intros ? [= <-].
    + by destruct r.
    + apply Hs. by right.
  - exists (Unknown n). split_and!; [done..|]. intros Hd _. by apply (plain_quiet (EvUnknown n)).
Qed.
