(* ===== verification/DfuEndpoint.v ===== *)
(** * The DFU function on endpoint zero

    The theorems on the composition of the gadget library's endpoint zero, the
    control loop and the DFU function (Ep0Serve.v): the loop on the endpoint is
    the loop of FunctionFs.v, so that its invariant holds there; no request is
    left unanswered; the removal of the function stops it; and an image whose
    blocks are read from the endpoint arrives at the backend. For the control
    plane of fastboot over USB: the same refinement, and that the data loop is
    told what the host last did. *)

From stdpp Require Import base list.
From S2P Require Import Prelude Io Bytes Crc32 SysInfo Session Link FfsDesc FfsBuild Ep0 FunctionFs Dfu FastbootUsb.
From S2P Require Import DfuDelivery DfuProgress DfuProps Ep0Serve.

Section Endpoint.
Context {K H : Type} `{Ep0Laws K} `{HasherLaws H}.
Abbreviation Dfu := (Dfu.Dfu H).
Abbreviation ST := (CustomFn K * (Dfu * World))%type.

(** C4. The DFU function's loop on the library's endpoint zero refines the loop in which an
    event arrives with the outcome of its data stage: for every run there is a script of the
    same waits, with the data the endpoint gave and the result of each reply, on which that
    loop reaches the same handler, backend and verdict and makes the same replies; so the
    invariant of the DFU loop holds on the endpoint. And the loop leaves no request
    unanswered or unstalled, unless the endpoint failed to take an answer. *)
Theorem dfu_control_refines cfg turns (c : CustomFn K) w :
  world_ok w -> quiet c ->
  let '(seen, (stop, (c', dw'))) := dfu_ep0_serve (Hs := H) cfg turns c w in
  exists steps,
    Forall2 (fun ts s => step_of ts.1 ts.2 s) (zip turns seen) steps /\ length seen = length steps /\
    dfu_serve cfg (c_ep0 c) steps w = (stop, dw') /\
    (c_ep0 c = Ok tt -> serve_replies steps (dfu_new (H := H) cfg, w) = seen_replies seen) /\
    dfu_inv cfg dw' /\
    (Forall step_answered steps -> c_ep0 c' = Ok tt -> k0_pending (c_kernel c') = None).
Proof.
  intros Hw Hq. pose proof (ep0_serve_refines turns (c, (dfu_new (H := H) cfg, w))) as Hr. unfold dfu_ep0_serve.
  destruct (ep0_serve _ _) as [seen [stop [c' dw']]]. destruct Hr as (steps & Hf & Hl & Hs & Hrep & Hc).
  exists steps. split_and!; [done..| |by intros Ha; apply Hc].
  destruct (dfu_serve_keeps (H := H) cfg (c_ep0 c) steps w Hw) as [Hi _]. unfold dfu_serve in Hi.
  cbn [fst snd] in Hs. by rewrite Hs in Hi.
Qed.

(** ** Removal *)

(** A turn that starts without the file stops the loop. *)
Lemma gone_turn_stops t (c : CustomFn K) (d : Dfu) w :
  c_ep0 (removed BeforeWait t c).2 = Err REMOVED ->
  exists c', serve_turn t (c, (d, w)) =
    (SeenError REMOVED, (true, (c', (dfu_reset d, aborted_world d (wsteps (tn_env t) w))))).
Proof.
  intros He. unfold serve_turn. set (c1 := (removed BeforeWait t c).2) in *.
  assert (forall A (k : M (CustomFn K) A), (clear_prev_event >>; k) c1 = (Err REMOVED, c1)) as Hc.
  { intros A k. unfold clear_prev_event. by rewrite bind_assoc, ep0_bind, He. }
  assert (Ep0Events_next (idle_timeout d) t c1 = (Err REMOVED, c1)) as ->.
  { unfold Ep0Events_next, next_event. destruct (tn_arrives t); [rewrite bind_assoc|]; apply Hc. }
  cbn [handle_next]. change (is_torn_down_transport_error REMOVED) with true. cbv iota.
  cbn [on_transport_closed dfu_event_handler]. rewrite (on_handler_eq _ _ _ _ _ (reset_spec _ _)). cbn [snd]. by eexists.
Qed.

(** After the turn of the removal the file is gone. *)
Lemma removed_turn_gone t (st : ST) :
  isSome (tn_removed t) = true -> c_ep0 (serve_turn t st).2.2.1 = Err REMOVED.
Proof.
  destruct st as [c [d w]]. intros Ht. unfold serve_turn. destruct (Ep0Events_next _ _ _) as [next c1].
  destruct (handle_next _ _ _) as [seen [stop [c2 hw2]]]. unfold gone. by rewrite Ht.
Qed.

(** A turn that shows nothing is a wait without a limit in which nothing arrives. *)
Lemma nothing_seen t (c : CustomFn K) (d : Dfu) w o :
  serve_turn t (c, (d, w)) = (SeenNothing, o) ->
  tn_arrives t = false /\ o.1 = false /\ o.2.2.1 = d /\ idle_timeout d = None.
Proof.
  unfold serve_turn. destruct (Ep0Events_next _ _ _) as [[[e|]|e] c1] eqn:En; cbn [handle_next].
  - by destruct (ch_event t e _) as [r [c2 hw2]].
  - destruct (next_nothing _ _ _ _ En) as [Hi Ha]. by intros [= <-].
  - destruct (is_torn_down_transport_error e); [by destruct (on_handler _ _) as [? [? ?]]|].
    destruct (is_setup_superseded_error e); [done|].
    destruct (bool_decide (kind e = KTimedOut)); [by destruct (on_handler _ _) as [? [? ?]]|done].
Qed.

(** The loop is in a wait that does not end. *)
Definition stuck_waiting (turns : list Ep0Turn) (seen : list (Seen (K := K))) (d : Dfu) : Prop :=
  list.last seen = Some SeenNothing /\ idle_timeout d = None /\
  exists k t, turns !! k = Some t /\ length seen = S k /\ tn_arrives t = false.

Lemma removal_ends_turns before t next after (st : ST) :
  isSome (tn_removed t) = true ->
  let '(seen, (stop, (_, (d', _)))) := serve_turns (before ++ t :: next :: after) st in
  if stop : bool then (length seen <= length before + (if bool_decide (tn_removed t = Some BeforeWait) then 1 else 2))%nat
  else stuck_waiting (before ++ [t]) seen d'.
Proof.
  intros Ht. revert st. induction before as [|t0 before IH]; intros [c [d w]]; cbn [app serve_turns].
  - case_bool_decide as Hb.
    + assert (c_ep0 (removed BeforeWait t c).2 = Err REMOVED) as He by (unfold removed; by rewrite bool_decide_true).
      destruct (gone_turn_stops t c d w He) as [c' ->]. cbn. lia.
    + pose proof (removed_turn_gone t (c, (d, w)) Ht) as He. pose proof (nothing_seen t c d w) as Hn.
      destruct (serve_turn t (c, (d, w))) as [seen [stop [c1 [d1 w1]]]]. cbn [snd fst] in He.
      destruct stop; [cbn; lia|]. destruct seen as [|e|ce ev re]; cbn [orb is_nothing].
      * destruct (Hn _ eq_refl) as (Ha & _ & Hd & Hi). cbn in Hd. subst d1. split_and!; [done..|]. by exists 0%nat, t.
      * destruct (gone_turn_stops next c1 d1 w1) as [c' ->]; [unfold removed; by case_bool_decide|]. cbn. lia.
      * destruct (gone_turn_stops next c1 d1 w1) as [c' ->]; [unfold removed; by case_bool_decide|]. cbn. lia.
  - pose proof (nothing_seen t0 c d w) as Hn.
    destruct (serve_turn t0 (c, (d, w))) as [seen [stop [c1 [d1 w1]]]]. destruct stop; [cbn; case_bool_decide; lia|].
    cbn [orb]. destruct (is_nothing seen) eqn:En.
    + destruct seen; [|done..]. destruct (Hn _ eq_refl) as (Ha & _ & Hd & Hi). cbn in Hd. subst d1.
      split_and!; [done..|]. by exists 0%nat, t0.
    + specialize (IH (c1, (d1, w1))). destruct (serve_turns _ (c1, (d1, w1))) as [rest [stop [c2 [d2 w2]]]].
      destruct stop; cbn [length]; [lia|]. destruct IH as (Hl & Hi & k & tk & Hk & Hlen & Ha).
      split_and!; [|done|exists (S k), tk; cbn; by rewrite Hlen]. rewrite list.last_cons. by rewrite Hl.
Qed.

(** C15. The removal of the function ends its control loop, wherever in a turn it happens:
    before the wait, while the loop waits (the wait holds a reference to the file and goes on),
    before or during a reply, and even if a request is open. The loop ends at the latest in the
    turn after, in the same one if the file was gone before the wait, with the handler as it
    was created and its session aborted; or else it is in a wait that does not end, at or
    before the turn of the removal, because no idle limit is set and the endpoint reports
    nothing any more. *)
Theorem removal_ends_dfu_control cfg before t next after (c : CustomFn K) w :
  world_ok w -> isSome (tn_removed t) = true ->
  let '(seen, (stop, (_, (d', _)))) := dfu_ep0_serve (Hs := H) cfg (before ++ t :: next :: after) c w in
  if stop : bool then
    (length seen <= length before + (if bool_decide (tn_removed t = Some BeforeWait) then 1 else 2))%nat /\ d' = dfu_new cfg
  else stuck_waiting (before ++ [t]) seen d'.
Proof.
  intros Hw Ht. pose proof (ep0_serve_refines (before ++ t :: next :: after) (c, (dfu_new (H := H) cfg, w))) as Hr.
  unfold dfu_ep0_serve. unfold ep0_serve in *. destruct (on_custom Ep0Events_new _) as [[x|e] st] eqn:Eo.
  - pose proof (removal_ends_turns before t next after st Ht) as Hstop.
    destruct (serve_turns _ st) as [seen [stop [c' [d' w']]]]. destruct stop; [|done]. split; [done|].
    destruct Hr as (steps & _ & _ & Hs & _).
    pose proof (dfu_serve_keeps (H := H) cfg (c_ep0 c) steps w Hw) as [_ Hk]. unfold dfu_serve in Hk.
    cbn [fst snd] in Hs. rewrite Hs in Hk. by apply Hk.
  - destruct st as [c' [d' w']]. destruct Hr as (steps & _ & _ & Hs & _). split; [cbn; case_bool_decide; lia|].
    pose proof (dfu_serve_keeps (H := H) cfg (c_ep0 c) steps w Hw) as [_ Hk]. unfold dfu_serve in Hk.
    cbn [fst snd] in Hs. rewrite Hs in Hk. by apply Hk.
Qed.

(** ** An image over the endpoint *)

(** The host's action behind an event: what the endpoint gives to the read of the
    data stage is what the host sent. *)
Inductive host_act (t : Ep0Turn) (c : CustomFn K) : UsbEvent -> hact -> Prop :=
| act_block req num data :
    ctrl_req req = dfu_out DNLOAD num (Z.of_nat (length data)) ->
    (ctrl_recv_async (tn_shut t) (ctrl_len req) c).1 = Ok data ->
    host_act t c (EvSetupHostToDevice req) (HBlock num (tn_data t) data)
| act_manifest req num :
    ctrl_req req = dfu_out DNLOAD num 0 ->
    (ctrl_recv_async (tn_shut t) (ctrl_len req) c).1 = Ok [] ->
    host_act t c (EvSetupHostToDevice req) (HManifest num (tn_data t))
| act_status req :
    ctrl_req req = dfu_in GETSTATUS 6 -> host_act t c (EvSetupDeviceToHost req) HGetStatus
| act_state req :
    ctrl_req req = dfu_in GETSTATE 1 -> host_act t c (EvSetupDeviceToHost req) HGetState.

(** What a turn is for the host: the background goes on; a wait may fail for one
    request; an event about the bus is of no effect;
    one with a request is an action, answered without an error, and an IN request
    with a reply. *)
Inductive turn_acts (t : Ep0Turn) : Seen (K := K) -> list hact -> Prop :=
| acts_nothing : turn_acts t SeenNothing (HEnv <$> tn_env t)
| acts_error e :
    is_torn_down_transport_error e = false -> kind e <> KTimedOut ->
    turn_acts t (SeenError e) (HEnv <$> tn_env t)
| acts_idle c e :
    e ∉ [EvUnbind; EvDisable] -> holds e = None -> turn_acts t (SeenEvent c e (Ok None)) (HEnv <$> tn_env t)
| acts_event c e a r :
    host_act t c e a -> (holds e = Some DeviceToHost -> isSome r = true) ->
    turn_acts t (SeenEvent c e (Ok r)) ((HEnv <$> tn_env t) ++ [a]).

(** An event read as an action is that action's event. *)
Lemma host_act_event t (c : CustomFn K) e a r ev :
  host_act t c e a -> (holds e = Some DeviceToHost -> isSome r = true) ->
  stage_of t c e (Ok r) ev -> event_of a = Some ev.
Proof.
  intros Ha Hr Hst. destruct Ha as [req num data Hreq Hd|req num Hreq Hd|req Hreq|req Hreq];
    destruct ev as [| | | | | |q [env rd]|q sent|]; try done; cbn [stage_of ds_env ds_read] in Hst.
  - destruct Hst as (-> & -> & ->). cbn. by rewrite Hreq, Hd.
  - destruct Hst as (-> & -> & ->). cbn. by rewrite Hreq, Hd.
  - destruct Hst as (-> & bytes & -> & Hs). specialize (Hr eq_refl). destruct r as [reply|]; [|done].
    destruct (Hs reply eq_refl) as [_ ->]. cbn. by rewrite Hreq.
  - destruct Hst as (-> & bytes & -> & Hs). specialize (Hr eq_refl). destruct r as [reply|]; [|done].
    destruct (Hs reply eq_refl) as [_ ->]. cbn. by rewrite Hreq.
Qed.

(** Events about the bus leave the handler alone. *)
Lemma idle_event t (c : CustomFn K) e ev (dw : Dfu * World) :
  e ∉ [EvUnbind; EvDisable] -> holds e = None -> stage_of t c e (Ok None) ev -> handle_event ev dw = (Ok None, dw).
Proof.
  intros Hin Hh Hst. destruct e, ev; try done; destruct Hin; rewrite !elem_of_cons; auto.
Qed.

Lemma hstep_event a ev (dw : Dfu * World) r dw' :
  event_of a = Some ev -> handle_event ev dw = (Ok r, dw') -> state dw'.1 <> Error -> hstep a dw = Some dw'.
Proof.
  intros He Hh Hs. unfold hstep. destruct a; try done; rewrite He, Hh; by rewrite bool_decide_eq_false_2.
Qed.

(** A turn does to the handler what the host's actions do. *)
Lemma turn_hrun t (c c' : CustomFn K) (d : Dfu) w seen dw' acts :
  serve_turn t (c, (d, w)) = (seen, (false, (c', dw'))) -> turn_acts t seen acts ->
  state dw'.1 <> Error -> hrun acts (d, w) = Some dw'.
Proof.
  unfold serve_turn. destruct (Ep0Events_next _ _ _) as [next c0]. set (c1 := (removed BeforeReply t c0).2).
  destruct (handle_next t next (c1, _)) as [seen0 [stop0 [c2 hw2]]] eqn:Hd. intros [= -> -> _ ->] Hacts Hst.
  revert Hd. destruct next as [[e|]|err]; cbn [handle_next]; intros Hd.
  - pose proof (ch_refines t e c1 (d, wsteps (tn_env t) w)) as Hr.
    destruct (ch_event t e (c1, (d, wsteps (tn_env t) w))) as [r [c3 dw2]]. injection Hd as <- <- ->.
    destruct Hr as (ev & Hev & Hh & _). inversion Hacts as [| |cx e0 Hin Hh0|cx e0 a r0 Ha Hr0]; subst.
    { rewrite (idle_event _ _ _ _ _ Hin Hh0 Hev) in Hh. injection Hh as <-. apply hrun_env. }
    rewrite hrun_app, hrun_env. cbn [hrun]. cbn [fst] in *.
    rewrite (hstep_event a ev _ _ _ (host_act_event _ _ _ _ _ _ Ha Hr0 Hev) Hh Hst). done.
  - injection Hd as <- <- <-. inversion Hacts; subst. apply hrun_env.
  - injection Hd as <- Hd. inversion Hacts as [|e He Hk| |]; subst. rewrite He in Hd.
    rewrite bool_decide_eq_false_2 in Hd by done. destruct (is_setup_superseded_error err); injection Hd as <- <-; apply hrun_env.
Qed.

Lemma serve_turns_hrun turns (st st' : ST) seen actss :
  serve_turns turns st = (seen, (false, st')) ->
  Forall2 (fun ts acts => turn_acts ts.1 ts.2 acts) (zip turns seen) actss ->
  (forall n, state (serve_turns (take n turns) st).2.2.2.1 <> Error) ->
  hrun (concat actss) st.2 = Some st'.2.
Proof.
  revert st seen actss. induction turns as [|t turns IH]; intros [c [d w]] seen actss Hrun Hacts Hst.
  { injection Hrun as <- <-. by inversion Hacts. }
  cbn [serve_turns] in Hrun. destruct (serve_turn t (c, (d, w))) as [s [stop [c1 dw1]]] eqn:Et.
  destruct stop; [done|]. cbn [orb] in Hrun. destruct (is_nothing s) eqn:En.
  { injection Hrun as <- <-. assert (zip (t :: turns) [s] = [(t, s)]) as Hz by (by destruct turns).
    rewrite Hz in Hacts. inversion Hacts as [|x acts y actss' Ha Hrest]; subst. inversion Hrest; subst.
    cbn [concat]. rewrite app_nil_r. apply (turn_hrun _ _ _ _ _ _ _ _ Et Ha).
    specialize (Hst 1%nat). cbn [take serve_turns] in Hst. by rewrite Et, En in Hst. }
  destruct (serve_turns turns (c1, dw1)) as [rest [stop st2]] eqn:Er.
  injection Hrun as <- -> ->. cbn [zip zip_with] in Hacts. inversion Hacts as [|x acts y actss' Ha Hrest]; subst.
  assert (forall n, state (serve_turns (take n turns) (c1, dw1)).2.2.2.1 <> Error) as Hst1.
  { intros n. specialize (Hst (S n)). cbn [take serve_turns] in Hst. rewrite Et, En in Hst.
    by destruct (serve_turns (take n turns) (c1, dw1)) as [? ?]. }
  cbn [concat fst snd] in *. rewrite hrun_app, (turn_hrun _ _ _ _ _ _ _ _ Et Ha (Hst1 O)).
  by apply (IH (c1, dw1) rest).
Qed.

(** C3. An image over endpoint zero: the host downloads an image in blocks, each of which the
    DFU loop reads from the library's endpoint as the data stage of a request, with status
    requests in between, and starts the manifestation; a wait may be superseded, the last one
    may still go on, and the backend's tasks interleave in any way, without reporting a failure
    during the download. As long as the endpoint delivers and takes every data stage and the
    function is in no error state after any turn, the backend has received, in order, a prefix
    of the image without its valid DFU suffix, and exactly that when its writer is closed while
    the device still manifests. *)
Theorem image_over_endpoint cfg w (c c' : CustomFn K) turns seen d' w' actss acts num evs post b :
  world_ok w -> c_ep0 c = Ok tt ->
  dfu_ep0_serve cfg turns c w = (seen, (false, (c', (d', w')))) ->
  Forall2 (fun ts acts => turn_acts ts.1 ts.2 acts) (zip turns seen) actss ->
  (forall n, state (dfu_ep0_serve cfg (take n turns) c w).2.2.2.1 <> Error) ->
  concat actss = acts ++ HManifest num evs :: post ->
  Forall (fun a => downloading a = true /\ benign_act a) acts ->
  Forall (fun ev => benign ev = true) evs ->
  Forall (fun a => observing a = true) post ->
  w_transfers w' !! length (w_transfers w) = Some b ->
  bk_written b `prefix_of` payload (H := H) (image acts) /\
  (state d' = Manifest -> bk_drain b = DrClosed -> bk_written b = payload (H := H) (image acts)).
Proof.
  intros Hw He Hrun Hacts Hst Hc Hd Hev Hp Hb.
  assert (forall ts, dfu_ep0_serve (Hs := H) cfg ts c w = serve_turns ts (c, (dfu_new cfg, w))) as Heq.
  { intros ts. unfold dfu_ep0_serve, ep0_serve, on_custom, Ep0Events_new, fd, ep0, bind, gets, lift. by rewrite He. }
  rewrite Heq in Hrun. pose proof (serve_turns_hrun turns _ _ seen actss Hrun Hacts) as Hh. cbn [snd] in Hh.
  rewrite Hc in Hh. apply (delivered_image cfg w acts num evs post d' w'); try done.
  apply Hh. intros n. rewrite <- Heq. apply Hst.
Qed.
End Endpoint.

(** The control plane of fastboot over USB on the endpoint. *)
Lemma fastboot_control_refines {K} `{Ep0Laws K} turns (c : CustomFn K) wt w :
  quiet c ->
  let '(seen, (stop, (c', hw'))) := ep0_serve turns (c, (wt, w)) in
  exists steps,
    Forall2 (fun ts s => step_of ts.1 ts.2 s) (zip turns seen) steps /\
    serve (c_ep0 c) steps (wt, w) = (stop, hw') /\
    (Forall step_answered steps -> c_ep0 c' = Ok tt -> k0_pending (c_kernel c') = None).
Proof.
  intros Hq. pose proof (ep0_serve_refines turns (c, (wt, w))) as Hr.
  destruct (ep0_serve _ _) as [seen [stop [c' dw']]]. destruct Hr as (steps & Hf & _ & Hs & _ & Hc).
  exists steps. split_and!; [done..|]. intros Ha. by apply Hc.
Qed.

(** What an event says about the host's configuration of the function. *)
Definition bus_signal {K} (s : Seen (K := K)) : option bool :=
  match s with
  | SeenEvent _ EvEnable _ => Some true
  | SeenEvent _ (EvDisable | EvUnbind) _ => Some false
  | _ => None
  end.

Lemma fastboot_turn {K} `{Ep0Kernel K} t (c : CustomFn K) wt w :
  let '(seen, (_, (_, (wt', _)))) := serve_turn t (c, (wt, w)) in
  wt' = match bus_signal seen with Some b => watch_step wt (CtlSend b) | None => wt end.
Proof.
  unfold serve_turn. destruct (Ep0Events_next _ _ _) as [next c0]. set (c1 := (removed BeforeReply t c0).2).
  destruct next as [[e|]|err]; cbn [handle_next]; [|done|].
  - destruct e as [| | | | | |req|req|n]; cbn [ch_event fastboot_ctrl_handler fastboot_ctrl_event]; try done.
    + rewrite bind_attempt. unfold drain_ctrl, on_handler, background, modify, bind, on_custom.
      by destruct (ctrl_recv_all_async _ _ _) as [[] c2].
    + rewrite bind_attempt. unfold on_custom. by destruct (ctrl_send_async _ _ _) as [r c2].
  - destruct (is_torn_down_transport_error err); [done|]. destruct (is_setup_superseded_error err); [done|].
    by destruct (bool_decide (kind err = KTimedOut)).
Qed.

(** The data loop of fastboot over USB is told what the host last did: its signal
    is that of the last event of enabling, disabling or unbinding, and it is sent
    once for each of them. *)
Lemma fastboot_follows_host {K} `{Ep0Kernel K} turns (c : CustomFn K) wt w :
  let '(seen, (_, (_, (wt', _)))) := ep0_serve turns (c, (wt, w)) in
  wt_value wt' = default (wt_value wt) (list.last (omap bus_signal seen)) /\
  wt_version wt' = (wt_version wt + length (omap bus_signal seen))%nat.
Proof.
  unfold ep0_serve, on_custom, Ep0Events_new, fd, ep0, bind, gets, lift.
  destruct (c_ep0 c) as [x|e]; [|by rewrite Nat.add_0_r].
  revert c wt w. induction turns as [|t turns IH]; intros c wt w; [by cbn; rewrite Nat.add_0_r|].
  cbn [serve_turns]. pose proof (fastboot_turn t c wt w) as Ht.
  destruct (serve_turn t (c, (wt, w))) as [s [stop [c1 [wt1 w1]]]]. destruct (stop || is_nothing s).
  - cbn. destruct (bus_signal s); subst wt1; cbn; split; done || lia.
  - specialize (IH c1 wt1 w1). destruct (serve_turns turns (c1, (wt1, w1))) as [rest [stop2 [c2 [wt2 w2]]]].
    destruct IH as [Hv Hn]. cbn [omap list_omap]. rewrite Hv, Hn. destruct (bus_signal s) as [b|]; subst wt1; [|done].
    rewrite list.last_cons. cbn [length watch_step wt_value wt_version]. split; [|lia].
    by destruct (list.last (omap bus_signal rest)).
Qed.

(** ** A download over an endpoint *)

Module EndpointDemo.
Import Baseline.
Import DfuProps.Demo.

(** A setup packet of the host, as the endpoint reports it. *)
Definition setup_event (ty req val len : Z) : list byte :=
  le_bytes 1 ty ++ le_bytes 1 req ++ le_bytes 2 val ++ le_bytes 2 0 ++ le_bytes 2 len ++ le_bytes 1 SETUP ++ le_bytes 3 0.

(** The host sends [data] in every data stage. *)
Definition endpoint (events : list (list byte)) (data : list byte) (fails : bool) : CustomFn ToyEp0 :=
  {| c_ep0 := Ok tt; c_setup_event := None;
     c_kernel := {| t_events := events; t_pending := None; t_data := data; t_fails := fails |} |}.

Definition small : list byte := bs "forty bytes of firmware, without suffix.".

Definition session : list (list byte) :=
  [le_bytes 8 0 ++ le_bytes 1 2 ++ le_bytes 3 0; setup_event 33 1 0 40; setup_event 161 3 0 6;
   setup_event 33 1 1 0; setup_event 161 3 0 6; setup_event 161 5 0 1].

Definition turn (env : list wevent) : Ep0Turn :=
  {| tn_removed := None; tn_env := env; tn_arrives := true; tn_data := []; tn_shut := false |}.

Definition removing (p : Removal) (arrives : bool) : Ep0Turn :=
  {| tn_removed := Some p; tn_env := []; tn_arrives := arrives; tn_data := []; tn_shut := false |}.

Definition write_all : list wevent := [WBackend 0 EvConnectOk; WBackend 0 EvWrite; WBackend 0 EvWrite; WBackend 0 EvEof].

Definition turns : list Ep0Turn := [turn []; turn []; turn []; turn []; turn write_all; turn []].

Abbreviation run := (dfu_ep0_serve (Hs := Baseline.State) config turns (endpoint session small false) world).

Definition actions : list (list hact) :=
  [[]; [HBlock 0 [] small]; [HGetStatus]; [HManifest 1 []]; (HEnv <$> write_all) ++ [HGetStatus]; [HGetState]].

Lemma run_actions : Forall2 (fun ts acts => turn_acts ts.1 ts.2 acts) (zip turns run.1) actions.
Proof.
  vm_compute. apply Forall2_cons; [apply acts_idle; [|done]; rewrite !elem_of_cons, elem_of_nil; by intros [|[]]|].
  apply Forall2_cons; [by apply (acts_event (turn []) _ _ (HBlock 0 [] small)); [apply (act_block (turn []) _ _ 0 small)|]|].
  apply Forall2_cons; [by apply (acts_event (turn []) _ _ HGetStatus); [apply act_status|]|].
  apply Forall2_cons; [by apply (acts_event (turn []) _ _ (HManifest 1 [])); [apply (act_manifest (turn []) _ _ 1)|]|].
  apply Forall2_cons; [by apply (acts_event (turn write_all) _ _ HGetStatus); [apply act_status|]|].
  apply Forall2_cons; [by apply (acts_event (turn []) _ _ HGetState); [apply act_state|]|]. constructor.
Qed.

Lemma run_states n :
  state (dfu_ep0_serve (Hs := Baseline.State) config (take n turns) (endpoint session small false) world).2.2.2.1 <> Error.
Proof. do 6 (destruct n as [|n]; [vm_compute; discriminate|]). rewrite take_ge by (cbn; lia). vm_compute. discriminate. Qed.

Lemma run_running : run.2.1 = false.
Proof. vm_compute. reflexivity. Qed.

Lemma run_backend :
  state run.2.2.2.1 = Manifest /\
  exists b, w_transfers run.2.2.2.2 !! length (w_transfers world) = Some b /\ bk_drain b = DrClosed /\ bk_written b = small.
Proof. vm_compute. eauto. Qed.

Lemma outcome_eta {A B C D} (x : A * (bool * (B * (C * D)))) :
  x.2.1 = false -> x = (x.1, (false, (x.2.2.1, (x.2.2.2.1, x.2.2.2.2)))).
Proof. destruct x as [? [? [? []]]]. by intros <-. Qed.

Lemma run_eta : run = (run.1, (false, (run.2.2.1, (run.2.2.2.1, run.2.2.2.2)))).
Proof. apply outcome_eta, run_running. Qed.

(** The blocks the endpoint gave are what the backend has. *)
Lemma image_over_endpoint_witness :
  exists b, w_transfers run.2.2.2.2 !! length (w_transfers world) = Some b /\ bk_written b = small /\
    bk_written b = payload (H := Baseline.State) (image [HBlock 0 [] small; HGetStatus]).
Proof.
  destruct run_backend as (Hst & b & Hb & Hd & Hw). exists b. split; [exact Hb|]. split; [exact Hw|].
  refine (proj2 (image_over_endpoint (H := Baseline.State) config world (endpoint session small false) _ turns run.1 _ _ actions
    [HBlock 0 [] small; HGetStatus] 1 [] ((HEnv <$> write_all) ++ [HGetStatus; HGetState]) b
    _ eq_refl run_eta run_actions run_states eq_refl _ _ _ Hb) Hst Hd).
  - apply Forall_nil_2.
  - repeat constructor.
  - constructor.
  - repeat constructor.
Defined.

Lemma endpoint_quiet : quiet (endpoint session small false).
Proof. split; [intros d [=]|done]. Qed.

Lemma dfu_control_refines_witness :
  exists steps, length steps = 6%nat /\
    serve_replies steps (dfu_new (H := Baseline.State) config, world) = seen_replies run.1 /\
    dfu_inv config run.2.2.2.
Proof.
  pose proof (dfu_control_refines (H := Baseline.State) config turns (endpoint session small false) world (Forall_nil_2 _) endpoint_quiet) as Hr.
  destruct run as [seen [stop [c' dw']]] eqn:E. destruct Hr as (steps & _ & Hl & _ & Hrep & Hi & _).
  exists steps. split; [|split; [exact (Hrep eq_refl)|exact Hi]].
  rewrite <- Hl. change (length seen) with (length (seen, (stop, (c', dw'))).1). rewrite <- E. vm_compute. reflexivity.
Defined.

(** The function is removed while the block is received: the block is accepted, and
    the next turn is the last. *)
Abbreviation removed_run p arrives := (dfu_ep0_serve (Hs := Baseline.State) config
  [turn []; removing p arrives; turn []; turn []] (endpoint session small false) world).

Lemma removal_ends_dfu_control_witness :
  let o := removed_run WhileReplying true in
  o.2.1 = true /\ (length o.1 <= 3)%nat /\ o.2.2.2.1 = dfu_new config.
Proof.
  pose proof (removal_ends_dfu_control (H := Baseline.State) config [turn []] (removing WhileReplying true) (turn []) [turn []]
    (endpoint session small false) world (Forall_nil_2 _) eq_refl) as Hr.
  assert ((removed_run WhileReplying true).2.1 = true) as Hs by (vm_compute; reflexivity).
  cbn zeta. cbn [app] in Hr. destruct (dfu_ep0_serve _ _ _ _) as [seen [stop [c' [d' w']]]]. cbn [fst snd] in Hs. subst stop.
  destruct Hr as [Hl Hd]. split; [reflexivity|]. split; [exact Hl|exact Hd].
Defined.

(** What the turns show for each point of the removal; without an event to end it,
    an unlimited wait goes on with the file the registration has dropped. *)
Example removal_points :
  (fun p => let o := removed_run p true in (length o.1, o.2.1)) <$> [BeforeWait; WhileWaiting; BeforeReply; WhileReplying]
    = [(2%nat, true); (2%nat, true); (3%nat, true); (3%nat, true)] /\
  (let o := removed_run WhileWaiting false in (length o.1, o.2.1)) = (2%nat, false).
Proof. vm_compute. done. Qed.

(** ** Data taken for an event

    The read of a block's data stage is interrupted. The request is forgotten but
    still pending in the kernel, so that the next wait reads the host's data as an
    event: here twelve bytes that say the function was disabled. *)
Example interrupted_block_is_read_as_event :
  (fun s => match s with SeenEvent _ e _ => Some e | _ => None end) <$>
  (dfu_ep0_serve (Hs := Baseline.State) config [turn []; turn []]
     (endpoint [setup_event 33 1 0 12] (le_bytes 8 0 ++ le_bytes 1 3 ++ le_bytes 3 0) true) world).1
  = [Some (EvSetupHostToDevice {| rc_request_type := 33; rc_request := 1; rc_value := 0; rc_index := 0; rc_length := 12 |});
     Some EvDisable].
Proof. vm_compute. reflexivity. Qed.
End EndpointDemo.
