(* ===== verification/ConfigFs.v ===== *)
(** * Configfs and the directories of functions

    Models patches/usb-gadget/src/function/util.rs (the directory of a function
    in configfs with its state, property paths, remove handlers, the one-value
    channel) and the helpers of src/lib.rs for attribute values. The kernel's
    side of configfs is an interface, [Configfs]: what an operation answers is
    the kernel's business, what the program relies on is stated as its laws,
    [ConfigfsLaws]. *)

From stdpp Require Import gmap.
From S2P Require Import Prelude Io Bytes.

(** ** The tree *)

(** A path is the list of its names from the root of configfs. *)
Abbreviation path := (list string).

Inductive Node := NDir | NFile (content : list byte) | NLink (target : path).

Inductive Kind := KDir | KFile | KLink.
#[global] Instance Kind_eq_dec : EqDecision Kind.
Proof. solve_decision. Defined.

Definition kind_of (n : Node) : Kind :=
  match n with NDir => KDir | NFile _ => KFile | NLink _ => KLink end.

Abbreviation Fs := (gmap path Node).

(** What is at a path, up to the content of attributes. *)
Definition at_ (f : Fs) (p : path) : option Kind := kind_of <$> f !! p.

Class Configfs := {
  k_create_dir : path -> Fs -> io_result Fs;
  k_write : path -> list byte -> Fs -> io_result Fs;
  k_symlink : path -> path -> Fs -> io_result Fs;
  k_remove_dir : path -> Fs -> io_result Fs;
  k_remove_file : path -> Fs -> io_result Fs;
  k_read : path -> Fs -> io_result (list byte);
  (** The entries of a directory, each of which may fail to be read. *)
  k_read_dir : path -> Fs -> io_result (list (io_result string));
  k_metadata : path -> Fs -> io_result Kind;
}.

(** What the operations do when they succeed. A new directory comes with entries
    of the kernel's choice below it, a write may change the content of any
    attribute but creates and deletes nothing, and removing a directory removes
    what is below it. *)
Class ConfigfsLaws `(Configfs) : Prop := {
  create_dir_law p f f' : k_create_dir p f = Ok f' ->
    f !! p = None /\ f' !! p = Some NDir /\ forall q, ~ p `prefix_of` q -> f' !! q = f !! q;
  write_law p v f f' : k_write p v f = Ok f' -> forall q, at_ f' q = at_ f q;
  symlink_law t p f f' : k_symlink t p f = Ok f' -> f !! p = None /\ f' = <[p := NLink t]> f;
  remove_dir_law p f f' : k_remove_dir p f = Ok f' ->
    forall q, f' !! q = if decide (p `prefix_of` q) then None else f !! q;
  remove_file_law p f f' : k_remove_file p f = Ok f' -> f' = delete p f;
}.

(** What the listing of directories promises: what is there is listed, and its
    kind is right. *)
Class ConfigfsListing `(Configfs) : Prop := {
  read_dir_law p f l : k_read_dir p f = Ok l -> forall n, Ok n ∈ l <-> is_Some (f !! (p ++ [n]));
  metadata_law p f k : k_metadata p f = Ok k -> at_ f p = Some k;
}.

(** ** Attribute values *)

Definition lower_digits (w : nat) (z : Z) : list byte := hex_digit_lower <$> radix_digits 16 w z.

Definition hex_u8 (v : Z) : list byte := bs "0x" ++ lower_digits 2 v.
Definition hex_u8_noprefix (v : Z) : list byte := lower_digits 2 v.
Definition hex_u16 (v : Z) : list byte := bs "0x" ++ lower_digits 4 v.

(** The decimal form of an unsigned or signed integer. *)
Definition dec (z : Z) : list byte :=
  (if z <? 0 then bs "-" else []) ++
  ((fun d => z2b (48 + d)) <$> strip_zeros 1 (radix_digits 10 20 (Z.abs z))).

Definition bool01 (b : bool) : list byte := if b then bs "1" else bs "0".

Definition is_trimmed (b : byte) : bool :=
  match b with Byte.x0a | Byte.x20 | Byte.x00 => true | _ => false end.

Fixpoint skip_trimmed (l : list byte) : list byte :=
  match l with b :: l' => if is_trimmed b then skip_trimmed l' else l | [] => [] end.

Definition trim_os_str (l : list byte) : list byte := rev (skip_trimmed (rev (skip_trimmed l))).

(** ** The state *)

(** The directory of a function: set on registration, cleared on removal. *)
Record FunctionDirInner := { fd_dir : option path; fd_dir_was_set : bool; fd_bound : bool }.

Definition function_dir_new : FunctionDirInner :=
  {| fd_dir := None; fd_dir_was_set := false; fd_bound := false |}.

Inductive State := Unregistered | Registered | Bound | Removed.

Definition state (d : FunctionDirInner) : State :=
  match fd_dir d, fd_dir_was_set d, fd_bound d with
  | None, false, _ => Unregistered
  | None, true, _ => Removed
  | Some _, _, false => Registered
  | Some _, _, true => Bound
  end.

Definition set_dir_inner (p : path) (d : FunctionDirInner) : FunctionDirInner :=
  {| fd_dir := Some p; fd_dir_was_set := true; fd_bound := fd_bound d |}.
Definition reset_dir_inner (d : FunctionDirInner) : FunctionDirInner :=
  {| fd_dir := None; fd_dir_was_set := fd_dir_was_set d; fd_bound := fd_bound d |}.
Definition set_bound_inner (b : bool) (d : FunctionDirInner) : FunctionDirInner :=
  {| fd_dir := fd_dir d; fd_dir_was_set := fd_dir_was_set d; fd_bound := b |}.

(** FunctionFS: the mount directories in the file system, the mounts with their
    instance names, and per function whether it created its directory, what it
    wrote into its endpoint zero, the endpoint files it holds open and the value
    channels it has sent on, each of which takes one value. *)
Inductive FfsChannel := ChEndpoint (num : nat) | ChEp0 | ChFfsDir.

#[export] Instance FfsChannel_eq_dec : EqDecision FfsChannel.
Proof. solve_decision. Defined.

Record FfsFiles := {
  ff_created : bool;
  ff_ep0 : list (list byte);
  ff_open : list string;
  ff_sent : list FfsChannel;
}.

Record FfsWorld := {
  w_dirs : gset string;
  w_mounts : list (string * string);
  w_files : gmap nat FfsFiles;
}.

(** The tree, the directories of the functions by their identity, the attribute
    writes that succeeded, and FunctionFS. *)
Record Cfs := {
  c_fs : Fs;
  c_dirs : gmap nat FunctionDirInner;
  c_log : list (path * list byte);
  c_ffs : FfsWorld;
}.

Definition dir_of (s : Cfs) (fn : nat) : FunctionDirInner := default function_dir_new (c_dirs s !! fn).

Definition set_fs (f : Fs) (s : Cfs) : Cfs :=
  {| c_fs := f; c_dirs := c_dirs s; c_log := c_log s; c_ffs := c_ffs s |}.

Definition update_dir (fn : nat) (u : FunctionDirInner -> FunctionDirInner) (s : Cfs) : Cfs :=
  {| c_fs := c_fs s; c_dirs := <[fn := u (dir_of s fn)]> (c_dirs s); c_log := c_log s; c_ffs := c_ffs s |}.

Definition set_dir (fn : nat) (p : path) : M Cfs unit := modify (update_dir fn (set_dir_inner p)).
Definition reset_dir (fn : nat) : M Cfs unit := modify (update_dir fn reset_dir_inner).
Definition set_bound (fn : nat) (b : bool) : M Cfs unit := modify (update_dir fn (set_bound_inner b)).

(** ** Paths *)

(** The components of a path's text. *)
Inductive Component := RootDir | CurDir | ParentDir | Normal (name : string).

Fixpoint split_slash (cur : list byte) (l : list byte) : list (list byte) :=
  match l with
  | [] => [rev cur]
  | Byte.x2f :: l => rev cur :: split_slash [] l
  | b :: l => split_slash (b :: cur) l
  end.

(** [.] is kept at the start only. *)
Definition component (i : nat) (seg : list byte) : option Component :=
  if bool_decide (seg = []) then None
  else if bool_decide (seg = bs ".") then (if (i =? 0)%nat then Some CurDir else None)
  else if bool_decide (seg = bs "..") then Some ParentDir
  else Some (Normal (str_of_bytes seg)).

Definition components (text : list byte) : list Component :=
  (match text with Byte.x2f :: _ => [RootDir] | _ => [] end) ++
  omap id (imap component (split_slash [] text)).

Definition normal (c : Component) : option string := match c with Normal n => Some n | _ => None end.
Definition is_normal (c : Component) : bool := isSome (normal c).

Definition not_registered : io_error := Custom KNotFound "USB function not registered".

Definition dir (fn : nat) : M Cfs path :=
  do! d := gets (fun s => dir_of s fn) in lift (ok_or not_registered (fd_dir d)).

Definition property_path (fn : nat) (name : list byte) : M Cfs path :=
  if forallb is_normal (components name)
  then do! d := dir fn in ret (d ++ omap normal (components name))
  else throw (Custom KInvalidInput "property path must be relative").

Section Ops.
Context `{Configfs}.

(** An operation on the tree. *)
Definition fs_op (op : Fs -> io_result Fs) : M Cfs unit := fun s =>
  match op (c_fs s) with
  | Ok f => (Ok tt, set_fs f s)
  | Err e => (Err e, s)
  end.

Definition fs_create_dir (p : path) : M Cfs unit := fs_op (k_create_dir p).
Definition fs_symlink (t p : path) : M Cfs unit := fs_op (k_symlink t p).
Definition fs_remove_dir (p : path) : M Cfs unit := fs_op (k_remove_dir p).
Definition fs_remove_file (p : path) : M Cfs unit := fs_op (k_remove_file p).

Definition log_write (p : path) (v : list byte) : M Cfs unit :=
  modify (fun s => {| c_fs := c_fs s; c_dirs := c_dirs s; c_log := c_log s ++ [(p, v)]; c_ffs := c_ffs s |}).

Definition fs_write (p : path) (v : list byte) : M Cfs unit := fs_op (k_write p v) >>; log_write p v.

Definition fs_read (p : path) : M Cfs (list byte) := fun s => (k_read p (c_fs s), s).
Definition fs_read_dir (p : path) : M Cfs (list (io_result string)) := fun s => (k_read_dir p (c_fs s), s).
Definition fs_metadata (p : path) : M Cfs Kind := fun s => (k_metadata p (c_fs s), s).
Definition fs_is_dir (p : path) : M Cfs bool := gets (fun s => bool_decide (at_ (c_fs s) p = Some KDir)).
Definition fs_is_symlink (p : path) : M Cfs bool := gets (fun s => bool_decide (at_ (c_fs s) p = Some KLink)).

(** [fs::create_dir_all] below an existing directory: the missing parents first;
    a directory that is there already is not an error. *)
Fixpoint fs_create_dir_all_from (base rest : path) : M Cfs unit :=
  match rest with
  | [] => ret tt
  | n :: rest =>
      do! there := fs_is_dir (base ++ [n]) in
      (if there then ret tt else fs_create_dir (base ++ [n])) >>;
      fs_create_dir_all_from (base ++ [n]) rest
  end.

(** ** Operations on a function's directory *)

Definition create_dir (fn : nat) (name : list byte) : M Cfs unit :=
  do! p := property_path fn name in fs_create_dir p.

Definition create_dir_all (fn : nat) (name : list byte) : M Cfs unit :=
  do! p := property_path fn name in
  do! d := dir fn in fs_create_dir_all_from d (drop (length d) p).

Definition remove_dir (fn : nat) (name : list byte) : M Cfs unit :=
  do! p := property_path fn name in fs_remove_dir p.

Definition read (fn : nat) (name : list byte) : M Cfs (list byte) :=
  do! p := property_path fn name in fs_read p.

(** The message of a failed conversion is not kept. *)
Definition invalid_data {A} (o : option A) : M Cfs A :=
  lift (ok_or (Custom KInvalidData "invalid data") o).

(** Trailing NULs, blanks and newlines go before the text is checked and trimmed. *)
Definition read_string (fn : nat) (name : list byte) : M Cfs (list byte) :=
  do! data := read fn name in
  let data := rev (skip_trimmed (rev data)) in
  do! _ := invalid_data (if utf8_valid data then Some tt else None) in
  ret (trim data).

Definition read_os_string (fn : nat) (name : list byte) : M Cfs (list byte) :=
  do! data := read fn name in ret (trim_os_str data).

Definition write (fn : nat) (name : list byte) (v : list byte) : M Cfs unit :=
  do! p := property_path fn name in fs_write p v.

Definition symlink (fn : nat) (target link : list byte) : M Cfs unit :=
  do! t := property_path fn target in do! l := property_path fn link in fs_symlink t l.

(** [split_once(':')]. *)
Definition dev_numbers (fn : nat) : M Cfs (Z * Z) :=
  do! dev := read_string fn (bs "dev") in
  match position (fun b => bool_decide (b = Byte.x3a)) dev with
  | None => throw (Custom KInvalidData "invalid device number format")
  | Some i =>
      do! major := invalid_data (from_str_radix 10 u32_max (take i dev)) in
      do! minor := invalid_data (from_str_radix 10 u32_max (drop (S i) dev)) in
      ret (major, minor)
  end.

(** Skips unreadable entries, as [let Ok(..) else continue] does. *)
Definition readable (l : list (io_result string)) : list string := omap ok l.

(** Runs [body] on each entry of a directory, up to the first error. *)
Fixpoint for_each {A} (body : A -> M Cfs unit) (l : list A) : M Cfs unit :=
  match l with
  | [] => ret tt
  | x :: l => body x >>; for_each body l
  end.

Definition for_entries (p : path) (body : path -> M Cfs unit) : M Cfs unit :=
  do! entries := fs_read_dir p in for_each (fun n => body (p ++ [n])) (readable entries).

(** ** Splitting a function directory's name *)

(** At the first dot. *)
Definition split_name (name : list byte) : option (list byte * list byte) :=
  i ← position (fun b => bool_decide (b = Byte.x2e)) name;
  Some (take i name, drop (S i) name).

Definition split_function_dir (p : path) : option (list byte * list byte) :=
  name ← list.last p; split_name (bs name).

End Ops.

(** ** Computations that stay below a directory *)

(** The paths at or below [d], and those properly below it. *)
Definition under (d q : path) : Prop := d `prefix_of` q.
Definition inside (d q : path) : Prop := exists n, d ++ [n] `prefix_of` q.

Lemma under_up d p q : under d p -> p `prefix_of` q -> under d q.
Proof. apply transitivity. Qed.

Lemma inside_up d p q : inside d p -> p `prefix_of` q -> inside d q.
Proof. intros [n Hn] Hq. exists n. by etransitivity. Qed.

Lemma inside_sub d n : inside d (d ++ [n]).
Proof. by exists n. Qed.

Lemma inside_under d q : inside d q -> under d q.
Proof. intros [n Hn]. etransitivity; [|done]. by apply prefix_app_r. Qed.

(** Nothing is below a path where nothing is. *)
Definition tree_closed (f : Fs) : Prop := forall p n, f !! p = None -> f !! (p ++ [n]) = None.

Lemma tree_closed_under f d q : tree_closed f -> f !! d = None -> under d q -> f !! q = None.
Proof.
  intros Hc Hd [l ->]. induction l as [|n l IH] using rev_ind; [by rewrite app_nil_r|]. rewrite app_assoc. by apply Hc.
Qed.

Lemma not_inside_self d : ~ inside d d.
Proof. intros [n Hn%prefix_length]. rewrite length_app in Hn. cbn in Hn. lia. Qed.

(** [m], run from a state with [pre], leaves everything outside the region [P] as
    it was, writes attributes in [P] only, and relates the functions' directories
    by [rel]. *)
Section Framed.
Context `{ConfigfsLaws}.
Context (pre : gmap nat FunctionDirInner -> Prop).
Context (rel : relation (gmap nat FunctionDirInner)) `{!PreOrder rel}.
Context (pre_rel : forall a b, rel a b -> pre a -> pre b).
Context (P : path -> Prop) (P_up : forall p q, P p -> p `prefix_of` q -> P q).

Definition framed {A} (m : M Cfs A) : Prop := forall s,
  pre (c_dirs s) ->
  (forall q, ~ P q -> at_ (c_fs (m s).2) q = at_ (c_fs s) q) /\
  rel (c_dirs s) (c_dirs (m s).2) /\
  exists l, c_log (m s).2 = c_log s ++ l /\ Forall (fun e => P e.1) l.

(** A computation that changes neither the tree nor the directories nor the log. *)
Lemma framed_same {A} (m : M Cfs A) :
  (forall s, c_fs (m s).2 = c_fs s /\ rel (c_dirs s) (c_dirs (m s).2) /\ c_log (m s).2 = c_log s) -> framed m.
Proof.
  intros Hm s _. destruct (Hm s) as (Hf & Hd & Hl). destruct (m s) as [r s']; cbn in *.
  rewrite Hf, Hl. split; [done|]. split; [done|]. exists []. by rewrite app_nil_r.
Qed.

Lemma framed_pure {A} (m : M Cfs A) : (forall s, (m s).2 = s) -> framed m.
Proof. intros Hm. apply framed_same. intros s. rewrite Hm. by split_and!. Qed.

Lemma framed_ret {A} (a : A) : framed (ret a).
Proof. by apply framed_pure. Qed.
Lemma framed_throw {A} e : framed (throw (A:=A) e).
Proof. by apply framed_pure. Qed.
Lemma framed_gets {A} (f : Cfs -> A) : framed (gets f).
Proof. by apply framed_pure. Qed.
Lemma framed_lift {A} (r : io_result A) : framed (lift r).
Proof. by apply framed_pure. Qed.

Lemma framed_bind {A B} (m : M Cfs A) (k : A -> M Cfs B) :
  framed m -> (forall a, framed (k a)) -> framed (bind m k).
Proof.
  intros Hm Hk s Hd. unfold bind. destruct (Hm s Hd) as (Hfs & Hdirs & l & Hlog & Hl).
  destruct (m s) as [[a|e] s1] eqn:E; cbn in *; [|eauto].
  destruct (Hk a s1 (pre_rel _ _ Hdirs Hd)) as (Hfs2 & Hdirs2 & l2 & Hlog2 & Hl2). split_and!.
  - intros q Hq. by rewrite Hfs2, Hfs.
  - by etransitivity.
  - exists (l ++ l2). rewrite Hlog2, Hlog, app_assoc. split; [done|]. by apply Forall_app.
Qed.

Lemma framed_ext {A} (m m' : M Cfs A) : (forall s, m s = m' s) -> framed m' -> framed m.
Proof. intros E Hm s. rewrite E. apply Hm. Qed.

Lemma framed_attempt {A} (m : M Cfs A) : framed m -> framed (attempt m).
Proof. intros Hm s Hd. specialize (Hm s Hd). unfold attempt. by destruct (m s). Qed.

Lemma framed_for_each {A} (body : A -> M Cfs unit) l : (forall x, framed (body x)) -> framed (for_each body l).
Proof. intros Hb. induction l as [|x l IH]; cbn; [apply framed_ret|]. by apply framed_bind. Qed.

Lemma framed_for_entries p (body : path -> M Cfs unit) :
  (forall n, framed (body (p ++ [n]))) -> framed (for_entries p body).
Proof.
  intros Hb. apply framed_bind; [by apply framed_pure|]. intros a. by apply framed_for_each.
Qed.

(** The operations on the tree at a path of [P]. *)
Lemma framed_fs_op (op : Fs -> io_result Fs) p :
  P p ->
  (forall f f', op f = Ok f' -> forall q, ~ p `prefix_of` q -> at_ f' q = at_ f q) ->
  framed (fs_op op).
Proof.
  intros Hp Hop s _. unfold fs_op. destruct (op (c_fs s)) as [f'|] eqn:E; cbn.
  - split; [|split; [done|]; exists []; by rewrite app_nil_r].
    intros q Hq. eapply Hop; [done|]. intros Hpq. apply Hq. by eapply P_up.
  - split; [done|]. split; [done|]. exists []. by rewrite app_nil_r.
Qed.

Lemma framed_fs_create_dir p : P p -> framed (fs_create_dir p).
Proof.
  intros Hp. apply (framed_fs_op _ p Hp). intros f f' (_ & _ & Hq)%create_dir_law q Hn.
  unfold at_. by rewrite Hq.
Qed.

Lemma framed_fs_symlink t p : P p -> framed (fs_symlink t p).
Proof.
  intros Hp. apply (framed_fs_op _ p Hp). intros f f' (_ & ->)%symlink_law q Hn.
  unfold at_. rewrite lookup_insert_ne; [done|]. by intros ->.
Qed.

Lemma framed_fs_remove_dir p : P p -> framed (fs_remove_dir p).
Proof.
  intros Hp. apply (framed_fs_op _ p Hp). intros f f' Hok q Hn.
  unfold at_. rewrite (remove_dir_law _ _ _ Hok). by rewrite decide_False.
Qed.

Lemma framed_fs_remove_file p : P p -> framed (fs_remove_file p).
Proof.
  intros Hp. apply (framed_fs_op _ p Hp). intros f f' ->%remove_file_law q Hn.
  unfold at_. rewrite lookup_delete_ne; [done|]. by intros ->.
Qed.

Lemma framed_fs_write p v : P p -> framed (fs_write p v).
Proof.
  intros Hp. apply framed_bind.
  - apply (framed_fs_op _ p Hp). intros f f' Hok q _. by apply (write_law _ _ _ _ Hok).
  - intros _ s _. cbn. split; [done|]. split; [done|]. eexists. split; [done|]. by constructor.
Qed.

Lemma framed_create_dir_all_from base rest :
  P base -> framed (fs_create_dir_all_from base rest).
Proof.
  revert base. induction rest as [|n rest IH]; intros base Hb; cbn; [apply framed_ret|].
  assert (P (base ++ [n])) by (eapply P_up; [done|by apply prefix_app_r]).
  apply framed_bind; [apply framed_gets|]. intros []; (apply framed_bind; [|intros _; by apply IH]).
  - apply framed_ret.
  - by apply framed_fs_create_dir.
Qed.

End Framed.

(** [m], run while function [fn]'s directory is [d], stays below [d] and changes
    no function's directory. *)
Definition registered_at (fn : nat) (d : path) (dirs : gmap nat FunctionDirInner) : Prop :=
  fd_dir (default function_dir_new (dirs !! fn)) = Some d.

Definition confined `{Configfs} (fn : nat) (d : path) {A} (m : M Cfs A) : Prop :=
  framed (registered_at fn d) eq (under d) m.

(** [m] stays in [P] from any state; [rel] is equality for what leaves the
    functions' directories as they are, or [any_dirs]. *)
Definition below `{Configfs} (rel : relation (gmap nat FunctionDirInner)) (P : path -> Prop) {A} (m : M Cfs A)
    : Prop :=
  framed (fun _ => True) rel P m.

Abbreviation any_dirs := (fun _ _ : gmap nat FunctionDirInner => True).

#[global] Instance any_preorder {A} : PreOrder (fun _ _ : A => True).
Proof. by split. Qed.

Section Confined.
Context `{ConfigfsLaws} (fn : nat) (d : path).

Lemma confined_stable a b : a = b -> registered_at fn d a -> registered_at fn d b.
Proof. by intros ->. Qed.

Lemma dir_registered s : registered_at fn d (c_dirs s) -> dir fn s = (Ok d, s).
Proof. intros Hd. unfold dir, bind, gets, lift, dir_of. cbn. unfold registered_at in Hd. by rewrite Hd. Qed.

Lemma pure_property_path name s : (property_path fn name s).2 = s.
Proof.
  unfold property_path. destruct (forallb _ _); [|done].
  unfold bind, dir, gets, lift. cbn. by destruct (fd_dir (dir_of s fn)).
Qed.

(** A property's path is below the directory: it has no root, no [.] and no [..]. *)
Lemma property_path_below s name p :
  registered_at fn d (c_dirs s) -> (property_path fn name s).1 = Ok p ->
  exists names, p = d ++ names /\ components name = Normal <$> names.
Proof.
  intros Hd. unfold property_path. destruct (forallb _ _) eqn:E; [|done].
  rewrite (bind_Ok _ _ _ _ _ (dir_registered s Hd)). cbn. intros [= <-]. eexists. split; [done|].
  apply Is_true_true, forallb_True in E.
  induction E as [|c l Hc _ IH]; [done|]. destruct c; try done. cbn. by rewrite <- IH.
Qed.

Lemma confined_bind {A B} (m : M Cfs A) (k : A -> M Cfs B) :
  confined fn d m -> (forall a, confined fn d (k a)) -> confined fn d (bind m k).
Proof. apply framed_bind; [apply _|apply confined_stable]. Qed.

Lemma confined_for_each {A} (body : A -> M Cfs unit) l :
  (forall x, confined fn d (body x)) -> confined fn d (for_each body l).
Proof. apply framed_for_each; [apply _|apply confined_stable]. Qed.

Lemma confined_attempt {A} (m : M Cfs A) : confined fn d m -> confined fn d (attempt m).
Proof. apply framed_attempt. Qed.

Lemma confined_with_path {A} name (k : path -> M Cfs A) :
  (forall p, under d p -> confined fn d (k p)) -> confined fn d (bind (property_path fn name) k).
Proof.
  intros Hk s Hd. unfold bind at 1 2 3. pose proof (pure_property_path name s) as Hp.
  destruct (property_path fn name s) as [[p|e] s'] eqn:E; cbn in Hp; subst s'.
  - apply Hk; [|done]. destruct (property_path_below s name p Hd) as (names & -> & _); [by rewrite E|].
    by apply prefix_app_r.
  - by apply (framed_throw (registered_at fn d) eq (under d) e).
Qed.

Lemma confined_create_dir name : confined fn d (create_dir fn name).
Proof. apply confined_with_path. intros p. eapply framed_fs_create_dir; [apply _|apply under_up]. Qed.
Lemma confined_remove_dir name : confined fn d (remove_dir fn name).
Proof. apply confined_with_path. intros p. eapply framed_fs_remove_dir; [apply _|apply under_up]. Qed.
Lemma confined_write name v : confined fn d (write fn name v).
Proof.
  apply confined_with_path. intros p. apply framed_fs_write; [apply _|apply confined_stable|apply under_up].
Qed.
Lemma confined_symlink t l : confined fn d (symlink fn t l).
Proof.
  apply confined_with_path. intros t' _. apply confined_with_path. intros p. eapply framed_fs_symlink; [apply _|apply under_up].
Qed.

Lemma confined_create_dir_all name : confined fn d (create_dir_all fn name).
Proof.
  apply confined_with_path. intros p _ s Hd. rewrite (bind_Ok _ _ _ _ _ (dir_registered s Hd)).
  by apply (framed_create_dir_all_from _ _ confined_stable _ (under_up d)).
Qed.

End Confined.
