(* ===== verification/Build.v ===== *)
(** * Build scripts

    Models the two build scripts that decide what is compiled: build.rs of the
    daemon, which writes an [extern crate] line for every enabled plugin of the
    package metadata, and crates/swupdate-ipc/build.rs, which selects the layout
    of SWUpdate's progress messages from the environment or from SWUpdate's
    header. The TOML document is a [Value] of [UsbConfig]. *)

From stdpp Require Import gmap strings.
From S2P Require Import Prelude Io Bytes UsbConfig ConfigFs SwuProto Layout.

(** ** Searching text *)

(** [str::find] of a pattern, as a byte index. *)
Fixpoint find_from (pat : list byte) (l : list byte) (i : nat) : option nat :=
  if starts_with pat l then Some i else
  match l with [] => None | _ :: l => find_from pat l (S i) end.

Definition find (pat l : list byte) : option nat := find_from pat l 0.
Definition contains (pat l : list byte) : bool := isSome (find pat l).

Lemma find_from_shift pat l i : find_from pat l i = Nat.add i <$> find pat l.
Proof.
  unfold find. revert i. assert (forall i, find_from pat l i = Nat.add i <$> find_from pat l 0) as Hs.
  { induction l as [|b l IH]; intros i; cbn; destruct (starts_with pat _); cbn; try (by rewrite Nat.add_0_r); [done|].
    rewrite (IH (S i)), (IH 1%nat). destruct (find_from pat l 0); cbn; [|done]. f_equal. lia. }
  done.
Qed.

Lemma find_here pat l : starts_with pat l = true -> find pat l = Some 0%nat.
Proof. intros Hs. unfold find. destruct l; cbn; by rewrite Hs. Qed.

Lemma find_skip pat b l : starts_with pat (b :: l) = false -> find pat (b :: l) = S <$> find pat l.
Proof. intros Hs. unfold find. cbn. rewrite Hs. by rewrite find_from_shift. Qed.

(** A byte is found after bytes that are not it. *)
Lemma find_byte b pre post : b ∉ pre -> find [b] (pre ++ b :: post) = Some (length pre).
Proof.
  induction pre as [|x pre IH]; intros Hn; cbn [app].
  - apply find_here. unfold starts_with. cbn. by rewrite bool_decide_true.
  - apply not_elem_of_cons in Hn as [Hne Hn]. rewrite find_skip, (IH Hn); [done|].
    unfold starts_with. cbn. apply bool_decide_false. by intros [= ->].
Qed.

(** [replacen(pat, new, 1)]. *)
Definition replace_first (pat new l : list byte) : list byte :=
  match find pat l with
  | Some i => take i l ++ new ++ drop (i + length pat) l
  | None => l
  end.

(** ** Plugins *)

Record PluginSpec := { ps_crate_name : string; ps_feature : option string }.

Definition get (v : Value) (key : string) : option Value :=
  match v with VTable t => table_get t key | _ => None end.

Definition entry_error (index : nat) (what : string) : string :=
  "plugin entry #" +:+ str_of_bytes (dec (Z.of_nat index)) +:+ what.

Definition parse_plugin_spec (value : Value) (index : nat) : result PluginSpec string :=
  match value with
  | VTable t =>
      let? crate_name := ok_or (entry_error index " is missing string field `crate`") (table_get t "crate" ≫= as_str) in
      let? feature := match table_get t "feature" with
                      | None => Ok None
                      | Some v => let? f := ok_or (entry_error index " field `feature` must be a string") (as_str v) in
                                  Ok (Some f)
                      end in
      Ok {| ps_crate_name := crate_name; ps_feature := feature |}
  | _ => Err (entry_error index " must be a table")
  end.

(** The first failure, in order. *)
Fixpoint parse_specs (index : nat) (items : list Value) : result (list PluginSpec) string :=
  match items with
  | [] => Ok []
  | v :: items =>
      let? spec := parse_plugin_spec v index in
      let? specs := parse_specs (S index) items in
      Ok (spec :: specs)
  end.

Definition plugin_specs (document : Value) : result (list PluginSpec) string :=
  match v ← get document "package"; v ← get v "metadata"; v ← get v "summit-usbgadget"; get v "plugins" with
  | None => Ok []
  | Some (VArray items) => parse_specs 0 items
  | Some _ => Err "package.metadata.summit-usbgadget.plugins must be an array"
  end.

(** Feature names are ASCII. *)
Definition upper (b : byte) : byte := if (97 <=? b2z b) && (b2z b <=? 122) then z2b (b2z b - 32) else b.
Definition underscore (b : byte) : byte := if bool_decide (b = Byte.x2d) then Byte.x5f else b.

Definition feature_env (feature : string) : list byte :=
  bs "CARGO_FEATURE_" ++ (underscore ∘ upper <$> bs feature).

Definition link_line (p : PluginSpec) : list byte :=
  bs "extern crate " ++ (underscore <$> bs (ps_crate_name p)) ++ bs " as _;" ++ [Byte.x0a].

Section Links.
(** The TOML parser, and the variables that are set. *)
Variable toml_from_str : list byte -> result Value string.
Variable env_set : list byte -> bool.

Definition enabled (p : PluginSpec) : bool :=
  match ps_feature p with Some f => env_set (feature_env f) | None => true end.

Fixpoint links_of (plugins : list PluginSpec) (links : list byte) : list byte :=
  match plugins with
  | [] => links
  | p :: plugins => links_of plugins (if enabled p then links ++ link_line p else links)
  end.

Definition plugin_links (manifest : list byte) : result (list byte) string :=
  let? document := toml_from_str manifest in
  let? plugins := plugin_specs document in
  Ok (links_of plugins []).

(** The links are those of the enabled plugins, in the order of the manifest. *)
Lemma links_of_enabled plugins links :
  links_of plugins links = links ++ concat (link_line <$> filter (fun p => enabled p = true) plugins).
Proof.
  revert links. induction plugins as [|p plugins IH]; intros links; cbn [links_of]; [by rewrite app_nil_r|].
  rewrite IH, filter_cons. destruct (enabled p) eqn:E.
  - rewrite decide_True by done. cbn. by rewrite <- app_assoc.
  - by rewrite decide_False.
Qed.
End Links.

(** ** The layout of progress messages *)

(** The index of the brace that closes the one the text starts with; [nesting]
    counts the open ones. *)
Fixpoint body_end (l : list byte) (nesting : Z) (i : nat) : option nat :=
  match l with
  | [] => None
  | b :: l =>
      if bool_decide (b = Byte.x7b) then body_end l (nesting + 1) (S i)
      else if bool_decide (b = Byte.x7d) then
        if nesting - 1 =? 0 then Some i else body_end l (nesting - 1) (S i)
      else body_end l nesting (S i)
  end.

Definition key : list byte := bs "struct progress_msg".

Definition progress_msg_is_packed (source : list byte) : option bool :=
  declaration ← (fun i => drop i source) <$> find key source;
  body_start ← find [Byte.x7b] declaration;
  close ← body_end (drop body_start declaration) 0 0;
  let suffix := drop (body_start + close) declaration in
  terminator ← find [Byte.x3b] suffix;
  Some (contains (bs "packed") (take terminator suffix)).

(** How the script ends: with a layout, or in a panic. *)
Inductive Built (A : Type) := Selected (a : A) | Panics (msg : string).
Arguments Selected {A}. Arguments Panics {A}.

(** [include_dir] is the variable; [read] the file, if it is one. *)
Definition find_progress_header (include_dir : option string) (is_file : string -> bool) : option string :=
  d ← include_dir;
  let header := d +:+ "/progress_ipc.h" in
  if is_file header then Some header else None.

Definition detect_packed_progress_msg (include_dir : option string) (is_file : string -> bool)
    (read : string -> io_result (list byte)) : option (Built bool) :=
  header ← find_progress_header include_dir is_file;
  Some match read header with
       | Err _ => Panics ("failed to read SWUpdate progress header " +:+ header)
       | Ok source =>
           match progress_msg_is_packed source with
           | Some packed => Selected packed
           | None => Panics ("could not find a complete `struct progress_msg` declaration in " +:+ header)
           end
       end.

(** The environment overrides the header; without either, packed. *)
Definition select_layout (layout include_dir : option string) (is_file : string -> bool)
    (read : string -> io_result (list byte)) : Built bool :=
  match layout with
  | Some l =>
      if bool_decide (l = "packed") then Selected true
      else if bool_decide (l = "unpacked") then Selected false
      else Panics "SWUPDATE_PROGRESS_MSG_LAYOUT must be `packed` or `unpacked`"
  | None => default (Selected true) (detect_packed_progress_msg include_dir is_file read)
  end.

Definition derive_line : list byte := bs "#[derive(Debug, Copy, Clone, PartialEq, Eq)]" ++ [Byte.x0a].
Definition packed_marker : list byte :=
  bs "#[repr(C, packed)]" ++ [Byte.x0a] ++ derive_line ++ bs "pub struct ProgressMsg".
Definition unpacked_marker : list byte := bs "#[repr(C)]" ++ [Byte.x0a] ++ derive_line ++ bs "pub struct ProgressMsg".

(** The definitions that are compiled. *)
Definition select_bindings (packed : bool) (bindings : list byte) : Built (list byte) :=
  if packed then Selected bindings
  else if contains packed_marker bindings then Selected (replace_first packed_marker unpacked_marker bindings)
  else Panics "ProgressMsg representation marker should exist".

(** *** The declaration is found *)

(** Text in which the braces match. *)
Inductive balanced : list byte -> Prop :=
| bal_nil : balanced []
| bal_byte b l : b <> Byte.x7b -> b <> Byte.x7d -> balanced l -> balanced (b :: l)
| bal_braces l l' : balanced l -> balanced l' -> balanced (Byte.x7b :: l ++ Byte.x7d :: l').

Lemma body_end_balanced l rest n i :
  balanced l -> 1 <= n -> body_end (l ++ rest) n i = body_end rest n (i + length l).
Proof.
  intros Hb. revert rest n i. induction Hb as [|b l H1 H2 _ IH|l l' _ IH1 _ IH2]; intros rest n i Hn.
  - cbn. by rewrite Nat.add_0_r.
  - cbn [app body_end]. rewrite !bool_decide_false by done. rewrite IH by done. f_equal. cbn. lia.
  - cbn [app body_end]. rewrite bool_decide_true by done. rewrite <- app_assoc, IH1 by lia. cbn [app body_end].
    rewrite bool_decide_false, bool_decide_true by done. rewrite (proj2 (Z.eqb_neq _ _)) by lia.
    replace (n + 1 - 1) with n by lia. rewrite IH2 by done. f_equal. cbn. rewrite length_app. cbn. lia.
Qed.

Lemma key_open : Byte.x7b ∉ key.
Proof. by apply (bool_decide_unpack (Byte.x7b ∉ key)). Qed.

(** The layout of the progress messages follows SWUpdate's header: when the
    first mention of the structure in it is a declaration, whose braces match
    however deeply they nest, the message is packed exactly when "packed" stands
    between the closing brace and the semicolon, and with neither an override nor
    an unreadable header that is the layout selected, with frames of 2408 bytes if
    packed and 2416 if not. *)
Theorem layout_follows_header pre mid body attrs rest dir is_file read :
  let source := pre ++ key ++ mid ++ Byte.x7b :: body ++ Byte.x7d :: attrs ++ Byte.x3b :: rest in
  let packed := contains (bs "packed") (Byte.x7d :: attrs) in
  find key source = Some (length pre) -> Byte.x7b ∉ mid -> balanced body -> Byte.x3b ∉ attrs ->
  is_file (dir +:+ "/progress_ipc.h") = true -> read (dir +:+ "/progress_ipc.h") = Ok source ->
  progress_msg_is_packed source = Some packed /\
  select_layout None (Some dir) is_file read = Selected packed /\
  size_of (ProgressMsg packed) = if packed then 2408%nat else 2416%nat.
Proof.
  intros source packed Hf Hmid Hbody Hattrs Hfile Hread.
  assert (progress_msg_is_packed source = Some packed) as Hp.
  { unfold progress_msg_is_packed. rewrite Hf. cbn [fmap option_fmap option_map mbind option_bind].
    subst source. rewrite drop_app_length.
    rewrite (app_assoc key), find_byte by (rewrite elem_of_app; intros [Hk|?]; [by apply key_open|done]).
    cbn [mbind option_bind]. rewrite drop_app_length. cbn [body_end]. rewrite bool_decide_true by done.
    rewrite body_end_balanced by (done || lia). cbn [body_end]. rewrite bool_decide_false, bool_decide_true by done.
    change (0 + 1 - 1 =? 0) with true. cbn [mbind option_bind]. rewrite drop_app_add' by done.
    replace (1 + length body)%nat with (length (Byte.x7b :: body)) by done.
    change (Byte.x7b :: body ++ Byte.x7d :: attrs ++ Byte.x3b :: rest)
      with ((Byte.x7b :: body) ++ (Byte.x7d :: attrs) ++ Byte.x3b :: rest).
    rewrite drop_app_length, find_byte by set_solver. cbn [mbind option_bind]. by rewrite take_app_length. }
  split; [done|]. split; [|by destruct packed].
  unfold select_layout, detect_packed_progress_msg, find_progress_header. cbn. rewrite Hfile. cbn. by rewrite Hread, Hp.
Qed.

(** SWUpdate's header, shortened. *)
Definition demo_body : list byte := bs " unsigned int status; struct { int x; } inner; ".
Definition demo_header : list byte :=
  bs "#pragma once " ++ key ++ bs " " ++ Byte.x7b :: demo_body ++ Byte.x7d :: bs " __attribute__((packed))" ++ Byte.x3b :: [].

Lemma demo_balanced : balanced demo_body.
Proof.
  unfold demo_body. cbn. repeat (apply bal_byte; [done..|]).
  apply (bal_braces (bs " int x; ") (bs " inner; ")); repeat (apply bal_byte; [done..|]); apply bal_nil.
Qed.

Lemma layout_follows_header_witness :
  progress_msg_is_packed demo_header = Some true /\
  select_layout None (Some "/usr/include") (fun _ => true) (fun _ => Ok demo_header) = Selected true.
Proof.
  destruct (layout_follows_header (bs "#pragma once ") (bs " ") demo_body (bs " __attribute__((packed))") [] "/usr/include"
    (fun _ => true) (fun _ => Ok demo_header)) as (Hp & Hs & _).
  - reflexivity.
  - by apply (bool_decide_unpack (Byte.x7b ∉ bs " ")).
  - exact demo_balanced.
  - by apply (bool_decide_unpack (Byte.x3b ∉ bs " __attribute__((packed))")).
  - reflexivity.
  - reflexivity.
  - split; [exact Hp|exact Hs].
Defined.

(** A header whose structure is declared elsewhere before it: the first mention
    decides, and a forward declaration without braces of its own reads on into the
    next ones. *)
Example forward_declaration_misleads :
  progress_msg_is_packed
    (key ++ bs "; struct other { int x; } __attribute__((packed)); " ++ key ++ bs " { int y; };") = Some true.
Proof. reflexivity. Qed.
