(* ===== verification/Process.v ===== *)
(** * The process around the services

    Models what surrounds the services: the entry point (src/main.rs), the
    shutdown signal that all services share (crates/summit-usbgadget-config/src/lib.rs),
    with tokio's watch channel (vendor/tokio/src/sync/watch.rs) under it, and how
    the library finds configfs (patches/usb-gadget/src/lib.rs and gadget.rs). *)

From stdpp Require Import gmap relations.
From S2P Require Import Prelude Io Bytes ConfigFs Services.

(** ** The entry point *)

Definition DEFAULT_CONFIG_PATH : string := "/etc/summit-usbgadget.toml".

(** [args] includes the program's name. *)
Definition config_path_from_args (args : list string) : string :=
  match args !! 1%nat with Some path => path | None => DEFAULT_CONFIG_PATH end.

Inductive LevelFilter := LOff | LError | LWarn | LInfo | LDebug | LTrace.

(** The level of the daemon's own messages; [parse] is [log]'s parser. *)
Definition summit_level (rust_log : option string) (parse : string -> option LevelFilter) : LevelFilter :=
  default LInfo (rust_log ≫= parse).

(** ** The shutdown signal *)

(** The channel: its value, a version that each [send] advances, and whether the
    sender exists. *)
Record Watch := { wt_value : bool; wt_version : nat; wt_sender : bool }.

Definition watch_channel : Watch := {| wt_value := false; wt_version := 0; wt_sender := true |}.
Definition watch_send (v : bool) (w : Watch) : Watch :=
  {| wt_value := v; wt_version := S (wt_version w); wt_sender := wt_sender w |}.
Definition watch_close (w : Watch) : Watch :=
  {| wt_value := wt_value w; wt_version := wt_version w; wt_sender := false |}.

(** The task that waits for a signal: installing the handlers may fail, and then it
    waits for ever; otherwise it sends and ends, which drops the sender. *)
Inductive SignalTask := SInstall | SForever | SAwaiting | SSend | SDrop | SEnded.

(** A service in [Shutdown::wait], with a receiver of its own: at its look at the
    value, waiting for a version other than the one it saw, or returned. *)
Inductive ShutdownPc := PBorrow | PChanged (seen : nat) | PReturned.

Record ShutdownSt := {
  sh_watch : Watch;
  sh_task : SignalTask;
  sh_wait : ShutdownPc;
}.

Definition set_wait (p : ShutdownPc) (s : ShutdownSt) : ShutdownSt :=
  {| sh_watch := sh_watch s; sh_task := sh_task s; sh_wait := p |}.

(** One turn of [wait], if it can go on. *)
Definition wait_turn (s : ShutdownSt) : option ShutdownSt :=
  match sh_wait s with
  | PBorrow =>
      Some (set_wait (if wt_value (sh_watch s) then PReturned else PChanged (wt_version (sh_watch s))) s)
  | PChanged seen =>
      if negb (wt_version (sh_watch s) =? seen)%nat then Some (set_wait PBorrow s)
      else if wt_sender (sh_watch s) then None else Some (set_wait PReturned s)
  | PReturned => None
  end.

(** [handlers] is whether both handlers could be installed; a signal may arrive at
    any time after that. *)
Definition signal_turn (handlers : bool) (s : ShutdownSt) : option ShutdownSt :=
  let go w t := Some {| sh_watch := w; sh_task := t; sh_wait := sh_wait s |} in
  match sh_task s with
  | SInstall => go (sh_watch s) (if handlers then SAwaiting else SForever)
  | SForever | SEnded => None
  | SAwaiting => go (sh_watch s) SSend
  | SSend => go (watch_send true (sh_watch s)) SDrop
  | SDrop => go (watch_close (sh_watch s)) SEnded
  end.

Inductive shstep (handlers : bool) : ShutdownSt -> ShutdownSt -> Prop :=
| sh_signal s s' : signal_turn handlers s = Some s' -> shstep handlers s s'
| sh_waits s s' : wait_turn s = Some s' -> shstep handlers s s'.

Definition from_signals : ShutdownSt := {| sh_watch := watch_channel; sh_task := SInstall; sh_wait := PBorrow |}.

(** The task has passed a signal on. *)
Definition signalled (t : SignalTask) : bool := match t with SDrop | SEnded => true | _ => false end.

Definition shinv (s : ShutdownSt) : Prop :=
  wt_value (sh_watch s) = signalled (sh_task s) /\
  wt_version (sh_watch s) = (if signalled (sh_task s) then 1 else 0)%nat /\
  (sh_task s <> SEnded -> wt_sender (sh_watch s) = true) /\
  (forall n, sh_wait s = PChanged n -> n = 0%nat) /\
  (sh_wait s = PReturned -> signalled (sh_task s) = true).

Lemma shinv_signal h s s' : signal_turn h s = Some s' -> shinv s -> shinv s'.
Proof.
  destruct s as [[v n l] t p]. unfold signal_turn, shinv. cbn. intros Ht (-> & -> & Hl & Hc & Hr).
  destruct t; try discriminate Ht; [destruct h| | |]; injection Ht as <-; cbn; split_and!; try done;
    try (intros _; by apply Hl); intros Hp; by specialize (Hr Hp).
Qed.

Lemma shinv_wait s s' : wait_turn s = Some s' -> shinv s -> shinv s'.
Proof.
  destruct s as [[v n l] t p]. unfold wait_turn, shinv. cbn. intros Ht (-> & -> & Hl & Hc & Hr). destruct p as [|seen|]; [| |done].
  - injection Ht as <-. cbn. destruct (signalled t); split_and!; try done; by intros ? [= <-].
  - rewrite (Hc _ eq_refl) in Ht. destruct (signalled t) eqn:Et; cbn in Ht; [injection Ht as <-; cbn; by rewrite Et|].
    rewrite Hl in Ht by (by destruct t). done.
Qed.

Lemma shinv_reachable h s : rtc (shstep h) from_signals s -> shinv s.
Proof.
  revert s. apply (rtc_ind_r shinv); [by split_and!|].
  intros x y _ [? ? Ht|? ? Ht]; [by apply (shinv_signal h)|by apply shinv_wait].
Qed.

Definition waits (s s' : ShutdownSt) : Prop := wait_turn s = Some s'.

(** C35. Shutdown is noticed by every service, and only when it was asked for: a
    service waiting for it returns only after a termination signal arrived, however
    its look at the value and the sending of it interleave; once the signal was
    passed on, the service by itself goes on to return; and when the handlers
    cannot be installed it never does. *)
Theorem shutdown_reaches_service h s :
  rtc (shstep h) from_signals s ->
  (sh_wait s = PReturned -> h = true /\ signalled (sh_task s) = true) /\
  (signalled (sh_task s) = true -> exists s', rtc waits s s' /\ sh_wait s' = PReturned).
Proof.
  intros Hr. pose proof (shinv_reachable _ _ Hr) as Hinv.
  assert (sh_task s <> SInstall -> sh_task s <> SForever -> h = true) as Hh.
  { clear Hinv. revert s Hr. apply (rtc_ind_r (fun s => _ -> _ -> h = true)); [done|].
    intros x y _ Hxy IH. destruct Hxy as [s s' Ht|s s' Ht].
    - unfold signal_turn in Ht. destruct (sh_task s) eqn:E; [|done| | | |done].
      + destruct h; [done|]. by injection Ht as <-.
      + intros _ _. by apply IH.
      + intros _ _. by apply IH.
      + intros _ _. by apply IH.
    - assert (sh_task s' = sh_task s) as ->; [|done]. unfold wait_turn in Ht.
      destruct (sh_wait s); [|destruct (negb _); [|destruct (wt_sender _)]|]; try done; by injection Ht as <-. }
  destruct s as [[v n l] t p]. destruct Hinv as (Hv & Hn & Hl & Hc & Hret). cbn in *. subst v n. split.
  - intros Hp. specialize (Hret Hp). split; [|done]. by apply Hh; intros ->.
  - intros Ht. rewrite Ht in *.
    assert (forall w tk, wt_value w = true -> exists s', rtc waits {| sh_watch := w; sh_task := tk; sh_wait := PBorrow |} s' /\
      sh_wait s' = PReturned) as Hborrow.
    { intros w tk Hw. exists {| sh_watch := w; sh_task := tk; sh_wait := PReturned |}. split; [|done]. apply rtc_once.
      unfold waits, wait_turn. cbn. by rewrite Hw. }
    destruct p as [|seen|]; [by apply Hborrow| |].
    + destruct (Hborrow {| wt_value := true; wt_version := 1; wt_sender := l |} t eq_refl) as (s' & Hs' & ?). exists s'.
      split; [|done]. eapply rtc_l; [|exact Hs']. unfold waits, wait_turn. cbn. by rewrite (Hc _ eq_refl).
    + by exists {| sh_watch := {| wt_value := true; wt_version := 1; wt_sender := l |}; sh_task := t; sh_wait := PReturned |}.
Qed.

(** A signal while the service waits. *)
Definition demo_signalled : ShutdownSt :=
  {| sh_watch := watch_send true watch_channel; sh_task := SDrop; sh_wait := PChanged 0 |}.

Lemma demo_signalled_reachable : rtc (shstep true) from_signals demo_signalled.
Proof.
  eapply rtc_l; [by apply sh_waits|]. do 2 (eapply rtc_l; [by apply sh_signal|]). apply rtc_once. by apply sh_signal.
Qed.

Lemma shutdown_reaches_service_witness : exists s', rtc waits demo_signalled s' /\ sh_wait s' = PReturned.
Proof. apply (shutdown_reaches_service true demo_signalled demo_signalled_reachable). reflexivity. Defined.

(** ** Configfs *)

(** The mounts, each of which may fail to be read: type and place. *)
Definition configfs_dir (mounts : io_result (list (io_result (string * path)))) : io_result path :=
  let? l := mounts in
  match head (filter (fun m : string * path => m.1 = "configfs") (omap ok l)) with
  | Some (_, dest) => Ok dest
  | None => Err (Custom KNotFound "configfs is not mounted")
  end.

(** A run of a program: whether it succeeded, or why it could not be started. *)
Definition request_module (modprobe sbin_modprobe : io_result bool) : io_result unit :=
  let res := match modprobe with
             | Err err => if bool_decide (kind err = KNotFound) then sbin_modprobe else modprobe
             | _ => modprobe
             end in
  match res with
  | Ok true => Ok tt
  | Ok false => Err (other "modprobe failed")
  | Err err => Err err
  end.

(** Loading the module may fail: it may be there already. *)
Definition find_usb_gadget_dir (mounts : io_result (list (io_result (string * path)))) (is_dir : path -> bool)
    : io_result path :=
  let? dir := configfs_dir mounts in
  let d := dir ++ ["usb_gadget"] in
  if is_dir d then Ok d else Err (Custom KNotFound "usb_gadget not found in configfs").

(** The directory found is in the first configfs mount, whatever mounts could not
    be read. *)
Lemma usb_gadget_dir_found mounts is_dir d :
  find_usb_gadget_dir mounts is_dir = Ok d ->
  exists l dest, mounts = Ok l /\ Ok ("configfs", dest) ∈ l /\ d = dest ++ ["usb_gadget"] /\ is_dir d = true.
Proof.
  unfold find_usb_gadget_dir, configfs_dir. destruct mounts as [l|e]; cbn; [|done].
  destruct (head _) as [[ty dest]|] eqn:E; cbn; [|done]. destruct (is_dir _) eqn:Ed; [|done]. intros [= <-].
  apply head_Some_elem_of, list_elem_of_filter in E as [Hty Hin]. cbn in Hty. subst ty.
  apply list_elem_of_omap in Hin as (x & Hx & Hok). destruct x as [m|]; [|done]. injection Hok as ->.
  by exists l, dest.
Qed.
