(* ===== verification/Functions.v ===== *)
(** * The functions of the gadget library

    Models the function modules of patches/usb-gadget/src/function other than
    FunctionFS: for each kind its configuration, its driver name, the attributes
    it writes when it is registered and the cleanup of its directory. *)

From stdpp Require Import gmap.
From S2P Require Import Prelude Io Bytes UsbConfig ConfigFs.

(** ** Configurations *)

Record HidBuilder := {
  hid_sub_class : Z;
  hid_protocol : Z;
  hid_report_desc : list byte;
  hid_report_len : Z;
  hid_no_out_endpoint : bool;
}.

Definition hid_builder : HidBuilder :=
  {| hid_sub_class := 0; hid_protocol := 0; hid_report_desc := []; hid_report_len := 0;
     hid_no_out_endpoint := false |}.

Record MidiBuilder := {
  midi_buflen : option Z;
  midi_id : option (list byte);
  midi_in_ports : option Z;
  midi_out_ports : option Z;
  midi_index : option Z;
  midi_qlen : option Z;
}.

Record PrinterBuilder := { printer_pnp_string : option (list byte); printer_qlen : option Z }.

Record LoopbackBuilder := { loopback_qlen : option Z; loopback_bulk_buflen : option Z }.

Record SourceSinkBuilder := {
  ss_pattern : option Z;
  ss_isoc_interval : option Z;
  ss_isoc_maxpacket : option Z;
  ss_isoc_mult : option Z;
  ss_isoc_maxburst : option Z;
  ss_bulk_buflen : option Z;
  ss_bulk_qlen : option Z;
  ss_iso_qlen : option Z;
}.

Record Channel := {
  ch_channel_mask : option Z;
  ch_sample_rate : option Z;
  ch_sample_size : option Z;
}.

Definition channel_new (mask rate size : Z) : Channel :=
  {| ch_channel_mask := Some mask; ch_sample_rate := Some rate; ch_sample_size := Some size |}.

Record Uac2Config := {
  u2_channel : Channel;
  u2_sync_type : option Z;
  u2_hs_interval : option Z;
  u2_mute_present : option bool;
  u2_terminal_type : option Z;
  u2_volume_present : option bool;
  u2_volume_min : option Z;
  u2_volume_max : option Z;
  u2_volume_resolution : option Z;
  u2_volume_name : option (list byte);
  u2_input_terminal_name : option (list byte);
  u2_input_terminal_channel_name : option (list byte);
  u2_output_terminal_name : option (list byte);
}.

Record Uac2Builder := {
  u2_capture : Uac2Config;
  u2_playback : Uac2Config;
  u2_fb_max : option Z;
  u2_request_number : option Z;
  u2_function_name : option (list byte);
  u2_control_name : option (list byte);
  u2_clock_source_in_name : option (list byte);
  u2_clock_source_out_name : option (list byte);
}.

Record Uac1Config := {
  u1_channel : Channel;
  u1_mute_present : option bool;
  u1_volume_present : option bool;
  u1_volume_min : option Z;
  u1_volume_max : option Z;
  u1_volume_resolution : option Z;
  u1_volume_name : option (list byte);
  u1_input_terminal_name : option (list byte);
  u1_input_terminal_channel_name : option (list byte);
  u1_output_terminal_name : option (list byte);
}.

Record Uac1Builder := {
  u1_capture : Uac1Config;
  u1_playback : Uac1Config;
  u1_request_number : option Z;
  u1_function_name : option (list byte);
}.

Inductive Format :=
| Yuyv
| Mjpeg
| Framebased (guid : list byte) (name : string) (bpp : Z).

#[global] Instance Format_eq_dec : EqDecision Format.
Proof. solve_decision. Defined.

(** A GUID made of a four-letter code. *)
Definition fourcc_guid (code : string) : list byte :=
  bs code ++ [Byte.x00; Byte.x00; Byte.x10; Byte.x00; Byte.x80; Byte.x00; Byte.x00; Byte.xaa;
              Byte.x00; Byte.x38; Byte.x9b; Byte.x71].

Definition nv12 : Format := Framebased (fourcc_guid "NV12") "nv12" 12.
Definition h264 : Format := Framebased (fourcc_guid "H264") "h264" 0.

Definition formats_all : list Format := [Yuyv; Mjpeg].

Definition format_dir_name (f : Format) : string :=
  match f with Yuyv => "yuyv" | Mjpeg => "mjpeg" | Framebased _ name _ => name end.

Definition group_dir_name (f : Format) : string :=
  match f with Yuyv => "uncompressed" | Mjpeg => "mjpeg" | Framebased _ _ _ => "framebased" end.

(** In [u32] arithmetic. *)
Definition bytes_per_line (f : Format) (width : Z) : option Z :=
  match f with Framebased _ _ bpp => Some (wrap 32 (width * bpp) / 8) | _ => None end.

Definition group_path (f : Format) : string :=
  "streaming/" +:+ group_dir_name f +:+ "/" +:+ format_dir_name f.
Definition header_link_path (f : Format) : string := "streaming/header/h/" +:+ format_dir_name f.
Definition color_matching_path (f : Format) : string := "streaming/color_matching/" +:+ format_dir_name f.
Definition color_matching_link_path (f : Format) : string := group_path f +:+ "/color_matching".

Record ColorMatching := {
  cm_color_primaries : Z;
  cm_transfer_characteristics : Z;
  cm_matrix_coefficients : Z;
}.

Record UvcFrame := {
  uf_width : Z;
  uf_height : Z;
  uf_intervals : list Z;
  uf_color_matching : option ColorMatching;
  uf_format : Format;
}.

Record Frame := { fr_width : Z; fr_height : Z; fr_format : Format; fr_fps : list Z }.

Definition frame_into (f : Frame) : UvcFrame :=
  {| uf_width := fr_width f; uf_height := fr_height f;
     uf_intervals := (fun i => 1000000000 / i) <$> filter (fun i => i <> 0) (fr_fps f);
     uf_color_matching := None; uf_format := fr_format f |}.

Definition frame_path (f : UvcFrame) : string :=
  group_path (uf_format f) +:+ "/" +:+ str_of_bytes (dec (uf_height f)) +:+ "p".

Record UvcBuilder := {
  uv_streaming_interval : option Z;
  uv_streaming_max_burst : option Z;
  uv_streaming_max_packet : option Z;
  uv_function_name : option (list byte);
  uv_frames : list UvcFrame;
  uv_processing_controls : option Z;
  uv_camera_controls : option Z;
}.

Record OtherBuilder := { ot_driver : string; ot_properties : list (list byte * list byte) }.

Definition other_builder (driver : list byte) : io_result OtherBuilder :=
  if existsb (fun b => bool_decide (b = Byte.x2e)) driver ||
     existsb (fun b => bool_decide (b = Byte.x2f)) driver ||
     negb (forallb (fun b => b2z b <? 128) driver)
  then Err (Custom KInvalidInput "invalid driver name")
  else Ok {| ot_driver := str_of_bytes driver; ot_properties := [] |}.

(** A property set twice keeps its last value. *)
Definition other_set (name value : list byte) (o : OtherBuilder) : io_result OtherBuilder :=
  if negb (forallb is_normal (components name))
  then Err (Custom KInvalidInput "property path must be relative")
  else Ok {| ot_driver := ot_driver o;
             ot_properties := filter (fun p => p.1 <> name) (ot_properties o) ++ [(name, value)] |}.

(** ** Registration *)

Definition serial_driver (c : SerialClass) : string := match c with Acm => "acm" | Generic => "gser" end.

Definition net_driver (c : NetClass) : string :=
  match c with Ecm => "ecm" | EcmSubset => "geth" | Eem => "eem" | Ncm => "ncm" | Rndis => "rndis" end.

Definition msd_driver : string := "mass_storage".
Definition hid_driver : string := "hid".
Definition midi_driver : string := "midi".
Definition printer_driver : string := "printer".
Definition loopback_driver : string := "Loopback".
Definition sourcesink_driver : string := "SourceSink".
Definition uac1_driver : string := "uac1".
Definition uac2_driver : string := "uac2".
Definition uvc_driver : string := "uvc".
Definition custom_driver : string := "ffs".
Definition other_driver (o : OtherBuilder) : string := ot_driver o.

Section Register.
Context `{Configfs}.
(** The text of a MAC address. *)
Variable mac_text : list byte -> list byte.
Variable fn : nat.

Abbreviation wr name v := (write fn (bs name) v).

Definition opt_write {A} (name : string) (o : option A) (fmt : A -> list byte) : M Cfs unit :=
  match o with Some v => wr name (fmt v) | None => ret tt end.

(** Console support is optional. *)
Definition serial_register (console : option bool) : M Cfs unit :=
  match console with
  | Some c => do! _ := attempt (wr "console" (bool01 c)) in ret tt
  | None => ret tt
  end.

Definition net_register (n : Net) : M Cfs unit :=
  opt_write "dev_addr" (net_dev_addr n) mac_text >>;
  opt_write "host_addr" (net_host_addr n) mac_text >>;
  opt_write "qmult" (net_qmult n) dec >>;
  match net_class n, net_interface_class n with
  | Rndis, Some c =>
      wr "class" (hex_u8_noprefix (cls_class c)) >>;
      wr "subclass" (hex_u8_noprefix (cls_sub_class c)) >>;
      wr "protocol" (hex_u8_noprefix (cls_protocol c))
  | _, _ => ret tt
  end.

Definition lun_dir_name (idx : nat) : string := "lun." +:+ str_of_bytes (dec (Z.of_nat idx)).

Definition lun_register (idx : nat) (l : Lun) : M Cfs unit :=
  let d := lun_dir_name idx in
  (if (idx =? 0)%nat then ret tt else create_dir fn (bs d)) >>;
  wr (d +:+ "/ro") (bool01 (lun_read_only l)) >>;
  wr (d +:+ "/cdrom") (bool01 (lun_cdrom l)) >>;
  wr (d +:+ "/nofua") (bool01 (lun_no_fua l)) >>;
  wr (d +:+ "/removable") (bool01 (lun_removable l)) >>;
  wr (d +:+ "/inquiry_string") (bs (lun_inquiry_string l)) >>;
  opt_write (d +:+ "/file") (lun_file l) bs.

Definition msd_register (stall : option bool) (luns : list Lun) : M Cfs unit :=
  match luns with
  | [] => throw (Custom KInvalidInput "at least one LUN must exist")
  | _ =>
      opt_write "stall" stall bool01 >>;
      for_each (fun p => lun_register p.1 p.2) (imap pair luns)
  end.

Definition force_eject (lun : nat) : M Cfs unit := wr (lun_dir_name lun +:+ "/forced_eject") (bs "1").

Definition is_absolute (text : list byte) : bool :=
  match text with Byte.x2f :: _ => true | _ => false end.

Definition set_file (lun : nat) (file : option (list byte)) : M Cfs unit :=
  do! v := match file with
           | Some f => if is_absolute f then ret f
                       else throw (Custom KInvalidInput "the LUN file path must be absolute")
           | None => ret []
           end in
  wr (lun_dir_name lun +:+ "/file") v.

Definition hid_register (h : HidBuilder) : M Cfs unit :=
  wr "subclass" (dec (hid_sub_class h)) >>;
  wr "protocol" (dec (hid_protocol h)) >>;
  wr "report_desc" (hid_report_desc h) >>;
  wr "report_length" (dec (hid_report_len h)) >>;
  wr "no_out_endpoint" (bool01 (hid_no_out_endpoint h)).

Definition midi_register (m : MidiBuilder) : M Cfs unit :=
  opt_write "buflen" (midi_buflen m) dec >>;
  opt_write "id" (midi_id m) id >>;
  opt_write "in_ports" (midi_in_ports m) dec >>;
  opt_write "out_ports" (midi_out_ports m) dec >>;
  opt_write "index" (midi_index m) dec >>;
  opt_write "qlen" (midi_qlen m) dec.

Definition printer_register (p : PrinterBuilder) : M Cfs unit :=
  opt_write "pnp_string" (printer_pnp_string p) id >>;
  opt_write "q_len" (printer_qlen p) dec.

Definition loopback_register (l : LoopbackBuilder) : M Cfs unit :=
  opt_write "qlen" (loopback_qlen l) dec >>;
  opt_write "bulk_buflen" (loopback_bulk_buflen l) dec.

Definition sourcesink_register (s : SourceSinkBuilder) : M Cfs unit :=
  opt_write "pattern" (ss_pattern s) dec >>;
  opt_write "isoc_interval" (ss_isoc_interval s) dec >>;
  opt_write "isoc_maxpacket" (ss_isoc_maxpacket s) dec >>;
  opt_write "isoc_mult" (ss_isoc_mult s) dec >>;
  opt_write "isoc_maxburst" (ss_isoc_maxburst s) dec >>;
  opt_write "bulk_buflen" (ss_bulk_buflen s) dec >>;
  opt_write "bulk_qlen" (ss_bulk_qlen s) dec >>;
  opt_write "iso_qlen" (ss_iso_qlen s) dec.

Definition uac2_register (u : Uac2Builder) : M Cfs unit :=
  let c := u2_capture u in
  let p := u2_playback u in
  opt_write "c_chmask" (ch_channel_mask (u2_channel c)) dec >>;
  opt_write "c_srate" (ch_sample_rate (u2_channel c)) dec >>;
  opt_write "c_ssize" (ch_sample_size (u2_channel c)) dec >>;
  opt_write "c_sync" (u2_sync_type c) dec >>;
  opt_write "c_hs_bint" (u2_hs_interval c) dec >>;
  opt_write "c_mute_present" (u2_mute_present c) bool01 >>;
  opt_write "c_volume_present" (u2_volume_present c) bool01 >>;
  opt_write "c_volume_min" (u2_volume_min c) dec >>;
  opt_write "c_volume_max" (u2_volume_max c) dec >>;
  opt_write "c_volume_res" (u2_volume_resolution c) dec >>;
  opt_write "c_fu_vol_name" (u2_volume_name c) id >>;
  opt_write "c_terminal_type" (u2_terminal_type c) dec >>;
  opt_write "c_it_name" (u2_input_terminal_name c) id >>;
  opt_write "c_it_ch_name" (u2_input_terminal_channel_name c) id >>;
  opt_write "c_ot_name" (u2_output_terminal_name c) id >>;
  opt_write "p_chmask" (ch_channel_mask (u2_channel p)) dec >>;
  opt_write "p_srate" (ch_sample_rate (u2_channel p)) dec >>;
  opt_write "p_ssize" (ch_sample_size (u2_channel p)) dec >>;
  opt_write "p_hs_bint" (u2_hs_interval p) dec >>;
  opt_write "p_mute_present" (u2_mute_present p) bool01 >>;
  opt_write "p_volume_present" (u2_volume_present p) bool01 >>;
  opt_write "p_volume_min" (u2_volume_min p) dec >>;
  opt_write "p_volume_max" (u2_volume_max p) dec >>;
  opt_write "p_volume_res" (u2_volume_resolution p) dec >>;
  opt_write "p_fu_vol_name" (u2_volume_name p) id >>;
  opt_write "p_terminal_type" (u2_terminal_type p) dec >>;
  opt_write "p_it_name" (u2_input_terminal_name p) id >>;
  opt_write "p_it_ch_name" (u2_input_terminal_channel_name p) id >>;
  opt_write "p_ot_name" (u2_output_terminal_name p) id >>;
  opt_write "fb_max" (u2_fb_max u) dec >>;
  opt_write "req_number" (u2_request_number u) dec >>;
  opt_write "function_name" (u2_function_name u) id >>;
  opt_write "if_ctrl_name" (u2_control_name u) id >>;
  opt_write "clksrc_in_name" (u2_clock_source_in_name u) id >>;
  opt_write "clksrc_out_name" (u2_clock_source_out_name u) id.

Definition uac1_register (u : Uac1Builder) : M Cfs unit :=
  let c := u1_capture u in
  let p := u1_playback u in
  opt_write "c_chmask" (ch_channel_mask (u1_channel c)) dec >>;
  opt_write "c_srate" (ch_sample_rate (u1_channel c)) dec >>;
  opt_write "c_ssize" (ch_sample_size (u1_channel c)) dec >>;
  opt_write "c_mute_present" (u1_mute_present c) bool01 >>;
  opt_write "c_volume_present" (u1_volume_present c) bool01 >>;
  opt_write "c_volume_min" (u1_volume_min c) dec >>;
  opt_write "c_volume_max" (u1_volume_max c) dec >>;
  opt_write "c_volume_res" (u1_volume_resolution c) dec >>;
  opt_write "c_fu_vol_name" (u1_volume_name c) id >>;
  opt_write "c_it_name" (u1_input_terminal_name c) id >>;
  opt_write "c_it_ch_name" (u1_input_terminal_channel_name c) id >>;
  opt_write "c_ot_name" (u1_output_terminal_name c) id >>;
  opt_write "p_chmask" (ch_channel_mask (u1_channel p)) dec >>;
  opt_write "p_srate" (ch_sample_rate (u1_channel p)) dec >>;
  opt_write "p_ssize" (ch_sample_size (u1_channel p)) dec >>;
  opt_write "p_mute_present" (u1_mute_present p) bool01 >>;
  opt_write "p_volume_present" (u1_volume_present p) bool01 >>;
  opt_write "p_volume_min" (u1_volume_min p) dec >>;
  opt_write "p_volume_max" (u1_volume_max p) dec >>;
  opt_write "p_volume_res" (u1_volume_resolution p) dec >>;
  opt_write "p_fu_vol_name" (u1_volume_name p) id >>;
  opt_write "p_it_name" (u1_input_terminal_name p) id >>;
  opt_write "p_it_ch_name" (u1_input_terminal_channel_name p) id >>;
  opt_write "p_ot_name" (u1_output_terminal_name p) id >>;
  opt_write "req_number" (u1_request_number u) dec >>;
  opt_write "function_name" (u1_function_name u) id.

(** The properties in the order the map yields them. *)
Definition other_register (o : OtherBuilder) : M Cfs unit :=
  for_each (fun p => write fn p.1 p.2) (ot_properties o).

(** *** Video *)

(** Whether a relative path names a directory, seen from the directory the
    process runs in. *)
Variable cwd_is_dir : string -> bool.

Definition color_matching_register (f : Format) (c : ColorMatching) : M Cfs unit :=
  let d := color_matching_path f in
  if cwd_is_dir d then ret tt
  else create_dir_all fn (bs d) >>;
       wr (d +:+ "/bColorPrimaries") (dec (cm_color_primaries c)) >>;
       wr (d +:+ "/bTransferCharacteristics") (dec (cm_transfer_characteristics c)) >>;
       wr (d +:+ "/bMatrixCoefficients") (dec (cm_matrix_coefficients c)) >>;
       symlink fn (bs d) (bs (color_matching_link_path f)).

Fixpoint join_lines (l : list (list byte)) : list byte :=
  match l with
  | [] => []
  | [x] => x
  | x :: l => x ++ bs (String.String (Ascii.ascii_of_nat 10) EmptyString) ++ join_lines l
  end.

(** The buffer size is an [u32] product. *)
Definition frame_register (f : UvcFrame) : M Cfs unit :=
  let d := frame_path f in
  create_dir_all fn (bs d) >>;
  match uf_format f with
  | Framebased guid _ _ => wr (group_path (uf_format f) +:+ "/guidFormat") guid
  | _ => ret tt
  end >>;
  wr (d +:+ "/wWidth") (dec (uf_width f)) >>;
  wr (d +:+ "/wHeight") (dec (uf_height f)) >>;
  match bytes_per_line (uf_format f) (uf_width f) with
  | Some bpl => wr (d +:+ "/dwBytesPerLine") (dec bpl)
  | None => wr (d +:+ "/dwMaxVideoFrameBufferSize")
              (dec (wrap 32 (wrap 32 (uf_width f * uf_height f) * 2)))
  end >>;
  wr (d +:+ "/dwFrameInterval") (join_lines (dec <$> uf_intervals f)) >>;
  match uf_color_matching f with
  | Some c => color_matching_register (uf_format f) c
  | None => ret tt
  end.

Definition uvc_register (u : UvcBuilder) : M Cfs unit :=
  if bool_decide (uv_frames u = []) then throw (Custom KInvalidInput "at least one frame must exist")
  else if existsb (fun f => bool_decide (uf_intervals f = [])) (uv_frames u)
  then throw (Custom KInvalidInput "at least one interval must exist for every frame")
  else
    for_each frame_register (uv_frames u) >>;
    create_dir_all fn (bs "streaming/header/h") >>;
    create_dir_all fn (bs "control/header/h") >>;
    for_each (fun f => symlink fn (bs (group_path f)) (bs (header_link_path f)))
      (remove_dups (uf_format <$> uv_frames u)) >>;
    symlink fn (bs "streaming/header/h") (bs "streaming/class/fs/h") >>;
    symlink fn (bs "streaming/header/h") (bs "streaming/class/hs/h") >>;
    symlink fn (bs "streaming/header/h") (bs "streaming/class/ss/h") >>;
    symlink fn (bs "control/header/h") (bs "control/class/fs/h") >>;
    symlink fn (bs "control/header/h") (bs "control/class/ss/h") >>;
    opt_write "control/processing/default/bmControls" (uv_processing_controls u) dec >>;
    opt_write "control/terminal/camera/default/bmControls" (uv_camera_controls u) dec >>;
    opt_write "streaming_interval" (uv_streaming_interval u) dec >>;
    opt_write "streaming_maxburst" (uv_streaming_max_burst u) dec >>;
    opt_write "streaming_maxpacket" (uv_streaming_max_packet u) dec.

End Register.

(** ** Cleanup of a function's directory *)

Section Handlers.
Context `{Configfs}.

Definition contains_dot (name : string) : bool := existsb (fun b => bool_decide (b = Byte.x2e)) (bs name).

(** All logical units but the first, which comes with the function. *)
Definition msd_remove_handler (d : path) : M Cfs unit :=
  do! entries := fs_read_dir d in
  for_each (fun n =>
    do! k := fs_metadata (d ++ [n]) in
    if bool_decide (k = KDir) && contains_dot n && negb (bool_decide (n = "lun.0"))
    then fs_remove_dir (d ++ [n]) else ret tt) (readable entries).

(** The names of a relative path of the program's own. *)
Definition rel (text : string) : path := omap normal (components (bs text)).

Definition remove_class_headers (p : path) : M Cfs unit :=
  for_entries p (fun e =>
    do! l := fs_is_symlink (e ++ ["h"]) in
    if l then fs_remove_file (e ++ ["h"]) else ret tt).

(** Removes a link, if there is one, and a directory, if there is one. *)
Definition remove_link (p : path) : M Cfs unit :=
  do! l := fs_is_symlink p in if l then fs_remove_file p else ret tt.

Definition remove_if_dir (p : path) : M Cfs unit :=
  do! d := fs_is_dir p in if d then fs_remove_dir p else ret tt.

Definition remove_format_dirs (d : path) (f : Format) : M Cfs unit :=
  remove_link (d ++ rel (header_link_path f)) >>;
  do! cm := fs_is_dir (d ++ rel (color_matching_path f)) in
  (if cm then
     remove_link (d ++ rel (color_matching_link_path f)) >>;
     fs_remove_dir (d ++ rel (color_matching_path f))
   else ret tt) >>;
  do! group := fs_is_dir (d ++ rel (group_path f)) in
  if group then
    for_entries (d ++ rel (group_path f)) remove_if_dir >>;
    fs_remove_dir (d ++ rel (group_path f))
  else ret tt.

Definition remove_framebased (d : path) (name : string) : M Cfs unit :=
  let g := d ++ rel "streaming/framebased" ++ [name] in
  let cm := d ++ rel "streaming/color_matching" ++ [name] in
  remove_link (d ++ rel "streaming/header/h" ++ [name]) >>;
  remove_link (g ++ ["color_matching"]) >>;
  remove_if_dir cm >>;
  do! group := fs_is_dir g in
  if group then for_entries g remove_if_dir >>; fs_remove_dir g else ret tt.

Definition when_dir (p : path) (m : M Cfs unit) : M Cfs unit :=
  do! d := fs_is_dir p in if d then m else ret tt.

Definition uvc_remove_handler (d : path) : M Cfs unit :=
  when_dir (d ++ rel "control/class") (remove_class_headers (d ++ rel "control/class")) >>;
  when_dir (d ++ rel "streaming/class") (remove_class_headers (d ++ rel "streaming/class")) >>;
  when_dir (d ++ rel "streaming")
    (for_each (remove_format_dirs d) formats_all >>;
     when_dir (d ++ rel "streaming/framebased")
       (do! entries := fs_read_dir (d ++ rel "streaming/framebased") in
        for_each (remove_framebased d) (readable entries))) >>;
  remove_if_dir (d ++ rel "streaming/header/h") >>;
  remove_if_dir (d ++ rel "control/header/h").

End Handlers.
