(* ===== verification/FfsFunction.v ===== *)
(** * The life of a FunctionFS function

    Models the function half of patches/usb-gadget/src/function/custom/mod.rs:
    mounting FunctionFS on registration, writing descriptors and strings into
    endpoint zero, opening the endpoint files and handing them to the endpoints over
    channels that take one value, closing them before the gadget is removed, and the unmounting. The kernel's side is the interface
    [FfsKernel]. *)

From stdpp Require Import gmap.
From S2P Require Import Prelude Io Bytes FfsDesc FfsBuild ConfigFs.

(** What the kernel answers; the effects of what succeeds are the program's. *)
Class FfsKernel := {
  fk_create_dir : string -> FfsWorld -> io_result unit;
  fk_remove_dir : string -> FfsWorld -> io_result unit;
  fk_mount : string -> string -> list byte -> FfsWorld -> io_result unit;
  fk_umount : string -> bool -> FfsWorld -> io_result unit;
  fk_open : string -> FfsWorld -> io_result unit;
  (** The number of bytes endpoint zero took. *)
  fk_ep0_write : list byte -> FfsWorld -> io_result nat;
  (** The AIO context of an endpoint with a queue of a length. *)
  fk_aio : Z -> FfsWorld -> io_result unit;
  (** The mounts with their type, each of which may fail to be read. *)
  fk_mount_list : FfsWorld -> io_result (list (io_result (string * string * string)));
}.

Definition default_ffs_dir (instance : string) : string := "/dev/ffs-" +:+ instance.

(** ** FunctionFS's part of the state *)

Definition files_of (fn : nat) (w : FfsWorld) : FfsFiles :=
  default {| ff_created := false; ff_ep0 := []; ff_open := []; ff_sent := [] |} (w_files w !! fn).

Definition set_files (fn : nat) (f : FfsFiles) (w : FfsWorld) : FfsWorld :=
  {| w_dirs := w_dirs w; w_mounts := w_mounts w; w_files := <[fn := f]> (w_files w) |}.
Definition set_dirs (d : gset string) (w : FfsWorld) : FfsWorld :=
  {| w_dirs := d; w_mounts := w_mounts w; w_files := w_files w |}.
Definition set_mounts (m : list (string * string)) (w : FfsWorld) : FfsWorld :=
  {| w_dirs := w_dirs w; w_mounts := m; w_files := w_files w |}.

Lemma files_of_set fn f w : files_of fn (set_files fn f w) = f.
Proof. unfold files_of, set_files. cbn. by rewrite lookup_insert_eq. Qed.

Definition upd_ffs (u : FfsWorld -> FfsWorld) : M Cfs unit :=
  modify (fun s => {| c_fs := c_fs s; c_dirs := c_dirs s; c_log := c_log s; c_ffs := u (c_ffs s) |}).

(** A call into the kernel. *)
Definition call {A} (k : FfsWorld -> io_result A) : M Cfs A := fun s => (k (c_ffs s), s).

Definition instance (fn : nat) : M Cfs string :=
  do! d := dir fn in
  do! parts := lift (ok_or (Custom KInvalidData "invalid function directory name") (split_function_dir d)) in
  ret (str_of_bytes parts.2).

(** The same directory's driver. *)
Definition driver (fn : nat) : M Cfs string :=
  do! d := dir fn in
  do! parts := lift (ok_or (Custom KInvalidData "invalid function directory name") (split_function_dir d)) in
  ret (str_of_bytes parts.1).

Section Function.
Context `{FfsKernel}.
(** The order of hash maps, and the kernel's version. *)
Variable iter : forall A : Type, list A -> list A.
Variable kernel : option (Z * Z).
Variables (fn : nat) (b : CustomBuilder).

Definition ffs_dir : M Cfs string :=
  match cb_ffs_dir b with
  | Some d => ret d
  | None => do! i := instance fn in ret (default_ffs_dir i)
  end.

Definition join_file (d f : string) : string := d +:+ "/" +:+ f.

Definition ep_name (num : nat) : string := "ep" +:+ str_of_bytes (dec (Z.of_nat num)).

(** [EndpointIo::new]. *)
Definition endpoint_io_new (p : string) (queue_len : Z) : M Cfs unit :=
  call (fk_open p) >>; call (fk_aio queue_len).

(** [value::Sender::send] of a channel of the function, unwrapped: a second value
    is a panic, here an error. *)
Definition channel_send (c : FfsChannel) : M Cfs unit :=
  do! sent := gets (fun s => ff_sent (files_of fn (c_ffs s))) in
  if bool_decide (c ∈ sent) then throw (Custom KOther "value already sent")
  else upd_ffs (fun w => let f := files_of fn w in
    set_files fn {| ff_created := ff_created f; ff_ep0 := ff_ep0 f; ff_open := ff_open f;
                    ff_sent := c :: ff_sent f |} w).

(** The endpoint files from number [num] + 1 on, each sent to its endpoint. *)
Fixpoint open_endpoints (d : string) (num : nat) (eps : list Endpoint) : M Cfs (list string) :=
  match eps with
  | [] => ret []
  | ep :: eps =>
      let p := join_file d (ep_name (S num)) in
      endpoint_io_new p (dir_queue_len (ep_direction ep)) >>;
      channel_send (ChEndpoint (S num)) >>;
      do! rest := open_endpoints d (S num) eps in ret (p :: rest)
  end.

Definition ep0_write (data : list byte) (msg : string) : M Cfs unit :=
  do! n := call (fk_ep0_write data) in
  upd_ffs (fun w => let f := files_of fn w in
    set_files fn {| ff_created := ff_created f; ff_ep0 := ff_ep0 f ++ [take n data]; ff_open := ff_open f;
                    ff_sent := ff_sent f |} w) >>;
  if (n =? length data)%nat then ret tt else throw (Custom KUnexpectedEof msg).

(** Files opened before an error are closed again. *)
Definition init : M Cfs unit :=
  do! d := ffs_dir in
  (if cb_ffs_no_init b then ret tt else
  do! ds := lift (ffs_descs iter b) in
  call (fk_open (join_file d "ep0")) >>;
  do! descs_data := lift (map_err ffs_io_error (descs_to_bytes kernel ds.1)) in
  ep0_write descs_data "short descriptor write" >>;
  do! strs_data := lift (map_err ffs_io_error (strings_to_bytes (iter _ (map_to_list ds.2)))) in
  ep0_write strs_data "short strings write" >>;
  do! files := open_endpoints d 0 (cb_interfaces b ≫= in_endpoints) in
  channel_send ChEp0 >>;
  upd_ffs (fun w => let f := files_of fn w in
    set_files fn {| ff_created := ff_created f; ff_ep0 := ff_ep0 f;
                    ff_open := files ++ [join_file d "ep0"]; ff_sent := ff_sent f |} w)) >>;
  channel_send ChFfsDir.

Definition close : M Cfs unit :=
  upd_ffs (fun w => let f := files_of fn w in
    set_files fn {| ff_created := ff_created f; ff_ep0 := ff_ep0 f; ff_open := []; ff_sent := ff_sent f |} w).

Definition mount_options : MountOptions :=
  {| mo_no_disconnect := cb_ffs_no_disconnect b; mo_rmode := cb_ffs_root_mode b;
     mo_fmode := cb_ffs_file_mode b; mo_mode := None; mo_uid := cb_ffs_uid b; mo_gid := cb_ffs_gid b |}.

Definition custom_register : M Cfs unit :=
  if cb_ffs_no_mount b then ret tt else
  do! d := ffs_dir in
  do! made := attempt (call (fk_create_dir d)) in
  match made with
  | Ok _ => upd_ffs (fun w => let f := files_of fn w in
              set_dirs ({[d]} ∪ w_dirs w)
                (set_files fn {| ff_created := true; ff_ep0 := ff_ep0 f; ff_open := ff_open f;
                                 ff_sent := ff_sent f |} w))
  | Err e => if bool_decide (kind e = KAlreadyExists) then ret tt else throw e
  end >>;
  do! i := instance fn in
  call (fk_mount i d (to_mount_data mount_options)) >>;
  upd_ffs (fun w => set_mounts (w_mounts w ++ [(i, d)]) w) >>;
  init.

Definition custom_pre_removal : M Cfs unit := close.

(** A failure to remove the mount directory is ignored. *)
Definition ffs_remove_dir (d : string) : M Cfs unit :=
  do! r := attempt (call (fk_remove_dir d)) in
  match r with
  | Ok _ => upd_ffs (fun w => set_dirs (w_dirs w ∖ {[d]}) w)
  | Err _ => ret tt
  end.

Definition custom_post_removal : M Cfs unit :=
  do! created := gets (fun s => ff_created (files_of fn (c_ffs s))) in
  if created then
    do! d := attempt ffs_dir in
    match d with Ok d => ffs_remove_dir d | Err _ => ret tt end
  else ret tt.

End Function.

Section Unmount.
Context `{FfsKernel}.

Definition unmount (dest : string) : M Cfs unit :=
  do! r := attempt (call (fk_umount dest false)) in
  match r with Ok _ => ret tt | Err _ => call (fk_umount dest true) end >>;
  upd_ffs (fun w => set_mounts (filter (fun m => m.2 <> dest) (w_mounts w)) w).

(** One mount of the list. *)
Definition unmount_entry (i : string) (m : string * string * string) : M Cfs unit :=
  let '(fstype, source, dest) := m in
  if bool_decide (fstype = "functionfs") && bool_decide (source = i) then
    unmount dest >>;
    if bool_decide (dest = default_ffs_dir i) then ffs_remove_dir dest else ret tt
  else ret tt.

Definition custom_remove_handler (d : path) : M Cfs unit :=
  do! parts := lift (ok_or (Custom KInvalidInput "invalid configfs dir") (split_function_dir d)) in
  do! mounts := call fk_mount_list in
  for_each (unmount_entry (str_of_bytes parts.2)) (omap ok mounts).

End Unmount.

(** ** The endpoint files match the endpoint descriptors *)

Definition endpoints_in (l : list Desc) : list EndpointDesc :=
  omap (fun d => match d with DEndpoint e => Some e | _ => None end) l.

(** The number of an endpoint is its address without the direction. *)
Definition number (e : EndpointDesc) : Z := Z.land (ed_endpoint_address e) 127.

Lemma endpoints_in_app a b : endpoints_in (a ++ b) = endpoints_in a ++ endpoints_in b.
Proof. apply omap_app. Qed.

Lemma number_endpoint_desc num ep size : 0 <= num < 128 -> number (endpoint_desc num ep size) = num.
Proof.
  intros Hn. unfold number, endpoint_desc. cbn.
  assert (Z.land num 127 = num) as Hl.
  { change 127 with (Z.ones 7). rewrite Z.land_ones by lia. by apply Z.mod_small. }
  destruct (dir_direction _); rewrite Z.land_lor_distr_l, Hl.
  - change (Z.land DIR_IN 127) with 0. apply Z.lor_0_r.
  - change (Z.land DIR_OUT 127) with 0. apply Z.lor_0_r.
Qed.

Lemma layout_endpoints_numbers s num eps :
  0 <= num -> num + Z.of_nat (length eps) < 128 ->
  number <$> endpoints_in (layout_endpoints s num eps) = seqZ (num + 1) (Z.of_nat (length eps)).
Proof.
  revert num. induction eps as [|ep eps IH]; intros num Hn Hlen; cbn [length] in *; [done|].
  rewrite seqZ_cons by lia. cbn [layout_endpoints].
  change (DEndpoint ?e :: ?l) with ([DEndpoint e] ++ l). rewrite !endpoints_in_app.
  replace (endpoints_in (match s with SuperSpeed => _ | _ => _ end)) with (@nil EndpointDesc) by (by destruct s).
  cbn [app]. rewrite fmap_app. cbn [endpoints_in omap list_omap fmap list_fmap app].
  rewrite number_endpoint_desc by lia. f_equal. rewrite IH by lia. f_equal; lia.
Qed.

Lemma endpoints_in_custom l : endpoints_in (DCustom <$> l) = [].
Proof. by induction l. Qed.

Lemma endpoints_in_assoc l : endpoints_in (DInterfaceAssoc <$> l) = [].
Proof. by induction l. Qed.

Lemma layout_numbers s n num idxs l :
  length idxs = length l -> 0 <= num -> num + Z.of_nat (endpoint_count l) < 128 ->
  number <$> endpoints_in (layout s n num idxs l) = seqZ (num + 1) (Z.of_nat (endpoint_count l)).
Proof.
  revert n num idxs. induction l as [|i l IH]; intros n num [|idx idxs] Hidx Hnum Hcnt; try done.
  rewrite endpoint_count_cons in *. cbn [layout].
  change (DInterface ?d :: ?r) with ([DInterface d] ++ r).
  rewrite !endpoints_in_app, endpoints_in_custom. cbn [app endpoints_in omap list_omap].
  rewrite fmap_app, layout_endpoints_numbers by lia. rewrite IH by (cbn in Hidx; lia).
  rewrite Nat2Z.inj_add, seqZ_app by lia. do 2 f_equal. lia.
Qed.

Section Init.
Context `{FfsKernel}.
Context (iter : forall A : Type, list A -> list A).
Context (iter_perm : forall A (l : list A), iter A l ≡ₚ l).
Variable kernel : option (Z * Z).

Lemma call_Ok {A} (k : FfsWorld -> io_result A) s a s' : call k s = (Ok a, s') -> s' = s /\ k (c_ffs s) = Ok a.
Proof. unfold call. intros [= <- <-]. done. Qed.

(** Sending changes nothing but the channel. *)
Lemma channel_send_Ok fn c s s' :
  channel_send fn c s = (Ok tt, s') ->
  c ∉ ff_sent (files_of fn (c_ffs s)) /\
  ff_ep0 (files_of fn (c_ffs s')) = ff_ep0 (files_of fn (c_ffs s)) /\
  ff_open (files_of fn (c_ffs s')) = ff_open (files_of fn (c_ffs s)) /\
  ff_sent (files_of fn (c_ffs s')) = c :: ff_sent (files_of fn (c_ffs s)).
Proof.
  unfold channel_send. rewrite bind_gets. case_bool_decide as Hc; [done|]. intros [= <-].
  cbn [c_ffs]. by rewrite files_of_set.
Qed.

Lemma open_endpoints_files fn d num eps s files s' :
  open_endpoints fn d num eps s = (Ok files, s') ->
  ff_ep0 (files_of fn (c_ffs s')) = ff_ep0 (files_of fn (c_ffs s)) /\
  files = (fun k => join_file d (ep_name k)) <$> seq (S num) (length eps).
Proof.
  revert num s files s'. induction eps as [|ep eps IH]; intros num s files s'; cbn [open_endpoints length seq].
  - intros [= <- <-]. done.
  - intros ([] & s1 & H1 & H2)%bind_inv. apply bind_inv in H1 as ([] & s2 & [-> _]%call_Ok & [-> _]%call_Ok).
    apply bind_inv in H2 as ([] & s3 & (_ & He & _)%channel_send_Ok & H2).
    apply bind_inv in H2 as (rest & s4 & H3 & H4). apply IH in H3 as [He' ->]. injection H4 as <- <-.
    by rewrite He', He.
Qed.

Lemma ep0_write_Ok fn data msg s s' :
  ep0_write fn data msg s = (Ok tt, s') ->
  ff_ep0 (files_of fn (c_ffs s')) = ff_ep0 (files_of fn (c_ffs s)) ++ [data].
Proof.
  unfold ep0_write. intros (n & s1 & [-> Hn]%call_Ok & H1)%bind_inv.
  apply bind_inv in H1 as ([] & s2 & H1 & H2). injection H1 as <-.
  destruct (Nat.eqb_spec n (length data)) as [->|]; [|done]. injection H2 as <-.
  cbn [c_ffs]. rewrite files_of_set. cbn [ff_ep0]. by rewrite firstn_all.
Qed.

Lemma ffs_dir_pure fn b s d s' : ffs_dir fn b s = (Ok d, s') -> s' = s.
Proof.
  unfold ffs_dir. destruct (cb_ffs_dir b); [by intros [= <- <-]|].
  unfold instance, dir, bind, gets, lift. cbn. destruct (fd_dir _); [|done]. cbn.
  destruct (split_function_dir _); [|done]. by intros [= <- <-].
Qed.

(** What a successful start leaves: the descriptors and strings written, and the
    endpoint files open. *)
Lemma init_effect fn b s s' :
  cb_ffs_no_init b = false -> init iter kernel fn b s = (Ok tt, s') ->
  exists d db sb,
    ffs_dir fn b s = (Ok d, s) /\
    ffs_descriptors_and_strings iter kernel b = Ok (db, sb) /\
    ff_ep0 (files_of fn (c_ffs s')) = ff_ep0 (files_of fn (c_ffs s)) ++ [db; sb] /\
    ff_open (files_of fn (c_ffs s')) =
      ((fun k => join_file d (ep_name k)) <$> seq 1 (endpoint_count (cb_interfaces b))) ++ [join_file d "ep0"].
Proof.
  intros Hno. unfold init. intros (d & s1 & Hd & H1)%bind_inv. pose proof (ffs_dir_pure _ _ _ _ _ Hd) as ->.
  rewrite Hno in H1. apply bind_inv in H1 as ([] & s9 & H1 & (_ & Hep0 & Hopen & _)%channel_send_Ok).
  apply bind_inv in H1 as ([ds t] & s2 & [-> Hds]%lift_inv & H1). cbn [fst snd] in H1.
  apply bind_inv in H1 as ([] & s3 & [-> _]%call_Ok & H1).
  apply bind_inv in H1 as (db & s4 & [-> Hdb]%lift_inv & H1).
  apply bind_inv in H1 as ([] & s5 & Hw1%ep0_write_Ok & H1).
  apply bind_inv in H1 as (sb & s6 & [-> Hsb]%lift_inv & H1).
  apply bind_inv in H1 as ([] & s7 & Hw2%ep0_write_Ok & H1).
  apply bind_inv in H1 as (files & s8 & [He ->]%open_endpoints_files & H1).
  apply bind_inv in H1 as ([] & s10 & (_ & He' & _)%channel_send_Ok & H1). injection H1 as <-.
  exists d, db, sb. split; [done|]. split.
  - unfold ffs_descriptors_and_strings. rewrite Hds. cbn [rbind]. by rewrite Hdb, Hsb.
  - revert Hep0 Hopen. cbn [c_ffs]. rewrite !files_of_set. cbn [ff_ep0 ff_open]. intros -> ->. split; [|done].
    by rewrite He', He, Hw2, Hw1, <- app_assoc.
Qed.

(** C30. Once a FunctionFS function is initialised the endpoint files it holds are those the
    kernel made: it wrote its descriptors and its strings, in this order, the endpoints in
    the published descriptors are numbered 1, 2, ... at every speed, and the open files are
    ep1, ep2, ... of its directory, in order, and ep0. *)
Theorem endpoint_files_match fn b s s' :
  builder_fits b -> cb_ffs_no_init b = false -> init iter kernel fn b s = (Ok tt, s') ->
  exists d db sb desc,
    ff_ep0 (files_of fn (c_ffs s')) = ff_ep0 (files_of fn (c_ffs s)) ++ [db; sb] /\
    descs_decode kernel db = Some desc /\
    (forall sp, number <$> endpoints_in (descrs sp desc) = seqZ 1 (Z.of_nat (endpoint_count (cb_interfaces b)))) /\
    ff_open (files_of fn (c_ffs s')) =
      ((fun k => join_file d (ep_name k)) <$> seq 1 (endpoint_count (cb_interfaces b))) ++ [join_file d "ep0"].
Proof.
  intros Hb Hno Hi. destruct (init_effect fn b s s' Hno Hi) as (d & db & sb & _ & Hds & Hep0 & Hopen).
  destruct (published_layout iter iter_perm kernel b db sb Hb Hds)
    as (desc & tb & idxs & iads & Hdec & _ & Hl & _ & Hn & Hc).
  exists d, db, sb, desc. split; [done|]. split; [done|]. split; [|done].
  intros sp. rewrite Hl, endpoints_in_app, endpoints_in_assoc, app_nil_r. apply layout_numbers; [by apply Forall2_length in Hn|lia..].
Qed.
End Init.
