(* ===== verification/SimpleKernel.v ===== *)
(** * A configfs and a FunctionFS that answer

    The smallest kernel that satisfies the laws of [ConfigFs]:
    every new directory has the same attributes and groups, nothing is refused
    that could be done. It shows that the laws can be met, and the examples run
    against it. *)

From stdpp Require Import gmap.
From S2P Require Import Prelude Io Bytes FfsDesc FfsBuild ConfigFs FfsFunction.

Definition attributes : list string :=
  ["bDeviceClass"; "bDeviceSubClass"; "bDeviceProtocol"; "idVendor"; "idProduct"; "bMaxPacketSize0"; "bcdDevice";
   "bcdUSB"; "max_speed"; "UDC"; "manufacturer"; "product"; "serialnumber"; "bmAttributes"; "MaxPower"; "configuration";
   "console"; "compatible_id"; "subclass"; "protocol"; "report_desc"; "report_length"; "no_out_endpoint"].

Definition groups : list string := ["functions"; "configs"; "strings"; "os_desc"].

(** A directory with its attributes and groups. *)
Definition new_dir (p : path) (f : Fs) : Fs :=
  <[p := NDir]> (foldr (fun n f => <[p ++ [n] := NDir]> f)
                   (foldr (fun n f => <[p ++ [n] := NFile []]> f) f attributes) groups).

Definition is_dir (p : path) (f : Fs) : bool := bool_decide (at_ f p = Some KDir).

(** The name of an entry of [p]. *)
Definition entry (p k : path) : option string :=
  n ← list.last k; if decide (k = p ++ [n]) then Some n else None.

Definition simple_configfs : Configfs := {|
  k_create_dir p f :=
    if bool_decide (f !! p = None) then
      if is_dir (removelast p) f then Ok (new_dir p f) else Err (Os ENOENT)
    else Err (Os EEXIST);
  k_write p v f := match f !! p with Some (NFile _) => Ok (<[p := NFile v]> f) | _ => Err (Os ENOENT) end;
  k_symlink t p f := if bool_decide (f !! p = None) then Ok (<[p := NLink t]> f) else Err (Os EEXIST);
  k_remove_dir p f :=
    if is_dir p f then Ok (filter (fun kv => ~ p `prefix_of` kv.1) f) else Err (Os ENOENT);
  k_remove_file p f := match f !! p with Some (NLink _) => Ok (delete p f) | _ => Err (Os ENOENT) end;
  k_read p f := match f !! p with Some (NFile v) => Ok v | _ => Err (Os ENOENT) end;
  k_read_dir p f :=
    if is_dir p f then Ok (Ok <$> omap (fun kv => entry p kv.1) (map_to_list f)) else Err (Os ENOENT);
  k_metadata p f := match at_ f p with Some k => Ok k | None => Err (Os ENOENT) end;
|}.

Definition simple_ffs : FfsKernel := {|
  fk_create_dir d w := if bool_decide (d ∈ w_dirs w) then Err (Os EEXIST) else Ok tt;
  fk_remove_dir d w := if bool_decide (d ∈ w_dirs w) then Ok tt else Err (Os ENOENT);
  fk_mount i d data w := Ok tt;
  fk_umount d force w := Ok tt;
  fk_open p w := Ok tt;
  fk_ep0_write data w := Ok (length data);
  fk_aio queue_len w := Ok tt;
  fk_mount_list w := Ok ((fun m => Ok ("functionfs", m.1, m.2)) <$> w_mounts w);
|}.

Lemma foldr_insert_outside (v : Node) (p q names : path) (f : Fs) :
  ~ p `prefix_of` q -> foldr (fun n (f : Fs) => <[p ++ [n] := v]> f) f names !! q = f !! q.
Proof.
  intros Hq. induction names as [|n names IH]; cbn; [done|]. rewrite lookup_insert_ne; [done|].
  intros <-. apply Hq. by apply prefix_app_r.
Qed.

Lemma simple_laws : ConfigfsLaws simple_configfs.
Proof.
  split; cbn.
  - intros p f f'. case_bool_decide as Hn; [|done]. destruct (is_dir _ f); [|done]. intros [= <-]. unfold new_dir.
    split; [done|]. split; [by rewrite lookup_insert_eq|]. intros q Hq.
    rewrite lookup_insert_ne by (by intros ->). by rewrite !foldr_insert_outside.
  - intros p v f f'. destruct (f !! p) as [[]|] eqn:E; try done. intros [= <-] q. unfold at_.
    destruct (decide (p = q)) as [->|]; [by rewrite lookup_insert_eq, E|by rewrite lookup_insert_ne].
  - intros t p f f'. case_bool_decide; [|done]. by intros [= <-].
  - intros p f f'. destruct (is_dir p f); [|done]. intros [= <-] q. rewrite map_lookup_filter.
    destruct (f !! q); cbn; case_decide as Hp; cbn; [rewrite option_guard_False by naive_solver|
      rewrite option_guard_True by done| |]; done.
  - intros p f f'. destruct (f !! p) as [[]|]; try done. by intros [= <-].
Qed.

Lemma entry_Some p k n : entry p k = Some n <-> k = p ++ [n].
Proof.
  unfold entry. split.
  - destruct (list.last k); cbn; [|done]. case_decide; [|done]. by intros [= <-].
  - intros ->. rewrite last_snoc. cbn. by rewrite decide_True.
Qed.

Lemma simple_listing : ConfigfsListing simple_configfs.
Proof.
  split; cbn.
  - intros p f l. destruct (is_dir p f); [|done]. intros [= <-] n. rewrite list_elem_of_fmap. split.
    + intros (n' & [= <-] & Hn). apply list_elem_of_omap in Hn as ([k v] & Hin & Hk%entry_Some). cbn in Hk. subst k.
      apply elem_of_map_to_list in Hin. by eexists.
    + intros [v Hv]. exists n. split; [done|]. apply list_elem_of_omap. exists (p ++ [n], v).
      split; [by apply elem_of_map_to_list|by apply entry_Some].
  - intros p f k. destruct (at_ f p); [|done]. by intros [= <-].
Qed.

(** Configfs with an empty gadget directory. *)
Definition empty_configfs : Cfs :=
  {| c_fs := {[ [] := NDir; ["usb_gadget"] := NDir ]}; c_dirs := ∅; c_log := [];
     c_ffs := {| w_dirs := ∅; w_mounts := []; w_files := ∅ |} |}.

Lemma empty_closed : tree_closed (c_fs empty_configfs).
Proof.
  intros p n Hp. cbn. destruct p as [|x [|y p]]; [done| |]; rewrite lookup_insert_ne by done; by rewrite lookup_singleton_ne.
Qed.

(** ** A FunctionFS function on it *)

Section Witness.
#[local] Existing Instance simple_ffs.

(** Function 1 has its directory. *)
Definition placed_function : Cfs :=
  update_dir 1 (set_dir_inner ["usb_gadget"; "g"; "functions"; "ffs.g-1"]) empty_configfs.

Abbreviation placed_init := (init (@insertion_order) None 1 fastboot_builder placed_function).

Lemma endpoint_files_match_witness :
  match placed_init with
  | (Ok _, s') => exists d, ff_open (files_of 1 (c_ffs s')) = [join_file d "ep1"; join_file d "ep2"; join_file d "ep0"]
  | (Err _, _) => False
  end.
Proof.
  assert (is_ok (placed_init).1 = true) as Hok by (vm_compute; reflexivity).
  destruct placed_init as [[[]|e] s'] eqn:E; [|discriminate].
  destruct (endpoint_files_match (@insertion_order) insertion_order_perm None 1 fastboot_builder placed_function s'
    fastboot_builder_fits eq_refl E) as (d & db & sb & desc & _ & _ & _ & Hf).
  exists d. exact Hf.
Defined.

(** The channels of a function take one value: starting it a second time gets as
    far as the first endpoint's. *)
Example second_init_panics :
  (init (@insertion_order) None 1 fastboot_builder (placed_init).2).1 = Err (Custom KOther "value already sent").
Proof. vm_compute. reflexivity. Qed.
End Witness.
