(* ===== verification/GadgetFs.v ===== *)
(** * Gadgets in configfs

    Models patches/usb-gadget/src/gadget.rs (and the speed names of src/lib.rs):
    registering a gadget with its strings, functions, configurations and
    extensions, binding it to a controller, and removing it again, on the tree
    of configfs and the functions of [Functions] and [FfsFunction]. *)

From stdpp Require Import gmap.
From S2P Require Import Prelude Io Bytes UsbConfig FfsDesc FfsBuild ConfigFs Functions FfsFunction.

(** ** Functions by kind *)

Inductive Func :=
| FnSerial (c : SerialClass) (console : option bool)
| FnNet (n : Net)
| FnMsd (stall : option bool) (luns : list Lun)
| FnHid (h : HidBuilder)
| FnMidi (m : MidiBuilder)
| FnPrinter (p : PrinterBuilder)
| FnLoopback (l : LoopbackBuilder)
| FnSourceSink (s : SourceSinkBuilder)
| FnUac1 (u : Uac1Builder)
| FnUac2 (u : Uac2Builder)
| FnUvc (u : UvcBuilder)
| FnOther (o : OtherBuilder)
| FnCustom (b : CustomBuilder).

Definition func_driver (f : Func) : string :=
  match f with
  | FnSerial c _ => serial_driver c
  | FnNet n => net_driver (net_class n)
  | FnMsd _ _ => msd_driver
  | FnHid _ => hid_driver
  | FnMidi _ => midi_driver
  | FnPrinter _ => printer_driver
  | FnLoopback _ => loopback_driver
  | FnSourceSink _ => sourcesink_driver
  | FnUac1 _ => uac1_driver
  | FnUac2 _ => uac2_driver
  | FnUvc _ => uvc_driver
  | FnOther o => other_driver o
  | FnCustom _ => custom_driver
  end.

(** A handle is its identity. *)
Record FnHandle := { h_id : nat; h_func : Func }.

(** ** Descriptions *)

Inductive LSpeed := LUnknown | LLow | LFull | LHigh | LSuper | LSuperPlus.

Definition speed_text (s : LSpeed) : string :=
  match s with
  | LUnknown => "UNKNOWN" | LLow => "low-speed" | LFull => "full-speed" | LHigh => "high-speed"
  | LSuper => "super-speed" | LSuperPlus => "super-speed-plus"
  end.

Inductive WebUsbVersion := WV10 | WOther (v : Z).
Definition web_usb_version_u16 (v : WebUsbVersion) : Z := match v with WV10 => 256 | WOther v => v end.

Record WebUsb := { wu_version : WebUsbVersion; wu_vendor_code : Z; wu_landing_page : list byte }.

Inductive LUsbVersion := LV11 | LV20 | LV21 | LV30 | LV31 | LVOther (v : Z).
Definition usb_version_u16 (v : LUsbVersion) : Z :=
  match v with LV11 => 272 | LV20 => 512 | LV21 => 513 | LV30 => 768 | LV31 => 784 | LVOther v => v end.

Record LOsDescriptor := { lo_vendor_code : Z; lo_qw_sign : list byte; lo_config : nat }.

Record LStrings := { ls_manufacturer : list byte; ls_product : list byte; ls_serial_number : list byte }.

(** Texts per language are in the order their map yields them. *)
Record LConfig := {
  lc_max_power : Z;
  lc_self_powered : bool;
  lc_remote_wakeup : bool;
  lc_description : list (Z * list byte);
  lc_functions : list FnHandle;
}.

Definition lconfig_new (description : list byte) : LConfig :=
  {| lc_max_power := 500; lc_self_powered := false; lc_remote_wakeup := false;
     lc_description := [(default_language, description)]; lc_functions := [] |}.

Definition add_function (h : FnHandle) (c : LConfig) : LConfig :=
  {| lc_max_power := lc_max_power c; lc_self_powered := lc_self_powered c;
     lc_remote_wakeup := lc_remote_wakeup c; lc_description := lc_description c;
     lc_functions := lc_functions c ++ [h] |}.

Record LGadget := {
  lg_name : option string;
  lg_device_class : Class_;
  lg_id : Z * Z;
  lg_strings : list (Z * LStrings);
  lg_max_packet_size0 : Z;
  lg_device_release : Z;
  lg_usb_version : LUsbVersion;
  lg_max_speed : option LSpeed;
  lg_os_descriptor : option LOsDescriptor;
  lg_web_usb : option WebUsb;
  lg_configs : list LConfig;
}.

Definition lgadget_new (c : Class_) (id : Z * Z) (s : LStrings) : LGadget :=
  {| lg_name := None; lg_device_class := c; lg_id := id; lg_strings := [(default_language, s)];
     lg_max_packet_size0 := 64; lg_device_release := 0; lg_usb_version := LV20; lg_max_speed := None;
     lg_os_descriptor := None; lg_web_usb := None; lg_configs := [] |}.

Record RegGadget := {
  rg_dir : path;
  rg_attached : bool;
  rg_func_dirs : list (FnHandle * path);
}.

Section Gadget.
Context `{Configfs} `{FfsKernel}.
Context (mac_text : list byte -> list byte) (cwd_is_dir : string -> bool).
Context (iter : forall A : Type, list A -> list A) (kernel : option (Z * Z)).
(** The gadget directory of configfs, if it is mounted. *)
Context (usb_gadget_dir : io_result path).

(** ** What the function kinds do *)

Definition func_register (h : FnHandle) : M Cfs unit :=
  let fn := h_id h in
  match h_func h with
  | FnSerial _ console => serial_register fn console
  | FnNet n => net_register mac_text fn n
  | FnMsd stall luns => msd_register fn stall luns
  | FnHid h => hid_register fn h
  | FnMidi m => midi_register fn m
  | FnPrinter p => printer_register fn p
  | FnLoopback l => loopback_register fn l
  | FnSourceSink s => sourcesink_register fn s
  | FnUac1 u => uac1_register fn u
  | FnUac2 u => uac2_register fn u
  | FnUvc u => uvc_register fn cwd_is_dir u
  | FnOther o => other_register fn o
  | FnCustom b => custom_register iter kernel fn b
  end.

Definition func_pre_removal (h : FnHandle) : M Cfs unit :=
  match h_func h with FnCustom _ => custom_pre_removal (h_id h) | _ => ret tt end.

Definition func_post_removal (h : FnHandle) : M Cfs unit :=
  match h_func h with FnCustom b => custom_post_removal (h_id h) b | _ => ret tt end.

(** The handlers registered for the drivers that need one. *)
Definition call_remove_handler (d : path) : M Cfs unit :=
  match split_function_dir d with
  | None => throw (Custom KInvalidInput "invalid function directory")
  | Some (driver, _) =>
      if bool_decide (driver = bs "ffs") then custom_remove_handler d
      else if bool_decide (driver = bs "mass_storage") then msd_remove_handler d
      else if bool_decide (driver = bs "uvc") then uvc_remove_handler d
      else ret tt
  end.

(** ** Registration *)

Definition sub (d : path) (n : string) : path := d ++ [n].

(** The results of a list of steps. *)
Fixpoint map_m {A B} (f : A -> M Cfs B) (l : list A) : M Cfs (list B) :=
  match l with
  | [] => ret []
  | x :: l => do! y := f x in do! ys := map_m f l in ret (y :: ys)
  end.

Definition config_attributes (c : LConfig) : Z :=
  let a := Z.shiftl 1 7 in
  let a := if lc_self_powered c then Z.lor a (Z.shiftl 1 6) else a in
  if lc_remote_wakeup c then Z.lor a (Z.shiftl 1 5) else a.

Definition config_name (idx : nat) : string := "c." +:+ str_of_bytes (dec (Z.of_nat idx)).

Definition find_dir (func_dirs : list (FnHandle * path)) (h : FnHandle) : option path :=
  snd <$> head (filter (fun p => h_id p.1 = h_id h) func_dirs).

(** The map has an entry for every function of the configurations; indexing it
    with another would be a panic, here an error. *)
Definition config_register (gadget_dir : path) (idx : nat) (func_dirs : list (FnHandle * path)) (c : LConfig)
    : M Cfs path :=
  let d := sub (sub gadget_dir "configs") (config_name idx) in
  fs_create_dir d >>;
  fs_write (sub d "bmAttributes") (hex_u8 (config_attributes c)) >>;
  fs_write (sub d "MaxPower") (dec (lc_max_power c)) >>;
  for_each (fun p =>
    let lang_dir := sub (sub d "strings") (str_of_bytes (hex_u16 p.1)) in
    fs_create_dir lang_dir >>;
    fs_write (sub lang_dir "configuration") p.2) (lc_description c) >>;
  for_each (fun h =>
    match find_dir func_dirs h with
    | None => throw (other "no entry found for key")
    | Some fd => fs_symlink fd (sub d (default EmptyString (list.last fd)))
    end) (lc_functions c) >>;
  ret d.

Definition gadget_idx_name (idx : Z) : string := "usb-gadget" +:+ str_of_bytes (dec idx).

(** The first free number; the counter is an [u16]. *)
Fixpoint find_gadget_dir (fuel : nat) (idx : Z) (root : path) : M Cfs path :=
  match fuel with
  | O => throw (Custom KOutOfMemory "USB gadgets exhausted")
  | S fuel =>
      let d := sub root (gadget_idx_name idx) in
      do! r := attempt (fs_create_dir d) in
      match r with
      | Ok _ => ret d
      | Err e => if bool_decide (kind e = KAlreadyExists) then find_gadget_dir fuel (idx + 1) root else throw e
      end
  end.

Definition GADGET_INDICES : nat := Z.to_nat (u16_max + 1).

Definition create_gadget_dir (name : option string) (root : path) : M Cfs path :=
  match name with
  | Some n => fs_create_dir (sub root n) >>; ret (sub root n)
  | None => find_gadget_dir GADGET_INDICES 0 root
  end.

(** The functions of all configurations, each once. *)
Definition distinct_functions (cs : list LConfig) : list FnHandle :=
  foldl (fun acc h => if existsb (fun h' => (h_id h' =? h_id h)%nat) acc then acc else acc ++ [h])
    [] (cs ≫= lc_functions).

Definition function_name (gadget_name : string) (idx : nat) (h : FnHandle) : string :=
  func_driver (h_func h) +:+ "." +:+ gadget_name +:+ "-" +:+ str_of_bytes (dec (Z.of_nat idx)).

Definition register_function (gadget_dir : path) (gadget_name : string) (p : nat * FnHandle)
    : M Cfs (FnHandle * path) :=
  let fd := sub (sub gadget_dir "functions") (function_name gadget_name p.1 p.2) in
  fs_create_dir fd >>;
  set_dir (h_id p.2) fd >>;
  func_register p.2 >>;
  ret (p.2, fd).

Definition write_attributes (g : LGadget) (d : path) : M Cfs unit :=
  fs_write (sub d "bDeviceClass") (hex_u8 (cls_class (lg_device_class g))) >>;
  fs_write (sub d "bDeviceSubClass") (hex_u8 (cls_sub_class (lg_device_class g))) >>;
  fs_write (sub d "bDeviceProtocol") (hex_u8 (cls_protocol (lg_device_class g))) >>;
  fs_write (sub d "idVendor") (hex_u16 (lg_id g).1) >>;
  fs_write (sub d "idProduct") (hex_u16 (lg_id g).2) >>;
  fs_write (sub d "bMaxPacketSize0") (hex_u8 (lg_max_packet_size0 g)) >>;
  fs_write (sub d "bcdDevice") (hex_u16 (lg_device_release g)) >>;
  fs_write (sub d "bcdUSB") (hex_u16 (usb_version_u16 (lg_usb_version g))) >>;
  match lg_max_speed g with
  | Some v => fs_write (sub d "max_speed") (bs (speed_text v))
  | None => ret tt
  end.

Definition write_web_usb (g : LGadget) (d : path) : M Cfs unit :=
  match lg_web_usb g with
  | None => ret tt
  | Some w =>
      let wd := sub d "webusb" in
      do! there := fs_is_dir wd in
      if there then
        fs_write (sub wd "bVendorCode") (hex_u8 (wu_vendor_code w)) >>;
        fs_write (sub wd "bcdVersion") (hex_u16 (web_usb_version_u16 (wu_version w))) >>;
        fs_write (sub wd "landingPage") (wu_landing_page w) >>;
        fs_write (sub wd "use") (bs "1")
      else ret tt
  end.

Definition write_strings (d : path) (p : Z * LStrings) : M Cfs unit :=
  let lang_dir := sub (sub d "strings") (str_of_bytes (hex_u16 p.1)) in
  fs_create_dir lang_dir >>;
  fs_write (sub lang_dir "manufacturer") (ls_manufacturer p.2) >>;
  fs_write (sub lang_dir "product") (ls_product p.2) >>;
  fs_write (sub lang_dir "serialnumber") (ls_serial_number p.2).

Definition write_os_descriptor (g : LGadget) (d : path) (config_dirs : list path) : M Cfs unit :=
  match lg_os_descriptor g with
  | None => ret tt
  | Some o =>
      let od := sub d "os_desc" in
      do! there := fs_is_dir od in
      if there then
        fs_write (sub od "b_vendor_code") (hex_u8 (lo_vendor_code o)) >>;
        fs_write (sub od "qw_sign") (lo_qw_sign o) >>;
        fs_write (sub od "use") (bs "1") >>;
        match config_dirs !! lo_config o with
        | None => throw (Custom KInvalidInput "invalid configuration index in OS descriptor")
        | Some cd => fs_symlink cd (sub od (default EmptyString (list.last cd)))
        end
      else ret tt
  end.

(** Everything after the gadget's directory was created. *)
Definition fill_gadget (g : LGadget) (d : path) : M Cfs RegGadget :=
  write_attributes g d >>;
  write_web_usb g d >>;
  for_each (write_strings d) (lg_strings g) >>;
  do! func_dirs := map_m (register_function d (default EmptyString (list.last d)))
                     (imap pair (distinct_functions (lg_configs g))) in
  do! config_dirs := map_m (fun p => config_register d (S p.1) func_dirs p.2) (imap pair (lg_configs g)) in
  write_os_descriptor g d config_dirs >>;
  ret {| rg_dir := d; rg_attached := true; rg_func_dirs := func_dirs |}.

Definition register (g : LGadget) : M Cfs RegGadget :=
  match lg_configs g with
  | [] => throw (Custom KInvalidInput "USB gadget must have at least one configuration")
  | _ =>
      do! root := lift usb_gadget_dir in
      do! d := create_gadget_dir (lg_name g) root in
      fill_gadget g d
  end.

(** ** A registered gadget *)

Definition reg_udc (r : RegGadget) : M Cfs (option (list byte)) :=
  do! data := fs_read (sub (rg_dir r) "UDC") in
  let data := trim_os_str data in
  ret (if bool_decide (data = []) then None else Some data).

Definition newline : list byte := [Byte.x0a].

(** Unbinding a gadget that is not bound is not an error. *)
Definition bind_udc (udc : option (list byte)) (r : RegGadget) : M Cfs unit :=
  do! w := attempt (fs_write (sub (rg_dir r) "UDC") (default newline udc)) in
  match w with
  | Ok _ => ret tt
  | Err e => if bool_decide (udc = None) && bool_decide (raw_os_error e = Some ENODEV) then ret tt else throw e
  end >>;
  for_each (fun p => set_bound (h_id p.1) (bool_decide (is_Some udc))) (rg_func_dirs r).

Definition detach (r : RegGadget) : RegGadget :=
  {| rg_dir := rg_dir r; rg_attached := false; rg_func_dirs := rg_func_dirs r |}.

(** *** Removal *)

Definition remove_links (p : path) : M Cfs unit :=
  for_entries p (fun e =>
    do! k := fs_metadata e in
    if bool_decide (k = KLink) then fs_remove_file e else ret tt).

Definition remove_dirs (p : path) : M Cfs unit :=
  for_entries p (fun e =>
    do! k := fs_metadata e in
    if bool_decide (k = KDir) then fs_remove_dir e else ret tt).

Definition remove_config (e : path) : M Cfs unit :=
  do! k := fs_metadata e in
  if bool_decide (k = KDir) then
    remove_links e >>; remove_dirs (sub e "strings") >>; fs_remove_dir e
  else ret tt.

Definition remove_function (e : path) : M Cfs unit :=
  do! k := fs_metadata e in
  if bool_decide (k = KDir) then call_remove_handler e >>; fs_remove_dir e else ret tt.

(** The links of the OS descriptor: an unreadable directory or entry is skipped. *)
Definition remove_os_links (p : path) : M Cfs unit :=
  do! entries := attempt (fs_read_dir p) in
  match entries with
  | Err _ => ret tt
  | Ok entries =>
      for_each (fun n =>
        do! k := attempt (fs_metadata (sub p n)) in
        if bool_decide (ok k = Some KLink) then fs_remove_file (sub p n) else ret tt) (readable entries)
  end.

Definition remove_at (d : path) : M Cfs unit :=
  do! _ := attempt (fs_write (sub d "UDC") newline) in
  remove_os_links (sub d "os_desc") >>;
  for_entries (sub d "configs") remove_config >>;
  for_entries (sub d "functions") remove_function >>;
  remove_dirs (sub d "strings") >>;
  fs_remove_dir d.

Definition do_remove (r : RegGadget) : M Cfs RegGadget :=
  for_each (fun p => func_pre_removal p.1) (rg_func_dirs r) >>;
  for_each (fun p => set_bound (h_id p.1) false) (rg_func_dirs r) >>;
  remove_at (rg_dir r) >>;
  for_each (fun p => reset_dir (h_id p.1)) (rg_func_dirs r) >>;
  for_each (fun p => func_post_removal p.1) (rg_func_dirs r) >>;
  ret (detach r).

(** Dropping an attached gadget removes it; an error is only logged. *)
Definition drop_gadget (r : RegGadget) : M Cfs unit :=
  if rg_attached r then (do! _ := attempt (do_remove r) in ret tt) else ret tt.

(** [RegGadget::remove]: a removal that failed is tried again by the drop, if
    the gadget is attached. *)
Definition remove_gadget (r : RegGadget) : M Cfs unit :=
  do! x := attempt (do_remove r) in
  match x with
  | Ok _ => ret tt
  | Err e => drop_gadget r >>; throw e
  end.

(** ** All gadgets of the system *)

Definition registered : M Cfs (list RegGadget) :=
  do! root := lift usb_gadget_dir in
  do! entries := fs_read_dir root in
  do! found := map_m (fun n =>
    do! k := fs_metadata (sub root n) in
    ret (if bool_decide (k = KDir)
         then [{| rg_dir := sub root n; rg_attached := false; rg_func_dirs := [] |}] else []))
    (readable entries) in
  ret (mjoin found).

(** The last error is reported, and the others do not stop the loop. *)
Fixpoint each_last_error {A} (f : A -> M Cfs unit) (l : list A) (res : io_result unit) : M Cfs unit :=
  match l with
  | [] => lift res
  | x :: l => do! r := attempt (f x) in each_last_error f l (match r with Ok _ => res | Err e => Err e end)
  end.

Definition remove_all : M Cfs unit :=
  do! gs := registered in
  each_last_error remove_gadget gs (Ok tt).

Definition unbind_all : M Cfs unit :=
  do! gs := registered in each_last_error (bind_udc None) gs (Ok tt).

(** [Gadget::bind]: a gadget that cannot be bound is dropped, and thereby removed. *)
Definition register_and_bind (g : LGadget) (udc : list byte) : M Cfs RegGadget :=
  do! r := register g in
  do! b := attempt (bind_udc (Some udc) r) in
  match b with
  | Ok _ => ret r
  | Err e => drop_gadget r >>; throw e
  end.

End Gadget.
