(* ===== verification/GadgetFsProps.v ===== *)
(** * What registering and removing a gadget changes

    Theorems about [Functions], [FfsFunction] and [GadgetFs], against any kernel
    that satisfies the laws of configfs: a function's registration stays below
    its directory, registering a gadget creates one directory and touches nothing
    else, removing it deletes that directory and nothing else, and the states of
    the functions follow. *)

From stdpp Require Import gmap.
From S2P Require Import Prelude Io Bytes UsbConfig FfsDesc FfsBuild ConfigFs Functions FfsFunction SimpleKernel GadgetFs.

(** ** Functions stay in their directory *)

Section Functions.
Context `{ConfigfsLaws} `{FfsKernel} (fn : nat) (d : path).

Lemma confined_opt_write {A} name (o : option A) fmt : confined fn d (opt_write fn name o fmt).
Proof. destruct o; [apply confined_write|apply framed_pure; [apply _|done]]. Qed.

Lemma framed_upd_ffs pre rel `{!PreOrder rel} P u : framed pre rel P (upd_ffs u).
Proof. apply framed_same. by intros s. Qed.
End Functions.

(** By the head of the computation. *)
Ltac confined_step :=
  lazymatch goal with
  | |- forall _, _ => intro
  | |- confined _ _ (bind _ _) => apply confined_bind
  | |- confined _ _ (attempt _) => apply confined_attempt
  | |- confined _ _ (write _ _ _) => apply confined_write
  | |- confined _ _ (create_dir _ _) => apply confined_create_dir
  | |- confined _ _ (create_dir_all _ _) => apply confined_create_dir_all
  | |- confined _ _ (symlink _ _ _) => apply confined_symlink
  | |- confined _ _ (opt_write _ _ _ _) => apply confined_opt_write
  | |- confined _ _ (upd_ffs _) => apply framed_upd_ffs; apply _
  | |- confined _ _ (for_each _ _) => apply confined_for_each
  | |- confined _ _ (match ?x with _ => _ end) => destruct x
  | |- confined _ _ _ => apply framed_pure; [apply _|done]
  end.
Ltac solve_confined := repeat confined_step.

Section FuncRegister.
Context `{ConfigfsLaws} `{FfsKernel}.
Context (mac_text : list byte -> list byte) (cwd_is_dir : string -> bool).
Context (iter : forall A : Type, list A -> list A) (kernel : option (Z * Z)).

Lemma confined_open_endpoints fn d dd num eps : confined fn d (open_endpoints fn dd num eps).
Proof.
  revert num. induction eps as [|ep eps IH]; intros num; cbn [open_endpoints]; unfold endpoint_io_new, channel_send.
  - solve_confined.
  - apply confined_bind; [solve_confined|]. intros _. apply confined_bind; [solve_confined|].
    intros _. apply confined_bind; [apply IH|]. solve_confined.
Qed.

Lemma confined_custom_register fn d b : confined fn d (custom_register iter kernel fn b).
Proof.
  unfold custom_register, ffs_dir, instance, init, ep0_write, channel_send, ffs_dir, instance.
  solve_confined. apply confined_open_endpoints.
Qed.

Theorem func_register_confined h d :
  confined (h_id h) d (func_register mac_text cwd_is_dir iter kernel h).
Proof.
  destruct h as [fn []]; cbn.
  - unfold serial_register. solve_confined.
  - unfold net_register. solve_confined.
  - unfold msd_register, lun_register. solve_confined.
  - unfold hid_register. solve_confined.
  - unfold midi_register. solve_confined.
  - unfold printer_register. solve_confined.
  - unfold loopback_register. solve_confined.
  - unfold sourcesink_register. solve_confined.
  - unfold uac1_register. solve_confined.
  - unfold uac2_register. solve_confined.
  - unfold uvc_register, frame_register, color_matching_register. solve_confined.
  - unfold other_register. solve_confined.
  - apply confined_custom_register.
Qed.
End FuncRegister.

(** ** Registering and removing stay in the gadget's directory *)

(** A path given by its names from the top of a region. *)
Ltac solve_region :=
  unfold sub;
  lazymatch goal with
  | Hp : ?g |- ?g => exact Hp
  | |- inside ?d (?d ++ [_]) => apply inside_sub
  | |- inside _ (?p ++ _) => apply (inside_up _ p); [solve_region|by apply prefix_app_r]
  | |- under ?d ?d => unfold under; reflexivity
  | |- under _ (?p ++ _) => apply (under_up _ p); [solve_region|by apply prefix_app_r]
  end.

Section Below.
Context `{ConfigfsLaws} `{FfsKernel}.
Context (rel : relation (gmap nat FunctionDirInner)) `{!PreOrder rel}.
Context (P : path -> Prop) (P_up : forall p q, P p -> p `prefix_of` q -> P q).

Lemma below_pure {A} (m : M Cfs A) : (forall s, (m s).2 = s) -> below rel P m.
Proof. intros Hm. apply framed_pure; [apply _|done]. Qed.

Lemma below_bind {A B} (m : M Cfs A) (k : A -> M Cfs B) :
  below rel P m -> (forall a, below rel P (k a)) -> below rel P (bind m k).
Proof. apply framed_bind; [apply _|done]. Qed.

Lemma below_attempt {A} (m : M Cfs A) : below rel P m -> below rel P (attempt m).
Proof. apply framed_attempt. Qed.

Lemma below_for_each {A} (body : A -> M Cfs unit) l :
  (forall x, below rel P (body x)) -> below rel P (for_each body l).
Proof. apply framed_for_each; [apply _|done]. Qed.

Lemma below_for_entries p (body : path -> M Cfs unit) :
  (forall n, below rel P (body (p ++ [n]))) -> below rel P (for_entries p body).
Proof. apply framed_for_entries; [apply _|done]. Qed.

Lemma below_map_m {A B} (f : A -> M Cfs B) l : (forall x, below rel P (f x)) -> below rel P (map_m f l).
Proof.
  intros Hf. induction l as [|x l IH]; cbn; [by apply below_pure|].
  apply below_bind; [done|]. intros y. apply below_bind; [done|]. intros ys. by apply below_pure.
Qed.

Lemma below_fs_create_dir p : P p -> below rel P (fs_create_dir p).
Proof. eapply framed_fs_create_dir; [apply _|done]. Qed.
Lemma below_fs_remove_dir p : P p -> below rel P (fs_remove_dir p).
Proof. eapply framed_fs_remove_dir; [apply _|done]. Qed.
Lemma below_fs_remove_file p : P p -> below rel P (fs_remove_file p).
Proof. eapply framed_fs_remove_file; [apply _|done]. Qed.
Lemma below_fs_symlink t p : P p -> below rel P (fs_symlink t p).
Proof. eapply framed_fs_symlink; [apply _|done]. Qed.
Lemma below_fs_write p v : P p -> below rel P (fs_write p v).
Proof. apply framed_fs_write; [apply _|done|done]. Qed.

(** Updates of the functions' directories and of FunctionFS touch no tree. *)
Lemma below_upd_ffs u : below rel P (upd_ffs u).
Proof. by apply framed_upd_ffs. Qed.
Lemma below_update_dir fn u : below any_dirs P (modify (update_dir fn u)).
Proof. apply framed_same. by intros s. Qed.

(** What a function does in the directory it was given. *)
Lemma below_set_dir {A} fn fd (k : unit -> M Cfs A) :
  P fd -> confined fn fd (k tt) -> below any_dirs P (bind (set_dir fn fd) k).
Proof.
  intros Hfd Hk s _. unfold set_dir. rewrite bind_modify. set (s1 := update_dir fn _ s).
  destruct (Hk s1) as (Hf & _ & l & Hl & Hall).
  { unfold registered_at, s1, update_dir. cbn. by rewrite lookup_insert_eq. }
  split; [intros q Hq; apply Hf; intros Hp; apply Hq; by eapply P_up|]. split; [done|].
  exists l. split; [done|]. eapply list.Forall_impl; [done|]. intros e He. by eapply P_up.
Qed.
End Below.

Ltac solve_up := first [assumption | apply inside_up | apply under_up].

Ltac below_step :=
  lazymatch goal with
  | |- forall _, _ => intro
  | |- below _ _ (bind _ _) => apply below_bind; try apply _
  | |- below _ _ (attempt _) => apply below_attempt; try apply _
  | |- below _ _ (for_each _ _) => apply below_for_each; try apply _
  | |- below _ _ (for_entries _ _) => apply below_for_entries; try apply _
  | |- below _ _ (map_m _ _) => apply below_map_m; try apply _
  | |- below _ _ (fs_create_dir _) => apply below_fs_create_dir; [apply _|solve_up|solve_region]
  | |- below _ _ (fs_remove_dir _) => apply below_fs_remove_dir; [apply _|solve_up|solve_region]
  | |- below _ _ (fs_remove_file _) => apply below_fs_remove_file; [apply _|solve_up|solve_region]
  | |- below _ _ (fs_symlink _ _) => apply below_fs_symlink; [apply _|solve_up|solve_region]
  | |- below _ _ (fs_write _ _) => apply below_fs_write; [apply _|solve_up|solve_region]
  | |- below _ _ (upd_ffs _) => apply below_upd_ffs; apply _
  | |- below _ _ (reset_dir _) => apply below_update_dir
  | |- below _ _ (set_bound _ _) => apply below_update_dir
  | |- below _ _ (match ?x with _ => _ end) => destruct x
  | |- below _ _ _ => apply below_pure; [apply _|done]
  end.
Ltac solve_below := repeat below_step.

Section Gadget.
Context `{ConfigfsLaws} `{FfsKernel}.
Context (mac_text : list byte -> list byte) (cwd_is_dir : string -> bool).
Context (iter : forall A : Type, list A -> list A) (kernel : option (Z * Z)).
Context (usb_gadget_dir : io_result path).

Abbreviation register := (register mac_text cwd_is_dir iter kernel usb_gadget_dir).
Abbreviation fill_gadget := (fill_gadget mac_text cwd_is_dir iter kernel).
Abbreviation register_function := (register_function mac_text cwd_is_dir iter kernel).

Lemma below_register_function d name p : below any_dirs (inside d) (register_function d name p).
Proof.
  unfold GadgetFs.register_function. apply below_bind; [apply _|solve_below|]. intros _.
  apply below_set_dir; [solve_up|solve_region|].
  apply confined_bind; [apply func_register_confined|]. intros _. apply framed_pure; [apply _|done].
Qed.

(** What comes before and after the functions. *)
Definition before_functions (g : LGadget) (d : path) : M Cfs unit :=
  write_attributes g d >>; write_web_usb g d >>; for_each (write_strings d) (lg_strings g).

Definition after_functions (g : LGadget) (d : path) (func_dirs : list (FnHandle * path)) : M Cfs RegGadget :=
  do! config_dirs := map_m (fun p => config_register d (S p.1) func_dirs p.2) (imap pair (lg_configs g)) in
  write_os_descriptor g d config_dirs >>;
  ret {| rg_dir := d; rg_attached := true; rg_func_dirs := func_dirs |}.

Definition register_functions (g : LGadget) (d : path) : M Cfs (list (FnHandle * path)) :=
  map_m (register_function d (default EmptyString (list.last d))) (imap pair (distinct_functions (lg_configs g))).

Lemma fill_gadget_parts g d s :
  fill_gadget g d s =
  (before_functions g d >>; do! func_dirs := register_functions g d in after_functions g d func_dirs) s.
Proof.
  unfold GadgetFs.fill_gadget, before_functions, bind. destruct (write_attributes g d s) as [[] s1]; [|done].
  by destruct (write_web_usb g d s1) as [[]].
Qed.

Lemma below_before_functions rel `{!PreOrder rel} g d : below rel (inside d) (before_functions g d).
Proof. unfold before_functions, write_attributes, write_web_usb, write_strings. solve_below. Qed.

Lemma below_after_functions rel `{!PreOrder rel} g d func_dirs : below rel (inside d) (after_functions g d func_dirs).
Proof. unfold after_functions, write_os_descriptor, config_register. solve_below. Qed.

(** Filling in a gadget changes nothing but the inside of its directory. *)
Lemma below_fill_gadget g d : below any_dirs (inside d) (fill_gadget g d).
Proof.
  eapply framed_ext; [apply fill_gadget_parts|]. apply below_bind; [apply _|by apply below_before_functions|].
  intros _. apply below_bind; [apply _| |intros; by apply below_after_functions].
  unfold register_functions. solve_below. apply below_register_function.
Qed.

Lemma below_call_remove_handler rel `{!PreOrder rel} d e : inside d e -> below rel (inside d) (call_remove_handler e).
Proof.
  intros He. unfold call_remove_handler, custom_remove_handler, unmount_entry, unmount, ffs_remove_dir,
    msd_remove_handler, uvc_remove_handler, when_dir, remove_class_headers, remove_format_dirs,
    remove_framebased, remove_if_dir, remove_link.
  solve_below.
Qed.

(** Removing a gadget empties its directory, then removes it. *)
Definition empty_gadget (d : path) : M Cfs unit :=
  do! _ := attempt (fs_write (sub d "UDC") newline) in
  remove_os_links (sub d "os_desc") >>;
  for_entries (sub d "configs") remove_config >>;
  for_entries (sub d "functions") remove_function >>;
  remove_dirs (sub d "strings").

Lemma remove_at_parts d s : remove_at d s = (empty_gadget d >>; fs_remove_dir d) s.
Proof.
  unfold remove_at, empty_gadget, bind. destruct (attempt _ s) as [[] s1]; [|done].
  destruct (remove_os_links _ s1) as [[] s2]; [|done]. destruct (for_entries _ remove_config s2) as [[] s3]; [|done].
  by destruct (for_entries _ remove_function s3) as [[]].
Qed.

Lemma below_empty_gadget rel `{!PreOrder rel} d : below rel (inside d) (empty_gadget d).
Proof.
  unfold empty_gadget, remove_os_links, remove_config, remove_function, remove_links, remove_dirs.
  solve_below. apply below_call_remove_handler; [apply _|]. solve_region.
Qed.

(** *** The gadget's directory *)

Definition created (d : path) (s s' : Cfs) : Prop :=
  exists f, k_create_dir d (c_fs s) = Ok f /\ s' = set_fs f s.

Definition exists_already (p : path) (s : Cfs) : Prop :=
  exists e, k_create_dir p (c_fs s) = Err e /\ kind e = KAlreadyExists.

Lemma fs_create_dir_spec p s :
  match fs_create_dir p s with
  | (Ok _, s') => created p s s'
  | (Err e, s') => s' = s /\ k_create_dir p (c_fs s) = Err e
  end.
Proof. unfold fs_create_dir, fs_op. destruct (k_create_dir p (c_fs s)) eqn:E; [by eexists|done]. Qed.

(** The number found is the first that is free. *)
Lemma find_gadget_dir_spec fuel idx root s :
  match find_gadget_dir fuel idx root s with
  | (Ok d, s') => exists k, (k < fuel)%nat /\ d = sub root (gadget_idx_name (idx + Z.of_nat k)) /\ created d s s' /\
      forall j, (j < k)%nat -> exists_already (sub root (gadget_idx_name (idx + Z.of_nat j))) s
  | (Err _, s') => s' = s
  end.
Proof.
  revert idx. induction fuel as [|fuel IH]; intros idx; cbn [find_gadget_dir]; [done|].
  rewrite bind_attempt. pose proof (fs_create_dir_spec (sub root (gadget_idx_name idx)) s) as Hc.
  destruct (fs_create_dir _ s) as [[[]|e] s1]; cbn [fst snd].
  - exists 0%nat. rewrite Z.add_0_r. split; [lia|]. split_and!; [done..|lia].
  - destruct Hc as [-> Hc]. case_bool_decide as Hk; [|done]. specialize (IH (idx + 1)).
    destruct (find_gadget_dir fuel (idx + 1) root s) as [[d|] s']; [|done].
    destruct IH as (k & Hlt & -> & Hd & Hj). exists (S k).
    replace (idx + Z.of_nat (S k)) with (idx + 1 + Z.of_nat k) by lia. split_and!; [lia|done..|].
    intros [|j] Hlt'; [rewrite Z.add_0_r; by exists e|].
    replace (idx + Z.of_nat (S j)) with (idx + 1 + Z.of_nat j) by lia. apply Hj. lia.
Qed.

(** The name a gadget's directory gets: the given one, or the first free number. *)
Definition names_gadget (name : option string) (root : path) (s : Cfs) (n : string) : Prop :=
  match name with
  | Some n' => n = n'
  | None => exists k, (k < GADGET_INDICES)%nat /\ n = gadget_idx_name (Z.of_nat k) /\
      forall j, (j < k)%nat -> exists_already (sub root (gadget_idx_name (Z.of_nat j))) s
  end.

Lemma create_gadget_dir_spec name root s :
  match create_gadget_dir name root s with
  | (Ok d, s') => exists n, d = sub root n /\ names_gadget name root s n /\ created d s s'
  | (Err _, s') => s' = s
  end.
Proof.
  destruct name as [n|]; cbn -[GADGET_INDICES].
  - unfold bind. pose proof (fs_create_dir_spec (sub root n) s) as Hc.
    destruct (fs_create_dir (sub root n) s) as [[[]|e] s']; [by exists n|by destruct Hc].
  - pose proof (find_gadget_dir_spec GADGET_INDICES 0 root s) as Hf.
    destruct (find_gadget_dir _ 0 root s) as [[d|] s']; [|done].
    destruct Hf as (k & Hlt & -> & Hd & Hj). eexists. split; [done|]. split; [by exists k|done].
Qed.

(** *** The functions' directories *)

Definition function_dir (d : path) (name : string) (p : nat * FnHandle) : path :=
  sub (sub d "functions") (function_name name p.1 p.2).

Lemma dir_of_insert fn i fn' s fs log ffs :
  dir_of {| c_fs := fs; c_dirs := <[fn := i]> (c_dirs s); c_log := log; c_ffs := ffs |} fn' =
  if decide (fn' = fn) then i else dir_of s fn'.
Proof.
  unfold dir_of. cbn. destruct (decide (fn' = fn)) as [->|]; [by rewrite lookup_insert_eq|by rewrite lookup_insert_ne].
Qed.

Lemma register_function_dirs d name p s r s' :
  register_function d name p s = (Ok r, s') ->
  r = (p.2, function_dir d name p) /\
  forall fn, dir_of s' fn = if decide (fn = h_id p.2) then set_dir_inner (function_dir d name p) (dir_of s fn)
                            else dir_of s fn.
Proof.
  unfold GadgetFs.register_function. fold (function_dir d name p).
  intros ([] & s1 & Ha & Hb)%bind_inv. pose proof (fs_create_dir_spec (function_dir d name p) s) as Hc.
  rewrite Ha in Hc. destruct Hc as (f & _ & ->). unfold set_dir in Hb. rewrite bind_modify in Hb.
  apply bind_inv in Hb as ([] & s2 & Hb & [= <- <-]). split; [done|].
  destruct (func_register_confined mac_text cwd_is_dir iter kernel p.2 (function_dir d name p)
    (update_dir (h_id p.2) (set_dir_inner (function_dir d name p)) (set_fs f s))) as (_ & Hd & _).
  { unfold registered_at, update_dir. cbn. by rewrite lookup_insert_eq. }
  rewrite Hb in Hd. cbn [snd] in Hd. intros fn. unfold dir_of at 1. rewrite <- Hd.
  unfold update_dir. cbn [c_dirs set_fs]. fold (dir_of s (h_id p.2)).
  destruct (decide (fn = h_id p.2)) as [->|]; [by rewrite lookup_insert_eq|by rewrite lookup_insert_ne].
Qed.

Abbreviation ids l := (h_id ∘ snd <$> l).

Lemma map_register_dirs d name (l : list (nat * FnHandle)) s r s' :
  map_m (register_function d name) l s = (Ok r, s') -> NoDup (ids l) ->
  r = (fun p => (p.2, function_dir d name p)) <$> l /\
  (forall p, p ∈ l -> dir_of s' (h_id p.2) = set_dir_inner (function_dir d name p) (dir_of s (h_id p.2))) /\
  (forall fn, fn ∉ ids l -> dir_of s' fn = dir_of s fn).
Proof.
  revert s r. induction l as [|p l IH]; intros s r; cbn [map_m].
  - intros [= <- <-] _. split; [done|]. split; [set_solver|done].
  - intros (y & s1 & [-> Ha]%register_function_dirs & Hb)%bind_inv. apply bind_inv in Hb as (ys & s2 & Hb & [= <- <-]).
    intros [Hn Hnd]%list.NoDup_cons. destruct (IH _ _ Hb Hnd) as (-> & Hin & Hout). split; [done|]. split.
    + intros q [->|Hq]%elem_of_cons; [rewrite Hout, Ha by done; by rewrite decide_True|].
      rewrite Hin, Ha by done. rewrite decide_False; [done|]. intros E. apply Hn. change (h_id p.2 ∈ ids l). rewrite <- E.
      by apply (list_elem_of_fmap_2 (h_id ∘ snd)).
    + intros fn Hfn. rewrite fmap_cons, not_elem_of_cons in Hfn. rewrite Hout, Ha by tauto. by rewrite decide_False by tauto.
Qed.

Lemma existsb_id h (l : list FnHandle) :
  existsb (fun h' => (h_id h' =? h_id h)%nat) l = true <-> h_id h ∈ h_id <$> l.
Proof.
  rewrite existsb_exists, list_elem_of_fmap. split.
  - intros (x & Hx & E%Nat.eqb_eq). exists x. split; [done|]. by apply list_elem_of_In.
  - intros (x & E & Hx%list_elem_of_In). exists x. split; [done|]. by apply Nat.eqb_eq.
Qed.

(** The functions of a gadget: each identity once, and none missing. *)
Lemma distinct_functions_spec cs :
  NoDup (h_id <$> distinct_functions cs) /\
  forall h, h ∈ cs ≫= lc_functions -> h_id h ∈ h_id <$> distinct_functions cs.
Proof.
  unfold distinct_functions. generalize (cs ≫= lc_functions) as l.
  assert (forall l acc, NoDup (h_id <$> acc) ->
    let r := foldl (fun acc h => if existsb (fun h' => (h_id h' =? h_id h)%nat) acc then acc else acc ++ [h]) acc l in
    NoDup (h_id <$> r) /\ forall fn, fn ∈ (h_id <$> acc) ++ (h_id <$> l) -> fn ∈ h_id <$> r) as Hgen.
  { induction l as [|h l IH]; intros acc Hacc; [by rewrite app_nil_r|]. cbn [foldl].
    destruct (existsb _ acc) eqn:E.
    - apply existsb_id in E. destruct (IH acc Hacc) as [Hn Hr]. split; [done|]. intros fn Hfn. apply Hr. set_solver.
    - assert (h_id h ∉ h_id <$> acc) as Hh by (intros Hh%existsb_id; congruence).
      destruct (IH (acc ++ [h])) as [Hn Hr].
      { rewrite fmap_app. apply list.NoDup_app. split; [done|]. split; [set_solver|apply NoDup_singleton]. }
      split; [done|]. intros fn Hfn. apply Hr. set_solver. }
  intros l. destruct (Hgen l [] NoDup_nil_2) as [Hn Hr]. split; [done|]. intros h Hh. apply Hr.
  by apply list_elem_of_fmap_2.
Qed.

Lemma distinct_functions_incl cs h : h ∈ distinct_functions cs -> h ∈ cs ≫= lc_functions.
Proof.
  unfold distinct_functions. generalize (cs ≫= lc_functions) as l.
  assert (forall l acc, h ∈ foldl (fun acc h => if existsb (fun h' => (h_id h' =? h_id h)%nat) acc then acc else acc ++ [h])
    acc l -> h ∈ acc ++ l) as Hgen.
  { induction l as [|x l IH]; intros acc; cbn; [by rewrite app_nil_r|]. intros Hh%IH. destruct (existsb _ acc); set_solver. }
  intros l. apply (Hgen l []).
Qed.

Lemma ids_imap (l : list FnHandle) : ids (imap pair l) = h_id <$> l.
Proof. rewrite fmap_imap. unfold compose. cbn. apply imap_const. Qed.

(** *** Registration *)

Lemma inside_outside d q m (A : Type) (mm : M Cfs A) s :
  below m (inside d) mm -> ~ under d q -> at_ (c_fs (mm s).2) q = at_ (c_fs s) q.
Proof. intros Hm Hq. apply Hm; [done|]. by intros Hi%inside_under. Qed.

Lemma inside_self d m (A : Type) (mm : M Cfs A) s :
  below m (inside d) mm -> at_ (c_fs (mm s).2) d = at_ (c_fs s) d.
Proof. intros Hm. apply Hm; [done|]. apply not_inside_self. Qed.

Lemma created_at d s s' :
  created d s s' ->
  c_fs s !! d = None /\ at_ (c_fs s') d = Some KDir /\ (forall q, ~ under d q -> at_ (c_fs s') q = at_ (c_fs s) q) /\
  c_dirs s' = c_dirs s /\ c_log s' = c_log s.
Proof.
  intros (f & (Hn & Hd & Hq)%create_dir_law & ->). cbn. unfold at_. rewrite Hd. split_and!; [done..| |done|done].
  intros q Hu. by rewrite Hq.
Qed.

Lemma fill_gadget_dirs g d s r s' :
  fill_gadget g d s = (Ok r, s') ->
  rg_dir r = d /\ rg_attached r = true /\
  rg_func_dirs r = (fun p => (p.2, function_dir d (default EmptyString (list.last d)) p))
                     <$> imap pair (distinct_functions (lg_configs g)) /\
  (forall h fd, (h, fd) ∈ rg_func_dirs r -> inside d fd /\ dir_of s' (h_id h) = set_dir_inner fd (dir_of s (h_id h))) /\
  (forall fn, fn ∉ h_id <$> distinct_functions (lg_configs g) -> dir_of s' fn = dir_of s fn).
Proof.
  rewrite fill_gadget_parts. intros ([] & s1 & Ha & Hb)%bind_inv. apply bind_inv in Hb as (fds & s2 & Hb & Hc).
  destruct (below_before_functions eq g d s I) as (_ & Hd1 & _). rewrite Ha in Hd1. cbn in Hd1.
  destruct (below_after_functions eq g d fds s2 I) as (_ & Hd2 & _). rewrite Hc in Hd2. cbn in Hd2.
  unfold after_functions in Hc. apply bind_inv in Hc as (cds & s3 & _ & Hc).
  apply bind_inv in Hc as ([] & s4 & _ & [= <- <-]). cbn [rg_dir rg_attached rg_func_dirs].
  apply map_register_dirs in Hb as (-> & Hin & Hout); [|rewrite ids_imap; apply distinct_functions_spec].
  assert (forall fn, dir_of s4 fn = dir_of s2 fn) as E2 by (intros fn; unfold dir_of; by rewrite Hd2).
  assert (forall fn, dir_of s1 fn = dir_of s fn) as E1 by (intros fn; unfold dir_of; by rewrite Hd1).
  split_and!; [done..| |].
  - intros h fd (p & [= -> ->] & Hp)%list_elem_of_fmap. split; [unfold function_dir; solve_region|].
    by rewrite E2, Hin, E1.
  - intros fn Hfn. by rewrite E2, Hout, E1 by (by rewrite ids_imap).
Qed.

(** Every function of the gadget has a directory of its own in it. *)
Definition functions_placed (g : LGadget) (r : RegGadget) (s s' : Cfs) : Prop :=
  (forall h, h ∈ lg_configs g ≫= lc_functions -> h_id h ∈ (h_id ∘ fst) <$> rg_func_dirs r) /\
  (forall h fd, (h, fd) ∈ rg_func_dirs r ->
     inside (rg_dir r) fd /\ dir_of s' (h_id h) = set_dir_inner fd (dir_of s (h_id h))) /\
  (forall fn, fn ∉ (h_id ∘ fst) <$> rg_func_dirs r -> dir_of s' fn = dir_of s fn).

Lemma register_spec g s :
  match register g s with
  | (Ok r, s') => exists root n, usb_gadget_dir = Ok root /\ rg_dir r = sub root n /\ rg_attached r = true /\
      names_gadget (lg_name g) root s n /\
      c_fs s !! rg_dir r = None /\ at_ (c_fs s') (rg_dir r) = Some KDir /\
      (forall q, ~ under (rg_dir r) q -> at_ (c_fs s') q = at_ (c_fs s) q) /\
      functions_placed g r s s'
  | (Err _, s') => s' = s \/ exists root n, usb_gadget_dir = Ok root /\ names_gadget (lg_name g) root s n /\
      c_fs s !! sub root n = None /\ at_ (c_fs s') (sub root n) = Some KDir /\
      (forall q, ~ under (sub root n) q -> at_ (c_fs s') q = at_ (c_fs s) q)
  end.
Proof.
  unfold GadgetFs.register. destruct (lg_configs g) as [|c cs] eqn:Hcs; [by left|].
  destruct usb_gadget_dir as [root|e]; [|by left]. unfold bind at 1. cbn [lift].
  pose proof (create_gadget_dir_spec (lg_name g) root s) as Hc. unfold bind.
  destruct (create_gadget_dir (lg_name g) root s) as [[d|e] s1]; [|by left].
  destruct Hc as (n & -> & Hn & (Hnone & Hdir & Hout & Hdirs & _)%created_at).
  pose proof (below_fill_gadget g (sub root n)) as Hb.
  pose proof (inside_self _ _ _ _ s1 Hb) as Hself. rewrite Hdir in Hself.
  assert (forall q, ~ under (sub root n) q -> at_ (c_fs (fill_gadget g (sub root n) s1).2) q = at_ (c_fs s) q) as Hq.
  { intros q Hq. rewrite (inside_outside _ _ _ _ _ s1 Hb Hq). by apply Hout. }
  pose proof (fill_gadget_dirs g (sub root n) s1) as Hf.
  destruct (fill_gadget g (sub root n) s1) as [[r|e] s']; cbn [snd] in *; [|right; by exists root, n].
  destruct (Hf r s' eq_refl) as (Hr & Ha & Hl & Hin & Hex).
  assert (forall fn, dir_of s1 fn = dir_of s fn) as E1 by (intros fn; unfold dir_of; by rewrite Hdirs).
  assert ((h_id ∘ fst) <$> rg_func_dirs r = h_id <$> distinct_functions (lg_configs g)) as Hids.
  { rewrite Hl, <- list_fmap_compose. apply ids_imap. }
  exists root, n. rewrite Hr. split_and!; [done..|]. split_and!; rewrite ?Hids, ?Hr.
  - apply distinct_functions_spec.
  - intros h fd Hh. rewrite <- E1. by apply Hin.
  - intros fn Hfn. rewrite <- E1. by apply Hex.
Qed.

(** *** Binding and removal *)

(** An update that can be repeated, on the functions of a list. *)
Lemma for_each_update {A} (key : A -> nat) u (l : list A) s :
  (forall i, u (u i) = u i) ->
  exists s', for_each (fun p => modify (update_dir (key p) u)) l s = (Ok tt, s') /\ c_fs s' = c_fs s /\
    c_log s' = c_log s /\ c_ffs s' = c_ffs s /\
    forall fn, dir_of s' fn = if decide (fn ∈ key <$> l) then u (dir_of s fn) else dir_of s fn.
Proof.
  intros Hu. revert s. induction l as [|x l IH]; intros s; cbn [for_each].
  - exists s. split_and!; [done..|]. intros fn. by rewrite decide_False by set_solver.
  - rewrite bind_modify. destruct (IH (update_dir (key x) u s)) as (s' & -> & Hf & Hl & Hw & Hd).
    exists s'. split_and!; [done..|]. intros fn. rewrite Hd. unfold update_dir. rewrite dir_of_insert.
    repeat case_decide; set_solver.
Qed.

Definition nowhere (q : path) : Prop := False.

Lemma below_nowhere {A} (m : M Cfs A) s :
  below eq nowhere m -> (forall q, at_ (c_fs (m s).2) q = at_ (c_fs s) q) /\ c_dirs (m s).2 = c_dirs s.
Proof. intros Hm. destruct (Hm s I) as (Hf & Hd & _). split; [|done]. intros q. apply Hf. by intros []. Qed.

(** What a function does around the removal: only in FunctionFS, without failing. *)
Definition silent (m : M Cfs unit) : Prop := below eq nowhere m /\ forall s, exists s', m s = (Ok tt, s').

Lemma silent_pre_removal h : silent (func_pre_removal h).
Proof.
  unfold func_pre_removal. destruct (h_func h); (split; [|intros ?; by eexists]);
    unfold custom_pre_removal, close; solve_below.
Qed.

Lemma silent_post_removal h : silent (func_post_removal h).
Proof.
  unfold func_post_removal. destruct (h_func h); try (split; [solve_below|intros ?; by eexists]).
  unfold custom_post_removal, ffs_remove_dir, ffs_dir, instance. split; [solve_below|].
  intros s. rewrite bind_gets. destruct (ff_created _); [|by eexists]. rewrite bind_attempt.
  destruct (fst _); [|by eexists]. rewrite bind_attempt. destruct (fst _); by eexists.
Qed.

Lemma silent_for_each {A} (body : A -> M Cfs unit) l : (forall x, silent (body x)) -> silent (for_each body l).
Proof.
  intros Hb. split; [apply below_for_each; [apply _|apply Hb]|].
  induction l as [|x l IH]; intros s; cbn [for_each]; [by eexists|].
  destruct (Hb x) as [_ Hx]. destruct (Hx s) as [s1 E]. rewrite (bind_Ok _ _ _ _ _ E). apply IH.
Qed.

Lemma silent_step (m : M Cfs unit) {A} (k : unit -> M Cfs A) s :
  silent m -> exists s', (m s = (Ok tt, s') /\ bind m k s = k tt s') /\
    (forall q, at_ (c_fs s') q = at_ (c_fs s) q) /\ c_dirs s' = c_dirs s.
Proof.
  intros [Hb Hok]. destruct (Hok s) as [s' E]. exists s'. split; [split; [done|by apply bind_Ok]|].
  pose proof (below_nowhere m s Hb) as Hn. by rewrite E in Hn.
Qed.

Abbreviation fn_ids r := ((h_id ∘ fst) <$> rg_func_dirs r).

Lemma bind_udc_spec udc r s :
  match bind_udc udc r s with
  | (x, s') => (forall q, ~ inside (rg_dir r) q -> at_ (c_fs s') q = at_ (c_fs s) q) /\
      forall fn, dir_of s' fn =
        match x with
        | Ok _ => if decide (fn ∈ fn_ids r) then set_bound_inner (bool_decide (is_Some udc)) (dir_of s fn) else dir_of s fn
        | Err _ => dir_of s fn
        end
  end.
Proof.
  unfold bind_udc. rewrite bind_attempt.
  assert (below eq (inside (rg_dir r)) (fs_write (sub (rg_dir r) "UDC") (default newline udc))) as Hw.
  { solve_below. }
  destruct (Hw s I) as (Hf & Hd & _). destruct (fs_write _ _ s) as [w s1]. cbn [fst snd] in *.
  assert (forall fn, dir_of s1 fn = dir_of s fn) as E1 by (intros fn; unfold dir_of; by rewrite Hd).
  destruct (for_each_update (h_id ∘ fst) (set_bound_inner (bool_decide (is_Some udc))) (rg_func_dirs r) s1)
    as (s' & Hs' & Hfs & _ & _ & Hdirs); [done|].
  unfold set_bound. unfold compose in Hs'. unfold bind.
  assert (forall fn, dir_of s' fn = if decide (fn ∈ fn_ids r) then
            set_bound_inner (bool_decide (is_Some udc)) (dir_of s fn) else dir_of s fn) as Hdirs'.
  { intros fn. rewrite Hdirs. by rewrite E1. }
  rewrite <- Hfs in Hf. destruct w as [|e]; cbn [ret]; [by rewrite Hs'|].
  destruct (bool_decide (udc = None) && _); cbn [ret throw]; [by rewrite Hs'|]. by rewrite <- Hfs.
Qed.

Lemma remove_at_spec d s :
  c_dirs (remove_at d s).2 = c_dirs s /\
  match remove_at d s with
  | (Ok _, s') => forall q, at_ (c_fs s') q = if decide (under d q) then None else at_ (c_fs s) q
  | (Err _, s') => forall q, ~ inside d q -> at_ (c_fs s') q = at_ (c_fs s) q
  end.
Proof.
  rewrite remove_at_parts. destruct (below_empty_gadget eq d s I) as (Hf & Hd & _). unfold bind.
  destruct (empty_gadget d s) as [[[]|e] s1]; cbn [snd] in *; [|done].
  unfold fs_remove_dir, fs_op. destruct (k_remove_dir d (c_fs s1)) as [f|e] eqn:E; cbn; [|done].
  split; [done|]. intros q. unfold at_ at 1. rewrite (remove_dir_law _ _ _ E).
  destruct (decide (d `prefix_of` q)) as [Hu|Hu]; [by rewrite decide_True|]. rewrite decide_False by done.
  apply Hf. by intros Hi%inside_under.
Qed.

(** Removal takes everything of the gadget, or on failure leaves its directory. *)
Lemma do_remove_spec r s :
  match do_remove r s with
  | (Ok r', s') => r' = detach r /\
      (forall q, at_ (c_fs s') q = if decide (under (rg_dir r) q) then None else at_ (c_fs s) q) /\
      forall fn, dir_of s' fn =
        if decide (fn ∈ fn_ids r) then reset_dir_inner (set_bound_inner false (dir_of s fn)) else dir_of s fn
  | (Err _, s') => forall q, ~ inside (rg_dir r) q -> at_ (c_fs s') q = at_ (c_fs s) q
  end.
Proof.
  unfold do_remove. set (l := rg_func_dirs r).
  destruct (silent_step (for_each (fun p => func_pre_removal p.1) l)
    (fun _ => for_each (fun p => set_bound (h_id p.1) false) l >>; remove_at (rg_dir r) >>;
       for_each (fun p => reset_dir (h_id p.1)) l >>; for_each (fun p => func_post_removal p.1) l >>; ret (detach r)) s)
    as (s1 & [_ ->] & Hf1 & Hd1).
  { apply silent_for_each. intros x. apply silent_pre_removal. }
  destruct (for_each_update (h_id ∘ fst) (set_bound_inner false) l s1) as (s2 & E2 & Hf2 & _ & _ & Hd2); [done|].
  rewrite (bind_Ok _ _ _ _ _ E2). unfold bind at 1. destruct (remove_at_spec (rg_dir r) s2) as [Hd3 Hf3].
  destruct (remove_at (rg_dir r) s2) as [[[]|e] s3]; cbn [snd] in *.
  - destruct (for_each_update (h_id ∘ fst) reset_dir_inner l s3) as (s4 & E4 & Hf4 & _ & _ & Hd4); [done|].
    rewrite (bind_Ok _ _ _ _ _ E4).
    destruct (silent_step (for_each (fun p => func_post_removal p.1) l) (fun _ => ret (detach r)) s4)
      as (s5 & [_ ->] & Hf5 & Hd5).
    { apply silent_for_each. intros x. apply silent_post_removal. }
    cbn [ret]. split; [done|]. split.
    + intros q. rewrite Hf5, Hf4, Hf3, Hf2. by rewrite Hf1.
    + intros fn. unfold dir_of at 1. rewrite Hd5. fold (dir_of s4 fn). rewrite Hd4. unfold dir_of at 1 2. rewrite Hd3.
      fold (dir_of s2 fn). rewrite Hd2. unfold dir_of. rewrite Hd1. by case_decide.
  - intros q Hq. rewrite Hf3, Hf2 by done. apply Hf1.
Qed.

(** [RegGadget::remove]: a removal that failed may still succeed in the drop of
    an attached gadget. *)
Lemma remove_gadget_spec r s :
  let gone s' := forall q, at_ (c_fs s') q = if decide (under (rg_dir r) q) then None else at_ (c_fs s) q in
  let kept s' := forall q, ~ inside (rg_dir r) q -> at_ (c_fs s') q = at_ (c_fs s) q in
  match remove_gadget r s with
  | (Ok _, s') => gone s'
  | (Err _, s') => kept s' \/ (rg_attached r = true /\ gone s')
  end.
Proof.
  unfold remove_gadget. rewrite bind_attempt. pose proof (do_remove_spec r s) as H1'.
  destruct (do_remove r s) as [[r'|e] s1]; cbn [fst snd]; [by destruct H1' as (_ & Hq & _)|].
  unfold drop_gadget, bind. destruct (rg_attached r); cbn [ret throw]; [|by left].
  unfold attempt. pose proof (do_remove_spec r s1) as H2'. destruct (do_remove r s1) as [[r'|e'] s2]; cbn [ret throw].
  - right. split; [done|]. destruct H2' as (_ & Hq & _). intros q. rewrite Hq. case_decide as Hu; [done|].
    apply H1'. by intros Hi%inside_under.
  - left. intros q Hq. by rewrite H2', H1'.
Qed.

(** What happens to the directories of the functions on the way. *)
Lemma lifecycle_dirs g udc s r s1 x s2 r' s3 :
  register g s = (Ok r, s1) -> bind_udc udc r s1 = (x, s2) -> do_remove r s2 = (Ok r', s3) ->
  (forall h, h ∈ lg_configs g ≫= lc_functions ->
     (fd_bound (dir_of s (h_id h)) = false -> state (dir_of s1 (h_id h)) = Registered) /\
     (x = Ok tt -> is_Some udc -> state (dir_of s2 (h_id h)) = Bound) /\
     state (dir_of s3 (h_id h)) = Removed) /\
  (forall fn, fn ∉ fn_ids r -> dir_of s1 fn = dir_of s fn /\ dir_of s2 fn = dir_of s fn /\ dir_of s3 fn = dir_of s fn).
Proof.
  intros Ha Hb Hc. pose proof (register_spec g s) as HA. rewrite Ha in HA.
  destruct HA as (root & n & _ & _ & _ & _ & _ & _ & _ & Hall & Hin & Hrest).
  pose proof (bind_udc_spec udc r s1) as HB. rewrite Hb in HB. destruct HB as [_ Hdb].
  pose proof (do_remove_spec r s2) as HC. rewrite Hc in HC. destruct HC as (_ & _ & Hdc). split.
  - intros h Hh%Hall. rewrite Hdc, Hdb, !decide_True by done.
    apply list_elem_of_fmap in Hh as ([h' fd] & Eh & Hh). cbn in Eh. rewrite Eh.
    destruct (Hin _ _ Hh) as [_ ->]. unfold state, set_dir_inner; cbn. split_and!.
    + by intros ->.
    + intros -> Hu. cbn. by rewrite bool_decide_true.
    + by destruct x.
  - intros fn Hfn. rewrite Hdc, Hdb, !decide_False, Hrest by done. by destruct x.
Qed.

(** The functions of a registered gadget are the ones of its configurations. *)
Lemma register_fn_ids g s r s' :
  register g s = (Ok r, s') -> forall fn, fn ∈ fn_ids r -> fn ∈ h_id <$> (lg_configs g ≫= lc_functions).
Proof.
  unfold GadgetFs.register. destruct (lg_configs g) as [|c cs] eqn:Hcs; [done|].
  intros (root & s0 & _ & Hr)%bind_inv. apply bind_inv in Hr as (d & s1 & _ & Hr).
  destruct (fill_gadget_dirs g d s1 r s' Hr) as (_ & _ & Hl & _). rewrite <- Hcs. intros fn.
  assert (fn_ids r = h_id <$> distinct_functions (lg_configs g)) as -> by (rewrite Hl, <- list_fmap_compose; apply ids_imap).
  rewrite !list_elem_of_fmap. intros (h & -> & Hh). exists h. split; [done|]. by apply distinct_functions_incl.
Qed.

(** ** Theorems *)

(** Registering a gadget creates one directory that was not there, of the name asked for
    or the first free number, puts every function of its configurations into a directory of
    its own below it, and touches nothing outside; a failure before the directory leaves
    everything as it was, and one after it leaves only that directory. *)
Theorem register_effect g s :
  match register g s with
  | (Ok r, s') => exists root n, usb_gadget_dir = Ok root /\ rg_dir r = sub root n /\ rg_attached r = true /\
      names_gadget (lg_name g) root s n /\
      c_fs s !! rg_dir r = None /\ at_ (c_fs s') (rg_dir r) = Some KDir /\
      (forall q, ~ under (rg_dir r) q -> at_ (c_fs s') q = at_ (c_fs s) q) /\
      functions_placed g r s s'
  | (Err _, s') => s' = s \/ exists root n, usb_gadget_dir = Ok root /\ names_gadget (lg_name g) root s n /\
      c_fs s !! sub root n = None /\ at_ (c_fs s') (sub root n) = Some KDir /\
      (forall q, ~ under (sub root n) q -> at_ (c_fs s') q = at_ (c_fs s) q)
  end.
Proof. apply register_spec. Qed.

(** C23. A gadget that is registered, bound (or fails to be) and removed leaves configfs as
    it found it: the same directories, links and files, its functions were registered, then
    bound, and end as removed, and no other function changed its state. *)
Theorem gadget_roundtrip g udc s r s1 x s2 r' s3 :
  tree_closed (c_fs s) ->
  register g s = (Ok r, s1) -> bind_udc udc r s1 = (x, s2) -> do_remove r s2 = (Ok r', s3) ->
  (forall q, at_ (c_fs s3) q = at_ (c_fs s) q) /\
  (forall h, h ∈ lg_configs g ≫= lc_functions ->
     (fd_bound (dir_of s (h_id h)) = false -> state (dir_of s1 (h_id h)) = Registered) /\
     (x = Ok tt -> is_Some udc -> state (dir_of s2 (h_id h)) = Bound) /\
     state (dir_of s3 (h_id h)) = Removed) /\
  (forall fn, fn ∉ fn_ids r -> dir_of s3 fn = dir_of s fn).
Proof.
  intros Hclosed Ha Hb Hc. destruct (lifecycle_dirs _ _ _ _ _ _ _ _ _ Ha Hb Hc) as (Hin & Hout). split_and!; [|done|].
  - pose proof (register_spec g s) as HA. rewrite Ha in HA.
    destruct HA as (root & n & _ & _ & _ & _ & Hnone & _ & Hfa & _).
    pose proof (bind_udc_spec udc r s1) as HB. rewrite Hb in HB. destruct HB as [Hfb _].
    pose proof (do_remove_spec r s2) as HC. rewrite Hc in HC. destruct HC as (_ & Hfc & _).
    intros q. rewrite Hfc. destruct (decide (under (rg_dir r) q)) as [Hu|Hu].
    + unfold at_. by rewrite (tree_closed_under _ _ _ Hclosed Hnone Hu).
    + rewrite Hfb, Hfa; [done..|]. by intros Hi%inside_under.
  - intros fn Hfn. by apply Hout.
Qed.
End Gadget.

(** ** A gadget on a simple kernel *)

Section Witness.
#[local] Existing Instance simple_configfs.
#[local] Existing Instance simple_ffs.
#[local] Existing Instance simple_laws.

(** A serial port, and the fastboot function over FunctionFS. *)
Definition sample_gadget : LGadget :=
  {| lg_name := Some "g"; lg_device_class := {| cls_class := 0; cls_sub_class := 0; cls_protocol := 0 |};
     lg_id := (1, 2);
     lg_strings := [(default_language, {| ls_manufacturer := bs "m"; ls_product := bs "p"; ls_serial_number := bs "s" |})];
     lg_max_packet_size0 := 64; lg_device_release := 0; lg_usb_version := LV20; lg_max_speed := None;
     lg_os_descriptor := None; lg_web_usb := None;
     lg_configs := [add_function {| h_id := 1; h_func := FnCustom fastboot_builder |}
                      (add_function {| h_id := 0; h_func := FnSerial Acm None |} (lconfig_new (bs "c")))] |}.

Abbreviation sample_register :=
  (register (fun m => m) (fun _ => false) (fun _ l => l) None (Ok ["usb_gadget"]) sample_gadget empty_configfs).

Definition sample_succeeds : bool :=
  match sample_register with
  | (Ok r, s1) => let (x, s2) := bind_udc (Some (bs "udc0")) r s1 in
      match x, do_remove r s2 with Ok _, (Ok _, _) => true | _, _ => false end
  | _ => false
  end.

Lemma register_effect_witness :
  match sample_register with
  | (Ok r, s1) => rg_dir r = ["usb_gadget"; "g"] /\ at_ (c_fs s1) (rg_dir r) = Some KDir
  | (Err _, _) => False
  end.
Proof.
  assert (sample_succeeds = true) as Hok by (vm_compute; reflexivity). unfold sample_succeeds in Hok.
  pose proof (register_effect (fun m => m) (fun _ => false) (fun _ l => l) None (Ok ["usb_gadget"]) sample_gadget
    empty_configfs) as He.
  destruct sample_register as [[r|e] s1]; [|discriminate].
  destruct He as (root & n & Hroot & Hd & _ & Hn & _ & Hdir & _). injection Hroot as <-. cbn in Hn. subst n.
  split; [exact Hd|exact Hdir].
Defined.

Lemma gadget_roundtrip_witness :
  match sample_register with
  | (Ok r, s1) =>
      let (x, s2) := bind_udc (Some (bs "udc0")) r s1 in
      match do_remove r s2 with
      | (Ok _, s3) => x = Ok tt /\ (forall q, at_ (c_fs s3) q = at_ (c_fs empty_configfs) q) /\
          state (dir_of s2 1) = Bound /\ state (dir_of s3 1) = Removed
      | _ => False
      end
  | _ => False
  end.
Proof.
  assert (sample_succeeds = true) as Hok by (vm_compute; reflexivity). unfold sample_succeeds in Hok.
  destruct sample_register as [[r|e] s1] eqn:E1; [|discriminate].
  destruct (bind_udc (Some (bs "udc0")) r s1) as [[[]|e] s2] eqn:E2; [|discriminate].
  destruct (do_remove r s2) as [[r'|e] s3] eqn:E3; [|discriminate].
  destruct (gadget_roundtrip (fun m => m) (fun _ => false) (fun _ l => l) None (Ok ["usb_gadget"]) sample_gadget
    (Some (bs "udc0")) empty_configfs r s1 (Ok tt) s2 r' s3 empty_closed E1 E2 E3) as (Hq & Hst & _).
  destruct (Hst {| h_id := 1; h_func := FnCustom fastboot_builder |}) as (_ & Hb & Hr).
  { right. left. }
  split; [reflexivity|]. split; [exact Hq|]. split; [|exact Hr]. apply Hb; [reflexivity|by eexists].
Defined.
End Witness.
