(* ===== verification/GadgetStack.v ===== *)
(** * The composite gadget on configfs

    The manager of [Gadget] sees configfs as the set of gadget directories in it,
    with the outcomes of the operations as a script. This file runs the same code,
    gadget.rs of crates/summit-usbgadget-usb, on the gadget library of [GadgetFs]
    and the tree of configfs, and shows that the abstract manager describes it:
    every run of the code on configfs is one of the manager's, with the same
    result, and the same gadget directories afterwards. *)

From stdpp Require Import gmap.
From S2P Require Import Prelude Io Bytes SysInfo Session FunctionFs Dfu FastbootProto FastbootUsb UsbConfig Gadget GadgetProps FfsDesc FfsBuild ConfigFs Functions FfsFunction SimpleKernel GadgetFs GadgetFsProps.

(** ** From the description to the library's gadget *)

Definition library_speed (s : Gadget.Speed) : LSpeed :=
  match s with
  | SpUnknown => LUnknown | LowSpeed => LLow | Gadget.FullSpeed => LFull | Gadget.HighSpeed => LHigh
  | Gadget.SuperSpeed => LSuper | SuperSpeedPlus => LSuperPlus
  end.

Definition library_version (v : UsbVersion) : LUsbVersion :=
  match v with V11 => LV11 | V20 => LV20 | V21 => LV21 | V30 => LV30 | V31 => LV31 end.

(** The FunctionFS function of a service. *)
Definition service_class (s : GadgetService) : Class_ :=
  match s with DfuService _ => DFU_MODE | FastbootUsbService _ _ => FASTBOOT_CLASS end.

Definition service_builder (s : GadgetService) : CustomBuilder :=
  match s with DfuService c => dfu_builder c | FastbootUsbService _ _ => fastboot_builder end.

Definition handle_func (services : list GadgetService) (h : Handle) : Func :=
  match h with
  | HSerial c console => FnSerial c console
  | HNet n => FnNet n
  | HMsd stall luns => FnMsd stall luns
  | HCustom c _ =>
      FnCustom (default builder (service_builder <$> head (filter (fun s => service_class s = c) services)))
  end.

(** The identities of handles: [base] and on, in the order they are built. *)
Definition library_functions (services : list GadgetService) (base : nat) (hs : list Handle) : list FnHandle :=
  imap (fun i h => {| h_id := base + i; h_func := handle_func services h |}) hs.

Fixpoint library_configs (services : list GadgetService) (base : nat) (cs : list Config) : list LConfig :=
  match cs with
  | [] => []
  | c :: cs =>
      {| lc_max_power := cf_max_power c; lc_self_powered := cf_self_powered c;
         lc_remote_wakeup := cf_remote_wakeup c;
         lc_description := [(default_language, bs (cf_description c))];
         lc_functions := library_functions services base (cf_functions c) |}
      :: library_configs services (base + length (cf_functions c)) cs
  end.

Definition library_gadget (services : list GadgetService) (base : nat) (g : Gadget) : LGadget :=
  let '(manufacturer, product, serial) := gd_strings g in
  {| lg_name := Some (gd_name g);
     lg_device_class := gd_class g;
     lg_id := gd_id g;
     lg_strings := [(default_language, {| ls_manufacturer := bs manufacturer; ls_product := bs product;
                                          ls_serial_number := bs serial |})];
     lg_max_packet_size0 := 64;
     lg_device_release := 0;
     lg_usb_version := library_version (gd_usb_version g);
     lg_max_speed := library_speed <$> gd_max_speed g;
     lg_os_descriptor := (fun o => {| lo_vendor_code := od_vendor_code o; lo_qw_sign := bs (od_qw_sign o);
                                      lo_config := Z.to_nat (od_config o) |}) <$> gd_os_descriptor g;
     lg_web_usb := None;
     lg_configs := library_configs services base (gd_configs g) |}.

(** The text of a path. *)
Definition path_text (p : path) : string := foldl (fun acc n => acc +:+ "/" +:+ n) EmptyString p.

Section Build.
Context `{Configfs} `{FfsKernel} `{MacParser} (env : SysEnv).
Context (mac_text : list byte -> list byte) (cwd_is_dir : string -> bool).
Context (iter : forall A : Type, list A -> list A) (kernel : option (Z * Z)).
Context (usb_gadget_dir : io_result path).
(** The text of an I/O error. *)
Context (display : io_error -> string).

(** *** The network functions that need an OS descriptor *)

Definition remembers (f : FunctionConfig) : bool :=
  match f with FNet c => isSome (nc_os_compatible_id c) | _ => false end.

(** Their identities, with the state of the builders after the functions. *)
Fixpoint net_os_functions (fs : list FunctionConfig) (ser : string) (o : FunctionOutputs) (next : nat)
    : list nat * FunctionOutputs * nat :=
  match fs with
  | [] => ([], o, next)
  | f :: fs =>
      let '(r, o) := build_function env f ser o in
      let after := match r with Ok (Some _) => S next | _ => next end in
      let '(l, o, n) := net_os_functions fs ser o after in
      ((if remembers f then next :: l else l), o, n)
  end.

Fixpoint net_os_handles (cs : list UsbConfigConfig) (ser : string) (o : FunctionOutputs) (next : nat) : list nat :=
  match cs with
  | [] => []
  | c :: cs => let '(l, o, n) := net_os_functions (uc_function c) ser o next in l ++ net_os_handles cs ser o n
  end.

Definition apply_net_os_descriptor (p : nat * NetOsDescriptor) : M Cfs unit :=
  do! d := gets (fun s => fd_dir (dir_of s p.1)) in
  match d with
  | None => throw (Custom KNotFound "network function directory not registered")
  | Some function_dir =>
      let os_desc := ["os_desc"; "interface." +:+ no_interface p.2] in
      fs_create_dir_all_from function_dir os_desc >>;
      fs_write (sub (function_dir ++ os_desc) "compatible_id") (bs (no_compatible_id p.2)) >>;
      match no_sub_compatible_id p.2 with
      | Some v => fs_write (sub (function_dir ++ os_desc) "sub_compatible_id") (bs v)
      | None => ret tt
      end
  end.

Definition apply_net_os_descriptors (ds : list (nat * NetOsDescriptor)) : M Cfs unit :=
  for_each apply_net_os_descriptor ds.

(** *** Building on a controller *)

Definition name_of (r : RegGadget) : string := default EmptyString (list.last (rg_dir r)).

Definition fs_cleanup (reg : RegGadget) (err : string) (s : Cfs) : string * Cfs :=
  match remove_gadget reg s with
  | (Ok _, s) => (err, s)
  | (Err e, s) => (remove_failed (name_of reg) err (display e), s)
  end.

Definition fs_cleanup_by_name (name err : string) (s : Cfs) : string * Cfs :=
  match registered usb_gadget_dir s with
  | (Err e, s) =>
      (err +:+ "; additionally failed to enumerate registered gadgets while cleaning up partially registered gadget "
         +:+ name +:+ ": " +:+ display e, s)
  | (Ok gadgets, s) =>
      match head (filter (fun g => name_of g = name) gadgets) with
      | None => (err, s)
      | Some g =>
          match remove_gadget g s with
          | (Ok _, s) => (err, s)
          | (Err e, s) => (remove_failed name err (display e), s)
          end
      end
  end.

(** A running gadget comes with its registration. *)
Definition fs_build_once (cfg : GadgetConfig) (udc : string) (max_speed : option Gadget.Speed) (base : nat) (s : Cfs)
    : result (RunningGadget * RegGadget) string * Cfs :=
  match describe env cfg udc max_speed with
  | Err e => (Err e, s)
  | Ok (gadget, outputs) =>
      let services := into_services (fo_plugin outputs) in
      match GadgetFs.register mac_text cwd_is_dir iter kernel usb_gadget_dir (library_gadget services base gadget) s with
      | (Err err, s) =>
          let '(e, s) := fs_cleanup_by_name udc
            ("failed to register gadget for UDC " +:+ udc +:+ " before bind: " +:+ display err) s in
          (Err e, s)
      | (Ok reg, s) =>
          let ids := net_os_handles (gc_config cfg) (resolve_serial env (dv_serial_source (gc_device cfg)))
                       outputs_default base in
          match apply_net_os_descriptors (zip ids (fo_net_os outputs)) s with
          | (Err err, s) =>
              let '(e, s) := fs_cleanup reg
                ("failed to finish gadget setup in configfs at " +:+ path_text (rg_dir reg) +:+ ": " +:+ display err) s in
              (Err e, s)
          | (Ok _, s) =>
              match bind_udc (Some (bs udc)) reg s with
              | (Err err, s) =>
                  let '(e, s) := fs_cleanup reg
                    ("failed to bind registered gadget at " +:+ path_text (rg_dir reg) +:+ " to UDC " +:+ udc
                       +:+ ": " +:+ display err) s in
                  (Err e, s)
              | (Ok _, s) => (Ok ({| rg_gadget := gadget; rg_services := services |}, reg), s)
              end
          end
      end
  end.

(** The controller is asked for its speed by each attempt. *)
Definition fs_build_on_udc (cfg : GadgetConfig) (udc : string) (speed1 speed2 : option Gadget.Speed) (base1 base2 : nat)
    (s : Cfs) : result (RunningGadget * RegGadget) string * Cfs :=
  match fs_build_once cfg udc speed1 base1 s with
  | (Ok running, s) => (Ok running, s)
  | (Err err, s) =>
      match config_without_dfu cfg err with
      | None => (Err err, s)
      | Some filtered =>
          let '(r, s) := fs_build_once filtered udc speed2 base2 s in
          (map_err (fun e => "retry without DFU after registration failure on UDC " +:+ udc
                               +:+ " also failed: " +:+ e) r, s)
      end
  end.
End Build.

(** ** Refinement *)

Section Refinement.
Context `{Hlaws : ConfigfsLaws} `{!ConfigfsListing H} `{FfsKernel} `{MacParser} (env : SysEnv).
Context (mac_text : list byte -> list byte) (cwd_is_dir : string -> bool).
Context (iter : forall A : Type, list A -> list A) (kernel : option (Z * Z)).
Context (usb_gadget_dir : io_result path) (display : io_error -> string).

Abbreviation once_on_fs := (fs_build_once env mac_text cwd_is_dir iter kernel usb_gadget_dir display).
Abbreviation build_on_fs := (fs_build_on_udc env mac_text cwd_is_dir iter kernel usb_gadget_dir display).
Abbreviation register := (GadgetFs.register mac_text cwd_is_dir iter kernel usb_gadget_dir).

(** The gadget directories of configfs are [fs]. *)
Definition dirs_match (f : Fs) (fs : gset string) : Prop :=
  match usb_gadget_dir with
  | Ok root => forall n, n ∈ fs <-> at_ f (sub root n) = Some KDir
  | Err _ => True
  end.

Definition dir_text : string := match usb_gadget_dir with Ok root => path_text root | Err _ => EmptyString end.

Lemma path_text_sub root n : path_text (sub root n) = path_text root +:+ "/" +:+ n.
Proof. unfold path_text, sub. by rewrite foldl_app. Qed.

Lemma name_of_sub r root n : rg_dir r = sub root n -> name_of r = n.
Proof. intros E. unfold name_of. rewrite E. unfold sub. by rewrite last_snoc. Qed.

(** Gadget directories are not inside one another. *)
Lemma sub_not_inside root n n' : ~ inside (sub root n) (sub root n').
Proof. intros [m Hm%prefix_length]. unfold sub in Hm. rewrite !length_app in Hm. cbn in Hm. lia. Qed.

Lemma under_sub root n n' : under (sub root n) (sub root n') -> n' = n.
Proof. unfold under, sub. intros Hp. apply prefix_app_inv in Hp. by apply prefix_cons_inv_1 in Hp. Qed.

(** *** Steps that keep, add and remove a gadget directory *)

Lemma dirs_match_kept f f' fs root n :
  usb_gadget_dir = Ok root -> (forall q, ~ inside (sub root n) q -> at_ f' q = at_ f q) ->
  dirs_match f fs -> dirs_match f' fs.
Proof. unfold dirs_match. intros -> Hq Hm m. rewrite Hq; [apply Hm|apply sub_not_inside]. Qed.

Lemma dirs_match_gone f f' fs root n :
  usb_gadget_dir = Ok root ->
  (forall q, at_ f' q = if decide (under (sub root n) q) then None else at_ f q) ->
  dirs_match f fs -> dirs_match f' (fs ∖ {[n]}).
Proof.
  unfold dirs_match. intros -> Hq Hm m. rewrite Hq. rewrite elem_of_difference, elem_of_singleton, Hm.
  case_decide as Hu.
  - apply under_sub in Hu as ->. naive_solver.
  - split; [naive_solver|]. intros Hk. split; [done|]. intros ->. by apply Hu.
Qed.

Lemma dirs_match_added f f' fs root n :
  usb_gadget_dir = Ok root -> at_ f' (sub root n) = Some KDir ->
  (forall q, ~ under (sub root n) q -> at_ f' q = at_ f q) ->
  dirs_match f fs -> dirs_match f' ({[n]} ∪ fs).
Proof.
  unfold dirs_match. intros -> Hn Hq Hm m. rewrite elem_of_union, elem_of_singleton.
  destruct (decide (m = n)) as [->|Hne]; [naive_solver|]. rewrite Hq by (by intros ->%under_sub). rewrite Hm. naive_solver.
Qed.

(** *** The cleanup *)

(** A script whose answers are those of [remove_gadget]. *)
Lemma remove_refines r root n s fs :
  usb_gadget_dir = Ok root -> rg_dir r = sub root n -> dirs_match (c_fs s) fs ->
  match remove_gadget r s with
  | (Ok _, s') => dirs_match (c_fs s') (fs ∖ {[n]})
  | (Err _, s') => dirs_match (c_fs s') fs \/ (rg_attached r = true /\ dirs_match (c_fs s') (fs ∖ {[n]}))
  end.
Proof.
  intros Hroot Hd Hm. pose proof (remove_gadget_spec r s) as Hr. cbn zeta in Hr. rewrite Hd in Hr.
  destruct (remove_gadget r s) as [[[]|e] s'].
  - by eapply dirs_match_gone.
  - destruct Hr as [Hk|[Ha Hg]]; [left; by eapply dirs_match_kept|right; split; [done|by eapply dirs_match_gone]].
Qed.

Lemma map_m_pure {A B} (f : A -> M Cfs B) l s : (forall x s, (f x s).2 = s) -> (map_m f l s).2 = s.
Proof.
  intros Hf. revert s. induction l as [|x l IH]; intros s; cbn [map_m]; [done|]. unfold bind at 1.
  specialize (Hf x s). destruct (f x s) as [[y|e] s1]; cbn in Hf; subst s1; [|done].
  unfold bind. specialize (IH s). by destruct (map_m f l s) as [[]].
Qed.

(** The gadgets found are the directories. *)
Definition found (root : path) (f : Fs) (l : list string) (gs : list (list RegGadget)) : Prop :=
  Forall2 (fun n g => g = if bool_decide (at_ f (sub root n) = Some KDir)
                          then [{| rg_dir := sub root n; rg_attached := false; rg_func_dirs := [] |}] else []) l gs.

Lemma map_metadata root l s gs s' :
  map_m (fun n => do! k := fs_metadata (sub root n) in
           ret (if bool_decide (k = KDir)
                then [{| rg_dir := sub root n; rg_attached := false; rg_func_dirs := [] |}] else [])) l s = (Ok gs, s') ->
  s' = s /\ found root (c_fs s) l gs.
Proof.
  revert gs. induction l as [|n l IH]; intros gs; cbn [map_m]; [intros [= <- <-]; by split; [|constructor]|].
  intros (g & s1 & Ha & Hb)%bind_inv. apply bind_inv in Ha as (k & s2 & Hk & [= <- <-]).
  unfold fs_metadata in Hk. injection Hk as Hk <-. apply metadata_law in Hk.
  apply bind_inv in Hb as (gs' & s3 & Hb & [= <- <-]). apply IH in Hb as [-> Hf]. split; [done|].
  constructor; [|done]. rewrite Hk. by destruct k.
Qed.

Lemma registered_spec s :
  match registered usb_gadget_dir s with
  | (Ok gs, s') => s' = s /\ exists root, usb_gadget_dir = Ok root /\
      forall g, g ∈ gs <-> exists n, at_ (c_fs s) (sub root n) = Some KDir /\
        g = {| rg_dir := sub root n; rg_attached := false; rg_func_dirs := [] |}
  | (Err _, s') => s' = s
  end.
Proof.
  unfold registered. destruct usb_gadget_dir as [root|e]; [|done]. unfold bind at 1. cbn [lift].
  unfold bind at 1. unfold fs_read_dir at 1. destruct (k_read_dir root (c_fs s)) as [entries|e] eqn:Hd; [|done].
  unfold bind at 1. set (step := fun n => _). pose proof (map_m_pure step (readable entries) s) as Hp.
  destruct (map_m step (readable entries) s) as [[gs|e] s'] eqn:E; cbn [ret snd] in *;
    [|apply Hp; intros x s0; unfold step, bind, fs_metadata; by destruct (k_metadata _ _)].
  apply map_metadata in E as [-> Hf]. split; [done|]. exists root. split; [done|]. intros g.
  rewrite list_elem_of_join. pose proof (read_dir_law _ _ _ Hd) as Hl. split.
  - intros (l & Hg & Hin). apply list_elem_of_lookup in Hin as [i Hi].
    destruct (Forall2_lookup_r _ _ _ _ _ Hf Hi) as (n & _ & ->). case_bool_decide as Hk; [|set_solver].
    exists n. split; [done|]. set_solver.
  - intros (n & Hk & ->). assert (n ∈ readable entries) as [i Hi]%list_elem_of_lookup.
    { unfold readable. apply list_elem_of_omap. exists (Ok n). split; [|done]. apply Hl.
      unfold at_ in Hk. unfold sub in Hk. by destruct (c_fs s !! (root ++ [n])). }
    destruct (Forall2_lookup_l _ _ _ _ _ Hf Hi) as (l & Hl' & ->). rewrite bool_decide_true in Hl' by done.
    eexists. split; [|by eapply list_elem_of_lookup_2]. set_solver.
Qed.

(** *** One attempt *)

(** A run of the code on configfs and one of the manager agree. *)
Definition running_of (r : result (RunningGadget * RegGadget) string) : result RunningGadget string :=
  match r with Ok p => Ok p.1 | Err e => Err e end.

(** The registration of a running gadget is the directory of its controller's
    name. *)
Definition registered_as (p : RunningGadget * RegGadget) : Prop :=
  exists root, usb_gadget_dir = Ok root /\ rg_dir p.2 = sub root (udc_name p.1).

Record agree (o : result (RunningGadget * RegGadget) string * Cfs) (o' : result RunningGadget string * gset string) : Prop := {
  ag_result : running_of o.1 = o'.1;
  ag_dirs : dirs_match (c_fs o.2) o'.2;
  ag_reg p : o.1 = Ok p -> registered_as p;
}.

Lemma agree_err e s fs : dirs_match (c_fs s) fs -> agree (Err e, s) (Err e, fs).
Proof. by split. Qed.

Definition some_attempt (speed : option Gadget.Speed) : Attempt :=
  {| at_speed := speed; at_register := None; at_partial := false; at_net_os := None; at_bind := None;
     at_remove := None; at_dropped := false; at_list := None |}.

Lemma cleanup_refines reg root n err s fs :
  usb_gadget_dir = Ok root -> rg_dir reg = sub root n -> dirs_match (c_fs s) fs ->
  exists rm dr, forall a, at_remove a = rm -> at_dropped a = dr ->
    agree (let '(e, s) := fs_cleanup display reg err s in (Err e, s))
      (let '(e, fs) := cleanup_failed_registration a n err fs in (Err e, fs)).
Proof.
  intros Hroot Hd Hm. pose proof (remove_refines reg root n s fs Hroot Hd Hm) as Hr. unfold fs_cleanup.
  unfold cleanup_failed_registration. destruct (remove_gadget reg s) as [[[]|e] s'].
  - exists None, false. intros a -> _. by apply agree_err.
  - rewrite (name_of_sub _ _ _ Hd). destruct Hr as [Hk|[_ Hg]].
    + exists (Some (display e)), false. intros a -> ->. by apply agree_err.
    + exists (Some (display e)), true. intros a -> ->. by apply agree_err.
Qed.

Lemma cleanup_by_name_refines name err s fs :
  dirs_match (c_fs s) fs ->
  exists rm ls, forall a, at_remove a = rm -> at_list a = ls ->
    agree (let '(e, s) := fs_cleanup_by_name usb_gadget_dir display name err s in (Err e, s))
      (let '(e, fs) := cleanup_failed_registration_by_name a name err fs in (Err e, fs)).
Proof.
  intros Hm. unfold fs_cleanup_by_name, cleanup_failed_registration_by_name. pose proof (registered_spec s) as Hg.
  destruct (registered usb_gadget_dir s) as [[gs|e] s1]; [|subst s1; exists None, (Some (display e)); intros a _ ->; by apply agree_err].
  destruct Hg as (-> & root & Hroot & Hg).
  assert (forall g, g ∈ filter (fun g => name_of g = name) gs <->
    name ∈ fs /\ g = {| rg_dir := sub root name; rg_attached := false; rg_func_dirs := [] |}) as Hf.
  { intros g. rewrite list_elem_of_filter, Hg. unfold dirs_match in Hm. rewrite Hroot in Hm. split.
    - intros (Hn & n & Hk & ->). rewrite (name_of_sub _ root n) in Hn by done. subst n. by rewrite Hm.
    - intros [Hk%Hm ->]. split; [by apply (name_of_sub _ root)|]. by exists name. }
  destruct (filter _ gs) as [|g l]; cbn [head].
  - exists None, None. intros a _ ->. rewrite bool_decide_false; [by apply agree_err|]. intros Hin.
    destruct (Hf {| rg_dir := sub root name; rg_attached := false; rg_func_dirs := [] |}) as [_ Hx].
    specialize (Hx (conj Hin eq_refl)). set_solver.
  - destruct (proj1 (Hf g) ltac:(set_solver)) as [Hin ->].
    pose proof (remove_refines {| rg_dir := sub root name; rg_attached := false; rg_func_dirs := [] |}
      root name s fs Hroot eq_refl Hm) as Hr.
    destruct (remove_gadget _ s) as [[[]|e] s'].
    + exists None, None. intros a -> ->. rewrite bool_decide_true by done. by apply agree_err.
    + exists (Some (display e)), None. intros a -> ->. rewrite bool_decide_true by done. apply agree_err.
      by destruct Hr as [?|[? _]].
Qed.

(** *** The identities of the network functions *)

Lemma library_functions_ids services base hs :
  h_id <$> library_functions services base hs = seq base (length hs).
Proof.
  unfold library_functions. rewrite fmap_imap. revert base.
  induction hs as [|h hs IH]; intros base; [done|]. cbn. rewrite Nat.add_0_r. f_equal. rewrite <- IH.
  apply imap_ext. intros i x _. cbn. lia.
Qed.

Lemma remembered_is_built f ser o r o' :
  build_function env f ser o = (Ok r, o') -> remembers f = true -> is_Some r.
Proof.
  destruct f as [c|c|c|c]; cbn; try done. destruct (build_net c (fo_net_os o)) as [[h ds]|e]; [|done]. intros [= <- _]. done.
Qed.

Lemma net_os_functions_range fs ser o next hs o' :
  build_functions env fs ser o = (Ok hs, o') ->
  exists l, net_os_functions env fs ser o next = (l, o', (next + length hs)%nat) /\
    Forall (fun i => i ∈ seq next (length hs)) l.
Proof.
  revert o next hs. induction fs as [|f fs IH]; intros o next hs; cbn [build_functions net_os_functions].
  - intros [= <- <-]. exists []. rewrite Nat.add_0_r. by split; [|constructor].
  - destruct (build_function env f ser o) as [[h|e] o1] eqn:E; [|done].
    destruct (build_functions env fs ser o1) as [[hs1|e] o2] eqn:E2; [|done]. intros [= <- <-].
    destruct (IH o1 (match h with Some _ => S next | None => next end) hs1 E2) as (l & -> & Hl).
    destruct (remembers f) eqn:Er.
    + destruct (remembered_is_built _ _ _ _ _ E Er) as [h' ->]. eexists. cbn. split; [by rewrite Nat.add_succ_r|].
      constructor; [by left|]. eapply list.Forall_impl; [done|]. intros i Hi. by right.
    + destruct h as [h|]; eexists; cbn; (split; [by rewrite ?Nat.add_succ_r|]); [|done].
      eapply list.Forall_impl; [done|]. intros i Hi. by right.
Qed.

Lemma net_os_handles_built services cs ser o next configs o' :
  build_configs env cs ser o = (Ok configs, o') ->
  Forall (fun i => i ∈ h_id <$> (library_configs services next configs ≫= lc_functions))
    (net_os_handles env cs ser o next).
Proof.
  revert o next configs. induction cs as [|c cs IH]; intros o next configs; cbn [build_configs net_os_handles].
  { intros _. constructor. }
  destruct (build_functions env (uc_function c) ser o) as [[hs|e] o1] eqn:E; [|done].
  destruct (build_configs env cs ser o1) as [[cs1|e] o2] eqn:E2; [|done]. intros [= <- <-].
  destruct (net_os_functions_range _ _ _ next _ _ E) as (l & -> & Hl).
  cbn [library_configs cf_functions mbind list_bind lc_functions]. apply Forall_app. split.
  - eapply list.Forall_impl; [done|]. intros i Hi. rewrite fmap_app, library_functions_ids. set_solver.
  - eapply list.Forall_impl; [by apply IH|]. intros i Hi. rewrite fmap_app. set_solver.
Qed.

Lemma describe_handles cfg udc sp g o services base :
  describe env cfg udc sp = Ok (g, o) ->
  Forall (fun i => i ∈ h_id <$> (lg_configs (library_gadget services base g) ≫= lc_functions))
    (net_os_handles env (gc_config cfg) (resolve_serial env (dv_serial_source (gc_device cfg))) outputs_default base) /\
  lg_name (library_gadget services base g) = Some udc /\ gd_name g = udc.
Proof.
  unfold describe, rbind. destruct (product_resolve _ _ _); [|done]. destruct (gadget_speed sp) as [v sp'].
  destruct (gc_config cfg) as [|c cs] eqn:Hc; [done|]. rewrite <- Hc.
  destruct (build_configs env (gc_config cfg) _ _) as [[configs|] o1] eqn:E; [|done]. intros [= <- <-].
  split; [|done]. cbn [library_gadget gd_strings lg_configs gd_configs]. by eapply net_os_handles_built.
Qed.

(** *** OS descriptors stay in the functions' directories *)

Definition placed_in (d : path) (l : list nat) (dirs : gmap nat FunctionDirInner) : Prop :=
  Forall (fun i => exists fd, registered_at i fd dirs /\ inside d fd) l.

Lemma framed_net_os d l ds :
  Forall (fun p => p.1 ∈ l) ds ->
  framed (placed_in d l) eq (inside d) (apply_net_os_descriptors ds).
Proof.
  assert (forall a b, a = b -> placed_in d l a -> placed_in d l b) as Hstable by (by intros ? ? ->).
  intros Hds. induction Hds as [|p ds Hp _ IH]; cbn; [apply framed_pure; [apply _|done]|].
  apply framed_bind; [apply _|done| |done]. intros s Hs. pose proof Hs as Hs'.
  unfold placed_in in Hs'. rewrite list.Forall_forall in Hs'. destruct (Hs' _ Hp) as (fd & Hfd & Hin).
  unfold apply_net_os_descriptor. rewrite bind_gets. change (fd_dir (dir_of s p.1) = Some fd) in Hfd. rewrite Hfd.
  assert (forall x, inside d (fd ++ x)) as Hx by (intros x; eapply inside_up; [done|by apply prefix_app_r]).
  revert s Hs Hs' Hfd. refine (fun s Hs _ _ => framed_bind _ _ Hstable _ _ _ _ _ s Hs).
  - apply framed_create_dir_all_from; [apply _|done|apply inside_up|done].
  - intros _. apply framed_bind; [apply _|done| |].
    + apply framed_fs_write; [apply _|done|apply inside_up|]. solve_region; eauto.
    + intros _. destruct (no_sub_compatible_id p.2); [|apply framed_pure; [apply _|done]].
      apply framed_fs_write; [apply _|done|apply inside_up|]. unfold sub. rewrite <- app_assoc. apply Hx.
Qed.

(** *** The refinement *)

(** A registration that failed. *)
Lemma failed_registration_refines g udc err s s' fs speed :
  lg_name g = Some udc -> register g s = (Err err, s') -> dirs_match (c_fs s) fs ->
  exists fs1 part, dirs_match (c_fs s') fs1 /\
    forall gd a, gd_name gd = udc -> at_register a = Some (display err) -> at_partial a = part -> at_speed a = speed ->
      Gadget.register a gd fs = (Err (display err), fs1).
Proof.
  intros Hn Hr Hm. pose proof (register_spec mac_text cwd_is_dir iter kernel usb_gadget_dir g s) as Hs. rewrite Hr in Hs.
  destruct Hs as [->|(root & n & Hroot & Hnm & Hnone & Hdir & Hout)].
  - exists fs, false. split; [done|]. intros gd a Hgd Hra Hpa _. unfold Gadget.register. rewrite Hra, Hpa. by case_bool_decide.
  - rewrite Hn in Hnm. cbn in Hnm. subst n. exists ({[udc]} ∪ fs), true.
    split; [by eapply dirs_match_added|]. intros gd a Hgd Hra Hpa _. unfold Gadget.register. rewrite Hra, Hpa, Hgd.
    rewrite bool_decide_false; [done|]. unfold dirs_match in Hm. rewrite Hroot in Hm. rewrite Hm. unfold at_. by rewrite Hnone.
Qed.

(** One that succeeded. *)
Lemma registration_refines g udc reg s s' fs :
  lg_name g = Some udc -> register g s = (Ok reg, s') -> dirs_match (c_fs s) fs ->
  exists root, usb_gadget_dir = Ok root /\ rg_dir reg = sub root udc /\
    dirs_match (c_fs s') ({[udc]} ∪ fs) /\ udc ∉ fs /\ functions_placed g reg s s'.
Proof.
  intros Hn Hr Hm. pose proof (register_spec mac_text cwd_is_dir iter kernel usb_gadget_dir g s) as Hs. rewrite Hr in Hs.
  destruct Hs as (root & n & Hroot & Hd & _ & Hnm & Hnone & Hdir & Hout & Hfun).
  rewrite Hn in Hnm. cbn in Hnm. subst n. exists root. rewrite Hd in *. split_and!; [done..| | |done].
  - by eapply dirs_match_added.
  - unfold dirs_match in Hm. rewrite Hroot in Hm. rewrite Hm. unfold at_. by rewrite Hnone.
Qed.

Lemma placed_functions g reg s s' l :
  functions_placed g reg s s' -> Forall (fun i => i ∈ h_id <$> (lg_configs g ≫= lc_functions)) l ->
  placed_in (rg_dir reg) l (c_dirs s').
Proof.
  intros (Hall & Hin & _) Hl. eapply list.Forall_impl; [done|]. intros i (h & -> & Hh)%list_elem_of_fmap.
  apply Hall, list_elem_of_fmap in Hh as ([h' fd] & Eh & Hf). cbn in Eh. rewrite Eh.
  destruct (Hin _ _ Hf) as [Hi Hd]. exists fd. split; [|done]. unfold registered_at.
  change (fd_dir (dir_of s' (h_id h')) = Some fd). by rewrite Hd.
Qed.

(** What the manager does after a registration, by its script. *)
Lemma once_registered cfg udc a fs gd o :
  describe env cfg udc (at_speed a) = Ok (gd, o) -> gd_name gd = udc -> udc ∉ fs -> at_register a = None ->
  build_on_udc_once env dir_text cfg udc a fs =
    match (if bool_decide (fo_net_os o = []) then None else at_net_os a) with
    | Some err =>
        let '(e, fs) := cleanup_failed_registration a udc
          ("failed to finish gadget setup in configfs at " +:+ gadget_path dir_text udc +:+ ": " +:+ err) ({[udc]} ∪ fs) in
        (Err e, fs)
    | None =>
        match at_bind a with
        | Some err =>
            let '(e, fs) := cleanup_failed_registration a udc
              ("failed to bind registered gadget at " +:+ gadget_path dir_text udc +:+ " to UDC " +:+ udc +:+ ": " +:+ err)
              ({[udc]} ∪ fs) in
            (Err e, fs)
        | None => (Ok {| rg_gadget := gd; rg_services := into_services (fo_plugin o) |}, {[udc]} ∪ fs)
        end
    end.
Proof.
  intros Ed Hn Hnew Ha. unfold build_on_udc_once, Gadget.register. by rewrite Ed, Hn, Ha, bool_decide_false.
Qed.

Abbreviation script speed net bnd rm dr :=
  {| at_speed := speed; at_register := None; at_partial := false; at_net_os := net; at_bind := bnd;
     at_remove := rm; at_dropped := dr; at_list := None |}.

(** From a registered gadget on. *)
Lemma after_registration_refines cfg udc speed base s1 fs reg root gd o :
  describe env cfg udc speed = Ok (gd, o) -> gd_name gd = udc -> udc ∉ fs ->
  usb_gadget_dir = Ok root -> rg_dir reg = sub root udc -> dirs_match (c_fs s1) ({[udc]} ∪ fs) ->
  let ids := net_os_handles env (gc_config cfg) (resolve_serial env (dv_serial_source (gc_device cfg)))
               outputs_default base in
  placed_in (rg_dir reg) ids (c_dirs s1) ->
  exists a, at_speed a = speed /\
    agree (match apply_net_os_descriptors (zip ids (fo_net_os o)) s1 with
           | (Err err, s) =>
               let '(e, s) := fs_cleanup display reg
                 ("failed to finish gadget setup in configfs at " +:+ path_text (rg_dir reg) +:+ ": " +:+ display err) s in
               (Err e, s)
           | (Ok _, s) =>
               match bind_udc (Some (bs udc)) reg s with
               | (Err err, s) =>
                   let '(e, s) := fs_cleanup display reg
                     ("failed to bind registered gadget at " +:+ path_text (rg_dir reg) +:+ " to UDC " +:+ udc
                        +:+ ": " +:+ display err) s in
                   (Err e, s)
               | (Ok _, s) => (Ok ({| rg_gadget := gd; rg_services := into_services (fo_plugin o) |}, reg), s)
               end
           end) (build_on_udc_once env dir_text cfg udc a fs).
Proof.
  intros Ed Hgd Hnew Hroot Hd Hm1 ids Hplaced.
  assert (path_text (rg_dir reg) = gadget_path dir_text udc) as ->.
  { rewrite Hd, path_text_sub. unfold gadget_path, dir_text. by rewrite Hroot. }
  destruct (framed_net_os (rg_dir reg) ids (zip ids (fo_net_os o))) with (s := s1) as (Hnet & _); [|done|].
  { apply list.Forall_forall. intros [i d] Hi. by apply elem_of_zip_l in Hi. }
  destruct (apply_net_os_descriptors (zip ids (fo_net_os o)) s1) as [[[]|err] s2] eqn:En; cbn [snd] in Hnet;
    rewrite Hd in Hnet; pose proof (dirs_match_kept _ _ _ _ _ Hroot Hnet Hm1) as Hm2.
  - pose proof (bind_udc_spec (Some (bs udc)) reg s2) as Hb. rewrite Hd in Hb.
    destruct (bind_udc (Some (bs udc)) reg s2) as [[[]|err] s3]; destruct Hb as [Hb _];
      pose proof (dirs_match_kept _ _ _ _ _ Hroot Hb Hm2) as Hm3.
    + exists (script speed None None None false). split; [done|]. rewrite (once_registered _ _ _ _ gd o) by done. cbn.
      assert (registered_as ({| rg_gadget := gd; rg_services := into_services (fo_plugin o) |}, reg)) as Hreg.
      { exists root. split; [done|]. unfold udc_name. cbn. by rewrite Hgd. }
      case_bool_decide; (split; [done|done|by intros ? [= <-]]).
    + destruct (cleanup_refines reg root udc ("failed to bind registered gadget at " +:+ gadget_path dir_text udc
        +:+ " to UDC " +:+ udc +:+ ": " +:+ display err) s3 ({[udc]} ∪ fs) Hroot Hd Hm3) as (rm & dr & Hc).
      exists (script speed None (Some (display err)) rm dr). split; [done|].
      rewrite (once_registered _ _ _ _ gd o) by done. cbn [at_net_os at_bind].
      replace (if bool_decide (fo_net_os o = []) then None else None) with (@None string) by (by case_bool_decide).
      by apply Hc.
  - destruct (cleanup_refines reg root udc ("failed to finish gadget setup in configfs at " +:+ gadget_path dir_text udc
      +:+ ": " +:+ display err) s2 ({[udc]} ∪ fs) Hroot Hd Hm2) as (rm & dr & Hc).
    exists (script speed (Some (display err)) None rm dr). split; [done|].
    rewrite (once_registered _ _ _ _ gd o) by done. cbn [at_net_os at_bind].
    rewrite bool_decide_false; [by apply Hc|]. intros Ho. rewrite Ho in En. by destruct ids.
Qed.

Lemma build_once_refines cfg udc speed base s fs :
  dirs_match (c_fs s) fs ->
  exists a, at_speed a = speed /\
    agree (once_on_fs cfg udc speed base s) (build_on_udc_once env dir_text cfg udc a fs).
Proof.
  intros Hm. unfold fs_build_once.
  destruct (describe env cfg udc speed) as [[gd o]|e] eqn:Ed.
  2: { exists (some_attempt speed). split; [done|]. unfold build_on_udc_once. cbn [at_speed some_attempt]. rewrite Ed.
       by apply agree_err. }
  destruct (describe_handles _ _ _ _ _ (into_services (fo_plugin o)) base Ed) as (Hids & Hname & Hgd).
  set (g := library_gadget _ base gd) in *.
  destruct (register g s) as [[reg|err] s1] eqn:Er.
  - destruct (registration_refines g udc reg s s1 fs Hname Er Hm) as (root & Hroot & Hd & Hm1 & Hnew & Hplaced).
    eapply after_registration_refines; try done. by eapply placed_functions.
  - destruct (failed_registration_refines g udc err s s1 fs speed Hname Er Hm) as (fs1 & part & Hm1 & Hreg).
    destruct (cleanup_by_name_refines udc
      ("failed to register gadget for UDC " +:+ udc +:+ " before bind: " +:+ display err) s1 fs1 Hm1) as (rm & ls & Hc).
    exists {| at_speed := speed; at_register := Some (display err); at_partial := part; at_net_os := None;
              at_bind := None; at_remove := rm; at_dropped := false; at_list := ls |}. split; [done|].
    unfold build_on_udc_once. cbn [at_speed]. rewrite Ed, Hreg by done. by apply Hc.
Qed.

(** Removing gadgets one after the other. *)
Lemma remove_each root gs res s fs :
  usb_gadget_dir = Ok root -> Forall (fun g => rg_dir g = sub root (name_of g)) gs -> dirs_match (c_fs s) fs ->
  match each_last_error remove_gadget gs res s with
  | (Ok _, s') => res = Ok tt /\ dirs_match (c_fs s') (fs ∖ list_to_set (name_of <$> gs))
  | (Err _, s') => exists removed, dirs_match (c_fs s') (fs ∖ removed)
  end.
Proof.
  intros Hroot Hgs. revert res s fs. induction Hgs as [|g gs Hg _ IH]; intros res s fs Hm; cbn [each_last_error].
  - unfold lift. destruct res as [[]|e]; [split; [done|]|exists ∅]; by replace (fs ∖ _) with fs by set_solver.
  - rewrite bind_attempt. pose proof (remove_refines g root (name_of g) s fs Hroot Hg Hm) as Hr.
    destruct (remove_gadget g s) as [[[]|e] s1]; cbn [fst snd].
    + specialize (IH res s1 _ Hr). destruct (each_last_error remove_gadget gs res s1) as [[[]|e] s'].
      * destruct IH as [-> Hd]. split; [done|]. cbn. by rewrite <- difference_difference_l_L.
      * destruct IH as [rm Hd]. exists ({[name_of g]} ∪ rm). by rewrite <- difference_difference_l_L.
    + assert (exists rm, dirs_match (c_fs s1) (fs ∖ rm)) as [rm Hm1].
      { destruct Hr as [Hk|[_ Hk]]; [exists ∅; by rewrite difference_empty_L|by eexists]. }
      specialize (IH (Err e) s1 _ Hm1). destruct (each_last_error remove_gadget gs (Err e) s1) as [[[]|e'] s'].
      * by destruct IH.
      * destruct IH as [rm' Hd]. exists (rm ∪ rm'). by rewrite <- difference_difference_l_L.
Qed.

(** Resetting configfs at startup: the manager's reset describes it. *)
Lemma reset_simulates s fs :
  dirs_match (c_fs s) fs ->
  exists removed,
    match reset_gadgets ((remove_all usb_gadget_dir s).1, removed) fs with
    | Ok fs' => dirs_match (c_fs (remove_all usb_gadget_dir s).2) fs'
    | Err e => (remove_all usb_gadget_dir s).1 = Err e
    end.
Proof.
  intros Hm. unfold remove_all. unfold bind. pose proof (registered_spec s) as Hg.
  destruct (registered usb_gadget_dir s) as [[gs|e] s1].
  - destruct Hg as (-> & root & Hroot & Hg).
    assert (Forall (fun g => rg_dir g = sub root (name_of g)) gs) as Hgs.
    { apply list.Forall_forall. intros g (n & _ & ->)%Hg. by rewrite (name_of_sub _ root n). }
    pose proof (remove_each root gs (Ok tt) s fs Hroot Hgs Hm) as Hr.
    destruct (each_last_error remove_gadget gs (Ok tt) s) as [[[]|e] s']; cbn.
    + exists ∅. destruct Hr as [_ Hr]. replace ∅ with (fs ∖ list_to_set (name_of <$> gs)); [done|].
      apply set_eq. intros n. unfold dirs_match in Hm. rewrite Hroot in Hm. rewrite elem_of_difference, Hm, elem_of_list_to_set.
      split; [|set_solver]. intros [Hk Hn]. destruct Hn. apply list_elem_of_fmap. eexists. split; [|by apply Hg; exists n].
      by rewrite (name_of_sub _ root n).
    + destruct Hr as [rm Hd]. exists rm. by case_bool_decide.
  - subst s1. exists ∅. cbn. case_bool_decide; [|done]. by rewrite difference_empty_L.
Qed.

Lemma build_simulates cfg udc speed1 speed2 base1 base2 s fs :
  dirs_match (c_fs s) fs ->
  exists a1 a2, at_speed a1 = speed1 /\ at_speed a2 = speed2 /\
    agree (build_on_fs cfg udc speed1 speed2 base1 base2 s) (build_on_udc env dir_text cfg udc a1 a2 fs).
Proof.
  intros Hm. unfold fs_build_on_udc, build_on_udc.
  destruct (build_once_refines cfg udc speed1 base1 s fs Hm) as (a1 & Hs1 & [Hr1 Hm1 Hg1]).
  destruct (once_on_fs cfg udc speed1 base1 s) as [r1 s1].
  destruct (build_on_udc_once env dir_text cfg udc a1 fs) as [r1' fs1] eqn:E1. cbn [fst snd] in *. subst r1'.
  destruct r1 as [running|err]; cbn [running_of] in E1.
  { exists a1, (some_attempt speed2). split_and!; [done..|]. rewrite E1. by split. }
  destruct (config_without_dfu cfg err) as [filtered|] eqn:Ef.
  - destruct (build_once_refines filtered udc speed2 base2 s1 fs1 Hm1) as (a2 & Hs2 & [Hr2 Hm2 Hg2]).
    exists a1, a2. split_and!; [done..|]. rewrite E1, Ef.
    destruct (once_on_fs filtered udc speed2 base2 s1) as [r2 s2].
    destruct (build_on_udc_once env dir_text filtered udc a2 fs1) as [r2' fs2]. cbn [fst snd] in *. subst r2'.
    by destruct r2 as [running|e]; split; [..|].
  - exists a1, (some_attempt speed2). split_and!; [done..|]. rewrite E1, Ef. by apply agree_err.
Qed.

(** C22. Building a gadget on configfs implements the manager's description of it: whatever
    the kernel answers to the writes, directory creations and links, there is a script of
    answers for [build_on_udc] (the manager's view, a set of gadget directories) with the
    same result, the same error text included, and with the gadget directories of configfs
    afterwards. *)
Theorem build_on_udc_refines cfg udc speed1 speed2 base1 base2 s fs :
  dirs_match (c_fs s) fs ->
  exists a1 a2, at_speed a1 = speed1 /\ at_speed a2 = speed2 /\
    agree (build_on_fs cfg udc speed1 speed2 base1 base2 s) (build_on_udc env dir_text cfg udc a1 a2 fs).
Proof. apply build_simulates. Qed.
End Refinement.

(** ** A run of the whole stack *)

Section Witness.
#[local] Existing Instance simple_configfs.
#[local] Existing Instance simple_ffs.
#[local] Existing Instance simple_laws.
#[local] Existing Instance simple_listing.
#[local] Existing Instance GadgetDemo.mac.

Definition show_error (e : io_error) : string := match e with Os _ => "os error" | Custom _ msg => msg end.

Abbreviation stack_run := (fs_build_on_udc imx8mp_env (fun m => m) (fun _ => false) (fun _ l => l) None
  (Ok ["usb_gadget"]) show_error (GadgetDemo.gadget [GadgetDemo.dfu; GadgetDemo.acm]) GadgetDemo.udc
  (Some Gadget.HighSpeed) None 0 10 empty_configfs).

Lemma empty_dirs : dirs_match (Ok ["usb_gadget"]) (c_fs empty_configfs) ∅.
Proof.
  intros n. split; [set_solver|]. unfold at_, sub. cbn. rewrite lookup_insert_ne by done. by rewrite lookup_singleton_ne.
Qed.

Lemma build_on_udc_refines_witness :
  exists a1 a2, at_speed a1 = Some Gadget.HighSpeed /\ at_speed a2 = None /\
    agree (Ok ["usb_gadget"]) stack_run
      (build_on_udc imx8mp_env "/usb_gadget" (GadgetDemo.gadget [GadgetDemo.dfu; GadgetDemo.acm]) GadgetDemo.udc a1 a2 ∅).
Proof.
  exact (build_on_udc_refines imx8mp_env (fun m => m) (fun _ => false) (fun _ l => l) None (Ok ["usb_gadget"]) show_error
    (GadgetDemo.gadget [GadgetDemo.dfu; GadgetDemo.acm]) GadgetDemo.udc (Some Gadget.HighSpeed) None 0 10
    empty_configfs ∅ empty_dirs).
Defined.

(** The gadget is bound, its DFU function has written its descriptors, and its
    directory is the only one. *)
Example stack_runs :
  match stack_run with
  | (Ok _, s) => (match list.last (c_log s) with Some l => bool_decide (l = (["usb_gadget"; GadgetDemo.udc; "UDC"], bs GadgetDemo.udc)) | None => false end,
                  length (ff_ep0 (files_of 0 (c_ffs s))), state (dir_of s 0), state (dir_of s 1))
  | (Err _, _) => (false, 0%nat, Unregistered, Unregistered)
  end = (true, 2%nat, Bound, Bound).
Proof. vm_compute. reflexivity. Qed.
End Witness.
