(* ===== verification/CliConfig.v ===== *)
(** * The configuration files of the command line tool

    Models patches/usb-gadget/src/bin/usb-gadget/config.rs and build.rs: the types
    a TOML file is read into, and the gadget with its functions that is built of
    them. The TOML parser is not modelled; what it yields is the input here. *)

From stdpp Require Import gmap.
From S2P Require Import Prelude Io Bytes SysInfo UsbConfig Gadget GadgetProps Language FfsBuild ConfigFs Functions GadgetFs GadgetStack.

(** ** Failures *)

(** An error is reported to the caller; a panic ends the process. *)
Inductive Failure := Fail (e : io_error) | Panic.

Abbreviation cli A := (result A Failure).

Definition invalid {A} (msg : string) : cli A := Err (Fail (Custom KInvalidInput msg)).

Definition of_io {A} (r : io_result A) : cli A := map_err Fail r.

(** ** Types (config.rs) *)

(** The fields shared with the daemon's configuration are of its types; the
    network function has no OS descriptor here. *)
Record CNetConfig := {
  cn_class : string;
  cn_dev_addr : option string;
  cn_host_addr : option string;
  cn_qmult : option Z;
  cn_interface_class : option Z;
  cn_interface_sub_class : option Z;
  cn_interface_protocol : option Z;
}.

Record HidConfig := {
  hc_sub_class : option Z;
  hc_protocol : option Z;
  hc_report_desc : option string;
  hc_report_len : option Z;
  hc_no_out_endpoint : option bool;
}.

Record ChannelConfig := {
  cc_channel_mask : option Z;
  cc_sample_rate : option Z;
  cc_sample_size : option Z;
}.

Record Uac2EndpointConfig := {
  e2_channel : option ChannelConfig;
  e2_sync_type : option Z;
  e2_hs_interval : option Z;
  e2_mute_present : option bool;
  e2_terminal_type : option Z;
  e2_volume_present : option bool;
  e2_volume_min : option Z;
  e2_volume_max : option Z;
  e2_volume_resolution : option Z;
  e2_volume_name : option string;
  e2_input_terminal_name : option string;
  e2_input_terminal_channel_name : option string;
  e2_output_terminal_name : option string;
}.

Record Uac2FnConfig := {
  c2_capture : option Uac2EndpointConfig;
  c2_playback : option Uac2EndpointConfig;
  c2_fb_max : option Z;
  c2_request_number : option Z;
  c2_function_name : option string;
  c2_control_name : option string;
  c2_clock_source_in_name : option string;
  c2_clock_source_out_name : option string;
}.

Record Uac1EndpointConfig := {
  e1_channel : option ChannelConfig;
  e1_mute_present : option bool;
  e1_volume_present : option bool;
  e1_volume_min : option Z;
  e1_volume_max : option Z;
  e1_volume_resolution : option Z;
  e1_volume_name : option string;
  e1_input_terminal_name : option string;
  e1_input_terminal_channel_name : option string;
  e1_output_terminal_name : option string;
}.

Record Uac1FnConfig := {
  c1_capture : option Uac1EndpointConfig;
  c1_playback : option Uac1EndpointConfig;
  c1_request_number : option Z;
  c1_function_name : option string;
}.

Record MidiConfig := {
  mi_buflen : option Z;
  mi_id : option string;
  mi_in_ports : option Z;
  mi_out_ports : option Z;
  mi_index : option Z;
  mi_qlen : option Z;
}.

Record PrinterConfig := { pr_pnp_string : option string; pr_qlen : option Z }.

Record LoopbackConfig := { lb_qlen : option Z; lb_bulk_buflen : option Z }.

Record SourceSinkConfig := {
  so_pattern : option Z;
  so_isoc_interval : option Z;
  so_isoc_maxpacket : option Z;
  so_isoc_mult : option Z;
  so_isoc_maxburst : option Z;
  so_bulk_buflen : option Z;
  so_bulk_qlen : option Z;
  so_iso_qlen : option Z;
}.

Record ColorMatchingConfig := {
  co_color_primaries : option Z;
  co_transfer_characteristics : option Z;
  co_matrix_coefficients : option Z;
}.

Record FrameConfig := {
  fc_width : Z;
  fc_height : Z;
  fc_format : string;
  fc_fps : option (list Z);
  fc_intervals : option (list Z);
  fc_color_matching : option ColorMatchingConfig;
}.

Record VideoConfig := {
  vc_streaming_interval : option Z;
  vc_streaming_max_burst : option Z;
  vc_streaming_max_packet : option Z;
  vc_function_name : option string;
  vc_processing_controls : option Z;
  vc_camera_controls : option Z;
  vc_frame : option (list FrameConfig);
}.

(** The properties are in the order their map yields them. *)
Record OtherConfig := { ox_driver : string; ox_properties : option (list (string * string)) }.

Inductive CFunctionConfig :=
| CSerial (c : SerialConfig)
| CHid (c : HidConfig)
| CNet (c : CNetConfig)
| CUac2 (c : Uac2FnConfig)
| CUac1 (c : Uac1FnConfig)
| CMidi (c : MidiConfig)
| CMsd (c : MsdConfig)
| CPrinter (c : PrinterConfig)
| CLoopback (c : LoopbackConfig)
| CSourceSink (c : SourceSinkConfig)
| CVideo (c : VideoConfig)
| COther (c : OtherConfig).

Record CDeviceConfig := {
  cd_vendor : Z;
  cd_product : Z;
  cd_class : option Z;
  cd_sub_class : option Z;
  cd_protocol : option Z;
  cd_manufacturer : option string;
  cd_product_name : option string;
  cd_serial : option string;
  cd_language : option string;
  cd_max_packet_size0 : option Z;
  cd_device_release : option Z;
  cd_usb_version : option string;
  cd_max_speed : option string;
}.

Record COsDescriptorConfig := { cos_vendor_code : Z; cos_qw_sign : string; cos_config : option nat }.

Record WebUsbConfig := { cw_vendor_code : Z; cw_landing_page : string; cw_version : option string }.

Record CUsbConfigConfig := {
  cu_description : option string;
  cu_max_power : option Z;
  cu_self_powered : option bool;
  cu_remote_wakeup : option bool;
  cu_function : list CFunctionConfig;
}.

Record CGadgetConfig := {
  cg_name : option string;
  cg_udc : option string;
  cg_device : CDeviceConfig;
  cg_os_descriptor : option COsDescriptorConfig;
  cg_web_usb : option WebUsbConfig;
  cg_config : list CUsbConfigConfig;
}.

(** ** Parsing helpers (build.rs) *)

(** [str::to_lowercase], as far as the result is compared with an ASCII name: of
    the other characters only the Kelvin sign has an ASCII letter as its lower
    case. *)
Fixpoint to_lowercase (l : list byte) : list byte :=
  match l with
  | Byte.xe2 :: Byte.x84 :: Byte.xaa :: l => Byte.x6b :: to_lowercase l
  | b :: l => to_ascii_lowercase b :: to_lowercase l
  | [] => []
  end.

(** The text of a [ParseIntError]: the first character that fails decides. *)
Fixpoint digits_error (radix mx acc : Z) (l : list byte) : string :=
  match l with
  | [] => EmptyString
  | b :: l =>
      match to_digit radix b with
      | None => "invalid digit found in string"
      | Some d =>
          if acc * radix + d <=? mx then digits_error radix mx (acc * radix + d) l
          else "number too large to fit in target type"
      end
  end.

Definition parse_int_error (radix mx : Z) (l : list byte) : string :=
  match l with
  | [] => "cannot parse integer from empty string"
  | [Byte.x2b] => "invalid digit found in string"
  | Byte.x2b :: rest => digits_error radix mx 0 rest
  | _ => digits_error radix mx 0 l
  end.

Definition parse_int (what : string) (radix mx : Z) (l : list byte) : cli Z :=
  match from_str_radix radix mx l with
  | Some v => Ok v
  | None => invalid (what +:+ ": " +:+ parse_int_error radix mx l)
  end.

Definition strip_bytes (p l : list byte) : option (list byte) :=
  if starts_with p l then Some (drop (length p) l) else None.

(** The language names, by their lower case. *)
Definition language_of_name (s : string) : option Language :=
  if bool_decide (s = "en-us") || bool_decide (s = "english") then Some EnglishUnitedStates
  else if bool_decide (s = "en-gb") then Some EnglishUnitedKingdom
  else if bool_decide (s = "de") || bool_decide (s = "german") then Some GermanStandard
  else if bool_decide (s = "fr") || bool_decide (s = "french") then Some FrenchStandard
  else if bool_decide (s = "es") || bool_decide (s = "spanish") then Some SpanishTraditionalSort
  else if bool_decide (s = "it") || bool_decide (s = "italian") then Some ItalianStandard
  else if bool_decide (s = "ja") || bool_decide (s = "japanese") then Some Japanese
  else if bool_decide (s = "ko") || bool_decide (s = "korean") then Some Korean
  else if bool_decide (s = "zh") || bool_decide (s = "chinese") then Some ChinesePRC
  else if bool_decide (s = "pt") || bool_decide (s = "portuguese") then Some PortugueseBrazil
  else if bool_decide (s = "ru") || bool_decide (s = "russian") then Some Russian
  else if bool_decide (s = "nl") || bool_decide (s = "dutch") then Some DutchNetherlands
  else None.

Definition parse_language (s : string) : cli Language :=
  match language_of_name (str_of_bytes (to_lowercase (bs s))) with
  | Some l => Ok l
  | None =>
      match strip_bytes (bs "0x") (bs s) with
      | Some hex => let? code := parse_int "bad language code" 16 u16_max hex in Ok (Language.Other code)
      | None => invalid ("unknown language: " +:+ s)
      end
  end.

Definition parse_hex_u16 (s : string) : cli Z :=
  match strip_bytes (bs "0x") (bs s) with
  | Some hex => parse_int "bad hex value" 16 u16_max hex
  | None => parse_int "bad value" 10 u16_max (bs s)
  end.

Definition parse_usb_version (s : string) : cli LUsbVersion :=
  if bool_decide (s = "1.1") then Ok LV11
  else if bool_decide (s = "2.0") then Ok LV20
  else if bool_decide (s = "2.1") then Ok LV21
  else if bool_decide (s = "3.0") then Ok LV30
  else if bool_decide (s = "3.1") then Ok LV31
  else let? v := parse_hex_u16 s in Ok (LVOther v).

Definition parse_speed (s : string) : cli LSpeed :=
  if bool_decide (s = "low-speed") || bool_decide (s = "low") then Ok LLow
  else if bool_decide (s = "full-speed") || bool_decide (s = "full") then Ok LFull
  else if bool_decide (s = "high-speed") || bool_decide (s = "high") then Ok LHigh
  else if bool_decide (s = "super-speed") || bool_decide (s = "super") then Ok LSuper
  else if bool_decide (s = "super-speed-plus") || bool_decide (s = "super-plus") then Ok LSuperPlus
  else invalid ("unknown speed: " +:+ s).

Definition parse_video_format (s : string) : cli Format :=
  let t := str_of_bytes (to_lowercase (bs s)) in
  if bool_decide (t = "yuyv") then Ok Yuyv
  else if bool_decide (t = "mjpeg") then Ok Mjpeg
  else if bool_decide (t = "nv12") then Ok nv12
  else if bool_decide (t = "h264") then Ok h264
  else invalid ("unknown video format: " +:+ s).

(** Where a string may be cut: not before a continuation byte. *)
Definition is_boundary (rest : list byte) : bool :=
  match rest with b :: _ => negb (is_cont b) | [] => true end.

(** Two bytes at a time; cutting a character in two is a panic. The length is
    even and the first cut is at the start. *)
Fixpoint hex_pairs (l : list byte) : cli (list byte) :=
  match l with
  | a :: b :: rest =>
      if is_boundary rest then
        let? v := parse_int "bad hex byte" 16 u8_max [a; b] in
        let? vs := hex_pairs rest in
        Ok (z2b v :: vs)
      else Err Panic
  | _ => Ok []
  end.

Definition parse_hex_bytes (s : string) : cli (list byte) :=
  let l := default (bs s) (strip_bytes (bs "0x") (bs s)) in
  if Nat.odd (length l) then invalid "hex string must have even length"
  else hex_pairs l.

(** ** Functions (build.rs) *)

Definition cli_build_serial (c : SerialConfig) : cli Func :=
  let? class :=
    (if bool_decide (sc_class c = "acm") then Ok Acm
     else if bool_decide (sc_class c = "generic") then Ok Generic
     else invalid ("unknown serial class: " +:+ sc_class c)) in
  Ok (FnSerial class (sc_console c)).

Definition build_hid (c : HidConfig) : cli Func :=
  let b := hid_builder in
  let? report_desc := match hc_report_desc c with
                      | Some hex => parse_hex_bytes hex
                      | None => Ok (hid_report_desc b)
                      end in
  Ok (FnHid {| hid_sub_class := default (hid_sub_class b) (hc_sub_class c);
               hid_protocol := default (hid_protocol b) (hc_protocol c);
               hid_report_desc := report_desc;
               hid_report_len := default (hid_report_len b) (hc_report_len c);
               hid_no_out_endpoint := default (hid_no_out_endpoint b) (hc_no_out_endpoint c) |}).

Definition cli_net_class (s : string) : cli NetClass :=
  if bool_decide (s = "ecm") then Ok Ecm
  else if bool_decide (s = "ecm_subset") then Ok EcmSubset
  else if bool_decide (s = "eem") then Ok Eem
  else if bool_decide (s = "ncm") then Ok Ncm
  else if bool_decide (s = "rndis") then Ok Rndis
  else invalid ("unknown net class: " +:+ s).

Definition cli_addr `{MacParser} (what : string) (a : option string) : cli (option (list byte)) :=
  match a with
  | None => Ok None
  | Some s =>
      match parse_mac s with
      | Ok m => Ok (Some m)
      | Err e => invalid ("bad " +:+ what +:+ ": " +:+ e)
      end
  end.

Definition cli_build_net `{MacParser} (c : CNetConfig) : cli Func :=
  let? class := cli_net_class (cn_class c) in
  let? dev := cli_addr "dev_addr" (cn_dev_addr c) in
  let? host := cli_addr "host_addr" (cn_host_addr c) in
  Ok (FnNet {|
    net_class := class; net_dev_addr := dev; net_host_addr := host; net_qmult := cn_qmult c;
    net_interface_class :=
      if isSome (cn_interface_class c) || isSome (cn_interface_sub_class c) || isSome (cn_interface_protocol c)
      then Some {| cls_class := default 0 (cn_interface_class c);
                   cls_sub_class := default 0 (cn_interface_sub_class c);
                   cls_protocol := default 0 (cn_interface_protocol c) |}
      else None |}).

Definition channel_default : Channel :=
  {| ch_channel_mask := None; ch_sample_rate := None; ch_sample_size := None |}.

Definition apply_channel (ch : option ChannelConfig) : Channel :=
  match ch with
  | Some c => {| ch_channel_mask := cc_channel_mask c; ch_sample_rate := cc_sample_rate c;
                 ch_sample_size := cc_sample_size c |}
  | None => channel_default
  end.

Definition uac2_config_default : Uac2Config := {|
  u2_channel := channel_default; u2_sync_type := None; u2_hs_interval := None; u2_mute_present := None;
  u2_terminal_type := None; u2_volume_present := None; u2_volume_min := None; u2_volume_max := None;
  u2_volume_resolution := None; u2_volume_name := None; u2_input_terminal_name := None;
  u2_input_terminal_channel_name := None; u2_output_terminal_name := None |}.

(** What [build_uac2] sets of one direction. *)
Definition uac2_endpoint (c : option Uac2EndpointConfig) : Uac2Config :=
  match c with
  | None => uac2_config_default
  | Some c => {|
      u2_channel := apply_channel (e2_channel c); u2_sync_type := e2_sync_type c;
      u2_hs_interval := e2_hs_interval c; u2_mute_present := e2_mute_present c;
      u2_terminal_type := e2_terminal_type c; u2_volume_present := e2_volume_present c;
      u2_volume_min := e2_volume_min c; u2_volume_max := e2_volume_max c;
      u2_volume_resolution := e2_volume_resolution c; u2_volume_name := bs <$> e2_volume_name c;
      u2_input_terminal_name := bs <$> e2_input_terminal_name c;
      u2_input_terminal_channel_name := bs <$> e2_input_terminal_channel_name c;
      u2_output_terminal_name := bs <$> e2_output_terminal_name c |}
  end.

Definition build_uac2 (c : Uac2FnConfig) : cli Func :=
  Ok (FnUac2 {|
    u2_capture := uac2_endpoint (c2_capture c); u2_playback := uac2_endpoint (c2_playback c);
    u2_fb_max := c2_fb_max c; u2_request_number := c2_request_number c;
    u2_function_name := bs <$> c2_function_name c; u2_control_name := bs <$> c2_control_name c;
    u2_clock_source_in_name := bs <$> c2_clock_source_in_name c;
    u2_clock_source_out_name := bs <$> c2_clock_source_out_name c |}).

Definition uac1_config_default : Uac1Config := {|
  u1_channel := channel_default; u1_mute_present := None; u1_volume_present := None; u1_volume_min := None;
  u1_volume_max := None; u1_volume_resolution := None; u1_volume_name := None;
  u1_input_terminal_name := None; u1_input_terminal_channel_name := None; u1_output_terminal_name := None |}.

(** What [build_uac1] sets of one direction. *)
Definition uac1_endpoint (c : option Uac1EndpointConfig) : Uac1Config :=
  match c with
  | None => uac1_config_default
  | Some c => {|
      u1_channel := apply_channel (e1_channel c); u1_mute_present := e1_mute_present c;
      u1_volume_present := e1_volume_present c; u1_volume_min := e1_volume_min c;
      u1_volume_max := e1_volume_max c; u1_volume_resolution := e1_volume_resolution c;
      u1_volume_name := bs <$> e1_volume_name c;
      u1_input_terminal_name := bs <$> e1_input_terminal_name c;
      u1_input_terminal_channel_name := bs <$> e1_input_terminal_channel_name c;
      u1_output_terminal_name := bs <$> e1_output_terminal_name c |}
  end.

Definition build_uac1 (c : Uac1FnConfig) : cli Func :=
  Ok (FnUac1 {|
    u1_capture := uac1_endpoint (c1_capture c); u1_playback := uac1_endpoint (c1_playback c);
    u1_request_number := c1_request_number c; u1_function_name := bs <$> c1_function_name c |}).

Definition build_midi (c : MidiConfig) : cli Func :=
  Ok (FnMidi {| midi_buflen := mi_buflen c; midi_id := bs <$> mi_id c; midi_in_ports := mi_in_ports c;
                midi_out_ports := mi_out_ports c; midi_index := mi_index c; midi_qlen := mi_qlen c |}).

Definition cli_build_lun (c : LunConfig) : cli Lun :=
  let? lun := match lc_file c with
              | Some file => map_err (fun msg => Fail (Custom KInvalidInput msg)) (lun_new file)
              | None => Ok lun_default
              end in
  Ok {| lun_file := lun_file lun;
        lun_read_only := default (lun_read_only lun) (lc_read_only c);
        lun_cdrom := default (lun_cdrom lun) (lc_cdrom c);
        lun_no_fua := default (lun_no_fua lun) (lc_no_fua c);
        lun_removable := default (lun_removable lun) (lc_removable c);
        lun_inquiry_string := default (lun_inquiry_string lun) (lc_inquiry_string c) |}.

(** A loop that pushes what it builds. *)
Fixpoint collect_each {A B} (f : A -> cli B) (l : list A) : cli (list B) :=
  match l with
  | [] => Ok []
  | x :: l => let? y := f x in let? ys := collect_each f l in Ok (y :: ys)
  end.

Definition cli_build_msd (c : MsdConfig) : cli Func :=
  let? luns := collect_each cli_build_lun (mc_lun c) in Ok (FnMsd (mc_stall c) luns).

Definition build_printer (c : PrinterConfig) : cli Func :=
  Ok (FnPrinter {| printer_pnp_string := bs <$> pr_pnp_string c; printer_qlen := pr_qlen c |}).

Definition build_loopback (c : LoopbackConfig) : cli Func :=
  Ok (FnLoopback {| loopback_qlen := lb_qlen c; loopback_bulk_buflen := lb_bulk_buflen c |}).

Definition build_source_sink (c : SourceSinkConfig) : cli Func :=
  Ok (FnSourceSink {|
    ss_pattern := so_pattern c; ss_isoc_interval := so_isoc_interval c;
    ss_isoc_maxpacket := so_isoc_maxpacket c; ss_isoc_mult := so_isoc_mult c;
    ss_isoc_maxburst := so_isoc_maxburst c; ss_bulk_buflen := so_bulk_buflen c;
    ss_bulk_qlen := so_bulk_qlen c; ss_iso_qlen := so_iso_qlen c |}).

Definition color_matching_default : ColorMatching :=
  {| cm_color_primaries := 0; cm_transfer_characteristics := 0; cm_matrix_coefficients := 0 |}.

Definition build_color (c : ColorMatchingConfig) : ColorMatching :=
  let d := color_matching_default in
  {| cm_color_primaries := default (cm_color_primaries d) (co_color_primaries c);
     cm_transfer_characteristics := default (cm_transfer_characteristics d) (co_transfer_characteristics c);
     cm_matrix_coefficients := default (cm_matrix_coefficients d) (co_matrix_coefficients c) |}.

Definition build_frame (f : FrameConfig) : cli UvcFrame :=
  let? format := parse_video_format (fc_format f) in
  let fps := match fc_fps f with Some fps => fps | None => [30] end in
  let frame := frame_into {| fr_width := fc_width f; fr_height := fc_height f; fr_format := format; fr_fps := fps |} in
  Ok {| uf_width := uf_width frame; uf_height := uf_height frame;
        uf_intervals := default (uf_intervals frame) (fc_intervals f);
        uf_color_matching := match fc_color_matching f with
                             | Some cm => Some (build_color cm)
                             | None => uf_color_matching frame
                             end;
        uf_format := uf_format frame |}.

Definition build_video (c : VideoConfig) : cli Func :=
  let? frames := collect_each build_frame (default [] (vc_frame c)) in
  Ok (FnUvc {|
    uv_streaming_interval := vc_streaming_interval c; uv_streaming_max_burst := vc_streaming_max_burst c;
    uv_streaming_max_packet := vc_streaming_max_packet c; uv_function_name := bs <$> vc_function_name c;
    uv_frames := frames; uv_processing_controls := vc_processing_controls c;
    uv_camera_controls := vc_camera_controls c |}).

Fixpoint set_properties (props : list (string * string)) (b : OtherBuilder) : io_result OtherBuilder :=
  match props with
  | [] => Ok b
  | (key, value) :: props => let? b := other_set (bs key) (bs value) b in set_properties props b
  end.

Definition build_other (c : OtherConfig) : cli Func :=
  of_io (let? b := other_builder (bs (ox_driver c)) in
         let? b := set_properties (default [] (ox_properties c)) b in
         Ok (FnOther b)).

Definition cli_build_function `{MacParser} (cfg : CFunctionConfig) : cli Func :=
  match cfg with
  | CSerial c => cli_build_serial c
  | CHid c => build_hid c
  | CNet c => cli_build_net c
  | CUac2 c => build_uac2 c
  | CUac1 c => build_uac1 c
  | CMidi c => build_midi c
  | CMsd c => cli_build_msd c
  | CPrinter c => build_printer c
  | CLoopback c => build_loopback c
  | CSourceSink c => build_source_sink c
  | CVideo c => build_video c
  | COther c => build_other c
  end.

(** ** The gadget (build.rs) *)

Definition build_device (d : CDeviceConfig) : cli LGadget :=
  let class := {| cls_class := default 0 (cd_class d); cls_sub_class := default 0 (cd_sub_class d);
                  cls_protocol := default 0 (cd_protocol d) |} in
  let? lang := parse_language (default "en-us" (cd_language d)) in
  let strings := {| ls_manufacturer := bs (default EmptyString (cd_manufacturer d));
                    ls_product := bs (default EmptyString (cd_product_name d));
                    ls_serial_number := bs (default EmptyString (cd_serial d)) |} in
  let g := lgadget_new class (cd_vendor d, cd_product d) strings in
  let? version := match cd_usb_version d with Some v => parse_usb_version v | None => Ok (lg_usb_version g) end in
  let? speed := match cd_max_speed d with
                | Some v => let? s := parse_speed v in Ok (Some s)
                | None => Ok (lg_max_speed g)
                end in
  Ok {| lg_name := lg_name g; lg_device_class := lg_device_class g; lg_id := lg_id g;
        lg_strings := match lang with
                      | EnglishUnitedStates => lg_strings g
                      | _ => [(language_code lang, strings)]
                      end;
        lg_max_packet_size0 := default (lg_max_packet_size0 g) (cd_max_packet_size0 d);
        lg_device_release := default (lg_device_release g) (cd_device_release d);
        lg_usb_version := version; lg_max_speed := speed;
        lg_os_descriptor := lg_os_descriptor g; lg_web_usb := lg_web_usb g; lg_configs := lg_configs g |}.

Definition cli_os_descriptor (o : COsDescriptorConfig) : LOsDescriptor :=
  {| lo_vendor_code := cos_vendor_code o; lo_qw_sign := bs (cos_qw_sign o); lo_config := default 0%nat (cos_config o) |}.

Definition build_web_usb (w : WebUsbConfig) : cli WebUsb :=
  let? version := match cw_version w with
                  | None => Ok WV10
                  | Some v => if bool_decide (v = "1.0") then Ok WV10
                              else let? v := parse_hex_u16 v in Ok (WOther v)
                  end in
  Ok {| wu_version := version; wu_vendor_code := cw_vendor_code w; wu_landing_page := bs (cw_landing_page w) |}.

(** Each function gets an identity of its own, counted from [base]. *)
Fixpoint cli_configs `{MacParser} (base : nat) (cs : list CUsbConfigConfig) : cli (list LConfig) :=
  match cs with
  | [] => Ok []
  | u :: cs =>
      let c := lconfig_new (bs (default EmptyString (cu_description u))) in
      let? functions := collect_each cli_build_function (cu_function u) in
      let? rest := cli_configs (base + length functions) cs in
      Ok ({| lc_max_power := default (lc_max_power c) (cu_max_power u);
             lc_self_powered := default (lc_self_powered c) (cu_self_powered u);
             lc_remote_wakeup := default (lc_remote_wakeup c) (cu_remote_wakeup u);
             lc_description := lc_description c;
             lc_functions := imap (fun i f => {| h_id := base + i; h_func := f |}) functions |} :: rest)
  end.

Definition build_gadget `{MacParser} (base : nat) (cfg : CGadgetConfig) : cli (LGadget * option string) :=
  let? g := build_device (cg_device cfg) in
  let? web := match cg_web_usb cfg with
              | Some w => let? w := build_web_usb w in Ok (Some w)
              | None => Ok (lg_web_usb g)
              end in
  match cg_config cfg with
  | [] => invalid "at least one [[config]] is required"
  | cs =>
    let? configs := cli_configs base cs in
    Ok ({| lg_name := lg_name g; lg_device_class := lg_device_class g; lg_id := lg_id g;
           lg_strings := lg_strings g; lg_max_packet_size0 := lg_max_packet_size0 g;
           lg_device_release := lg_device_release g; lg_usb_version := lg_usb_version g;
           lg_max_speed := lg_max_speed g;
           lg_os_descriptor := cli_os_descriptor <$> cg_os_descriptor cfg;
           lg_web_usb := web; lg_configs := configs |}, cg_name cfg)
  end.

(** ** Properties *)

(** *** Report descriptors *)

Definition pair_of (b : byte) : byte * byte :=
  (hex_digit_lower (b2z b / 16 mod 16), hex_digit_lower (b2z b mod 16)).

Lemma fmt_byte_pair b : fmt_byte_lower b = [(pair_of b).1; (pair_of b).2].
Proof. reflexivity. Qed.

Lemma pair_parses b :
  from_str_radix 16 u8_max [(pair_of b).1; (pair_of b).2] = Some (b2z b) /\ is_cont (pair_of b).1 = false /\ (pair_of b).2 <> Byte.x78.
Proof. by destruct b. Qed.

Lemma hex_pairs_fmt l : hex_pairs (l ≫= fmt_byte_lower) = Ok l.
Proof.
  induction l as [|b l IH]; [done|]. rewrite bind_cons, fmt_byte_pair. cbn [app hex_pairs].
  replace (is_boundary (l ≫= fmt_byte_lower)) with true.
  - unfold parse_int. destruct (pair_parses b) as [-> _]. cbn [rbind]. rewrite IH. cbn [rbind]. by rewrite z2b_b2z.
  - destruct l as [|c l]; [done|]. rewrite bind_cons, fmt_byte_pair. cbn [app is_boundary].
    by destruct (pair_parses c) as (_ & -> & _).
Qed.

Lemma fmt_bytes_even l : Nat.odd (length (l ≫= fmt_byte_lower)) = false.
Proof. induction l as [|b l IH]; [done|]. rewrite bind_cons, length_app. exact IH. Qed.

Lemma fmt_bytes_no_prefix l : strip_bytes (bs "0x") (l ≫= fmt_byte_lower) = None.
Proof.
  destruct l as [|b l]; [done|]. rewrite bind_cons, fmt_byte_pair. unfold strip_bytes. cbn [app].
  destruct (pair_parses b) as (_ & _ & Hx). unfold starts_with. rewrite bool_decide_false; [done|].
  cbn. intros E. injection E as _ E. by apply Hx.
Qed.

Theorem hex_bytes_roundtrip (prefix : bool) l :
  parse_hex_bytes (str_of_bytes ((if prefix then bs "0x" else []) ++ (l ≫= fmt_byte_lower))) = Ok l.
Proof.
  unfold parse_hex_bytes. rewrite bs_str_of_bytes.
  assert (default ((if prefix then bs "0x" else []) ++ (l ≫= fmt_byte_lower))
    (strip_bytes (bs "0x") ((if prefix then bs "0x" else []) ++ (l ≫= fmt_byte_lower))) = l ≫= fmt_byte_lower) as ->.
  { destruct prefix; [reflexivity|]. rewrite app_nil_l. by rewrite fmt_bytes_no_prefix. }
  rewrite fmt_bytes_even. apply hex_pairs_fmt.
Qed.

(** A report descriptor that is not ASCII is not refused: the tool panics. And a
    sign is taken for a digit. *)
Example hex_bytes_panic : parse_hex_bytes (str_of_bytes [Byte.x30; Byte.xc3; Byte.xa9; Byte.x30]) = Err Panic.
Proof. reflexivity. Qed.

Example hex_bytes_sign : parse_hex_bytes "+f0a" = Ok [Byte.x0f; Byte.x0a].
Proof. reflexivity. Qed.

(** *** The daemon's builders *)

(** A function the tool and the daemon both know, described for the tool. *)
Definition shared_function (f : FunctionConfig) : option CFunctionConfig :=
  match f with
  | FSerial c => Some (CSerial c)
  | FNet c =>
      if isSome (nc_os_compatible_id c) || isSome (nc_os_sub_compatible_id c) then None
      else Some (CNet {|
        cn_class := nc_class c; cn_dev_addr := nc_dev_addr c; cn_host_addr := nc_host_addr c;
        cn_qmult := nc_qmult c; cn_interface_class := nc_interface_class c;
        cn_interface_sub_class := nc_interface_sub_class c; cn_interface_protocol := nc_interface_protocol c |})
  | FMsd c => Some (CMsd c)
  | FPlugin _ => None
  end.

(** The daemon's answer as the tool's. *)
Definition as_cli (services : list GadgetService) (r : result (option Handle) string) : cli (option Func) :=
  match r with
  | Ok h => Ok (handle_func services <$> h)
  | Err e => invalid e
  end.

Lemma luns_agree l : collect_each cli_build_lun l = map_err (fun e => Fail (Custom KInvalidInput e)) (build_luns l).
Proof.
  induction l as [|c l IH]; [done|]. cbn [collect_each build_luns]. rewrite IH. unfold cli_build_lun, build_lun.
  destruct (lc_file c) as [f|]; [destruct (lun_new f); [|done]|]; cbn; by destruct (build_luns l).
Qed.

Lemma addr_agree `{MacParser} what a :
  cli_addr what a = map_err (fun e => Fail (Custom KInvalidInput e)) (parse_addr what a).
Proof. unfold cli_addr, parse_addr. destruct a as [s|]; [|done]. by destruct (parse_mac s). Qed.

Lemma net_class_agree s :
  cli_net_class s = map_err (fun e => Fail (Custom KInvalidInput e)) (parse_net_class s).
Proof. unfold cli_net_class, parse_net_class. by repeat case_bool_decide. Qed.

(** The command line tool and the daemon build the same function of the same serial,
    network (without OS descriptor) or mass-storage section, and refuse the same ones with
    the same message. *)
Theorem cli_daemon_functions_agree `{MacParser} env f cf ser o services :
  shared_function f = Some cf ->
  as_cli services (build_function env f ser o).1 = (let? g := cli_build_function cf in Ok (Some g)).
Proof.
  intros Hs. destruct f as [c|c|c|c]; cbn in Hs; [injection Hs as <-|..]; cbn [cli_build_function build_function].
  - unfold cli_build_serial, build_serial. by repeat case_bool_decide.
  - destruct (nc_os_compatible_id c) eqn:E1, (nc_os_sub_compatible_id c) eqn:E2; try discriminate Hs.
    injection Hs as <-. unfold cli_build_function, cli_build_net, build_net.
    cbn [cn_class cn_dev_addr cn_host_addr cn_qmult cn_interface_class cn_interface_sub_class cn_interface_protocol].
    rewrite net_class_agree, !addr_agree, E1, E2.
    destruct (parse_net_class (nc_class c)) as [class|]; [|done]. cbn [map_err rbind].
    destruct (parse_addr "dev_addr" _) as [dev|]; [|done]. cbn [map_err rbind].
    by destruct (parse_addr "host_addr" _).
  - injection Hs as <-. unfold cli_build_function, cli_build_msd, build_msd. rewrite luns_agree. by destruct (build_luns (mc_lun c)).
  - discriminate Hs.
Qed.

Section Witness.
#[local] Existing Instance GadgetDemo.mac.

Definition sample_serial : SerialConfig := {| sc_class := "serial"; sc_console := None |}.

(** A class nobody knows is refused by both. *)
Lemma cli_daemon_functions_agree_witness :
  as_cli [] (build_function imx8mp_env (FSerial sample_serial) EmptyString outputs_default).1 =
    invalid "unknown serial class: serial".
Proof.
  rewrite (cli_daemon_functions_agree imx8mp_env (FSerial sample_serial) (CSerial sample_serial) EmptyString
    outputs_default [] eq_refl).
  reflexivity.
Defined.
End Witness.
