(* ===== verification/Udc.v ===== *)
(** * USB device controllers

    Models patches/usb-gadget/src/udc.rs: the controllers of the system in sysfs,
    their attributes, and the choice of the default one. The file system outside
    of configfs is an interface, [HostFs]. *)

From stdpp Require Import base list sorting.
From S2P Require Import Prelude Io Bytes ConfigFs GadgetFs.

(** ** The host's files *)

Class HostFs := {
  h_is_dir : string -> bool;
  (** The names in a directory, each of which may fail to be read. *)
  h_read_dir : string -> io_result (list (io_result string));
  h_read : string -> io_result (list byte);
  h_read_link : string -> io_result (list byte);
  h_write : string -> list byte -> io_result unit;
}.

(** ** The order of names *)

Fixpoint bytes_leb (a b : list byte) : bool :=
  match a, b with
  | [], _ => true
  | _ :: _, [] => false
  | x :: a, y :: b => (b2z x <? b2z y) || ((b2z x =? b2z y) && bytes_leb a b)
  end.

Definition name_le (a b : string) : Prop := bytes_leb (bs a) (bs b) = true.
#[global] Instance name_le_dec : RelDecision name_le.
Proof. intros a b. unfold name_le. apply _. Defined.

Lemma bytes_leb_refl a : bytes_leb a a = true.
Proof. induction a as [|x a IH]; [done|]. cbn. rewrite IH, Z.eqb_refl, Z.ltb_irrefl. done. Qed.

Lemma bytes_leb_total a b : bytes_leb a b = true \/ bytes_leb b a = true.
Proof.
  revert b. induction a as [|x a IH]; intros [|y b]; cbn; [by auto..|].
  destruct (Z.lt_trichotomy (b2z x) (b2z y)) as [Hl|[He|Hl]].
  - left. by rewrite (proj2 (Z.ltb_lt _ _) Hl).
  - rewrite He, Z.eqb_refl, Z.ltb_irrefl. apply IH.
  - right. by rewrite (proj2 (Z.ltb_lt _ _) Hl).
Qed.

Lemma bytes_leb_trans a b c : bytes_leb a b = true -> bytes_leb b c = true -> bytes_leb a c = true.
Proof.
  revert b c. induction a as [|x a IH]; intros [|y b] [|z c]; cbn; try done.
  rewrite !orb_true_iff, !andb_true_iff, !Z.ltb_lt, !Z.eqb_eq.
  intros [?|[? ?]] [?|[? ?]]; [left; lia..|]. right. split; [lia|by eapply IH].
Qed.

#[global] Instance name_le_total : Total name_le.
Proof. intros a b. apply bytes_leb_total. Qed.
#[global] Instance name_le_preorder : PreOrder name_le.
Proof. split; [intros a; apply bytes_leb_refl|]. intros a b c. apply bytes_leb_trans. Qed.

(** ** Controllers *)

(** The directory of a controller is its name's in the class directory. *)
Record Udc := { u_name : string }.

Definition udc_le (a b : Udc) : Prop := name_le (u_name a) (u_name b).
#[global] Instance udc_le_dec : RelDecision udc_le.
Proof. intros a b. unfold udc_le. apply _. Defined.
#[global] Instance udc_le_total : Total udc_le.
Proof. intros a b. apply name_le_total. Qed.
#[global] Instance udc_le_preorder : PreOrder udc_le.
Proof. split; [intros a; apply bytes_leb_refl|]. intros a b c. apply bytes_leb_trans. Qed.

Definition speed_default : LSpeed := LUnknown.

(** The parser derived from the names of the speeds. *)
Definition parse_lspeed (text : list byte) : option LSpeed :=
  List.find (fun s => bool_decide (text = bs (speed_text s))) [LUnknown; LLow; LFull; LHigh; LSuper; LSuperPlus].

Inductive UdcState :=
| NotAttached | Attached | Powered | Reconnecting | Unauthenticated | UDefault | Addressed | Configured
| Suspended | UUnknown.

Definition udc_state_text (s : UdcState) : string :=
  match s with
  | NotAttached => "not attached" | Attached => "attached" | Powered => "powered"
  | Reconnecting => "reconnecting" | Unauthenticated => "unauthenticated" | UDefault => "default"
  | Addressed => "addressed" | Configured => "configured" | Suspended => "suspended" | UUnknown => "UNKNOWN"
  end.

Definition parse_udc_state (text : list byte) : option UdcState :=
  List.find (fun s => bool_decide (text = bs (udc_state_text s)))
    [NotAttached; Attached; Powered; Reconnecting; Unauthenticated; UDefault; Addressed; Configured;
     Suspended; UUnknown].

Section Udc.
Context `{HostFs}.

Definition class_dir : string := "/sys/class".

Definition udc_attr (u : Udc) (name : string) : string :=
  class_dir +:+ "/udc/" +:+ u_name u +:+ "/" +:+ name.

(** [fs::read_to_string]. *)
Definition h_read_to_string (p : string) : io_result (list byte) :=
  let? data := h_read p in
  if utf8_valid data then Ok data else Err (Custom KInvalidData "stream did not contain valid UTF-8").

Definition udc_text (u : Udc) (name : string) : io_result (list byte) :=
  let? t := h_read_to_string (udc_attr u name) in Ok (trim t).

Definition udc_flag (u : Udc) (name : string) : io_result bool :=
  let? t := udc_text u name in Ok (negb (bool_decide (t = bs "0"))).

Definition a_alt_hnp_support (u : Udc) : io_result bool := udc_flag u "a_alt_hnp_support".
Definition a_hnp_support (u : Udc) : io_result bool := udc_flag u "a_hnp_support".
Definition b_hnp_enable (u : Udc) : io_result bool := udc_flag u "b_hnp_enable".
Definition is_a_peripheral (u : Udc) : io_result bool := udc_flag u "is_a_peripheral".
Definition is_otg (u : Udc) : io_result bool := udc_flag u "is_otg".

Definition current_speed (u : Udc) : io_result LSpeed :=
  let? t := udc_text u "current_speed" in Ok (default speed_default (parse_lspeed t)).

Definition udc_max_speed (u : Udc) : io_result LSpeed :=
  let? t := udc_text u "maximum_speed" in Ok (default speed_default (parse_lspeed t)).

Definition udc_state (u : Udc) : io_result UdcState :=
  let? t := udc_text u "state" in Ok (default UUnknown (parse_udc_state t)).

Definition start_srp (u : Udc) : io_result unit := h_write (udc_attr u "srp") (bs "1").

Definition set_soft_connect (u : Udc) (connect : bool) : io_result unit :=
  h_write (udc_attr u "soft_connect") (bs (if connect then "connect" else "disconnect")).

(** The last component of a path, if it is a name. *)
Definition path_file_name (p : list byte) : option string :=
  match list.last (components p) with Some (Normal n) => Some n | _ => None end.

Definition udc_driver (u : Udc) : io_result string :=
  let? target := h_read_link (udc_attr u "device/driver") in
  ok_or (Custom KNotFound "UDC driver symlink has no file name") (path_file_name target).

Definition udc_function (u : Udc) : io_result (option (list byte)) :=
  let? data := h_read (udc_attr u "function") in
  let data := trim_os_str data in
  Ok (if bool_decide (data = []) then None else Some data).

(** Entries that cannot be read are skipped. *)
Definition udcs : io_result (list Udc) :=
  if negb (h_is_dir class_dir) then Err (Custom KNotFound "sysfs is not available")
  else if negb (h_is_dir (class_dir +:+ "/udc")) then Ok []
  else let? entries := h_read_dir (class_dir +:+ "/udc") in Ok (Build_Udc <$> readable entries).

Definition default_udc : io_result Udc :=
  let? l := udcs in
  ok_or (Custom KNotFound "no USB device controller (UDC) available") (head (merge_sort udc_le l)).

(** The default is a controller of the system and none has a smaller name; there
    is one exactly if there is a controller. *)
Lemma default_udc_spec l :
  udcs = Ok l ->
  match default_udc with
  | Ok u => u ∈ l /\ Forall (udc_le u) l
  | Err e => l = [] /\ kind e = KNotFound
  end.
Proof.
  intros E. unfold default_udc. rewrite E. cbn [rbind].
  pose proof (merge_sort_Permutation udc_le l) as Hp.
  assert (Sorted.StronglySorted udc_le (merge_sort udc_le l)) as Hs.
  { apply StronglySorted_merge_sort; apply _. }
  destruct (merge_sort udc_le l) as [|u r]; cbn.
  - split; [by apply Permutation_nil|done].
  - split; [rewrite <- Hp; left|]. rewrite <- Hp. constructor; [reflexivity|]. by inversion Hs.
Qed.
End Udc.
