(* ===== verification/Status.v ===== *)
(** * Waiting for a function

    Models what of patches/usb-gadget/src/function/util.rs waits and is shared:
    the status of a function with its asynchronous waits for a binding and an
    unbinding, on top of a notifier with tokio's semantics; the blocking wait of
    the value channel; the search for a device file; and the table of remove
    handlers. A waiter and the gadget's operations run concurrently: their atomic
    actions are the steps of [nstep]. *)

From stdpp Require Import gmap relations.
From S2P Require Import Prelude Io Bytes ConfigFs Functions FfsFunction GadgetFs Endpoint Udc.

#[global] Instance State_eq_dec : EqDecision State.
Proof. solve_decision. Defined.

(** ** Waiting for a state *)

(** Where a waiter is: before it makes its [Notified] future, between that and
    the look at the state, waiting, or done. A [Notified] future completes when
    [notify_waiters] is called after it was made; the number of calls so far
    identifies that moment. *)
Inductive WaitPc (R : Type) :=
| WLoop
| WMade (calls : nat)
| WAwaiting (calls : nat)
| WReturned (r : R).
Arguments WLoop {R}. Arguments WMade {R}. Arguments WAwaiting {R}. Arguments WReturned {R}.

(** The function's directory, the calls of [notify_waiters] so far, the updates
    whose call is still to come, and the waiter. *)
Record NSt (R : Type) := {
  ns_inner : FunctionDirInner;
  ns_calls : nat;
  ns_owed : nat;
  ns_pc : WaitPc R;
}.
Arguments ns_inner {R}. Arguments ns_calls {R}. Arguments ns_owed {R}. Arguments ns_pc {R}.
Arguments Build_NSt {R}.

Section Wait.
Context {R : Type}.
(** When the loop of a waiter returns, and with what. *)
Variable verdict : State -> option R.

Definition set_pc (pc : WaitPc R) (s : NSt R) : NSt R :=
  {| ns_inner := ns_inner s; ns_calls := ns_calls s; ns_owed := ns_owed s; ns_pc := pc |}.

(** The call is made while the lock is held. *)
Definition locked_update (u : FunctionDirInner -> FunctionDirInner) (s : NSt R) : NSt R :=
  {| ns_inner := u (ns_inner s); ns_calls := S (ns_calls s); ns_owed := ns_owed s; ns_pc := ns_pc s |}.

(** The lock is released before the call. *)
Definition unlocked_update (u : FunctionDirInner -> FunctionDirInner) (s : NSt R) : NSt R :=
  {| ns_inner := u (ns_inner s); ns_calls := ns_calls s; ns_owed := S (ns_owed s); ns_pc := ns_pc s |}.

Definition notify_waiters (s : NSt R) : NSt R :=
  {| ns_inner := ns_inner s; ns_calls := S (ns_calls s); ns_owed := pred (ns_owed s); ns_pc := ns_pc s |}.

(** One action of the waiter, if it can act. *)
Definition waiter (s : NSt R) : option (NSt R) :=
  match ns_pc s with
  | WLoop => Some (set_pc (WMade (ns_calls s)) s)
  | WMade n =>
      Some (set_pc (match verdict (state (ns_inner s)) with Some r => WReturned r | None => WAwaiting n end) s)
  | WAwaiting n => if (n <? ns_calls s)%nat then Some (set_pc WLoop s) else None
  | WReturned _ => None
  end.

Inductive nstep : NSt R -> NSt R -> Prop :=
| nstep_set_dir p s : nstep s (locked_update (set_dir_inner p) s)
| nstep_reset_dir s : nstep s (unlocked_update reset_dir_inner s)
| nstep_set_bound b s : nstep s (unlocked_update (set_bound_inner b) s)
| nstep_notify s : (0 < ns_owed s)%nat -> nstep s (notify_waiters s)
| nstep_waiter s s' : waiter s = Some s' -> nstep s s'.

Definition started (d : FunctionDirInner) : NSt R :=
  {| ns_inner := d; ns_calls := 0; ns_owed := 0; ns_pc := WLoop |}.

(** A waiter that sleeps on a state it should return for has a call coming. *)
Definition awake (s : NSt R) : Prop :=
  match ns_pc s with
  | WMade n => (n <= ns_calls s)%nat
  | WAwaiting n => (n <= ns_calls s)%nat /\
      (verdict (state (ns_inner s)) = None \/ (n < ns_calls s)%nat \/ (0 < ns_owed s)%nat)
  | _ => True
  end.

Lemma nstep_awake s s' : nstep s s' -> awake s -> awake s'.
Proof.
  intros [p s0|s0|b s0|s0 Ho|s0 s1 Hw] Ha; unfold awake in *; cbn [locked_update unlocked_update notify_waiters ns_pc ns_calls ns_owed ns_inner].
  1-4: destruct (ns_pc s0); [done|lia| |done]; destruct Ha as [? _]; split; [lia|]; right; lia.
  revert Hw. unfold waiter. destruct (ns_pc s0) as [|n|n|r] eqn:E; [intros [= <-]; cbn; lia| | |done].
  - intros [= <-]. cbn. destruct (verdict (state (ns_inner s0))); [done|]. auto.
  - destruct (n <? ns_calls s0)%nat; [by intros [= <-]|done].
Qed.

Lemma reach_awake d s : rtc nstep (started d) s -> awake s.
Proof.
  intros Hr. assert (awake (started d)) as H0 by done. revert H0.
  induction Hr as [|x y z Hxy _ IH]; [done|]. intros Hx. by apply IH, (nstep_awake x).
Qed.

(** The waiter alone: from any point where no call is owed, it returns the verdict
    on the state as it is. *)
Definition waiters (s s' : NSt R) : Prop := waiter s = Some s'.

Lemma waiter_returns d s r :
  rtc nstep (started d) s -> ns_owed s = 0%nat -> verdict (state (ns_inner s)) = Some r ->
  (forall r', ns_pc s <> WReturned r') ->
  exists s', rtc waiters s s' /\ ns_pc s' = WReturned r.
Proof.
  intros Hr%reach_awake Ho Hv Hp. unfold awake in Hr.
  assert (forall s0, ns_inner s0 = ns_inner s -> forall n, ns_pc s0 = WMade n ->
    exists s', rtc waiters s0 s' /\ ns_pc s' = WReturned r) as Hmade.
  { intros s0 Hi n Hn. exists (set_pc (WReturned r) s0). split; [|done]. apply rtc_once.
    unfold waiters, waiter. by rewrite Hn, Hi, Hv. }
  assert (forall s0, ns_inner s0 = ns_inner s -> ns_pc s0 = WLoop ->
    exists s', rtc waiters s0 s' /\ ns_pc s' = WReturned r) as Hloop.
  { intros s0 Hi Hn. destruct (Hmade (set_pc (WMade (ns_calls s0)) s0) Hi _ eq_refl) as (s' & Hs' & ?).
    exists s'. split; [|done]. eapply rtc_l; [|done]. unfold waiters, waiter. by rewrite Hn. }
  destruct (ns_pc s) as [|n|n|r'] eqn:E; [by apply Hloop|by eapply Hmade| |by destruct (Hp r')].
  destruct (Hloop (set_pc WLoop s) eq_refl eq_refl) as (s' & Hs' & ?). exists s'. split; [|done].
  eapply rtc_l; [|done]. unfold waiters, waiter. rewrite E.
  destruct Hr as [_ [Hn|[Hn|Hn]]]; [congruence| |lia]. by rewrite (proj2 (Nat.ltb_lt _ _) Hn).
Qed.

(** The moment of a return on the run to [s]: the waiter, which had made its
    future, looked at the state of [s0] and returned the verdict on it. *)
Definition returned_at (d : FunctionDirInner) (s : NSt R) (r : R) (s0 : NSt R) : Prop :=
  rtc nstep (started d) s0 /\ (exists n, ns_pc s0 = WMade n) /\ verdict (state (ns_inner s0)) = Some r /\
  rtc nstep (set_pc (WReturned r) s0) s.

Lemma waiter_truthful d s r :
  rtc nstep (started d) s -> ns_pc s = WReturned r -> exists s0, returned_at d s r s0.
Proof.
  revert s. apply (rtc_ind_r (fun s => _ -> _)); [done|]. intros x y Hx Hxy IH.
  assert (ns_pc x = WReturned r -> exists s0, returned_at d y r s0) as IH'.
  { intros Hp. destruct (IH Hp) as (s0 & H1 & H2 & H3 & H4). exists s0. split_and!; [done..|]. by eapply rtc_r. }
  clear IH. destruct Hxy as [p s0|s0|b s0|s0 Ho|s0 s1 Hw]; [exact IH'..|].
  revert Hw. unfold waiter. destruct (ns_pc s0) as [|n|n|r'] eqn:E; [by intros [= <-]| | |done].
  - intros [= <-]. cbn. destruct (verdict (state (ns_inner s0))) as [r0|] eqn:Ev; [|done].
    intros [= ->]. exists s0. split_and!; [done|by exists n|done|done].
  - destruct (n <? ns_calls s0)%nat; [by intros [= <-]|done].
Qed.
End Wait.

(** [Status::bound] returns for a bound function, and fails for a removed one. *)
Definition bound_verdict (s : State) : option (io_result unit) :=
  match s with
  | Bound => Some (Ok tt)
  | Removed => Some (Err (Custom KBrokenPipe "gadget was removed"))
  | _ => None
  end.

Definition unbound_verdict (s : State) : option unit :=
  if bool_decide (s = Bound) then None else Some tt.

Definition status_path (d : FunctionDirInner) : option path := fd_dir d.

(** C28. However the waits of a function's status interleave with the gadget's
    operations, no wake-up is lost: a [bound] that has not returned while the
    function is bound or removed, or an [unbound] while it is not bound, does
    return when it runs next, once the notifications of the updates made so far
    have been sent. And a wait that returned did so at a moment of that very run
    at which it looked and the function was in the state it reports: bound for
    [Ok], removed for an error, not bound for [unbound]. *)
Theorem status_waits_return d s u :
  rtc (nstep bound_verdict) (started d) s -> rtc (nstep unbound_verdict) (started d) u ->
  (forall r, ns_owed s = 0%nat -> bound_verdict (state (ns_inner s)) = Some r ->
     (forall r', ns_pc s <> WReturned r') ->
     exists s', rtc (waiters bound_verdict) s s' /\ ns_pc s' = WReturned r) /\
  (ns_owed u = 0%nat -> state (ns_inner u) <> Bound -> (forall r', ns_pc u <> WReturned r') ->
     exists u', rtc (waiters unbound_verdict) u u' /\ ns_pc u' = WReturned tt) /\
  (forall r, ns_pc s = WReturned r ->
     exists s0, returned_at bound_verdict d s r s0 /\
       state (ns_inner s0) = match r with Ok _ => Bound | Err _ => Removed end) /\
  (ns_pc u = WReturned tt ->
     exists u0, returned_at unbound_verdict d u tt u0 /\ state (ns_inner u0) <> Bound).
Proof.
  intros Hs Hu. split; [|split; [|split]].
  - intros r. by eapply waiter_returns.
  - intros Ho Hn. eapply waiter_returns; [done..|]. unfold unbound_verdict. by rewrite bool_decide_false.
  - intros r Hp. destruct (waiter_truthful _ _ _ _ Hs Hp) as (s0 & H1 & H2 & Hv & H4). exists s0.
    split; [by split_and!|]. revert Hv. destruct (state (ns_inner s0)); by intros [= <-].
  - intros Hp. destruct (waiter_truthful _ _ _ _ Hu Hp) as (u0 & H1 & H2 & Hv & H4). exists u0.
    split; [by split_and!|]. revert Hv. unfold unbound_verdict. by case_bool_decide.
Qed.

(** The updates of one gadget while a waiter sleeps: it looked before the binding,
    and the binding's notification is still to come. *)
Lemma status_waits_return_witness :
  exists s', rtc (waiters bound_verdict)
    (notify_waiters (unlocked_update (set_bound_inner true)
      {| ns_inner := set_dir_inner ["f"] function_dir_new; ns_calls := 1; ns_owed := 0; ns_pc := WAwaiting 1 |})) s' /\
    ns_pc s' = WReturned (Ok tt).
Proof.
  eapply (proj1 (status_waits_return function_dir_new _ (started function_dir_new) _ ltac:(done)));
    [reflexivity|reflexivity|done].
  Unshelve.
  eapply rtc_l; [apply (nstep_set_dir _ ["f"])|].
  eapply rtc_l; [apply nstep_waiter; reflexivity|].
  eapply rtc_l; [apply nstep_waiter; reflexivity|].
  eapply rtc_l; [apply (nstep_set_bound _ true)|].
  apply rtc_once, nstep_notify. cbn. lia.
Defined.

(** ** The value channel, waited for *)

(** What ends a blocking [recv] of the channel. *)
Inductive ChanEvent (T : Type) := ChanSent (v : T) | SenderDropped.
Arguments ChanSent {T}. Arguments SenderDropped {T}.

Definition value_channel {T} : Value T := Receiving None true.

(** [Receiver::wait], [ev] being what happens to a sender that has not sent. *)
Definition value_wait {T} (ev : ChanEvent T) (s : Value T) : result T RecvError * Value T :=
  match s with
  | Receiving (Some v) _ => value_get (Received v)
  | Receiving None true =>
      match ev with
      | ChanSent v => value_get (Received v)
      | SenderDropped => (Err RDisconnected, Receiving None false)
      end
  | Receiving None false => (Err RDisconnected, s)
  | _ => value_get s
  end.

(** A wait never finds the channel empty, and after it [get] agrees with it. *)
Lemma value_wait_settles {T} (ev : ChanEvent T) s :
  (value_wait ev s).1 <> Err REmpty /\
  value_get (value_wait ev s).2 = value_wait ev s.
Proof. by destruct s as [[] []| |], ev. Qed.

(** ** Device files *)

(** An entry of /dev: its name, and its kind and device number when they can be
    read. *)
Record DevEntry := { de_name : string; de_meta : option (bool * Z) }.

Section DevPath.
(** [rustix::fs::makedev], and the listing of /dev. *)
Variable makedev : Z -> Z -> Z.

Definition is_device (target : Z) (e : io_result DevEntry) : option string :=
  match e with
  | Ok e => match de_meta e with
            | Some (true, rdev) => if rdev =? target then Some (de_name e) else None
            | _ => None
            end
  | Err _ => None
  end.

Definition dev_path (listing : io_result (list (io_result DevEntry))) (major minor : Z) : io_result path :=
  match listing with
  | Err e => Err e
  | Ok l =>
      match head (omap (is_device (makedev major minor)) l) with
      | Some n => Ok ["dev"; n]
      | None => Err (Custom KNotFound ("no device file found in /dev for " +:+ str_of_bytes (dec major) +:+ ":"
                       +:+ str_of_bytes (dec minor)))
      end
  end.

(** The device file found has the numbers asked for. *)
Lemma dev_path_found l major minor p :
  dev_path (Ok l) major minor = Ok p ->
  exists e, Ok e ∈ l /\ p = ["dev"; de_name e] /\ de_meta e = Some (true, makedev major minor).
Proof.
  unfold dev_path. destruct (head _) as [n|] eqn:E; [|done]. intros [= <-].
  apply head_Some_elem_of, list_elem_of_omap in E as (x & Hx & Hn). destruct x as [e|]; [|done].
  exists e. revert Hn. cbn. destruct (de_meta e) as [[[] r]|]; try done.
  destruct (r =? makedev major minor) eqn:Er; [|done]. intros [= ->].
  apply Z.eqb_eq in Er as ->. done.
Qed.
End DevPath.

(** ** Remove handlers *)

Section Handlers.
Context `{Configfs} `{FfsKernel}.

(** The table of a process, and whether its initialisation has run. *)
Record Handlers := {
  rh_table : gmap string (path -> M Cfs unit);
  rh_once : bool;
}.

Definition no_handlers : Handlers := {| rh_table := ∅; rh_once := false |}.

Definition register_remove_handler (driver : string) (handler : path -> M Cfs unit) (h : Handlers) : Handlers :=
  {| rh_table := <[driver := handler]> (rh_table h); rh_once := rh_once h |}.

Definition register_remove_handlers (h : Handlers) : Handlers :=
  let h := register_remove_handler "ffs" custom_remove_handler h in
  let h := register_remove_handler "mass_storage" msd_remove_handler h in
  register_remove_handler "uvc" uvc_remove_handler h.

Definition init_remove_handlers (h : Handlers) : Handlers :=
  if rh_once h then h
  else let h := register_remove_handlers h in {| rh_table := rh_table h; rh_once := true |}.

Definition call_registered_handler (h : Handlers) (d : path) : M Cfs unit :=
  match split_function_dir d with
  | None => throw (Custom KInvalidInput "invalid function directory")
  | Some (driver, _) =>
      match rh_table h !! str_of_bytes driver with
      | Some handler => handler d
      | None => ret tt
      end
  end.

Lemma str_of_bytes_eq l s : bool_decide (str_of_bytes l = s) = bool_decide (l = bs s).
Proof. apply bool_decide_ext. split; [intros <-; by rewrite bs_str_of_bytes|intros ->; apply str_of_bytes_bs]. Qed.

Lemma init_lookup h driver :
  rh_once h = false ->
  rh_table (init_remove_handlers h) !! driver =
    if bool_decide (driver = "uvc") then Some uvc_remove_handler
    else if bool_decide (driver = "mass_storage") then Some msd_remove_handler
    else if bool_decide (driver = "ffs") then Some custom_remove_handler
    else rh_table h !! driver.
Proof.
  intros Ho. unfold init_remove_handlers. rewrite Ho. cbn.
  rewrite !lookup_insert.
  repeat match goal with |- context [decide ?P] => destruct (decide P) end; repeat case_bool_decide; congruence.
Qed.

(** The table of a process that registers no handler of its own calls the built-in
    handlers; initialising it again changes nothing; a handler that a program
    registers for another driver is the one called, registered before or after. *)
Theorem remove_handlers_dispatch d s h driver instance handler :
  call_registered_handler (init_remove_handlers no_handlers) d s = call_remove_handler d s /\
  init_remove_handlers (init_remove_handlers h) = init_remove_handlers h /\
  (driver ∉ ["ffs"; "mass_storage"; "uvc"] -> split_function_dir d = Some (bs driver, instance) ->
   call_registered_handler (init_remove_handlers (register_remove_handler driver handler h)) d s = handler d s /\
   call_registered_handler (register_remove_handler driver handler (init_remove_handlers h)) d s = handler d s).
Proof.
  split; [|split].
  - unfold call_registered_handler, call_remove_handler. destruct (split_function_dir d) as [[drv ins]|]; [|done].
    rewrite init_lookup by done. cbn [no_handlers rh_table]. rewrite lookup_empty, !(str_of_bytes_eq drv).
    repeat case_bool_decide; subst; try done; match goal with E : bs _ = bs _ |- _ => discriminate E end.
  - unfold init_remove_handlers. destruct (rh_once h) eqn:E; [by rewrite E|done].
  - intros Hd Hs. unfold call_registered_handler. rewrite Hs, str_of_bytes_bs. cbn [register_remove_handler rh_table].
    rewrite lookup_insert_eq. split; [|done].
    destruct (rh_once h) eqn:E.
    + unfold init_remove_handlers. cbn. rewrite E. cbn. by rewrite lookup_insert_eq.
    + rewrite init_lookup by done. cbn. rewrite lookup_insert_eq.
      repeat (case_bool_decide; [exfalso; apply Hd; set_unfold; naive_solver|]). done.
Qed.
End Handlers.
