(* ===== verification/FnObjects.v ===== *)
(** * Function objects

    Models how a program gets hold of functions: the constructors and builders of
    the modules of patches/usb-gadget/src/function, each of which makes a new
    [FunctionDir] and returns an object and a handle that share it; the values a
    gadget is described with (src/gadget.rs: [Class], [Id], [Strings], ...); and
    what the objects read back. The theorem follows the objects of a gadget
    through its registration, binding and removal. *)

From stdpp Require Import gmap fin_maps.
From S2P Require Import Prelude Io Bytes UsbConfig FfsDesc FfsBuild ConfigFs Functions FfsFunction SimpleKernel GadgetFs GadgetFsProps Status.

(** ** What a gadget is described with *)

Module Class.
Definition VENDOR_SPECIFIC : Z := 255.
Definition class_new (class sub_class protocol : Z) : Class_ :=
  {| cls_class := class; cls_sub_class := sub_class; cls_protocol := protocol |}.
Definition vendor_specific (sub_class protocol : Z) : Class_ := class_new VENDOR_SPECIFIC sub_class protocol.
Definition interface_specific : Class_ := class_new 0 0 0.
Definition INTERFACE_SPECIFIC : Class_ := class_new 0 0 0.
Definition MISCELLANEOUS_IAD : Class_ := class_new 239 2 1.
Definition AUDIO_CONTROL : Class_ := class_new 1 1 0.
Definition AUDIO_STREAMING : Class_ := class_new 1 2 0.
Definition AUDIO_MIDISTREAMING : Class_ := class_new 1 3 0.
Definition CDC_ACM : Class_ := class_new 2 2 1.
Definition CDC_ECM : Class_ := class_new 2 6 0.
Definition CDC_EEM : Class_ := class_new 2 12 7.
Definition CDC_NCM : Class_ := class_new 2 13 0.
Definition CDC_DATA : Class_ := class_new 10 0 0.
Definition HID : Class_ := class_new 3 0 0.
Definition HID_BOOT_KEYBOARD : Class_ := class_new 3 1 1.
Definition HID_BOOT_MOUSE : Class_ := class_new 3 1 2.
Definition PRINTER_UNIDIRECTIONAL : Class_ := class_new 7 1 1.
Definition PRINTER_BIDIRECTIONAL : Class_ := class_new 7 1 2.
Definition MASS_STORAGE_SCSI_BULK : Class_ := class_new 8 6 80.
Definition VIDEO_CONTROL : Class_ := class_new 14 1 0.
Definition VIDEO_STREAMING : Class_ := class_new 14 2 0.
Definition DFU_RUNTIME : Class_ := class_new 254 1 1.
Definition DFU_MODE : Class_ := class_new 254 1 2.
End Class.

Module Id.
Definition id_new (vendor product : Z) : Z * Z := (vendor, product).
Definition LINUX_FOUNDATION_VID : Z := 7531.
Definition LINUX_FOUNDATION_SERIAL : Z * Z := id_new 7531 257.
Definition LINUX_FOUNDATION_ETHERNET : Z * Z := id_new 7531 258.
Definition LINUX_FOUNDATION_STORAGE : Z * Z := id_new 7531 259.
Definition LINUX_FOUNDATION_COMPOSITE : Z * Z := id_new 7531 260.
Definition LINUX_FOUNDATION_FFS : Z * Z := id_new 7531 261.
End Id.

Definition strings_new (manufacturer product serial_number : list byte) : LStrings :=
  {| ls_manufacturer := manufacturer; ls_product := product; ls_serial_number := serial_number |}.

Definition os_descriptor_new (vendor_code : Z) (qw_sign : list byte) : LOsDescriptor :=
  {| lo_vendor_code := vendor_code; lo_qw_sign := qw_sign; lo_config := 0 |}.

Definition web_usb_new (vendor_code : Z) (landing_page : list byte) : WebUsb :=
  {| wu_version := WV10; wu_vendor_code := vendor_code; wu_landing_page := landing_page |}.

Definition with_function (h : FnHandle) (c : LConfig) : LConfig := add_function h c.

Definition set_configs (cs : list LConfig) (g : LGadget) : LGadget :=
  {| lg_name := lg_name g; lg_device_class := lg_device_class g; lg_id := lg_id g; lg_strings := lg_strings g;
     lg_max_packet_size0 := lg_max_packet_size0 g; lg_device_release := lg_device_release g;
     lg_usb_version := lg_usb_version g; lg_max_speed := lg_max_speed g;
     lg_os_descriptor := lg_os_descriptor g; lg_web_usb := lg_web_usb g; lg_configs := cs |}.

Definition add_config (c : LConfig) (g : LGadget) : LGadget := set_configs (lg_configs g ++ [c]) g.
Definition with_config (c : LConfig) (g : LGadget) : LGadget := add_config c g.

Definition with_os_descriptor (o : LOsDescriptor) (g : LGadget) : LGadget :=
  {| lg_name := lg_name g; lg_device_class := lg_device_class g; lg_id := lg_id g; lg_strings := lg_strings g;
     lg_max_packet_size0 := lg_max_packet_size0 g; lg_device_release := lg_device_release g;
     lg_usb_version := lg_usb_version g; lg_max_speed := lg_max_speed g;
     lg_os_descriptor := Some o; lg_web_usb := lg_web_usb g; lg_configs := lg_configs g |}.

Definition with_web_usb (w : WebUsb) (g : LGadget) : LGadget :=
  {| lg_name := lg_name g; lg_device_class := lg_device_class g; lg_id := lg_id g; lg_strings := lg_strings g;
     lg_max_packet_size0 := lg_max_packet_size0 g; lg_device_release := lg_device_release g;
     lg_usb_version := lg_usb_version g; lg_max_speed := lg_max_speed g;
     lg_os_descriptor := lg_os_descriptor g; lg_web_usb := Some w; lg_configs := lg_configs g |}.

Definition reg_path (r : RegGadget) : path := rg_dir r.
Definition is_attached (r : RegGadget) : bool := rg_attached r.

(** ** A new function *)

(** [FunctionDir::new]: a directory of its own. *)
Definition dir_new : M Cfs nat := fun s =>
  let fn := fresh (dom (c_dirs s)) in
  (Ok fn, {| c_fs := c_fs s; c_dirs := <[fn := function_dir_new]> (c_dirs s); c_log := c_log s; c_ffs := c_ffs s |}).

(** What the program keeps: [Serial], [Net] and the others hold just the
    directory. *)
Record FnObject := { o_dir : nat }.

(** What the [build]s of the kinds below have in common: the object and the handle
    share a new directory. *)
Definition build_function (f : Func) : M Cfs (FnObject * FnHandle) :=
  do! fn := dir_new in ret ({| o_dir := fn |}, {| h_id := fn; h_func := f |}).

Definition object_status (o : FnObject) : M Cfs State := gets (fun s => state (dir_of s (o_dir o))).

(** [Handle::eq] and [Handle::cmp] compare addresses. *)
Definition handle_eq (a b : FnHandle) : bool := (h_id a =? h_id b)%nat.

(** *** Serial ports *)

Record SerialBuilder := { sb_serial_class : SerialClass; sb_console : option bool }.
Definition serial_builder (c : SerialClass) : SerialBuilder := {| sb_serial_class := c; sb_console := None |}.
Definition serial_build (b : SerialBuilder) := build_function (FnSerial (sb_serial_class b) (sb_console b)).
Definition serial_new (c : SerialClass) := serial_build (serial_builder c).

(** *** Network *)

Definition net_builder (c : NetClass) : Net :=
  {| net_class := c; net_dev_addr := None; net_host_addr := None; net_qmult := None; net_interface_class := None |}.
Definition net_build (n : Net) := build_function (FnNet n).
Definition net_new (c : NetClass) := net_build (net_builder c).

(** *** Mass storage *)

Record MsdBuilder := { mb_stall : option bool; mb_luns : list Lun }.
Definition msd_builder : MsdBuilder := {| mb_stall := None; mb_luns := [] |}.
Definition add_lun (l : Lun) (b : MsdBuilder) : MsdBuilder := {| mb_stall := mb_stall b; mb_luns := mb_luns b ++ [l] |}.
Definition with_lun (l : Lun) (b : MsdBuilder) : MsdBuilder := add_lun l b.
Definition msd_build (b : MsdBuilder) := build_function (FnMsd (mb_stall b) (mb_luns b)).
Definition msd_new (file : string) : M Cfs (FnObject * FnHandle) :=
  match lun_new file with
  | Ok l => msd_build (add_lun l msd_builder)
  | Err e => throw (Custom KInvalidInput e)
  end.

(** *** The others *)

Definition hid_build (b : HidBuilder) := build_function (FnHid b).

Definition midi_builder : MidiBuilder :=
  {| midi_buflen := None; midi_id := None; midi_in_ports := None; midi_out_ports := None; midi_index := None;
     midi_qlen := None |}.
Definition midi_build (b : MidiBuilder) := build_function (FnMidi b).

Definition printer_builder : PrinterBuilder := {| printer_pnp_string := None; printer_qlen := None |}.
Definition printer_build (b : PrinterBuilder) := build_function (FnPrinter b).
(** It takes a printer, which it does not use. *)
Definition printer_new (self : FnObject) := printer_build printer_builder.

Definition loopback_builder : LoopbackBuilder := {| loopback_qlen := None; loopback_bulk_buflen := None |}.
Definition loopback_build (b : LoopbackBuilder) := build_function (FnLoopback b).
Definition loopback_new := loopback_build loopback_builder.

Definition sourcesink_builder : SourceSinkBuilder :=
  {| ss_pattern := None; ss_isoc_interval := None; ss_isoc_maxpacket := None; ss_isoc_mult := None;
     ss_isoc_maxburst := None; ss_bulk_buflen := None; ss_bulk_qlen := None; ss_iso_qlen := None |}.
Definition sourcesink_build (b : SourceSinkBuilder) := build_function (FnSourceSink b).
Definition sourcesink_new := sourcesink_build sourcesink_builder.

Definition other_build (b : OtherBuilder) := build_function (FnOther b).
Definition other_new (driver : list byte) : M Cfs (FnObject * FnHandle) :=
  do! b := lift (other_builder driver) in other_build b.

(** *** Audio *)

Definition channel_default : Channel :=
  {| ch_channel_mask := None; ch_sample_rate := None; ch_sample_size := None |}.

Definition uac2_config_on (c : Channel) : Uac2Config :=
  {| u2_channel := c; u2_sync_type := None; u2_hs_interval := None; u2_mute_present := None; u2_terminal_type := None;
     u2_volume_present := None; u2_volume_min := None; u2_volume_max := None; u2_volume_resolution := None;
     u2_volume_name := None; u2_input_terminal_name := None; u2_input_terminal_channel_name := None;
     u2_output_terminal_name := None |}.

Definition uac2_with (capture playback : Uac2Config) (b : Uac2Builder) : Uac2Builder :=
  {| u2_capture := capture; u2_playback := playback; u2_fb_max := u2_fb_max b;
     u2_request_number := u2_request_number b; u2_function_name := u2_function_name b;
     u2_control_name := u2_control_name b; u2_clock_source_in_name := u2_clock_source_in_name b;
     u2_clock_source_out_name := u2_clock_source_out_name b |}.

Definition uac2_builder : Uac2Builder :=
  {| u2_capture := uac2_config_on channel_default; u2_playback := uac2_config_on channel_default; u2_fb_max := None;
     u2_request_number := None; u2_function_name := None; u2_control_name := None; u2_clock_source_in_name := None;
     u2_clock_source_out_name := None |}.
Definition uac2_with_capture_config (c : Uac2Config) (b : Uac2Builder) : Uac2Builder := uac2_with c (u2_playback b) b.
Definition uac2_with_playback_config (c : Uac2Config) (b : Uac2Builder) : Uac2Builder := uac2_with (u2_capture b) c b.
Definition uac2_build (b : Uac2Builder) := build_function (FnUac2 b).
Definition uac2_new (capture playback : Channel) :=
  uac2_build (uac2_with (uac2_config_on capture) (uac2_config_on playback) uac2_builder).

Definition uac1_config_on (c : Channel) : Uac1Config :=
  {| u1_channel := c; u1_mute_present := None; u1_volume_present := None; u1_volume_min := None;
     u1_volume_max := None; u1_volume_resolution := None; u1_volume_name := None; u1_input_terminal_name := None;
     u1_input_terminal_channel_name := None; u1_output_terminal_name := None |}.

Definition uac1_with (capture playback : Uac1Config) (b : Uac1Builder) : Uac1Builder :=
  {| u1_capture := capture; u1_playback := playback; u1_request_number := u1_request_number b;
     u1_function_name := u1_function_name b |}.

Definition uac1_builder : Uac1Builder :=
  {| u1_capture := uac1_config_on channel_default; u1_playback := uac1_config_on channel_default;
     u1_request_number := None; u1_function_name := None |}.
Definition uac1_with_capture_config (c : Uac1Config) (b : Uac1Builder) : Uac1Builder := uac1_with c (u1_playback b) b.
Definition uac1_with_playback_config (c : Uac1Config) (b : Uac1Builder) : Uac1Builder := uac1_with (u1_capture b) c b.
Definition uac1_build (b : Uac1Builder) := build_function (FnUac1 b).
Definition uac1_new (capture playback : Channel) :=
  uac1_build (uac1_with (uac1_config_on capture) (uac1_config_on playback) uac1_builder).

(** *** Video *)

Definition color_matching_new (primaries transfer matrix : Z) : ColorMatching :=
  {| cm_color_primaries := primaries; cm_transfer_characteristics := transfer; cm_matrix_coefficients := matrix |}.
Definition frame_new (width height : Z) (fps : list Z) (f : Format) : Frame :=
  {| fr_width := width; fr_height := height; fr_format := f; fr_fps := fps |}.
Definition uvc_frame_new (width height : Z) (f : Format) (intervals : list Z) : UvcFrame :=
  {| uf_width := width; uf_height := height; uf_intervals := intervals; uf_color_matching := None; uf_format := f |}.

Definition set_frames (frames : list UvcFrame) (b : UvcBuilder) : UvcBuilder :=
  {| uv_streaming_interval := uv_streaming_interval b; uv_streaming_max_burst := uv_streaming_max_burst b;
     uv_streaming_max_packet := uv_streaming_max_packet b; uv_function_name := uv_function_name b; uv_frames := frames;
     uv_processing_controls := uv_processing_controls b; uv_camera_controls := uv_camera_controls b |}.

Definition uvc_builder : UvcBuilder :=
  {| uv_streaming_interval := None; uv_streaming_max_burst := None; uv_streaming_max_packet := None;
     uv_function_name := None; uv_frames := []; uv_processing_controls := None; uv_camera_controls := None |}.

Section Frames.
(** The type of the frames given and its conversion: [Frame], or [UvcFrame] as it
    is. *)
Context {F : Type} (into : F -> UvcFrame).
Definition add_frame (f : F) (b : UvcBuilder) : UvcBuilder := set_frames (uv_frames b ++ [into f]) b.
Definition with_frames (fs : list F) (b : UvcBuilder) : UvcBuilder := set_frames (into <$> fs) b.
Definition uvc_new (fs : list F) : M Cfs (FnObject * FnHandle) :=
  build_function (FnUvc (set_frames (into <$> fs) uvc_builder)).
End Frames.
Definition uvc_build (b : UvcBuilder) := build_function (FnUvc b).

(** ** FunctionFS functions *)

(** What the program keeps of a FunctionFS function; one made for a FunctionFS
    that exists already has no gadget to follow. *)
Record CustomObject := { cu_dir : nat; cu_existing : bool }.

Definition with_ffs_dir (d : string) (b : CustomBuilder) : CustomBuilder :=
  {| cb_interfaces := cb_interfaces b; cb_all_ctrl_recipient := cb_all_ctrl_recipient b;
     cb_config0_setup := cb_config0_setup b; cb_ffs_dir := Some d; cb_ffs_root_mode := cb_ffs_root_mode b;
     cb_ffs_file_mode := cb_ffs_file_mode b; cb_ffs_uid := cb_ffs_uid b; cb_ffs_gid := cb_ffs_gid b;
     cb_ffs_no_disconnect := cb_ffs_no_disconnect b; cb_ffs_no_init := cb_ffs_no_init b;
     cb_ffs_no_mount := cb_ffs_no_mount b |}.

Section CustomObjects.
Context `{FfsKernel}.
Context (iter : forall A : Type, list A -> list A) (kernel : option (Z * Z)).

Definition custom_build (b : CustomBuilder) : M Cfs (CustomObject * FnHandle) :=
  do! fn := dir_new in ret ({| cu_dir := fn; cu_existing := false |}, {| h_id := fn; h_func := FnCustom b |}).

(** The descriptors are written and the endpoints opened at once; nothing is
    mounted. *)
Definition custom_existing (b : CustomBuilder) (ffs_dir : string) : M Cfs CustomObject :=
  do! fn := dir_new in
  init iter kernel fn (with_ffs_dir ffs_dir b) >>;
  ret {| cu_dir := fn; cu_existing := true |}.

Definition custom_status (o : CustomObject) : M Cfs (option State) :=
  if cu_existing o then ret None else gets (fun s => Some (state (dir_of s (cu_dir o)))).

(** Dropping the object closes its endpoint files. *)
Definition custom_drop (o : CustomObject) : M Cfs unit := close (cu_dir o).

Lemma custom_drop_closes o s :
  exists s', custom_drop o s = (Ok tt, s') /\ c_fs s' = c_fs s /\ c_dirs s' = c_dirs s /\
    ff_open (files_of (cu_dir o) (c_ffs s')) = [] /\
    forall fn, fn <> cu_dir o -> files_of fn (c_ffs s') = files_of fn (c_ffs s).
Proof.
  eexists. split; [reflexivity|]. split_and!; [done|done| |].
  - unfold files_of. cbn. by rewrite lookup_insert_eq.
  - intros fn Hne. unfold files_of. cbn. by rewrite lookup_insert_ne.
Qed.
End CustomObjects.

(** ** What the objects read back *)

Section Read.
Context `{Configfs}.
(** The parser of MAC addresses, and the listing of /dev. *)
Variable mac_parse : list byte -> option (list byte).
Variable makedev : Z -> Z -> Z.
Variable listing : io_result (list (io_result DevEntry)).

Definition tty (o : FnObject) : M Cfs path :=
  do! text := read_string (o_dir o) (bs "port_num") in
  do! port_num := invalid_data (from_str_radix 10 u32_max text) in
  ret ["dev"; "ttyGS" +:+ str_of_bytes (dec port_num)].

Definition dev_addr (o : FnObject) : M Cfs (list byte) :=
  do! text := read_string (o_dir o) (bs "dev_addr") in invalid_data (mac_parse text).

Definition host_addr (o : FnObject) : M Cfs (list byte) :=
  do! text := read_string (o_dir o) (bs "host_addr") in invalid_data (mac_parse text).

Definition ifname (o : FnObject) : M Cfs (list byte) := read_os_string (o_dir o) (bs "ifname").

Definition device (o : FnObject) : M Cfs (Z * Z) := dev_numbers (o_dir o).

Definition device_path (o : FnObject) : M Cfs path :=
  do! n := dev_numbers (o_dir o) in lift (dev_path makedev listing n.1 n.2).

Definition other_get (o : FnObject) (name : list byte) : M Cfs (list byte) := read (o_dir o) name.

End Read.

(** ** Objects follow their gadget *)

(** The objects of a list of functions, built one after another. *)
Definition build_all (fs : list Func) : M Cfs (list (FnObject * FnHandle)) := map_m build_function fs.

(** One configuration with all of them. *)
Definition config_of (description : list byte) (objs : list (FnObject * FnHandle)) : LConfig :=
  foldl (fun c o => with_function o.2 c) (lconfig_new description) objs.

Abbreviation obj_ids l := ((o_dir ∘ fst) <$> l).

Lemma build_function_spec f s :
  exists fn, fn ∉ dom (c_dirs s) /\
    build_function f s = (Ok ({| o_dir := fn |}, {| h_id := fn; h_func := f |}),
      {| c_fs := c_fs s; c_dirs := <[fn := function_dir_new]> (c_dirs s); c_log := c_log s; c_ffs := c_ffs s |}).
Proof. exists (fresh (dom (c_dirs s))). split; [apply is_fresh|done]. Qed.

(** Building never fails; the directories are new, unregistered, pairwise
    different, and each is the one of its handle. *)
Lemma build_all_spec fs s :
  exists l s', build_all fs s = (Ok l, s') /\ c_fs s' = c_fs s /\
    (h_func ∘ snd) <$> l = fs /\ obj_ids l = (h_id ∘ snd) <$> l /\ NoDup (obj_ids l) /\
    (forall fn, fn ∈ obj_ids l -> fn ∉ dom (c_dirs s) /\ c_dirs s' !! fn = Some function_dir_new) /\
    (forall fn, fn ∉ obj_ids l -> c_dirs s' !! fn = c_dirs s !! fn).
Proof.
  revert s. induction fs as [|f fs IH]; intros s.
  { exists [], s. cbn. split_and!; try done; [apply NoDup_nil_2|set_solver]. }
  destruct (build_function_spec f s) as (fn & Hfn & E).
  set (s1 := {| c_fs := c_fs s; c_dirs := _; c_log := _; c_ffs := _ |}) in E.
  destruct (IH s1) as (l & s' & El & Hfs & Hf & Hid & Hnd & Hin & Hout).
  assert (dom (c_dirs s1) = {[fn]} ∪ dom (c_dirs s)) as Hdom by (cbn; apply dom_insert_L).
  assert (fn ∉ obj_ids l) as Hfresh by (intros [Hx _]%Hin; apply Hx; set_solver).
  exists (({| o_dir := fn |}, {| h_id := fn; h_func := f |}) :: l), s'. unfold build_all. cbn [map_m].
  rewrite (bind_Ok _ _ _ _ _ E). unfold build_all in El. rewrite (bind_Ok _ _ _ _ _ El). cbn.
  split_and!; [done|done|by f_equal|by f_equal|by apply NoDup_cons_2| |].
  - intros x [->|Hx]%elem_of_cons.
    + split; [done|]. rewrite Hout by done. cbn. by rewrite lookup_insert_eq.
    + destruct (Hin x Hx) as [Hx1 Hx2]. split; [set_solver|done].
  - intros x [Hx1 Hx2]%not_elem_of_cons. rewrite Hout by done. cbn. by rewrite lookup_insert_ne.
Qed.

Lemma config_of_functions description l :
  lc_functions (config_of description l) = snd <$> l.
Proof.
  unfold config_of. change (snd <$> l) with (lc_functions (lconfig_new description) ++ (snd <$> l)).
  generalize (lconfig_new description) as c.
  induction l as [|o l IH]; intros c; cbn [foldl fmap list_fmap]; [by rewrite app_nil_r|]. rewrite IH. cbn. by rewrite <- app_assoc.
Qed.

Section Follow.
Context `{ConfigfsLaws} `{FfsKernel}.
Context (mac_text : list byte -> list byte) (cwd_is_dir : string -> bool).
Context (iter : forall A : Type, list A -> list A) (kernel : option (Z * Z)) (usb_gadget_dir : io_result path).

(** The objects a program built follow their gadget: functions are built
    without failing, each with a directory of its own that no earlier function
    has; put into a configuration of a gadget, their status is unregistered, then
    registered once the gadget is, bound once it is bound, and removed once it is
    removed, while every function that existed before keeps its status all along. *)
Theorem objects_follow_gadget fs description g udc s l s0 r s1 s2 r' s3 :
  lg_configs g = [] ->
  build_all fs s = (Ok l, s0) ->
  register mac_text cwd_is_dir iter kernel usb_gadget_dir (with_config (config_of description l) g) s0 = (Ok r, s1) ->
  bind_udc (Some udc) r s1 = (Ok tt, s2) -> do_remove r s2 = (Ok r', s3) ->
  length l = length fs /\ NoDup (obj_ids l) /\
  (forall o h, (o, h) ∈ l ->
     (object_status o s0).1 = Ok Unregistered /\ (object_status o s1).1 = Ok Registered /\
     (object_status o s2).1 = Ok Bound /\ (object_status o s3).1 = Ok Removed) /\
  (forall fn, fn ∈ dom (c_dirs s) ->
     dir_of s1 fn = dir_of s fn /\ dir_of s2 fn = dir_of s fn /\ dir_of s3 fn = dir_of s fn).
Proof.
  intros Hg Hl Ha Hb Hc. destruct (build_all_spec fs s) as (l' & s0' & E & _ & Hf & Hid & Hnd & Hin & Hout).
  rewrite E in Hl. injection Hl as -> ->.
  destruct (lifecycle_dirs _ _ _ _ _ _ _ _ _ _ _ _ _ _ Ha Hb Hc) as [Hall Hrest].
  assert (lg_configs (with_config (config_of description l) g) ≫= lc_functions = snd <$> l) as Hfns.
  { cbn. rewrite Hg. cbn. by rewrite config_of_functions, app_nil_r. }
  rewrite Hfns in Hall. split_and!; [by rewrite <- Hf, length_fmap|done| |].
  - intros o h Ho.
    assert (o_dir o = h_id h) as Eo.
    { apply list_elem_of_lookup in Ho as [i Hi]. pose proof (f_equal (lookup i) Hid) as Hx.
      rewrite !list_lookup_fmap, Hi in Hx. by injection Hx. }
    destruct (Hin (o_dir o)) as [_ Hnew]; [by apply (list_elem_of_fmap_2 (o_dir ∘ fst) l (o, h))|].
    destruct (Hall h) as (Hr & Hbd & Hrm); [by apply (list_elem_of_fmap_2 snd l (o, h))|].
    unfold object_status, gets. cbn. rewrite Eo in *. unfold dir_of at 1. rewrite Hnew.
    unfold dir_of at 1 in Hr. rewrite Hnew in Hr. rewrite Hr, Hbd, Hrm by done. done.
  - intros fn Hfn.
    assert (fn ∉ obj_ids l) as Hn by (intros [Hx _]%Hin; done).
    assert (dir_of s0 fn = dir_of s fn) as <- by (unfold dir_of; by rewrite Hout).
    apply Hrest. intros Hx%(register_fn_ids _ _ _ _ _ _ _ _ _ Ha). rewrite Hfns, <- list_fmap_compose in Hx.
    by rewrite Hid in Hn.
Qed.
End Follow.

Section Witness.
#[local] Existing Instance simple_configfs.
#[local] Existing Instance simple_ffs.
#[local] Existing Instance simple_laws.

(** A program with a function of its own already, a serial port and a keyboard to
    come. *)
Definition one_function : Cfs := (build_function (FnPrinter printer_builder) empty_configfs).2.

Definition port_and_keyboard : list Func := [FnSerial Acm None; FnHid hid_builder].

Definition demo_gadget : LGadget := set_configs [] sample_gadget.

Definition demo_objects : list (FnObject * FnHandle) :=
  match (build_all port_and_keyboard one_function).1 with Ok l => l | Err _ => [] end.

Abbreviation demo_built := (build_all port_and_keyboard one_function).2.
Abbreviation demo_register :=
  (register (fun m => m) (fun _ => false) (fun _ l => l) None (Ok ["usb_gadget"])
     (with_config (config_of (bs "c") demo_objects) demo_gadget) demo_built).

Definition demo_succeeds : bool :=
  match demo_register with
  | (Ok r, s1) =>
      match bind_udc (Some (bs "udc0")) r s1 with
      | (Ok _, s2) => match do_remove r s2 with (Ok _, _) => true | _ => false end
      | _ => false
      end
  | _ => false
  end.

Lemma demo_lifecycle_runs : exists r s1 s2 r' s3,
  demo_register = (Ok r, s1) /\ bind_udc (Some (bs "udc0")) r s1 = (Ok tt, s2) /\ do_remove r s2 = (Ok r', s3).
Proof.
  assert (demo_succeeds = true) as Hok by (vm_compute; reflexivity). unfold demo_succeeds in Hok.
  destruct demo_register as [[r|e] s1] eqn:E1; [|discriminate].
  destruct (bind_udc (Some (bs "udc0")) r s1) as [[[]|e] s2] eqn:E2; [|discriminate].
  destruct (do_remove r s2) as [[r'|e] s3] eqn:E3; [|discriminate].
  exists r, s1, s2, r', s3. split; [reflexivity|]. split; [exact E2|exact E3].
Qed.

Lemma demo_builds : build_all port_and_keyboard one_function = (Ok demo_objects, demo_built).
Proof. reflexivity. Qed.

Lemma demo_first : ({| o_dir := 1 |}, {| h_id := 1; h_func := FnSerial Acm None |}) ∈ demo_objects.
Proof. apply list_elem_of_here. Qed.

Lemma demo_earlier : 0%nat ∈ dom (c_dirs one_function).
Proof. apply elem_of_dom. by eexists. Qed.

Lemma objects_follow_gadget_witness :
  exists r s1 s2, demo_register = (Ok r, s1) /\ bind_udc (Some (bs "udc0")) r s1 = (Ok tt, s2) /\
    (object_status {| o_dir := 1 |} s2).1 = Ok Bound /\ dir_of s2 0 = dir_of one_function 0.
Proof.
  destruct demo_lifecycle_runs as (r & s1 & s2 & r' & s3 & E1 & E2 & E3).
  destruct (objects_follow_gadget (fun m => m) (fun _ => false) (fun _ l => l) None (Ok ["usb_gadget"])
    port_and_keyboard (bs "c") demo_gadget (bs "udc0") one_function demo_objects demo_built r s1 s2 r' s3
    eq_refl demo_builds E1 E2 E3) as (_ & _ & Ho & Hfn).
  destruct (Ho _ _ demo_first) as (_ & _ & Hb & _). destruct (Hfn _ demo_earlier) as (_ & Hd & _).
  exists r, s1, s2. split; [exact E1|]. split; [exact E2|]. split; [exact Hb|exact Hd].
Defined.
End Witness.
