(* ===== verification/GadgetRun.v ===== *)
(** * Running gadgets on configfs

    Models the running half of crates/summit-usbgadget-usb/src/gadget.rs on top
    of [GadgetStack]: the tasks of a gadget's services, the shutdown of a running
    gadget (unbinding, waiting for its tasks, aborting what is left, dropping the
    registration), and the manager loop on the kernel's configfs, with the
    controllers of [Udc]. The theorems show the order of a shutdown and that the
    whole loop implements the manager of [Gadget]. *)

From stdpp Require Import gmap sorting.
From S2P Require Import Prelude Io Bytes SysInfo UsbConfig ConfigFs FfsFunction GadgetFs GadgetFsProps Gadget GadgetProps SimpleKernel GadgetStack Udc.

(** ** Controllers (udc.rs) *)

Definition daemon_speed (s : LSpeed) : Speed :=
  match s with
  | LUnknown => SpUnknown | LLow => LowSpeed | LFull => FullSpeed | LHigh => HighSpeed
  | LSuper => SuperSpeed | LSuperPlus => SuperSpeedPlus
  end.

Definition by_name (host : HostFs) (name : string) : option Udc :=
  match udcs with
  | Ok l => List.find (fun u => bool_decide (u_name u = name)) l
  | Err _ => None
  end.

(** What a build learns of its controller's speed. *)
Definition speed_of (host : HostFs) (u : Udc) : option Speed := daemon_speed <$> ok (udc_max_speed u).

(** The names udev enumerates, sorted; a failure counts as none. *)
Definition existing (enumerated : io_result (list string)) : list string :=
  merge_sort name_le (default [] (ok enumerated)).

(** ** The tasks of a gadget *)

Inductive TaskEnd := EndOk | EndCancelled | EndPanicked (msg : string).

(** When a task ends by itself, counted from the unbinding ([None]: never), and
    how long it goes on after it was aborted. *)
Record Fate := {
  ft_exit : option (Z * TaskEnd);
  ft_abort : Z * TaskEnd;
}.

Record FsRunning := {
  fr_gadget : RunningGadget;
  fr_reg : RegGadget;
  fr_services : list GadgetService;
  fr_tasks : list (GadgetService * string);
}.

Definition running_new (p : RunningGadget * RegGadget) : FsRunning :=
  {| fr_gadget := p.1; fr_reg := p.2; fr_services := rg_services p.1; fr_tasks := [] |}.

(** Each service becomes a task, once. *)
Definition start_services (udc : string) (r : FsRunning) : FsRunning :=
  {| fr_gadget := fr_gadget r; fr_reg := fr_reg r; fr_services := [];
     fr_tasks := fr_tasks r ++ ((fun s => (s, udc)) <$> fr_services r) |}.

(** ** Shutdown *)

Definition SHUTDOWN_GRACE : Z := 500.

(** What a shutdown does, with the times at which it does it. *)
Inductive Act :=
| AUnbound (r : io_result unit)
| AAbort (task : nat)
| AJoined (task : nat) (e : TaskEnd)
| ADropped.

(** One of the joined futures: the task within its grace period, or its abort. *)
Definition join_task (t0 : Z) (i : nat) (f : Fate) : list (Z * Act) :=
  match ft_exit f with
  | Some (d, e) =>
      if d <=? SHUTDOWN_GRACE then [(t0 + Z.max 0 d, AJoined i e)]
      else if d <=? SHUTDOWN_GRACE + Z.max 0 (ft_abort f).1
      then [(t0 + SHUTDOWN_GRACE, AAbort i); (t0 + d, AJoined i e)]
      else [(t0 + SHUTDOWN_GRACE, AAbort i);
            (t0 + SHUTDOWN_GRACE + Z.max 0 (ft_abort f).1, AJoined i (ft_abort f).2)]
  | None =>
      [(t0 + SHUTDOWN_GRACE, AAbort i);
       (t0 + SHUTDOWN_GRACE + Z.max 0 (ft_abort f).1, AJoined i (ft_abort f).2)]
  end.

(** [join_all] waits for the last of them. *)
Definition join_all (t0 : Z) (fates : list Fate) : list (Z * Act) := mjoin (imap (join_task t0) fates).

Definition last_time (t0 : Z) (l : list (Z * Act)) : Z := foldr (fun p => Z.max p.1) t0 l.

Section Shutdown.
Context `{Configfs} `{FfsKernel}.

(** The unbinding takes [unbind_ms]; its failure is only logged. The registration
    is dropped when the function returns. *)
Definition shutdown (fates : nat -> Fate) (start unbind_ms : Z) (r : FsRunning) (s : Cfs)
    : list (Z * Act) * Cfs :=
  let '(res, s) := bind_udc None (fr_reg r) s in
  let t0 := start + Z.max 0 unbind_ms in
  let joins := join_all t0 (fates <$> seq 0 (length (fr_tasks r))) in
  let '(_, s) := drop_gadget (fr_reg r) s in
  ((t0, AUnbound res) :: joins ++ [(last_time t0 joins, ADropped)], s).

End Shutdown.

(** ** The manager on configfs *)

Record FsManager := {
  fm_bound : gset string;
  fm_gadgets : list FsRunning;
  fm_cfs : Cfs;
}.

(** What decides one build: a panic of its thread, sysfs at each of the two
    attempts, and the identities of the functions it makes. *)
Record FsBuild := {
  fb_panic : bool;
  fb_host1 : HostFs;
  fb_host2 : HostFs;
  fb_base1 : nat;
  fb_base2 : nat;
}.

(** What decides one shutdown. *)
Record FsShutdown := { fd_fates : nat -> Fate; fd_start : Z; fd_unbind_ms : Z }.

Inductive FsEvent :=
| FAdd (name : string) (b : FsBuild)
| FRemove (name : string) (d : FsShutdown)
| FOther
| FError (msg : string).

Section Manager.
Context `{Configfs} `{FfsKernel} `{MacParser} (env : SysEnv).
Context (mac_text : list byte -> list byte) (cwd_is_dir : string -> bool).
Context (iter : forall A : Type, list A -> list A) (kernel : option (Z * Z)).
Context (usb_gadget_dir : io_result path) (display : io_error -> string).
Context (cfg : GadgetConfig) (sel : Selection).

Definition fs_reset (s : Cfs) : result Cfs io_error :=
  match remove_all usb_gadget_dir s with
  | (Ok _, s) => Ok s
  | (Err e, s) => if bool_decide (kind e = KNotFound) then Ok s else Err e
  end.

Definition fs_bind_one (name : string) (b : FsBuild) (m : FsManager) : FsManager :=
  if negb (wants sel name (fm_bound m)) then m else
  if fb_panic b then m else
  match by_name (fb_host1 b) name with
  | None => m
  | Some u =>
      match fs_build_on_udc env mac_text cwd_is_dir iter kernel usb_gadget_dir display cfg (u_name u)
              (speed_of (fb_host1 b) u) (speed_of (fb_host2 b) u) (fb_base1 b) (fb_base2 b) (fm_cfs m) with
      | (Err _, s) => {| fm_bound := fm_bound m; fm_gadgets := fm_gadgets m; fm_cfs := s |}
      | (Ok p, s) =>
          {| fm_bound := {[name]} ∪ fm_bound m;
             fm_gadgets := fm_gadgets m ++ [start_services name (running_new p)]; fm_cfs := s |}
      end
  end.

Fixpoint fs_take (name : string) (l : list FsRunning) : option (FsRunning * list FsRunning) :=
  match l with
  | [] => None
  | g :: l =>
      if bool_decide (name_of (fr_reg g) = name) then Some (g, l)
      else match fs_take name l with Some (x, l) => Some (x, g :: l) | None => None end
  end.

Definition fs_unbind_one (name : string) (d : FsShutdown) (m : FsManager) : FsManager :=
  if bool_decide (name ∈ fm_bound m) then
    let bound := fm_bound m ∖ {[name]} in
    match fs_take name (fm_gadgets m) with
    | None => {| fm_bound := bound; fm_gadgets := fm_gadgets m; fm_cfs := fm_cfs m |}
    | Some (g, gadgets) =>
        {| fm_bound := bound; fm_gadgets := gadgets;
           fm_cfs := (shutdown (fd_fates d) (fd_start d) (fd_unbind_ms d) g (fm_cfs m)).2 |}
    end
  else m.

Definition fs_on_event (m : FsManager) (ev : FsEvent) : FsManager :=
  match ev with
  | FAdd name b => fs_bind_one name b m
  | FRemove name d => fs_unbind_one name d m
  | FOther | FError _ => m
  end.

Definition fs_bind_existing (builds : string -> FsBuild) (names : list string) (m : FsManager) : FsManager :=
  foldl (fun m n => fs_bind_one n (builds n) m) m names.

(** One after the other. *)
Fixpoint fs_shutdown_each (ds : nat -> FsShutdown) (i : nat) (l : list FsRunning) (s : Cfs) : Cfs :=
  match l with
  | [] => s
  | g :: l =>
      let d := ds i in
      fs_shutdown_each ds (S i) l (shutdown (fd_fates d) (fd_start d) (fd_unbind_ms d) g s).2
  end.

Definition fs_shutdown_all (ds : nat -> FsShutdown) (m : FsManager) : FsManager :=
  {| fm_bound := fm_bound m; fm_gadgets := []; fm_cfs := fs_shutdown_each ds 0 (fm_gadgets m) (fm_cfs m) |}.

End Manager.

Section Serve.
Context `{Configfs} `{FfsKernel} `{MacParser} (env : SysEnv).
Context (mac_text : list byte -> list byte) (cwd_is_dir : string -> bool).
Context (iter : forall A : Type, list A -> list A) (kernel : option (Z * Z)).
Context (usb_gadget_dir : io_result path) (display : io_error -> string).

(** [serve_until]: the events end with the shutdown request or the monitor. *)
Definition fs_serve_until (cfg : GadgetConfig) (monitor : io_result unit) (enumerated : io_result (list string))
    (builds : string -> FsBuild) (events : list FsEvent) (ds : nat -> FsShutdown) (s : Cfs)
    : result FsManager io_error :=
  let? s := fs_reset usb_gadget_dir s in
  let sel := from_config (gc_udc cfg) in
  let? _ := monitor in
  let m := fs_bind_existing env mac_text cwd_is_dir iter kernel usb_gadget_dir display cfg sel builds
             (existing enumerated) {| fm_bound := ∅; fm_gadgets := []; fm_cfs := s |} in
  let m := foldl (fs_on_event env mac_text cwd_is_dir iter kernel usb_gadget_dir display cfg sel) m events in
  Ok (fs_shutdown_all ds m).

End Serve.

(** ** The order of a shutdown *)

Lemma last_time_ge t0 l t a : (t, a) ∈ l -> t <= last_time t0 l.
Proof.
  induction l as [|p l IH]; [by intros ?%not_elem_of_nil|].
  intros [<-|Hin]%elem_of_cons; cbn; [lia|]. specialize (IH Hin). unfold last_time in IH. lia.
Qed.

Lemma last_time_le t0 l b : t0 <= b -> (forall t a, (t, a) ∈ l -> t <= b) -> last_time t0 l <= b.
Proof.
  intros Ht. induction l as [|[t a] l IH]; intros Hl; [done|]. cbn.
  pose proof (Hl t a ltac:(set_solver)). pose proof (IH ltac:(set_solver)) as Hr. unfold last_time in Hr. lia.
Qed.

Lemma elem_of_join_all t0 fates n t a :
  (t, a) ∈ join_all t0 (fates <$> seq 0 n) <-> exists i, (i < n)%nat /\ (t, a) ∈ join_task t0 i (fates i).
Proof.
  unfold join_all. rewrite list_elem_of_join. split.
  - intros (l & Ha & Hl). apply elem_of_lookup_imap in Hl as (i & f & -> & Hf).
    rewrite list_lookup_fmap in Hf. apply fmap_Some in Hf as (k & Hk%lookup_seq & ->).
    destruct Hk as [-> Hlt]. by exists i.
  - intros (i & Hi & Ha). exists (join_task t0 i (fates i)). split; [done|].
    apply elem_of_lookup_imap. exists i, (fates i). split; [done|].
    rewrite list_lookup_fmap, lookup_seq_lt by done. done.
Qed.

(** What the future of one task does. *)
Lemma join_task_spec t0 i f :
  (forall t j, (t, AAbort j) ∈ join_task t0 i f ->
     j = i /\ t = t0 + SHUTDOWN_GRACE /\ forall d e, ft_exit f = Some (d, e) -> SHUTDOWN_GRACE < d) /\
  (exists t e, (t, AJoined i e) ∈ join_task t0 i f) /\
  (forall t a, (t, a) ∈ join_task t0 i f -> t0 <= t <= t0 + SHUTDOWN_GRACE + Z.max 0 (ft_abort f).1).
Proof.
  unfold join_task, SHUTDOWN_GRACE. destruct (ft_exit f) as [[d e]|].
  - destruct (Z.leb_spec d 500); [|destruct (Z.leb_spec d (500 + Z.max 0 (ft_abort f).1))].
    all: split_and!; [..|intros; set_unfold; naive_solver lia].
    all: try (intros ? ?; set_unfold; naive_solver lia).
    all: do 2 eexists; rewrite !elem_of_cons; eauto.
  - split_and!; [..|intros; set_unfold; naive_solver lia].
    + intros ? ?. set_unfold. naive_solver.
    + do 2 eexists. rewrite !elem_of_cons. eauto.
Qed.

Section Order.
Context `{Configfs} `{FfsKernel}.

(** C19. The order of a shutdown. The gadget is unbound first; no task is aborted
    before the unbinding returned and the grace period after it is over, and only
    a task that did not end by itself in that time is; every task has ended when
    the registration is dropped, which is the last thing that happens, no later
    than the grace period and the longest reaction to an abort after the
    unbinding. *)
Theorem shutdown_order fates start unbind_ms r s reaction :
  0 <= reaction -> (forall i, (ft_abort (fates i)).1 <= reaction) ->
  let t0 := start + Z.max 0 unbind_ms in
  exists res t1, let tr := (shutdown fates start unbind_ms r s).1 in
    head tr = Some (t0, AUnbound res) /\ list.last tr = Some (t1, ADropped) /\
    (forall t i, (t, AAbort i) ∈ tr -> t = t0 + SHUTDOWN_GRACE /\
       forall d e, ft_exit (fates i) = Some (d, e) -> SHUTDOWN_GRACE < d) /\
    (forall i, (i < length (fr_tasks r))%nat -> exists t e, (t, AJoined i e) ∈ tr /\ t <= t1) /\
    (forall t a, (t, a) ∈ tr -> t0 <= t <= t1) /\ t1 <= t0 + SHUTDOWN_GRACE + reaction.
Proof.
  intros Hr Hf t0. unfold shutdown. destruct (bind_udc None (fr_reg r) s) as [res s1].
  destruct (drop_gadget (fr_reg r) s1) as [x s2]. fold t0.
  set (joins := join_all t0 (fates <$> seq 0 (length (fr_tasks r)))).
  assert (forall t a, (t, a) ∈ joins -> t0 <= t <= t0 + SHUTDOWN_GRACE + reaction) as Htime.
  { intros t a (i & _ & Hin)%elem_of_join_all. apply (join_task_spec t0 i (fates i)) in Hin. specialize (Hf i). lia. }
  assert (t0 <= last_time t0 joins) as Hlast.
  { unfold last_time. clear. induction joins as [|p l IH]; cbn; [done|]. lia. }
  exists res, (last_time t0 joins). cbn [fst head]. split; [done|].
  split; [by rewrite app_comm_cons, last_snoc|]. split_and!.
  - intros t i [Hin|Hin]%elem_of_cons; [done|]. apply elem_of_app in Hin as [Hin|Hin]; [|set_solver].
    apply elem_of_join_all in Hin as (j & _ & Hin). by apply (join_task_spec t0 j (fates j)) in Hin as (-> & -> & ?).
  - intros i Hi. destruct (join_task_spec t0 i (fates i)) as (_ & (t & e & Hin) & _). exists t, e.
    assert ((t, AJoined i e) ∈ joins) as Hj by (apply elem_of_join_all; eauto).
    split; [set_solver|]. by eapply last_time_ge.
  - intros t a [[= -> ->]|Hin]%elem_of_cons; [lia|]. apply elem_of_app in Hin as [Hin|Hin].
    + split; [by eapply Htime|by eapply last_time_ge].
    + apply list_elem_of_singleton in Hin as [= -> ->]. lia.
  - apply last_time_le; [unfold SHUTDOWN_GRACE; lia|]. intros t a Hin. by eapply Htime.
Qed.

End Order.

(** ** The loop implements the manager *)

Section Simulation.
Context `{Hlaws : ConfigfsLaws} `{!ConfigfsListing H} `{FfsKernel} `{MacParser} (env : SysEnv).
Context (mac_text : list byte -> list byte) (cwd_is_dir : string -> bool).
Context (iter : forall A : Type, list A -> list A) (kernel : option (Z * Z)).
Context (usb_gadget_dir : io_result path) (display : io_error -> string).

Abbreviation dir := (dir_text usb_gadget_dir).
Abbreviation dirs_match := (dirs_match usb_gadget_dir).

Definition entry (g : FsRunning) : RunningGadget * RegGadget := (fr_gadget g, fr_reg g).

(** The manager's view of the loop's state. *)
Record sim (m : Manager) (fm : FsManager) : Prop := {
  sim_bound : mg_bound m = fm_bound fm;
  sim_gadgets : mg_gadgets m = fr_gadget <$> fm_gadgets fm;
  sim_fs : dirs_match (c_fs (fm_cfs fm)) (mg_fs m);
  sim_regs : Forall (fun g => registered_as usb_gadget_dir (entry g)) (fm_gadgets fm);
}.

(** Unbinding and dropping removes the gadget's directory or leaves it. *)
Lemma shutdown_simulates fates start ms g s fs :
  registered_as usb_gadget_dir (entry g) -> dirs_match (c_fs s) fs ->
  exists removed, dirs_match (c_fs (shutdown fates start ms g s).2)
    (shutdown_gadget removed (udc_name (fr_gadget g)) fs).
Proof.
  intros (root & Hroot & Hd) Hm. cbn [entry fst snd] in Hd. unfold shutdown.
  pose proof (bind_udc_spec None (fr_reg g) s) as Hb. rewrite Hd in Hb.
  destruct (bind_udc None (fr_reg g) s) as [res s1]. destruct Hb as [Hb _].
  pose proof (dirs_match_kept _ _ _ _ _ _ Hroot Hb Hm) as Hm1.
  unfold drop_gadget. destruct (rg_attached (fr_reg g)); [|exists false; done].
  rewrite bind_attempt. pose proof (do_remove_spec (fr_reg g) s1) as Hr. rewrite Hd in Hr.
  destruct (do_remove (fr_reg g) s1) as [[r'|e] s2]; cbn [ret snd].
  - destruct Hr as (_ & Hq & _). exists true. by eapply dirs_match_gone.
  - exists false. by eapply dirs_match_kept.
Qed.

Lemma shutdown_each_simulates ds i l s fs :
  Forall (fun g => registered_as usb_gadget_dir (entry g)) l -> dirs_match (c_fs s) fs ->
  exists removed, dirs_match (c_fs (fs_shutdown_each ds i l s)) (shutdown_each removed i (fr_gadget <$> l) fs).
Proof.
  intros Hl. revert i s fs. induction Hl as [|g l Hg _ IH]; intros i s fs Hm; [by exists (fun _ => true)|].
  cbn [fs_shutdown_each shutdown_each fmap list_fmap].
  destruct (shutdown_simulates (fd_fates (ds i)) (fd_start (ds i)) (fd_unbind_ms (ds i)) g s fs Hg Hm) as [b Hb].
  destruct (IH (S i) _ _ Hb) as [removed Hr].
  exists (fun j => if decide (j = i) then b else removed j). rewrite decide_True by done.
  replace (shutdown_each (fun j => if decide (j = i) then b else removed j) (S i) (fr_gadget <$> l)) with
    (shutdown_each removed (S i) (fr_gadget <$> l)); [done|].
  clear. assert (i < S i)%nat as Hi by lia. revert Hi. generalize (S i). induction l as [|g l IH]; intros j Hi; [done|].
  cbn. rewrite decide_False by lia. by rewrite IH by lia.
Qed.

Lemma by_name_name host name u : by_name host name = Some u -> u_name u = name.
Proof.
  unfold by_name. destruct udcs as [l|e]; [|done]. intros Hf%List.find_some.
  by destruct Hf as [_ ?%bool_decide_eq_true].
Qed.

Section Loop.
Context (cfg : GadgetConfig) (sel : Selection).
Abbreviation fs_bind := (fs_bind_one env mac_text cwd_is_dir iter kernel usb_gadget_dir display cfg sel).
Abbreviation fs_event := (fs_on_event env mac_text cwd_is_dir iter kernel usb_gadget_dir display cfg sel).

(** The build of a running gadget is registered under its controller's name. *)
Lemma bind_simulates name b m fm :
  sim m fm -> exists sc, sim (bind_one env dir cfg sel name sc m) (fs_bind name b fm).
Proof.
  intros [Hb Hg Hf Hr]. unfold fs_bind_one, bind_one. rewrite <- Hb.
  set (idle := {| bu_panic := true; bu_present := false; bu_first := some_attempt None; bu_retry := some_attempt None |}).
  destruct (wants sel name (mg_bound m)) eqn:Ew; cbn [negb]; [|exists idle; by split].
  destruct (fb_panic b); [exists idle; by split|].
  destruct (by_name (fb_host1 b) name) as [u|] eqn:Eu; [|exists idle; by split].
  rewrite (by_name_name _ _ _ Eu).
  destruct (build_simulates env mac_text cwd_is_dir iter kernel usb_gadget_dir display cfg name
    (speed_of (fb_host1 b) u) (speed_of (fb_host2 b) u) (fb_base1 b) (fb_base2 b) (fm_cfs fm) (mg_fs m) Hf)
    as (a1 & a2 & _ & _ & [Hres Hdirs Hreg]).
  exists {| bu_panic := false; bu_present := true; bu_first := a1; bu_retry := a2 |}. cbn [orb negb bu_panic bu_present bu_first bu_retry].
  destruct (fs_build_on_udc _ _ _ _ _ _ _ _ _ _ _ _ _ _) as [[p|e] s]; cbn [fst snd running_of] in *;
    destruct (build_on_udc env dir cfg name a1 a2 (mg_fs m)) as [r fs]; cbn [fst snd] in *; subst r.
  - split; cbn; [by rewrite Hb|by rewrite Hg, fmap_app|done|].
    apply Forall_app. split; [done|]. constructor; [|constructor]. cbn.
    destruct p as [r reg]. by apply Hreg.
  - by split.
Qed.

Lemma take_simulates name l :
  Forall (fun g => registered_as usb_gadget_dir (entry g)) l ->
  match fs_take name l with
  | None => take_gadget name (fr_gadget <$> l) = None
  | Some (g, l') => take_gadget name (fr_gadget <$> l) = Some (fr_gadget <$> l') /\ g ∈ l /\
      udc_name (fr_gadget g) = name /\ (forall x, x ∈ l' -> x ∈ l)
  end.
Proof.
  induction 1 as [|g l (root & Hroot & Hd) _ IH]; [done|]. cbn [fs_take take_gadget fmap list_fmap].
  cbn [entry fst snd] in Hd. rewrite (name_of_sub _ _ _ Hd).
  case_bool_decide as Hn.
  - split; [done|]. split; [set_solver|]. split; [done|]. set_solver.
  - destruct (fs_take name l) as [[x l']|].
    + destruct IH as (-> & Hx & Hu & Hin). split; [done|]. split; [set_solver|]. split; [done|]. set_solver.
    + by rewrite IH.
Qed.

Lemma unbind_simulates name d m fm :
  sim m fm -> exists removed, sim (unbind_one name removed m) (fs_unbind_one name d fm).
Proof.
  intros [Hb Hg Hf Hr]. unfold fs_unbind_one, unbind_one. rewrite <- Hb.
  case_bool_decide; [|exists true; by split].
  pose proof (take_simulates name _ Hr) as Ht. rewrite <- Hg in Ht.
  destruct (fs_take name (fm_gadgets fm)) as [[g l']|].
  - destruct Ht as (Ht & Hin & Hu & Hsub). rewrite Ht. pose proof Hr as Hr'. rewrite list.Forall_forall in Hr'.
    destruct (shutdown_simulates (fd_fates d) (fd_start d) (fd_unbind_ms d) g (fm_cfs fm) (mg_fs m)
      (Hr' g Hin) Hf) as [removed Hs].
    exists removed. split; cbn; [done|done|by rewrite <- Hu|]. apply list.Forall_forall. auto.
  - rewrite Ht. exists true. by split.
Qed.

(** A udev event of the kernel and the manager's description of it. *)
Inductive describes : FsEvent -> UdevEvent -> Prop :=
| describes_add name b sc : describes (FAdd name b) (UAdd name sc)
| describes_remove name d removed : describes (FRemove name d) (URemove name removed)
| describes_other : describes FOther UOther
| describes_error msg : describes (FError msg) (UError msg).

Lemma event_simulates ev m fm :
  sim m fm -> exists ev', describes ev ev' /\ sim (on_event env dir cfg sel m ev') (fs_event fm ev).
Proof.
  intros Hs. destruct ev as [name b|name d| |msg]; cbn [fs_on_event].
  - destruct (bind_simulates name b m fm Hs) as [sc Hsc]. exists (UAdd name sc). by split; [constructor|].
  - destruct (unbind_simulates name d m fm Hs) as [r Hsr]. exists (URemove name r). by split; [constructor|].
  - exists UOther. by split; [constructor|].
  - exists (UError msg). by split; [constructor|].
Qed.

Lemma events_simulate evs m fm :
  sim m fm -> exists evs', Forall2 describes evs evs' /\
    sim (foldl (on_event env dir cfg sel) m evs') (foldl fs_event fm evs).
Proof.
  revert m fm. induction evs as [|ev evs IH]; intros m fm Hs; [exists []; by split; [constructor|]|].
  destruct (event_simulates ev m fm Hs) as (ev' & Hd & Hs').
  destruct (IH _ _ Hs') as (evs' & Hds & Hs''). exists (ev' :: evs'). by split; [constructor|].
Qed.

Lemma existing_simulates builds names m fm :
  sim m fm -> exists l, l.*1 = names /\
    sim (bind_existing env dir cfg sel l m)
      (fs_bind_existing env mac_text cwd_is_dir iter kernel usb_gadget_dir display cfg sel builds names fm).
Proof.
  revert m fm. induction names as [|n names IH]; intros m fm Hs; [by exists []|].
  destruct (bind_simulates n (builds n) m fm Hs) as [sc Hsc].
  destruct (IH _ _ Hsc) as (l & <- & Hl). by exists ((n, sc) :: l).
Qed.
End Loop.

(** C18. The whole run of the USB service on configfs (reset, the controllers that
    are there, the udev events, the shutdown) implements the manager of [Gadget]:
    whatever the kernel answers to every single operation, there is a script of
    answers under which the manager's run on the set of gadget directories has
    the same controllers, the same gadgets, the same result, and the directories
    configfs has in the end. *)
Theorem serve_until_refines cfg monitor enumerated builds events ds s fs :
  dirs_match (c_fs s) fs ->
  exists removal scripts events' removed,
    scripts.*1 = existing enumerated /\ Forall2 describes events events' /\
    removal.1 = (remove_all usb_gadget_dir s).1 /\
    match fs_serve_until env mac_text cwd_is_dir iter kernel usb_gadget_dir display cfg monitor enumerated
            builds events ds s,
          serve_until env dir cfg removal monitor scripts events' removed fs with
    | Ok fm, Ok m => sim m fm
    | Err e, Err e' => e = e'
    | _, _ => False
    end.
Proof.
  intros Hm. destruct (reset_simulates cwd_is_dir usb_gadget_dir display s fs Hm) as [gone Hg].
  unfold fs_serve_until, serve_until, serving.
  assert (match fs_reset usb_gadget_dir s, reset_gadgets ((remove_all usb_gadget_dir s).1, gone) fs with
          | Ok s', Ok fs' => dirs_match (c_fs s') fs'
          | Err e, Err e' => e = e'
          | _, _ => False end) as Hreset.
  { unfold fs_reset, reset_gadgets in *. destruct (remove_all usb_gadget_dir s) as [[[]|e] s']; cbn [fst snd] in *;
      [done|]. by case_bool_decide. }
  destruct (fs_reset usb_gadget_dir s) as [s'|e]; destruct (reset_gadgets _ fs) as [fs'|e'] eqn:Er; try done.
  2: { exists ((remove_all usb_gadget_dir s).1, gone), ((fun n => (n,
         {| bu_panic := true; bu_present := false; bu_first := some_attempt None; bu_retry := some_attempt None |}))
         <$> existing enumerated), ((fun ev => match ev with FAdd n _ => UAdd n
         {| bu_panic := true; bu_present := false; bu_first := some_attempt None; bu_retry := some_attempt None |}
         | FRemove n _ => URemove n true | FOther => UOther | FError m => UError m end) <$> events), (fun _ => true).
       split; [rewrite <- list_fmap_compose; apply list_fmap_id|]. split.
       { apply Forall2_fmap_r, Forall_Forall2_diag, list.Forall_forall. intros [] _; constructor. }
       split; [done|]. by rewrite Er. }
  set (sel := from_config (gc_udc cfg)).
  assert (sim {| mg_bound := ∅; mg_gadgets := []; mg_fs := fs' |} {| fm_bound := ∅; fm_gadgets := []; fm_cfs := s' |})
    as Hs0 by (by split).
  destruct (existing_simulates cfg sel builds (existing enumerated) _ _ Hs0) as (scripts & Hsc & Hs1).
  destruct (events_simulate cfg sel events _ _ Hs1) as (events' & Hev & Hs2).
  destruct (shutdown_each_simulates ds 0 _ _ _ (sim_regs _ _ Hs2) (sim_fs _ _ Hs2)) as [removed Hs3].
  exists ((remove_all usb_gadget_dir s).1, gone), scripts, events', removed. split; [done|]. split; [done|].
  split; [done|]. rewrite Er. cbn [rbind]. destruct monitor as [[]|e]; [|done]. cbn [rbind].
  fold sel. destruct Hs2 as [Hb Hgs Hfs Hrs]. split; cbn; [done|done| |constructor].
  by rewrite Hgs.
Qed.

End Simulation.

(** ** A run *)

Section RunDemo.
#[local] Existing Instance simple_configfs.
#[local] Existing Instance simple_ffs.
#[local] Existing Instance simple_laws.
#[local] Existing Instance simple_listing.
#[local] Existing Instance GadgetDemo.mac.

(** Two tasks: one notices that its endpoints are gone, one is stuck. *)
Definition noticing : Fate := {| ft_exit := Some (20, EndOk); ft_abort := (0, EndCancelled) |}.
Definition stuck : Fate := {| ft_exit := None; ft_abort := (5, EndCancelled) |}.
Definition mixed (i : nat) : Fate := if (i =? 0)%nat then noticing else stuck.

(** A controller in sysfs. *)
Definition sysfs : HostFs := {|
  h_is_dir := fun _ => true;
  h_read_dir := fun _ => Ok [Ok GadgetDemo.udc];
  h_read := fun _ => Ok (bs "high-speed" ++ [Byte.x0a]);
  h_read_link := fun _ => Err (Os ENOENT);
  h_write := fun _ _ => Ok tt |}.

Definition demo_build (base : nat) : FsBuild :=
  {| fb_panic := false; fb_host1 := sysfs; fb_host2 := sysfs; fb_base1 := base; fb_base2 := (base + 10)%nat |}.
Definition demo_shutdown : FsShutdown := {| fd_fates := mixed; fd_start := 1000; fd_unbind_ms := 30 |}.

Abbreviation demo_config := (GadgetDemo.gadget [GadgetDemo.dfu; GadgetDemo.acm]).
Definition demo_events : list FsEvent := [FRemove GadgetDemo.udc demo_shutdown; FOther; FAdd GadgetDemo.udc (demo_build 20)].

Definition demo_manager : FsManager :=
  fs_bind_one imx8mp_env (fun m => m) (fun _ => false) (fun _ l => l) None (Ok ["usb_gadget"]) show_error
    demo_config All GadgetDemo.udc (demo_build 0) {| fm_bound := ∅; fm_gadgets := []; fm_cfs := empty_configfs |}.

(** The shutdown of a running gadget with its DFU task and a stuck one. *)
Example shutdown_trace :
  match fm_gadgets demo_manager with
  | g :: _ => (length (fr_tasks g), (shutdown mixed 1000 30 g (fm_cfs demo_manager)).1)
  | [] => (0%nat, [])
  end = (1%nat, [(1030, AUnbound (Ok tt)); (1050, AJoined 0 EndOk); (1050, ADropped)]).
Proof. vm_compute. reflexivity. Qed.

Definition two_tasks (g : FsRunning) : FsRunning :=
  {| fr_gadget := fr_gadget g; fr_reg := fr_reg g; fr_services := []; fr_tasks := fr_tasks g ++ fr_tasks g |}.

Lemma shutdown_order_witness :
  match fm_gadgets demo_manager with
  | g :: _ =>
      let tr := (shutdown mixed 1000 30 (two_tasks g) (fm_cfs demo_manager)).1 in
      list.last tr = Some (1535, ADropped) /\ (1530, AAbort 1) ∈ tr /\
      forall t i, (t, AAbort i) ∈ tr -> t = 1530
  | [] => False
  end.
Proof.
  destruct (fm_gadgets demo_manager) as [|g l] eqn:E; [vm_compute in E; discriminate E|].
  assert (length (fr_tasks g) = 1%nat) as Hl.
  { assert (length <$> (fr_tasks <$> fm_gadgets demo_manager) = [1%nat]) as El by (vm_compute; reflexivity).
    rewrite E in El. injection El as El _. exact El. }
  destruct (shutdown_order mixed 1000 30 (two_tasks g) (fm_cfs demo_manager) 5) as (res & t1 & Hh & Hlast & Hab & _).
  - lia.
  - intros i. unfold mixed. destruct (i =? 0)%nat; cbn; lia.
  - cbn zeta in *. split; [|split; [|intros t i Hin; exact (proj1 (Hab t i Hin))]].
    + rewrite Hlast. unfold shutdown in Hlast. destruct (bind_udc None _ _) as [r1 s1].
      destruct (drop_gadget _ s1) as [r2 s2]. cbn [fst two_tasks fr_tasks] in Hlast.
      rewrite length_app, Hl, app_comm_cons, last_snoc in Hlast. injection Hlast as <-. reflexivity.
    + unfold shutdown. destruct (bind_udc None _ _) as [r1 s1]. destruct (drop_gadget _ s1) as [r2 s2].
      cbn [fst two_tasks fr_tasks]. rewrite length_app, Hl. apply elem_of_cons. right. apply elem_of_app. left.
      apply elem_of_join_all. exists 1%nat. split; [cbn; lia|]. vm_compute. left.
Defined.

Abbreviation demo_run := (fs_serve_until imx8mp_env (fun m => m) (fun _ => false) (fun _ l => l) None
  (Ok ["usb_gadget"]) show_error demo_config (Ok tt) (Ok [GadgetDemo.udc]) (fun _ => demo_build 0) demo_events
  (fun _ => demo_shutdown) empty_configfs).

Lemma serve_until_refines_witness :
  exists fm m, demo_run = Ok fm /\ sim (Ok ["usb_gadget"]) m fm.
Proof.
  destruct (serve_until_refines imx8mp_env (fun m => m) (fun _ => false) (fun _ l => l) None
    (Ok ["usb_gadget"]) show_error demo_config (Ok tt) (Ok [GadgetDemo.udc]) (fun _ => demo_build 0) demo_events
    (fun _ => demo_shutdown) empty_configfs ∅ empty_dirs) as (removal & scripts & events' & removed & _ & _ & _ & H).
  assert (is_ok demo_run = true) as Hok by (vm_compute; reflexivity).
  destruct demo_run as [fm|e]; [|discriminate Hok].
  destruct (serve_until _ _ _ _ _ _ _ _ _) as [m|e]; [|destruct H].
  exists fm, m. split; [reflexivity|exact H].
Defined.

(** The controller came, went and came back; in the end nothing is left. *)
Example demo_run_leaves_nothing :
  match demo_run with
  | Ok fm => (elements (fm_bound fm), match k_read_dir ["usb_gadget"] (c_fs (fm_cfs fm)) with Ok [] => true | _ => false end)
  | Err _ => ([], false)
  end = ([GadgetDemo.udc], true).
Proof. vm_compute. reflexivity. Qed.
End RunDemo.
