(* ===== verification/Udev.v ===== *)
(** * Controllers as udev reports them

    Models the use of udev in crates/summit-usbgadget-usb: the enumeration of the
    attached controllers and the monitor of their events (udc.rs), the reading of
    an event and the entry point without a shutdown (gadget.rs). The udev library
    is an interface, [UdevLib], with what it documents as [UdevLaws]. The theorem
    is on the start of the service: the monitor listens before the controllers
    are enumerated, so that none that comes or goes in between is missed. *)

From stdpp Require Import gmap sorting.
From S2P Require Import Prelude Io Bytes SysInfo Session FunctionFs Dfu FastbootProto FastbootUsb UsbConfig Gadget GadgetProps.
From S2P Require Import ConfigFs GadgetFs Udc GadgetRun.

(** ** The library *)

Definition SUBSYSTEM : string := "udc".

Inductive EventType := Add | Remove | Change | Online | Offline | Bind | Unbind | UnknownType.

(** An event of the monitor. *)
Record UEvent := { ue_sysname : string; ue_type : EventType }.

(** [Enumerator], [MonitorBuilder] and [AsyncMonitorSocket]; the daemon's state
    goes on by [ud_happens]. *)
Class UdevLib (K : Type) := {
  ud_enumerator : M K unit;
  ud_enumerator_match : string -> M K unit;
  ud_scan_devices : M K (list string);
  ud_builder : M K unit;
  ud_builder_match : string -> M K unit;
  ud_listen : M K unit;
  ud_async_socket : M K unit;
  ud_happens : UEvent -> K -> K;
  (** The controllers that are attached, and the events the monitor has not yet
      delivered, if there is one. *)
  ud_devices : K -> gset string;
  ud_queue : K -> option (list UEvent);
}.

(** A device is there between its [Add] and its [Remove]. *)
Definition attached (ev : UEvent) (ds : gset string) : gset string :=
  match ue_type ev with
  | Add => {[ue_sysname ev]} ∪ ds
  | Remove => ds ∖ {[ue_sysname ev]}
  | _ => ds
  end.

(** The calls do not change the devices; a scan that succeeds reports each device
    once; a monitor that listens gets every event from then on, in order. *)
Class UdevLaws {K} `(UdevLib K) : Prop := {
  enumerator_law k : (ud_enumerator k).2 = k;
  enumerator_match_law s k : (ud_enumerator_match s k).2 = k;
  scan_law k : (ud_scan_devices k).2 = k /\
    forall names, (ud_scan_devices k).1 = Ok names -> NoDup names /\ list_to_set names = ud_devices k;
  builder_law k : (ud_builder k).2 = k;
  builder_match_law s k : (ud_builder_match s k).2 = k;
  listen_law k : ud_devices (ud_listen k).2 = ud_devices k /\
    ((ud_listen k).1 = Ok tt -> ud_queue (ud_listen k).2 = Some []);
  async_socket_law k : (ud_async_socket k).2 = k;
  happens_law ev k : ud_devices (ud_happens ev k) = attached ev (ud_devices k) /\
    ud_queue (ud_happens ev k) = (fun q => q ++ [ev]) <$> ud_queue k;
}.

Section Calls.
Context {K : Type} `{UdevLib K}.

Definition enumerate : M K (list string) :=
  ud_enumerator >>; ud_enumerator_match SUBSYSTEM >>; ud_scan_devices.

(** [udc::existing]: a failure counts as none. *)
Definition udc_existing : M K (list string) :=
  do! names := attempt enumerate in ret (existing names).

Definition monitor : M K unit :=
  ud_builder >>; ud_builder_match SUBSYSTEM >>; ud_listen >>; ud_async_socket.

Definition udc_name_from_event (ev : UEvent) : option (string * EventType) :=
  match ue_type ev with
  | Add | Remove => Some (ue_sysname ev, ue_type ev)
  | _ => None
  end.

(** The events that happen during an interval. *)
Definition happen (evs : list UEvent) (k : K) : K := foldl (fun k ev => ud_happens ev k) k evs.
End Calls.

(** ** The start of the service *)

Section Start.
Context {K : Type} `{UdevLaws K} `{MacParser} (env : SysEnv) (dir : string).

(** What a build or a removal comes to when it is made: which build follows an
    [Add] is that of its position among the events. *)
Record Fates := {
  fa_existing : string -> BuildScript;
  fa_build : nat -> BuildScript;
  fa_removed : nat -> bool;
}.

(** The monitor's events as the manager handles them. *)
Definition handled (f : Fates) (i : nat) (ev : UEvent) : UdevEvent :=
  match udc_name_from_event ev with
  | Some (name, Add) => UAdd name (fa_build f i)
  | Some (name, Remove) => URemove name (fa_removed f i)
  | _ => UOther
  end.

(** [serve_until] up to the point where it has handled everything so far:
    [before] happens before the monitor listens, [gap] between that and the
    enumeration, [later] after it. *)
Definition serve_start (cfg : GadgetConfig) (f : Fates) (remove_all : io_result unit * gset string) (before gap later : list UEvent)
    (k : K) (fs : gset string) : result Manager io_error :=
  let? fs := reset_gadgets remove_all fs in
  let (listening, k) := monitor (happen before k) in
  let? _ := listening in
  let (names, k) := udc_existing (happen gap k) in
  let? names := names in
  let sel := from_config (gc_udc cfg) in
  let m := bind_existing env dir cfg sel ((fun n => (n, fa_existing f n)) <$> names)
             {| mg_bound := ∅; mg_gadgets := []; mg_fs := fs |} in
  Ok (foldl (on_event env dir cfg sel) m (imap (handled f) (default [] (ud_queue (happen later k))))).

(** ** Which controllers carry a gadget *)

(** The last event that attaches or detaches a controller. *)
Definition about (n : string) (ev : UEvent) : option bool :=
  if bool_decide (ue_sysname ev = n) then
    match ue_type ev with Add => Some true | Remove => Some false | _ => None end
  else None.

Fixpoint last_about (n : string) (evs : list UEvent) : option bool :=
  match evs with
  | [] => None
  | ev :: evs => match last_about n evs with Some b => Some b | None => about n ev end
  end.

Definition settled_by (o : option bool) (P : Prop) : Prop :=
  match o with Some true => True | Some false => False | None => P end.

Lemma attached_about n ev ds : n ∈ attached ev ds <-> settled_by (about n ev) (n ∈ ds).
Proof.
  unfold attached, about. case_bool_decide as Hn; [subst n|]; destruct (ue_type ev); cbn; set_solver.
Qed.

Lemma devices_about n evs ds :
  n ∈ foldl (fun ds ev => attached ev ds) ds evs <-> settled_by (last_about n evs) (n ∈ ds).
Proof.
  revert ds. induction evs as [|ev evs IH]; intros ds; [done|]. cbn [foldl last_about]. rewrite IH.
  destruct (last_about n evs) as [[]|]; [done..|]. apply attached_about.
Qed.

Lemma last_about_app n l1 l2 :
  last_about n (l1 ++ l2) = match last_about n l2 with Some b => Some b | None => last_about n l1 end.
Proof.
  induction l1 as [|ev l1 IH]; cbn; [by destruct (last_about n l2)|]. rewrite IH. by destruct (last_about n l2).
Qed.

Lemma happen_devices evs k :
  ud_devices (happen evs k) = foldl (fun ds ev => attached ev ds) (ud_devices k) evs.
Proof.
  revert k. induction evs as [|ev evs IH]; intros k; [done|].
  change (happen (ev :: evs) k) with (happen evs (ud_happens ev k)). cbn [foldl]. rewrite IH. by rewrite (proj1 (happens_law ev k)).
Qed.

Lemma happen_queue evs k q : ud_queue k = Some q -> ud_queue (happen evs k) = Some (q ++ evs).
Proof.
  revert k q. induction evs as [|ev evs IH]; intros k q Hq; [by rewrite app_nil_r|].
  change (happen (ev :: evs) k) with (happen evs (ud_happens ev k)).
  rewrite (IH _ (q ++ [ev])); [by rewrite <- app_assoc|]. by rewrite (proj2 (happens_law ev k)), Hq.
Qed.

Context (cfg : GadgetConfig).
Abbreviation sel := (from_config (gc_udc cfg)).

(** The controllers a selection of all or of a list asks for. *)
Definition selected (n : string) : Prop :=
  match sel with First => False | All => True | Named ns => n ∈ ns end.

#[local] Instance selected_dec n : Decision (selected n).
Proof. unfold selected. destruct sel; apply _. Defined.

(** A build that succeeds when the gadget is not there already. *)
Definition builds (n : string) (b : BuildScript) : Prop :=
  bu_panic b = false /\ bu_present b = true /\
  forall fs, n ∉ fs -> is_ok (build_on_udc env dir cfg n (bu_first b) (bu_retry b) fs).1 = true.

(** The removals and the cleanups of failed builds work. *)
Definition cleans_up (f : Fates) : Prop :=
  (forall n, script_works (fa_existing f n)) /\ (forall i, script_works (fa_build f i)) /\ (forall i, fa_removed f i = true).

(** Then configfs holds the gadgets of the bound controllers. *)
Definition exact (m : Manager) : Prop := mgr_ok sel m /\ mg_fs m = mg_bound m.

Lemma bind_exact name b m : script_works b -> exact m -> exact (bind_one env dir cfg sel name b m).
Proof. intros Hb [Hm He]. split; [by apply bind_one_ok|by apply bind_one_exact]. Qed.

Lemma handled_exact f i ev m :
  cleans_up f -> exact m -> exact (on_event env dir cfg sel m (handled f i ev)).
Proof.
  intros (_ & Hb & Hr) Hm. unfold handled, udc_name_from_event. destruct (ue_type ev); cbn [on_event]; try done.
  - by apply bind_exact.
  - rewrite Hr. destruct Hm. split; [by apply unbind_one_ok|by eapply unbind_one_exact].
Qed.

Lemma bind_one_other n name b m :
  n <> name -> n ∈ mg_bound (bind_one env dir cfg sel name b m) <-> n ∈ mg_bound m.
Proof.
  intros Hn. unfold bind_one. destruct (negb _); [done|]. destruct (_ || _); [done|].
  destruct (build_on_udc _ _ _ _ _ _ _) as [[r|e] fs]; [|done]. cbn [mg_bound]. set_solver.
Qed.

Lemma bind_one_builds n b m :
  mg_fs m = mg_bound m -> selected n -> builds n b -> n ∈ mg_bound (bind_one env dir cfg sel n b m).
Proof.
  intros He Hs (Hp & Hpr & Hb). unfold bind_one. destruct (wants sel n (mg_bound m)) eqn:Hw; cbn [negb].
  - rewrite Hp, Hpr. cbn [negb orb]. 
    assert (n ∉ mg_fs m) as Hn by (rewrite He; unfold wants in Hw; by case_bool_decide). specialize (Hb _ Hn).
    destruct (build_on_udc _ _ _ _ _ _ _) as [[r|e] fs]; [|done]. cbn [mg_bound]. set_solver.
  - unfold wants in Hw. case_bool_decide; [done|]. unfold selected in Hs. destruct sel as [| |ns]; [done..|].
    by rewrite bool_decide_eq_true_2 in Hw.
Qed.

Lemma unbind_one_in n name removed m :
  n ∈ mg_bound (unbind_one name removed m) <-> n <> name /\ n ∈ mg_bound m.
Proof.
  unfold unbind_one. case_bool_decide as Hin.
  - destruct (take_gadget _ _); cbn [mg_bound]; set_solver.
  - set_solver.
Qed.

(** One event: the controllers it is not about keep their gadget or stay without. *)
Lemma handled_about n f i ev m :
  mg_fs m = mg_bound m -> selected n -> (about n ev = Some true -> builds n (fa_build f i)) ->
  n ∈ mg_bound (on_event env dir cfg sel m (handled f i ev)) <-> settled_by (about n ev) (n ∈ mg_bound m).
Proof.
  intros He Hs Hb. unfold handled, udc_name_from_event, about in *. destruct (bool_decide_reflect (ue_sysname ev = n)) as [<-|Hn].
  - destruct (ue_type ev); cbn [on_event settled_by]; try done.
    + split; [done|]. intros _. apply bind_one_builds; [done..|]. by apply Hb.
    + rewrite unbind_one_in. tauto.
  - destruct (ue_type ev); cbn [on_event settled_by]; try done; [by apply bind_one_other|].
    rewrite unbind_one_in. split; [tauto|done].
Qed.

Lemma events_about n f evs i m :
  cleans_up f -> exact m -> selected n ->
  (forall pre ev post, evs = pre ++ ev :: post -> about n ev = Some true -> last_about n post = None ->
     builds n (fa_build f (i + length pre)%nat)) ->
  n ∈ mg_bound (foldl (on_event env dir cfg sel) m (imap (fun j => handled f (i + j)%nat) evs)) <->
  settled_by (last_about n evs) (n ∈ mg_bound m).
Proof.
  intros Hf He Hs. revert i m He. induction evs as [|ev evs IH]; intros i m He Hb; [done|]. cbn [imap foldl last_about].
  assert (imap ((fun j => handled f (i + j)%nat) ∘ S) evs = imap (fun j => handled f (S i + j)%nat) evs) as ->.
  { apply imap_ext. intros j x _. cbn. f_equal. lia. }
  rewrite (IH (S i)); [|by apply handled_exact|].
  2: { intros pre ev' post -> Ha Hl. replace (S i + length pre)%nat with (i + length (ev :: pre))%nat by (cbn; lia).
       by apply (Hb (ev :: pre) ev' post). }
  destruct (last_about n evs) as [[]|] eqn:El; [done..|]. cbn [settled_by]. apply handled_about; [by destruct He|done|].
  intros Ha. rewrite Nat.add_0_r. pose proof (Hb [] ev evs eq_refl Ha El) as Hbb. by rewrite Nat.add_0_r in Hbb.
Qed.

Lemma existing_exact f names m :
  cleans_up f -> exact m -> exact (bind_existing env dir cfg sel ((fun n => (n, fa_existing f n)) <$> names) m).
Proof.
  intros Hf. unfold bind_existing. revert m. induction names as [|name names IH]; intros m He; [done|].
  cbn [fmap list_fmap foldl]. apply IH, bind_exact; [apply Hf|done].
Qed.

Lemma bind_existing_about n f names m :
  cleans_up f -> exact m -> selected n -> NoDup names -> (n ∈ names -> builds n (fa_existing f n)) ->
  n ∈ mg_bound (bind_existing env dir cfg sel ((fun n => (n, fa_existing f n)) <$> names) m) <->
  n ∈ names \/ n ∈ mg_bound m.
Proof.
  intros Hf He Hs. unfold bind_existing. revert m He. induction names as [|name names IH]; intros m He Hnd Hb; [set_solver|].
  apply list.NoDup_cons in Hnd as [Hni Hnd]. cbn [fmap list_fmap foldl]. rewrite IH; [|by apply bind_exact; [apply Hf|]|done|set_solver].
  destruct (decide (n = name)) as [->|Hn].
  - assert (name ∈ mg_bound (bind_one env dir cfg sel name (fa_existing f name) m)) as Hin.
    { apply bind_one_builds; [by destruct He|done|]. apply Hb. left. }
    split; [|by right]. intros _. left. left.
  - rewrite bind_one_other by done. rewrite elem_of_cons. tauto.
Qed.

(** The calls of the start, on a library that keeps its laws. *)
Lemma monitor_listens k r k' :
  monitor k = (Ok r, k') -> ud_devices k' = ud_devices k /\ ud_queue k' = Some [].
Proof.
  unfold monitor. intros (? & k1 & Hc1 & (? & k2 & Hc2 & ([] & k3 & Hc3 & Hc4)%bind_inv)%bind_inv)%bind_inv.
  pose proof (builder_law k) as L1. rewrite Hc1 in L1. cbn in L1. subst k1.
  pose proof (builder_match_law SUBSYSTEM k) as L2. rewrite Hc2 in L2. cbn in L2. subst k2.
  pose proof (listen_law k) as L3. rewrite Hc3 in L3. cbn in L3.
  pose proof (async_socket_law k3) as L4. rewrite Hc4 in L4. cbn in L4. subst k'.
  destruct L3 as [L3 L5]. split; [done|]. by apply L5.
Qed.

Lemma enumerate_devices k names k' :
  enumerate k = (Ok names, k') -> k' = k /\ NoDup names /\ list_to_set names = ud_devices k.
Proof.
  unfold enumerate. intros (? & k1 & Hc1 & (? & k2 & Hc2 & Hc3)%bind_inv)%bind_inv.
  pose proof (enumerator_law k) as L1. rewrite Hc1 in L1. cbn in L1. subst k1.
  pose proof (enumerator_match_law SUBSYSTEM k) as L2. rewrite Hc2 in L2. cbn in L2. subst k2.
  destruct (scan_law k) as [L3 L4]. rewrite Hc3 in L3, L4. cbn in L3, L4. split; [done|]. by apply L4.
Qed.

End Start.

(** ** A run *)

Module UdevDemo.
Import GadgetDemo.
#[local] Existing Instance mac.

(** The daemon with its devices and the monitor's queue; [tu_broken] makes calls
    fail. *)
Record ToyUdev := { tu_devices : gset string; tu_queue : option (list UEvent); tu_broken : bool }.

Definition call {A} (a : A) (f : ToyUdev -> ToyUdev) : M ToyUdev A := fun k =>
  if tu_broken k then (Err (Os ENOENT), k) else (Ok a, f k).

#[local] Instance toy_udev : UdevLib ToyUdev := {|
  ud_enumerator := call tt id;
  ud_enumerator_match _ := ret tt;
  ud_scan_devices k := (Ok (elements (tu_devices k)), k);
  ud_builder := call tt id;
  ud_builder_match _ := ret tt;
  ud_listen := call tt (fun k => {| tu_devices := tu_devices k; tu_queue := Some []; tu_broken := false |});
  ud_async_socket := ret tt;
  ud_happens ev k := {| tu_devices := attached ev (tu_devices k);
                        tu_queue := (fun q => q ++ [ev]) <$> tu_queue k; tu_broken := tu_broken k |};
  ud_devices := tu_devices;
  ud_queue := tu_queue;
|}.

#[local] Instance toy_udev_laws : UdevLaws toy_udev.
Proof.
  split; cbn; try done.
  - intros k. unfold call. by destruct (tu_broken k).
  - intros k. split; [done|]. intros names [= <-]. split; [apply NoDup_elements|apply leibniz_equiv; set_solver].
  - intros k. unfold call. by destruct (tu_broken k).
  - intros k. unfold call. by destruct (tu_broken k).
Qed.

Definition plug (n : string) : UEvent := {| ue_sysname := n; ue_type := Add |}.
Definition unplug (n : string) : UEvent := {| ue_sysname := n; ue_type := Remove |}.

Definition fates : Fates := {|
  fa_existing _ := build fine; fa_build _ := build fine; fa_removed _ := true |}.

Definition quiet_udev : ToyUdev := {| tu_devices := ∅; tu_queue := None; tu_broken := false |}.

Lemma fates_work : cleans_up fates.
Proof. by repeat split. Qed.

(** A gadget for two controllers given by name. *)
Definition listed : GadgetConfig := {|
  gc_name := None; gc_udc := Some (Many ["usb1"; udc]); gc_os_descriptor := None; gc_device := device;
  gc_config := [usb_config [acm]] |}.

Lemma listed_selected n : selected listed n <-> n ∈ ["usb1"; udc].
Proof.
  unfold selected. assert (from_config (gc_udc listed) = Named (list_to_set ["usb1"; udc])) as -> by reflexivity.
  apply elem_of_list_to_set.
Qed.

Lemma fine_build n (fs : gset string) :
  n ∉ fs -> is_ok (build_on_udc imx8mp_env "/cfg" listed n fine fine fs).1 = true.
Proof.
  intros Hn. unfold build_on_udc, build_on_udc_once, Gadget.register.
  destruct (describe imx8mp_env listed n (at_speed fine)) as [[g o]|e] eqn:Ed; [|vm_compute in Ed; discriminate Ed].
  rewrite (describe_name _ _ _ _ _ _ Ed), bool_decide_eq_false_2 by done. cbn. by destruct (bool_decide _).
Qed.

Lemma fine_builds n : builds imx8mp_env "/cfg" listed n (build fine).
Proof. split; [done|]. split; [done|]. intros fs Hn. apply fine_build, Hn. Qed.

(** One controller of the list is there from the start and goes later, one comes
    while the service starts; a third one that comes is not in the list. *)
Abbreviation start := (serve_start imx8mp_env "/cfg" listed fates (Ok tt, ∅) [plug "usb1"] [plug udc] [unplug "usb1"; plug "usb2"] quiet_udev ∅).

End UdevDemo.
