(* ===== verification/Cli.v ===== *)
(** * The command line tool

    Models patches/usb-gadget/src/bin/usb-gadget/main.rs: loading configuration
    files, bringing gadgets up and down, checking files, listing gadgets and
    controllers. The parser of command lines, the TOML parser and the generated
    shell completions are not modelled. *)

From stdpp Require Import gmap sorting.
From S2P Require Import Prelude Io Bytes UsbConfig Gadget GadgetProps ConfigFs FfsFunction GadgetFs GadgetFsProps GadgetStack SimpleKernel Udc CliConfig.

(** ** The state of a run *)

(** Configfs and what was printed. *)
Record Term := { t_cfs : Cfs; t_out : list string; t_err : list string }.

Definition C (A : Type) : Type := Term -> cli A * Term.

Definition cret {A} (a : A) : C A := fun t => (Ok a, t).
Definition cfail {A} (e : io_error) : C A := fun t => (Err (Fail e), t).
Definition cbind {A B} (m : C A) (f : A -> C B) : C B := fun t =>
  match m t with
  | (Ok a, t) => f a t
  | (Err e, t) => (Err e, t)
  end.
Definition clift {A} (r : cli A) : C A := fun t => (r, t).

Notation "'cli!' x ':=' m 'in' k" := (cbind m (fun x => k))
  (at level 10, x pattern, m at level 100, k at level 200) : gadget_scope.

(** A library call. *)
Definition call {A} (m : M Cfs A) : C A := fun t =>
  let '(r, s) := m (t_cfs t) in (of_io r, {| t_cfs := s; t_out := t_out t; t_err := t_err t |}).

Definition println (line : string) : C unit := fun t =>
  (Ok tt, {| t_cfs := t_cfs t; t_out := t_out t ++ [line]; t_err := t_err t |}).
Definition eprintln (line : string) : C unit := fun t =>
  (Ok tt, {| t_cfs := t_cfs t; t_out := t_out t; t_err := t_err t ++ [line] |}).

Fixpoint cfor {A} (body : A -> C unit) (l : list A) : C unit :=
  match l with
  | [] => cret tt
  | x :: l => cli! _ := body x in cfor body l
  end.

(** ** Paths *)

Definition last_dot (name : list byte) : option nat :=
  match position (fun b => bool_decide (b = Byte.x2e)) (rev name) with
  | Some i => Some (length name - S i)%nat
  | None => None
  end.

(** [Path::file_stem] and [Path::extension]: a name that starts with its only dot
    is all stem. *)
Definition name_stem (name : list byte) : list byte :=
  match last_dot name with
  | Some (S i) => take (S i) name
  | _ => name
  end.

Definition name_extension (name : list byte) : option (list byte) :=
  match last_dot name with
  | Some (S i) => Some (drop (S (S i)) name)
  | _ => None
  end.

(** [to_str]: only valid UTF-8. *)
Definition to_str (l : list byte) : option string := if utf8_valid l then Some (str_of_bytes l) else None.

Definition file_stem (p : string) : option (list byte) := name_stem ∘ bs <$> path_file_name (bs p).
Definition file_extension (p : string) : option (list byte) := path_file_name (bs p) ≫= name_extension ∘ bs.

(** [Path::join] with a relative name. *)
Definition path_join (dir name : string) : string :=
  match list.last (bs dir) with
  | None | Some Byte.x2f => dir +:+ name
  | Some _ => dir +:+ "/" +:+ name
  end.

Definition lossy (name : string) : string := from_utf8_lossy (bs name).

Section Commands.
Context `{Configfs} `{FfsKernel} `{HostFs} `{MacParser}.
Context (mac_text : list byte -> list byte) (cwd_is_dir : string -> bool).
Context (iter : forall A : Type, list A -> list A) (kernel : option (Z * Z)).
Context (usb_gadget_dir : io_result path).
(** The text of an error, and the TOML parser. *)
Context (display : io_error -> string) (parse_toml : list byte -> result CGadgetConfig string).

(** ** Loading *)

Definition load_one_config (p : string) : io_result CGadgetConfig :=
  let? content := map_err (fun e => Custom (kind e) (p +:+ ": " +:+ display e)) (h_read_to_string p) in
  map_err (fun e => Custom KInvalidData (p +:+ ": " +:+ e)) (parse_toml content).

Fixpoint load_each (files : list string) : io_result (list (string * CGadgetConfig)) :=
  match files with
  | [] => Ok []
  | p :: files => let? cfg := load_one_config p in let? rest := load_each files in Ok ((p, cfg) :: rest)
  end.

(** The files of a directory with the extension [toml], by name. *)
Definition config_files (dir : string) (entries : list (io_result string)) : list string :=
  path_join dir <$> merge_sort name_le
    (filter (fun n => (file_extension (path_join dir n) ≫= to_str) = Some "toml") (readable entries)).

Definition load_configs (p : string) : io_result (list (string * CGadgetConfig)) :=
  if h_is_dir p then let? entries := h_read_dir p in load_each (config_files p entries)
  else let? cfg := load_one_config p in Ok [(p, cfg)].

(** ** Controllers *)

Definition find_udc (name : string) : io_result Udc :=
  let? l := udcs in
  ok_or (Custom KNotFound ("UDC '" +:+ name +:+ "' not found")) (head (filter (fun u => u_name u = name) l)).

Definition udc_of (cfg : CGadgetConfig) : io_result Udc :=
  match cg_udc cfg with
  | Some name => find_udc name
  | None => map_err (fun e => Custom KNotFound ("no UDC found: " +:+ display e)) default_udc
  end.

(** ** Commands *)

Definition gadget_name (file : string) (name : option string) : string :=
  default (default "gadget" (file_stem file ≫= to_str)) name.

Definition with_name (name : string) (g : LGadget) : LGadget :=
  {| lg_name := Some name; lg_device_class := lg_device_class g; lg_id := lg_id g; lg_strings := lg_strings g;
     lg_max_packet_size0 := lg_max_packet_size0 g; lg_device_release := lg_device_release g;
     lg_usb_version := lg_usb_version g; lg_max_speed := lg_max_speed g;
     lg_os_descriptor := lg_os_descriptor g; lg_web_usb := lg_web_usb g; lg_configs := lg_configs g |}.

(** One file: the gadget stays when the tool ends, since its handle is detached. *)
Definition up_one (base : nat) (file : string) (cfg : CGadgetConfig) : C unit :=
  cli! built := clift (build_gadget base cfg) in
  let name := gadget_name file built.2 in
  cli! udc := clift (of_io (udc_of cfg)) in
  cli! reg := call (register_and_bind mac_text cwd_is_dir iter kernel usb_gadget_dir
                      (with_name name built.1) (bs (u_name udc))) in
  cli! _ := call (drop_gadget (detach reg)) in
  println ("registered and bound gadget '" +:+ name +:+ "' to UDC '" +:+ lossy (u_name udc) +:+ "'").

Definition function_count (cfg : CGadgetConfig) : nat := length (cg_config cfg ≫= cu_function).

Fixpoint up_each (base : nat) (configs : list (string * CGadgetConfig)) : C unit :=
  match configs with
  | [] => cret tt
  | (file, cfg) :: configs => cli! _ := up_one base file cfg in up_each (base + function_count cfg) configs
  end.

Definition no_configs {A} : C A := cfail (Custom KInvalidInput "no config files found").

Definition cmd_up (base : nat) (p : string) : C unit :=
  cli! configs := clift (of_io (load_configs p)) in
  match configs with
  | [] => no_configs
  | _ => up_each base configs
  end.

Definition selects (names : list string) (name : string) : bool := bool_decide (lossy name ∈ names).

Definition down_one (names : list string) (g : RegGadget) : C unit :=
  if selects names (name_of g) then
    cli! _ := call (remove_gadget g) in
    println ("removed gadget '" +:+ lossy (name_of g) +:+ "'")
  else cret tt.

Definition cmd_down (names : list string) (all : bool) : C unit :=
  if all then
    cli! _ := call (remove_all usb_gadget_dir) in
    println "removed all gadgets"
  else
    match names with
    | [] => cfail (Custom KInvalidInput "specify gadget names or --all")
    | _ =>
        cli! gadgets := call (registered usb_gadget_dir) in
        cli! _ := cfor (fun name =>
          if existsb (fun g => bool_decide (name_of g = name)) gadgets then cret tt
          else eprintln ("warning: gadget '" +:+ name +:+ "' not found")) names in
        cli! gadgets := call (registered usb_gadget_dir) in
        cfor (down_one names) gadgets
    end.

(** *** Listing *)

Record RegFunction := { rf_driver : string; rf_instance : string }.

Definition function_of_name (name : string) : option RegFunction :=
  match position (fun b => bool_decide (b = Byte.x2e)) (bs name) with
  | Some i => Some {| rf_driver := str_of_bytes (take i (bs name)); rf_instance := str_of_bytes (drop (S i) (bs name)) |}
  | None => None
  end.

Definition function_le (a b : RegFunction) : Prop :=
  rf_driver a <> rf_driver b /\ name_le (rf_driver a) (rf_driver b) \/
  rf_driver a = rf_driver b /\ name_le (rf_instance a) (rf_instance b).
#[global] Instance function_le_dec : RelDecision function_le.
Proof. intros a b. unfold function_le. apply _. Defined.

(** [RegGadget::functions]. *)
Definition reg_functions (r : RegGadget) : M Cfs (list RegFunction) :=
  do! entries := attempt (fs_read_dir (sub (rg_dir r) "functions")) in
  match entries with
  | Err _ => ret []
  | Ok entries =>
      do! found := map_m (fun n =>
        do! k := fs_metadata (sub (sub (rg_dir r) "functions") n) in
        ret (if bool_decide (k = KDir) then option_list (function_of_name (lossy n)) else [])) (readable entries) in
      ret (merge_sort function_le (mjoin found))
  end.

Definition driver_counts (functions : list RegFunction) : list (string * nat) :=
  let drivers := rf_driver <$> functions in
  (fun d => (d, length (filter (fun d' => d' = d) drivers))) <$> merge_sort name_le (remove_dups drivers).

Fixpoint join_comma (l : list string) : string :=
  match l with
  | [] => EmptyString
  | [s] => s
  | s :: l => s +:+ ", " +:+ join_comma l
  end.

Definition format_functions (functions : list RegFunction) : string :=
  join_comma ((fun p => if (1 <? p.2)%nat then p.1 +:+ " x" +:+ str_of_bytes (dec (Z.of_nat p.2)) else p.1)
    <$> driver_counts functions).

Definition tab : string := str_of_bytes [Byte.x09].

Definition cmd_list : C unit :=
  cli! gadgets := call (registered usb_gadget_dir) in
  match gadgets with
  | [] => println "no gadgets registered"
  | _ =>
      cfor (fun g =>
        let name := lossy (name_of g) in
        cli! bound := call (reg_udc g) in
        let udc := match bound with Some u => from_utf8_lossy u | None => "(unbound)" end in
        cli! functions := call (reg_functions g) in
        match functions with
        | [] => println (name +:+ tab +:+ udc)
        | _ => println (name +:+ tab +:+ udc +:+ tab +:+ "[" +:+ format_functions functions +:+ "]")
        end) gadgets
  end.

(** *** Checking *)

(** A panic while building ends the run; an error is printed. *)
Definition check_one (p : string * CGadgetConfig) : C unit := fun t =>
  match build_gadget 0 p.2 with
  | Ok (_, name) =>
      let name := default "unknown" (match name with Some n => Some n | None => file_stem p.1 ≫= to_str end) in
      println (lossy p.1 +:+ ": ok (gadget '" +:+ name +:+ "')") t
  | Err (Fail e) => println (lossy p.1 +:+ ": error: " +:+ display e) t
  | Err Panic => (Err Panic, t)
  end.

Definition cmd_check (p : string) : C unit :=
  cli! configs := clift (of_io (load_configs p)) in
  match configs with
  | [] => no_configs
  | _ => cfor check_one configs
  end.

(** *** Templates *)

Definition template_names : list string :=
  ["serial"; "printer"; "ethernet"; "mass-storage"; "audio"; "uac1"; "webcam"; "hid"; "midi"; "loopback"; "composite"].

(** The text of each template is a file of the repository. *)
Definition cmd_template (include_str : string -> string) (name : option string) (lst : bool) : C unit :=
  match name, lst with
  | Some name, false =>
      if bool_decide (name ∈ template_names) then println (include_str ("templates/" +:+ name +:+ ".toml"))
      else cfail (Custom KInvalidInput
             ("unknown template '" +:+ name +:+ "' (use --list to see available templates)"))
  | _, _ =>
      cli! _ := println "Available templates:" in
      cli! _ := cfor (fun n => println ("  " +:+ n)) template_names in
      if lst then cret tt else println (str_of_bytes [Byte.x0a] +:+ "Usage: usb-gadget template <name>")
  end.

(** *** Controllers *)

Definition or_default {A} (f : A -> string) (r : io_result A) : string :=
  match r with Ok a => f a | Err _ => EmptyString end.

Definition cmd_udc : C unit :=
  cli! controllers := clift (of_io udcs) in
  match controllers with
  | [] => println "no UDCs found"
  | _ =>
      cfor (fun u =>
        let state := or_default udc_state_text (udc_state u) in
        let speed := or_default speed_text (current_speed u) in
        let max_speed := or_default speed_text (udc_max_speed u) in
        let driver := or_default lossy (udc_driver u) in
        let function := match udc_function u with
                        | Ok (Some f) => tab +:+ from_utf8_lossy f
                        | _ => EmptyString
                        end in
        println (lossy (u_name u) +:+ tab +:+ driver +:+ tab +:+ state +:+ tab +:+ speed +:+ tab +:+ max_speed
                   +:+ function)) controllers
  end.

(** ** The command *)

Inductive Command :=
| Up (p : string)
| Down (names : list string) (all : bool)
| ListGadgets
| CheckConfig (p : string)
| Template (name : option string) (lst : bool)
| UdcList.

Definition run_command (include_str : string -> string) (c : Command) : C unit :=
  match c with
  | Up p => cmd_up 0 p
  | Down names all => cmd_down names all
  | ListGadgets => cmd_list
  | CheckConfig p => cmd_check p
  | Template name lst => cmd_template include_str name lst
  | UdcList => cmd_udc
  end.

End Commands.

(** ** What the commands do to the gadgets *)

Section Effects.
Context `{Hlaws : ConfigfsLaws} `{!ConfigfsListing H} `{FfsKernel} `{HostFs} `{MacParser}.
Context (mac_text : list byte -> list byte) (cwd_is_dir : string -> bool).
Context (iter : forall A : Type, list A -> list A) (kernel : option (Z * Z)).
Context (usb_gadget_dir : io_result path).
Context (display : io_error -> string) (parse_toml : list byte -> result CGadgetConfig string).

Abbreviation gadgets_are t fs := (dirs_match usb_gadget_dir (c_fs (t_cfs t)) fs).
Abbreviation up_list := (up_each mac_text cwd_is_dir iter kernel usb_gadget_dir display).
Abbreviation up := (cmd_up mac_text cwd_is_dir iter kernel usb_gadget_dir display parse_toml).

(** The name a file's gadget gets. *)
Definition name_for (p : string * CGadgetConfig) : string := gadget_name p.1 (cg_name p.2).

Lemma build_gadget_name base cfg g n : build_gadget base cfg = Ok (g, n) -> n = cg_name cfg.
Proof.
  unfold build_gadget. destruct (build_device _) as [d|]; [|done]. cbn [rbind].
  destruct (match cg_web_usb cfg with Some _ => _ | None => _ end) as [w|]; [|done]. cbn [rbind].
  destruct (cg_config cfg) as [|c cs]; [done|]. destruct (cli_configs base (c :: cs)); [|done]. by intros [= _ <-].
Qed.

(** A gadget that cannot be bound is removed again, if that is possible. *)
Lemma register_and_bind_dirs g n udc s fs :
  lg_name g = Some n -> dirs_match usb_gadget_dir (c_fs s) fs ->
  match register_and_bind mac_text cwd_is_dir iter kernel usb_gadget_dir g udc s with
  | (Ok r, s') => n ∉ fs /\ dirs_match usb_gadget_dir (c_fs s') ({[n]} ∪ fs)
  | (Err _, s') => dirs_match usb_gadget_dir (c_fs s') fs \/ dirs_match usb_gadget_dir (c_fs s') ({[n]} ∪ fs)
  end.
Proof.
  intros Hn Hm. unfold register_and_bind, bind at 1.
  destruct (register mac_text cwd_is_dir iter kernel usb_gadget_dir g s) as [[r|e] s1] eqn:Er.
  - destruct (registration_refines _ _ _ _ _ g n r s s1 fs Hn Er Hm) as (root & Hroot & Hd & Hm1 & Hnew & _).
    rewrite bind_attempt. pose proof (bind_udc_spec (Some udc) r s1) as Hb. rewrite Hd in Hb.
    destruct (bind_udc (Some udc) r s1) as [[[]|e] s2]; cbn [fst snd]; destruct Hb as [Hb _];
      pose proof (dirs_match_kept _ _ _ _ _ _ Hroot Hb Hm1) as Hm2; [done|].
    unfold drop_gadget. destruct (rg_attached r); [|by right]. unfold bind at 1. rewrite bind_attempt.
    pose proof (do_remove_spec r s2) as Hr. rewrite Hd in Hr.
    destruct (do_remove r s2) as [[r'|e'] s3]; cbn [fst snd ret throw].
    + destruct Hr as (_ & Hr & _). left.
      replace fs with (({[n]} ∪ fs) ∖ {[n]}) by set_solver. by eapply dirs_match_gone.
    + right. by eapply dirs_match_kept.
  - pose proof (register_spec mac_text cwd_is_dir iter kernel usb_gadget_dir g s) as Hs. rewrite Er in Hs.
    destruct Hs as [->|(root & n' & Hroot & Hnm & _ & Hdir & Hout)]; [by left|right].
    rewrite Hn in Hnm. cbn in Hnm. subst n'. by eapply dirs_match_added.
Qed.

(** One file. *)
Lemma up_one_dirs base p cfg t fs :
  gadgets_are t fs ->
  match up_one mac_text cwd_is_dir iter kernel usb_gadget_dir display base p cfg t with
  | (Ok _, t') => name_for (p, cfg) ∉ fs /\ gadgets_are t' ({[name_for (p, cfg)]} ∪ fs)
  | (Err _, t') => gadgets_are t' fs \/ gadgets_are t' ({[name_for (p, cfg)]} ∪ fs)
  end.
Proof.
  intros Hm. unfold up_one, cbind at 1, clift at 1.
  destruct (build_gadget base cfg) as [[g n]|e] eqn:Eb; [|by left]. apply build_gadget_name in Eb as ->. cbn [fst snd].
  unfold cbind at 1, clift. destruct (udc_of display cfg) as [u|e]; [|by left]. cbn [of_io map_err].
  change (gadget_name p (cg_name cfg)) with (name_for (p, cfg)). set (n := name_for (p, cfg)).
  pose proof (register_and_bind_dirs (with_name n g) n (bs (u_name u)) (t_cfs t) fs eq_refl Hm) as Hr.
  unfold cbind, call. destruct (register_and_bind _ _ _ _ _ _ _ (t_cfs t)) as [[r|e] s1]; [|done]. exact Hr.
Qed.

(** All gadgets of the files, or those of the files before one that failed, which
    may have left its own. *)
Lemma up_each_dirs base configs t fs :
  gadgets_are t fs ->
  match up_list base configs t with
  | (Ok _, t') => NoDup (name_for <$> configs) /\ list_to_set (name_for <$> configs) ## fs /\
      gadgets_are t' (list_to_set (name_for <$> configs) ∪ fs)
  | (Err _, t') => exists before p after part, configs = before ++ p :: after /\ part ⊆ {[name_for p]} /\
      gadgets_are t' (part ∪ (list_to_set (name_for <$> before) ∪ fs))
  end.
Proof.
  revert base t fs. induction configs as [|[p cfg] configs IH]; intros base t fs Hm; cbn [up_each].
  - split_and!; [constructor|set_solver|]. by replace (list_to_set _ ∪ fs) with fs by set_solver.
  - unfold cbind. pose proof (up_one_dirs base p cfg t fs Hm) as H1'.
    destruct (up_one _ _ _ _ _ _ _ _ _ t) as [[[]|e] t1].
    + destruct H1' as [Hnew Hm1]. specialize (IH (base + function_count cfg)%nat t1 _ Hm1).
      destruct (up_list _ configs t1) as [[[]|e] t'].
      * destruct IH as (Hnd & Hdis & Hm'). rewrite fmap_cons. split_and!.
        -- constructor; [|done]. intros Hin. apply (Hdis (name_for (p, cfg))); set_solver.
        -- set_solver.
        -- by replace (list_to_set _ ∪ fs) with (list_to_set (name_for <$> configs) ∪ ({[name_for (p, cfg)]} ∪ fs))
             by set_solver.
      * destruct IH as (before & q & after & part & -> & Hp & Hm'). exists ((p, cfg) :: before), q, after, part.
        split_and!; [done..|]. rewrite fmap_cons.
        by replace (list_to_set _ ∪ fs) with (list_to_set (name_for <$> before) ∪ ({[name_for (p, cfg)]} ∪ fs))
          by set_solver.
    + destruct H1' as [Hk|Hk]; [exists [], (p, cfg), configs, ∅|exists [], (p, cfg), configs, {[name_for (p, cfg)]}].
      * split_and!; [done|set_solver|]. by replace (∅ ∪ _) with fs by set_solver.
      * split_and!; [done|set_solver|]. by replace (_ ∪ (_ ∪ fs)) with ({[name_for (p, cfg)]} ∪ fs) by set_solver.
Qed.

(** *** Taking gadgets down *)

Lemma cfor_prints {A} (body : A -> C unit) l t :
  (forall x t, exists t', body x t = (Ok tt, t') /\ t_cfs t' = t_cfs t) ->
  exists t', cfor body l t = (Ok tt, t') /\ t_cfs t' = t_cfs t.
Proof.
  intros Hb. revert t. induction l as [|x l IH]; intros t; cbn [cfor]; [by eexists|].
  unfold cbind. destruct (Hb x t) as (t1 & -> & E1). destruct (IH t1) as (t' & -> & E2). exists t'. by rewrite E2.
Qed.

(** What is left when the selected ones of [l] are gone. *)
Definition remaining (names l : list string) (fs : gset string) : gset string :=
  filter (fun n => ~ (n ∈ l /\ selects names n = true)) fs.

Lemma remaining_nil names fs : remaining names [] fs = fs.
Proof. apply set_eq. intros n. unfold remaining. rewrite elem_of_filter, elem_of_nil. naive_solver. Qed.

Lemma remaining_cons names n l fs :
  remaining names (n :: l) fs = remaining names l (if selects names n then fs ∖ {[n]} else fs).
Proof.
  apply set_eq. intros m. unfold remaining. rewrite !elem_of_filter, elem_of_cons.
  destruct (selects names n) eqn:E; [rewrite elem_of_difference, elem_of_singleton|];
    destruct (decide (m = n)) as [->|Hne]; rewrite ?E; naive_solver.
Qed.

Lemma take_down_each names root gs t fs :
  usb_gadget_dir = Ok root -> Forall (fun g => rg_dir g = sub root (name_of g) /\ rg_attached g = false) gs ->
  gadgets_are t fs ->
  match cfor (down_one names) gs t with
  | (Ok _, t') => gadgets_are t' (remaining names (name_of <$> gs) fs)
  | (Err _, t') => exists removed, Forall (fun n => selects names n = true) removed /\
      gadgets_are t' (fs ∖ list_to_set removed)
  end.
Proof.
  intros Hroot Hgs. revert t fs. induction Hgs as [|g gs [Hg Ha] _ IH]; intros t fs Hm; cbn [cfor].
  - cbn. by rewrite remaining_nil.
  - rewrite fmap_cons, remaining_cons. unfold cbind at 1, down_one at 1. destruct (selects names (name_of g)) eqn:Es.
    + unfold cbind at 1, call. pose proof (remove_refines cwd_is_dir _ g root (name_of g) (t_cfs t) fs Hroot Hg Hm) as Hr.
      destruct (remove_gadget g (t_cfs t)) as [[[]|e] s1]; cbn [of_io map_err].
      * unfold println at 1. cbn [t_cfs t_out t_err]. set (t1 := {| t_cfs := s1; t_out := _; t_err := _ |}). specialize (IH t1 (fs ∖ {[name_of g]}) Hr).
        destruct (cfor _ gs t1) as [[[]|e] t']; [done|].
        destruct IH as (rm & Hrm & Hm'). exists (name_of g :: rm). split; [by constructor|].
        cbn. by rewrite <- difference_difference_l_L.
      * exists []. split; [constructor|]. cbn. rewrite difference_empty_L. destruct Hr as [Hk|[Hc _]]; [done|].
        by rewrite Ha in Hc.
    + cbn [cret]. exact (IH t fs Hm).
Qed.

Lemma call_registered t : exists t', t_cfs t' = t_cfs t /\
  call (registered usb_gadget_dir) t = (of_io (registered usb_gadget_dir (t_cfs t)).1, t').
Proof.
  unfold call. pose proof (registered_spec cwd_is_dir usb_gadget_dir (t_cfs t)) as Hs.
  destruct (registered usb_gadget_dir (t_cfs t)) as [[gs|e] s]; [destruct Hs as [-> _]|subst s]; eexists; (split; [|reflexivity]); reflexivity.
Qed.

(** Exactly the gadgets that are named go; if one cannot be removed, those before
    it are gone. *)
Lemma down_dirs names t fs :
  gadgets_are t fs ->
  match cmd_down usb_gadget_dir names false t with
  | (Ok _, t') => gadgets_are t' (filter (fun n => selects names n = false) fs)
  | (Err _, t') => exists removed, Forall (fun n => selects names n = true) removed /\
      gadgets_are t' (fs ∖ list_to_set removed)
  end.
Proof.
  intros Hm. assert (forall t', t_cfs t' = t_cfs t -> exists removed, Forall (fun n => selects names n = true) removed /\
      gadgets_are t' (fs ∖ list_to_set removed)) as Hnone.
  { intros t' ->. exists []. split; [constructor|]. cbn. by rewrite difference_empty_L. }
  unfold cmd_down. destruct names as [|n0 names']; [by apply Hnone|]. set (names := n0 :: names') in *.
  unfold cbind at 1. destruct (call_registered t) as (t1 & E1 & ->).
  destruct (registered usb_gadget_dir (t_cfs t)).1 as [gs0|e]; cbn [of_io map_err]; [|by apply Hnone].
  unfold cbind at 1. set (warn := fun name => _). destruct (cfor_prints warn names t1) as (t2 & -> & E2).
  { intros x t'. unfold warn. destruct (existsb _ _); by eexists. }
  unfold cbind at 1. destruct (call_registered t2) as (t3 & E3 & ->).
  pose proof (registered_spec cwd_is_dir usb_gadget_dir (t_cfs t2)) as Hs.
  destruct (registered usb_gadget_dir (t_cfs t2)) as [[gs|e] s] eqn:Er; cbn [fst of_io map_err].
  2: { apply Hnone. by rewrite E3, E2. }
  destruct Hs as (_ & root & Hroot & Hin). rewrite E2, E1 in Hin.
  assert (forall n, n ∈ name_of <$> gs <-> n ∈ fs) as Hnames.
  { intros n. unfold dirs_match in Hm. rewrite Hroot in Hm. rewrite Hm, list_elem_of_fmap. split.
    - intros (g & -> & (m & Hk & ->)%Hin). by rewrite (name_of_sub _ root m).
    - intros Hk. eexists. split; [|by apply Hin; exists n]. by rewrite (name_of_sub _ root n). }
  pose proof (take_down_each names root gs t3 fs Hroot) as Ht. rewrite E3, E2, E1 in Ht.
  specialize (Ht ltac:(apply list.Forall_forall; intros g (m & _ & ->)%Hin; by rewrite (name_of_sub _ root m)) Hm).
  destruct (cfor _ gs t3) as [[[]|e] t']; [|done].
  replace (filter (fun n => selects names n = false) fs) with
    (remaining names (name_of <$> gs) fs); [done|].
  apply set_eq. intros n. unfold remaining. rewrite !elem_of_filter, Hnames. destruct (selects names n); naive_solver.
Qed.

(** C32. Bringing gadgets up: on success there was a file, the gadgets have distinct names
    that were free, and exactly they were added; on failure nothing changed, or the gadgets
    of the files before the failing one stay, and perhaps a directory of the failing one. *)
Theorem cmd_up_effect base p t fs :
  gadgets_are t fs ->
  match up base p t with
  | (Ok _, t') => exists configs, load_configs display parse_toml p = Ok configs /\ configs <> [] /\
      NoDup (name_for <$> configs) /\ list_to_set (name_for <$> configs) ## fs /\
      gadgets_are t' (list_to_set (name_for <$> configs) ∪ fs)
  | (Err _, t') => t_cfs t' = t_cfs t \/
      exists before q after part, load_configs display parse_toml p = Ok (before ++ q :: after) /\
        part ⊆ {[name_for q]} /\ gadgets_are t' (part ∪ (list_to_set (name_for <$> before) ∪ fs))
  end.
Proof.
  intros Hm. unfold cmd_up, cbind, clift. destruct (load_configs display parse_toml p) as [configs|e]; [|by left].
  cbn [of_io map_err]. destruct configs as [|c configs]; [by left|].
  pose proof (up_each_dirs base (c :: configs) t fs Hm) as Hu. destruct (up_list base (c :: configs) t) as [[[]|e] t'].
  - by exists (c :: configs).
  - destruct Hu as (before & q & after & part & -> & Hrest). right. by exists before, q, after, part.
Qed.

Lemma selects_valid names n : utf8_valid (bs n) = true -> n ∈ names -> selects names n = true.
Proof.
  intros Hv Hn. unfold selects, lossy. rewrite from_utf8_lossy_valid by done.
  replace (str_of_bytes (bs n)) with n; [by apply bool_decide_true|].
  symmetry. apply String.string_of_list_byte_of_string.
Qed.

(** Taking down the gadgets that were brought up leaves the gadgets that were there
    before, if none of those goes by one of the names. *)
Theorem up_down_roundtrip base p configs t t1 t2 fs :
  gadgets_are t fs ->
  load_configs display parse_toml p = Ok configs ->
  Forall (fun c => utf8_valid (bs (name_for c)) = true) configs ->
  (forall n, n ∈ fs -> selects (name_for <$> configs) n = false) ->
  up base p t = (Ok tt, t1) ->
  cmd_down usb_gadget_dir (name_for <$> configs) false t1 = (Ok tt, t2) ->
  gadgets_are t2 fs.
Proof.
  intros Hm Hl Hv Hold Hup Hdown. unfold cmd_up, cbind, clift in Hup. rewrite Hl in Hup. cbn [of_io map_err] in Hup.
  destruct configs as [|c configs']; [discriminate Hup|]. set (configs := c :: configs') in *.
  pose proof (up_each_dirs base configs t fs Hm) as Hu. rewrite Hup in Hu. destruct Hu as (_ & _ & Hm1).
  pose proof (down_dirs (name_for <$> configs) t1 _ Hm1) as Hd. rewrite Hdown in Hd.
  replace fs with (filter (fun n => selects (name_for <$> configs) n = false) (list_to_set (name_for <$> configs) ∪ fs));
    [done|].
  apply set_eq. intros n. rewrite elem_of_filter, elem_of_union, elem_of_list_to_set. split; [|by auto].
  intros [Hs [Hn|Hn]]; [|done]. rewrite (selects_valid _ n) in Hs; [done| |done].
  apply list_elem_of_fmap in Hn as (q & -> & Hq). by eapply list.Forall_forall in Hv.
Qed.
End Effects.

(** ** A run *)

Section Witness.
#[local] Existing Instance simple_configfs.
#[local] Existing Instance simple_ffs.
#[local] Existing Instance simple_laws.
#[local] Existing Instance simple_listing.
#[local] Existing Instance GadgetDemo.mac.

(** Two controllers, and a directory of two configurations and another file. *)
#[local] Instance demo_host : HostFs := {|
  h_is_dir p := bool_decide (p ∈ ["/sys/class"; "/sys/class/udc"; "/etc/gadgets"]);
  h_read_dir p := if bool_decide (p = "/sys/class/udc") then Ok [Ok "b.udc"; Ok "a.udc"]
                  else Ok [Ok "serial.toml"; Ok "README"; Ok "hid.toml"];
  h_read p := Ok (bs p);
  h_read_link p := Err (Os ENOENT);
  h_write p v := Ok tt |}.

Definition demo_device : CDeviceConfig := {|
  cd_vendor := 1; cd_product := 2; cd_class := None; cd_sub_class := None; cd_protocol := None;
  cd_manufacturer := None; cd_product_name := Some "demo"; cd_serial := None; cd_language := Some "DE";
  cd_max_packet_size0 := None; cd_device_release := None; cd_usb_version := Some "0x0210"; cd_max_speed := Some "high" |}.

Definition demo_function (content : list byte) : CFunctionConfig :=
  if bool_decide (content = bs "/etc/gadgets/hid.toml")
  then CHid {| hc_sub_class := None; hc_protocol := Some 1; hc_report_desc := Some "0x0501"; hc_report_len := Some 8;
               hc_no_out_endpoint := None |}
  else CSerial {| sc_class := "acm"; sc_console := None |}.

Definition demo_config (content : list byte) : CGadgetConfig := {|
  cg_name := None; cg_udc := None; cg_device := demo_device; cg_os_descriptor := None; cg_web_usb := None;
  cg_config := [{| cu_description := None; cu_max_power := None; cu_self_powered := None; cu_remote_wakeup := None;
                   cu_function := [demo_function content] |}] |}.

Definition demo_toml (content : list byte) : result CGadgetConfig string := Ok (demo_config content).

Definition demo_configs : list (string * CGadgetConfig) :=
  (fun p => (p, demo_config (bs p))) <$> ["/etc/gadgets/hid.toml"; "/etc/gadgets/serial.toml"].

Definition demo_start : Term := {| t_cfs := empty_configfs; t_out := []; t_err := [] |}.

Abbreviation demo_up := (cmd_up (fun m => m) (fun _ => false) (fun _ l => l) None (Ok ["usb_gadget"])
  show_error demo_toml 0 "/etc/gadgets" demo_start).
Abbreviation demo_names := ["hid"; "serial"].

Lemma demo_loads : load_configs show_error demo_toml "/etc/gadgets" = Ok demo_configs.
Proof. vm_compute. reflexivity. Qed.

Lemma demo_dirs : dirs_match (Ok ["usb_gadget"]) (c_fs (t_cfs demo_start)) ∅.
Proof. exact empty_dirs. Qed.

(** Both come up on the first controller, and the listing shows them. *)
Example demo_runs :
  match demo_up with
  | (Ok _, t) => (t_out t, t_out (cmd_list (Ok ["usb_gadget"]) {| t_cfs := t_cfs t; t_out := []; t_err := [] |}).2,
                  is_ok (cmd_down (Ok ["usb_gadget"]) demo_names false t).1)
  | (Err (Fail e), t) => ([show_error e], t_out t, false)
  | (Err Panic, t) => ([], t_out t, false)
  end = (["registered and bound gadget 'hid' to UDC 'a.udc'"; "registered and bound gadget 'serial' to UDC 'a.udc'"],
         ["serial" +:+ tab +:+ "a.udc" +:+ tab +:+ "[acm]"; "hid" +:+ tab +:+ "a.udc" +:+ tab +:+ "[hid]"], true).
Proof. vm_compute. reflexivity. Qed.

Lemma none_selected names n : n ∈ (∅ : gset string) -> selects names n = false.
Proof. set_solver. Qed.

Definition demo_ok : bool :=
  match demo_up with
  | (Ok _, t) => match cmd_down (Ok ["usb_gadget"]) (name_for <$> demo_configs) false t with (Ok _, _) => true | _ => false end
  | _ => false
  end.

Lemma up_down_roundtrip_witness :
  match demo_up with
  | (Ok _, t1) =>
      match cmd_down (Ok ["usb_gadget"]) (name_for <$> demo_configs) false t1 with
      | (Ok _, t2) => dirs_match (Ok ["usb_gadget"]) (c_fs (t_cfs t2)) ∅
      | _ => False
      end
  | _ => False
  end.
Proof.
  assert (demo_ok = true) as Hok by (vm_compute; reflexivity). unfold demo_ok in Hok.
  destruct demo_up as [[[]|e] t1] eqn:E1; [|discriminate].
  destruct (cmd_down (Ok ["usb_gadget"]) (name_for <$> demo_configs) false t1) as [[[]|e] t2] eqn:E2; [|discriminate].
  apply (up_down_roundtrip (fun m => m) (fun _ => false) (fun _ l => l) None (Ok ["usb_gadget"]) show_error demo_toml
    0 "/etc/gadgets" demo_configs demo_start t1 t2 ∅).
  - exact demo_dirs.
  - exact demo_loads.
  - repeat constructor.
  - exact (none_selected (name_for <$> demo_configs)).
  - exact E1.
  - exact E2.
Defined.

Lemma cmd_up_effect_witness :
  match demo_up with
  | (Ok _, t1) => dirs_match (Ok ["usb_gadget"]) (c_fs (t_cfs t1)) (list_to_set (name_for <$> demo_configs) ∪ ∅)
  | _ => False
  end.
Proof.
  assert (demo_ok = true) as Hok by (vm_compute; reflexivity). unfold demo_ok in Hok.
  pose proof (cmd_up_effect (fun m => m) (fun _ => false) (fun _ l => l) None (Ok ["usb_gadget"]) show_error demo_toml
    0 "/etc/gadgets" demo_start ∅ demo_dirs) as Hup.
  destruct demo_up as [[[]|e] t1]; [|discriminate]. destruct Hup as (configs & Hl & _ & _ & _ & Hm).
  rewrite demo_loads in Hl. injection Hl as <-. exact Hm.
Defined.
End Witness.
